(* ===== verification/_CoqProject ===== *)
-Q . S2P
Prelude.v
Monad.v
Ctype.v
Memory.v
Libfdt.v
Fdt.v
FdtSpec.v
FdtTree.v
FdtRo.v
FdtCheck.v
FdtSafe.v
FdtWip.v
FdtRead.v
FdtNav.v
FdtCheckSpec.v
FdtRw.v
FdtEdit.v
FdtRwSpec.v
FdtRwProp.v
Sample.v
ReadProps.v
FdtRwNode.v
FdtRsv.v
FdtPack.v
FdtSw.v
FdtSwSpec.v
FdtSwFinish.v
FdtSwBuild.v
SwProps.v
FdtAddresses.v
FdtOverlay.v
FdtOverlaySpec.v
FdtMergeSpec.v
EditProps.v
DtcUtil.v
DtcData.v
DtcTree.v
DtcFlat.v
DtcRegex.v
DtcSrcpos.v
DtcLexer.v
DtcParser.v
DtcGrammar.v
DtcSource.v
DtcDataSpec.v
DtcTreeSpec.v
DtcMerge.v
DtcGen.v
DtcSort.v
DtcChecks.v
DtcTreeProps.v
DtcCheckFns.v
DtcBusChecks.v
DtcCheckTable.v
DtcCheckSpec.v
DtcCheckEngine.v
DtcCheckSound.v
DtcCheckProps.v
DtcUnflat.v
DtcFront.v
DtcUnflatSafe.v
DtcFlatSpec.v
DtcUnflatSpec.v
DtcScan.v
Dtsv0.v
DtcSourceSpec.v
DtcMain.v
DtcProps.v
SimSoftfloat.v
ToolWorld.v
ToolUtil.v
ToolPut.v
ToolHeap.v
ToolGet.v
ToolGetSpec.v
ToolPutSpec.v
ToolProps.v
ToolDump.v
ToolOverlay.v
Findings.v
