(* ===== verification/Prelude.v ===== *)
(** * A model of libfdt and dtc

    The repository carries dtc 1.6.1 (src/dtc-1.6.1): libfdt, the library that
    reads and edits flattened device trees, and dtc, the compiler between tree
    source, flattened trees and assembly, with the tools fdtget, fdtput,
    fdtdump and fdtoverlay. The rest of the repository is a hardware design
    with its test benches. This library models libfdt, dtc and the tools whole, and
    the soft-float calls of the simulation (SimSoftfloat.v).

    ** The machine

    Prelude.v (this file) has the C integers as [Z] with their conversions
    ([u32], [u64], [s32]), bytes, strings and the arithmetic tactics. Monad.v
    has results that can fault ([res]: an access outside memory, a signed
    overflow, a loop past its bound, a recursion of the parser out of fuel,
    [die], a failed [assert]), loops, and the
    rules of weakest preconditions ([wp E]: the faults [E] allows; with [total]
    a result is proved to exist). Memory.v is the flat memory libfdt runs on, a
    finite map from addresses to bytes, with [memcmp], [memmove] and the like;
    Ctype.v the character functions of the C locale.

    ** libfdt

    - Libfdt.v: fdt.h, libfdt.h, libfdt_internal.h; constants, header fields,
      error codes, [can_assume] with the default mask 0.
    - Fdt.v: fdt.c. FdtRo.v: fdt_ro.c. FdtCheck.v: fdt_check.c, fdt_strerror.c.
      FdtWip.v: fdt_wip.c. FdtRw.v: fdt_rw.c. FdtSw.v: fdt_sw.c,
      fdt_empty_tree.c. FdtAddresses.v: fdt_addresses.c. FdtOverlay.v:
      fdt_overlay.c. A function is the C function of that name over a memory
      and addresses; one that changes memory returns the new memory; what it
      reports through a pointer it returns as well.
    - FdtSpec.v states what the header and one tag step are on any contents;
      FdtSafe.v proves the readers total and inside the blob there. FdtTree.v
      gives the contents of a well-formed structure block as tokens and trees,
      FdtRead.v and FdtNav.v what the readers return on one. FdtCheckSpec.v is
      the contract of [fdt_check_full], which accepts a little more than trees.
    - FdtEdit.v, FdtRwSpec.v, FdtRwProp.v, FdtRwNode.v (with the edits in
      place) and FdtRsv.v are the edits: an abstract edit of the tokens, and the bytes
      after the call being those of the edited tokens. FdtPack.v: opening a
      blob into a buffer, of any block layout, and packing it.
    - FdtOverlaySpec.v and FdtMergeSpec.v: an overlay's phandles shifted, and
      a node of it merged, as functions on trees, and fdt_overlay.c refining
      them; two blobs lie apart in one memory.
    - FdtSwSpec.v, FdtSwFinish.v and FdtSwBuild.v are the sequential
      writer as a state machine over abstract states and the room left, its
      simulation, and the trees it writes.

    ** dtc

    - DtcUtil.v: util.c. DtcData.v: data.c. DtcTree.v and DtcGen.v:
      livetree.c; a pointer to a node is its position, so a change of a node
      is [update_at]. DtcFlat.v and DtcUnflat.v: flattree.c; the emitter
      interface is the record [emitter] with its two targets. DtcSource.v:
      treesource.c, where the positions of the annotate option are given by
      the record [notes]. DtcSrcpos.v: srcpos.c; a file's state is referred to
      by its number. DtcFront.v: fstree.c and yamltree.c, the YAML as the
      events given to the emitter. DtcMain.v: dtc.c, with the file
      system as a parameter. DtcChecks.v (the engine), DtcCheckFns.v, DtcBusChecks.v
      (the checks) and DtcCheckTable.v (the table): checks.c; a
      [struct check] is its constant part [check] and its entry in
      [cs_checks] by name, and a check is a function on [cstate].
    - DtcLexer.v: dtc-lexer.l, its rules as a table of regular expressions and
      actions; DtcRegex.v has the expressions, their derivatives and flex's
      choice of the longest match. DtcParser.v: dtc-parser.y, by recursive
      descent over the tokens; DtcGrammar.v has the productions of the grammar
      as an inductive relation over the same semantic actions, and proves that
      the parser returns a tree exactly when the grammar derives it, and that
      its recursion never runs out of fuel.
    - DtcScan.v: the lexemes of a text ([scans]) and that [yylex] returns their
      tokens; what follows the ones dtc prints does not make a longer match,
      which the automata of the patterns show (their states, computed once,
      are closed under the characters of a lexeme). DtcSourceSpec.v: the text
      written for a tree, its tokens, and the derivation of the tree from
      them. Dtsv0.v: convert-dtsv0-lexer.l, the converter from the old source
      format, on the same regular expressions; it ends on every text, and the
      literals it writes are read as the numbers they were made of.
    - DtcDataSpec.v: buffers and escapes. DtcTreeSpec.v: the tree as a map
      from paths to values; DtcMerge.v, DtcSort.v (orders, full paths,
      phandles): what the tree operations do to it. DtcFlatSpec.v,
      DtcUnflatSpec.v, DtcUnflatSafe.v: the blob written, read back, and
      blobs of any contents. DtcCheckSpec.v: what a check may change;
      DtcCheckEngine.v: one reference fixup, and the engine against any table
      whose checks keep to that (a section's hypotheses, discharged for the
      real table in DtcCheckSound.v and DtcCheckProps.v).

    ** The tools

    - ToolWorld.v: the state of a tool is its memory, its heap blocks, its
      output streams and the files it wrote ([world]); what surrounds it is an
      [env]: the files, how much a [read] or [write] moves, the contents of
      fresh memory. A function is a [prog], from both to a result and a new
      state. [xrealloc] always moves the block.
    - ToolUtil.v: the part of util.c the tools share. ToolGet.v: fdtget.c.
      ToolPut.v: fdtput.c. ToolDump.v: fdtdump.c. ToolOverlay.v: fdtoverlay.c.
      Each [_main] starts from the options [getopt_long] found.
    - ToolHeap.v: total correctness of programs ([runs]) and the invariant of
      the heap ([heap_ok]) that allocation keeps. a file read and
      a blob written, whatever the calls move at a time, a block
      with an editable tree, and a file that is one. ToolPutSpec.v: the value
      made of the arguments ([encode_args]), the room made for a property, and
      fdtput as an edit of the tree in a file. ToolGetSpec.v: the text of a
      value ([shown]) and fdtget as a function of the tree in a file; the
      text shown of a value is that of the arguments it was made of. Both
      name the node by its path: FdtNav.v has what the node of a path holds
      and the tree with that changed.

    ** The properties

    Each is a theorem whose comment starts with its number.
    - ReadProps.v (C1 to C10): what validation accepts, one step of the tag
      walker on any contents, accesses stay in bounds, every search returns,
      and the readers are functions on the tree.
    - EditProps.v (C11 to C13, C15, C18, C19, C38 to C40): each edit is an
      edit of the tree, with its errors, and what was set reads back; opening
      and packing keep the tree; the overlay functions are those of the trees.
    - ToolProps.v (C14, C16, C17): fdtput is an edit of the tree in a file and
      always finds room; fdtget prints what the tree says; what one stored the
      other shows.
    - SwProps.v (C20 to C22): the sequential writer keeps its states and
      lacks space only when it does, has room when the buffer is large enough,
      and its trees read back.
    - DtcProps.v (C23 to C27, C33, C34): a blob dtc writes is one libfdt and
      dtc read back; source text dtc writes is read back as the tree; the
      parser is the grammar, and its recursion always ends; dtc's readers stay in any blob
      and any string.
    - DtcTreeProps.v (C28 to C32): merging, well-formedness, sorting, paths,
      phandles.
    - DtcCheckProps.v (C35 to C37): what the checks establish, and a
      reference fixed up.
    - Findings.v: behaviours the code does not intend, each at one input.
      Sample.v and the ends of DtcTreeSpec.v and ToolHeap.v have the trees and
      the machine at which the theorems are applied.

    ** Bounds and fuel

    A loop of the C code is [loop], at most 2^64 rounds ([loop_bound]): the
    loops are measured by quantities below that, and a theorem that a function
    returns proves so. The recursion of path lookup through aliases has
    [call_depth] 1000; an alias that names itself has no bound in the code,
    and the fault [Div] there is a finding. Functions over lists that the C
    code walks by pointers take the list's length as fuel. The parser's fuel
    comes from the number of tokens left; without any it would give the fault
    [Fuel], which no other code gives, and C27 shows that it never does,
    whatever the tokens. [int] arithmetic is checked ([sint]): a theorem without [Ovf] among
    its faults shows it does not overflow.

    ** Not modelled

    The texts of check messages (a message is the check, the node and the
    property) and of the usage ([util_usage] and [util_version] end the
    process, the fault [Die]), and of errors in the source; the positions of
    nodes and properties, a parameter of the driver; the limit bison puts on
    the depth of its stack; libyaml; the test programs and the Python
    binding; src/dtc_install, an installed copy of the headers; the Verilog
    design and its test benches; the SoftFloat library, a parameter. *)
From stdpp Require Export base list gmap option.
From Stdlib Require Export ZArith Lia.
From stdpp Require Export strings.
From Stdlib Require Strings.Byte.
From Stdlib Require Export Init.Byte.

Open Scope Z_scope.

(** ** Fixed-width C integers (LP64) *)

Definition INT_MAX : Z := 2147483647.
Definition INT_MIN : Z := -2147483648.
Definition UINT32_MAX : Z := 4294967295.
Definition INT32_MAX : Z := INT_MAX.

(** Conversion to [uint32_t], [uint64_t] ([size_t], [uintptr_t]) and [int]. *)
Definition u32 (x : Z) : Z := x mod 4294967296.
Definition u64 (x : Z) : Z := x mod 18446744073709551616.
Definition s32 (x : Z) : Z := (x + 2147483648) mod 4294967296 - 2147483648.

Definition is_s32 (x : Z) : Prop := INT_MIN <= x <= INT_MAX.
Definition is_u32 (x : Z) : Prop := 0 <= x <= UINT32_MAX.
Definition is_u64 (x : Z) : Prop := 0 <= x < 18446744073709551616.

(** ** Bytes and character strings *)

#[export] Instance byte_eq_decision : EqDecision byte := Byte.byte_eq_dec.

Definition b2z (b : byte) : Z := Z.of_N (Byte.to_N b).
Definition z2b (z : Z) : byte := default x00 (Byte.of_N (Z.to_N (z mod 256))).

(** The characters of a C string literal, without its terminating NUL. *)
Definition str (s : String.string) : list byte := String.list_byte_of_string s.
Arguments str s%_string.

(** A C string never holds its terminator. *)
Definition no_nul (s : list byte) : Prop := x00 ∉ s.

(** Big-endian encoding of the low [8 * n] bits of [z], most significant byte first. *)
Definition be_enc32 (z : Z) : list byte :=
  [z2b (Z.shiftr z 24); z2b (Z.shiftr z 16); z2b (Z.shiftr z 8); z2b z].
Definition be_enc64 (z : Z) : list byte :=
  be_enc32 (Z.shiftr z 32) ++ be_enc32 z.

(** Rounding up to a power of two, as the [FDT_ALIGN] and [ALIGN] macros do. *)
Definition align_up (x a : Z) : Z := Z.land (x + a - 1) (Z.lnot (a - 1)).

(** The length of a list as an integer. *)
Definition zlen {A} (l : list A) : Z := Z.of_nat (length l).

(** ** Automation *)

Create HintDb cint.

(** Sealed, so that no tactic compares their bounds by computation. *)
#[export] Instance is_s32_dec x : Decision (is_s32 x).
Proof. unfold is_s32. apply _. Defined.
#[global] Opaque is_s32 is_u32 is_u64.

Ltac cint_unfold :=
  with_strategy transparent [is_s32 is_u32 is_u64]
    (unfold is_s32, is_u32, is_u64, INT32_MAX, INT_MIN, INT_MAX, UINT32_MAX in * ).

(** [ilia]: linear arithmetic after opening the C integer ranges. *)
Ltac ilia := cint_unfold; lia.

(** Conversion first: unification would compare the numerals of unrelated
    inequalities bit by bit. *)
Ltac fast_done ::=
  solve [ assumption | reflexivity | symmetry; assumption
        | eassumption | symmetry; eassumption | apply not_symmetry; eassumption ].

(** Turn the boolean comparisons of the context and the goal into propositions. *)
Ltac bool_prop :=
  repeat match goal with
  | H : andb _ _ = true |- _ => apply andb_prop in H; destruct H
  | H : orb _ _ = false |- _ => apply orb_false_elim in H; destruct H
  | H : negb _ = true |- _ => apply negb_true_iff in H
  | H : negb _ = false |- _ => apply negb_false_iff in H
  | H : (_ =? _) = true |- _ => apply Z.eqb_eq in H
  | H : (_ =? _) = false |- _ => apply Z.eqb_neq in H
  | H : (_ <? _) = true |- _ => apply Z.ltb_lt in H
  | H : (_ <? _) = false |- _ => apply Z.ltb_ge in H
  | H : (_ <=? _) = true |- _ => apply Z.leb_le in H
  | H : (_ <=? _) = false |- _ => apply Z.leb_gt in H
  end.

(** ** Integer lemmas *)

Lemma u32_range x : is_u32 (u32 x).
Proof. unfold u32. cint_unfold. pose proof (Z.mod_pos_bound x 4294967296). lia. Qed.

Lemma u32_small x : is_u32 x -> u32 x = x.
Proof. intros. unfold u32. apply Z.mod_small. ilia. Qed.

Lemma u64_range x : is_u64 (u64 x).
Proof. unfold u64. cint_unfold. apply Z.mod_pos_bound. lia. Qed.

Lemma u64_small x : is_u64 x -> u64 x = x.
Proof. intros. unfold u64. apply Z.mod_small. ilia. Qed.

Lemma s32_range x : is_s32 (s32 x).
Proof. unfold s32. cint_unfold. pose proof (Z.mod_pos_bound (x + 2147483648) 4294967296). lia. Qed.

Lemma s32_small x : is_s32 x -> s32 x = x.
Proof. intros. unfold s32. rewrite Z.mod_small; ilia. Qed.

(** Converting to [int] and back changes nothing modulo 2^32. *)
Lemma s32_wrap x : exists k, s32 x = x + k * 4294967296.
Proof.
  unfold s32. exists (- ((x + 2147483648) / 4294967296)).
  pose proof (Z.div_mod (x + 2147483648) 4294967296). lia.
Qed.

Lemma u32_wrap x : exists k, u32 x = x + k * 4294967296.
Proof.
  unfold u32. exists (- (x / 4294967296)). pose proof (Z.div_mod x 4294967296). lia.
Qed.

Lemma u32_s32 x : u32 (s32 x) = u32 x.
Proof.
  destruct (s32_wrap x) as [k ->]. unfold u32. apply Z.mod_add. lia.
Qed.

Lemma s32_u32 x : s32 (u32 x) = s32 x.
Proof.
  destruct (u32_wrap x) as [k ->]. unfold s32.
  replace (x + k * 4294967296 + 2147483648) with (x + 2147483648 + k * 4294967296) by lia.
  rewrite Z.mod_add by lia. reflexivity.
Qed.

Lemma align_up_spec x k :
  0 <= k -> align_up x (2 ^ k) = (x + 2 ^ k - 1) / 2 ^ k * 2 ^ k.
Proof.
  intros Hk. unfold align_up.
  replace (2 ^ k - 1) with (Z.ones k) by (rewrite Z.ones_equiv; lia).
  rewrite <- Z.ldiff_land, Z.ldiff_ones_r by lia.
  rewrite Z.shiftl_mul_pow2, Z.shiftr_div_pow2 by lia. reflexivity.
Qed.

Lemma align_up_4 x : align_up x 4 = (x + 3) / 4 * 4.
Proof.
  change (align_up x 4) with (align_up x (2 ^ 2)). rewrite align_up_spec by lia.
  change (2 ^ 2) with 4. f_equal. f_equal. lia.
Qed.

Lemma align_up_8 x : align_up x 8 = (x + 7) / 8 * 8.
Proof.
  change (align_up x 8) with (align_up x (2 ^ 3)). rewrite align_up_spec by lia.
  change (2 ^ 3) with 8. f_equal. f_equal. lia.
Qed.

Lemma align_up_4_bounds x : x <= align_up x 4 <= x + 3 /\ (align_up x 4) mod 4 = 0.
Proof.
  rewrite align_up_4. split.
  - pose proof (Z.div_mod (x + 3) 4). pose proof (Z.mod_pos_bound (x + 3) 4). lia.
  - apply Z.mod_mul. lia.
Qed.

Lemma align_up_4_id x : x mod 4 = 0 -> align_up x 4 = x.
Proof.
  intros. rewrite align_up_4. pose proof (Z.div_mod x 4).
  replace (x + 3) with (3 + x / 4 * 4) by lia. rewrite Z.div_add by lia.
  change (3 / 4) with 0. lia.
Qed.

Lemma align_up_4_add x y : x mod 4 = 0 -> align_up (x + y) 4 = x + align_up y 4.
Proof.
  intros. rewrite !align_up_4. pose proof (Z.div_mod x 4).
  replace (x + y + 3) with (y + 3 + x / 4 * 4) by lia. rewrite Z.div_add by lia. lia.
Qed.

(** ** List lengths *)

Lemma zlen_nonneg {A} (l : list A) : 0 <= zlen l.
Proof. unfold zlen. lia. Qed.

Lemma zlen_app {A} (l1 l2 : list A) : zlen (l1 ++ l2) = zlen l1 + zlen l2.
Proof. unfold zlen. rewrite length_app. lia. Qed.

Lemma zlen_cons {A} (x : A) l : zlen (x :: l) = zlen l + 1.
Proof. unfold zlen. simpl. lia. Qed.

Lemma zlen_drop {A} (l : list A) n : 0 <= n <= zlen l -> zlen (drop (Z.to_nat n) l) = zlen l - n.
Proof. unfold zlen. rewrite length_drop. lia. Qed.

Lemma zlen_take {A} (l : list A) n : 0 <= n <= zlen l -> zlen (take (Z.to_nat n) l) = n.
Proof. unfold zlen. rewrite length_take. lia. Qed.

(** ** Byte lemmas *)

Lemma b2z_range b : 0 <= b2z b < 256.
Proof. unfold b2z. pose proof (Byte.to_N_bounded b). lia. Qed.

Lemma b2z_z2b z : b2z (z2b z) = z mod 256.
Proof.
  unfold b2z, z2b. pose proof (Z.mod_pos_bound z 256 ltac:(lia)).
  destruct (Byte.of_N (Z.to_N (z mod 256))) as [b|] eqn:E; simpl.
  - apply Byte.to_of_N in E. rewrite E. lia.
  - apply Byte.of_N_None_iff in E. lia.
Qed.

Lemma z2b_b2z b : z2b (b2z b) = b.
Proof.
  unfold z2b. rewrite Z.mod_small by (apply b2z_range).
  unfold b2z. rewrite N2Z.id, Byte.of_to_N. reflexivity.
Qed.

Lemma b2z_inj a b : b2z a = b2z b -> a = b.
Proof. intros H. rewrite <- (z2b_b2z a), <- (z2b_b2z b), H. reflexivity. Qed.

Lemma be_enc32_length z : length (be_enc32 z) = 4%nat.
Proof. reflexivity. Qed.

Lemma be_enc32_zlen z : zlen (be_enc32 z) = 4.
Proof. reflexivity. Qed.

Lemma be_enc64_length z : length (be_enc64 z) = 8%nat.
Proof. reflexivity. Qed.

(** Tactics never compute a rounding. *)
#[global] Opaque align_up.
