(* ===== verification/Monad.v ===== *)
(** Computations of the C machine: results that can fault, checked signed
    arithmetic, bounded loops, and a weakest-precondition calculus that covers
    both total correctness and memory safety. *)
From S2P Require Import Prelude.

(** ** Faults and results

    [Oob] is an access outside allocated memory (a null dereference
    included), [Ovf] a signed overflow, [Div] a loop or recursion that used
    up its bound; [Fuel] is the recursion of dtc's parser without fuel, which
    never happens; [Die] and [Abort] are the ways dtc ends itself, [die()] and
    a failed [assert]. *)
Inductive fault := Oob | Ovf | Div | Fuel | Die | Abort.

Inductive res (A : Type) :=
| Ret (a : A)
| Fault (f : fault).
Arguments Ret {A} a.
Arguments Fault {A} f.

Definition rbind {A B} (r : res A) (k : A -> res B) : res B :=
  match r with
  | Ret a => k a
  | Fault f => Fault f
  end.

Declare Scope c_scope.
Delimit Scope c_scope with c.
Open Scope c_scope.

Notation "'let!' x := e 'in' k" := (rbind e (fun x => k))
  (at level 10, x binder, e at level 200, k at level 200,
   format "'let!'  x  :=  e  'in' '//' k") : c_scope.
Notation "'let!' ' p := e 'in' k" := (rbind e (fun p => k))
  (at level 10, p strict pattern, e at level 200, k at level 200,
   format "'let!'  ' p  :=  e  'in' '//' k") : c_scope.

(** Short-circuit [&&] and [||] over conditions that read memory. *)
Notation "a &&! b" := (rbind a (fun c : bool => if c then b else Ret false))
  (at level 40, left associativity) : c_scope.
Notation "a ||! b" := (rbind a (fun c : bool => if c then Ret true else b))
  (at level 50, left associativity) : c_scope.

(** A signed [int] computation: overflow is undefined. *)
Definition sint (x : Z) : res Z :=
  if (INT_MIN <=? x) && (x <=? INT_MAX) then Ret x else Fault Ovf.

(** Dereferencing a pointer that may be NULL. *)
Definition nonnull {A} (p : option A) : res A :=
  match p with
  | Some a => Ret a
  | None => Fault Oob
  end.

(** [assert(b)]. *)
Definition c_assert (b : bool) : res unit := if b then Ret tt else Fault Abort.

Definition is_null {A} (p : option A) : bool :=
  match p with
  | Some _ => false
  | None => true
  end.

(** ** Loops

    A loop body either continues with a new state or breaks with a value.
    [loop_pos] runs the body at most [p] times: the bound is binary, so a run
    that breaks early costs only the iterations it makes. *)
Inductive ctl (S A : Type) :=
| Continue (s : S)
| Break (a : A).
Arguments Continue {S A} s.
Arguments Break {S A} a.

Fixpoint loop_pos {S A} (p : positive) (body : S -> res (ctl S A)) (s : S) : res (ctl S A) :=
  match p with
  | xH => body s
  | xO q =>
    let! r := loop_pos q body s in
    match r with
    | Continue s' => loop_pos q body s'
    | Break a => Ret (Break a)
    end
  | xI q =>
    let! r := body s in
    match r with
    | Continue s1 =>
      let! r := loop_pos q body s1 in
      match r with
      | Continue s' => loop_pos q body s'
      | Break a => Ret (Break a)
      end
    | Break a => Ret (Break a)
    end
  end.

(** The bound of every loop, 2^64: a loop whose progress is measured by a
    64-bit quantity that decreases never reaches it. *)
Definition loop_bound : positive := 18446744073709551616%positive.

Definition loop {S A} (body : S -> res (ctl S A)) (s : S) : res A :=
  let! r := loop_pos loop_bound body s in
  match r with
  | Continue _ => Fault Div
  | Break a => Ret a
  end.

(** ** Reasoning: weakest preconditions

    [wp E r Q]: [r] is a value satisfying [Q], or a fault [E] allows. *)
Definition wp (E : fault -> Prop) {A} (r : res A) (Q : A -> Prop) : Prop :=
  match r with
  | Ret a => Q a
  | Fault f => E f
  end.

(** No fault at all, and no fault but overflow and divergence. *)
Definition total (f : fault) : Prop := False.
Definition memsafe (f : fault) : Prop := f <> Oob.

(** ** Equations of the monad *)

Lemma rbind_ret {A B} (a : A) (k : A -> res B) : rbind (Ret a) k = k a.
Proof. reflexivity. Qed.

Lemma rbind_assoc {A B C} (r : res A) (k : A -> res B) (h : B -> res C) :
  rbind (rbind r k) h = rbind r (fun a => rbind (k a) h).
Proof. destruct r; reflexivity. Qed.

Lemma rbind_Ret_inv {A B} (r : res A) (k : A -> res B) b :
  rbind r k = Ret b -> exists a, r = Ret a /\ k a = Ret b.
Proof. destruct r; simpl; [eauto | discriminate]. Qed.

Lemma sint_small x : is_s32 x -> sint x = Ret x.
Proof.
  intros H. unfold sint. destruct ((INT_MIN <=? x) && (x <=? INT_MAX)) eqn:E; [done|].
  apply andb_false_iff in E. destruct E as [E|E]; apply Z.leb_gt in E; ilia.
Qed.

(** ** Rules of [wp] *)

Section wp_rules.
Context (E : fault -> Prop).

Lemma wp_ret {A} (a : A) (Q : A -> Prop) : Q a -> wp E (Ret a) Q.
Proof. done. Qed.

Lemma wp_bind {A B} (r : res A) (k : A -> res B) (Q : B -> Prop) :
  wp E r (fun a => wp E (k a) Q) -> wp E (rbind r k) Q.
Proof. destruct r; done. Qed.

Lemma wp_mono {A} (r : res A) (P Q : A -> Prop) :
  wp E r P -> (forall a, P a -> Q a) -> wp E r Q.
Proof. destruct r; simpl; auto. Qed.

(** Sequencing: a specification of the first step, then the rest. *)
Lemma wp_seq {A B} (r : res A) (k : A -> res B) (P : A -> Prop) (Q : B -> Prop) :
  wp E r P -> (forall a, P a -> wp E (k a) Q) -> wp E (rbind r k) Q.
Proof. intros. apply wp_bind. eapply wp_mono; eauto. Qed.

(** The same, keeping the equation of the step. *)
Lemma wp_seq_eq {A B} (r : res A) (k : A -> res B) (P : A -> Prop) (Q : B -> Prop) :
  wp E r P -> (forall a, r = Ret a -> P a -> wp E (k a) Q) -> wp E (rbind r k) Q.
Proof. destruct r; simpl; auto. Qed.

Lemma wp_and {A} (r : res A) (P Q : A -> Prop) :
  wp E r P -> wp E r Q -> wp E r (fun a => P a /\ Q a).
Proof. destruct r; simpl; auto. Qed.

Lemma wp_sint x (Q : Z -> Prop) : is_s32 x -> Q x -> wp E (sint x) Q.
Proof. intros. rewrite sint_small; done. Qed.

Lemma wp_sint_ovf x (Q : Z -> Prop) :
  E Ovf -> (is_s32 x -> Q x) -> wp E (sint x) Q.
Proof.
  intros HE HQ. unfold sint. destruct ((INT_MIN <=? x) && (x <=? INT_MAX)) eqn:H; simpl; [|done].
  apply HQ. bool_prop. ilia.
Qed.

(** Loops: an invariant relating the state to a measure below 2^64 that
    decreases. *)
Lemma wp_loop_pos {S A} (I : S -> Z -> Prop) (body : S -> res (ctl S A)) (Q : A -> Prop) :
  (forall s n, I s n ->
    wp E (body s) (fun r => match r with
                            | Continue s' => exists n', I s' n' /\ n' < n
                            | Break a => Q a end)) ->
  forall p s n, I s n ->
    wp E (loop_pos p body s) (fun r => match r with
                            | Continue s' => exists n', I s' n' /\ n' <= n - Z.pos p
                            | Break a => Q a end).
Proof.
  intros Hb p. induction p as [p IH|p IH|]; intros s n Hs; simpl.
  - eapply wp_seq; [apply (Hb _ _ Hs)|]. intros [s1|a]; [|done]. intros (n1 & H1 & M1).
    eapply wp_seq; [apply (IH _ _ H1)|]. intros [s2|a]; [|done]. intros (n2 & H2 & M2).
    eapply wp_mono; [apply (IH _ _ H2)|]. intros [s3|a]; [|done]. intros (n3 & H3 & M3).
    exists n3. split; [done|lia].
  - eapply wp_seq; [apply (IH _ _ Hs)|]. intros [s2|a]; [|done]. intros (n2 & H2 & M2).
    eapply wp_mono; [apply (IH _ _ H2)|]. intros [s3|a]; [|done]. intros (n3 & H3 & M3).
    exists n3. split; [done|lia].
  - eapply wp_mono; [apply (Hb _ _ Hs)|]. intros [s1|a]; [|done]. intros (n1 & H1 & M1).
    exists n1. split; [done|lia].
Qed.

Lemma wp_loop_rel {S A} (I : S -> Z -> Prop) (body : S -> res (ctl S A)) s n (Q : A -> Prop) :
  I s n ->
  (forall s n, I s n -> 0 <= n < Z.pos loop_bound) ->
  (forall s n, I s n ->
    wp E (body s) (fun r => match r with
                            | Continue s' => exists n', I s' n' /\ n' < n
                            | Break a => Q a end)) ->
  wp E (loop body s) Q.
Proof.
  intros Hs Hm Hb. unfold loop. eapply wp_seq; [by eapply wp_loop_pos|].
  intros [s'|a]; simpl; [|done]. intros (n' & Hs' & Hle).
  pose proof (Hm _ _ Hs). pose proof (Hm _ _ Hs'). lia.
Qed.

Lemma wp_loop {S A} (I : S -> Prop) (meas : S -> Z) (body : S -> res (ctl S A)) s (Q : A -> Prop) :
  I s ->
  (forall s, I s -> 0 <= meas s < Z.pos loop_bound) ->
  (forall s, I s ->
    wp E (body s) (fun r => match r with
                            | Continue s' => I s' /\ meas s' < meas s
                            | Break a => Q a end)) ->
  wp E (loop body s) Q.
Proof.
  intros Hs Hm Hb. apply (wp_loop_rel (fun s n => I s /\ n = meas s) _ _ (meas s)); [done| |].
  - intros s0 n [H0 ->]. by apply Hm.
  - intros s0 n [H0 ->]. eapply wp_mono; [by apply Hb|]. intros [s'|a]; [|done].
    intros [H1 H2]. by exists (meas s').
Qed.

(** Where divergence is allowed an invariant is enough. *)
Lemma wp_loop_inv {S A} (I : S -> Prop) (body : S -> res (ctl S A)) s (Q : A -> Prop) :
  E Div ->
  I s ->
  (forall s, I s ->
    wp E (body s) (fun r => match r with
                            | Continue s' => I s'
                            | Break a => Q a end)) ->
  wp E (loop body s) Q.
Proof.
  intros HE Hs Hb. unfold loop.
  assert (Hp : forall p s, I s ->
    wp E (loop_pos p body s) (fun r => match r with Continue s' => I s' | Break a => Q a end)).
  { intros p. induction p as [p IH|p IH|]; intros s0 Hs0; simpl; auto.
    - eapply wp_seq; [apply Hb, Hs0|]. intros [s1|a] H1; [|done].
      eapply wp_seq; [apply IH, H1|]. intros [s2|a] H2; [|done]. apply IH, H2.
    - eapply wp_seq; [apply IH, Hs0|]. intros [s2|a] H2; [|done]. apply IH, H2. }
  eapply wp_seq; [apply Hp, Hs|]. intros [s'|a]; done.
Qed.

(** Divergence allowed, or a measure under the condition [P]. *)
Lemma wp_loop_if (P : Prop) {S A} (I : S -> Prop) (meas : S -> Z)
    (body : S -> res (ctl S A)) s (Q : A -> Prop) :
  (E Div \/ P) ->
  I s ->
  (P -> forall s, I s -> 0 <= meas s < Z.pos loop_bound) ->
  (forall s, I s ->
    wp E (body s) (fun r => match r with
                            | Continue s' => I s' /\ (P -> meas s' < meas s)
                            | Break a => Q a end)) ->
  wp E (loop body s) Q.
Proof.
  intros [HE|HP] Hs Hm Hb.
  - apply (wp_loop_inv I); auto. intros s0 Hs0. eapply wp_mono; [apply Hb, Hs0|].
    intros [s'|a]; tauto.
  - apply (wp_loop I meas); auto. intros s0 Hs0. eapply wp_mono; [apply Hb, Hs0|].
    intros [s'|a]; tauto.
Qed.
End wp_rules.

(** A total specification that pins the value is an equation. *)
Lemma wp_total_eq {A} (r : res A) v : wp total r (fun a => a = v) <-> r = Ret v.
Proof.
  split; [|intros ->; done]. destruct r; simpl; [by intros -> | done].
Qed.

Lemma wp_total_ex {A} (r : res A) Q : wp total r Q <-> exists a, r = Ret a /\ Q a.
Proof.
  destruct r; simpl; split; [eauto | intros (? & [= <-] & ?); done | done | intros (? & ? & ?); done].
Qed.

Lemma wp_memsafe {A} (r : res A) Q : wp memsafe r Q -> r <> Fault Oob.
Proof. destruct r as [|[]]; simpl; done || (intros H; by destruct H). Qed.

Lemma wp_ret_inv E {A} (r : res A) Q a : wp E r Q -> r = Ret a -> Q a.
Proof. intros H ->. exact H. Qed.

(** A body that always continues inside a set of states never ends. *)
Lemma loop_diverges {S A} (I : S -> Prop) (body : S -> res (ctl S A)) s :
  I s -> (forall s, I s -> exists s', body s = Ret (Continue s') /\ I s') ->
  loop body s = Fault Div.
Proof.
  intros Hs Hb. unfold loop.
  assert (Hp : forall p s, I s -> exists s', loop_pos p body s = Ret (Continue s') /\ I s').
  { intros p. induction p as [p IH|p IH|]; intros s0 Hs0; simpl; auto.
    - destruct (Hb _ Hs0) as (s1 & -> & H1). simpl.
      destruct (IH _ H1) as (s2 & -> & H2). simpl. apply IH, H2.
    - destruct (IH _ Hs0) as (s2 & -> & H2). simpl. apply IH, H2. }
  destruct (Hp loop_bound s Hs) as (s' & -> & _). reflexivity.
Qed.

(** Partial correctness: whatever the fault. *)
Definition any (f : fault) : Prop := True.

Lemma wp_any {A} (r : res A) : wp any r (fun _ => True).
Proof. by destruct r. Qed.

Lemma wp_any_bind {A B} (r : res A) (k : A -> res B) (Q : B -> Prop) :
  (forall a, r = Ret a -> wp any (k a) Q) -> wp any (rbind r k) Q.
Proof. destruct r; intros H; [by apply H|exact I]. Qed.

Lemma wp_any_ret {A} (r : res A) (Q : A -> Prop) a : wp any r Q -> r = Ret a -> Q a.
Proof. by intros H ->. Qed.

(** ** Code that takes no fuel

    Nothing but the parser gives the fault [Fuel]. *)
Definition fueled {A} (r : res A) : Prop := r <> Fault Fuel.

Lemma fueled_ret {A} (a : A) : fueled (Ret a).
Proof. done. Qed.

Lemma fueled_fault {A} f : f <> Fuel -> fueled (Fault (A := A) f).
Proof. by intros H [= ->]. Qed.

Lemma fueled_bind_eq {A B} (r : res A) (k : A -> res B) :
  fueled r -> (forall a, r = Ret a -> fueled (k a)) -> fueled (rbind r k).
Proof. destruct r; cbn [rbind]; [auto|]. intros H _ [= ->]. by apply H. Qed.

Lemma fueled_bind {A B} (r : res A) (k : A -> res B) : fueled r -> (forall a, fueled (k a)) -> fueled (rbind r k).
Proof. intros Hr Hk. by apply fueled_bind_eq. Qed.

Lemma fueled_loop {S A} (body : S -> res (ctl S A)) s : (forall s, fueled (body s)) -> fueled (loop body s).
Proof.
  intros Hb. assert (Hp : forall p s, fueled (loop_pos p body s)).
  { intros p. induction p as [p IH|p IH|]; intros s0; cbn [loop_pos]; [| |apply Hb];
      repeat (apply fueled_bind; [first [apply IH|apply Hb]|intros []]); try apply fueled_ret; apply IH. }
  apply fueled_bind; [apply Hp|]. by intros [].
Qed.

Lemma fueled_sint x : fueled (sint x).
Proof. unfold sint. by destruct (_ && _). Qed.

Lemma fueled_nonnull {A} (p : option A) : fueled (nonnull p).
Proof. by destruct p. Qed.

Lemma fueled_assert b : fueled (c_assert b).
Proof. by destruct b. Qed.

Create HintDb fuel discriminated.
#[export] Hint Resolve fueled_ret fueled_sint fueled_nonnull fueled_assert : fuel.

(** Follow the code: every part of it takes no fuel. *)
Ltac fueled :=
  repeat (cbn beta iota; match goal with
  | |- forall _, _ => intros ?
  | |- fueled (Fault _) => apply fueled_fault; congruence
  | |- fueled (rbind _ _) => apply fueled_bind
  | |- fueled (loop _ _) => apply fueled_loop
  | |- fueled (match ?x with _ => _ end) => destruct x
  | |- fueled _ => solve [auto with fuel nocore]
  end).
