(* ===== verification/Ctype.v ===== *)
(** The functions of the C library on characters and strings that the sources
    use, in the C locale. *)
From S2P Require Import Prelude Monad.

(** ** <ctype.h> *)

Definition is_space (c : byte) : bool :=
  bool_decide (c = " "%byte) || ((9 <=? b2z c) && (b2z c <=? 13)).
Definition is_digit (c : byte) : bool := (48 <=? b2z c) && (b2z c <=? 57).
Definition isprint (c : byte) : bool := (32 <=? b2z c) && (b2z c <=? 126).

(** ** <string.h>: strings are their characters, without the terminator *)

Definition streq (a b : list byte) : bool := bool_decide (a = b).

(** [strcmp(a, b) <= 0]: lexicographic on unsigned characters. *)
Fixpoint strcmp_le (a b : list byte) : bool :=
  match a, b with
  | [], _ => true
  | _ :: _, [] => false
  | x :: a, y :: b => (b2z x <? b2z y) || ((b2z x =? b2z y) && strcmp_le a b)
  end.

(** [strchr(s, c)]: what is before and after the first [c]. *)
Fixpoint split_char (c : byte) (s : list byte) : option (list byte * list byte) :=
  match s with
  | [] => None
  | x :: s =>
    if bool_decide (x = c) then Some ([], s)
    else '(a, b) ← split_char c s; Some (x :: a, b)
  end.

Fixpoint strip_prefix (p s : list byte) : option (list byte) :=
  match p, s with
  | [], s => Some s
  | x :: p, y :: s => if bool_decide (x = y) then strip_prefix p s else None
  | _ :: _, [] => None
  end.

(** ** [strtol] on a short string

    White space, a sign, for base 16 an optional "0x" before a digit, then
    digits; the value and the number of characters used, 0 without digits. *)
Definition digit_val (c : byte) : Z :=
  let v := b2z c in
  if (48 <=? v) && (v <=? 57) then v - 48
  else if (97 <=? v) && (v <=? 122) then v - 87
  else if (65 <=? v) && (v <=? 90) then v - 55
  else 36.

Definition is_base_digit (base : Z) (c : byte) : bool := digit_val c <? base.

Fixpoint strtol_digits (base acc n : Z) (s : list byte) : Z * Z :=
  match s with
  | c :: s => if is_base_digit base c then strtol_digits base (acc * base + digit_val c) (n + 1) s else (acc, n)
  | [] => (acc, n)
  end.

Fixpoint skip_space (s : list byte) : list byte * Z :=
  match s with
  | c :: s' => if is_space c then let '(r, n) := skip_space s' in (r, n + 1) else (s, 0)
  | [] => ([], 0)
  end.

Definition strtol (s : list byte) (base : Z) : Z * Z :=
  let '(s, n1) := skip_space s in
  let '(neg, s, n2) :=
    match s with
    | "-"%byte :: s => (true, s, 1)
    | "+"%byte :: s => (false, s, 1)
    | _ => (false, s, 0)
    end in
  let '(s, n3) :=
    match s with
    | "0"%byte :: x :: c :: r =>
      if (base =? 16) && (bool_decide (x = "x"%byte) || bool_decide (x = "X"%byte)) && is_base_digit 16 c
      then (c :: r, 2) else (s, 0)
    | _ => (s, 0)
    end in
  let '(v, n4) := strtol_digits base 0 0 s in
  if n4 =? 0 then (0, 0) else ((if neg then - v else v), n1 + n2 + n3 + n4).

(** ** <stdio.h>: the conversions [%u], [%d], [%x] with a minimal width *)

Definition digit_char (v : Z) : byte := z2b (if v <? 10 then v + 48 else v + 87).

(** The digits of [v >= 0]; [fuel] bounds their number. *)
Fixpoint digits_of (fuel : nat) (base v : Z) (acc : list byte) : list byte :=
  match fuel with
  | O => acc
  | S fuel =>
    let acc := digit_char (v mod base) :: acc in
    if v <? base then acc else digits_of fuel base (v / base) acc
  end.

(** 64 digits hold every 64-bit value in any base. *)
Definition fmt_base (base v : Z) : list byte := digits_of 64 base v [].
Definition fmt_u (v : Z) : list byte := fmt_base 10 v.
Definition fmt_d (v : Z) : list byte := if v <? 0 then "-"%byte :: fmt_u (- v) else fmt_u v.

Definition pad0 (w : nat) (s : list byte) : list byte := replicate (w - length s) "0"%byte ++ s.
Definition fmt_x (w : nat) (v : Z) : list byte := pad0 w (fmt_base 16 v).

Definition to_upper (c : byte) : byte := if (97 <=? b2z c) && (b2z c <=? 122) then z2b (b2z c - 32) else c.

(** ** Characters *)

Definition tab : byte := x09.
Definition nl : byte := x0a.
Definition quote : byte := x22.
