(* ===== verification/Memory.v ===== *)
(** The flat byte-addressed memory of the C machine, big-endian accesses, and
    the <string.h> routines libfdt calls, with their specifications. *)
From S2P Require Import Prelude Monad.

(** ** Memory *)

(** Allocated bytes by address. *)
Abbreviation mem := (gmap Z byte).

(** [n] bytes at [a] are allocated. *)
Definition valid (m : mem) (a n : Z) : Prop :=
  forall i, 0 <= i < n -> is_Some (m !! (a + i)).

(** The bytes [l] are at [a]. *)
Definition bytes_at (m : mem) (a : Z) (l : list byte) : Prop :=
  forall (i : nat) b, l !! i = Some b -> m !! (a + Z.of_nat i) = Some b.

Definition ld8 (m : mem) (a : Z) : res byte := nonnull (m !! a).

Fixpoint load (m : mem) (a : Z) (n : nat) : res (list byte) :=
  match n with
  | O => Ret []
  | S n =>
    let! b := ld8 m a in
    let! l := load m (a + 1) n in
    Ret (b :: l)
  end.

(** A negative [int] length becomes a [size_t] above any object's size. *)
Definition load_bytes (m : mem) (a n : Z) : res (list byte) :=
  if n <? 0 then Fault Oob else load m a (Z.to_nat n).

(** Writing over allocated bytes. *)
Fixpoint upd (m : mem) (a : Z) (l : list byte) : mem :=
  match l with
  | [] => m
  | b :: l => <[a := b]> (upd m (a + 1) l)
  end.

Definition store_bytes (m : mem) (a : Z) (l : list byte) : res mem :=
  let! _ := load m a (length l) in
  Ret (upd m a l).

(** ** Big-endian accesses *)

Definition be32 (b0 b1 b2 b3 : byte) : Z :=
  Z.lor (Z.lor (Z.lor (Z.shiftl (b2z b0) 24) (Z.shiftl (b2z b1) 16))
               (Z.shiftl (b2z b2) 8)) (b2z b3).

Definition ld32 (m : mem) (p : Z) : res Z :=
  let! b0 := ld8 m p in
  let! b1 := ld8 m (p + 1) in
  let! b2 := ld8 m (p + 2) in
  let! b3 := ld8 m (p + 3) in
  Ret (be32 b0 b1 b2 b3).

Definition ld64 (m : mem) (p : Z) : res Z :=
  let! hi := ld32 m p in
  let! lo := ld32 m (p + 4) in
  Ret (Z.lor (Z.shiftl hi 32) lo).

Definition st32 (m : mem) (p v : Z) : res mem := store_bytes m p (be_enc32 v).
Definition st64 (m : mem) (p v : Z) : res mem := store_bytes m p (be_enc64 v).

(** ** <string.h> *)

Definition memmove (m : mem) (dst src n : Z) : res mem :=
  let! l := load_bytes m src n in
  store_bytes m dst l.

(** [memcpy] between overlapping objects is undefined. *)
Definition memcpy (m : mem) (dst src n : Z) : res mem :=
  if (0 <? n) && (Z.abs (dst - src) <? n) then Fault Oob else memmove m dst src n.

Definition memset (m : mem) (dst : Z) (c : byte) (n : Z) : res mem :=
  if n <? 0 then Fault Oob else store_bytes m dst (replicate (Z.to_nat n) c).

(** [memcmp(p, s, n) == 0] against the [n] bytes [l] the caller holds. *)
Definition memcmp_eq (m : mem) (p : Z) (l : list byte) : res bool :=
  let! bs := load m p (length l) in
  Ret (bool_decide (bs = l)).

(** Reads character by character and stops at the first match. *)
Definition memchr (m : mem) (p : Z) (c : byte) (n : Z) : res (option Z) :=
  loop (fun i =>
    if i <? n then
      let! b := ld8 m (p + i) in
      if bool_decide (b = c) then Ret (Break (Some (p + i))) else Ret (Continue (i + 1))
    else Ret (Break None)) 0.

Definition strlen (m : mem) (p : Z) : res Z :=
  loop (fun i =>
    let! b := ld8 m (p + i) in
    if bool_decide (b = x00) then Ret (Break i) else Ret (Continue (i + 1))) 0.

Definition strnlen (m : mem) (p n : Z) : res Z :=
  let! q := memchr m p x00 n in
  Ret (match q with Some a => a - p | None => n end).

Definition strchr (m : mem) (p : Z) (c : byte) : res (option Z) :=
  loop (fun a =>
    let! b := ld8 m a in
    if bool_decide (b = c) then Ret (Break (Some a))
    else if bool_decide (b = x00) then Ret (Break None)
    else Ret (Continue (a + 1))) p.

Definition strrchr (m : mem) (p : Z) (c : byte) : res (option Z) :=
  loop (fun '(a, last) =>
    let! b := ld8 m a in
    let last := if bool_decide (b = c) then Some a else last in
    if bool_decide (b = x00) then Ret (Break last)
    else Ret (Continue (a + 1, last))) (p, None).

(** The characters of the C string at [p]. *)
Definition load_str (m : mem) (p : Z) : res (list byte) :=
  let! n := strlen m p in
  load_bytes m p n.


(** The C string at the head of [l]. *)
Fixpoint cstr (l : list byte) : option (list byte) :=
  match l with
  | [] => None
  | b :: l => if bool_decide (b = x00) then Some [] else cons b <$> cstr l
  end.

(** ** Allocated ranges *)

Lemma valid_sub m a n a' n' :
  valid m a n -> a <= a' -> a' + n' <= a + n -> valid m a' n'.
Proof.
  intros H ? ? i ?. replace (a' + i) with (a + (a' + i - a)) by lia. apply H. lia.
Qed.

Lemma valid_at m a n x : valid m a n -> a <= x < a + n -> is_Some (m !! x).
Proof. intros H ?. replace x with (a + (x - a)) by lia. apply H. lia. Qed.

(** ** Bytes in memory *)

Lemma bytes_at_nil m a : bytes_at m a [].
Proof. intros i b H. by rewrite lookup_nil in H. Qed.

Lemma bytes_at_cons m a b l :
  bytes_at m a (b :: l) <-> m !! a = Some b /\ bytes_at m (a + 1) l.
Proof.
  split.
  - intros H. split.
    + specialize (H 0%nat b eq_refl). by rewrite Z.add_0_r in H.
    + intros i c Hi. specialize (H (S i) c Hi).
      by replace (a + 1 + Z.of_nat i) with (a + Z.of_nat (S i)) by lia.
  - intros [H0 H] [|i] c Hi; simpl in Hi.
    + injection Hi as ->. by rewrite Z.add_0_r.
    + replace (a + Z.of_nat (S i)) with (a + 1 + Z.of_nat i) by lia. by apply H.
Qed.

Lemma bytes_at_app m a l1 l2 :
  bytes_at m a (l1 ++ l2) <-> bytes_at m a l1 /\ bytes_at m (a + Z.of_nat (length l1)) l2.
Proof.
  revert a. induction l1 as [|b l1 IH]; intros a; cbn [app length].
  - rewrite Z.add_0_r. split; [|tauto]. intros. split; [apply bytes_at_nil|done].
  - rewrite !bytes_at_cons, IH.
    replace (a + Z.of_nat (S (length l1))) with (a + 1 + Z.of_nat (length l1)) by lia.
    tauto.
Qed.

Lemma bytes_at_appz m a l1 l2 :
  bytes_at m a (l1 ++ l2) <-> bytes_at m a l1 /\ bytes_at m (a + zlen l1) l2.
Proof. apply bytes_at_app. Qed.

Lemma bytes_at_valid m a l : bytes_at m a l -> valid m a (Z.of_nat (length l)).
Proof.
  intros H i Hi. destruct (lookup_lt_is_Some_2 l (Z.to_nat i)) as [b Hb]; [lia|].
  exists b. specialize (H _ _ Hb). by rewrite Z2Nat.id in H by lia.
Qed.

(** Two readings of the same range agree. *)
Lemma bytes_at_inj m a l1 l2 :
  bytes_at m a l1 -> bytes_at m a l2 -> length l1 = length l2 -> l1 = l2.
Proof.
  intros H1 H2 Hl. apply list_eq. intros i.
  destruct (l1 !! i) as [b|] eqn:E1.
  - destruct (lookup_lt_is_Some_2 l2 i) as [c Hc]; [rewrite <- Hl; by eapply lookup_lt_Some|].
    rewrite Hc. pose proof (H1 _ _ E1). pose proof (H2 _ _ Hc). congruence.
  - symmetry. apply lookup_ge_None. rewrite <- Hl. by apply lookup_ge_None.
Qed.

(** ** Loads *)

Lemma load_at m a l : bytes_at m a l -> load m a (length l) = Ret l.
Proof.
  revert a. induction l as [|b l IH]; intros a H; simpl; [done|].
  apply bytes_at_cons in H as [H0 H]. unfold ld8. rewrite H0. simpl. by rewrite IH.
Qed.

Lemma load_inv m a n l : load m a n = Ret l -> length l = n /\ bytes_at m a l.
Proof.
  revert a l. induction n as [|n IH]; intros a l; simpl.
  - intros [= <-]. split; [done | apply bytes_at_nil].
  - intros H. apply rbind_Ret_inv in H as (b & Hb & H).
    apply rbind_Ret_inv in H as (l' & Hl & H). injection H as <-.
    apply IH in Hl as [Hlen Hat]. split; [simpl; lia|].
    apply bytes_at_cons. split; [|done].
    unfold ld8, nonnull in Hb. destruct (m !! a); congruence.
Qed.

Lemma load_valid m a n :
  valid m a (Z.of_nat n) -> exists l, load m a n = Ret l /\ length l = n /\ bytes_at m a l.
Proof.
  intros H.
  assert (exists l, load m a n = Ret l) as [l Hl].
  { revert a H. induction n as [|n IH]; intros a H; simpl; [eauto|].
    destruct (H 0 ltac:(lia)) as [b Hb]. rewrite Z.add_0_r in Hb.
    unfold ld8. rewrite Hb. simpl.
    destruct (IH (a + 1)) as [l Hl]; [eapply valid_sub; eauto; lia|].
    rewrite Hl. simpl. eauto. }
  exists l. split; [done|]. by apply load_inv.
Qed.

Lemma load_bytes_at m a l n :
  bytes_at m a l -> n = Z.of_nat (length l) -> load_bytes m a n = Ret l.
Proof.
  intros H ->. unfold load_bytes. destruct (Z.ltb_spec (Z.of_nat (length l)) 0); [lia|].
  rewrite Nat2Z.id. by apply load_at.
Qed.

Lemma ld8_at m a b : m !! a = Some b -> ld8 m a = Ret b.
Proof. unfold ld8. by intros ->. Qed.

(** ** Stores *)

Lemma upd_lookup m a l x :
  upd m a l !! x =
    if decide (a <= x < a + Z.of_nat (length l)) then l !! Z.to_nat (x - a) else m !! x.
Proof.
  revert a. induction l as [|b l IH]; intros a; cbn [upd length].
  - case_decide; [lia | done].
  - destruct (decide (x = a)) as [->|Hne].
    + rewrite lookup_insert_eq. rewrite decide_True by lia.
      by replace (a - a) with 0 by lia.
    + rewrite lookup_insert_ne, IH by done.
      case_decide; [rewrite decide_True by lia | rewrite decide_False by lia; done].
      replace (Z.to_nat (x - a)) with (S (Z.to_nat (x - (a + 1)))) by lia. done.
Qed.

Lemma upd_lookup_out m a l x :
  x < a \/ a + Z.of_nat (length l) <= x -> upd m a l !! x = m !! x.
Proof. intros. rewrite upd_lookup, decide_False by lia. done. Qed.

Lemma upd_at m a l : bytes_at (upd m a l) a l.
Proof.
  intros i b Hi. pose proof (lookup_lt_Some _ _ _ Hi).
  rewrite upd_lookup, decide_True by lia. by replace (Z.to_nat _) with i by lia.
Qed.

(** The frame of a store. *)
Lemma upd_bytes_out m a l a' l' :
  bytes_at m a' l' ->
  a' + Z.of_nat (length l') <= a \/ a + Z.of_nat (length l) <= a' ->
  bytes_at (upd m a l) a' l'.
Proof.
  intros H ? i b Hi. pose proof (lookup_lt_Some _ _ _ Hi).
  rewrite upd_lookup_out by lia. by apply H.
Qed.

Lemma upd_mid m a l1 l2 l3 v :
  bytes_at m a (l1 ++ l2 ++ l3) -> length v = length l2 ->
  bytes_at (upd m (a + zlen l1) v) a (l1 ++ v ++ l3).
Proof.
  rewrite !bytes_at_app. intros (H1 & _ & H3) E. split; [apply upd_bytes_out; [done|unfold zlen; lia]|].
  split; [apply upd_at|]. rewrite E. apply upd_bytes_out; [done|unfold zlen; lia].
Qed.

Lemma upd_valid m a l a' n : valid m a' n -> valid (upd m a l) a' n.
Proof.
  intros H i Hi. rewrite upd_lookup. case_decide; [|by apply H].
  apply lookup_lt_is_Some. lia.
Qed.

Lemma store_valid m a l :
  valid m a (Z.of_nat (length l)) -> store_bytes m a l = Ret (upd m a l).
Proof. intros H. unfold store_bytes. by destruct (load_valid _ _ _ H) as (l' & -> & _). Qed.

Lemma store_inv m a l m' :
  store_bytes m a l = Ret m' -> m' = upd m a l /\ valid m a (Z.of_nat (length l)).
Proof.
  unfold store_bytes. intros H. apply rbind_Ret_inv in H as (l' & Hl & H).
  injection H as <-. split; [done|]. apply load_inv in Hl as [Hl Hat].
  rewrite <- Hl. by apply bytes_at_valid.
Qed.

(** ** Big-endian words *)

Lemma lor_shiftl_add x y k : 0 <= k -> 0 <= y < 2 ^ k -> Z.lor (Z.shiftl x k) y = x * 2 ^ k + y.
Proof.
  intros Hk Hy. rewrite <- Z.shiftl_mul_pow2 by lia.
  pose proof (Z.add_lor_land (Z.shiftl x k) y) as H.
  assert (Z.land (Z.shiftl x k) y = 0) as E.
  { apply Z.bits_inj'. intros n Hn. rewrite Z.land_spec, Z.bits_0.
    destruct (Z.lt_ge_cases n k).
    - rewrite Z.shiftl_spec_low by lia. done.
    - destruct (Z.eq_dec y 0) as [->|]; [by rewrite Z.bits_0, andb_false_r|].
      rewrite (Z.bits_above_log2 y n); [apply andb_false_r | lia |].
      apply Z.log2_lt_pow2; [lia|]. eapply Z.lt_le_trans; [apply Hy|].
      apply Z.pow_le_mono_r; lia. }
  lia.
Qed.

Lemma be32_spec b0 b1 b2 b3 :
  be32 b0 b1 b2 b3 = b2z b0 * 16777216 + b2z b1 * 65536 + b2z b2 * 256 + b2z b3.
Proof.
  unfold be32.
  pose proof (b2z_range b0). pose proof (b2z_range b1).
  pose proof (b2z_range b2). pose proof (b2z_range b3).
  rewrite (lor_shiftl_add _ (Z.shiftl (b2z b1) 16)) by (rewrite ?Z.shiftl_mul_pow2 by lia; lia).
  replace (b2z b0 * 2 ^ 24 + Z.shiftl (b2z b1) 16)
    with (Z.shiftl (b2z b0 * 256 + b2z b1) 16) by (rewrite ?Z.shiftl_mul_pow2 by lia; lia).
  rewrite lor_shiftl_add by (rewrite ?Z.shiftl_mul_pow2 by lia; lia).
  replace ((b2z b0 * 256 + b2z b1) * 2 ^ 16 + Z.shiftl (b2z b2) 8)
    with (Z.shiftl (b2z b0 * 65536 + b2z b1 * 256 + b2z b2) 8) by (rewrite ?Z.shiftl_mul_pow2 by lia; lia).
  rewrite lor_shiftl_add by lia. lia.
Qed.

Lemma be32_range b0 b1 b2 b3 : is_u32 (be32 b0 b1 b2 b3).
Proof.
  rewrite be32_spec.
  pose proof (b2z_range b0). pose proof (b2z_range b1).
  pose proof (b2z_range b2). pose proof (b2z_range b3). ilia.
Qed.

Lemma be32_enc v :
  be32 (z2b (Z.shiftr v 24)) (z2b (Z.shiftr v 16)) (z2b (Z.shiftr v 8)) (z2b v) = u32 v.
Proof.
  rewrite be32_spec, !b2z_z2b, !Z.shiftr_div_pow2 by lia. unfold u32.
  change (2 ^ 24) with (65536 * 256). change (2 ^ 16) with (256 * 256). change (2 ^ 8) with 256.
  rewrite <- !Z.div_div by lia. change 65536 with (256 * 256). rewrite <- !Z.div_div by lia.
  change 4294967296 with (256 * (256 * (256 * 256))).
  rewrite !Z.rem_mul_r by lia. rewrite <- ?Z.div_div by lia. lia.
Qed.

Lemma ld32_valid m p : valid m p 4 -> exists v, ld32 m p = Ret v /\ is_u32 v.
Proof.
  intros H. unfold ld32, ld8.
  destruct (H 0 ltac:(lia)) as [b0 H0]. rewrite Z.add_0_r in H0.
  destruct (H 1 ltac:(lia)) as [b1 H1].
  destruct (H 2 ltac:(lia)) as [b2 H2].
  destruct (H 3 ltac:(lia)) as [b3 H3].
  rewrite H0, H1, H2, H3. simpl. eexists. split; [done | apply be32_range].
Qed.

Lemma ld32_range m p v : ld32 m p = Ret v -> is_u32 v.
Proof.
  unfold ld32. intros H.
  repeat (apply rbind_Ret_inv in H as (? & _ & H)). injection H as <-. apply be32_range.
Qed.

Lemma ld32_at m p v : bytes_at m p (be_enc32 v) -> ld32 m p = Ret (u32 v).
Proof.
  intros H. unfold be_enc32 in H. rewrite !bytes_at_cons in H.
  destruct H as (H0 & H1 & H2 & H3 & _). unfold ld32, ld8.
  rewrite H0, H1. simpl. replace (p + 2) with (p + 1 + 1) by lia. rewrite H2. simpl.
  replace (p + 3) with (p + 1 + 1 + 1) by lia. rewrite H3. simpl. by rewrite be32_enc.
Qed.

Lemma enc_be32 b0 b1 b2 b3 : be_enc32 (be32 b0 b1 b2 b3) = [b0; b1; b2; b3].
Proof.
  pose proof (b2z_range b0). pose proof (b2z_range b1).
  pose proof (b2z_range b2). pose proof (b2z_range b3).
  assert (E : forall z b, z mod 256 = b2z b -> z2b z = b).
  { intros z b Hz. apply b2z_inj. by rewrite b2z_z2b. }
  unfold be_enc32. rewrite be32_spec, !Z.shiftr_div_pow2 by lia.
  repeat f_equal; apply E;
    change (2 ^ 24) with 16777216; change (2 ^ 16) with 65536; change (2 ^ 8) with 256.
  - replace (_ / 16777216) with (b2z b0)
      by (apply (Z.div_unique _ 16777216 _ (b2z b1 * 65536 + b2z b2 * 256 + b2z b3)); lia).
    apply Z.mod_small. lia.
  - replace (_ / 65536) with (b2z b1 + b2z b0 * 256)
      by (apply (Z.div_unique _ 65536 _ (b2z b2 * 256 + b2z b3)); lia).
    rewrite Z.mod_add by lia. apply Z.mod_small. lia.
  - replace (_ / 256) with (b2z b2 + (b2z b0 * 256 + b2z b1) * 256)
      by (apply (Z.div_unique _ 256 _ (b2z b3)); lia).
    rewrite Z.mod_add by lia. apply Z.mod_small. lia.
  - replace (_ + _) with (b2z b3 + (b2z b0 * 65536 + b2z b1 * 256 + b2z b2) * 256) by lia.
    rewrite Z.mod_add by lia. apply Z.mod_small. lia.
Qed.

(** What a word read is stored as. *)
(** Storing a word stores its value modulo 2^32. *)
Lemma be_enc32_u32 v : be_enc32 (u32 v) = be_enc32 v.
Proof. rewrite <- (be32_enc v). apply enc_be32. Qed.

Lemma ld32_inv m p v : ld32 m p = Ret v -> bytes_at m p (be_enc32 v).
Proof.
  unfold ld32. intros H.
  apply rbind_Ret_inv in H as (b0 & H0 & H). apply rbind_Ret_inv in H as (b1 & H1 & H).
  apply rbind_Ret_inv in H as (b2 & H2 & H). apply rbind_Ret_inv in H as (b3 & H3 & H).
  injection H as <-. rewrite enc_be32.
  assert (L : forall a b, ld8 m a = Ret b -> m !! a = Some b).
  { intros a b. unfold ld8, nonnull. destruct (m !! a); congruence. }
  rewrite !bytes_at_cons. replace (p + 1 + 1) with (p + 2) by lia.
  replace (p + 2 + 1) with (p + 3) by lia. repeat split; eauto. apply bytes_at_nil.
Qed.

Lemma ld32_ext m m' p : (forall x, p <= x < p + 4 -> m' !! x = m !! x) -> ld32 m' p = ld32 m p.
Proof.
  intros H. unfold ld32, ld8. by rewrite !H by lia.
Qed.

Lemma ld64_valid m p : valid m p 8 -> exists v, ld64 m p = Ret v.
Proof.
  intros H. unfold ld64.
  destruct (ld32_valid m p) as (hi & -> & _); [eapply valid_sub; eauto; lia|].
  destruct (ld32_valid m (p + 4)) as (lo & -> & _); [eapply valid_sub; eauto; lia|].
  simpl. eauto.
Qed.

Lemma ld64_at m p v : bytes_at m p (be_enc64 v) -> ld64 m p = Ret (u64 v).
Proof.
  unfold be_enc64. rewrite bytes_at_app. intros [H1 H2]. rewrite be_enc32_length in H2. change (Z.of_nat 4) with 4 in H2.
  unfold ld64. rewrite (ld32_at _ _ _ H1). simpl. rewrite (ld32_at _ _ _ H2). simpl. f_equal.
  rewrite lor_shiftl_add by (pose proof (u32_range v); ilia).
  rewrite Z.shiftr_div_pow2 by lia. unfold u32, u64.
  change 18446744073709551616 with (4294967296 * 4294967296).
  rewrite Z.rem_mul_r by lia. change (2 ^ 32) with 4294967296. lia.
Qed.

Lemma st32_valid m p v : valid m p 4 -> st32 m p v = Ret (upd m p (be_enc32 v)).
Proof. intros. unfold st32. by apply store_valid. Qed.

Lemma st64_valid m p v : valid m p 8 -> st64 m p v = Ret (upd m p (be_enc64 v)).
Proof. intros. unfold st64. by apply store_valid. Qed.

(** ** Character scans *)

Lemma memchr_spec m p c n :
  n < Z.pos loop_bound -> valid m p n ->
  exists r, memchr m p c n = Ret r /\
    match r with
    | Some q => p <= q < p + n /\ m !! q = Some c /\ forall x, p <= x < q -> m !! x <> Some c
    | None => forall x, p <= x < p + n -> m !! x <> Some c
    end.
Proof.
  intros Hn Hv. apply wp_total_ex. unfold memchr.
  apply (wp_loop total (fun i => 0 <= i /\ (0 <= n -> i <= n) /\
           forall x, p <= x < p + i -> m !! x <> Some c) (fun i => Z.max 0 (n - i))).
  - split; [lia|]. split; [lia|]. intros; lia.
  - intros. unfold loop_bound in *. lia.
  - intros i (Hi & Hle & Hno). destruct (i <? n) eqn:Ei; bool_prop; simpl.
    + destruct (Hv i ltac:(lia)) as [b Hb]. rewrite (ld8_at _ _ _ Hb). simpl.
      case_bool_decide as Hbc; simpl.
      * subst b. split; [lia|]. split; [done|]. intros. apply Hno. lia.
      * split; [|lia]. split; [lia|]. split; [lia|]. intros x Hx.
        destruct (decide (x = p + i)) as [->|]; [congruence|]. apply Hno. lia.
    + intros x Hx. apply Hno. lia.
Qed.

Lemma memchr_found m p c n l :
  n < Z.pos loop_bound -> valid m p n ->
  bytes_at m p (l ++ [c]) -> c ∉ l -> Z.of_nat (length l) < n ->
  memchr m p c n = Ret (Some (p + Z.of_nat (length l))).
Proof.
  intros Hn Hv [Hl Hc]%bytes_at_app Hni Hlen. apply bytes_at_cons in Hc as [Hc _].
  destruct (memchr_spec m p c n Hn Hv) as (r & -> & Hr). f_equal.
  assert (Hpre : forall x, p <= x < p + Z.of_nat (length l) -> m !! x <> Some c).
  { intros x Hx Hxc. destruct (lookup_lt_is_Some_2 l (Z.to_nat (x - p))) as [b Hb]; [lia|].
    pose proof (Hl _ _ Hb) as Hl'. replace (p + Z.of_nat _) with x in Hl' by lia.
    apply Hni. apply list_elem_of_lookup. exists (Z.to_nat (x - p)). congruence. }
  destruct r as [q|].
  - destruct Hr as (Hq & Hqc & Hno). f_equal.
    destruct (Z.lt_trichotomy q (p + Z.of_nat (length l))) as [?|[?|?]]; [|done|].
    + exfalso. apply (Hpre q); [lia|done].
    + exfalso. apply (Hno (p + Z.of_nat (length l))); [lia|done].
  - exfalso. apply (Hr (p + Z.of_nat (length l))); [lia|done].
Qed.

Lemma strlen_spec m p q :
  p <= q -> q - p + 1 < Z.pos loop_bound -> valid m p (q - p) -> m !! q = Some x00 ->
  exists n, strlen m p = Ret n /\ 0 <= n <= q - p /\ m !! (p + n) = Some x00 /\
    forall x, p <= x < p + n -> m !! x <> Some x00.
Proof.
  intros Hpq Hb Hv Hz. apply wp_total_ex. unfold strlen.
  apply (wp_loop total (fun i => 0 <= i <= q - p /\
           forall x, p <= x < p + i -> m !! x <> Some x00) (fun i => q - p + 1 - i)).
  - split; [lia|]. intros; lia.
  - intros. lia.
  - intros i [Hi Hno]. destruct (decide (i = q - p)) as [->|].
    + replace (p + (q - p)) with q by lia. rewrite (ld8_at _ _ _ Hz). simpl.
      rewrite ?bool_decide_eq_true_2 by done. simpl.
      split; [lia|]. split; [|done]. by replace (p + (q - p)) with q by lia.
    + destruct (Hv i ltac:(lia)) as [b Hb']. rewrite (ld8_at _ _ _ Hb'). simpl.
      case_bool_decide as Hbc; simpl.
      * subst b. done.
      * split; [|lia]. split; [lia|]. intros x Hx.
        destruct (decide (x = p + i)) as [->|]; [congruence|]. apply Hno. lia.
Qed.

Lemma strlen_at m p l :
  bytes_at m p (l ++ [x00]) -> no_nul l -> Z.of_nat (length l) + 1 < Z.pos loop_bound ->
  strlen m p = Ret (Z.of_nat (length l)).
Proof.
  intros H Hnn Hb. pose proof (bytes_at_valid _ _ _ H) as Hv. rewrite length_app in Hv. simpl in Hv.
  apply bytes_at_app in H as [Hl Hz]. apply bytes_at_cons in Hz as [Hz _].
  destruct (strlen_spec m p (p + Z.of_nat (length l))) as (n & -> & Hn & Hn0 & Hno); try done.
  - lia.
  - lia.
  - eapply valid_sub; eauto; lia.
  - f_equal. destruct (decide (n = Z.of_nat (length l))) as [|Hne]; [done|]. exfalso.
    destruct (lookup_lt_is_Some_2 l (Z.to_nat n)) as [b Hb']; [lia|].
    pose proof (Hl _ _ Hb') as Hl'. replace (p + Z.of_nat _) with (p + n) in Hl' by lia.
    apply Hnn. apply list_elem_of_lookup. exists (Z.to_nat n). congruence.
Qed.

(** ** Strings in lists of bytes *)

Lemma cstr_Some l s : cstr l = Some s <-> no_nul s /\ exists r, l = s ++ x00 :: r.
Proof.
  unfold no_nul. revert s. induction l as [|b l IH]; intros s; simpl.
  - split; [done|]. intros [_ [r Hr]]. by destruct s.
  - case_bool_decide as Hb.
    + subst b. split.
      * intros [= <-]. split; [apply not_elem_of_nil|by exists l].
      * intros [Hs [r Hr]]. destruct s as [|c s]; [done|]. injection Hr as <- _. set_solver.
    + split.
      * intros (s' & Hs' & ->)%fmap_Some. apply IH in Hs' as [Hs' [r ->]]. split; [set_solver|by exists r].
      * intros [Hs [r Hr]]. destruct s as [|c s]; [by injection Hr as ? ?|]. injection Hr as <- ->.
        assert (Hc : cstr (s ++ x00 :: r) = Some s) by (apply IH; split; [set_solver|by exists r]).
        by rewrite Hc.
Qed.

Lemma cstr_None l : cstr l = None <-> x00 ∉ l.
Proof.
  induction l as [|b l IH]; simpl; [split; [intros; apply not_elem_of_nil|done]|].
  case_bool_decide as Hb; [subst; split; [done|set_solver]|].
  rewrite fmap_None, IH. set_solver.
Qed.

Lemma cstr_len l s : cstr l = Some s -> zlen s < zlen l.
Proof. intros (_ & r & ->)%cstr_Some. rewrite zlen_app, zlen_cons. pose proof (zlen_nonneg r). lia. Qed.

Lemma bytes_at_lookup m a l i b :
  bytes_at m a l -> 0 <= i -> l !! Z.to_nat i = Some b -> m !! (a + i) = Some b.
Proof. intros H Hi Hb. specialize (H _ _ Hb). by rewrite Z2Nat.id in H by lia. Qed.

Lemma bytes_at_take m a l n : bytes_at m a l -> bytes_at m a (take n l).
Proof. intros H. rewrite <- (take_drop n l) in H. by apply bytes_at_app in H as [H _]. Qed.

Lemma bytes_at_drop m a l n :
  bytes_at m a l -> 0 <= n <= zlen l -> bytes_at m (a + n) (drop (Z.to_nat n) l).
Proof.
  intros H Hn. rewrite <- (take_drop (Z.to_nat n) l) in H. apply bytes_at_app in H as [_ H].
  rewrite length_take in H. unfold zlen in *. by replace (Z.of_nat _) with n in H by lia.
Qed.

(** A search for the terminator finds the end of the string. *)
Lemma memchr_list m p l n :
  zlen l < Z.pos loop_bound -> n = zlen l -> bytes_at m p l ->
  memchr m p x00 n = Ret ((fun s => p + zlen s) <$> cstr l).
Proof.
  intros Hb -> Hat. pose proof (bytes_at_valid _ _ _ Hat) as Hv.
  destruct (cstr l) as [s|] eqn:Ec.
  - pose proof (cstr_len _ _ Ec). apply cstr_Some in Ec as [Hnn [r Hr]]. apply memchr_found; [done|done| |done|done].
    rewrite Hr in Hat. replace (s ++ x00 :: r) with ((s ++ [x00]) ++ r) in Hat by (by rewrite <- app_assoc).
    by apply bytes_at_app in Hat as [? _].
  - apply cstr_None in Ec. destruct (memchr_spec m p x00 (zlen l)) as (r & -> & Hr); [done|done|].
    destruct r as [q|]; [|done]. exfalso. destruct Hr as (Hq & Hz & _). apply Ec.
    destruct (lookup_lt_is_Some_2 l (Z.to_nat (q - p))) as [c Hc]; [unfold zlen in *; lia|].
    pose proof (bytes_at_lookup m p l (q - p) c Hat ltac:(lia) Hc) as Hm.
    replace (p + (q - p)) with q in Hm by lia.
    apply list_elem_of_lookup. exists (Z.to_nat (q - p)). congruence.
Qed.
