(* ===== verification/Libfdt.v ===== *)
(** Constants and accessors of the flattened device tree: [fdt.h], the macros
    and inline functions of [libfdt.h], and [libfdt_internal.h]. A pointer
    into the blob is an address, and NULL is [None]. *)
From S2P Require Import Prelude Monad Memory.

(** ** fdt.h *)

Definition FDT_MAGIC : Z := 0xd00dfeed.
Definition FDT_TAGSIZE : Z := 4.
Definition FDT_BEGIN_NODE : Z := 1.
Definition FDT_END_NODE : Z := 2.
Definition FDT_PROP : Z := 3.
Definition FDT_NOP : Z := 4.
Definition FDT_END : Z := 9.

Definition FDT_V1_SIZE : Z := 7 * 4.
Definition FDT_V2_SIZE : Z := FDT_V1_SIZE + 4.
Definition FDT_V3_SIZE : Z := FDT_V2_SIZE + 4.
Definition FDT_V16_SIZE : Z := FDT_V3_SIZE.
Definition FDT_V17_SIZE : Z := FDT_V16_SIZE + 4.

(** The fields of [struct fdt_header], by their offsets. *)
Inductive fdt_header_field :=
| f_magic | f_totalsize | f_off_dt_struct | f_off_dt_strings | f_off_mem_rsvmap
| f_version | f_last_comp_version | f_boot_cpuid_phys | f_size_dt_strings
| f_size_dt_struct.

Definition field_off (f : fdt_header_field) : Z :=
  match f with
  | f_magic => 0
  | f_totalsize => 4
  | f_off_dt_struct => 8
  | f_off_dt_strings => 12
  | f_off_mem_rsvmap => 16
  | f_version => 20
  | f_last_comp_version => 24
  | f_boot_cpuid_phys => 28
  | f_size_dt_strings => 32
  | f_size_dt_struct => 36
  end.

Definition sizeof_fdt_header : Z := 40.

(** [struct fdt_reserve_entry]: address, size. *)
Definition sizeof_fdt_reserve_entry : Z := 16.
Definition re_address (re : Z) : Z := re.
Definition re_size (re : Z) : Z := re + 8.

(** [struct fdt_node_header]: tag, name. *)
Definition sizeof_fdt_node_header : Z := 4.
Definition nh_tag (nh : Z) : Z := nh.
Definition nh_name (nh : Z) : Z := nh + 4.

(** [struct fdt_property]: tag, len, nameoff, data. *)
Definition sizeof_fdt_property : Z := 12.
Definition prop_tag (p : Z) : Z := p.
Definition prop_len (p : Z) : Z := p + 4.
Definition prop_nameoff (p : Z) : Z := p + 8.
Definition prop_data (p : Z) : Z := p + 12.

(** ** libfdt.h *)

Definition FDT_FIRST_SUPPORTED_VERSION : Z := 0x02.
Definition FDT_LAST_COMPATIBLE_VERSION : Z := 0x10.
Definition FDT_LAST_SUPPORTED_VERSION : Z := 0x11.

Definition FDT_ERR_NOTFOUND : Z := 1.
Definition FDT_ERR_EXISTS : Z := 2.
Definition FDT_ERR_NOSPACE : Z := 3.
Definition FDT_ERR_BADOFFSET : Z := 4.
Definition FDT_ERR_BADPATH : Z := 5.
Definition FDT_ERR_BADPHANDLE : Z := 6.
Definition FDT_ERR_BADSTATE : Z := 7.
Definition FDT_ERR_TRUNCATED : Z := 8.
Definition FDT_ERR_BADMAGIC : Z := 9.
Definition FDT_ERR_BADVERSION : Z := 10.
Definition FDT_ERR_BADSTRUCTURE : Z := 11.
Definition FDT_ERR_BADLAYOUT : Z := 12.
Definition FDT_ERR_INTERNAL : Z := 13.
Definition FDT_ERR_BADNCELLS : Z := 14.
Definition FDT_ERR_BADVALUE : Z := 15.
Definition FDT_ERR_BADOVERLAY : Z := 16.
Definition FDT_ERR_NOPHANDLES : Z := 17.
Definition FDT_ERR_BADFLAGS : Z := 18.
Definition FDT_ERR_ALIGNMENT : Z := 19.
Definition FDT_ERR_MAX : Z := 19.

Definition FDT_MAX_PHANDLE : Z := 0xfffffffe.
Definition FDT_MAX_NCELLS : Z := 4.
Definition FDT_CREATE_FLAG_NO_NAME_DEDUP : Z := 0x1.
Definition FDT_CREATE_FLAGS_ALL : Z := FDT_CREATE_FLAG_NO_NAME_DEDUP.

Definition fdt32_ld (m : mem) (p : Z) : res Z := ld32 m p.
Definition fdt64_ld (m : mem) (p : Z) : res Z := ld64 m p.
Definition fdt32_st (m : mem) (p value : Z) : res mem := st32 m p value.
Definition fdt64_st (m : mem) (p value : Z) : res mem := st64 m p value.

Definition fdt_get_header (m : mem) (fdt : Z) (f : fdt_header_field) : res Z :=
  fdt32_ld m (fdt + field_off f).
Definition fdt_magic m fdt := fdt_get_header m fdt f_magic.
Definition fdt_totalsize m fdt := fdt_get_header m fdt f_totalsize.
Definition fdt_off_dt_struct m fdt := fdt_get_header m fdt f_off_dt_struct.
Definition fdt_off_dt_strings m fdt := fdt_get_header m fdt f_off_dt_strings.
Definition fdt_off_mem_rsvmap m fdt := fdt_get_header m fdt f_off_mem_rsvmap.
Definition fdt_version m fdt := fdt_get_header m fdt f_version.
Definition fdt_last_comp_version m fdt := fdt_get_header m fdt f_last_comp_version.
Definition fdt_boot_cpuid_phys m fdt := fdt_get_header m fdt f_boot_cpuid_phys.
Definition fdt_size_dt_strings m fdt := fdt_get_header m fdt f_size_dt_strings.
Definition fdt_size_dt_struct m fdt := fdt_get_header m fdt f_size_dt_struct.

(** [fdth->name = cpu_to_fdt32(val)]: the word is stored big-endian. *)
Definition fdt_set_hdr_ (f : fdt_header_field) (m : mem) (fdt val : Z) : res mem :=
  st32 m (fdt + field_off f) val.
Definition fdt_set_magic := fdt_set_hdr_ f_magic.
Definition fdt_set_totalsize := fdt_set_hdr_ f_totalsize.
Definition fdt_set_off_dt_struct := fdt_set_hdr_ f_off_dt_struct.
Definition fdt_set_off_dt_strings := fdt_set_hdr_ f_off_dt_strings.
Definition fdt_set_off_mem_rsvmap := fdt_set_hdr_ f_off_mem_rsvmap.
Definition fdt_set_version := fdt_set_hdr_ f_version.
Definition fdt_set_last_comp_version := fdt_set_hdr_ f_last_comp_version.
Definition fdt_set_boot_cpuid_phys := fdt_set_hdr_ f_boot_cpuid_phys.
Definition fdt_set_size_dt_strings := fdt_set_hdr_ f_size_dt_strings.
Definition fdt_set_size_dt_struct := fdt_set_hdr_ f_size_dt_struct.

(** ** libfdt_internal.h *)

Definition FDT_ALIGN (x a : Z) : Z := align_up x a.
Definition FDT_TAGALIGN (x : Z) : Z := FDT_ALIGN x FDT_TAGSIZE.

(** [~FDT_MAGIC] *)
Definition FDT_SW_MAGIC : Z := 0x2ff20112.

Definition FDT_ASSUME_MASK : Z := 0.

Definition ASSUME_PERFECT : Z := 0xff.
Definition ASSUME_VALID_DTB : Z := Z.shiftl 1 0.
Definition ASSUME_VALID_INPUT : Z := Z.shiftl 1 1.
Definition ASSUME_LATEST : Z := Z.shiftl 1 2.
Definition ASSUME_NO_ROLLBACK : Z := Z.shiftl 1 3.
Definition ASSUME_LIBFDT_ORDER : Z := Z.shiftl 1 4.
Definition ASSUME_LIBFDT_FLAWLESS : Z := Z.shiftl 1 5.

Definition can_assume (mask : Z) : bool := negb (Z.land FDT_ASSUME_MASK mask =? 0).

Definition fdt_offset_ptr_ (m : mem) (fdt offset : Z) : res Z :=
  let! off := fdt_off_dt_struct m fdt in
  Ret (fdt + off + offset).

Definition fdt_offset_ptr_w_ := fdt_offset_ptr_.

Definition fdt_mem_rsv_ (m : mem) (fdt n : Z) : res Z :=
  let! off := fdt_off_mem_rsvmap m fdt in
  Ret (fdt + off + n * sizeof_fdt_reserve_entry).

Definition fdt_mem_rsv_w_ := fdt_mem_rsv_.

Definition fdt32_ld_ (m : mem) (p : Z) : res Z := ld32 m p.
Definition fdt64_ld_ (m : mem) (p : Z) : res Z := ld64 m p.
Definition fdt32_to_cpu_at (m : mem) (p : Z) : res Z := ld32 m p.

(** [ilia] with the error codes and sizes unfolded. *)
Ltac elia :=
  unfold FDT_ERR_NOTFOUND, FDT_ERR_EXISTS, FDT_ERR_NOSPACE, FDT_ERR_BADOFFSET,
    FDT_ERR_BADPATH, FDT_ERR_BADPHANDLE, FDT_ERR_BADSTATE, FDT_ERR_TRUNCATED,
    FDT_ERR_BADMAGIC, FDT_ERR_BADVERSION, FDT_ERR_BADSTRUCTURE, FDT_ERR_BADLAYOUT,
    FDT_ERR_INTERNAL, FDT_ERR_BADNCELLS, FDT_ERR_BADVALUE, FDT_ERR_BADOVERLAY,
    FDT_ERR_NOPHANDLES, FDT_ERR_BADFLAGS, FDT_ERR_ALIGNMENT, FDT_TAGSIZE,
    sizeof_fdt_header, sizeof_fdt_reserve_entry, sizeof_fdt_property,
    sizeof_fdt_node_header in *; ilia.
