(* ===== verification/Fdt.v ===== *)
(** libfdt/fdt.c: header checks, bounded access to the structure block, the
    tag walker and the node walker. *)
From S2P Require Import Prelude Monad Memory Libfdt.

Definition fdt_ro_probe_ (m : mem) (fdt : Z) : res Z :=
  let! totalsize := fdt_totalsize m fdt in
  if can_assume ASSUME_VALID_DTB then Ret (s32 totalsize) else
  (* The device tree must be at an 8-byte aligned address *)
  if negb (Z.land fdt 7 =? 0) then Ret (- FDT_ERR_ALIGNMENT) else
  let finish := if totalsize <? INT32_MAX then Ret totalsize else Ret (- FDT_ERR_TRUNCATED) in
  let! magic := fdt_magic m fdt in
  if magic =? FDT_MAGIC then
    (* Complete tree *)
    if negb (can_assume ASSUME_LATEST) then
      let! version := fdt_version m fdt in
      if version <? FDT_FIRST_SUPPORTED_VERSION then Ret (- FDT_ERR_BADVERSION) else
      let! last_comp := fdt_last_comp_version m fdt in
      if FDT_LAST_SUPPORTED_VERSION <? last_comp then Ret (- FDT_ERR_BADVERSION) else
      finish
    else finish
  else if magic =? FDT_SW_MAGIC then
    (* Unfinished sequential-write blob *)
    let! bad := Ret (negb (can_assume ASSUME_VALID_INPUT)) &&!
                (let! sz := fdt_size_dt_struct m fdt in Ret (sz =? 0)) in
    if bad then Ret (- FDT_ERR_BADSTATE) else finish
  else Ret (- FDT_ERR_BADMAGIC).

Definition check_off_ (hdrsize totalsize off : Z) : bool :=
  (hdrsize <=? off) && (off <=? totalsize).

Definition check_block_ (hdrsize totalsize base size : Z) : bool :=
  if negb (check_off_ hdrsize totalsize base) then false (* block start out of bounds *)
  else if u32 (base + size) <? base then false (* overflow *)
  else if negb (check_off_ hdrsize totalsize (u32 (base + size))) then false (* block end out of bounds *)
  else true.

Definition fdt_header_size_ (version : Z) : Z :=
  if version <=? 1 then FDT_V1_SIZE
  else if version <=? 2 then FDT_V2_SIZE
  else if version <=? 3 then FDT_V3_SIZE
  else if version <=? 16 then FDT_V16_SIZE
  else FDT_V17_SIZE.

Definition fdt_header_size (m : mem) (fdt : Z) : res Z :=
  if can_assume ASSUME_LATEST then Ret FDT_V17_SIZE
  else let! version := fdt_version m fdt in Ret (fdt_header_size_ version).

Definition fdt_check_header (m : mem) (fdt : Z) : res Z :=
  (* The device tree must be at an 8-byte aligned address *)
  if negb (Z.land fdt 7 =? 0) then Ret (- FDT_ERR_ALIGNMENT) else
  let! magic := fdt_magic m fdt in
  if negb (magic =? FDT_MAGIC) then Ret (- FDT_ERR_BADMAGIC) else
  let! version := fdt_version m fdt in
  let! last_comp := fdt_last_comp_version m fdt in
  if negb (can_assume ASSUME_LATEST) &&
     ((version <? FDT_FIRST_SUPPORTED_VERSION) || (FDT_LAST_SUPPORTED_VERSION <? last_comp))
  then Ret (- FDT_ERR_BADVERSION) else
  if negb (can_assume ASSUME_LATEST) && (version <? last_comp)
  then Ret (- FDT_ERR_BADVERSION) else
  let! hdrsize := fdt_header_size m fdt in
  let! totalsize := fdt_totalsize m fdt in
  if negb (can_assume ASSUME_VALID_DTB) &&
     ((totalsize <? hdrsize) || (INT_MAX <? totalsize))
  then Ret (- FDT_ERR_TRUNCATED) else
  (* Bounds check memrsv block *)
  let! off_rsv := fdt_off_mem_rsvmap m fdt in
  if negb (can_assume ASSUME_VALID_DTB) && negb (check_off_ hdrsize totalsize off_rsv)
  then Ret (- FDT_ERR_TRUNCATED) else
  if negb (can_assume ASSUME_VALID_DTB) then
    (* Bounds check structure block *)
    let! off_struct := fdt_off_dt_struct m fdt in
    let! struct_ok :=
      if negb (can_assume ASSUME_LATEST) && (version <? 17)
      then Ret (check_off_ hdrsize totalsize off_struct)
      else let! size_struct := fdt_size_dt_struct m fdt in
           Ret (check_block_ hdrsize totalsize off_struct size_struct) in
    if negb struct_ok then Ret (- FDT_ERR_TRUNCATED) else
    (* Bounds check strings block *)
    let! off_strings := fdt_off_dt_strings m fdt in
    let! size_strings := fdt_size_dt_strings m fdt in
    if negb (check_block_ hdrsize totalsize off_strings size_strings)
    then Ret (- FDT_ERR_TRUNCATED) else
    Ret 0
  else Ret 0.

Definition fdt_offset_ptr (m : mem) (fdt offset len : Z) : res (option Z) :=
  let uoffset := u32 offset in
  let! off_struct := fdt_off_dt_struct m fdt in
  let absoffset := u32 (offset + off_struct) in
  if offset <? 0 then Ret None else
  let! bad := Ret (negb (can_assume ASSUME_VALID_INPUT)) &&!
    (Ret (absoffset <? uoffset)
     ||! Ret (u32 (absoffset + len) <? absoffset)
     ||! (let! totalsize := fdt_totalsize m fdt in Ret (totalsize <? u32 (absoffset + len)))) in
  if bad then Ret None else
  let! bad := (Ret (can_assume ASSUME_LATEST) ||!
               (let! version := fdt_version m fdt in Ret (0x11 <=? version))) &&!
    (Ret (u32 (uoffset + len) <? uoffset)
     ||! (let! size := fdt_size_dt_struct m fdt in Ret (size <? u32 (offset + len)))) in
  if bad then Ret None else
  let! p := fdt_offset_ptr_ m fdt offset in
  Ret (Some p).

Definition fdt_offset_ptr_w (m : mem) (fdt offset checklen : Z) : res (option Z) :=
  fdt_offset_ptr m fdt offset (u32 checklen).

(** The [do ... while (p && ( *p != '\0'))] loop of [fdt_next_tag]: the last
    pointer and the offset after the name. *)
Definition fdt_skip_name (m : mem) (fdt offset : Z) : res (option Z * Z) :=
  loop (fun offset =>
    let! p := fdt_offset_ptr m fdt offset 1 in
    let! offset := sint (offset + 1) in
    match p with
    | None => Ret (Break (None, offset))
    | Some a =>
      let! c := ld8 m a in
      if bool_decide (c = x00) then Ret (Break (Some a, offset)) else Ret (Continue offset)
    end) offset.

(** The [FDT_PROP] case of [fdt_next_tag]: the offset after the value, or
    None for a premature end. *)
Definition fdt_skip_prop (m : mem) (fdt offset : Z) : res (option Z) :=
  let! lenp := fdt_offset_ptr m fdt offset 4 in
  if negb (can_assume ASSUME_VALID_DTB) && is_null lenp
  then Ret None (* premature end *) else
  let! lenp := nonnull lenp in
  let! len := fdt32_to_cpu_at m lenp in
  (* skip-name offset, length and value *)
  let offset := s32 (offset + (sizeof_fdt_property - FDT_TAGSIZE + len)) in
  let! version := fdt_version m fdt in
  if negb (can_assume ASSUME_LATEST) && (version <? 0x10) && (8 <=? len) &&
     negb (u32 (offset - len) mod 8 =? 0)
  then let! offset := sint (offset + 4) in Ret (Some offset)
  else Ret (Some offset).

(** Returns the tag and [*nextoffset]. *)
Definition fdt_next_tag (m : mem) (fdt startoffset : Z) : res (Z * Z) :=
  let offset := startoffset in
  let! tagp := fdt_offset_ptr m fdt offset FDT_TAGSIZE in
  if negb (can_assume ASSUME_VALID_DTB) && is_null tagp
  then Ret (FDT_END, - FDT_ERR_TRUNCATED) (* premature end *) else
  let! tagp := nonnull tagp in
  let! tag := fdt32_to_cpu_at m tagp in
  let offset := s32 (offset + FDT_TAGSIZE) in
  (* the offset after the tag's contents, or None: return FDT_END early *)
  let! after :=
    if tag =? FDT_BEGIN_NODE then
      (* skip name *)
      let! '(p, offset) := fdt_skip_name m fdt offset in
      if negb (can_assume ASSUME_VALID_DTB) && is_null p
      then Ret None (* premature end *) else Ret (Some offset)
    else if tag =? FDT_PROP then
      fdt_skip_prop m fdt offset
    else if (tag =? FDT_END) || (tag =? FDT_END_NODE) || (tag =? FDT_NOP) then
      Ret (Some offset)
    else Ret None in
  match after with
  | None => Ret (FDT_END, - FDT_ERR_BADSTRUCTURE)
  | Some offset =>
    let! sz := sint (offset - startoffset) in
    let! p := fdt_offset_ptr m fdt startoffset (u32 sz) in
    if is_null p then Ret (FDT_END, - FDT_ERR_BADSTRUCTURE) (* premature end *)
    else Ret (tag, s32 (FDT_TAGALIGN offset))
  end.

Definition fdt_check_node_offset_ (m : mem) (fdt offset : Z) : res Z :=
  if negb (can_assume ASSUME_VALID_INPUT) &&
     ((offset <? 0) || negb (offset mod FDT_TAGSIZE =? 0))
  then Ret (- FDT_ERR_BADOFFSET) else
  let! '(tag, offset) := fdt_next_tag m fdt offset in
  if negb (tag =? FDT_BEGIN_NODE) then Ret (- FDT_ERR_BADOFFSET) else
  Ret offset.

Definition fdt_check_prop_offset_ (m : mem) (fdt offset : Z) : res Z :=
  if negb (can_assume ASSUME_VALID_INPUT) &&
     ((offset <? 0) || negb (offset mod FDT_TAGSIZE =? 0))
  then Ret (- FDT_ERR_BADOFFSET) else
  let! '(tag, offset) := fdt_next_tag m fdt offset in
  if negb (tag =? FDT_PROP) then Ret (- FDT_ERR_BADOFFSET) else
  Ret offset.

(** [( *depth)++] when [depth] is not NULL. *)
Definition incr_depth (depth : option Z) : res (option Z) :=
  match depth with
  | None => Ret None
  | Some d => let! d := sint (d + 1) in Ret (Some d)
  end.

(** One round of the [do ... while (tag != FDT_BEGIN_NODE)] loop. *)
Definition fdt_next_node_body (m : mem) (fdt : Z) (st : Z * option Z)
    : res (ctl (Z * option Z) (Z * option Z)) :=
  let '(nextoffset, depth) := st in
  let offset := nextoffset in
  let! '(tag, nextoffset) := fdt_next_tag m fdt offset in
  if (tag =? FDT_PROP) || (tag =? FDT_NOP) then Ret (Continue (nextoffset, depth))
  else if tag =? FDT_BEGIN_NODE then
    let! depth := incr_depth depth in
    Ret (Break (offset, depth))
  else if tag =? FDT_END_NODE then
    match depth with
    | None => Ret (Continue (nextoffset, None))
    | Some d =>
      let! d := sint (d - 1) in
      if d <? 0 then Ret (Break (nextoffset, Some d)) else Ret (Continue (nextoffset, Some d))
    end
  else if tag =? FDT_END then
    if (0 <=? nextoffset) || ((nextoffset =? - FDT_ERR_TRUNCATED) && is_null depth)
    then Ret (Break (- FDT_ERR_NOTFOUND, depth))
    else Ret (Break (nextoffset, depth))
  else Ret (Continue (nextoffset, depth)).

(** [depth] is None for NULL; returns the result and [*depth]. *)
Definition fdt_next_node (m : mem) (fdt offset : Z) (depth : option Z) : res (Z * option Z) :=
  let! nextoffset := if 0 <=? offset then fdt_check_node_offset_ m fdt offset else Ret 0 in
  if nextoffset <? 0 then Ret (nextoffset, depth) else
  loop (fdt_next_node_body m fdt) (nextoffset, depth).

Definition fdt_first_subnode (m : mem) (fdt offset : Z) : res Z :=
  let! '(offset, depth) := fdt_next_node m fdt offset (Some 0) in
  if (offset <? 0) || negb (bool_decide (depth = Some 1)) then Ret (- FDT_ERR_NOTFOUND)
  else Ret offset.

Definition fdt_next_subnode (m : mem) (fdt offset : Z) : res Z :=
  (* With respect to the parent, the depth of the next subnode will be the
     same as the last. *)
  loop (fun '(offset, depth) =>
    let! '(offset, depth') := fdt_next_node m fdt offset (Some depth) in
    let depth := default depth depth' in
    if (offset <? 0) || (depth <? 1) then Ret (Break (- FDT_ERR_NOTFOUND))
    else if 1 <? depth then Ret (Continue (offset, depth))
    else Ret (Break offset)) (offset, 1).

(** [s] is a C string the caller holds. *)
Definition fdt_find_string_ (m : mem) (strtab tabsize : Z) (s : list byte) : res (option Z) :=
  let len := Z.of_nat (length s) + 1 in
  let last := strtab + tabsize - len in
  loop (fun p =>
    if p <=? last then
      let! eq := memcmp_eq m p (s ++ [x00]) in
      if eq then Ret (Break (Some p)) else Ret (Continue (p + 1))
    else Ret (Break None)) strtab.

Definition fdt_move (m : mem) (fdt buf bufsize : Z) : res (Z * mem) :=
  if negb (can_assume ASSUME_VALID_INPUT) && (bufsize <? 0)
  then Ret (- FDT_ERR_NOSPACE, m) else
  let! e := fdt_ro_probe_ m fdt in
  if e <? 0 then Ret (e, m) else
  let! totalsize := fdt_totalsize m fdt in
  if u32 bufsize <? totalsize then Ret (- FDT_ERR_NOSPACE, m) else
  let! m := memmove m buf fdt totalsize in
  Ret (0, m).
