(* ===== verification/FdtSpec.v ===== *)
(** Specifications of fdt.c on arbitrary blobs: the header as a record, the
    bounds check as plain arithmetic, and what one tag step can return. *)
From S2P Require Import Prelude Monad Memory Libfdt Fdt.

(** The header words of a blob. *)
Record header := Header {
  h_magic : Z; h_totalsize : Z; h_off_struct : Z; h_off_strings : Z; h_off_rsv : Z;
  h_version : Z; h_last_comp : Z; h_cpuid : Z; h_size_strings : Z; h_size_struct : Z;
}.

Definition hdr_get (h : header) (f : fdt_header_field) : Z :=
  match f with
  | f_magic => h_magic h | f_totalsize => h_totalsize h
  | f_off_dt_struct => h_off_struct h | f_off_dt_strings => h_off_strings h
  | f_off_mem_rsvmap => h_off_rsv h | f_version => h_version h
  | f_last_comp_version => h_last_comp h | f_boot_cpuid_phys => h_cpuid h
  | f_size_dt_strings => h_size_strings h | f_size_dt_struct => h_size_struct h
  end.

(** The header [h] is stored at [fdt]. *)
Definition hdr_at (m : mem) (fdt : Z) (h : header) : Prop :=
  forall f, fdt_get_header m fdt f = Ret (hdr_get h f).

(** A readable blob: its header and its [totalsize] bytes are allocated, and
    the size is one the probes accept. *)
Record blob (m : mem) (fdt : Z) (h : header) : Prop := Blob {
  blob_hdr : hdr_at m fdt h;
  blob_valid : valid m fdt (h_totalsize h);
  blob_size : h_totalsize h <= INT_MAX;
  blob_room : h_totalsize h - h_off_struct h <= INT_MAX - 4;
}.

(** The [len] bytes at [offset] lie in the blob and, from version 17 on, in
    the structure block. *)
Definition in_struct (h : header) (offset len : Z) : bool :=
  (0 <=? offset) && (h_off_struct h + offset + len <=? h_totalsize h) &&
  ((h_version h <? 17) || (offset + len <=? h_size_struct h)).

(** The address of structure offset [o]. *)
Definition saddr (fdt : Z) (h : header) (o : Z) : Z := fdt + h_off_struct h + o.

(** A property at [o] has a length with which the [int] arithmetic of
    [fdt_next_tag] does not wrap. *)
Definition len_ok (m : mem) (fdt : Z) (h : header) (o : Z) : Prop :=
  forall len, in_struct h o 4 = true -> in_struct h (o + 4) 4 = true ->
    ld32 m (saddr fdt h o) = Ret FDT_PROP ->
    ld32 m (saddr fdt h (o + 4)) = Ret len ->
    o + 16 + len <= INT_MAX.

(** Before version 16 a value of at least 8 bytes is aligned on 8 bytes. *)
Definition prop_pad (h : header) (start len : Z) : Z :=
  if (h_version h <? 0x10) && (8 <=? len) && negb ((start + 12) mod 8 =? 0) then 4 else 0.

(** A property at [start] whose length makes the [int] arithmetic wrap: the
    end of its value is taken modulo 2^32, and an overflow of the padding or of
    the size is a fault. A length of 2^32 - 12 or more can be taken for a
    property that ends where it begins. *)
Definition prop_wraps (h : header) (start len : Z) : res (Z * Z) :=
  let! off := sint (s32 (start + 12 + len) + prop_pad h start len) in
  let! size := sint (off - start) in
  Ret (if in_struct h start (u32 size) then (FDT_PROP, s32 (align_up off 4)) else (FDT_END, - FDT_ERR_BADSTRUCTURE)).

(** Why there is no tag at [start], when there is room for one. *)
Inductive bad_tag (m : mem) (fdt : Z) (h : header) (start : Z) : Prop :=
| bad_unknown tag :
    ld32 m (saddr fdt h start) = Ret tag ->
    tag ∉ [FDT_BEGIN_NODE; FDT_END_NODE; FDT_PROP; FDT_NOP; FDT_END] ->
    bad_tag m fdt h start
| bad_name :
    ld32 m (saddr fdt h start) = Ret FDT_BEGIN_NODE ->
    (forall x, start + 4 <= x -> in_struct h x 1 = true -> m !! saddr fdt h x <> Some x00) ->
    bad_tag m fdt h start
| bad_prop :
    ld32 m (saddr fdt h start) = Ret FDT_PROP ->
    in_struct h (start + 4) 4 = false ->
    bad_tag m fdt h start
| bad_value len :
    ld32 m (saddr fdt h start) = Ret FDT_PROP ->
    ld32 m (saddr fdt h (start + 4)) = Ret len ->
    in_struct h (start + 4) 4 = true ->
    (len_ok m fdt h start -> in_struct h start (12 + len + prop_pad h start len) = false) ->
    bad_tag m fdt h start.

(** What one step of the tag walker at [start] can return. *)
Inductive tag_step (m : mem) (fdt : Z) (h : header) (start : Z) : Z -> Z -> Prop :=
| step_truncated :
    in_struct h start 4 = false ->
    tag_step m fdt h start FDT_END (- FDT_ERR_TRUNCATED)
| step_bad :
    in_struct h start 4 = true ->
    bad_tag m fdt h start ->
    tag_step m fdt h start FDT_END (- FDT_ERR_BADSTRUCTURE)
| step_begin off :
    ld32 m (saddr fdt h start) = Ret FDT_BEGIN_NODE ->
    in_struct h start (off - start) = true ->
    start + 4 < off ->
    m !! saddr fdt h (off - 1) = Some x00 ->
    (forall x, start + 4 <= x < off - 1 -> m !! saddr fdt h x <> Some x00) ->
    tag_step m fdt h start FDT_BEGIN_NODE (align_up off 4)
| step_prop len off :
    ld32 m (saddr fdt h start) = Ret FDT_PROP ->
    ld32 m (saddr fdt h (start + 4)) = Ret len ->
    in_struct h (start + 4) 4 = true ->
    in_struct h start (off - start) = true ->
    start <= off ->
    (len_ok m fdt h start -> off = start + 12 + len + prop_pad h start len) ->
    tag_step m fdt h start FDT_PROP (align_up off 4)
| step_short tag :
    ld32 m (saddr fdt h start) = Ret tag ->
    tag = FDT_END \/ tag = FDT_END_NODE \/ tag = FDT_NOP ->
    in_struct h start 4 = true ->
    tag_step m fdt h start tag (align_up (start + 4) 4).

(** Offsets the tag walker can be at, closed under its steps. *)
Definition tag_closed (m : mem) (fdt : Z) (h : header) (P : Z -> Prop) : Prop :=
  forall o tag next, P o -> tag_step m fdt h o tag next -> tag <> FDT_END -> P next.

(** [start] is an aligned offset of the set [P] where a tag of that kind begins. *)
Definition tag_here (m : mem) (fdt : Z) (h : header) (P : Z -> Prop) (tag start next : Z) : Prop :=
  0 <= start /\ start mod 4 = 0 /\ 0 <= next /\ tag_step m fdt h start tag next /\ P start /\
  tag <> FDT_END.

Lemma prop_pad_range h o len : 0 <= prop_pad h o len <= 4.
Proof. unfold prop_pad. by destruct (_ && _ && _). Qed.

Section hdr.
Context (m : mem) (fdt : Z) (h : header) (Hh : hdr_at m fdt h).

Lemma hdr_u32 f : is_u32 (hdr_get h f).
Proof using Hh.
  pose proof (Hh f) as H. unfold fdt_get_header, fdt32_ld in H. by eapply ld32_range.
Qed.

Lemma rd_magic : fdt_magic m fdt = Ret (h_magic h).
Proof using Hh. apply (Hh f_magic). Qed.
Lemma rd_totalsize : fdt_totalsize m fdt = Ret (h_totalsize h).
Proof using Hh. apply (Hh f_totalsize). Qed.
Lemma rd_off_struct : fdt_off_dt_struct m fdt = Ret (h_off_struct h).
Proof using Hh. apply (Hh f_off_dt_struct). Qed.
Lemma rd_off_strings : fdt_off_dt_strings m fdt = Ret (h_off_strings h).
Proof using Hh. apply (Hh f_off_dt_strings). Qed.
Lemma rd_off_rsv : fdt_off_mem_rsvmap m fdt = Ret (h_off_rsv h).
Proof using Hh. apply (Hh f_off_mem_rsvmap). Qed.
Lemma rd_version : fdt_version m fdt = Ret (h_version h).
Proof using Hh. apply (Hh f_version). Qed.
Lemma rd_last_comp : fdt_last_comp_version m fdt = Ret (h_last_comp h).
Proof using Hh. apply (Hh f_last_comp_version). Qed.
Lemma rd_cpuid : fdt_boot_cpuid_phys m fdt = Ret (h_cpuid h).
Proof using Hh. apply (Hh f_boot_cpuid_phys). Qed.
Lemma rd_size_strings : fdt_size_dt_strings m fdt = Ret (h_size_strings h).
Proof using Hh. apply (Hh f_size_dt_strings). Qed.
Lemma rd_size_struct : fdt_size_dt_struct m fdt = Ret (h_size_struct h).
Proof using Hh. apply (Hh f_size_dt_struct). Qed.

Lemma rd_offset_ptr_ o : fdt_offset_ptr_ m fdt o = Ret (saddr fdt h o).
Proof using Hh. unfold fdt_offset_ptr_. by rewrite rd_off_struct. Qed.
End hdr.

(** Forty readable bytes hold a header. *)
Lemma hdr_exists m fdt : valid m fdt 40 -> exists h, hdr_at m fdt h.
Proof.
  intros Hv.
  assert (H : forall f, exists v, fdt_get_header m fdt f = Ret v).
  { intros f. destruct (ld32_valid m (fdt + field_off f)) as (v & Hld & _).
    - eapply valid_sub; [exact Hv| |]; destruct f; simpl; lia.
    - eauto. }
  destruct (H f_magic) as [v0 H0]. destruct (H f_totalsize) as [v1 H1].
  destruct (H f_off_dt_struct) as [v2 H2]. destruct (H f_off_dt_strings) as [v3 H3].
  destruct (H f_off_mem_rsvmap) as [v4 H4]. destruct (H f_version) as [v5 H5].
  destruct (H f_last_comp_version) as [v6 H6]. destruct (H f_boot_cpuid_phys) as [v7 H7].
  destruct (H f_size_dt_strings) as [v8 H8]. destruct (H f_size_dt_struct) as [v9 H9].
  exists (Header v0 v1 v2 v3 v4 v5 v6 v7 v8 v9). intros f. by destruct f.
Qed.

Lemma hdr_inj m fdt h h' : hdr_at m fdt h -> hdr_at m fdt h' -> h = h'.
Proof.
  intros H H'.
  assert (E : forall f, hdr_get h f = hdr_get h' f).
  { intros f. pose proof (H f) as A. rewrite (H' f) in A. congruence. }
  destruct h, h'.
  pose proof (E f_magic). pose proof (E f_totalsize). pose proof (E f_off_dt_struct).
  pose proof (E f_off_dt_strings). pose proof (E f_off_mem_rsvmap). pose proof (E f_version).
  pose proof (E f_last_comp_version). pose proof (E f_boot_cpuid_phys).
  pose proof (E f_size_dt_strings). pose proof (E f_size_dt_struct).
  simpl in *. congruence.
Qed.

(** Rewrite every header read of the goal with the header [h] of [H]. *)
Ltac rd H :=
  rewrite ?(rd_magic _ _ _ H), ?(rd_totalsize _ _ _ H), ?(rd_off_struct _ _ _ H),
    ?(rd_off_strings _ _ _ H), ?(rd_off_rsv _ _ _ H), ?(rd_version _ _ _ H),
    ?(rd_last_comp _ _ _ H), ?(rd_cpuid _ _ _ H), ?(rd_size_strings _ _ _ H),
    ?(rd_size_struct _ _ _ H), ?(rd_offset_ptr_ _ _ _ H); cbn [rbind].

(** The 32-bit ranges of the header words in use. *)
Ltac hdr_ranges H :=
  pose proof (hdr_u32 _ _ _ H f_totalsize); pose proof (hdr_u32 _ _ _ H f_off_dt_struct);
  pose proof (hdr_u32 _ _ _ H f_off_dt_strings); pose proof (hdr_u32 _ _ _ H f_off_mem_rsvmap);
  pose proof (hdr_u32 _ _ _ H f_size_dt_strings); pose proof (hdr_u32 _ _ _ H f_size_dt_struct);
  pose proof (hdr_u32 _ _ _ H f_version); pose proof (hdr_u32 _ _ _ H f_last_comp_version);
  cbn [hdr_get] in *.

(** The no-assumption build: every [can_assume] is false. *)
Ltac noassume :=
  repeat match goal with
  | |- context [can_assume ?a] => change (can_assume a) with false
  end; cbn [negb andb orb rbind].

Lemma u32_add_wrap a b :
  is_u32 a -> is_u32 b -> (u32 (a + b) <? a) = negb (a + b <=? UINT32_MAX).
Proof.
  intros Ha Hb. unfold u32. cint_unfold.
  destruct (Z.leb_spec (a + b) 4294967295); simpl.
  - rewrite Z.mod_small by lia. apply Z.ltb_ge. lia.
  - replace (a + b) with (a + b - 4294967296 + 1 * 4294967296) by lia.
    rewrite Z.mod_add, Z.mod_small by lia. apply Z.ltb_lt. lia.
Qed.

(** The wrap-around checks of [fdt_offset_ptr] amount to the range test. *)
Lemma fdt_offset_ptr_eq m fdt h offset len :
  hdr_at m fdt h -> is_s32 offset -> is_u32 len ->
  fdt_offset_ptr m fdt offset len =
    Ret (if in_struct h offset len then Some (saddr fdt h offset) else None).
Proof.
  intros Hh Ho Hl. hdr_ranges Hh.
  unfold fdt_offset_ptr, in_struct. rd Hh.
  destruct (Z.ltb_spec offset 0) as [Hneg|Hpos].
  { destruct (Z.leb_spec 0 offset); [lia|done]. }
  destruct (Z.leb_spec 0 offset); [|lia]. noassume.
  rewrite (u32_small offset) by ilia.
  rewrite (u32_add_wrap offset (h_off_struct h)) by ilia.
  destruct (Z.leb_spec (offset + h_off_struct h) UINT32_MAX) as [A1|A1]; cbn [negb rbind].
  2:{ destruct (Z.leb_spec (h_off_struct h + offset + len) (h_totalsize h)); [ilia|done]. }
  rewrite (u32_small (offset + h_off_struct h)) by ilia.
  rewrite (u32_add_wrap (offset + h_off_struct h) len) by ilia.
  destruct (Z.leb_spec (offset + h_off_struct h + len) UINT32_MAX) as [A2|A2]; cbn [negb rbind].
  2:{ destruct (Z.leb_spec (h_off_struct h + offset + len) (h_totalsize h)); [ilia|done]. }
  rewrite (u32_small (offset + h_off_struct h + len)) by ilia. rd Hh.
  replace (h_off_struct h + offset + len) with (offset + h_off_struct h + len) by lia.
  destruct (Z.ltb_spec (h_totalsize h) (offset + h_off_struct h + len)) as [A3|A3];
    destruct (Z.leb_spec (offset + h_off_struct h + len) (h_totalsize h)); try lia;
    cbn [negb andb rbind]; [done|].
  destruct (Z.leb_spec 17 (h_version h)) as [A4|A4];
    destruct (Z.ltb_spec (h_version h) 17); try lia; cbn [negb andb orb rbind].
  2:{ by rd Hh. }
  rewrite (u32_add_wrap offset len) by ilia.
  destruct (Z.leb_spec (offset + len) UINT32_MAX); [|ilia]. cbn [negb rbind]. rd Hh.
  rewrite u32_small by ilia.
  destruct (Z.ltb_spec (h_size_struct h) (offset + len));
    destruct (Z.leb_spec (offset + len) (h_size_struct h)); try lia; cbn [rbind]; [done|].
  by rd Hh.
Qed.

(** ** One step of the tag walker *)

Lemma in_struct_true h o n :
  in_struct h o n = true <->
  0 <= o /\ h_off_struct h + o + n <= h_totalsize h /\
  (17 <= h_version h -> o + n <= h_size_struct h).
Proof.
  unfold in_struct. split.
  - intros H. bool_prop. split; [lia|]. split; [lia|]. intros.
    match goal with H : _ || _ = true |- _ => apply orb_prop in H as [H|H] end; bool_prop; lia.
  - intros (H1 & H2 & H3).
    destruct (Z.leb_spec 0 o), (Z.leb_spec (h_off_struct h + o + n) (h_totalsize h)),
      (Z.ltb_spec (h_version h) 17), (Z.leb_spec (o + n) (h_size_struct h)); simpl; lia.
Qed.

Section step.
Context (m : mem) (fdt : Z) (h : header) (Hb : blob m fdt h).

Let Hh : hdr_at m fdt h := blob_hdr _ _ _ Hb.

Lemma in_struct_valid o n a k :
  in_struct h o n = true -> saddr fdt h o <= a -> a + k <= saddr fdt h (o + n) -> valid m a k.
Proof using Hb.
  intros (H1 & H2 & H3)%in_struct_true Ha Hk. hdr_ranges Hh. unfold saddr in *.
  eapply valid_sub; [apply (blob_valid _ _ _ Hb)| |]; ilia.
Qed.

Lemma fdt_skip_name_wp E offset :
  0 <= offset < INT_MAX ->
  wp E (fdt_skip_name m fdt offset) (fun '(p, off) =>
    match p with
    | Some a =>
      a = saddr fdt h (off - 1) /\ offset < off /\ in_struct h (off - 1) 1 = true /\
      m !! a = Some x00 /\
      forall x, offset <= x < off - 1 -> m !! saddr fdt h x <> Some x00
    | None =>
      forall x, offset <= x -> in_struct h x 1 = true -> m !! saddr fdt h x <> Some x00
    end).
Proof using Hb.
  intros Ho. unfold fdt_skip_name.
  apply (wp_loop E (fun o => offset <= o < INT_MAX /\
    forall x, offset <= x < o -> m !! saddr fdt h x <> Some x00) (fun o => INT_MAX - o)).
  - split; [lia|]. intros; lia.
  - intros s [? _]. unfold loop_bound. ilia.
  - intros o [Hor Hno].
    rewrite (fdt_offset_ptr_eq _ _ _ _ _ Hh) by ilia. cbn [rbind].
    rewrite sint_small by ilia. cbn [rbind].
    destruct (in_struct h o 1) eqn:Hin.
    2:{ intros x Hx Hinx. apply Hno. split; [done|].
        destruct (Z.lt_ge_cases x o); [done|]. exfalso.
        apply in_struct_true in Hinx as (X1 & X2 & X3).
        assert (in_struct h o 1 = true) by (apply in_struct_true; lia). congruence. }
    destruct (in_struct_valid o 1 (saddr fdt h o) 1 Hin) with (i := 0) as [b Hb0];
      [unfold saddr; lia..|]. rewrite Z.add_0_r in Hb0.
    rewrite (ld8_at _ _ _ Hb0). cbn [rbind].
    apply in_struct_true in Hin as Hin'. destruct Hin' as (? & ? & ?).
    pose proof (blob_room _ _ _ Hb).
    case_bool_decide as Hz; cbn [wp].
    + subst b. replace (o + 1 - 1) with o by lia. split; [done|]. split; [lia|]. done.
    + split; [|lia]. split; [lia|]. intros x Hx.
      destruct (decide (x = o)) as [->|]; [congruence | apply Hno; lia].
Qed.

(** The final range check of [fdt_next_tag]. *)
Lemma next_tag_close E start off tag (Q : Z * Z -> Prop) :
  is_s32 start -> 0 <= start -> is_s32 off ->
  (E Ovf \/ is_s32 (off - start)) ->
  ((start <= off -> in_struct h start (off - start) = false) -> Q (FDT_END, - FDT_ERR_BADSTRUCTURE)) ->
  (start <= off -> in_struct h start (off - start) = true -> Q (tag, align_up off 4)) ->
  wp E (let! sz := sint (off - start) in
        let! p := fdt_offset_ptr m fdt start (u32 sz) in
        if is_null p then Ret (FDT_END, - FDT_ERR_BADSTRUCTURE)
        else Ret (tag, s32 (FDT_TAGALIGN off))) Q.
Proof using Hb.
  intros Hs Hs0 Hoff HE Qbad Qok. hdr_ranges Hh. pose proof (blob_size _ _ _ Hb).
  pose proof (blob_room _ _ _ Hb).
  assert (Hk : is_s32 (off - start) ->
    wp E (let! p := fdt_offset_ptr m fdt start (u32 (off - start)) in
        if is_null p then Ret (FDT_END, - FDT_ERR_BADSTRUCTURE)
        else Ret (tag, s32 (FDT_TAGALIGN off))) Q).
  { intros Hd. rewrite (fdt_offset_ptr_eq _ _ _ _ _ Hh) by (try apply u32_range; done).
    cbn [rbind]. destruct (in_struct h start (u32 (off - start))) eqn:Hin.
    2:{ apply Qbad. intros Hle. by rewrite u32_small in Hin by ilia. }
    cbn [is_null wp]. apply in_struct_true in Hin as Hin'. destruct Hin' as (I1 & I2 & I3).
    destruct (Z.lt_ge_cases off start) as [Hlt|Hge].
    - exfalso. unfold u32 in I2. rewrite <- (Z.mod_add _ 1) in I2 by lia.
      rewrite Z.mod_small in I2 by ilia. ilia.
    - rewrite u32_small in * by ilia. unfold FDT_TAGALIGN, FDT_ALIGN, FDT_TAGSIZE.
      pose proof (align_up_4_bounds off).
      rewrite s32_small by ilia. by apply Qok. }
  destruct (decide (is_s32 (off - start))) as [Hd|Hd].
  - rewrite sint_small by done. cbn [rbind]. by apply Hk.
  - destruct HE as [HE|HE]; [|done]. unfold sint.
    destruct ((INT_MIN <=? off - start) && (off - start <=? INT_MAX)) eqn:Hc; [|done].
    exfalso. apply Hd. bool_prop. done.
Qed.

(** The end of a property, from the offset after its tag. *)
Lemma fdt_skip_prop_wp E start :
  is_s32 start -> in_struct h start 4 = true -> ld32 m (saddr fdt h start) = Ret FDT_PROP ->
  (E Ovf \/ len_ok m fdt h start) ->
  wp E (fdt_skip_prop m fdt (start + 4)) (fun r =>
    match r with
    | None => in_struct h (start + 4) 4 = false
    | Some off => exists len, ld32 m (saddr fdt h (start + 4)) = Ret len /\
        in_struct h (start + 4) 4 = true /\ is_s32 off /\ (E Ovf \/ is_s32 (off - start)) /\
        (len_ok m fdt h start -> off = start + 12 + len + prop_pad h start len)
    end).
Proof using Hb.
  intros Hs Hin Htag HE. apply in_struct_true in Hin as Hin'. destruct Hin' as (I1 & I2 & I3).
  hdr_ranges Hh. pose proof (blob_room _ _ _ Hb). unfold fdt_skip_prop. noassume.
  rewrite (fdt_offset_ptr_eq _ _ _ _ _ Hh) by ilia. cbn [rbind].
  destruct (in_struct h (start + 4) 4) eqn:Hin4; cbn [is_null rbind]; [|done].
  apply in_struct_true in Hin4 as Hin4'. destruct Hin4' as (K1 & K2 & K3).
  cbn [nonnull rbind]. unfold fdt32_to_cpu_at.
  destruct (ld32_valid m (saddr fdt h (start + 4))) as (len & Hlen & Hlr);
    [eapply in_struct_valid; eauto; unfold saddr; lia|].
  rewrite Hlen. cbn [rbind]. rd Hh. unfold sizeof_fdt_property, FDT_TAGSIZE.
  replace (start + 4 + (12 - 4 + len)) with (start + 12 + len) by lia.
  assert (Hsane : len_ok m fdt h start -> start + 16 + len <= INT_MAX) by eauto.
  assert (Hoff : len_ok m fdt h start -> s32 (start + 12 + len) = start + 12 + len).
  { intros HL. specialize (Hsane HL). apply s32_small. ilia. }
  pose proof (s32_range (start + 12 + len)) as Hr.
  assert (HE' : E Ovf \/ len_ok m fdt h start /\ start + 16 + len <= INT_MAX /\
            s32 (start + 12 + len) = start + 12 + len) by (destruct HE; auto).
  match goal with |- context [if ?c then _ else _] =>
    assert (Hpad : len_ok m fdt h start -> prop_pad h start len = if c then 4 else 0);
    [|destruct c eqn:Hcond] end.
  - intros HL. rewrite (Hoff HL). replace (start + 12 + len - len) with (start + 12) by lia.
    by rewrite u32_small by ilia.
  - eapply wp_seq with (P := fun x => x = s32 (start + 12 + len) + 4 /\ is_s32 x).
    { destruct HE' as [HO|(HL & Hm & Hw)]; [by apply wp_sint_ovf|]. apply wp_sint; [ilia|].
      split; [done|ilia]. }
    intros x [-> Hx]. exists len. split; [done|]. split; [done|]. split; [done|]. split.
    + destruct HE' as [HO|(HL & Hm & Hw)]; [by left|right]. rewrite Hw. ilia.
    + intros HL. rewrite (Hoff HL), (Hpad HL). lia.
  - exists len. split; [done|]. split; [done|]. split; [done|]. split.
    + destruct HE' as [HO|(HL & Hm & Hw)]; [by left|right]. rewrite Hw. ilia.
    + intros HL. rewrite (Hoff HL), (Hpad HL). lia.
Qed.

Theorem fdt_next_tag_wp E start :
  is_s32 start -> (E Ovf \/ len_ok m fdt h start) ->
  wp E (fdt_next_tag m fdt start) (fun '(tag, next) => tag_step m fdt h start tag next).
Proof using Hb.
  intros Hs HE. hdr_ranges Hh. pose proof (blob_room _ _ _ Hb) as Hroom.
  pose proof (blob_size _ _ _ Hb) as Hsize.
  unfold fdt_next_tag. noassume. change FDT_TAGSIZE with 4.
  rewrite (fdt_offset_ptr_eq _ _ _ _ _ Hh) by ilia. cbn [rbind].
  destruct (in_struct h start 4) eqn:Hin; cbn [is_null]; [|by apply step_truncated].
  apply in_struct_true in Hin as Hin'. destruct Hin' as (I1 & I2 & I3).
  cbn [nonnull rbind]. unfold fdt32_to_cpu_at.
  destruct (ld32_valid m (saddr fdt h start)) as (tag & Htag & _);
    [eapply in_struct_valid; eauto; unfold saddr; lia|].
  rewrite Htag. cbn [rbind]. rewrite s32_small by ilia.
  destruct (Z.eqb_spec tag FDT_BEGIN_NODE) as [->|Nb].
  { rewrite rbind_assoc. eapply wp_seq; [apply fdt_skip_name_wp; ilia|].
    intros [[a|] off]; cbn [is_null rbind]; [|by intros; apply step_bad, bad_name].
    intros (-> & Hoff & Hin1 & Hz & Hno).
    apply in_struct_true in Hin1 as Hin1'. destruct Hin1' as (J1 & J2 & J3).
    apply next_tag_close; [ilia | ilia | ilia | right; ilia | |].
    - intros Hf. exfalso. rewrite (proj2 (in_struct_true _ _ _)) in Hf; [by discriminate Hf; lia|lia].
    - intros Hle Hin2. by apply step_begin. }
  destruct (Z.eqb_spec tag FDT_PROP) as [->|Np].
  { eapply wp_seq; [by apply fdt_skip_prop_wp|].
    intros [off|]; [|by intros; apply step_bad, bad_prop].
    intros (len & Hlen & Hin4 & Hoff & HE' & HL). apply next_tag_close; [done|done|done|done| |].
    - intros Hf. apply step_bad; [done|]. eapply bad_value; eauto. intros Hok.
      specialize (HL Hok). subst off. pose proof (ld32_range _ _ _ Hlen).
      pose proof (prop_pad_range h start len).
      rewrite <- Hf by ilia. f_equal. lia.
    - intros Hle Hin2. by eapply step_prop. }
  destruct ((tag =? FDT_END) || (tag =? FDT_END_NODE) || (tag =? FDT_NOP)) eqn:Hshort; cbn [rbind].
  - apply next_tag_close; [ilia | ilia | ilia | right; ilia | |].
    + intros Hf. exfalso. replace (start + 4 - start) with 4 in Hf by lia.
      rewrite Hf in Hin by lia. done.
    + intros Hle Hin2. apply step_short; auto.
      apply orb_prop in Hshort as [Hshort|Hshort]; [apply orb_prop in Hshort as [Hshort|Hshort]|];
        bool_prop; auto.
  - apply step_bad; [done|]. eapply bad_unknown; [done|]. bool_prop.
    rewrite !not_elem_of_cons. split; [done|]. split; [done|]. split; [done|]. split; [done|].
    split; [done|]. apply not_elem_of_nil.
Qed.

(** There is no more to a step: either no property length wraps at [start],
    or there is a property whose length does. *)
Lemma len_ok_or start :
  len_ok m fdt h start \/
  exists len, in_struct h start 4 = true /\ in_struct h (start + 4) 4 = true /\
    ld32 m (saddr fdt h start) = Ret FDT_PROP /\ ld32 m (saddr fdt h (start + 4)) = Ret len /\ INT_MAX < start + 16 + len.
Proof using.
  destruct (in_struct h start 4) eqn:H1; [|left; intros len ?; congruence].
  destruct (in_struct h (start + 4) 4) eqn:H2; [|left; intros len ? ?; congruence].
  destruct (ld32 m (saddr fdt h start)) as [tag|] eqn:H3; [|left; intros len ? ? ?; congruence].
  destruct (decide (tag = FDT_PROP)) as [->|Ht]; [|left; intros len ? ? ?; congruence].
  destruct (ld32 m (saddr fdt h (start + 4))) as [len|] eqn:H4; [|left; intros len ? ? ? ?; congruence].
  destruct (Z.le_gt_cases (start + 16 + len) INT_MAX) as [Hle|Hgt]; [left|right; by exists len].
  intros len' _ _ _ Hl. assert (len' = len) as -> by congruence. exact Hle.
Qed.

Lemma fdt_next_tag_wraps start len :
  is_s32 start -> in_struct h start 4 = true -> in_struct h (start + 4) 4 = true ->
  ld32 m (saddr fdt h start) = Ret FDT_PROP -> ld32 m (saddr fdt h (start + 4)) = Ret len ->
  fdt_next_tag m fdt start = prop_wraps h start len.
Proof using Hb.
  intros Hs Hin Hin4 Htag Hlen. pose proof Hin as (I1 & I2 & I3)%in_struct_true.
  pose proof Hin4 as (K1 & K2 & K3)%in_struct_true. hdr_ranges Hh. pose proof (blob_room _ _ _ Hb).
  pose proof (blob_size _ _ _ Hb). pose proof (ld32_range _ _ _ Hlen).
  unfold fdt_next_tag. noassume. change FDT_TAGSIZE with 4.
  rewrite (fdt_offset_ptr_eq _ _ _ _ _ Hh) by ilia. cbn [rbind]. rewrite Hin. cbn [is_null nonnull rbind].
  unfold fdt32_to_cpu_at. rewrite Htag. cbn [rbind]. rewrite s32_small by ilia.
  change (FDT_PROP =? FDT_BEGIN_NODE) with false. change (FDT_PROP =? FDT_PROP) with true. cbn [rbind].
  assert (Hskip : fdt_skip_prop m fdt (start + 4) =
    let! off := sint (s32 (start + 12 + len) + prop_pad h start len) in Ret (Some off)).
  { unfold fdt_skip_prop. noassume. rewrite (fdt_offset_ptr_eq _ _ _ _ _ Hh) by ilia. cbn [rbind]. rewrite Hin4.
    cbn [is_null nonnull rbind]. unfold fdt32_to_cpu_at. rewrite Hlen. cbn [rbind]. rd Hh.
    unfold sizeof_fdt_property, FDT_TAGSIZE. replace (start + 4 + (12 - 4 + len)) with (start + 12 + len) by lia.
    unfold prop_pad. pose proof (s32_range (start + 12 + len)).
    replace (u32 (s32 (start + 12 + len) - len)) with (start + 12).
    - destruct (_ && _ && _); [done|]. by rewrite Z.add_0_r, sint_small.
    - destruct (s32_wrap (start + 12 + len)) as [k ->]. unfold u32.
      replace (start + 12 + len + k * 4294967296 - len) with (start + 12 + k * 4294967296) by lia.
      rewrite Z.mod_add, Z.mod_small by ilia. done. }
  rewrite Hskip. unfold prop_wraps. rewrite rbind_assoc.
  destruct (sint _) as [off|]; [|done]. cbn [rbind].
  destruct (sint (off - start)) as [size|]; [|done]. cbn [rbind].
  rewrite (fdt_offset_ptr_eq _ _ _ _ _ Hh) by (try apply u32_range; done). cbn [rbind].
  by destruct (in_struct h start (u32 size)).
Qed.
End step.

(** What the tag of a step says of the bytes behind it. *)
Lemma tag_step_begin m fdt h o next :
  tag_step m fdt h o FDT_BEGIN_NODE next ->
  exists off, next = align_up off 4 /\ o + 4 < off /\ in_struct h o (off - o) = true /\
    m !! saddr fdt h (off - 1) = Some x00 /\
    forall x, o + 4 <= x < off - 1 -> m !! saddr fdt h x <> Some x00.
Proof.
  inversion 1; subst; [by eauto 10|].
  match goal with H : _ \/ _ |- _ => by destruct H as [H|[H|H]] end.
Qed.

Lemma tag_step_prop m fdt h o next :
  tag_step m fdt h o FDT_PROP next ->
  exists len off, next = align_up off 4 /\ ld32 m (saddr fdt h o) = Ret FDT_PROP /\
    ld32 m (saddr fdt h (o + 4)) = Ret len /\ in_struct h (o + 4) 4 = true /\
    in_struct h o (off - o) = true /\
    (len_ok m fdt h o -> off = o + 12 + len + prop_pad h o len).
Proof.
  inversion 1; subst; [by eauto 10|].
  match goal with H : _ \/ _ |- _ => by destruct H as [H|[H|H]] end.
Qed.
