(* ===== verification/FdtTree.v ===== *)
(** The contents of a structure block: tokens, trees, and how the tag walker
    and the node walker of fdt.c read them (format version 16 and later). *)
From S2P Require Import Prelude Monad Memory Libfdt Fdt FdtSpec.

(** ** Tokens *)

Inductive tok :=
| TBegin (name : list byte)
| TEnd
| TProp (nameoff : Z) (data : list byte)
| TNop.

(** The bytes of a token, without the padding to the next tag. *)
Definition tok_enc (t : tok) : list byte :=
  match t with
  | TBegin name => be_enc32 FDT_BEGIN_NODE ++ name ++ [x00]
  | TEnd => be_enc32 FDT_END_NODE
  | TProp nameoff data =>
    be_enc32 FDT_PROP ++ be_enc32 (zlen data) ++ be_enc32 nameoff ++ data
  | TNop => be_enc32 FDT_NOP
  end.

Definition tok_tag (t : tok) : Z :=
  match t with
  | TBegin _ => FDT_BEGIN_NODE
  | TEnd => FDT_END_NODE
  | TProp _ _ => FDT_PROP
  | TNop => FDT_NOP
  end.

(** The space of a token, padding included. *)
Definition tok_len (t : tok) : Z :=
  match t with
  | TBegin name => 4 + align_up (zlen name + 1) 4
  | TEnd => 4
  | TProp _ data => 12 + align_up (zlen data) 4
  | TNop => 4
  end.

Definition tok_ok (t : tok) : Prop :=
  match t with
  | TBegin name => no_nul name
  | TProp nameoff data => is_u32 nameoff
  | _ => True
  end.

Fixpoint toks_len (ts : list tok) : Z :=
  match ts with
  | [] => 0
  | t :: ts => tok_len t + toks_len ts
  end.

(** A token with zeros for padding. *)
Definition tok_bytes (t : tok) : list byte :=
  tok_enc t ++ replicate (Z.to_nat (tok_len t - zlen (tok_enc t))) x00.

(** The tokens [ts] are stored at [a]; the padding holds any bytes. *)
Fixpoint toks_at (m : mem) (a : Z) (ts : list tok) : Prop :=
  match ts with
  | [] => True
  | t :: ts => tok_ok t /\ bytes_at m a (tok_enc t) /\ toks_at m (a + tok_len t) ts
  end.

(** The structure block of the blob holds the tokens [ts] and the END tag. *)
Record struct_at (m : mem) (fdt : Z) (h : header) (ts : list tok) : Prop := StructAt {
  sa_blob : blob m fdt h;
  sa_version : 0x10 <= h_version h;
  sa_toks : toks_at m (saddr fdt h 0) ts;
  sa_end : bytes_at m (saddr fdt h (toks_len ts)) (be_enc32 FDT_END);
  sa_room : in_struct h 0 (toks_len ts + 4) = true;
}.

(** The offsets between tokens. *)
Definition boundary (ts : list tok) (o : Z) : Prop :=
  exists pre rest, ts = pre ++ rest /\ o = toks_len pre.

(** ** Trees *)

(** What a node holds, in the order of the block: properties and subnodes
    may be interleaved with NOPs, and with each other. *)
Unset Elimination Schemes.
Inductive item :=
| INop
| IProp (nameoff : Z) (data : list byte)
| INode (name : list byte) (items : list item).
Set Elimination Schemes.

Fixpoint flat (it : item) : list tok :=
  match it with
  | INop => [TNop]
  | IProp nameoff data => [TProp nameoff data]
  | INode name items => TBegin name :: flat_map flat items ++ [TEnd]
  end.

Definition flats (items : list item) : list tok := flat_map flat items.

Definition item_len (it : item) : Z := toks_len (flat it).

(** ** The node walk over tokens *)

(** Where [fdt_next_node] stops when it reads on at [o] and depth [d]. *)
Fixpoint scan (ts : list tok) (o d : Z) : Z * Z :=
  match ts with
  | [] => (- FDT_ERR_NOTFOUND, d)
  | TBegin _ :: _ => (o, d + 1)
  | TEnd :: ts => if d - 1 <? 0 then (o + 4, d - 1) else scan ts (o + 4) (d - 1)
  | t :: ts => scan ts (o + tok_len t) d
  end.

(** The same without a depth. *)
Fixpoint scan_any (ts : list tok) (o : Z) : Z :=
  match ts with
  | [] => - FDT_ERR_NOTFOUND
  | TBegin _ :: _ => o
  | t :: ts => scan_any ts (o + tok_len t)
  end.

(** ** Lengths *)

Lemma tok_len_ge t : 4 <= tok_len t.
Proof.
  destruct t as [name| |nameoff data|]; simpl; [|lia| |lia].
  - pose proof (align_up_4_bounds (zlen name + 1)). pose proof (zlen_nonneg name). lia.
  - pose proof (align_up_4_bounds (zlen data)). pose proof (zlen_nonneg data). lia.
Qed.

Lemma tok_len_mod t : tok_len t mod 4 = 0.
Proof.
  destruct t as [name| |nameoff data|]; simpl; [|done| |done].
  - rewrite Z.add_mod, (proj2 (align_up_4_bounds (zlen name + 1))) by lia. done.
  - rewrite Z.add_mod, (proj2 (align_up_4_bounds (zlen data))) by lia. done.
Qed.

Lemma toks_len_nonneg ts : 0 <= toks_len ts.
Proof. induction ts as [|t ts IH]; simpl; [lia|]. pose proof (tok_len_ge t). lia. Qed.

Lemma toks_len_app ts1 ts2 : toks_len (ts1 ++ ts2) = toks_len ts1 + toks_len ts2.
Proof. induction ts1 as [|t ts1 IH]; simpl; lia. Qed.

Lemma toks_len_mod ts : toks_len ts mod 4 = 0.
Proof.
  induction ts as [|t ts IH]; simpl; [done|].
  rewrite Z.add_mod, tok_len_mod, IH by lia. done.
Qed.

Lemma tok_enc_len t : zlen (tok_enc t) <= tok_len t.
Proof.
  destruct t as [name| |nameoff data|]; cbn [tok_enc tok_len]; rewrite ?zlen_app; [|done| |done].
  - pose proof (align_up_4_bounds (zlen name + 1)). unfold zlen in *. simpl. lia.
  - pose proof (align_up_4_bounds (zlen data)). unfold zlen in *. simpl. lia.
Qed.

(** ** Tokens in memory *)

Lemma toks_at_app m a ts1 ts2 :
  toks_at m a (ts1 ++ ts2) <-> toks_at m a ts1 /\ toks_at m (a + toks_len ts1) ts2.
Proof.
  revert a. induction ts1 as [|t ts1 IH]; intros a; simpl.
  - rewrite Z.add_0_r. tauto.
  - rewrite IH, Z.add_assoc. tauto.
Qed.

Lemma tok_bytes_len t : zlen (tok_bytes t) = tok_len t.
Proof.
  pose proof (tok_enc_len t). unfold tok_bytes. rewrite zlen_app. unfold zlen at 2. rewrite length_replicate. lia.
Qed.

Lemma toks_bytes_len ts : zlen (flat_map tok_bytes ts) = toks_len ts.
Proof. induction ts as [|t ts IH]; [done|]. cbn [flat_map toks_len]. by rewrite zlen_app, tok_bytes_len, IH. Qed.

Lemma toks_bytes_at m a ts : bytes_at m a (flat_map tok_bytes ts) -> Forall tok_ok ts -> toks_at m a ts.
Proof.
  revert a. induction ts as [|t ts IH]; intros a Hb Hok; [done|]. apply Forall_cons in Hok as [Ht Hok].
  cbn [flat_map toks_at] in *. apply bytes_at_appz in Hb as [Hb1 Hb2]. rewrite tok_bytes_len in Hb2.
  split; [done|]. split; [|by apply IH]. unfold tok_bytes in Hb1. by apply bytes_at_app in Hb1 as [Hb1 _].
Qed.

Lemma toks_at_ok m a ts t : toks_at m a ts -> t ∈ ts -> tok_ok t.
Proof.
  revert a. induction ts as [|t' ts IH]; intros a; [by intros _ ?%elem_of_nil|].
  intros (H1 & _ & H2) [->|Hin]%elem_of_cons; [done|by eapply IH].
Qed.

Lemma flats_cons it items : flats (it :: items) = flat it ++ flats items.
Proof. reflexivity. Qed.

Lemma flat_node_app name items post :
  flat (INode name items) ++ post = TBegin name :: flats items ++ TEnd :: post.
Proof. cbn [flat]. fold (flats items). cbn [app]. by rewrite <- app_assoc. Qed.

Lemma flats_app l1 l2 : flats (l1 ++ l2) = flats l1 ++ flats l2.
Proof. apply flat_map_app. Qed.

(** Induction over items and the items of their nodes. *)
Lemma item_ind' (Q : item -> Prop) :
  Q INop -> (forall n d, Q (IProp n d)) ->
  (forall name items, Forall Q items -> Q (INode name items)) ->
  forall it, Q it.
Proof.
  intros H1 H2 H3. fix IH 1. intros [|n d|name items]; [done|done|]. apply H3.
  induction items as [|it items IHl]; constructor; [apply IH|apply IHl].
Qed.

(** ** The tag walker on tokens *)

Lemma tok_ld m a t : bytes_at m a (tok_enc t) -> ld32 m a = Ret (tok_tag t).
Proof.
  intros H. destruct t; cbn [tok_enc tok_tag] in *;
    try (apply bytes_at_app in H as [H _]); by rewrite (ld32_at _ _ _ H).
Qed.

Lemma tok_begin_at m a name :
  bytes_at m a (tok_enc (TBegin name)) -> bytes_at m (a + 4) (name ++ [x00]).
Proof. cbn [tok_enc]. by intros [_ H]%bytes_at_app. Qed.

Lemma tok_prop_at m a nameoff data :
  bytes_at m a (tok_enc (TProp nameoff data)) ->
  ld32 m (a + 4) = Ret (u32 (zlen data)) /\ ld32 m (a + 8) = Ret (u32 nameoff) /\
  bytes_at m (a + 12) data.
Proof.
  cbn [tok_enc]. rewrite !bytes_at_app, !be_enc32_length. change (Z.of_nat 4) with 4.
  replace (a + 4 + 4 + 4) with (a + 12) by lia. replace (a + 4 + 4) with (a + 8) by lia.
  intros (_ & Hl & Hn & Hd).
  by rewrite (ld32_at _ _ _ Hl), (ld32_at _ _ _ Hn).
Qed.

(** The rounding of the variable part of a token. *)
Ltac tok_bounds :=
  repeat match goal with
  | d : list byte |- _ =>
    lazymatch goal with
    | _ : 0 <= zlen d |- _ => fail
    | _ => pose proof (zlen_nonneg d); pose proof (proj1 (align_up_4_bounds (zlen d)));
           pose proof (proj1 (align_up_4_bounds (zlen d + 1)))
    end
  end.

Lemma in_struct_sub h o n o' n' :
  in_struct h o n = true -> o <= o' -> 0 <= n' -> o' + n' <= o + n -> in_struct h o' n' = true.
Proof. rewrite !in_struct_true. intros (? & ? & ?) ? ? ?. split; [lia|]. split; [lia|]. lia. Qed.

Lemma saddr_add fdt h a b : saddr fdt h (a + b) = saddr fdt h a + b.
Proof. unfold saddr. lia. Qed.

(** The name in memory ends the scan where the token says. *)
Lemma begin_name_end m a name off :
  bytes_at m a (name ++ [x00]) -> no_nul name -> 0 <= off ->
  m !! (a + off) = Some x00 -> (forall x, 0 <= x < off -> m !! (a + x) <> Some x00) ->
  off = zlen name.
Proof.
  intros [Hn Hz]%bytes_at_app Hnn Hoff Ho Hbefore. apply bytes_at_cons in Hz as [Hz _].
  destruct (Z.lt_trichotomy off (zlen name)) as [Hlt|[?|Hgt]]; [|done|].
  - exfalso. unfold zlen in Hlt. destruct (lookup_lt_is_Some_2 name (Z.to_nat off)) as [b Hb]; [lia|].
    pose proof (Hn _ _ Hb) as Hm. rewrite Z2Nat.id in Hm by lia. apply Hnn.
    apply list_elem_of_lookup. exists (Z.to_nat off). congruence.
  - exfalso. apply (Hbefore (zlen name)); [pose proof (zlen_nonneg name); lia|exact Hz].
Qed.

Section tok_step.
Context (m : mem) (fdt : Z) (h : header) (Hb : blob m fdt h) (Hv : 0x10 <= h_version h).

Lemma tok_len_ok start t :
  bytes_at m (saddr fdt h start) (tok_enc t) -> tok_ok t -> in_struct h start (tok_len t + 4) = true ->
  0 <= start -> len_ok m fdt h start.
Proof using Hb.
  intros Hat Hok Hin Hs len _ Hin4 Htag Hlen. rewrite (tok_ld _ _ _ Hat) in Htag.
  injection Htag as Htag. destruct t as [| |nameoff data|]; try discriminate Htag.
  apply tok_prop_at in Hat as (Hl & _). rewrite saddr_add, Hl in Hlen. injection Hlen as <-.
  apply in_struct_true in Hin as (? & ? & _). cbn [tok_len] in *.
  pose proof (blob_room _ _ _ Hb). tok_bounds. rewrite u32_small by ilia. ilia.
Qed.

Lemma no_bad_tok start t :
  bytes_at m (saddr fdt h start) (tok_enc t) -> tok_ok t -> in_struct h start (tok_len t + 4) = true ->
  0 <= start -> ~ bad_tag m fdt h start.
Proof using Hb Hv.
  intros Hat Hok Hin Hs Hbad. pose proof (tok_len_ok _ _ Hat Hok Hin Hs) as HL.
  pose proof (tok_ld _ _ _ Hat) as Hld.
  pose proof Hin as (I1 & I2 & _)%in_struct_true. pose proof (blob_room _ _ _ Hb).
  destruct Hbad as [tag Ht Hni|Ht Hno|Ht Hni|len Ht Hl Hi Hni];
    rewrite Hld in Ht; injection Ht as Ht.
  - subst tag. apply Hni. destruct t; set_solver.
  - destruct t as [name| | |]; try discriminate Ht. cbn [tok_len] in *. tok_bounds.
    apply tok_begin_at in Hat as [_ Hz]%bytes_at_app. apply bytes_at_cons in Hz as [Hz _].
    apply (Hno (start + 4 + zlen name)); [lia|eapply in_struct_sub; [exact Hin|lia..]|].
    by rewrite !saddr_add.
  - destruct t as [| |nameoff data|]; try discriminate Ht. cbn [tok_len] in *. tok_bounds.
    rewrite (in_struct_sub _ _ _ (start + 4) 4 Hin) in Hni by lia. done.
  - destruct t as [| |nameoff data|]; try discriminate Ht. specialize (Hni HL).
    apply tok_prop_at in Hat as (Hl' & _). rewrite saddr_add, Hl' in Hl. injection Hl as <-.
    cbn [tok_len] in *. tok_bounds. rewrite u32_small in Hni by ilia. unfold prop_pad in Hni.
    destruct (Z.ltb_spec (h_version h) 16); [lia|]. cbn [andb] in Hni.
    rewrite (in_struct_sub _ _ _ start (12 + zlen data + 0) Hin) in Hni by lia. done.
Qed.

(** Only one step is possible where a token is stored. *)
Lemma tag_step_tok start t tag next :
  bytes_at m (saddr fdt h start) (tok_enc t) -> tok_ok t -> in_struct h start (tok_len t + 4) = true ->
  0 <= start -> start mod 4 = 0 ->
  tag_step m fdt h start tag next -> tag = tok_tag t /\ next = start + tok_len t.
Proof using Hb Hv.
  intros Hat Hok Hin Hs Hal Hst. pose proof (tok_len_ok _ _ Hat Hok Hin Hs) as HL.
  pose proof (tok_ld _ _ _ Hat) as Hld. pose proof (tok_len_ge t) as Hge.
  pose proof Hin as (I1 & I2 & _)%in_struct_true. pose proof (blob_room _ _ _ Hb).
  destruct Hst as [H0|H0 Hbad|off H1 H2 H3 H4 H5|len off H1 H2 H3 H4 H5 H6|tag H1 H2 H3].
  - exfalso. rewrite (in_struct_sub _ _ _ start 4 Hin) in H0 by lia. done.
  - exfalso. by eapply no_bad_tok.
  - rewrite Hld in H1. injection H1 as H1. destruct t as [name| | |]; try discriminate H1.
    split; [done|]. apply tok_begin_at in Hat. cbn [tok_len].
    assert (off - 1 - (start + 4) = zlen name) as Hoff.
    { apply (begin_name_end m _ _ _ Hat Hok); [lia| |].
      - rewrite <- !saddr_add. rewrite <- H4. f_equal. f_equal. lia.
      - intros x Hx. specialize (H5 (start + 4 + x) ltac:(lia)). by rewrite !saddr_add in H5. }
    replace off with (start + (4 + (zlen name + 1))) by lia.
    rewrite align_up_4_add by done. f_equal. by apply align_up_4_add.
  - rewrite Hld in H1. injection H1 as H1. destruct t as [| |nameoff data|]; try discriminate H1.
    split; [done|]. specialize (H6 HL). apply tok_prop_at in Hat as (Hl & _).
    rewrite saddr_add, Hl in H2. injection H2 as <-. cbn [tok_len] in *. tok_bounds.
    rewrite u32_small in H6 by ilia. unfold prop_pad in H6.
    destruct (Z.ltb_spec (h_version h) 16); [lia|]. cbn [andb] in H6. subst off.
    replace (start + 12 + zlen data + 0) with (start + (12 + zlen data)) by lia.
    rewrite align_up_4_add by done. f_equal. by apply align_up_4_add.
  - rewrite Hld in H1. injection H1 as <-. split; [done|].
    destruct t; (try by destruct H2 as [H2|[H2|H2]]); cbn [tok_len]; by apply align_up_4_add.
Qed.
End tok_step.

Lemma total_weak {A} (r : res A) E Q : wp total r Q -> wp E r Q.
Proof. by destruct r. Qed.

(** In a loop over tokens: this round consumed one. *)
Ltac one_tok := eexists [_], _; split; [done|]; split; [reflexivity|].

Section at_struct.
Context (m : mem) (fdt : Z) (h : header) (ts : list tok) (Hst : struct_at m fdt h ts).

Let Hb : blob m fdt h := sa_blob _ _ _ _ Hst.

Lemma struct_bound pre rest :
  ts = pre ++ rest -> 0 <= toks_len pre /\ toks_len pre + toks_len rest <= INT_MAX - 8.
Proof using Hst.
  intros ->. pose proof (sa_room _ _ _ _ Hst) as (H1 & H2 & _)%in_struct_true.
  rewrite toks_len_app in H2. pose proof (blob_room _ _ _ Hb). pose proof (toks_len_nonneg pre). lia.
Qed.

Lemma struct_tok pre t post :
  ts = pre ++ t :: post ->
  tok_ok t /\ bytes_at m (saddr fdt h (toks_len pre)) (tok_enc t) /\
  in_struct h (toks_len pre) (tok_len t + 4) = true.
Proof using Hst.
  intros ->. pose proof (sa_toks _ _ _ _ Hst) as Ht. apply toks_at_app in Ht as [_ (H1 & H2 & _)].
  rewrite <- saddr_add in H2. split; [done|]. split; [done|].
  pose proof (toks_len_nonneg pre). pose proof (toks_len_nonneg post). pose proof (tok_len_ge t).
  eapply in_struct_sub; [apply (sa_room _ _ _ _ Hst)|lia|lia|]. rewrite toks_len_app. simpl. lia.
Qed.

Lemma fdt_next_tag_at pre t post :
  ts = pre ++ t :: post ->
  fdt_next_tag m fdt (toks_len pre) = Ret (tok_tag t, toks_len pre + tok_len t).
Proof using Hst.
  intros E. destruct (struct_tok _ _ _ E) as (Hok & Hat & Hin).
  pose proof (struct_bound _ _ E) as [H0 H1]. pose proof (toks_len_nonneg (t :: post)).
  apply wp_total_eq. eapply wp_mono.
  - apply (fdt_next_tag_wp _ _ _ Hb); [ilia|]. right. by eapply tok_len_ok.
  - intros [tag next] Hs.
    destruct (tag_step_tok _ _ _ Hb (sa_version _ _ _ _ Hst) _ _ _ _ Hat Hok Hin H0 (toks_len_mod pre) Hs).
    congruence.
Qed.

Lemma struct_end_ld : ld32 m (saddr fdt h (toks_len ts)) = Ret FDT_END.
Proof using Hst. apply (ld32_at _ _ _ (sa_end _ _ _ _ Hst)). Qed.

(** The only step at the end of the tokens. *)
Lemma tag_step_end tag next :
  tag_step m fdt h (toks_len ts) tag next -> tag = FDT_END /\ next = toks_len ts + 4.
Proof using Hst.
  pose proof struct_end_ld as Hld. intros Hs.
  assert (Hin : in_struct h (toks_len ts) 4 = true).
  { pose proof (toks_len_nonneg ts). eapply in_struct_sub; [apply (sa_room _ _ _ _ Hst)|lia..]. }
  destruct Hs as [Hs|Hs Hbad|off Hs|len off Hs|tag Hs Ht _].
  - congruence.
  - exfalso. destruct Hbad as [tag Ht Hni|Ht|Ht|len Ht]; rewrite Hld in Ht; try discriminate Ht.
    injection Ht as <-. apply Hni. set_solver.
  - rewrite Hld in Hs. discriminate Hs.
  - rewrite Hld in Hs. discriminate Hs.
  - rewrite Hld in Hs. injection Hs as <-. split; [done|]. rewrite align_up_4_id; [done|].
    rewrite Z.add_mod, toks_len_mod by lia. done.
Qed.

Lemma end_len_ok : len_ok m fdt h (toks_len ts).
Proof using Hst. intros len _ _ Ht. rewrite struct_end_ld in Ht. discriminate Ht. Qed.

Lemma fdt_next_tag_end : fdt_next_tag m fdt (toks_len ts) = Ret (FDT_END, toks_len ts + 4).
Proof using Hst.
  pose proof (struct_bound ts [] (eq_sym (app_nil_r ts))) as [H0 H1]. simpl in H1.
  apply wp_total_eq. eapply wp_mono.
  - apply (fdt_next_tag_wp _ _ _ Hb); [ilia|]. right. apply end_len_ok.
  - intros [tag next] [-> ->]%tag_step_end. done.
Qed.

(** The token boundaries are closed under the steps of the walker, and the
    lengths at them are sane. *)
Lemma boundary_closed : tag_closed m fdt h (boundary ts).
Proof using Hst.
  intros o tag next (pre & rest & E & ->) Hs Hne. destruct rest as [|t rest].
  - rewrite app_nil_r in E. subst pre. by destruct (tag_step_end _ _ Hs).
  - destruct (struct_tok _ _ _ E) as (Hok & Hat & Hin). pose proof (struct_bound _ _ E) as [H0 _].
    destruct (tag_step_tok _ _ _ Hb (sa_version _ _ _ _ Hst) _ _ _ _ Hat Hok Hin H0 (toks_len_mod pre) Hs)
      as [_ ->].
    exists (pre ++ [t]), rest. rewrite <- app_assoc, toks_len_app. simpl. split; [done|lia].
Qed.

Lemma boundary_len_ok o : boundary ts o -> len_ok m fdt h o.
Proof using Hst.
  intros (pre & rest & E & ->). destruct rest as [|t rest].
  - rewrite app_nil_r in E. rewrite <- E. apply end_len_ok.
  - destruct (struct_tok _ _ _ E) as (Hok & Hat & Hin). pose proof (struct_bound _ _ E) as [H0 _].
    by eapply tok_len_ok.
Qed.

Lemma check_node_at pre name post :
  ts = pre ++ TBegin name :: post ->
  fdt_check_node_offset_ m fdt (toks_len pre) = Ret (toks_len pre + tok_len (TBegin name)).
Proof using Hst.
  intros E. pose proof (struct_bound _ _ E) as [H0 _]. unfold fdt_check_node_offset_. noassume.
  destruct (Z.ltb_spec (toks_len pre) 0); [lia|].
  unfold FDT_TAGSIZE. rewrite toks_len_mod. cbn [orb negb Z.eqb].
  by rewrite (fdt_next_tag_at _ _ _ E).
Qed.

Lemma check_prop_at pre nameoff data post :
  ts = pre ++ TProp nameoff data :: post ->
  fdt_check_prop_offset_ m fdt (toks_len pre) = Ret (toks_len pre + tok_len (TProp nameoff data)).
Proof using Hst.
  intros E. pose proof (struct_bound _ _ E) as [H0 _]. unfold fdt_check_prop_offset_. noassume.
  destruct (Z.ltb_spec (toks_len pre) 0); [lia|].
  unfold FDT_TAGSIZE. rewrite toks_len_mod. cbn [orb negb Z.eqb].
  by rewrite (fdt_next_tag_at _ _ _ E).
Qed.

(** A loop over the tokens from [pre] on: [I] holds of each state with the
    tokens left, and each round consumes at least one. *)
Lemma toks_loop_wp {S A} (I : list tok -> list tok -> S -> Prop) (body : S -> res (ctl S A))
    pre rest s (Q : A -> Prop) :
  ts = pre ++ rest -> I pre rest s ->
  (forall pre rest s, ts = pre ++ rest -> I pre rest s ->
    wp total (body s) (fun r =>
      match r with
      | Continue s' => exists mid rest', mid <> [] /\ rest = mid ++ rest' /\ I (pre ++ mid) rest' s'
      | Break a => Q a
      end)) ->
  wp total (loop body s) Q.
Proof using Hst.
  intros E Hi Hbody.
  assert (Hn : Z.of_nat (length ts) < Z.pos loop_bound).
  { pose proof (struct_bound [] ts eq_refl) as [_ Hr]. cbn in Hr.
    assert (Z.of_nat (length ts) <= toks_len ts).
    { clear. induction ts as [|t ts' IH]; simpl; [lia|]. pose proof (tok_len_ge t). lia. }
    unfold loop_bound. ilia. }
  apply (wp_loop_rel total (fun s n => exists pre rest, ts = pre ++ rest /\ I pre rest s /\ n = zlen rest)
           _ _ (zlen rest)); [by exists pre, rest| |].
  - intros s' n (pre' & rest' & E' & _ & ->). rewrite E', length_app in Hn. unfold zlen. lia.
  - intros s' n (pre' & rest' & E' & Hi' & ->). eapply wp_mono; [by eapply Hbody|].
    intros [s2|a]; [|done]. intros (mid & rest2 & Hm & -> & H2). exists (zlen rest2).
    split; [exists (pre' ++ mid), rest2; by rewrite <- app_assoc|].
    rewrite zlen_app. destruct mid; [done|]. unfold zlen. simpl. lia.
Qed.

Lemma toks_len_snoc pre t : toks_len (pre ++ [t]) = toks_len pre + tok_len t.
Proof using. rewrite toks_len_app. simpl. lia. Qed.

(** The node walk from a token boundary is [scan]. *)
Lemma node_walk_at pre rest d :
  ts = pre ++ rest -> INT_MIN < d < INT_MAX ->
  loop (fdt_next_node_body m fdt) (toks_len pre, Some d) =
    Ret ((scan rest (toks_len pre) d).1, Some (scan rest (toks_len pre) d).2).
Proof using Hst.
  intros E Hd. apply wp_total_eq.
  apply (toks_loop_wp (fun pre' rest' s => exists d', s = (toks_len pre', Some d') /\
           INT_MIN < d' < INT_MAX /\ scan rest' (toks_len pre') d' = scan rest (toks_len pre) d)
           _ pre rest); [done|by exists d|].
  clear E Hd. intros pre' rest' s E (d' & -> & Hd' & <-).
  unfold fdt_next_node_body. destruct rest' as [|t rest'].
  - rewrite app_nil_r in E. rewrite <- E, fdt_next_tag_end. cbn [rbind].
    pose proof (toks_len_nonneg ts). cbn. destruct (Z.leb_spec 0 (toks_len ts + 4)); [done|lia].
  - rewrite (fdt_next_tag_at _ _ _ E). cbn [rbind].
    destruct t as [name| |nameoff data|]; cbn [tok_tag scan].
    + cbn. by rewrite sint_small by ilia.
    + cbn [Z.eqb Pos.eqb orb FDT_END_NODE FDT_PROP FDT_NOP FDT_BEGIN_NODE]. rewrite sint_small by ilia.
      cbn [rbind tok_len]. destruct (Z.ltb_spec (d' - 1) 0); cbn [wp fst snd]; [done|].
      one_tok. exists (d' - 1). rewrite toks_len_snoc. split; [done|]. split; [ilia|done].
    + cbn. one_tok. exists d'. by rewrite toks_len_snoc.
    + cbn. one_tok. exists d'. by rewrite toks_len_snoc.
Qed.

Lemma node_walk_none_at pre rest :
  ts = pre ++ rest ->
  loop (fdt_next_node_body m fdt) (toks_len pre, None) = Ret (scan_any rest (toks_len pre), None).
Proof using Hst.
  intros E. apply wp_total_eq.
  apply (toks_loop_wp (fun pre' rest' s => s = (toks_len pre', None) /\
           scan_any rest' (toks_len pre') = scan_any rest (toks_len pre)) _ pre rest); [done..|].
  clear E. intros pre' rest' s E (-> & <-).
  unfold fdt_next_node_body. destruct rest' as [|t rest'].
  - rewrite app_nil_r in E. rewrite <- E, fdt_next_tag_end. cbn [rbind].
    pose proof (toks_len_nonneg ts). cbn. destruct (Z.leb_spec 0 (toks_len ts + 4)); [done|lia].
  - rewrite (fdt_next_tag_at _ _ _ E). cbn [rbind].
    destruct t as [name| |nameoff data|]; cbn; [done|..]; one_tok; by rewrite toks_len_snoc.
Qed.

(** [fdt_next_node] from a node: on from the end of its name. *)
Lemma fdt_next_node_at pre name rest d :
  ts = pre ++ TBegin name :: rest -> INT_MIN < d < INT_MAX ->
  fdt_next_node m fdt (toks_len pre) (Some d) =
    let o := toks_len pre + tok_len (TBegin name) in
    Ret ((scan rest o d).1, Some (scan rest o d).2).
Proof using Hst.
  intros E Hd. pose proof (struct_bound _ _ E) as [H0 _]. unfold fdt_next_node.
  destruct (Z.leb_spec 0 (toks_len pre)); [|lia]. rewrite (check_node_at _ _ _ E). cbn [rbind].
  pose proof (tok_len_ge (TBegin name)).
  destruct (Z.ltb_spec (toks_len pre + tok_len (TBegin name)) 0); [lia|].
  rewrite <- toks_len_snoc. apply node_walk_at; [|done]. by rewrite <- app_assoc.
Qed.

Lemma fdt_next_node_none_at pre name rest :
  ts = pre ++ TBegin name :: rest ->
  fdt_next_node m fdt (toks_len pre) None =
    Ret (scan_any rest (toks_len pre + tok_len (TBegin name)), None).
Proof using Hst.
  intros E. pose proof (struct_bound _ _ E) as [H0 _]. unfold fdt_next_node.
  destruct (Z.leb_spec 0 (toks_len pre)); [|lia]. rewrite (check_node_at _ _ _ E). cbn [rbind].
  pose proof (tok_len_ge (TBegin name)).
  destruct (Z.ltb_spec (toks_len pre + tok_len (TBegin name)) 0); [lia|].
  rewrite <- toks_len_snoc. apply node_walk_none_at. by rewrite <- app_assoc.
Qed.

(** A negative offset starts at the beginning of the block. *)
Lemma fdt_next_node_start o :
  o < 0 -> fdt_next_node m fdt o None = Ret (scan_any ts 0, None).
Proof using Hst.
  intros Ho. unfold fdt_next_node. destruct (Z.leb_spec 0 o); [lia|]. cbn [rbind Z.ltb Z.compare].
  by apply (node_walk_none_at [] ts).
Qed.
End at_struct.
