(* ===== verification/FdtRo.v ===== *)
(** libfdt/fdt_ro.c: strings, names, properties, paths, phandles, supernodes
    and string lists. A [const char *name] argument is the list of its
    characters; functions taking [name, namelen] receive exactly the
    [namelen] characters. *)
From S2P Require Import Prelude Monad Memory Libfdt Fdt.

(** The depth of recursion the model allows (the C stack is finite too). *)
Definition call_depth : nat := 1000.

(** ** Strings *)

(** Returns the pointer and [*lenp]. *)
Definition fdt_get_string (m : mem) (fdt stroffset : Z) : res (option Z * Z) :=
  if can_assume ASSUME_VALID_INPUT then
    let! off := fdt_off_dt_strings m fdt in
    let s := fdt + off + stroffset in
    let! len := strlen m s in
    Ret (Some s, s32 len)
  else
  let! totalsize := fdt_ro_probe_ m fdt in
  let err := totalsize in
  if totalsize <? 0 then Ret (None, err) else
  let err := - FDT_ERR_BADOFFSET in
  let! off_strings := fdt_off_dt_strings m fdt in
  let absoffset := u32 (stroffset + off_strings) in
  if u32 totalsize <=? absoffset then Ret (None, err) else
  let len := u32 (totalsize - absoffset) in
  let! magic := fdt_magic m fdt in
  (* inl: fail with that error; inr: the bounded length *)
  let! r :=
    if magic =? FDT_MAGIC then
      if stroffset <? 0 then Ret (inl err) else
      let! version := fdt_version m fdt in
      if can_assume ASSUME_LATEST || (17 <=? version) then
        let! size := fdt_size_dt_strings m fdt in
        if size <=? u32 stroffset then Ret (inl err) else
        if u32 (size - stroffset) <? len then Ret (inr (u32 (size - stroffset)))
        else Ret (inr len)
      else Ret (inr len)
    else if magic =? FDT_SW_MAGIC then
      let! neg := sint (- stroffset) in
      let sw_stroffset := u32 neg in
      let! size := fdt_size_dt_strings m fdt in
      if (0 <=? stroffset) || (size <? sw_stroffset) then Ret (inl err) else
      if sw_stroffset <? len then Ret (inr sw_stroffset) else Ret (inr len)
    else Ret (inl (- FDT_ERR_INTERNAL)) in
  match r with
  | inl err => Ret (None, err)
  | inr len =>
    let s := fdt + absoffset in
    let! n := memchr m s x00 len in
    match n with
    | None => Ret (None, - FDT_ERR_TRUNCATED) (* missing terminating NULL *)
    | Some n => Ret (Some s, s32 (n - s))
    end
  end.

Definition fdt_string (m : mem) (fdt stroffset : Z) : res (option Z) :=
  let! '(s, _) := fdt_get_string m fdt stroffset in
  Ret s.

Definition fdt_string_eq_ (m : mem) (fdt stroffset : Z) (s : list byte) : res bool :=
  let! '(p, slen) := fdt_get_string m fdt stroffset in
  match p with
  | None => Ret false
  | Some p => Ret (slen =? Z.of_nat (length s)) &&! memcmp_eq m p s
  end.

(** ** Memory reservations *)

Definition fdt_mem_rsv (m : mem) (fdt n : Z) : res (option Z) :=
  let offset := u32 (n * sizeof_fdt_reserve_entry) in
  let! off_rsv := fdt_off_mem_rsvmap m fdt in
  let absoffset := u32 (off_rsv + offset) in
  let! bad := Ret (negb (can_assume ASSUME_VALID_INPUT)) &&!
    (Ret (absoffset <? off_rsv) ||!
     (let! totalsize := fdt_totalsize m fdt in
      Ret (u64 (totalsize - sizeof_fdt_reserve_entry) <? absoffset))) in
  if bad then Ret None else
  let! re := fdt_mem_rsv_ m fdt n in
  Ret (Some re).

(** Returns the error code, the address and the size. *)
Definition fdt_get_mem_rsv (m : mem) (fdt n : Z) : res (Z * Z * Z) :=
  let! e := fdt_ro_probe_ m fdt in
  if e <? 0 then Ret (e, 0, 0) else
  let! re := fdt_mem_rsv m fdt n in
  if negb (can_assume ASSUME_VALID_INPUT) && is_null re then Ret (- FDT_ERR_BADOFFSET, 0, 0) else
  let! re := nonnull re in
  let! address := fdt64_ld_ m (re_address re) in
  let! size := fdt64_ld_ m (re_size re) in
  Ret (0, address, size).

Definition fdt_num_mem_rsv (m : mem) (fdt : Z) : res Z :=
  loop (fun i =>
    let! re := fdt_mem_rsv m fdt i in
    match re with
    | None => Ret (Break (- FDT_ERR_TRUNCATED))
    | Some re =>
      let! size := fdt64_ld_ m (re_size re) in
      if size =? 0 then Ret (Break i) else
      let! i := sint (i + 1) in
      Ret (Continue i)
    end) 0.

(** ** Names *)

(** Returns the pointer and [*len]. *)
Definition fdt_get_name (m : mem) (fdt nodeoffset : Z) : res (option Z * Z) :=
  let! nh := fdt_offset_ptr_ m fdt nodeoffset in
  let! err := fdt_ro_probe_ m fdt in
  if err <? 0 then Ret (None, err) else
  let! err := fdt_check_node_offset_ m fdt nodeoffset in
  if err <? 0 then Ret (None, err) else
  let nameptr := nh_name nh in
  let! version := fdt_version m fdt in
  if negb (can_assume ASSUME_LATEST) && (version <? 0x10) then
    (* For old FDT versions, match the naming conventions of V16: give only
       the leaf name (after all /). *)
    let! leaf := strrchr m nameptr "/"%byte in
    match leaf with
    | None => Ret (None, - FDT_ERR_BADSTRUCTURE)
    | Some leaf =>
      let nameptr := leaf + 1 in
      let! len := strlen m nameptr in
      Ret (Some nameptr, s32 len)
    end
  else
    let! len := strlen m nameptr in
    Ret (Some nameptr, s32 len).

(** [s] holds the [len] characters compared. *)
Definition fdt_nodename_eq_ (m : mem) (fdt offset : Z) (s : list byte) : res bool :=
  let len := Z.of_nat (length s) in
  let! '(p, olen) := fdt_get_name m fdt offset in
  match p with
  | None => Ret false
  | Some p =>
    if olen <? len then Ret false (* short match *) else
    let! eq := memcmp_eq m p s in
    if negb eq then Ret false else
    let! c := ld8 m (p + len) in
    if bool_decide (c = x00) then Ret true
    else if negb (bool_decide ("@"%byte ∈ s)) && bool_decide (c = "@"%byte) then Ret true
    else Ret false
  end.

Definition fdt_subnode_offset_namelen (m : mem) (fdt offset : Z) (name : list byte) : res Z :=
  let! e := fdt_ro_probe_ m fdt in
  if e <? 0 then Ret e else
  loop (fun '(offset, depth) =>
    if (0 <=? offset) && (0 <=? depth) then
      let! eq := Ret (depth =? 1) &&! fdt_nodename_eq_ m fdt offset name in
      if eq then Ret (Break offset) else
      let! '(offset, d) := fdt_next_node m fdt offset (Some depth) in
      Ret (Continue (offset, default depth d))
    else if depth <? 0 then Ret (Break (- FDT_ERR_NOTFOUND))
    else Ret (Break offset) (* error *)) (offset, 0).

Definition fdt_subnode_offset (m : mem) (fdt parentoffset : Z) (name : list byte) : res Z :=
  fdt_subnode_offset_namelen m fdt parentoffset name.

(** ** Properties *)

Definition nextprop_ (m : mem) (fdt offset : Z) : res Z :=
  loop (fun offset =>
    let! '(tag, nextoffset) := fdt_next_tag m fdt offset in
    if tag =? FDT_END then
      if 0 <=? nextoffset then Ret (Break (- FDT_ERR_BADSTRUCTURE)) else Ret (Break nextoffset)
    else if tag =? FDT_PROP then Ret (Break offset)
    else if tag =? FDT_NOP then Ret (Continue nextoffset)
    else Ret (Break (- FDT_ERR_NOTFOUND))) offset.

Definition fdt_first_property_offset (m : mem) (fdt nodeoffset : Z) : res Z :=
  let! offset := fdt_check_node_offset_ m fdt nodeoffset in
  if offset <? 0 then Ret offset else nextprop_ m fdt offset.

Definition fdt_next_property_offset (m : mem) (fdt offset : Z) : res Z :=
  let! offset := fdt_check_prop_offset_ m fdt offset in
  if offset <? 0 then Ret offset else nextprop_ m fdt offset.

(** Returns the property and [*lenp]. *)
Definition fdt_get_property_by_offset_ (m : mem) (fdt offset : Z) : res (option Z * Z) :=
  let! err := if negb (can_assume ASSUME_VALID_INPUT)
              then fdt_check_prop_offset_ m fdt offset else Ret 0 in
  if err <? 0 then Ret (None, err) else
  let! prop := fdt_offset_ptr_ m fdt offset in
  let! len := fdt32_ld_ m (prop_len prop) in
  Ret (Some prop, s32 len).

Definition fdt_get_property_by_offset (m : mem) (fdt offset : Z) : res (option Z * Z) :=
  (* Prior to version 16, properties may need realignment and this API does
     not work. fdt_getprop_*() will, however. *)
  let! version := fdt_version m fdt in
  if negb (can_assume ASSUME_LATEST) && (version <? 0x10)
  then Ret (None, - FDT_ERR_BADVERSION)
  else fdt_get_property_by_offset_ m fdt offset.

(** Returns the property, [*lenp] and, when a property is found, [*poffset]. *)
Definition fdt_get_property_namelen_ (m : mem) (fdt offset : Z) (name : list byte)
    : res (option Z * Z * Z) :=
  let! offset := fdt_first_property_offset m fdt offset in
  loop (fun offset =>
    if 0 <=? offset then
      let! '(prop, len) := fdt_get_property_by_offset_ m fdt offset in
      if negb (can_assume ASSUME_LIBFDT_FLAWLESS) && is_null prop
      then Ret (Break (None, - FDT_ERR_INTERNAL, 0)) else
      let! prop := nonnull prop in
      let! nameoff := fdt32_ld_ m (prop_nameoff prop) in
      let! eq := fdt_string_eq_ m fdt (s32 nameoff) name in
      if eq then Ret (Break (Some prop, len, offset)) else
      let! offset := fdt_next_property_offset m fdt offset in
      Ret (Continue offset)
    else Ret (Break (None, offset, 0))) offset.

Definition fdt_get_property_namelen (m : mem) (fdt offset : Z) (name : list byte)
    : res (option Z * Z) :=
  (* Prior to version 16, properties may need realignment and this API does
     not work. fdt_getprop_*() will, however. *)
  let! version := fdt_version m fdt in
  if negb (can_assume ASSUME_LATEST) && (version <? 0x10)
  then Ret (None, - FDT_ERR_BADVERSION) else
  let! '(prop, len, _) := fdt_get_property_namelen_ m fdt offset name in
  Ret (prop, len).

Definition fdt_get_property (m : mem) (fdt nodeoffset : Z) (name : list byte) : res (option Z * Z) :=
  fdt_get_property_namelen m fdt nodeoffset name.

Definition fdt_get_property_w := fdt_get_property.

(** Returns the value pointer and [*lenp]. *)
Definition fdt_getprop_namelen (m : mem) (fdt nodeoffset : Z) (name : list byte)
    : res (option Z * Z) :=
  let! '(prop, len, poffset) := fdt_get_property_namelen_ m fdt nodeoffset name in
  match prop with
  | None => Ret (None, len)
  | Some prop =>
    (* Handle realignment *)
    let! version := fdt_version m fdt in
    let! realign :=
      Ret (negb (can_assume ASSUME_LATEST) && (version <? 0x10) &&
           negb (u64 (poffset + sizeof_fdt_property) mod 8 =? 0)) &&!
      (let! plen := fdt32_ld_ m (prop_len prop) in Ret (8 <=? plen)) in
    if realign then Ret (Some (prop_data prop + 4), len)
    else Ret (Some (prop_data prop), len)
  end.

Definition fdt_getprop_namelen_w := fdt_getprop_namelen.

(** Returns the value pointer, [*namep] and [*lenp]; [namep] tells whether
    the caller passed a non-NULL [namep]. *)
Definition fdt_getprop_by_offset (m : mem) (fdt offset : Z) (namep : bool)
    : res (option Z * option Z * Z) :=
  let! '(prop, len) := fdt_get_property_by_offset_ m fdt offset in
  match prop with
  | None => Ret (None, None, len)
  | Some prop =>
    (* inl: the string lookup failed with that error *)
    let! name :=
      if namep then
        let! nameoff := fdt32_ld_ m (prop_nameoff prop) in
        if negb (can_assume ASSUME_VALID_INPUT) then
          let! '(name, namelen) := fdt_get_string m fdt (s32 nameoff) in
          if is_null name then Ret (inl namelen) else Ret (inr name)
        else
          let! name := fdt_string m fdt (s32 nameoff) in Ret (inr name)
      else Ret (inr None) in
    match name with
    | inl namelen => Ret (None, None, namelen)
    | inr name =>
      (* Handle realignment *)
      let! version := fdt_version m fdt in
      let! realign :=
        Ret (negb (can_assume ASSUME_LATEST) && (version <? 0x10) &&
             negb (u64 (offset + sizeof_fdt_property) mod 8 =? 0)) &&!
        (let! plen := fdt32_ld_ m (prop_len prop) in Ret (8 <=? plen)) in
      if realign then Ret (Some (prop_data prop + 4), name, len)
      else Ret (Some (prop_data prop), name, len)
    end
  end.

Definition fdt_getprop (m : mem) (fdt nodeoffset : Z) (name : list byte) : res (option Z * Z) :=
  fdt_getprop_namelen m fdt nodeoffset name.

Definition fdt_get_phandle (m : mem) (fdt nodeoffset : Z) : res Z :=
  let! '(php, len) := fdt_getprop m fdt nodeoffset (str "phandle") in
  if is_null php || negb (len =? 4) then
    let! '(php, len) := fdt_getprop m fdt nodeoffset (str "linux,phandle") in
    if is_null php || negb (len =? 4) then Ret 0 else
    let! php := nonnull php in
    fdt32_ld_ m php
  else
    let! php := nonnull php in
    fdt32_ld_ m php.

(** ** Phandles *)

(** Returns the error code and [*phandle]. *)
Definition fdt_find_max_phandle (m : mem) (fdt : Z) : res (Z * Z) :=
  loop (fun '(offset, max) =>
    let! '(offset, _) := fdt_next_node m fdt offset None in
    if offset <? 0 then
      if offset =? - FDT_ERR_NOTFOUND then Ret (Break (0, max)) else Ret (Break (offset, 0))
    else
      let! value := fdt_get_phandle m fdt offset in
      Ret (Continue (offset, if max <? value then value else max))) (-1, 0).

Definition fdt_get_max_phandle (m : mem) (fdt : Z) : res Z :=
  let! '(err, phandle) := fdt_find_max_phandle m fdt in
  if err <? 0 then Ret (u32 (-1)) else Ret phandle.

Definition fdt_generate_phandle (m : mem) (fdt : Z) : res (Z * Z) :=
  let! '(err, max) := fdt_find_max_phandle m fdt in
  if err <? 0 then Ret (err, 0) else
  if max =? FDT_MAX_PHANDLE then Ret (- FDT_ERR_NOPHANDLES, 0) else
  Ret (0, u32 (max + 1)).

(** ** Paths *)

(** [fdt_get_alias_namelen], given the recursive [fdt_path_offset]. *)
Definition fdt_get_alias_namelen_ (path_offset : list byte -> res Z)
    (m : mem) (fdt : Z) (name : list byte) : res (option Z) :=
  let! aliasoffset := path_offset (str "/aliases") in
  if aliasoffset <? 0 then Ret None else
  let! '(p, _) := fdt_getprop_namelen m fdt aliasoffset name in
  Ret p.

(** [while ( *p == '/') p++] over the characters left. *)
Fixpoint drop_slashes (p : list byte) : list byte :=
  match p with
  | c :: q => if bool_decide (c = "/"%byte) then drop_slashes q else p
  | [] => []
  end.

(** The characters up to [memchr(p, '/', end - p)] (or [end]), and the rest. *)
Fixpoint break_slash (p : list byte) : list byte * list byte :=
  match p with
  | c :: q =>
    if bool_decide (c = "/"%byte) then ([], p)
    else let '(a, r) := break_slash q in (c :: a, r)
  | [] => ([], [])
  end.

(** The [while (p < end)] loop of [fdt_path_offset_namelen]; [p] is the part
    of the path left to read. *)
Definition fdt_path_walk (m : mem) (fdt offset : Z) (p : list byte) : res Z :=
  loop (fun '(offset, p) =>
    match p with
    | [] => Ret (Break offset)
    | _ :: _ =>
      match drop_slashes p with
      | [] => Ret (Break offset)
      | p =>
        let '(comp, q) := break_slash p in
        let! offset := fdt_subnode_offset_namelen m fdt offset comp in
        if offset <? 0 then Ret (Break offset) else Ret (Continue (offset, q))
      end
    end) (offset, p).

(** [path] is the object the pointer leads to, [namelen] the characters to
    consider. The recursion goes through the aliases. *)
Fixpoint fdt_path_offset_namelen (depth : nat) (m : mem) (fdt : Z) (path : list byte) (namelen : Z)
    : res Z :=
  match depth with
  | O => Fault Div
  | S depth =>
    let path_offset s := fdt_path_offset_namelen depth m fdt (s ++ [x00]) (Z.of_nat (length s)) in
    let! e := fdt_ro_probe_ m fdt in
    if e <? 0 then Ret e else
    let chars := take (Z.to_nat namelen) path in
    (* see if we have an alias *)
    let! c := nonnull (path !! 0%nat) in
    if negb (bool_decide (c = "/"%byte)) then
      let '(alias, q) := break_slash chars in
      let! p := fdt_get_alias_namelen_ path_offset m fdt alias in
      match p with
      | None => Ret (- FDT_ERR_BADPATH)
      | Some p =>
        let! s := load_str m p in
        let! offset := path_offset s in
        fdt_path_walk m fdt offset q
      end
    else fdt_path_walk m fdt 0 chars
  end.

Definition fdt_path_offset_depth (depth : nat) (m : mem) (fdt : Z) (path : list byte) : res Z :=
  fdt_path_offset_namelen depth m fdt (path ++ [x00]) (Z.of_nat (length path)).

Definition fdt_path_offset (m : mem) (fdt : Z) (path : list byte) : res Z :=
  fdt_path_offset_depth call_depth m fdt path.

Definition fdt_get_alias_namelen (m : mem) (fdt : Z) (name : list byte) : res (option Z) :=
  fdt_get_alias_namelen_ (fdt_path_offset m fdt) m fdt name.

Definition fdt_get_alias (m : mem) (fdt : Z) (name : list byte) : res (option Z) :=
  fdt_get_alias_namelen m fdt name.

(** The [do { p--; } while (buf[p-1] != '/')] loop of [fdt_get_path]. *)
Definition fdt_path_pop (m : mem) (buf p : Z) : res Z :=
  loop (fun p =>
    let p := p - 1 in
    let! c := ld8 m (buf + (p - 1)) in
    if bool_decide (c = "/"%byte) then Ret (Break p) else Ret (Continue p)) p.

(** The [while (pdepth > depth)] loop of [fdt_get_path]: [p] and [pdepth]. *)
Definition fdt_path_up (m : mem) (buf depth : Z) (st : Z * Z) : res (Z * Z) :=
  loop (fun '(p, pdepth) =>
    if depth <? pdepth then
      let! p := fdt_path_pop m buf p in
      Ret (Continue (p, pdepth - 1))
    else Ret (Break (p, pdepth))) st.

Definition fdt_get_path (m : mem) (fdt nodeoffset buf buflen : Z) : res (Z * mem) :=
  let! e := fdt_ro_probe_ m fdt in
  if e <? 0 then Ret (e, m) else
  if buflen <? 2 then Ret (- FDT_ERR_NOSPACE, m) else
  loop (fun '(m, offset, depth, p, pdepth) =>
    if (0 <=? offset) && (offset <=? nodeoffset) then
      let! '(p, pdepth) := fdt_path_up m buf depth (p, pdepth) in
      (* inl: return that code *)
      let! step :=
        if depth <=? pdepth then
          let! '(name, namelen) := fdt_get_name m fdt offset in
          match name with
          | None => Ret (inl namelen)
          | Some name =>
            let! need := sint (p + namelen + 1) in
            if need <=? buflen then
              let! m := memcpy m (buf + p) name namelen in
              let p := p + namelen in
              let! m := store_bytes m (buf + p) ["/"%byte] in
              Ret (inr (m, p + 1, pdepth + 1))
            else Ret (inr (m, p, pdepth))
          end
        else Ret (inr (m, p, pdepth)) in
      match step with
      | inl err => Ret (Break (err, m))
      | inr (m, p, pdepth) =>
        if offset =? nodeoffset then
          if pdepth <? depth + 1 then Ret (Break (- FDT_ERR_NOSPACE, m)) else
          (* special case so that root path is "/", not empty *)
          let p := if 1 <? p then p - 1 else p in
          let! m := store_bytes m (buf + p) [x00] in
          Ret (Break (0, m))
        else
          let! '(offset, d) := fdt_next_node m fdt offset (Some depth) in
          Ret (Continue (m, offset, default depth d, p, pdepth))
      end
    else if (offset =? - FDT_ERR_NOTFOUND) || (0 <=? offset)
    then Ret (Break (- FDT_ERR_BADOFFSET, m))
    else if offset =? - FDT_ERR_BADOFFSET then Ret (Break (- FDT_ERR_BADSTRUCTURE, m))
    else Ret (Break (offset, m)) (* error from fdt_next_node() *)) (m, 0, 0, 0, 0).

(** Returns the offset and, when the node was reached, [*nodedepth]. *)
Definition fdt_supernode_atdepth_offset (m : mem) (fdt nodeoffset supernodedepth : Z)
    : res (Z * option Z) :=
  let! e := fdt_ro_probe_ m fdt in
  if e <? 0 then Ret (e, None) else
  if supernodedepth <? 0 then Ret (- FDT_ERR_NOTFOUND, None) else
  loop (fun '(offset, depth, supernodeoffset) =>
    if (0 <=? offset) && (offset <=? nodeoffset) then
      let supernodeoffset := if depth =? supernodedepth then offset else supernodeoffset in
      if offset =? nodeoffset then
        if depth <? supernodedepth then Ret (Break (- FDT_ERR_NOTFOUND, Some depth))
        else Ret (Break (supernodeoffset, Some depth))
      else
        let! '(offset, d) := fdt_next_node m fdt offset (Some depth) in
        Ret (Continue (offset, default depth d, supernodeoffset))
    else if negb (can_assume ASSUME_VALID_INPUT) &&
            ((offset =? - FDT_ERR_NOTFOUND) || (0 <=? offset))
    then Ret (Break (- FDT_ERR_BADOFFSET, None))
    else if negb (can_assume ASSUME_VALID_INPUT) && (offset =? - FDT_ERR_BADOFFSET)
    then Ret (Break (- FDT_ERR_BADSTRUCTURE, None))
    else Ret (Break (offset, None)) (* error from fdt_next_node() *))
    (0, 0, - FDT_ERR_INTERNAL).

Definition fdt_node_depth (m : mem) (fdt nodeoffset : Z) : res Z :=
  let! '(err, nodedepth) := fdt_supernode_atdepth_offset m fdt nodeoffset 0 in
  if negb (err =? 0) then
    if can_assume ASSUME_LIBFDT_FLAWLESS || (err <? 0) then Ret err else Ret (- FDT_ERR_INTERNAL)
  else nonnull nodedepth.

Definition fdt_parent_offset (m : mem) (fdt nodeoffset : Z) : res Z :=
  let! nodedepth := fdt_node_depth m fdt nodeoffset in
  if nodedepth <? 0 then Ret nodedepth else
  let! '(offset, _) := fdt_supernode_atdepth_offset m fdt nodeoffset (nodedepth - 1) in
  Ret offset.

Definition fdt_node_offset_by_prop_value (m : mem) (fdt startoffset : Z)
    (propname propval : list byte) : res Z :=
  let! e := fdt_ro_probe_ m fdt in
  if e <? 0 then Ret e else
  let! '(offset, _) := fdt_next_node m fdt startoffset None in
  loop (fun offset =>
    if 0 <=? offset then
      let! '(val, len) := fdt_getprop m fdt offset propname in
      let! eq :=
        match val with
        | None => Ret false
        | Some val => Ret (len =? Z.of_nat (length propval)) &&! memcmp_eq m val propval
        end in
      if eq then Ret (Break offset) else
      let! '(offset, _) := fdt_next_node m fdt offset None in
      Ret (Continue offset)
    else Ret (Break offset) (* error from fdt_next_node() *)) offset.

Definition fdt_node_offset_by_phandle (m : mem) (fdt phandle : Z) : res Z :=
  if (phandle =? 0) || (phandle =? u32 (-1)) then Ret (- FDT_ERR_BADPHANDLE) else
  let! e := fdt_ro_probe_ m fdt in
  if e <? 0 then Ret e else
  let! '(offset, _) := fdt_next_node m fdt (-1) None in
  loop (fun offset =>
    if 0 <=? offset then
      let! ph := fdt_get_phandle m fdt offset in
      if ph =? phandle then Ret (Break offset) else
      let! '(offset, _) := fdt_next_node m fdt offset None in
      Ret (Continue offset)
    else Ret (Break offset) (* error from fdt_next_node() *)) offset.

(** ** String lists *)

Definition fdt_stringlist_contains (m : mem) (strlist listlen : Z) (s : list byte) : res bool :=
  let len := Z.of_nat (length s) in
  loop (fun '(strlist, listlen) =>
    if len <=? listlen then
      let! eq := memcmp_eq m strlist (s ++ [x00]) in
      if eq then Ret (Break true) else
      let! p := memchr m strlist x00 listlen in
      match p with
      | None => Ret (Break false) (* malformed strlist.. *)
      | Some p => Ret (Continue (p + 1, s32 (listlen - ((p - strlist) + 1))))
      end
    else Ret (Break false)) (strlist, listlen).

Definition fdt_stringlist_count (m : mem) (fdt nodeoffset : Z) (property : list byte) : res Z :=
  let! '(list, length) := fdt_getprop m fdt nodeoffset property in
  match list with
  | None => Ret length
  | Some list =>
    let end_ := list + length in
    loop (fun '(list, count) =>
      if list <? end_ then
        let! n := strnlen m list (end_ - list) in
        let length := s32 (n + 1) in
        (* Abort if the last string isn't properly NUL-terminated. *)
        if end_ <? list + length then Ret (Break (- FDT_ERR_BADVALUE)) else
        Ret (Continue (list + length, count + 1))
      else Ret (Break count)) (list, 0)
  end.

Definition fdt_stringlist_search (m : mem) (fdt nodeoffset : Z) (property string : list byte) : res Z :=
  let! '(list, length_) := fdt_getprop m fdt nodeoffset property in
  match list with
  | None => Ret length_
  | Some list =>
    let len := Z.of_nat (length string) + 1 in
    let end_ := list + length_ in
    loop (fun '(list, idx) =>
      if list <? end_ then
        let! n := strnlen m list (end_ - list) in
        let length := s32 (n + 1) in
        (* Abort if the last string isn't properly NUL-terminated. *)
        if end_ <? list + length then Ret (Break (- FDT_ERR_BADVALUE)) else
        let! eq := Ret (length =? len) &&! memcmp_eq m list (string ++ [x00]) in
        if eq then Ret (Break idx) else
        Ret (Continue (list + length, idx + 1))
      else Ret (Break (- FDT_ERR_NOTFOUND))) (list, 0)
  end.

(** Returns the string and [*lenp]. *)
Definition fdt_stringlist_get (m : mem) (fdt nodeoffset : Z) (property : list byte) (idx : Z)
    : res (option Z * Z) :=
  let! '(list, length) := fdt_getprop m fdt nodeoffset property in
  match list with
  | None => Ret (None, length)
  | Some list =>
    let end_ := list + length in
    loop (fun '(list, idx) =>
      if list <? end_ then
        let! n := strnlen m list (end_ - list) in
        let length := s32 (n + 1) in
        (* Abort if the last string isn't properly NUL-terminated. *)
        if end_ <? list + length then Ret (Break (None, - FDT_ERR_BADVALUE)) else
        if idx =? 0 then Ret (Break (Some list, length - 1)) else
        let! idx := sint (idx - 1) in
        Ret (Continue (list + length, idx))
      else Ret (Break (None, - FDT_ERR_NOTFOUND))) (list, idx)
  end.

Definition fdt_node_check_compatible (m : mem) (fdt nodeoffset : Z) (compatible : list byte) : res Z :=
  let! '(prop, len) := fdt_getprop m fdt nodeoffset (str "compatible") in
  match prop with
  | None => Ret len
  | Some prop =>
    let! c := fdt_stringlist_contains m prop len compatible in
    Ret (if c then 0 else 1)
  end.

Definition fdt_node_offset_by_compatible (m : mem) (fdt startoffset : Z) (compatible : list byte)
    : res Z :=
  let! e := fdt_ro_probe_ m fdt in
  if e <? 0 then Ret e else
  let! '(offset, _) := fdt_next_node m fdt startoffset None in
  loop (fun offset =>
    if 0 <=? offset then
      let! err := fdt_node_check_compatible m fdt offset compatible in
      if (err <? 0) && negb (err =? - FDT_ERR_NOTFOUND) then Ret (Break err)
      else if err =? 0 then Ret (Break offset) else
      let! '(offset, _) := fdt_next_node m fdt offset None in
      Ret (Continue offset)
    else Ret (Break offset) (* error from fdt_next_node() *)) offset.
