(* ===== verification/FdtCheck.v ===== *)
(** libfdt/fdt_check.c: the full validation of a blob, and fdt_strerror.c. *)
From S2P Require Import Prelude Monad Memory Libfdt Fdt FdtRo.

(** The state of the walk of [fdt_check_full]. *)
Record check_state := CheckState {
  cs_nextoffset : Z;
  cs_depth : Z;           (* unsigned int depth *)
  cs_expect_end : bool;
}.

(** One round of the [while (1)] loop of [fdt_check_full]. *)
Definition fdt_check_full_body (m : mem) (fdt : Z) (st : check_state) : res (ctl check_state Z) :=
  let '(CheckState nextoffset depth expect_end) := st in
  let offset := nextoffset in
  let! '(tag, nextoffset) := fdt_next_tag m fdt offset in
  if nextoffset <? 0 then Ret (Break nextoffset) else
  (* If we see two root nodes, something is wrong *)
  if expect_end && negb (tag =? FDT_END) then Ret (Break (- FDT_ERR_BADSTRUCTURE)) else
  if tag =? FDT_NOP then Ret (Continue (CheckState nextoffset depth expect_end))
  else if tag =? FDT_END then
    if negb (depth =? 0) then Ret (Break (- FDT_ERR_BADSTRUCTURE)) else Ret (Break 0)
  else if tag =? FDT_BEGIN_NODE then
    let depth := u32 (depth + 1) in
    if INT_MAX <? depth then Ret (Break (- FDT_ERR_BADSTRUCTURE)) else
    (* The root node must have an empty name *)
    let! bad :=
      if depth =? 1 then
        let! '(name, len) := fdt_get_name m fdt offset in
        let! name := nonnull name in
        let! c := ld8 m name in
        Ret (negb (bool_decide (c = x00)) || negb (len =? 0))
      else Ret false in
    if bad then Ret (Break (- FDT_ERR_BADSTRUCTURE)) else
    Ret (Continue (CheckState nextoffset depth expect_end))
  else if tag =? FDT_END_NODE then
    if depth =? 0 then Ret (Break (- FDT_ERR_BADSTRUCTURE)) else
    let depth := depth - 1 in
    Ret (Continue (CheckState nextoffset depth (if depth =? 0 then true else expect_end)))
  else if tag =? FDT_PROP then
    let! '(prop, _, err) := fdt_getprop_by_offset m fdt offset true in
    if is_null prop then Ret (Break err) else
    Ret (Continue (CheckState nextoffset depth expect_end))
  else Ret (Break (- FDT_ERR_INTERNAL)).

Definition fdt_check_full (m : mem) (fdt bufsize : Z) : res Z :=
  if bufsize <? FDT_V1_SIZE then Ret (- FDT_ERR_TRUNCATED) else
  let! hdrsize := fdt_header_size m fdt in
  if bufsize <? hdrsize then Ret (- FDT_ERR_TRUNCATED) else
  let! err := fdt_check_header m fdt in
  if negb (err =? 0) then Ret err else
  let! totalsize := fdt_totalsize m fdt in
  if bufsize <? totalsize then Ret (- FDT_ERR_TRUNCATED) else
  let! num_memrsv := fdt_num_mem_rsv m fdt in
  if num_memrsv <? 0 then Ret num_memrsv else
  loop (fdt_check_full_body m fdt) (CheckState 0 0 false).

(** ** fdt_strerror.c *)

(** [fdt_errtable]: the string at each error code, absent entries NULL. *)
Definition fdt_errtable : list (option (list byte)) :=
  [None;
   Some (str "FDT_ERR_NOTFOUND"); Some (str "FDT_ERR_EXISTS"); Some (str "FDT_ERR_NOSPACE");
   Some (str "FDT_ERR_BADOFFSET"); Some (str "FDT_ERR_BADPATH"); Some (str "FDT_ERR_BADPHANDLE");
   Some (str "FDT_ERR_BADSTATE");
   Some (str "FDT_ERR_TRUNCATED"); Some (str "FDT_ERR_BADMAGIC"); Some (str "FDT_ERR_BADVERSION");
   Some (str "FDT_ERR_BADSTRUCTURE"); Some (str "FDT_ERR_BADLAYOUT"); Some (str "FDT_ERR_INTERNAL");
   Some (str "FDT_ERR_BADNCELLS"); Some (str "FDT_ERR_BADVALUE"); Some (str "FDT_ERR_BADOVERLAY");
   Some (str "FDT_ERR_NOPHANDLES"); Some (str "FDT_ERR_BADFLAGS")].

Definition FDT_ERRTABSIZE : Z := Z.of_nat (length fdt_errtable).

Definition fdt_strerror (errval : Z) : res (list byte) :=
  if 0 <? errval then Ret (str "<valid offset/length>")
  else if errval =? 0 then Ret (str "<no error>")
  else
    let! neg := sint (- errval) in
    match (if neg <? FDT_ERRTABSIZE then mjoin (fdt_errtable !! Z.to_nat neg) else None) with
    | Some s => Ret s
    | None => Ret (str "<unknown error>")
    end.
