(* ===== verification/FdtSafe.v ===== *)
(** Walks over blobs of arbitrary contents: memory safety in general, and
    total correctness where no property length wraps. A section is
    parameterised by a set [P] of offsets closed under the steps of the tag
    walker; [E] is the set of faults allowed. *)
From S2P Require Import Prelude Monad Memory Libfdt Fdt FdtSpec FdtRo.

(** Depth counters within the range the walk keeps: each level takes at
    least a tag. *)
Definition depth_ok (sane : Prop) (o : Z) (depth : option Z) : Prop :=
  match depth with
  | None => True
  | Some d => is_s32 d /\ (sane -> - (o + 2) <= d <= o + 1)
  end.

(** The results of the node walk from [o0]. *)
Definition node_result (m : mem) (fdt : Z) (h : header) (P : Z -> Prop) (sane : Prop) (o0 : Z)
    (depth : option Z) (r : Z * option Z) : Prop :=
  let '(o, depth') := r in
  is_s32 o /\
  (depth' = None <-> depth = None) /\
  (0 <= o ->
    o mod 4 = 0 /\ o <= INT_MAX - 1 /\ (sane -> o0 < o) /\ P o /\
    depth_ok sane o depth' /\
    ((exists next, tag_here m fdt h P FDT_BEGIN_NODE o next) \/ exists d, depth' = Some d /\ d < 0)).

(** The state of the node walk from [o0] at depth [depth0]. *)
Definition node_walk_inv (P : Z -> Prop) (sane : Prop) (o0 : Z) (depth0 : option Z)
    (st : Z * option Z) : Prop :=
  let '(o, depth) := st in
  0 <= o <= INT_MAX - 1 /\ o mod 4 = 0 /\ (sane -> o0 < o) /\ P o /\
  (depth = None <-> depth0 = None) /\ depth_ok sane o0 depth.

(** ** Tags and nodes *)

Section walk.
Context (m : mem) (fdt : Z) (h : header) (Hb : blob m fdt h).
Context (P : Z -> Prop) (HP : tag_closed m fdt h P).
Context (E : fault -> Prop).

Context (sane : Prop) (Hsane : sane -> forall o, P o -> len_ok m fdt h o).
Notation "'here' tag" := (tag_here m fdt h P tag) (at level 10).

Context (HE : (E Ovf /\ E Div) \/ sane).

(** What a step tells about its offsets. *)
Lemma tag_step_next start tag next :
  tag_step m fdt h start tag next -> 0 <= start ->
  is_s32 next /\
  (next < 0 -> tag = FDT_END /\ (next = - FDT_ERR_TRUNCATED \/ next = - FDT_ERR_BADSTRUCTURE)) /\
  (0 <= next -> next mod 4 = 0 /\ start <= next <= INT_MAX - 1 /\
                (len_ok m fdt h start -> start + 4 <= next)).
Proof using Hb.
  clear HE. intros H Hs. pose proof (blob_room _ _ _ Hb) as Hroom.
  assert (Hok : forall tag off, start <= off ->
    in_struct h start (off - start) = true -> (len_ok m fdt h start -> start + 4 <= off) ->
    is_s32 (align_up off 4) /\
    (align_up off 4 < 0 -> tag = FDT_END /\
       (align_up off 4 = - FDT_ERR_TRUNCATED \/ align_up off 4 = - FDT_ERR_BADSTRUCTURE)) /\
    (0 <= align_up off 4 -> align_up off 4 mod 4 = 0 /\ start <= align_up off 4 <= INT_MAX - 1 /\
                (len_ok m fdt h start -> start + 4 <= align_up off 4))).
  { intros t off Hle (J1 & J2 & _)%in_struct_true HL. destruct (align_up_4_bounds off) as [A1 A2].
    split; [clear A2; ilia|]. split; [lia|]. intros _. split; [done|]. clear A2.
    split; [lia|]. intros L. specialize (HL L). lia. }
  destruct H as [H|H|off H1 H2 H3 H4 H5|len off H1 H2 H3 H4 H5 H6|tag H1 H2 H3].
  - split; [done|]. split; [by auto|]. intros Hn. exfalso. by cbv in Hn.
  - split; [done|]. split; [by auto|]. intros Hn. exfalso. by cbv in Hn.
  - apply Hok; [lia|done|lia].
  - apply Hok; [done|done|]. intros HL. specialize (H6 HL). apply ld32_range in H2.
    unfold prop_pad in H6. destruct (_ && _); ilia.
  - apply Hok; [lia| |lia]. by replace (start + 4 - start) with 4 by lia.
Qed.

Lemma fdt_next_tag_safe start :
  is_s32 start -> P start ->
  wp E (fdt_next_tag m fdt start) (fun '(tag, next) => tag_step m fdt h start tag next).
Proof using Hb HE Hsane. intros. apply (fdt_next_tag_wp _ _ _ Hb); [done|]. destruct HE as [[]|]; auto. Qed.

Lemma tag_here_next tag start next :
  here tag start next ->
  is_s32 next /\ next mod 4 = 0 /\ start <= next <= INT_MAX - 1 /\ P next /\
  (sane -> start + 4 <= next).
Proof using Hb HP Hsane.
  clear HE. intros (H1 & _ & H2 & H3 & HPs & Hne). destruct (tag_step_next _ _ _ H3 H1) as (? & _ & H4).
  destruct (H4 H2) as (? & ? & H5). split; [done|]. split; [done|]. split; [done|].
  split; [by eapply HP|]. intros HS. by apply H5, Hsane.
Qed.

(** The two offset checks, which differ by the tag they want. *)
Lemma check_offset_wp tag offset :
  is_s32 offset -> P offset -> tag <> FDT_END ->
  wp E (if (offset <? 0) || negb (offset mod FDT_TAGSIZE =? 0) then Ret (- FDT_ERR_BADOFFSET) else
        let! '(t, off) := fdt_next_tag m fdt offset in
        if negb (t =? tag) then Ret (- FDT_ERR_BADOFFSET) else Ret off)
    (fun r => r = - FDT_ERR_BADOFFSET \/ here tag offset r).
Proof using Hb HE Hsane.
  intros Ho HPo Htag. destruct (Z.ltb_spec offset 0); cbn [orb]; [by left|].
  unfold FDT_TAGSIZE. destruct (Z.eqb_spec (offset mod 4) 0); cbn [negb]; [|by left].
  eapply wp_seq; [by apply fdt_next_tag_safe|]. intros [t next] Hst.
  destruct (Z.eqb_spec t tag) as [->|]; cbn [negb wp]; [|by left].
  right. split; [done|]. split; [done|]. split; [|done].
  destruct (Z.lt_ge_cases next 0) as [Hn|]; [|done].
  destruct (tag_step_next _ _ _ Hst ltac:(done)) as (_ & H2 & _). by destruct (H2 Hn) as [? _].
Qed.

Lemma fdt_check_node_offset_wp offset :
  is_s32 offset -> P offset ->
  wp E (fdt_check_node_offset_ m fdt offset)
    (fun r => r = - FDT_ERR_BADOFFSET \/ here FDT_BEGIN_NODE offset r).
Proof using Hb HE Hsane. intros. unfold fdt_check_node_offset_. noassume. by apply check_offset_wp. Qed.

Lemma fdt_check_prop_offset_wp offset :
  is_s32 offset -> P offset ->
  wp E (fdt_check_prop_offset_ m fdt offset)
    (fun r => r = - FDT_ERR_BADOFFSET \/ here FDT_PROP offset r).
Proof using Hb HE Hsane. intros. unfold fdt_check_prop_offset_. noassume. by apply check_offset_wp. Qed.

Lemma fdt_next_node_body_wp o0 depth0 st :
  is_s32 o0 -> node_walk_inv P sane o0 depth0 st ->
  wp E (fdt_next_node_body m fdt st) (fun r =>
    match r with
    | Continue st' => node_walk_inv P sane o0 depth0 st' /\ (sane -> st.1 < st'.1)
    | Break r => node_result m fdt h P sane o0 depth0 r
    end).
Proof using Hb HP HE Hsane.
  destruct st as [o depth]. intros Ho0 (Ho & Hal & Hgt & HPo & Hnone & Hdep). unfold fdt_next_node_body.
  eapply wp_seq; [apply fdt_next_tag_safe; [ilia|done]|]. intros [tag next] Hst.
  destruct (tag_step_next _ _ _ Hst ltac:(lia)) as (Hn32 & Hneg & Hpos).
  assert (Hcont : tag <> FDT_END -> node_walk_inv P sane o0 depth0 (next, depth) /\ (sane -> o < next)).
  { intros Ht. destruct (Z.lt_ge_cases next 0) as [Hlt|Hge]; [by destruct (Hneg Hlt)|].
    destruct (Hpos Hge) as (N1 & N2 & N3).
    split; [|intros HL; specialize (N3 (Hsane HL _ HPo)); lia].
    split; [lia|]. split; [done|]. split; [intros HL; specialize (Hgt HL); lia|].
    split; [by eapply HP|]. done. }
  destruct ((tag =? FDT_PROP) || (tag =? FDT_NOP)) eqn:Epn.
  { cbn [wp fst]. apply Hcont. apply orb_prop in Epn as [Epn|Epn]; bool_prop; subst; done. }
  destruct (Z.eqb_spec tag FDT_BEGIN_NODE) as [->|Nb].
  { destruct (Hcont ltac:(done)) as [(C1 & _) _].
    assert (Hbegin : exists next, here FDT_BEGIN_NODE o next).
    { exists next. split; [lia|]. split; [done|]. split; [lia|done]. }
    destruct depth as [d|]; cbn [incr_depth].
    - destruct Hdep as [D1 D2]. eapply wp_seq with (P := fun d' => d' = Some (d + 1) /\ is_s32 (d + 1)).
      + apply wp_bind. destruct HE as [[HO _]|HL]; [by apply wp_sint_ovf|].
        specialize (D2 HL). specialize (Hgt HL). apply wp_sint; [ilia|]. split; [done|ilia].
      + intros d' [-> Hd']. cbn [wp]. split; [ilia|]. split; [by rewrite <- Hnone|]. intros _.
        split; [done|]. split; [lia|]. split; [done|]. split; [done|]. split; [|by left].
        split; [done|]. intros HL. specialize (D2 HL). specialize (Hgt HL). lia.
    - cbn [rbind wp]. split; [ilia|]. split; [by rewrite <- Hnone|]. intros _.
      split; [done|]. split; [lia|]. split; [done|]. split; [done|]. split; [done|]. by left. }
  destruct (Z.eqb_spec tag FDT_END_NODE) as [->|Ne].
  { destruct (Hcont ltac:(done)) as [(C1 & C2 & C3 & C4 & C5 & _) C6].
    destruct depth as [d|]; [|cbn [wp fst]; by split].
    destruct Hdep as [D1 D2].
    eapply wp_seq with (P := fun d' => d' = d - 1 /\ is_s32 (d - 1)).
    { destruct HE as [[HO _]|HL]; [by apply wp_sint_ovf|].
      specialize (D2 HL). specialize (Hgt HL). apply wp_sint; [ilia|]. split; [done|ilia]. }
    intros d' [-> Hd'].
    assert (Hok : sane -> - (o0 + 2) <= d - 1 + 1 <= o0 + 1 /\ o0 < next).
    { intros HL. specialize (D2 HL). specialize (C3 HL). lia. }
    destruct (Z.ltb_spec (d - 1) 0); cbn [wp fst].
    - split; [done|]. split; [by rewrite <- Hnone|]. intros _. split; [done|]. split; [lia|].
      split; [done|]. split; [done|]. split; [|right; eauto]. split; [done|].
      intros HL. specialize (Hok HL). lia.
    - split; [|done]. split; [done|]. split; [done|]. split; [done|]. split; [done|].
      split; [by rewrite <- Hnone|]. split; [done|]. intros HL. specialize (D2 HL).
      specialize (Hgt HL). specialize (C3 HL). lia. }
  destruct (Z.eqb_spec tag FDT_END) as [->|Nn].
  { destruct (Z.leb_spec 0 next) as [Hge|Hlt]; cbn [orb wp].
    { split; [elia|]. split; [done|]. intros; exfalso; elia. }
    destruct (_ && _); cbn [wp]; (split; [first [done|elia]|]); (split; [done|]); intros; exfalso; elia. }
  cbn [wp fst]. by apply Hcont.
Qed.

(** The walk to the next node: in bounds, and progressing where lengths are sane. *)
Lemma fdt_next_node_wp offset depth :
  is_s32 offset -> P (Z.max 0 offset) -> depth_ok sane (Z.max (-1) offset) depth ->
  wp E (fdt_next_node m fdt offset depth) (node_result m fdt h P sane (Z.max (-1) offset) depth).
Proof using Hb HP HE Hsane.
  intros Ho HPo Hd. unfold fdt_next_node.
  eapply wp_seq with (P := fun n => n = - FDT_ERR_BADOFFSET \/
    node_walk_inv P sane (Z.max (-1) offset) depth (n, depth)).
  - destruct (Z.leb_spec 0 offset).
    + rewrite Z.max_r in HPo by lia. eapply wp_mono; [by apply fdt_check_node_offset_wp|].
      intros n [->|Hh]; [by left|right]. pose proof Hh as (H1 & H2 & H3 & _).
      destruct (tag_here_next _ _ _ Hh) as (N1 & N2 & N3 & N4 & N5).
      split; [lia|]. split; [done|]. split; [intros HL; specialize (N5 HL); lia|]. done.
    + rewrite Z.max_l in HPo by lia. right. split; [ilia|]. split; [done|]. split; [lia|]. done.
  - intros n [->|Hi].
    { cbn. split; [elia|]. split; [done|]. intros; exfalso; elia. }
    pose proof Hi as (Hr & _). destruct (Z.ltb_spec n 0); [lia|].
    apply (wp_loop_if E sane (node_walk_inv P sane (Z.max (-1) offset) depth)
             (fun st => INT_MAX - st.1)); [tauto|done| |].
    + intros HS [o d] (Hr' & _). unfold loop_bound. cbn [fst]. ilia.
    + intros st Hst. eapply wp_mono; [eapply fdt_next_node_body_wp; [|exact Hst]; ilia|].
      intros [st'|r]; [|done]. intros [I1 I2]. split; [done|]. intros HS. specialize (I2 HS). lia.
Qed.
End walk.

(** ** Total correctness of fdt_ro.c on blobs of arbitrary contents: every
    function returns, reads only the blob, and what it returns lies in the
    blob, whatever the bytes are, as long as no property length wraps. *)

(** A readable complete blob, and a set of offsets reachable by tag steps
    whose properties have sane lengths. *)
Record sane_blob (m : mem) (fdt : Z) (h : header) (P : Z -> Prop) : Prop := SaneBlob {
  sb_blob : blob m fdt h;
  sb_magic : h_magic h = FDT_MAGIC;
  sb_closed : tag_closed m fdt h P;
  sb_len : forall o, P o -> len_ok m fdt h o;
  sb_zero : P 0;
}.

(** A C string of [len] characters at [p]. *)
Definition cstr_in (m : mem) (p len : Z) : Prop :=
  0 <= len <= INT_MAX /\ m !! (p + len) = Some x00 /\ valid m p (len + 1) /\
  forall x, p <= x < p + len -> m !! x <> Some x00.

(** A value of [len] readable bytes, or the error in [len]. *)
Definition value_in (m : mem) (p : option Z) (len : Z) : Prop :=
  match p with
  | Some p => 0 <= len <= INT_MAX /\ valid m p len
  | None => is_s32 len /\ len < 0
  end.

(** An error code or the offset of a node after [o0]. *)
Definition node_or_err (m : mem) (fdt : Z) (h : header) (P : Z -> Prop) (o0 r : Z) : Prop :=
  is_s32 r /\ (0 <= r -> o0 < r /\ exists next, tag_here m fdt h P FDT_BEGIN_NODE r next).

(** An error code or the offset of a property at or after [o0]. *)
Definition prop_or_err (m : mem) (fdt : Z) (h : header) (P : Z -> Prop) (o0 r : Z) : Prop :=
  is_s32 r /\ (0 <= r -> o0 <= r /\ exists next, tag_here m fdt h P FDT_PROP r next).

(** The state of a walk that counts levels. *)
Definition depth_inv (P : Z -> Prop) (o d : Z) : Prop :=
  is_s32 o /\ (0 <= o -> P o /\ is_s32 d /\ - (o + 2) <= d <= o + 1).

(** The measure of a depth-first walk that visits each node once. *)
Definition node_meas (o : Z) : Z := if 0 <=? o then INT_MAX + 1 - o else 0.

(** A property and its length, or a negative error. *)
Definition prop_at (m : mem) (fdt : Z) (h : header) (o : Z) (r : option Z * Z) : Prop :=
  match r.1 with
  | Some p => p = saddr fdt h o /\ 0 <= o /\ 0 <= r.2 <= INT_MAX /\ ld32 m (prop_len p) = Ret r.2 /\
              valid m p (12 + r.2 + prop_pad h o r.2)
  | None => is_s32 r.2 /\ r.2 < 0
  end.

(** A scan of a string whose end is known for its last occurrence of [c]. *)
Lemma strrchr_spec m p q c :
  p <= q -> q - p + 1 < Z.pos loop_bound -> valid m p (q - p) -> m !! q = Some x00 -> c <> x00 ->
  wp total (strrchr m p c) (fun r => match r with Some a => p <= a < q | None => True end).
Proof.
  intros Hpq Hb Hv Hq Hc. unfold strrchr.
  apply (wp_loop total
    (fun st => p <= st.1 <= q /\ match st.2 with Some a => p <= a < st.1 | None => True end)
    (fun st => q + 1 - st.1)).
  - cbn. lia.
  - intros [a l]. cbn. lia.
  - intros [a last] [Ha Hl]. cbn [fst snd] in *.
    assert (exists b, m !! a = Some b /\ (a = q -> b = x00)) as (b & Hb' & Hbq).
    { destruct (decide (a = q)) as [->|]; [eauto|].
      destruct (valid_at _ _ _ a Hv) as [b ?]; [lia|]. exists b. split; [done|]. lia. }
    rewrite (ld8_at _ _ _ Hb'). cbn [rbind].
    destruct (decide (b = x00)) as [->|Hb0].
    + rewrite (bool_decide_eq_false_2 (x00 = c)) by congruence.
      rewrite bool_decide_eq_true_2 by done. cbn [wp].
      destruct last; [lia|done].
    + rewrite (bool_decide_eq_false_2 (b = x00)) by done. cbn [wp fst snd].
      assert (a <> q) by tauto.
      case_bool_decide; [lia|]. destruct last; lia.
Qed.

(** A string whose terminator is known has a length. *)
Lemma strlen_cstr m p q :
  p <= q -> q - p < INT_MAX -> valid m p (q - p) -> m !! q = Some x00 ->
  wp total (strlen m p) (fun n => cstr_in m p n /\ n <= q - p).
Proof.
  intros Hpq Hlt Hv Hq. apply wp_total_ex.
  destruct (strlen_spec m p q) as (n & -> & Hn & Hz & Hno); try done; [unfold loop_bound; ilia|].
  exists n. split; [done|]. split; [|lia]. split; [ilia|]. split; [done|]. split; [|done].
  intros i Hi. destruct (decide (i = n)) as [->|]; [eauto|]. apply Hv. lia.
Qed.

Section ro.
Context (m : mem) (fdt : Z) (h : header) (P : Z -> Prop) (Hs : sane_blob m fdt h P).

Let Hb : blob m fdt h := sb_blob _ _ _ _ Hs.
Let Hh : hdr_at m fdt h := blob_hdr _ _ _ Hb.
Let HP : tag_closed m fdt h P := sb_closed _ _ _ _ Hs.

Lemma sane_here : True -> forall o, P o -> len_ok m fdt h o.
Proof using Hs. intros _. apply (sb_len _ _ _ _ Hs). Qed.

Lemma any_or_sane : (total Ovf /\ total Div) \/ True.
Proof using. by right. Qed.

(** ** Probing *)

Lemma fdt_ro_probe_wp :
  wp total (fdt_ro_probe_ m fdt) (fun e => is_s32 e /\ (0 <= e -> e = h_totalsize h)).
Proof using Hs.
  hdr_ranges Hh. unfold fdt_ro_probe_. rd Hh. noassume.
  destruct (negb (Z.land fdt 7 =? 0)); [cbn; elia|].
  rewrite (sb_magic _ _ _ _ Hs), Z.eqb_refl.
  destruct (h_version h <? FDT_FIRST_SUPPORTED_VERSION); [cbn; elia|].
  destruct (FDT_LAST_SUPPORTED_VERSION <? h_last_comp h); [cbn; elia|].
  destruct (Z.ltb_spec (h_totalsize h) INT32_MAX); cbn [wp]; [|elia].
  split; [ilia|done].
Qed.

(** The opening of a function that starts with [FDT_RO_PROBE]. *)
Lemma ro_probe_then {A} (f : Z -> A) (k : res A) (Q : A -> Prop) :
  (forall e, is_s32 e -> e < 0 -> Q (f e)) -> wp total k Q ->
  wp total (let! e := fdt_ro_probe_ m fdt in if e <? 0 then Ret (f e) else k) Q.
Proof using Hs.
  intros Herr Hk. eapply wp_seq; [apply fdt_ro_probe_wp|]. intros e [He _].
  destruct (Z.ltb_spec e 0); [by apply Herr | done].
Qed.

(** ** What lies behind a tag *)

Lemma node_name_in o next :
  tag_here m fdt h P FDT_BEGIN_NODE o next ->
  exists q, saddr fdt h o + 4 <= q /\ q - saddr fdt h o < INT_MAX - 4 /\
    m !! q = Some x00 /\ valid m (saddr fdt h o) (q + 1 - saddr fdt h o).
Proof using Hs.
  intros (Ho & _ & _ & Hst & _ & _). apply tag_step_begin in Hst as (off & -> & H1 & Hin & H2 & _).
  pose proof Hin as (I1 & I2 & _)%in_struct_true. pose proof (blob_room _ _ _ Hb).
  exists (saddr fdt h (off - 1)). unfold saddr in *.
  split; [lia|]. split; [lia|]. split; [done|].
  eapply (in_struct_valid _ _ _ Hb o (off - o)); [done|unfold saddr; lia..].
Qed.

(** The header and value of a property are in the blob. *)
Lemma prop_in o next :
  tag_here m fdt h P FDT_PROP o next ->
  exists len, ld32 m (saddr fdt h o + 4) = Ret len /\ 0 <= len <= INT_MAX /\
    valid m (saddr fdt h o) (12 + len + prop_pad h o len) /\ o + 4 <= next.
Proof using Hs.
  intros Hhere. pose proof (tag_here_next _ _ _ Hb _ HP _ sane_here _ _ _ Hhere) as (_ & _ & _ & _ & Hn).
  specialize (Hn I).
  destruct Hhere as (Ho & _ & _ & Hst & HPo & _).
  apply tag_step_prop in Hst as (len & off & -> & Htag & Hlen & Hin4 & Hin & Hoff).
  pose proof (sane_here I _ HPo) as HL. specialize (Hoff HL). subst off.
  pose proof (ld32_range _ _ _ Hlen) as Hlr.
  exists len. split; [by replace (saddr fdt h o + 4) with (saddr fdt h (o + 4)) by (unfold saddr; lia)|].
  assert (in_struct h o 4 = true).
  { apply in_struct_true in Hin4 as (? & ? & ?). apply in_struct_true. lia. }
  assert (o + 16 + len <= INT_MAX) by (by apply HL).
  split; [ilia|]. split; [|done].
  eapply (in_struct_valid _ _ _ Hb o _ _ _ Hin); unfold saddr; lia.
Qed.

(** ** Strings *)

Lemma memcmp_eq_wp p l :
  valid m p (Z.of_nat (length l)) -> wp total (memcmp_eq m p l) (fun _ => True).
Proof using. intros H. unfold memcmp_eq. by destruct (load_valid _ _ _ H) as (l' & -> & _). Qed.

Lemma fdt_get_string_wp so :
  is_s32 so ->
  wp total (fdt_get_string m fdt so) (fun '(p, len) =>
    match p with Some p => cstr_in m p len | None => is_s32 len /\ len < 0 end).
Proof using Hs.
  intros Hso. hdr_ranges Hh. unfold fdt_get_string. noassume.
  eapply wp_seq; [apply fdt_ro_probe_wp|]. intros e [He Hpos].
  destruct (Z.ltb_spec e 0) as [|Hge]; [cbn; by split|]. specialize (Hpos Hge). subst e.
  rd Hh. rewrite (u32_small (h_totalsize h)) by ilia.
  pose proof (u32_range (so + h_off_strings h)) as Habs.
  set (abs := u32 (so + h_off_strings h)) in *.
  destruct (Z.leb_spec (h_totalsize h) abs); [cbn; elia|].
  rewrite (sb_magic _ _ _ _ Hs), Z.eqb_refl.
  rewrite (u32_small (h_totalsize h - abs)) by ilia.
  assert (Hlook : forall len, 0 <= len <= h_totalsize h - abs ->
    wp total (let! n := memchr m (fdt + abs) x00 len in
              match n with
              | None => Ret (None, - FDT_ERR_TRUNCATED)
              | Some n => Ret (Some (fdt + abs), s32 (n - (fdt + abs)))
              end)
      (fun '(p, len) =>
        match p with Some p => cstr_in m p len | None => is_s32 len /\ len < 0 end)).
  { intros len Hlen.
    assert (Hv : valid m (fdt + abs) len).
    { eapply valid_sub; [apply (blob_valid _ _ _ Hb)| |]; ilia. }
    destruct (memchr_spec m (fdt + abs) x00 len) as (r & -> & Hr); [unfold loop_bound; ilia|done|].
    cbn [rbind]. destruct r as [q|]; cbn [wp]; [|elia].
    destruct Hr as (Hq & Hqz & Hno). rewrite s32_small by ilia.
    split; [ilia|]. replace (fdt + abs + (q - (fdt + abs))) with q by lia.
    split; [done|]. split; [|done]. eapply valid_sub; eauto; lia. }
  destruct (Z.ltb_spec so 0); [cbn; elia|]. rd Hh. cbn [orb].
  destruct (17 <=? h_version h); cbn [rbind]; [|apply Hlook; lia].
  rd Hh. rewrite (u32_small so) by ilia.
  destruct (Z.leb_spec (h_size_strings h) so); [cbn; elia|].
  rewrite (u32_small (h_size_strings h - so)) by ilia.
  destruct (Z.ltb_spec (h_size_strings h - so) (h_totalsize h - abs)); cbn [rbind]; apply Hlook; lia.
Qed.

Lemma fdt_string_eq_wp so s : is_s32 so -> wp total (fdt_string_eq_ m fdt so s) (fun _ => True).
Proof using Hs.
  intros Hso. unfold fdt_string_eq_. eapply wp_seq; [by apply fdt_get_string_wp|].
  intros [[p|] len] Hp; [|done]. destruct Hp as (_ & _ & Hv & _).
  cbn [rbind]. destruct (Z.eqb_spec len (Z.of_nat (length s))) as [->|]; [|done].
  apply memcmp_eq_wp. eapply valid_sub; eauto; lia.
Qed.

(** ** Properties *)

Lemma nextprop_wp o :
  0 <= o <= INT_MAX - 1 -> o mod 4 = 0 -> P o ->
  wp total (nextprop_ m fdt o) (prop_or_err m fdt h P o).
Proof using Hs.
  intros Ho Hal HPo. unfold nextprop_.
  apply (wp_loop total (fun o' => o <= o' <= INT_MAX - 1 /\ o' mod 4 = 0 /\ P o')
           (fun o' => INT_MAX - o')); [by split; [lia|]| |].
  { intros o' [? _]. unfold loop_bound. ilia. }
  intros o' (Hr & Hal' & HPo').
  eapply wp_seq; [apply (fdt_next_tag_safe _ _ _ Hb P _ _ sane_here any_or_sane); [ilia|done]|].
  intros [tag next] Hst. destruct (tag_step_next _ _ _ Hb _ _ _ Hst ltac:(lia)) as (N1 & N2 & N3).
  destruct (Z.eqb_spec tag FDT_END) as [->|Ne].
  { destruct (Z.leb_spec 0 next); cbn [wp]; (split; [first [done|elia]|]); intros; exfalso; elia. }
  destruct (Z.lt_ge_cases next 0) as [Hlt|Hge]; [by destruct (N2 Hlt)|].
  destruct (N3 Hge) as (M1 & M2 & M3). specialize (M3 (sane_here I _ HPo')).
  destruct (Z.eqb_spec tag FDT_PROP) as [->|Np]; cbn [wp].
  { split; [ilia|]. intros _. split; [lia|]. exists next. split; [lia|]. split; [done|].
    split; [lia|]. by split. }
  destruct (tag =? FDT_NOP); cbn [wp].
  - split; [|lia]. split; [lia|]. split; [done|]. by eapply HP.
  - split; [elia|]. intros; exfalso; elia.
Qed.

(** The first property after a tag that was checked. *)
Lemma nextprop_after tag o r :
  r = - FDT_ERR_BADOFFSET \/ tag_here m fdt h P tag o r ->
  wp total (if r <? 0 then Ret r else nextprop_ m fdt r) (prop_or_err m fdt h P (o + 4)).
Proof using Hs.
  intros [->|Hr]; [cbn; split; [elia|]; intros; exfalso; elia|].
  destruct (tag_here_next _ _ _ Hb _ HP _ sane_here _ _ _ Hr) as (N1 & N2 & N3 & N4 & N5).
  specialize (N5 I). destruct Hr as (Ho0 & _). destruct (Z.ltb_spec r 0); [lia|].
  eapply wp_mono; [apply nextprop_wp; [lia|done|done]|]. intros r' [H1 H2].
  split; [done|]. intros H0. destruct (H2 H0). split; [lia|done].
Qed.

Lemma fdt_first_property_offset_wp o :
  is_s32 o -> P o ->
  wp total (fdt_first_property_offset m fdt o) (prop_or_err m fdt h P (o + 4)).
Proof using Hs.
  intros. unfold fdt_first_property_offset.
  eapply wp_seq; [by apply (fdt_check_node_offset_wp _ _ _ Hb P _ _ sane_here any_or_sane)|].
  intros r. apply nextprop_after.
Qed.

Lemma fdt_next_property_offset_wp o :
  is_s32 o -> P o ->
  wp total (fdt_next_property_offset m fdt o) (prop_or_err m fdt h P (o + 4)).
Proof using Hs.
  intros. unfold fdt_next_property_offset.
  eapply wp_seq; [by apply (fdt_check_prop_offset_wp _ _ _ Hb P _ _ sane_here any_or_sane)|].
  intros r. apply nextprop_after.
Qed.

Lemma fdt_get_property_by_offset_wp o :
  is_s32 o -> P o -> wp total (fdt_get_property_by_offset_ m fdt o) (prop_at m fdt h o).
Proof using Hs.
  intros Ho HPo. unfold fdt_get_property_by_offset_. noassume.
  eapply wp_seq; [by apply (fdt_check_prop_offset_wp _ _ _ Hb P _ _ sane_here any_or_sane)|].
  intros r [->|Hr]; [hnf; cbn; elia|].
  destruct (prop_in _ _ Hr) as (len & Hlen & Hlr & Hv & _). pose proof Hr as (Ho0 & _ & Hr0 & _).
  destruct (Z.ltb_spec r 0); [lia|]. rd Hh. unfold prop_len, fdt32_ld_. rewrite Hlen. cbn [rbind wp].
  rewrite s32_small by ilia. unfold prop_at, prop_len. cbn [fst snd]. done.
Qed.

Lemma prop_nameoff_wp p n :
  valid m p (12 + n) -> 0 <= n -> wp total (fdt32_ld_ m (prop_nameoff p)) (fun _ => True).
Proof using.
  intros Hv Hn. unfold fdt32_ld_, prop_nameoff.
  destruct (ld32_valid m (p + 8)) as (v & -> & _); [|done]. eapply valid_sub; eauto; lia.
Qed.

Lemma fdt_get_property_namelen_wp o name :
  is_s32 o -> P o ->
  wp total (fdt_get_property_namelen_ m fdt o name) (fun '(p, len, po) =>
    match p with
    | Some _ => 0 <= po <= INT_MAX /\ prop_at m fdt h po (p, len)
    | None => is_s32 len /\ len < 0
    end).
Proof using Hs.
  intros Ho HPo. unfold fdt_get_property_namelen_.
  eapply wp_seq; [by apply fdt_first_property_offset_wp|]. intros o1 Ho1.
  apply (wp_loop total (fun o => exists o0, prop_or_err m fdt h P o0 o)
           (fun o => if 0 <=? o then INT_MAX + 1 - o else 0)); [by eexists| |].
  { intros o' (_ & Hr & _). unfold loop_bound. destruct (Z.leb_spec 0 o'); ilia. }
  intros o' (o0 & Hr & Hhere). destruct (Z.leb_spec 0 o'); [|by split].
  destruct (Hhere ltac:(done)) as (_ & next & Hn). pose proof Hn as (_ & _ & _ & _ & HPo' & _).
  eapply wp_seq; [by apply fdt_get_property_by_offset_wp|]. intros [[p|] len] Hp; cycle 1.
  { noassume. cbn. elia. }
  pose proof Hp as (_ & _ & Hl & _ & Hv). cbn [fst snd is_null andb negb nonnull rbind] in *. noassume.
  assert (Hv' : valid m p (12 + len)).
  { eapply valid_sub; [exact Hv|lia|]. pose proof (prop_pad_range h o' len). lia. }
  eapply wp_seq; [eapply prop_nameoff_wp; [exact Hv'|lia]|]. intros nameoff _.
  eapply wp_seq; [apply fdt_string_eq_wp, s32_range|]. intros eq _.
  destruct eq; cbn [wp]; [split; [ilia|done]|].
  eapply wp_seq; [by apply fdt_next_property_offset_wp|]. intros o2 [H1 H2]. cbn [wp].
  split; [by eexists|]. destruct (Z.leb_spec 0 o2); [|destruct (Z.leb_spec 0 o'); ilia].
  destruct (H2 ltac:(done)) as [? _]. destruct (Z.leb_spec 0 o'); lia.
Qed.

(** Both getters skip the padding of old versions, and stay in the value. *)
Lemma realign_wp {A} o p len (f : Z -> A) (Q : A -> Prop) :
  prop_at m fdt h o (Some p, len) -> o <= INT_MAX -> (forall v, valid m v len -> Q (f v)) ->
  wp total
    (let! version := fdt_version m fdt in
     let! realign :=
       Ret (negb (can_assume ASSUME_LATEST) && (version <? 0x10) &&
            negb (u64 (o + sizeof_fdt_property) mod 8 =? 0)) &&!
       (let! plen := fdt32_ld_ m (prop_len p) in Ret (8 <=? plen)) in
     if realign then Ret (f (prop_data p + 4)) else Ret (f (prop_data p))) Q.
Proof using Hs.
  intros (_ & Ho & Hl & Hlen & Hv) Ho' HQ. cbn [fst snd] in *. rd Hh. noassume.
  unfold prop_pad in Hv. rewrite (u64_small (o + sizeof_fdt_property)) by elia.
  unfold sizeof_fdt_property, prop_data, fdt32_ld_. rewrite Hlen.
  destruct (h_version h <? 16); cbn [andb rbind] in *;
    [|apply HQ; eapply valid_sub; eauto; lia].
  destruct (negb ((o + 12) mod 8 =? 0)); cbn [rbind]; rewrite ?andb_true_r, ?andb_false_r in Hv;
    [|apply HQ; eapply valid_sub; eauto; lia].
  destruct (8 <=? len); apply HQ; eapply valid_sub; eauto; lia.
Qed.

Lemma fdt_getprop_namelen_wp o name :
  is_s32 o -> P o ->
  wp total (fdt_getprop_namelen m fdt o name) (fun '(p, len) => value_in m p len).
Proof using Hs.
  intros Ho HPo. unfold fdt_getprop_namelen.
  eapply wp_seq; [by apply fdt_get_property_namelen_wp|]. intros [[[p|] len] po]; [|done].
  intros (Hpo & Hp). pose proof Hp as (_ & _ & Hl & _).
  apply (realign_wp _ _ _ (fun v => (Some v, len)) _ Hp); [lia|]. intros v Hv. by split.
Qed.

Lemma fdt_getprop_by_offset_wp o namep :
  is_s32 o -> P o ->
  wp total (fdt_getprop_by_offset m fdt o namep) (fun '(p, _, len) => value_in m p len).
Proof using Hs.
  intros Ho HPo. unfold fdt_getprop_by_offset.
  eapply wp_seq; [by apply fdt_get_property_by_offset_wp|].
  intros [[p|] len] Hp; [|done].
  pose proof Hp as (_ & Hpos & Hl & Hlen & Hv). cbn [fst snd] in *. noassume.
  pose proof (prop_pad_range h o len) as Hpr.
  eapply wp_seq with (P := fun n => match n with inl e => is_s32 e /\ e < 0 | inr _ => True end).
  { destruct namep; [|done]. eapply wp_seq.
    { apply (prop_nameoff_wp _ len); [|lia]. eapply valid_sub; [exact Hv|lia|lia]. }
    intros nameoff _. eapply wp_seq; [apply fdt_get_string_wp, s32_range|].
    intros [[s|] nl]; done. }
  intros [e|name]; [done|]. intros _.
  apply (realign_wp _ _ _ (fun v => (Some v, name, len)) _ Hp); [ilia|]. intros v Hv'. by split.
Qed.

Lemma fdt_get_phandle_wp o :
  is_s32 o -> P o -> wp total (fdt_get_phandle m fdt o) is_u32.
Proof using Hs.
  intros Ho HPo. unfold fdt_get_phandle.
  assert (Hld : forall p, value_in m (Some p) 4 ->
    wp total (let! php := nonnull (Some p) in fdt32_ld_ m php) is_u32).
  { intros p [_ Hv]. cbn. unfold fdt32_ld_. by destruct (ld32_valid m p) as (v & -> & ?). }
  eapply wp_seq; [by apply fdt_getprop_namelen_wp|]. intros [p len] Hp.
  destruct p as [p|], (Z.eqb_spec len 4) as [->|]; cbn [is_null orb negb]; [by apply Hld| | |];
    (eapply wp_seq; [by apply fdt_getprop_namelen_wp|]; intros [[q|] l] Hq;
     destruct (Z.eqb_spec l 4) as [->|]; cbn [is_null orb negb]; [by apply Hld|cbn; ilia..]).
Qed.

(** ** Names *)

Lemma fdt_get_name_wp o :
  is_s32 o -> P o ->
  wp total (fdt_get_name m fdt o) (fun '(p, len) =>
    match p with Some p => cstr_in m p len | None => is_s32 len /\ len < 0 end).
Proof using Hs.
  intros Ho HPo. unfold fdt_get_name. rd Hh. noassume.
  eapply wp_seq; [apply fdt_ro_probe_wp|]. intros e [He _].
  destruct (Z.ltb_spec e 0); [by split|].
  eapply wp_seq; [by apply (fdt_check_node_offset_wp _ _ _ Hb P _ _ sane_here any_or_sane)|].
  intros r [->|Hr]; [hnf; elia|]. pose proof Hr as (Ho0 & _ & Hr0 & _).
  destruct (Z.ltb_spec r 0); [lia|].
  destruct (node_name_in _ _ Hr) as (q & Hq & Hlt & Hz & Hv). unfold nh_name.
  assert (Hlast : forall p, saddr fdt h o + 4 <= p <= q ->
    wp total (let! len := strlen m p in Ret (Some p, s32 len)) (fun '(p, len) =>
      match p with Some p => cstr_in m p len | None => is_s32 len /\ len < 0 end)).
  { intros p Hp. eapply wp_seq.
    { apply (strlen_cstr m p q); [lia|ilia| |done]. eapply valid_sub; eauto; lia. }
    intros n [Hn Hle]. cbn [wp]. rewrite s32_small; [done|]. destruct Hn as [? _]. ilia. }
  destruct (h_version h <? 16); [|by apply Hlast; lia].
  eapply wp_seq.
  { apply (strrchr_spec m (saddr fdt h o + 4) q); [lia|unfold loop_bound; ilia| |done|done].
    eapply valid_sub; eauto; lia. }
  intros [a|] Ha; [apply Hlast; lia|]. cbn. elia.
Qed.

Lemma fdt_nodename_eq_wp o s :
  is_s32 o -> P o -> wp total (fdt_nodename_eq_ m fdt o s) (fun _ => True).
Proof using Hs.
  intros Ho HPo. unfold fdt_nodename_eq_.
  eapply wp_seq; [by apply fdt_get_name_wp|]. intros [[p|] len] Hp; [|done].
  destruct Hp as (Hl & _ & Hv & _). destruct (Z.ltb_spec len (Z.of_nat (length s))); [done|].
  eapply wp_seq; [apply memcmp_eq_wp; eapply valid_sub; eauto; lia|]. intros [] _; [|done].
  destruct (Hv (Z.of_nat (length s)) ltac:(lia)) as [c Hc]. rewrite (ld8_at _ _ _ Hc). cbn [rbind negb].
  case_bool_decide; [done|]. by destruct (_ && _).
Qed.

(** ** Walks over the nodes *)

Lemma fdt_next_node_total o depth :
  is_s32 o -> P (Z.max 0 o) -> depth_ok True (Z.max (-1) o) depth ->
  wp total (fdt_next_node m fdt o depth)
    (node_result m fdt h P True (Z.max (-1) o) depth).
Proof using Hs.
  intros. by apply (fdt_next_node_wp _ _ _ Hb P HP _ _ sane_here any_or_sane).
Qed.

Lemma fdt_next_node_none o :
  is_s32 o -> P (Z.max 0 o) ->
  wp total (fdt_next_node m fdt o None) (fun '(r, _) => node_or_err m fdt h P (Z.max (-1) o) r).
Proof using Hs.
  intros Ho HPo. eapply wp_mono; [by apply fdt_next_node_total|].
  intros [r d] (H1 & H2 & H3). split; [done|]. intros H0.
  destruct (H3 H0) as (_ & _ & A3 & _ & _ & A5). split; [by apply A3|].
  destruct A5 as [A5|(d' & A5 & _)]; [done|]. subst d. discriminate (proj2 H2 eq_refl).
Qed.

Lemma node_meas_bound o : is_s32 o -> 0 <= node_meas o < Z.pos loop_bound.
Proof using. unfold node_meas, loop_bound. intros. destruct (Z.leb_spec 0 o); ilia. Qed.

Lemma node_meas_lt o o' : 0 <= o -> is_s32 o -> (0 <= o' -> o < o') -> node_meas o' < node_meas o.
Proof using.
  unfold node_meas. intros. destruct (Z.leb_spec 0 o), (Z.leb_spec 0 o'); ilia.
Qed.

Lemma node_loop_wp (body : Z -> res (ctl Z Z)) o0 o (Q : Z -> Prop) :
  node_or_err m fdt h P o0 o ->
  (forall o, 0 <= o -> is_s32 o -> P o -> wp total (body o) (fun r =>
    match r with Continue o' => node_or_err m fdt h P o o' | Break a => Q a end)) ->
  (forall e, e < 0 -> body e = Ret (Break e)) ->
  (forall e, is_s32 e -> e < 0 -> Q e) ->
  wp total (loop body o) Q.
Proof using.
  intros Ho Hbody Herr HQ.
  apply (wp_loop total (fun o => exists o0, node_or_err m fdt h P o0 o) node_meas); [by eexists| |].
  { intros o' (_ & Hr & _). by apply node_meas_bound. }
  intros o' (o1 & Hr & Hhere). destruct (Z.lt_ge_cases o' 0) as [Hn|Hp]; [rewrite Herr by done; by apply HQ|].
  destruct (Hhere Hp) as (_ & next & (_ & _ & _ & _ & HPo & _)).
  eapply wp_mono; [by apply Hbody|]. intros [o2|a]; [|done]. intros H2. split; [by eexists|].
  apply node_meas_lt; [done..|]. intros H0. destruct H2 as [_ H2]. by destruct (H2 H0).
Qed.

Lemma max0_pos o : 0 <= o -> P o -> P (Z.max 0 o).
Proof using. intros. by rewrite Z.max_r. Qed.

(** The step of such a walk. *)
Lemma next_node_continue {A} o (Q : ctl Z A -> Prop) :
  0 <= o -> is_s32 o -> P o -> (forall r, node_or_err m fdt h P o r -> Q (Continue r)) ->
  wp total (let! '(o', _) := fdt_next_node m fdt o None in Ret (Continue o')) Q.
Proof using Hs.
  intros H0 Ho HPo HQ. eapply wp_seq; [by apply fdt_next_node_none; [|by apply max0_pos]|].
  intros [r d] Hr. rewrite Z.max_r in Hr by lia. by apply HQ.
Qed.

Lemma first_node_then {A} o (k : Z -> res A) (Q : A -> Prop) :
  is_s32 o -> P (Z.max 0 o) -> (forall r, node_or_err m fdt h P (Z.max (-1) o) r -> wp total (k r) Q) ->
  wp total (let! '(o', _) := fdt_next_node m fdt o None in k o') Q.
Proof using Hs.
  intros Ho HPo HQ. eapply wp_seq; [by apply fdt_next_node_none|]. intros [r d]. apply HQ.
Qed.

Lemma sb_zero_max o : o < 0 -> P (Z.max 0 o).
Proof using Hs. intros. rewrite Z.max_l by lia. apply (sb_zero _ _ _ _ Hs). Qed.

Lemma fdt_node_offset_by_phandle_wp ph :
  wp total (fdt_node_offset_by_phandle m fdt ph) is_s32.
Proof using Hs.
  unfold fdt_node_offset_by_phandle. destruct (_ || _); [cbn; elia|].
  apply (ro_probe_then (fun e => e)); [done|].
  apply first_node_then; [ilia|by apply sb_zero_max|]. intros r Hr.
  apply (node_loop_wp _ _ _ _ Hr); [|intros e He; by destruct (Z.leb_spec 0 e); [lia|]|done].
  intros o H0 Ho HPo. destruct (Z.leb_spec 0 o); [|lia].
  eapply wp_seq; [by apply fdt_get_phandle_wp|]. intros ph' _.
  destruct (ph' =? ph); [done|]. by apply next_node_continue.
Qed.

Lemma fdt_node_offset_by_prop_value_wp start name val :
  is_s32 start -> P (Z.max 0 start) ->
  wp total (fdt_node_offset_by_prop_value m fdt start name val) is_s32.
Proof using Hs.
  intros Hst HPst. unfold fdt_node_offset_by_prop_value.
  apply (ro_probe_then (fun e => e)); [done|].
  apply first_node_then; [done..|]. intros r Hr.
  apply (node_loop_wp _ _ _ _ Hr); [|intros e He; by destruct (Z.leb_spec 0 e); [lia|]|done].
  intros o H0 Ho HPo. destruct (Z.leb_spec 0 o); [|lia].
  eapply wp_seq; [by apply fdt_getprop_namelen_wp|]. intros [p len] Hp.
  eapply wp_seq with (P := fun _ => True).
  { destruct p as [p|]; [|done]. destruct Hp as [_ Hv]. cbn [rbind].
    destruct (Z.eqb_spec len (Z.of_nat (length val))) as [->|]; [|done]. by apply memcmp_eq_wp. }
  intros [] _; [done|]. by apply next_node_continue.
Qed.

Lemma fdt_find_max_phandle_wp :
  wp total (fdt_find_max_phandle m fdt) (fun '(e, ph) => is_s32 e /\ e <= 0 /\ is_u32 ph).
Proof using Hs.
  unfold fdt_find_max_phandle.
  apply (wp_loop total (fun '(o, mx) => -1 <= o /\ is_s32 o /\ P (Z.max 0 o) /\ is_u32 mx)
           (fun '(o, _) => INT_MAX - o)).
  { split; [lia|]. split; [ilia|]. split; [by apply sb_zero_max|ilia]. }
  { intros [o mx] (? & ? & _). unfold loop_bound. ilia. }
  intros [o mx] (H1 & Ho & HPo & Hmx).
  eapply wp_seq; [by apply fdt_next_node_none|]. intros [r d] (Hr & Hpos).
  destruct (Z.ltb_spec r 0) as [Hn|Hn].
  { destruct (r =? - FDT_ERR_NOTFOUND); cbn; [split; [ilia|]; split; [lia|done]|].
    split; [done|]. split; [lia|ilia]. }
  destruct (Hpos Hn) as (Hlt & next & (_ & _ & _ & _ & HPr & _)).
  eapply wp_seq; [by apply fdt_get_phandle_wp|]. intros v Hv. cbn [wp].
  split; [|lia]. split; [lia|]. split; [done|]. split; [by apply max0_pos|]. by destruct (mx <? v).
Qed.

(** ** Walks that count levels *)

Lemma next_node_depth o d :
  0 <= o -> depth_inv P o d ->
  wp total (fdt_next_node m fdt o (Some d)) (fun '(o', d') =>
    exists d2, d' = Some d2 /\ depth_inv P o' d2 /\ (0 <= o' -> o < o')).
Proof using Hs.
  intros H0 (Ho & Hinv). destruct (Hinv H0) as (HPo & Hd32 & Hd').
  eapply wp_mono; [apply fdt_next_node_total; [done|by apply max0_pos|]|].
  { cbn. split; [done|]. lia. }
  intros [o' d'] (H1 & H2 & H3). destruct d' as [d2|]; [|by discriminate (proj1 H2 eq_refl)].
  exists d2. split; [done|]. rewrite Z.max_r in H3 by lia. split.
  - split; [done|]. intros H0'. destruct (H3 H0') as (_ & _ & _ & A4 & [A5 A6] & _). split; [done|].
    split; [done|]. by apply A6.
  - intros H0'. destruct (H3 H0') as (_ & _ & A3 & _). by apply A3.
Qed.

(** A loop whose rounds end in [fdt_next_node] on [(offset, depth)]. *)
Lemma depth_loop_wp {A} (body : Z * Z -> res (ctl (Z * Z) A)) o d (Q : A -> Prop) :
  depth_inv P o d ->
  (forall o d, depth_inv P o d -> wp total (body (o, d)) (fun r =>
    match r with
    | Continue (o', d') => depth_inv P o' d' /\ 0 <= o /\ (0 <= o' -> o < o')
    | Break a => Q a
    end)) ->
  wp total (loop body (o, d)) Q.
Proof using.
  intros Hi Hbody.
  apply (wp_loop total (fun '(o, d) => depth_inv P o d) (fun st => node_meas st.1)); [done| |].
  { intros [o' d'] [Hr _]. by apply node_meas_bound. }
  intros [o' d'] Hi'. eapply wp_mono; [by apply Hbody|]. intros [[o2 d2]|a]; [|done].
  intros (H1 & H2 & H3). split; [done|]. apply node_meas_lt; [done| |done]. by destruct Hi'.
Qed.

Lemma next_depth_continue {A} o d (Q : ctl (Z * Z) A -> Prop) :
  0 <= o -> depth_inv P o d ->
  (forall o' d', depth_inv P o' d' -> (0 <= o' -> o < o') -> Q (Continue (o', d'))) ->
  wp total (let! '(o', d') := fdt_next_node m fdt o (Some d) in Ret (Continue (o', default d d'))) Q.
Proof using Hs.
  intros H0 Hi HQ. eapply wp_seq; [by apply next_node_depth|].
  intros [o' d'] (d2 & -> & Hi' & Hlt). cbn. by apply HQ.
Qed.

Lemma fdt_subnode_offset_namelen_wp o name :
  is_s32 o -> P (Z.max 0 o) ->
  wp total (fdt_subnode_offset_namelen m fdt o name) (fun r => is_s32 r /\ (0 <= r -> P r)).
Proof using Hs.
  intros Ho HPo. unfold fdt_subnode_offset_namelen.
  apply (ro_probe_then (fun e => e)); [intros; split; [done|lia]|].
  apply depth_loop_wp.
  { split; [done|]. intros. rewrite Z.max_r in HPo by lia. split; [done|]. split; [ilia|lia]. }
  intros o1 d1 Hi. pose proof Hi as [Hr Hpos].
  destruct (Z.leb_spec 0 o1), (Z.leb_spec 0 d1); cbn [andb].
  - destruct (Hpos ltac:(done)) as [HPo1 _]. eapply wp_seq with (P := fun _ => True).
    { cbn [rbind]. destruct (d1 =? 1); [|done]. by apply fdt_nodename_eq_wp. }
    intros [] _; [by split|]. by apply next_depth_continue.
  - destruct (Z.ltb_spec d1 0); [|lia]. cbn. split; [elia|]. intros; exfalso; elia.
  - destruct (Z.ltb_spec d1 0); [lia|]. split; [done|lia].
  - destruct (Z.ltb_spec d1 0); [|lia]. cbn. split; [elia|]. intros; exfalso; elia.
Qed.

Lemma fdt_next_subnode_wp o :
  is_s32 o -> P (Z.max 0 o) -> 0 <= o ->
  wp total (fdt_next_subnode m fdt o) (fun r => is_s32 r /\ (0 <= r -> o < r /\ P r)).
Proof using Hs.
  intros Ho HPo Ho0. unfold fdt_next_subnode. rewrite Z.max_r in HPo by lia.
  apply (wp_loop total (fun '(o', d') => depth_inv P o' d' /\ 0 <= o' /\ 1 <= d' /\ o <= o')
           (fun st => node_meas st.1)).
  { split; [|lia]. split; [done|]. intros _. split; [done|]. split; [ilia|lia]. }
  { intros [o' d'] [[Hr _] _]. by apply node_meas_bound. }
  intros [o1 d1] (Hi & H0 & Hd & Hle). eapply wp_seq; [by apply next_node_depth|].
  intros [o2 d2] (d3 & -> & Hi2 & Hlt). cbn [default from_option id]. pose proof Hi2 as [Hr2 Hp2].
  destruct (Z.ltb_spec o2 0); cbn [orb]; [cbn; split; [elia|]; intros; exfalso; elia|].
  destruct (Z.ltb_spec d3 1); [cbn; (split; [elia|]); intros; exfalso; elia|].
  destruct (Hp2 ltac:(done)) as [HPo2 _]. specialize (Hlt ltac:(done)).
  destruct (Z.ltb_spec 1 d3); cbn [wp].
  - split; [split; [done|lia]|]. apply node_meas_lt; [done|by destruct Hi|done].
  - split; [done|]. split; [lia|done].
Qed.

Lemma fdt_supernode_atdepth_offset_wp o sd :
  is_s32 sd ->
  wp total (fdt_supernode_atdepth_offset m fdt o sd) (fun '(r, nd) =>
    is_s32 r /\ (0 <= r -> r <= o) /\
    match nd with Some d => is_s32 d | None => r < 0 end).
Proof using Hs.
  intros Hsd. unfold fdt_supernode_atdepth_offset.
  apply (ro_probe_then (fun e => (e, None))); [intros; split; [done|]; lia|].
  destruct (Z.ltb_spec sd 0); [hnf; split; [elia|]; split; [intros; exfalso; elia|elia]|].
  apply (wp_loop total (fun '(o', d', s') => depth_inv P o' d' /\ is_s32 s' /\ (0 <= s' -> s' <= o))
           (fun '(o', _, _) => node_meas o')).
  { split; [|split; [elia|intros; exfalso; elia]].
    split; [ilia|]. intros _. split; [apply (sb_zero _ _ _ _ Hs)|]. split; [ilia|lia]. }
  { intros [[o' d'] s'] [[Hr _] _]. by apply node_meas_bound. }
  intros [[o1 d1] s1] (Hi & Hs1 & Hsle). pose proof Hi as [Hr Hp].
  destruct ((0 <=? o1) && (o1 <=? o)) eqn:Hin.
  { bool_prop. destruct (Hp ltac:(done)) as (HPo1 & Hd32 & Hdr).
    assert (Hs2 : is_s32 (if d1 =? sd then o1 else s1) /\ (0 <= (if d1 =? sd then o1 else s1) ->
      (if d1 =? sd then o1 else s1) <= o)) by (by destruct (d1 =? sd)).
    destruct (Z.eqb_spec o1 o).
    - destruct (Z.ltb_spec d1 sd); cbn [wp]; [|destruct Hs2; split; [done|]; split; [done|ilia]].
      split; [elia|]. split; [intros; exfalso; elia|ilia].
    - eapply wp_seq; [by apply next_node_depth|]. intros [o2 d'] (d2 & -> & Hi2 & Hlt).
      cbn [default from_option id wp]. destruct Hs2. split; [done|]. by apply node_meas_lt. }
  noassume. destruct (_ || _) eqn:Herr; [hnf; split; [elia|]; split; [intros; exfalso; elia|elia]|].
  destruct (o1 =? - FDT_ERR_BADOFFSET); [hnf; split; [elia|]; split; [intros; exfalso; elia|elia]|].
  bool_prop. cbn [wp]. split; [done|]. lia.
Qed.

Lemma fdt_node_depth_wp o : wp total (fdt_node_depth m fdt o) is_s32.
Proof using Hs.
  unfold fdt_node_depth. eapply wp_seq; [by apply fdt_supernode_atdepth_offset_wp; ilia|].
  intros [r nd] (Hr & _ & Hnd). noassume.
  destruct (Z.eqb_spec r 0) as [->|]; cbn [negb].
  - by destruct nd; [|lia].
  - destruct (r <? 0); cbn; [done|elia].
Qed.

Lemma fdt_parent_offset_wp o : wp total (fdt_parent_offset m fdt o) is_s32.
Proof using Hs.
  unfold fdt_parent_offset. eapply wp_seq; [apply fdt_node_depth_wp|]. intros d Hd.
  destruct (Z.ltb_spec d 0); [done|].
  eapply wp_seq; [apply fdt_supernode_atdepth_offset_wp; ilia|]. by intros [r nd] [? _].
Qed.
End ro.
