(* ===== verification/FdtWip.v ===== *)
(** libfdt/fdt_wip.c: writes in place. *)
From S2P Require Import Prelude Monad Memory Libfdt Fdt FdtRo.

(** [val] is the [len] bytes the caller passes. *)
Definition fdt_setprop_inplace_namelen_partial (m : mem) (fdt nodeoffset : Z)
    (name : list byte) (idx : Z) (val : list byte) : res (Z * mem) :=
  let len := Z.of_nat (length val) in
  let! '(propval, proplen) := fdt_getprop_namelen_w m fdt nodeoffset name in
  match propval with
  | None => Ret (proplen, m)
  | Some propval =>
    if u32 proplen <? u32 (len + idx) then Ret (- FDT_ERR_NOSPACE, m) else
    let! m := store_bytes m (propval + idx) val in
    Ret (0, m)
  end.

Definition fdt_setprop_inplace (m : mem) (fdt nodeoffset : Z) (name val : list byte)
    : res (Z * mem) :=
  let len := Z.of_nat (length val) in
  let! '(propval, proplen) := fdt_getprop m fdt nodeoffset name in
  match propval with
  | None => Ret (proplen, m)
  | Some _ =>
    if negb (proplen =? len) then Ret (- FDT_ERR_NOSPACE, m) else
    fdt_setprop_inplace_namelen_partial m fdt nodeoffset name 0 val
  end.

Definition fdt_setprop_inplace_u32 (m : mem) (fdt nodeoffset : Z) (name : list byte) (val : Z)
    : res (Z * mem) :=
  fdt_setprop_inplace m fdt nodeoffset name (be_enc32 val).

Definition fdt_setprop_inplace_u64 (m : mem) (fdt nodeoffset : Z) (name : list byte) (val : Z)
    : res (Z * mem) :=
  fdt_setprop_inplace m fdt nodeoffset name (be_enc64 val).

Definition fdt_setprop_inplace_cell (m : mem) (fdt nodeoffset : Z) (name : list byte) (val : Z)
    : res (Z * mem) :=
  fdt_setprop_inplace_u32 m fdt nodeoffset name val.

Definition fdt_nop_region_ (m : mem) (start len : Z) : res mem :=
  loop (fun '(m, p) =>
    if p <? start + len then
      let! m := st32 m p FDT_NOP in
      Ret (Continue (m, p + 4))
    else Ret (Break m)) (m, start).

Definition fdt_nop_property (m : mem) (fdt nodeoffset : Z) (name : list byte) : res (Z * mem) :=
  let! '(prop, len) := fdt_get_property_w m fdt nodeoffset name in
  match prop with
  | None => Ret (len, m)
  | Some prop =>
    let! m := fdt_nop_region_ m prop (s32 (len + sizeof_fdt_property)) in
    Ret (0, m)
  end.

Definition fdt_node_end_offset_ (m : mem) (fdt offset : Z) : res Z :=
  loop (fun '(offset, depth) =>
    if (0 <=? offset) && (0 <=? depth) then
      let! '(offset, d) := fdt_next_node m fdt offset (Some depth) in
      Ret (Continue (offset, default depth d))
    else Ret (Break offset)) (offset, 0).

Definition fdt_nop_node (m : mem) (fdt nodeoffset : Z) : res (Z * mem) :=
  let! endoffset := fdt_node_end_offset_ m fdt nodeoffset in
  if endoffset <? 0 then Ret (endoffset, m) else
  let! p := fdt_offset_ptr_w m fdt nodeoffset 0 in
  let! len := sint (endoffset - nodeoffset) in
  let! p := nonnull p in
  let! m := fdt_nop_region_ m p len in
  Ret (0, m).
