(* ===== verification/FdtRead.v ===== *)
(** What fdt_ro.c and fdt_wip.c read from a well-formed tree: each function
    equals a function on the tokens of the structure block. *)
From S2P Require Import Prelude Monad Memory Libfdt Fdt FdtSpec FdtTree FdtRo FdtWip.

(** ** Strings *)

(** The string at offset [off] of the strings block. *)
Definition strs_get (strs : list byte) (off : Z) : option (list byte) :=
  if (0 <=? off) && (off <? zlen strs) then cstr (drop (Z.to_nat off) strs) else None.

(** A complete version 17 tree: tokens [ts] and strings [strs]. *)
Record tree_at (m : mem) (fdt : Z) (h : header) (ts : list tok) (strs : list byte) : Prop := TreeAt {
  ta_struct : struct_at m fdt h ts;
  ta_align : Z.land fdt 7 = 0;
  ta_magic : h_magic h = FDT_MAGIC;
  ta_version : 17 <= h_version h;
  ta_last : h_last_comp h <= FDT_LAST_SUPPORTED_VERSION;
  ta_total : h_totalsize h < INT_MAX;
  ta_strs : bytes_at m (fdt + h_off_strings h) strs;
  ta_strs_size : h_size_strings h = zlen strs;
  ta_strs_room : h_off_strings h + zlen strs <= h_totalsize h;
}.

(** ** Properties over tokens *)

(** Where [nextprop_] ends: the first property, or the reason there is none. *)
Fixpoint next_prop (ts : list tok) (o : Z) : Z :=
  match ts with
  | [] => - FDT_ERR_BADSTRUCTURE
  | TNop :: ts => next_prop ts (o + 4)
  | TProp _ _ :: _ => o
  | _ => - FDT_ERR_NOTFOUND
  end.

(** The property of that name in the tokens after a node's name: its offset
    and value, or an error. *)
Fixpoint find_prop (strs name : list byte) (ts : list tok) (o : Z) : Z + (Z * list byte) :=
  match ts with
  | [] => inl (- FDT_ERR_BADSTRUCTURE)
  | TNop :: ts => find_prop strs name ts (o + 4)
  | TProp nameoff data :: ts =>
    if bool_decide (strs_get strs nameoff = Some name) then inr (o, data)
    else find_prop strs name ts (o + tok_len (TProp nameoff data))
  | _ => inl (- FDT_ERR_NOTFOUND)
  end.

Lemma strs_get_Some strs off s :
  strs_get strs off = Some s ->
  0 <= off /\ no_nul s /\ exists pre r, strs = pre ++ s ++ x00 :: r /\ off = zlen pre.
Proof.
  unfold strs_get. destruct (Z.leb_spec 0 off); [|done]. destruct (Z.ltb_spec off (zlen strs)); [|done].
  cbn [andb]. intros (Hs & r & Hr)%cstr_Some. split; [done|]. split; [done|].
  exists (take (Z.to_nat off) strs), r. split; [by rewrite <- Hr, take_drop|].
  unfold zlen in *. rewrite length_take. lia.
Qed.

Lemma strs_get_app pre s r : no_nul s -> strs_get (pre ++ s ++ x00 :: r) (zlen pre) = Some s.
Proof.
  intros Hs. unfold strs_get. rewrite zlen_app. pose proof (zlen_nonneg pre).
  assert (0 < zlen (s ++ x00 :: r)) by (rewrite zlen_app; unfold zlen; simpl; lia).
  destruct (Z.leb_spec 0 (zlen pre)); [|lia]. destruct (Z.ltb_spec (zlen pre) (zlen pre + zlen (s ++ x00 :: r))); [|lia].
  cbn [andb]. unfold zlen. rewrite Nat2Z.id, drop_app_length. apply cstr_Some. eauto.
Qed.

Section read.
Context (m : mem) (fdt : Z) (h : header) (ts : list tok) (strs : list byte).
Context (Ht : tree_at m fdt h ts strs).

Let Hst : struct_at m fdt h ts := ta_struct _ _ _ _ _ Ht.
Let Hb : blob m fdt h := sa_blob _ _ _ _ Hst.
Let Hh : hdr_at m fdt h := blob_hdr _ _ _ Hb.

Lemma fdt_ro_probe_at : fdt_ro_probe_ m fdt = Ret (h_totalsize h).
Proof using Ht.
  unfold fdt_ro_probe_. rd Hh. noassume. rewrite (ta_align _ _ _ _ _ Ht), Z.eqb_refl. cbn [negb].
  rewrite (ta_magic _ _ _ _ _ Ht), Z.eqb_refl.
  pose proof (ta_version _ _ _ _ _ Ht). pose proof (ta_last _ _ _ _ _ Ht).
  destruct (Z.ltb_spec (h_version h) FDT_FIRST_SUPPORTED_VERSION); [unfold FDT_FIRST_SUPPORTED_VERSION in *; lia|].
  destruct (Z.ltb_spec FDT_LAST_SUPPORTED_VERSION (h_last_comp h)); [lia|].
  pose proof (ta_total _ _ _ _ _ Ht). unfold INT32_MAX.
  by destruct (Z.ltb_spec (h_totalsize h) INT_MAX); [|lia].
Qed.

Lemma total_nonneg : 0 <= h_totalsize h.
Proof using Ht. pose proof (hdr_u32 _ _ _ Hh f_totalsize) as H. cbn [hdr_get] in H. ilia. Qed.

Lemma ro_probe_at {A} (f : Z -> A) (k : res A) :
  (let! e := fdt_ro_probe_ m fdt in if e <? 0 then Ret (f e) else k) = k.
Proof using Ht.
  rewrite fdt_ro_probe_at. cbn [rbind]. pose proof total_nonneg.
  by destruct (Z.ltb_spec (h_totalsize h) 0); [lia|].
Qed.

(** ** Strings *)

Lemma strs_valid : valid m (fdt + h_off_strings h) (zlen strs).
Proof using Ht.
  hdr_ranges Hh. eapply valid_sub; [apply (blob_valid _ _ _ Hb)| |];
    pose proof (ta_strs_room _ _ _ _ _ Ht); ilia.
Qed.

Lemma fdt_get_string_at so :
  is_s32 so ->
  fdt_get_string m fdt so =
    Ret match strs_get strs so with
        | Some s => (Some (fdt + h_off_strings h + so), zlen s)
        | None => (None, if (0 <=? so) && (so <? zlen strs) then - FDT_ERR_TRUNCATED
                         else - FDT_ERR_BADOFFSET)
        end.
Proof using Ht.
  intros Hso. hdr_ranges Hh. unfold fdt_get_string. noassume. rewrite fdt_ro_probe_at. cbn [rbind].
  pose proof (ta_strs_room _ _ _ _ _ Ht). pose proof (ta_strs_size _ _ _ _ _ Ht) as Hsz.
  pose proof (ta_total _ _ _ _ _ Ht). pose proof (zlen_nonneg strs). pose proof (ta_version _ _ _ _ _ Ht).
  destruct (Z.ltb_spec (h_totalsize h) 0); [ilia|]. rd Hh.
  rewrite (u32_small (h_totalsize h)) by ilia. rewrite (ta_magic _ _ _ _ _ Ht), Z.eqb_refl.
  destruct (Z.ltb_spec so 0) as [Hneg|Hpos].
  { unfold strs_get. destruct (Z.leb_spec 0 so); [lia|]. cbn [andb rbind].
    by destruct (h_totalsize h <=? u32 (so + h_off_strings h)). }
  destruct (Z.leb_spec 0 so); [|lia]. rewrite (u32_small (so + h_off_strings h)) by ilia.
  destruct (Z.leb_spec 17 (h_version h)); [|lia]. cbn [orb]. rd Hh. rewrite (u32_small so) by ilia.
  rewrite Hsz. unfold strs_get. destruct (Z.leb_spec 0 so); [|lia]. cbn [andb].
  destruct (Z.ltb_spec so (zlen strs)) as [Hlt|Hge].
  2:{ destruct (h_totalsize h <=? so + h_off_strings h); [done|].
      by destruct (Z.leb_spec (zlen strs) so); [|lia]. }
  destruct (Z.leb_spec (h_totalsize h) (so + h_off_strings h)); [lia|].
  destruct (Z.leb_spec (zlen strs) so); [lia|]. cbn [rbind].
  rewrite (u32_small (zlen strs - so)), (u32_small (h_totalsize h - _)) by ilia.
  match goal with |- context [if ?c then Ret (inr ?a) else Ret (inr ?b)] =>
    replace (if c then Ret (inr a) else Ret (inr b)) with (Ret (inr (zlen strs - so)) : res (Z + Z));
    [|destruct (Z.ltb_spec (zlen strs - so) (h_totalsize h - (so + h_off_strings h)));
      [done|f_equal; f_equal; lia]] end.
  cbn [rbind]. replace (fdt + (so + h_off_strings h)) with (fdt + h_off_strings h + so) by lia.
  rewrite (memchr_list m _ (drop (Z.to_nat so) strs)).
  - cbn [rbind]. destruct (cstr _) as [s|] eqn:Ec; [|done]. cbn [fmap option_fmap option_map].
    apply cstr_len in Ec. rewrite zlen_drop in Ec by lia. pose proof (zlen_nonneg s).
    rewrite s32_small by ilia. do 2 f_equal. lia.
  - rewrite zlen_drop by lia. unfold loop_bound. ilia.
  - by rewrite zlen_drop by lia.
  - apply bytes_at_drop; [apply (ta_strs _ _ _ _ _ Ht)|lia].
Qed.

Lemma memcmp_eq_at p l l' :
  bytes_at m p l -> length l' = length l -> memcmp_eq m p l' = Ret (bool_decide (l = l')).
Proof using. intros H E. unfold memcmp_eq. by rewrite E, (load_at _ _ _ H). Qed.

Lemma fdt_string_eq_at so s :
  is_s32 so -> fdt_string_eq_ m fdt so s = Ret (bool_decide (strs_get strs so = Some s)).
Proof using Ht.
  intros Hso. unfold fdt_string_eq_. rewrite fdt_get_string_at by done. cbn [rbind].
  destruct (strs_get strs so) as [s'|] eqn:Es; [|by rewrite bool_decide_eq_false_2].
  cbn [rbind]. destruct (Z.eqb_spec (zlen s') (Z.of_nat (length s))) as [El|Nl].
  - apply strs_get_Some in Es as (H0 & Hnn & pre & r & Hs & ->).
    pose proof (ta_strs _ _ _ _ _ Ht) as Hat. rewrite Hs in Hat.
    apply bytes_at_appz in Hat as [_ Hat]. apply bytes_at_app in Hat as [Hat _].
    rewrite (memcmp_eq_at _ s' s Hat) by (unfold zlen in *; lia).
    f_equal. apply bool_decide_ext. split; [by intros ->|by intros [= ->]].
  - rewrite bool_decide_eq_false_2; [done|]. intros [= ->]. done.
Qed.

(** ** Properties *)

Lemma nextprop_at pre rest :
  ts = pre ++ rest -> nextprop_ m fdt (toks_len pre) = Ret (next_prop rest (toks_len pre)).
Proof using Ht.
  intros E. apply wp_total_eq.
  apply (toks_loop_wp _ _ _ _ Hst (fun pre' rest' s => s = toks_len pre' /\
           next_prop rest' (toks_len pre') = next_prop rest (toks_len pre)) _ pre rest); [done..|].
  clear E. intros pre' rest' s E (-> & <-). destruct rest' as [|t rest'].
  - rewrite app_nil_r in E. rewrite <- E, (fdt_next_tag_end _ _ _ _ Hst). cbn [rbind].
    pose proof (toks_len_nonneg ts). cbn. destruct (Z.leb_spec 0 (toks_len ts + 4)); [done|lia].
  - rewrite (fdt_next_tag_at _ _ _ _ Hst _ _ _ E). cbn [rbind].
    destruct t as [name| |nameoff data|]; cbn; [done..|].
    one_tok. rewrite toks_len_snoc. done.
Qed.

Lemma first_property_at pre name rest :
  ts = pre ++ TBegin name :: rest ->
  fdt_first_property_offset m fdt (toks_len pre) =
    Ret (next_prop rest (toks_len pre + tok_len (TBegin name))).
Proof using Ht.
  intros E. unfold fdt_first_property_offset. rewrite (check_node_at _ _ _ _ Hst _ _ _ E). cbn [rbind].
  pose proof (toks_len_nonneg pre). pose proof (tok_len_ge (TBegin name)).
  destruct (Z.ltb_spec (toks_len pre + tok_len (TBegin name)) 0); [lia|].
  rewrite <- toks_len_snoc. apply nextprop_at. by rewrite <- app_assoc.
Qed.

Lemma next_property_at pre nameoff data rest :
  ts = pre ++ TProp nameoff data :: rest ->
  fdt_next_property_offset m fdt (toks_len pre) =
    Ret (next_prop rest (toks_len pre + tok_len (TProp nameoff data))).
Proof using Ht.
  intros E. unfold fdt_next_property_offset. rewrite (check_prop_at _ _ _ _ Hst _ _ _ _ E). cbn [rbind].
  pose proof (toks_len_nonneg pre). pose proof (tok_len_ge (TProp nameoff data)).
  destruct (Z.ltb_spec (toks_len pre + tok_len (TProp nameoff data)) 0); [lia|].
  rewrite <- toks_len_snoc. apply nextprop_at. by rewrite <- app_assoc.
Qed.

(** Offsets of the structure block fit an [int]. *)
Lemma prop_data_bound pre nameoff data rest :
  ts = pre ++ TProp nameoff data :: rest -> zlen data <= INT_MAX - 20.
Proof using Ht.
  intros E. pose proof (struct_bound _ _ _ _ Hst _ _ E) as [H0 H1]. cbn [toks_len tok_len] in H1.
  pose proof (toks_len_nonneg rest). tok_bounds. lia.
Qed.

Lemma get_property_by_offset_at pre nameoff data rest :
  ts = pre ++ TProp nameoff data :: rest ->
  fdt_get_property_by_offset_ m fdt (toks_len pre) = Ret (Some (saddr fdt h (toks_len pre)), zlen data).
Proof using Ht.
  intros E. unfold fdt_get_property_by_offset_. noassume.
  rewrite (check_prop_at _ _ _ _ Hst _ _ _ _ E). cbn [rbind].
  pose proof (toks_len_nonneg pre). pose proof (tok_len_ge (TProp nameoff data)).
  destruct (Z.ltb_spec (toks_len pre + tok_len (TProp nameoff data)) 0); [lia|]. rd Hh.
  destruct (struct_tok _ _ _ _ Hst _ _ _ E) as (_ & (Hl & _)%tok_prop_at & _).
  unfold fdt32_ld_, prop_len. rewrite Hl. cbn [rbind].
  pose proof (prop_data_bound _ _ _ _ E). pose proof (zlen_nonneg data).
  by rewrite u32_small, s32_small by ilia.
Qed.

Lemma next_prop_split rest o :
  (next_prop rest o < 0 /\ forall name, find_prop strs name rest o = inl (next_prop rest o)) \/
  (exists nops nameoff data rest', rest = nops ++ TProp nameoff data :: rest' /\
     next_prop rest o = o + toks_len nops /\
     forall name, find_prop strs name rest o = find_prop strs name (TProp nameoff data :: rest') (o + toks_len nops)).
Proof using.
  revert o. induction rest as [|t rest IH]; intros o; cbn [next_prop find_prop].
  - left. split; [elia|done].
  - destruct t as [name| |nameoff data|]; try (left; split; [elia|done]).
    + right. exists [], nameoff, data, rest. cbn [toks_len app]. rewrite Z.add_0_r. done.
    + destruct (IH (o + 4)) as [[H1 H2]|(nops & n & d & rest' & H1 & H2 & H3)]; [by left|].
      right. exists (TNop :: nops), n, d, rest'. cbn [toks_len tok_len app]. rewrite H1. split; [done|].
      rewrite Z.add_assoc. by rewrite <- H1.
Qed.

Lemma strs_get_s32 nameoff : is_u32 nameoff -> strs_get strs (s32 nameoff) = strs_get strs nameoff.
Proof using Ht.
  intros Hn. pose proof (ta_strs_room _ _ _ _ _ Ht). pose proof (ta_total _ _ _ _ _ Ht).
  pose proof (hdr_u32 _ _ _ Hh f_off_dt_strings) as Ho. cbn [hdr_get] in Ho.
  destruct (decide (nameoff <= INT_MAX)); [by rewrite s32_small by ilia|].
  assert (s32 nameoff = nameoff - 4294967296) as ->.
  { unfold s32. replace (nameoff + 2147483648) with (nameoff - 2147483648 + 1 * 4294967296) by lia.
    rewrite Z.mod_add, Z.mod_small by ilia. lia. }
  unfold strs_get. destruct (Z.leb_spec 0 (nameoff - 4294967296)); [ilia|].
  destruct (Z.ltb_spec nameoff (zlen strs)); [ilia|]. by rewrite andb_false_r.
Qed.

(** Looking a property up by name. *)
Lemma get_property_namelen_at pre nodename rest name :
  ts = pre ++ TBegin nodename :: rest ->
  fdt_get_property_namelen_ m fdt (toks_len pre) name =
    Ret match find_prop strs name rest (toks_len pre + tok_len (TBegin nodename)) with
        | inl e => (None, e, 0)
        | inr (o, data) => (Some (saddr fdt h o), zlen data, o)
        end.
Proof using Ht.
  intros E. unfold fdt_get_property_namelen_. rewrite (first_property_at _ _ _ E). cbn [rbind].
  apply wp_total_eq.
  apply (toks_loop_wp _ _ _ _ Hst (fun pre' rest' s => s = next_prop rest' (toks_len pre') /\
    find_prop strs name rest' (toks_len pre') =
    find_prop strs name rest (toks_len pre + tok_len (TBegin nodename))) _ (pre ++ [TBegin nodename]) rest);
    [by rewrite <- app_assoc|by rewrite toks_len_snoc|].
  clear E. intros pre' rest' s E (-> & <-).
  destruct (next_prop_split rest' (toks_len pre')) as [[Hn Hf]|(nops & no & d & rest2 & -> & Hn & Hf)].
  { rewrite Hf. destruct (Z.leb_spec 0 (next_prop rest' (toks_len pre'))); [lia|done]. }
  rewrite Hf, Hn. rewrite app_assoc in E. rewrite <- toks_len_app.
  destruct (Z.leb_spec 0 (toks_len (pre' ++ nops))); [|pose proof (toks_len_nonneg (pre' ++ nops)); lia].
  rewrite (get_property_by_offset_at _ _ _ _ E). cbn [rbind is_null nonnull]. noassume.
  destruct (struct_tok _ _ _ _ Hst _ _ _ E) as (Hok & (_ & Hno & _)%tok_prop_at & _).
  unfold fdt32_ld_, prop_nameoff. rewrite Hno. cbn [rbind].
  rewrite fdt_string_eq_at by apply s32_range. cbn [rbind].
  cbn [tok_ok] in Hok. rewrite (u32_small no) by done. rewrite strs_get_s32 by done.
  cbn [find_prop]. case_bool_decide; [done|].
  rewrite (next_property_at _ _ _ _ E). cbn [rbind wp].
  exists (nops ++ [TProp no d]), rest2. split; [by destruct nops|]. split; [by rewrite <- app_assoc|].
  rewrite app_assoc, toks_len_snoc. done.
Qed.

Lemma getprop_namelen_at pre nodename rest name :
  ts = pre ++ TBegin nodename :: rest ->
  fdt_getprop_namelen m fdt (toks_len pre) name =
    Ret match find_prop strs name rest (toks_len pre + tok_len (TBegin nodename)) with
        | inl e => (None, e)
        | inr (o, data) => (Some (saddr fdt h o + 12), zlen data)
        end.
Proof using Ht.
  intros E. unfold fdt_getprop_namelen. rewrite (get_property_namelen_at _ _ _ _ E). cbn [rbind].
  destruct (find_prop _ _ _ _) as [e|[o data]]; [done|]. rd Hh. noassume.
  pose proof (ta_version _ _ _ _ _ Ht). destruct (Z.ltb_spec (h_version h) 16); [lia|]. done.
Qed.
End read.

(** ** The strings block as a list: searching it and adding a string to it. *)

(** The first occurrence of [pat], counting from [o]. *)
Fixpoint find_str (pat strs : list byte) (o : Z) : option Z :=
  if bool_decide (take (length pat) strs = pat) then Some o
  else match strs with
       | [] => None
       | _ :: strs => find_str pat strs (o + 1)
       end.

(** The string [s] with its terminator in the block [strs]; a new string is
    added at the end. *)
Definition str_pos (strs s : list byte) : option Z := find_str (s ++ [x00]) strs 0.

Definition add_str (strs s : list byte) : list byte * Z :=
  match str_pos strs s with
  | Some o => (strs, o)
  | None => (strs ++ s ++ [x00], zlen strs)
  end.

(** ** Searching *)

Lemma find_str_short pat strs o : (length strs < length pat)%nat -> find_str pat strs o = None.
Proof.
  revert o. induction strs as [|b strs IH]; intros o Hl; cbn [find_str].
  - rewrite take_nil, bool_decide_eq_false_2; [done|]. intros <-. cbn in Hl. lia.
  - rewrite bool_decide_eq_false_2; [apply IH; cbn in *; lia|].
    intros H%(f_equal length). rewrite length_take in H. lia.
Qed.

Lemma find_str_Some pat strs o k :
  find_str pat strs o = Some k -> exists pre post, strs = pre ++ pat ++ post /\ k = o + zlen pre.
Proof.
  revert o. induction strs as [|b strs IH]; intros o; cbn [find_str]; case_bool_decide as E.
  - intros [= <-]. exists [], []. rewrite take_nil in E. rewrite <- E. split; [done|]. unfold zlen; cbn; lia.
  - done.
  - intros [= <-]. exists [], (drop (length pat) (b :: strs)). cbn [app].
    split; [by rewrite <- E at 1; rewrite take_drop|unfold zlen; cbn; lia].
  - intros (pre & post & -> & ->)%IH. exists (b :: pre), post. split; [done|]. rewrite zlen_cons. lia.
Qed.

Lemma str_pos_get strs s o :
  no_nul s -> str_pos strs s = Some o -> strs_get strs o = Some s.
Proof.
  intros Hs (pre & post & -> & ->)%find_str_Some. rewrite <- app_assoc. by apply strs_get_app.
Qed.

Lemma str_pos_range strs s o : str_pos strs s = Some o -> 0 <= o < zlen strs.
Proof.
  intros (pre & post & -> & ->)%find_str_Some. rewrite !zlen_app. pose proof (zlen_nonneg pre).
  pose proof (zlen_nonneg s). pose proof (zlen_nonneg post). change (zlen [x00]) with 1. lia.
Qed.

Lemma add_str_get strs s : no_nul s -> strs_get (add_str strs s).1 (add_str strs s).2 = Some s.
Proof.
  intros Hs. unfold add_str. destruct (str_pos strs s) as [o|] eqn:E; [by apply str_pos_get|].
  by apply strs_get_app.
Qed.

(** Strings already in the block keep their offsets. *)
Lemma add_str_mono strs s o x :
  strs_get strs o = Some x -> strs_get (add_str strs s).1 o = Some x.
Proof.
  intros (H0 & Hs & pre & r & -> & ->)%strs_get_Some. unfold add_str.
  destruct (str_pos _ s); cbn [fst]; [by apply strs_get_app|].
  rewrite <- app_assoc. cbn [app]. rewrite <- app_assoc. by apply strs_get_app.
Qed.

(** [strs] is at [a]: the search of fdt_find_string_. *)
Lemma fdt_find_string_at m a strs s :
  bytes_at m a strs -> zlen strs < INT_MAX ->
  fdt_find_string_ m a (zlen strs) s = Ret ((fun o => a + o) <$> str_pos strs s).
Proof.
  intros Hat Hlen. unfold fdt_find_string_, str_pos. apply wp_total_eq.
  set (pat := s ++ [x00]). assert (zlen pat = Z.of_nat (length s) + 1) as Hpat.
  { unfold pat. rewrite zlen_app. done. }
  apply (wp_loop _ (fun p => exists k, p = a + Z.of_nat k /\ (k <= length strs)%nat /\
           find_str pat (drop k strs) (Z.of_nat k) = find_str pat strs 0)
           (fun p => a + zlen strs + 1 - p)).
  - exists 0%nat. split; [lia|]. split; [lia|done].
  - intros p (k & -> & Hk & _). unfold zlen, loop_bound in *. ilia.
  - intros p (k & -> & Hk & <-).
    destruct (Z.leb_spec (a + Z.of_nat k) (a + zlen strs - (Z.of_nat (length s) + 1))) as [Hle|Hgt].
    + destruct (drop k strs) as [|b r] eqn:Ed.
      { apply (f_equal length) in Ed. rewrite length_drop in Ed. cbn in Ed. unfold zlen in *. lia. }
      rewrite (memcmp_eq_at m _ (take (length pat) (b :: r)) pat).
      * cbn [rbind find_str]. case_bool_decide; [done|].
        split; [|lia]. exists (S k). split; [lia|]. split.
        { apply (f_equal length) in Ed. rewrite length_drop in Ed. cbn in Ed. lia. }
        rewrite Nat2Z.inj_succ, <- Z.add_1_r. f_equal.
        by rewrite <- Nat.add_1_r, <- drop_drop, Ed.
      * rewrite <- Ed. rewrite <- (Nat2Z.id k) at 2. apply (bytes_at_take _ _ _ (length pat)).
        apply bytes_at_drop; [done|unfold zlen; lia].
      * apply (f_equal length) in Ed. rewrite length_drop in Ed. rewrite length_take. unfold zlen in *. lia.
    + rewrite find_str_short; [done|]. rewrite length_drop. unfold zlen in *. lia.
Qed.
