(* ===== verification/FdtNav.v ===== *)
(** Navigation in well-formed trees: names, children, ends of nodes, paths.
    The functions of fdt_ro.c that walk by tags equal functions on the tree. *)
From S2P Require Import Prelude Monad Memory Libfdt Fdt FdtSpec FdtTree FdtRo FdtWip FdtRead.

(** ** Over tokens *)

(** Tokens the node walk passes over from depth [d], without leaving the node. *)
Inductive skips : list tok -> Z -> Z -> list tok -> Z -> Z -> Prop :=
| skips_refl ts o d : skips ts o d ts o d
| skips_flat t ts o d ts' o' d' :
    tok_tag t = FDT_PROP \/ tok_tag t = FDT_NOP ->
    skips ts (o + tok_len t) d ts' o' d' -> skips (t :: ts) o d ts' o' d'
| skips_end ts o d ts' o' d' :
    0 <= d - 1 -> skips ts (o + 4) (d - 1) ts' o' d' -> skips (TEnd :: ts) o d ts' o' d'.

(** What the node walk finds after the tokens it skips. *)
Inductive scan_stop (d : Z) (o : Z) : list tok -> Z * Z -> Prop :=
| stop_block : scan_stop d o [] (- FDT_ERR_NOTFOUND, d)
| stop_node name ts : scan_stop d o (TBegin name :: ts) (o, d + 1)
| stop_up ts : d = 0 -> scan_stop d o (TEnd :: ts) (o + 4, -1).

(** [fdt_nodename_eq_]: the unit address may be left out of [s]. *)
Definition name_matches (s name : list byte) : bool :=
  bool_decide (take (length s) name = s) &&
  match drop (length s) name with
  | [] => true
  | c :: _ => negb (bool_decide ("@"%byte ∈ s)) && bool_decide (c = "@"%byte)
  end.

(** The first child of that name: [ts] are the tokens at offset [o], [d]
    levels below the parent. *)
Fixpoint find_sub (s : list byte) (ts : list tok) (o d : Z) : Z :=
  match ts with
  | [] => - FDT_ERR_NOTFOUND
  | TBegin name :: ts =>
    if (d =? 0) && name_matches s name then o
    else find_sub s ts (o + tok_len (TBegin name)) (d + 1)
  | TEnd :: ts => if d - 1 <? 0 then - FDT_ERR_NOTFOUND else find_sub s ts (o + 4) (d - 1)
  | t :: ts => find_sub s ts (o + tok_len t) d
  end.

(** The end of the node whose contents start at [o]. *)
Fixpoint end_off (ts : list tok) (o d : Z) : Z :=
  match ts with
  | [] => - FDT_ERR_NOTFOUND
  | TBegin name :: ts => end_off ts (o + tok_len (TBegin name)) (d + 1)
  | TEnd :: ts => if d - 1 <? 0 then o + 4 else end_off ts (o + 4) (d - 1)
  | t :: ts => end_off ts (o + tok_len t) d
  end.

(** The next sibling of a node whose contents start at [o]. *)
Fixpoint next_sub (ts : list tok) (o d : Z) : Z :=
  match ts with
  | [] => - FDT_ERR_NOTFOUND
  | TBegin name :: ts =>
    if d =? 0 then o else next_sub ts (o + tok_len (TBegin name)) (d + 1)
  | TEnd :: ts => if d - 1 <? 0 then - FDT_ERR_NOTFOUND else next_sub ts (o + 4) (d - 1)
  | t :: ts => next_sub ts (o + tok_len t) d
  end.

(** The state of a walk on [(offset, depth)] that computes [v]: at a node,
    where [F] of the tokens left is [v], or stopped by the end of the block or
    of the node. *)
Definition walk_inv {A} (F : list tok -> Z -> Z -> A) (v : A) (pre rest : list tok) (s : Z * Z) : Prop :=
  (exists name r, rest = TBegin name :: r /\ s.1 = toks_len pre /\ 0 <= s.2 <= toks_len pre /\
     F rest s.1 (s.2 - 1) = v) \/
  (s.1 = - FDT_ERR_NOTFOUND /\ 0 <= s.2 /\ exists o d, F [] o d = v) \/
  (s.2 = -1 /\ 0 <= s.1 /\ exists r, F (TEnd :: r) (s.1 - 4) 0 = v).

(** ** Over trees *)

(** The first child that matches [s] among [items] at offset [o]: its offset,
    its name and what it holds. *)
Fixpoint child (s : list byte) (items : list item) (o : Z) : option (Z * list byte * list item) :=
  match items with
  | [] => None
  | it :: items =>
    match it with
    | INode name its => if name_matches s name then Some (o, name, its)
                        else child s items (o + item_len it)
    | _ => child s items (o + item_len it)
    end
  end.

(** The children of a node whose contents start at [o]. *)
Fixpoint children (items : list item) (o : Z) : list (Z * list byte * list item) :=
  match items with
  | [] => []
  | it :: items =>
    match it with
    | INode name its => (o, name, its) :: children items (o + item_len it)
    | _ => children items (o + item_len it)
    end
  end.

(** The offset of the first of some nodes. *)
Definition first_off (l : list (Z * list byte * list item)) : Z :=
  match l with
  | [] => - FDT_ERR_NOTFOUND
  | (o, _, _) :: _ => o
  end.

(** The components of a path: the non-empty parts between slashes. *)
Fixpoint comps (cur p : list byte) : list (list byte) :=
  match p with
  | [] => match cur with [] => [] | _ => [cur] end
  | c :: p =>
    if bool_decide (c = "/"%byte)
    then match cur with [] => comps [] p | _ => cur :: comps [] p end
    else comps (cur ++ [c]) p
  end.

Definition path_comps (p : list byte) : list (list byte) := comps [] p.

(** Where the contents of the node at [o] start. *)
Definition body_off (o : Z) (name : list byte) : Z := o + tok_len (TBegin name).

(** The node a list of path components leads to from the node at [o]. *)
Fixpoint lookup_path (comps : list (list byte)) (o : Z) (name : list byte) (items : list item) : Z :=
  match comps with
  | [] => o
  | c :: comps =>
    match child c items (body_off o name) with
    | Some (o', name', items') => lookup_path comps o' name' items'
    | None => - FDT_ERR_NOTFOUND
    end
  end.

(** ** Skipping *)

Lemma skips_mid ts o d ts' o' d' :
  skips ts o d ts' o' d' -> exists mid, ts = mid ++ ts' /\ o' = o + toks_len mid.
Proof.
  induction 1 as [ts o d|t ts o d ts' o' d' _ _ [mid [-> ->]]|ts o d ts' o' d' _ _ [mid [-> ->]]].
  - exists []. simpl. split; [done|lia].
  - exists (t :: mid). simpl. split; [done|lia].
  - exists (TEnd :: mid). simpl. split; [done|lia].
Qed.

Lemma skips_depth ts o d ts' o' d' : skips ts o d ts' o' d' -> 0 <= d -> 0 <= d' <= d.
Proof. induction 1; intros; lia. Qed.

Lemma scan_skips ts o d :
  0 <= d -> exists ts' o' d', skips ts o d ts' o' d' /\ scan_stop d' o' ts' (scan ts o d).
Proof.
  revert o d. induction ts as [|t ts IH]; intros o d Hd.
  - exists [], o, d. split; constructor.
  - destruct t as [name| |nameoff data|]; cbn [scan].
    + exists (TBegin name :: ts), o, d. split; constructor.
    + destruct (Z.ltb_spec (d - 1) 0).
      * exists (TEnd :: ts), o, d. replace (d - 1) with (-1) by lia. split; constructor. lia.
      * destruct (IH (o + 4) (d - 1)) as (ts' & o' & d' & H1 & H2); [lia|].
        exists ts', o', d'. split; [by constructor|done].
    + destruct (IH (o + tok_len (TProp nameoff data)) d) as (ts' & o' & d' & H1 & H2); [done|].
      exists ts', o', d'. split; [constructor; [by left|done]|done].
    + destruct (IH (o + tok_len TNop) d) as (ts' & o' & d' & H1 & H2); [done|].
      exists ts', o', d'. split; [constructor; [by right|done]|done].
Qed.

(** The functions over tokens do not see the tokens skipped. *)
Lemma skips_invariant {A} (F : list tok -> Z -> Z -> A) :
  (forall t ts o d, tok_tag t = FDT_PROP \/ tok_tag t = FDT_NOP -> F (t :: ts) o d = F ts (o + tok_len t) d) ->
  (forall ts o d, 0 <= d - 1 -> F (TEnd :: ts) o d = F ts (o + 4) (d - 1)) ->
  forall ts o d ts' o' d', skips ts o d ts' o' d' -> F ts o d = F ts' o' d'.
Proof.
  intros H1 H2. induction 1 as [|t ts o d ts' o' d' Ht _ IH|ts o d ts' o' d' Hd _ IH]; [done|..].
  - by rewrite H1.
  - by rewrite H2.
Qed.

Lemma flat_tok_inv t : tok_tag t = FDT_PROP \/ tok_tag t = FDT_NOP -> t = TNop \/ exists n d, t = TProp n d.
Proof. destruct t as [name| |nameoff data|]; intros [H|H]; try discriminate H; eauto. Qed.

Ltac skips_inv :=
  apply skips_invariant;
  [intros t ts o d [->|(? & ? & ->)]%flat_tok_inv; reflexivity
  |intros ts o d ?; simpl; destruct (Z.ltb_spec (d - 1) 0); [lia|reflexivity]].

Lemma skips_find_sub s ts o d ts' o' d' :
  skips ts o d ts' o' d' -> find_sub s ts o d = find_sub s ts' o' d'.
Proof. revert ts o d ts' o' d'. skips_inv. Qed.

Lemma skips_end_off ts o d ts' o' d' : skips ts o d ts' o' d' -> end_off ts o d = end_off ts' o' d'.
Proof. revert ts o d ts' o' d'. skips_inv. Qed.

Lemma skips_next_sub ts o d ts' o' d' : skips ts o d ts' o' d' -> next_sub ts o d = next_sub ts' o' d'.
Proof. revert ts o d ts' o' d'. skips_inv. Qed.

(** ** Whole items *)

Lemma item_len_node name items :
  item_len (INode name items) = tok_len (TBegin name) + toks_len (flats items) + 4.
Proof. unfold item_len. cbn [flat toks_len]. rewrite toks_len_app. simpl. unfold flats. lia. Qed.

(** A function over tokens that counts levels passes over whole items. *)
Section levels.
Context {A} (F : list tok -> Z -> Z -> A).
Context (Fflat : forall t ts o d, tok_tag t = FDT_PROP \/ tok_tag t = FDT_NOP ->
                   F (t :: ts) o d = F ts (o + tok_len t) d).
Context (Fend : forall ts o d, 0 <= d - 1 -> F (TEnd :: ts) o d = F ts (o + 4) (d - 1)).
Context (dmin : Z) (Hmin : 0 <= dmin).
Context (Fbegin : forall name ts o d, dmin <= d ->
                   F (TBegin name :: ts) o d = F ts (o + tok_len (TBegin name)) (d + 1)).

Lemma level_item it ts o d : dmin <= d -> F (flat it ++ ts) o d = F ts (o + item_len it) d.
Proof using Fflat Fend Hmin Fbegin.
  revert ts o d. induction it as [|n data|name items IH] using item_ind'; intros ts o d Hd.
  - unfold item_len. cbn [flat app toks_len]. rewrite Fflat by (by right). f_equal.
  - unfold item_len. cbn [flat app toks_len]. rewrite Fflat by (by left). f_equal. lia.
  - rewrite item_len_node. cbn [flat app]. rewrite Fbegin by done. rewrite <- app_assoc.
    fold (flats items).
    assert (Hl : forall ts o, F (flats items ++ ts) o (d + 1) = F ts (o + toks_len (flats items)) (d + 1)).
    { induction IH as [|it items Hit _ IHl]; intros ts' o'.
      - simpl. f_equal. lia.
      - rewrite flats_cons, <- app_assoc, Hit, IHl by lia. rewrite toks_len_app. f_equal.
        unfold item_len. lia. }
    rewrite Hl. cbn [app]. rewrite Fend by lia. f_equal; lia.
Qed.

Lemma level_items items ts o d : dmin <= d -> F (flats items ++ ts) o d = F ts (o + toks_len (flats items)) d.
Proof using Fflat Fend Hmin Fbegin.
  intros Hd. revert o. induction items as [|it items IH]; intros o.
  - simpl. f_equal. lia.
  - rewrite flats_cons, <- app_assoc, level_item, IH by done. rewrite toks_len_app. f_equal.
    unfold item_len. lia.
Qed.
End levels.

Ltac level_side :=
  first [intros t ? ? ? [->|(? & ? & ->)]%flat_tok_inv; reflexivity
        |intros ? ? d ?; simpl; destruct (Z.ltb_spec (d - 1) 0); [lia|reflexivity]
        |intros ? ? ? d ?; simpl; destruct (Z.eqb_spec d 0); [lia|reflexivity]
        |lia|reflexivity].

(** The children of a node, by name. *)
Lemma find_sub_items s items ts o :
  find_sub s (flats items ++ TEnd :: ts) o 0 =
    match child s items o with Some (o', _, _) => o' | None => - FDT_ERR_NOTFOUND end.
Proof.
  revert o. induction items as [|it items IH]; intros o; [done|].
  rewrite flats_cons, <- app_assoc. destruct it as [|n data|name its].
  - cbn [flat app child find_sub]. rewrite IH. unfold item_len. cbn [flat toks_len]. by rewrite Z.add_0_r.
  - cbn [flat app child find_sub]. rewrite IH. unfold item_len. cbn [flat toks_len]. by rewrite Z.add_0_r.
  - cbn [child]. destruct (name_matches s name) eqn:Hm.
    + cbn [flat app find_sub]. by rewrite Hm.
    + rewrite <- IH. cbn [flat app find_sub Z.eqb andb]. rewrite Hm. cbn [Z.add].
      rewrite <- app_assoc. fold (flats its).
      rewrite (level_items (find_sub s)) with (dmin := 1) by level_side.
      cbn [app find_sub Z.ltb Z.sub Z.compare Z.add Z.opp Z.pos_sub Pos.compare Pos.compare_cont].
      rewrite item_len_node. f_equal. lia.
Qed.

Lemma end_off_items items ts o :
  end_off (flats items ++ TEnd :: ts) o 0 = o + toks_len (flats items) + 4.
Proof. rewrite (level_items end_off) with (dmin := 0) by level_side. done. Qed.

Lemma next_sub_items items ts o :
  next_sub (flats items ++ TEnd :: ts) o 0 = first_off (children items o).
Proof.
  revert o. induction items as [|it items IH]; intros o; [done|].
  rewrite flats_cons, <- app_assoc. destruct it as [|n data|name its]; cbn [flat app children next_sub].
  - rewrite IH. unfold item_len. cbn [flat toks_len]. by rewrite Z.add_0_r.
  - rewrite IH. unfold item_len. cbn [flat toks_len]. by rewrite Z.add_0_r.
  - done.
Qed.

(** Past a whole node, from inside it. *)
Lemma next_sub_after items its ts o :
  next_sub (flats its ++ TEnd :: flats items ++ TEnd :: ts) o 1 =
    first_off (children items (o + toks_len (flats its) + 4)).
Proof.
  rewrite (level_items next_sub) with (dmin := 1) by level_side. cbn [next_sub].
  change (1 - 1) with 0. change (0 <? 0) with false. cbv iota. apply next_sub_items.
Qed.

(** A child found by name is one of the children, in place. *)
Lemma child_split s items o o' name its :
  child s items o = Some (o', name, its) ->
  exists i1 i2, items = i1 ++ INode name its :: i2 /\ o' = o + toks_len (flats i1) /\
    name_matches s name = true.
Proof.
  revert o. induction items as [|it items IH]; intros o; [done|]. cbn [child].
  assert (Hrec : child s items (o + item_len it) = Some (o', name, its) ->
    exists i1 i2, it :: items = i1 ++ INode name its :: i2 /\ o' = o + toks_len (flats i1) /\
      name_matches s name = true).
  { intros H. destruct (IH _ H) as (i1 & i2 & -> & -> & Hm). exists (it :: i1), i2. split; [done|].
    rewrite flats_cons, toks_len_app. unfold item_len. split; [lia|done]. }
  destruct it as [|n data|name' its']; [done..|].
  destruct (name_matches s name') eqn:Hm; [|done]. intros [= <- <- <-].
  exists [], items. cbn. split; [done|]. split; [lia|done].
Qed.

(** ** Paths *)

Lemma comps_slashes p : path_comps p = path_comps (drop_slashes p).
Proof.
  unfold path_comps. induction p as [|c p IH]; [done|]. cbn [comps drop_slashes].
  case_bool_decide as Hc; [done|]. cbn [comps]. by rewrite bool_decide_eq_false_2.
Qed.

Lemma comps_break cur p a r :
  break_slash p = (a, r) -> cur ++ a <> [] -> comps cur p = (cur ++ a) :: path_comps r.
Proof.
  revert cur a. induction p as [|c p IH]; intros cur a; cbn [break_slash comps].
  - intros [= <- <-] Hn. rewrite app_nil_r in *. by destruct cur.
  - case_bool_decide as Hc.
    + intros [= <- <-] Hn. rewrite app_nil_r in *. unfold path_comps. cbn [comps].
      rewrite bool_decide_eq_true_2 by done. by destruct cur.
    + destruct (break_slash p) as [a' r'] eqn:Eb. intros [= <- <-] _.
      rewrite (IH (cur ++ [c]) a' eq_refl); [by rewrite <- app_assoc|by destruct cur].
Qed.

Lemma drop_slashes_head p c q : drop_slashes p = c :: q -> c <> "/"%byte.
Proof.
  induction p as [|b p IH]; [done|]. cbn [drop_slashes].
  case_bool_decide as Hb; [done|]. by intros [= <- <-].
Qed.

Lemma break_slash_len p a r : break_slash p = (a, r) -> length p = (length a + length r)%nat.
Proof.
  revert a. induction p as [|c p IH]; intros a; cbn [break_slash]; [by intros [= <- <-]|].
  case_bool_decide; [by intros [= <- <-]|].
  destruct (break_slash p) as [a' r'] eqn:E. intros [= <- <-]. cbn. f_equal. by apply IH.
Qed.

Lemma drop_slashes_len p : (length (drop_slashes p) <= length p)%nat.
Proof. induction p as [|c p IH]; [done|]. cbn [drop_slashes]. case_bool_decide; cbn; lia. Qed.

Section nav.
Context (m : mem) (fdt : Z) (h : header) (ts : list tok) (strs : list byte).
Context (Ht : tree_at m fdt h ts strs).

Let Hst : struct_at m fdt h ts := ta_struct _ _ _ _ _ Ht.
Let Hb : blob m fdt h := sa_blob _ _ _ _ Hst.
Let Hh : hdr_at m fdt h := blob_hdr _ _ _ Hb.

(** ** Names *)

Lemma node_name_at pre name rest :
  ts = pre ++ TBegin name :: rest ->
  bytes_at m (saddr fdt h (toks_len pre) + 4) (name ++ [x00]) /\ no_nul name /\
  zlen name <= INT_MAX - 13.
Proof using Ht.
  intros E. destruct (struct_tok _ _ _ _ Hst _ _ _ E) as (Hok & Hat & _).
  split; [by apply tok_begin_at|]. split; [done|].
  pose proof (struct_bound _ _ _ _ Hst _ _ E) as [H0 H1]. cbn [toks_len tok_len] in H1.
  pose proof (toks_len_nonneg rest). tok_bounds. lia.
Qed.

Lemma fdt_get_name_at pre name rest :
  ts = pre ++ TBegin name :: rest ->
  fdt_get_name m fdt (toks_len pre) = Ret (Some (saddr fdt h (toks_len pre) + 4), zlen name).
Proof using Ht.
  intros E. destruct (node_name_at _ _ _ E) as (Hat & Hnn & Hlen). unfold fdt_get_name. rd Hh.
  rewrite (fdt_ro_probe_at _ _ _ _ _ Ht). cbn [rbind].
  pose proof (total_nonneg _ _ _ _ _ Ht). destruct (Z.ltb_spec (h_totalsize h) 0); [lia|].
  rewrite (check_node_at _ _ _ _ Hst _ _ _ E). cbn [rbind].
  pose proof (toks_len_nonneg pre). pose proof (tok_len_ge (TBegin name)).
  destruct (Z.ltb_spec (toks_len pre + tok_len (TBegin name)) 0); [lia|]. noassume.
  pose proof (ta_version _ _ _ _ _ Ht). destruct (Z.ltb_spec (h_version h) 16); [lia|].
  unfold nh_name. pose proof (zlen_nonneg name).
  rewrite (strlen_at _ _ _ Hat Hnn) by (unfold loop_bound, zlen in *; ilia). cbn [rbind].
  by rewrite s32_small by (unfold zlen in *; ilia).
Qed.

Lemma fdt_nodename_eq_at pre name rest s :
  ts = pre ++ TBegin name :: rest ->
  fdt_nodename_eq_ m fdt (toks_len pre) s = Ret (name_matches s name).
Proof using Ht.
  intros E. destruct (node_name_at _ _ _ E) as (Hat & Hnn & Hlen). unfold fdt_nodename_eq_, name_matches.
  rewrite (fdt_get_name_at _ _ _ E). cbn [rbind].
  destruct (Z.ltb_spec (zlen name) (Z.of_nat (length s))) as [Hlt|Hge].
  { rewrite bool_decide_eq_false_2; [done|]. intros Hts. unfold zlen in Hlt.
    rewrite <- Hts, length_take in Hlt. lia. }
  assert (Hls : (length s <= length name)%nat) by (unfold zlen in *; lia).
  rewrite <- (take_drop (length s) name), <- app_assoc in Hat.
  apply bytes_at_app in Hat as [Hp Hr].
  rewrite length_take, Nat.min_l in Hr by done.
  rewrite (memcmp_eq_at _ _ _ _ Hp) by (rewrite length_take; lia). cbn [rbind].
  case_bool_decide; [|done]. cbn [negb].
  destruct (drop (length s) name) as [|c r] eqn:Ed; apply bytes_at_cons in Hr as [Hc _];
    rewrite (ld8_at _ _ _ Hc); cbn [rbind andb].
  { by rewrite bool_decide_eq_true_2. }
  rewrite (bool_decide_eq_false_2 (c = x00)); [by destruct (_ && _)|].
  intros ->. apply Hnn. rewrite <- (take_drop (length s) name), Ed. set_solver.
Qed.

(** ** One step of the walk *)

(** From the node after [pre] at depth [d], [fdt_next_node] skips to where
    [scan_stop] says. *)
Lemma next_node_steps pre name rest d :
  ts = pre ++ TBegin name :: rest -> 0 <= d < INT_MAX ->
  exists mid rest' d' r,
    rest = mid ++ rest' /\ 0 <= d' <= d /\
    skips rest (toks_len pre + tok_len (TBegin name)) d rest' (toks_len (pre ++ TBegin name :: mid)) d' /\
    scan_stop d' (toks_len (pre ++ TBegin name :: mid)) rest' r /\
    fdt_next_node m fdt (toks_len pre) (Some d) = Ret (r.1, Some r.2).
Proof using Ht.
  intros E Hd. rewrite (fdt_next_node_at _ _ _ _ Hst _ _ _ _ E) by ilia. cbn zeta.
  destruct (scan_skips rest (toks_len pre + tok_len (TBegin name)) d) as (rest' & o' & d' & Hs & Hstop); [lia|].
  destruct (skips_mid _ _ _ _ _ _ Hs) as (mid & -> & ->).
  pose proof (skips_depth _ _ _ _ _ _ Hs ltac:(lia)) as Hd'.
  assert (Ho : toks_len pre + tok_len (TBegin name) + toks_len mid = toks_len (pre ++ TBegin name :: mid)).
  { rewrite toks_len_app. cbn [toks_len]. lia. }
  rewrite Ho in Hs, Hstop. by exists mid, rest', d', (scan (mid ++ rest') (toks_len pre + tok_len (TBegin name)) d).
Qed.

(** A round of such a walk that ends in [fdt_next_node]. *)
Lemma walk_continue {A B} (F : list tok -> Z -> Z -> A) v pre name r d (Q : B -> Prop) :
  (forall ts o d ts' o' d', skips ts o d ts' o' d' -> F ts o d = F ts' o' d') ->
  ts = pre ++ TBegin name :: r -> 0 <= d <= toks_len pre + 1 ->
  F r (toks_len pre + tok_len (TBegin name)) d = v ->
  wp total (let! '(o', d') := fdt_next_node m fdt (toks_len pre) (Some d) in
            Ret (Continue (o', default d d')))
    (fun c => match c with
              | Continue s' => exists mid rest', mid <> [] /\ TBegin name :: r = mid ++ rest' /\
                                 walk_inv F v (pre ++ mid) rest' s'
              | Break a => Q a
              end).
Proof using Ht.
  intros HF E Hd Hv. pose proof (struct_bound _ _ _ _ Hst _ _ E) as [H0 H1].
  pose proof (toks_len_nonneg (TBegin name :: r)).
  destruct (next_node_steps _ _ _ d E) as (mid & rest' & d' & q & -> & Hd' & Hsk & Hstop & ->); [lia|].
  apply HF in Hsk. rewrite Hv in Hsk. cbn [rbind wp default from_option id].
  exists (TBegin name :: mid), rest'. split; [done|]. split; [done|].
  assert (Hlen : toks_len pre + 4 <= toks_len (pre ++ TBegin name :: mid)).
  { rewrite toks_len_app. cbn [toks_len]. pose proof (toks_len_nonneg mid).
    pose proof (tok_len_ge (TBegin name)). lia. }
  destruct Hstop as [|name' r'|r' ->]; cbn [fst snd].
  - right; left. cbn [fst snd]. split; [done|]. split; [lia|]. by eexists _, _.
  - left. exists name', r'. cbn [fst snd]. split; [done|]. split; [done|]. split; [lia|].
    by replace (d' + 1 - 1) with d' by lia.
  - right; right. cbn [fst snd]. split; [done|]. split; [lia|]. exists r'.
    by replace (toks_len (pre ++ TBegin name :: mid) + 4 - 4) with (toks_len (pre ++ TBegin name :: mid)) by lia.
Qed.

Lemma walk_start {A} (F : list tok -> Z -> Z -> A) pre name rest :
  F (TBegin name :: rest) (toks_len pre) (-1) = F rest (body_off (toks_len pre) name) 0 ->
  walk_inv F (F rest (body_off (toks_len pre) name) 0) pre (TBegin name :: rest) (toks_len pre, 0).
Proof using.
  intros H. left. exists name, rest. pose proof (toks_len_nonneg pre). cbn [fst snd].
  split; [done|]. split; [done|]. split; [lia|done].
Qed.

(** ** Children and ends *)

Lemma fdt_subnode_offset_namelen_at pre name rest s :
  ts = pre ++ TBegin name :: rest ->
  fdt_subnode_offset_namelen m fdt (toks_len pre) s =
    Ret (find_sub s rest (body_off (toks_len pre) name) 0).
Proof using Ht.
  intros E. unfold fdt_subnode_offset_namelen. rewrite (ro_probe_at _ _ _ _ _ Ht (fun e => e)).
  apply wp_total_eq. eapply (toks_loop_wp _ _ _ _ Hst (walk_inv (find_sub s) _));
    [exact E|by apply walk_start|].
  intros pre' rest' [o d] E' [(name' & r & -> & Ho & Hd & Hv)|[(Ho & Hd & ? & ? & Hv)|(Hd & Ho & r & Hv)]];
    cbn [fst snd] in *; subst o || subst d.
  - destruct (Z.leb_spec 0 (toks_len pre')); [|lia]. destruct (Z.leb_spec 0 d); [|lia]. cbn [andb rbind].
    rewrite (fdt_nodename_eq_at _ _ _ _ E'). cbn [find_sub] in Hv.
    replace (d - 1 =? 0) with (d =? 1) in Hv by (destruct (Z.eqb_spec d 1), (Z.eqb_spec (d - 1) 0); lia).
    replace (d - 1 + 1) with d in Hv by lia.
    destruct (d =? 1); cbn [andb rbind] in *; [destruct (name_matches s name'); [done|]|];
      (eapply walk_continue; [apply skips_find_sub|done|lia|done]).
  - rewrite <- Hv. destruct (Z.ltb_spec d 0); [lia|done].
  - rewrite <- Hv. rewrite andb_false_r. done.
Qed.

Lemma fdt_node_end_offset_at pre name rest :
  ts = pre ++ TBegin name :: rest ->
  fdt_node_end_offset_ m fdt (toks_len pre) = Ret (end_off rest (body_off (toks_len pre) name) 0).
Proof using Ht.
  intros E. unfold fdt_node_end_offset_.
  apply wp_total_eq. eapply (toks_loop_wp _ _ _ _ Hst (walk_inv end_off _));
    [exact E|by apply walk_start|].
  intros pre' rest' [o d] E' [(name' & r & -> & Ho & Hd & Hv)|[(Ho & Hd & ? & ? & Hv)|(Hd & Ho & r & Hv)]];
    cbn [fst snd] in *; subst o || subst d.
  - destruct (Z.leb_spec 0 (toks_len pre')); [|lia]. destruct (Z.leb_spec 0 d); [|lia]. cbn [andb].
    cbn [end_off] in Hv. replace (d - 1 + 1) with d in Hv by lia.
    eapply walk_continue; [apply skips_end_off|done|lia|done].
  - rewrite <- Hv. done.
  - rewrite <- Hv, andb_false_r. cbn. change (0 - 1 <? 0) with true. cbv iota. lia.
Qed.

Lemma fdt_first_subnode_at pre name rest :
  ts = pre ++ TBegin name :: rest ->
  fdt_first_subnode m fdt (toks_len pre) = Ret (next_sub rest (body_off (toks_len pre) name) 0).
Proof using Ht.
  intros E. unfold fdt_first_subnode.
  destruct (next_node_steps _ _ _ 0 E) as (mid & rest' & d' & q & -> & Hd' & Hsk & Hstop & ->); [ilia|].
  apply skips_next_sub in Hsk. unfold body_off. rewrite Hsk. cbn [rbind].
  assert (d' = 0) by lia; subst d'. pose proof (toks_len_nonneg (pre ++ TBegin name :: mid)).
  destruct Hstop as [|name' r'|r' _]; cbn [fst snd].
  - done.
  - destruct (Z.ltb_spec (toks_len (pre ++ TBegin name :: mid)) 0); [lia|done].
  - rewrite bool_decide_eq_false_2 by done. cbn [negb]. by rewrite orb_true_r.
Qed.

Lemma fdt_next_subnode_at pre name rest :
  ts = pre ++ TBegin name :: rest ->
  fdt_next_subnode m fdt (toks_len pre) = Ret (next_sub rest (body_off (toks_len pre) name) 1).
Proof using Ht.
  intros E. unfold fdt_next_subnode. apply wp_total_eq.
  apply (toks_loop_wp _ _ _ _ Hst (fun pre' rest' st => exists name' r, rest' = TBegin name' :: r /\
    st.1 = toks_len pre' /\ 1 <= st.2 <= toks_len pre' + 1 /\
    next_sub r (body_off (toks_len pre') name') st.2 = next_sub rest (body_off (toks_len pre) name) 1)
    _ pre (TBegin name :: rest)); [done| |].
  { exists name, rest. pose proof (toks_len_nonneg pre). cbn [fst snd]. split; [done|]. split; [done|].
    split; [lia|done]. }
  intros pre' rest' [o d] E' (name' & r & -> & Ho & Hd & Hv). cbn [fst snd] in *. subst o.
  pose proof (struct_bound _ _ _ _ Hst _ _ E') as [H0 H1].
  pose proof (toks_len_nonneg (TBegin name' :: r)).
  destruct (next_node_steps _ _ _ d E') as (mid & rest2 & d' & q & -> & Hd' & Hsk & Hstop & ->); [lia|].
  apply skips_next_sub in Hsk. unfold body_off in *. rewrite Hsk in Hv.
  cbn [rbind default from_option id]. pose proof (toks_len_nonneg (pre' ++ TBegin name' :: mid)) as Hp.
  destruct Hstop as [|name2 r2|r2 Hz]; cbn [fst snd].
  - by rewrite <- Hv.
  - destruct (Z.ltb_spec (toks_len (pre' ++ TBegin name' :: mid)) 0); [lia|].
    destruct (Z.ltb_spec (d' + 1) 1); [lia|]. cbn [orb]. cbn [next_sub] in Hv.
    destruct (Z.ltb_spec 1 (d' + 1)) as [Hl|Hl].
    + destruct (Z.eqb_spec d' 0); [lia|]. cbn [wp]. exists (TBegin name' :: mid), (TBegin name2 :: r2).
      split; [done|]. split; [done|]. exists name2, r2. cbn [fst snd]. split; [done|]. split; [done|].
      split; [|done]. rewrite toks_len_app. cbn [toks_len]. pose proof (tok_len_ge (TBegin name')).
      pose proof (toks_len_nonneg mid). lia.
    + destruct (Z.eqb_spec d' 0); [|lia]. by rewrite <- Hv.
  - rewrite Hz in Hv. rewrite <- Hv. rewrite orb_true_r. done.
Qed.

(** ** Paths *)

(** Children found by name are nodes of the block. *)
Lemma child_in_block pre name items post s o' name' items' :
  ts = pre ++ flat (INode name items) ++ post ->
  child s items (body_off (toks_len pre) name) = Some (o', name', items') ->
  exists pre' post', ts = pre' ++ flat (INode name' items') ++ post' /\ o' = toks_len pre'.
Proof using.
  intros E (i1 & i2 & -> & -> & _)%child_split.
  exists (pre ++ TBegin name :: flats i1), (flats i2 ++ TEnd :: post). split.
  - rewrite E. cbn [flat app]. fold (flats (i1 ++ INode name' items' :: i2)).
    rewrite flats_app, flats_cons. cbn [flat app]. fold (flats items').
    repeat (rewrite <- app_assoc; cbn [app]). done.
  - rewrite toks_len_app. unfold body_off. cbn [toks_len]. lia.
Qed.

Lemma fdt_path_walk_at p pre name items post :
  ts = pre ++ flat (INode name items) ++ post ->
  Z.of_nat (length p) < Z.pos loop_bound - 1 ->
  fdt_path_walk m fdt (toks_len pre) p = Ret (lookup_path (path_comps p) (toks_len pre) name items).
Proof using Ht.
  intros E Hlen. unfold fdt_path_walk. apply wp_total_eq.
  apply (wp_loop total (fun '(o, q) => (length q <= length p)%nat /\ exists pre' name' items' post',
      ts = pre' ++ flat (INode name' items') ++ post' /\ o = toks_len pre' /\
      lookup_path (path_comps q) o name' items' = lookup_path (path_comps p) (toks_len pre) name items)
    (fun '(_, q) => Z.of_nat (length q))).
  { split; [done|]. by exists pre, name, items, post. }
  { intros [o q] [Hq _]. lia. }
  intros [o q] (Hq & pre' & name' & items' & post' & E' & -> & <-).
  destruct q as [|c0 q0]; [done|]. rewrite comps_slashes. pose proof (drop_slashes_len (c0 :: q0)) as Hdl.
  destruct (drop_slashes (c0 :: q0)) as [|c q] eqn:Ed; [done|].
  destruct (break_slash (c :: q)) as [comp r] eqn:Eb. pose proof (break_slash_len _ _ _ Eb) as Hbl.
  assert (Hcomp : comp <> []).
  { cbn [break_slash] in Eb. rewrite bool_decide_eq_false_2 in Eb by (by eapply drop_slashes_head).
    destruct (break_slash q). by injection Eb as <- _. }
  unfold path_comps. rewrite (comps_break [] _ _ _ Eb Hcomp). cbn [app lookup_path].
  cbn [flat] in E'. fold (flats items') in E'. cbn [app] in E'. pose proof E' as E2. rewrite <- app_assoc in E2.
  rewrite (fdt_subnode_offset_namelen_at _ _ _ comp E2). cbn [rbind app].
  rewrite find_sub_items.
  destruct (child comp items' (body_off (toks_len pre') name')) as [[[o2 n2] i2]|] eqn:Ec; [|done].
  destruct (child_in_block _ _ _ _ _ _ _ _ E' Ec) as (pre2 & post2 & E3 & ->).
  pose proof (toks_len_nonneg pre2). destruct (Z.ltb_spec (toks_len pre2) 0); [lia|]. cbn [wp].
  split; [split; [lia|]; by exists pre2, n2, i2, post2|].
  destruct comp; [done|]. cbn [length] in *. lia.
Qed.

(** An absolute path is looked up from the root, at offset 0. *)
Lemma fdt_path_offset_depth_at depth p name items post :
  ts = flat (INode name items) ++ post ->
  head p = Some "/"%byte -> Z.of_nat (length p) < Z.pos loop_bound - 1 ->
  fdt_path_offset_depth (S depth) m fdt p = Ret (lookup_path (path_comps p) 0 name items).
Proof using Ht.
  intros E Hp Hlen. unfold fdt_path_offset_depth.
  cbn [fdt_path_offset_namelen]. rewrite (ro_probe_at _ _ _ _ _ Ht (fun e => e)).
  destruct p as [|c p]; [done|]. injection Hp as ->. cbn [app lookup list_lookup nonnull rbind].
  rewrite bool_decide_eq_true_2 by done. cbn [negb].
  rewrite Nat2Z.id, app_comm_cons, take_app_length. by apply (fdt_path_walk_at _ [] _ _ post).
Qed.

Lemma fdt_path_offset_at p name items post :
  ts = flat (INode name items) ++ post ->
  head p = Some "/"%byte -> Z.of_nat (length p) < Z.pos loop_bound - 1 ->
  fdt_path_offset m fdt p = Ret (lookup_path (path_comps p) 0 name items).
Proof using Ht. exact (fdt_path_offset_depth_at 999 p name items post). Qed.
End nav.

(** ** The walk over what a node holds *)

Section node_items.
Context (m : mem) (fdt : Z) (h : header) (strs : list byte).
Context (pre post : list tok) (nm : list byte) (items : list item).
Context (Ht : tree_at m fdt h (pre ++ flat (INode nm items) ++ post) strs).

Let body : Z := body_off (toks_len pre) nm.

Lemma item_place a it b :
  items = a ++ it :: b ->
  pre ++ flat (INode nm items) ++ post =
    (pre ++ TBegin nm :: flats a) ++ flat it ++ (flats b ++ TEnd :: post) /\
  body + toks_len (flats a) = toks_len (pre ++ TBegin nm :: flats a).
Proof using.
  intros E. split.
  - rewrite E, flat_node_app, flats_app, flats_cons, <- app_assoc. cbn [app]. rewrite <- !app_assoc. done.
  - rewrite toks_len_app. unfold body, body_off. cbn [toks_len]. lia.
Qed.

Lemma first_subnode_item : fdt_first_subnode m fdt (toks_len pre) = Ret (first_off (children items body)).
Proof using Ht.
  rewrite (fdt_first_subnode_at _ _ _ _ _ Ht pre nm (flats items ++ TEnd :: post)) by apply f_equal, flat_node_app.
  by rewrite next_sub_items.
Qed.

Lemma next_subnode_item a cn ci b :
  items = a ++ INode cn ci :: b ->
  let o := body + toks_len (flats a) in
  fdt_next_subnode m fdt o = Ret (first_off (children b (o + item_len (INode cn ci)))).
Proof using Ht.
  intros E o. destruct (item_place _ _ _ E) as [Ep Eo]. unfold o. rewrite (flat_node_app cn ci) in Ep. rewrite Eo.
  rewrite (fdt_next_subnode_at _ _ _ _ _ Ht _ _ _ Ep), next_sub_after, item_len_node. unfold body_off.
  do 3 f_equal. lia.
Qed.

Lemma first_property_item :
  fdt_first_property_offset m fdt (toks_len pre) = Ret (next_prop (flats items ++ TEnd :: post) body).
Proof using Ht.
  apply (first_property_at _ _ _ _ _ Ht pre nm). apply f_equal, flat_node_app.
Qed.

Lemma next_property_item a no d b :
  items = a ++ IProp no d :: b ->
  let o := body + toks_len (flats a) in
  fdt_next_property_offset m fdt o = Ret (next_prop (flats b ++ TEnd :: post) (o + item_len (IProp no d))).
Proof using Ht.
  intros E o. destruct (item_place _ _ _ E) as [Ep Eo]. unfold o. rewrite Eo.
  rewrite (next_property_at _ _ _ _ _ Ht _ _ _ _ Ep). unfold item_len. cbn [flat toks_len]. by rewrite Z.add_0_r.
Qed.
End node_items.

(** ** The node a path leads to: what it holds, and the tree with that changed. *)

(** The first subnode that matches [name], and what is around it. *)
Fixpoint split_child (name : list byte) (items : list item)
    : option (list item * list byte * list item * list item) :=
  match items with
  | [] => None
  | INode nm its :: items =>
    if name_matches name nm then Some ([], nm, its, items)
    else '(a, nm', its', b) ← split_child name items; Some (INode nm its :: a, nm', its', b)
  | it :: items => '(a, nm', its', b) ← split_child name items; Some (it :: a, nm', its', b)
  end.

Lemma split_child_child name items o :
  child name items o = '(a, nm, its, _) ← split_child name items; Some (o + toks_len (flats a), nm, its).
Proof.
  revert o. induction items as [|it items IH]; intros o; [done|].
  destruct it as [|no d|nm its]; cbn [child split_child]; [| |destruct (name_matches name nm)];
    try (cbn; by rewrite Z.add_0_r); rewrite IH;
    destruct (split_child name items) as [[[[a nm'] its'] b]|]; cbn [mbind option_bind]; try done;
    rewrite flats_cons, toks_len_app; unfold item_len; do 3 f_equal; lia.
Qed.

Lemma split_child_Some name items a nm its b :
  split_child name items = Some (a, nm, its, b) -> items = a ++ INode nm its :: b.
Proof.
  revert a. induction items as [|it items IH]; intros a; [done|].
  destruct it as [|no d|nm' its']; cbn [split_child]; [| |destruct (name_matches name nm')];
    try (by intros [= <- <- <- <-]);
    destruct (split_child name items) as [[[[a1 nm1] its1] b1]|]; try done; cbn [mbind option_bind];
    intros [= <- <- <- <-]; by rewrite (IH _ eq_refl).
Qed.

(** A child replaced is found where it was. *)
Lemma split_child_set name items a nm its its' b :
  split_child name items = Some (a, nm, its, b) -> split_child name (a ++ INode nm its' :: b) = Some (a, nm, its', b).
Proof.
  revert a. induction items as [|it items IH]; intros a; [done|].
  destruct it as [|no d|nm' its1]; cbn [split_child]; [| |destruct (name_matches name nm') eqn:E].
  3: by intros [= <- <- <- <-]; cbn; rewrite E.
  all: destruct (split_child name items) as [[[[a1 nm1] its1'] b1]|]; try done; cbn [mbind option_bind];
    intros [= <- <- <- <-]; cbn [app split_child]; rewrite ?E, (IH _ eq_refl); done.
Qed.

(** What the node at the end of the path holds. *)
Fixpoint items_at (comps : list (list byte)) (items : list item) : option (list item) :=
  match comps with
  | [] => Some items
  | c :: comps => '(_, _, its, _) ← split_child c items; items_at comps its
  end.

(** [f] for what it holds. *)
Fixpoint edit_at (comps : list (list byte)) (f : list item -> list item) (items : list item) : list item :=
  match comps with
  | [] => f items
  | c :: comps =>
    match split_child c items with
    | Some (a, nm, its, b) => a ++ INode nm (edit_at comps f its) :: b
    | None => items
    end
  end.

Lemma items_edit_at comps f items its :
  items_at comps items = Some its -> items_at comps (edit_at comps f items) = Some (f its).
Proof.
  revert items. induction comps as [|c comps IH]; intros items; cbn [items_at edit_at]; [by intros [= <-]|].
  destruct (split_child c items) as [[[[a nm] its1] b]|] eqn:E; [|done]. cbn [mbind option_bind]. intros H.
  rewrite (split_child_set _ _ _ _ _ _ _ E). cbn [mbind option_bind]. by apply IH.
Qed.

(** The node is somewhere in the tokens, where the path is resolved to, and the
    tree that is changed there differs in its tokens only. *)
Lemma node_at_path comps name items its : items_at comps items = Some its ->
  exists pre nm post, flat (INode name items) = pre ++ flat (INode nm its) ++ post /\
    (forall o, lookup_path comps o name items = o + toks_len pre) /\
    (forall f, flat (INode name (edit_at comps f items)) = pre ++ flat (INode nm (f its)) ++ post).
Proof.
  revert name items. induction comps as [|c comps IH]; intros name items; cbn [items_at edit_at lookup_path].
  - intros [= ->]. exists [], name, []. split; [by rewrite app_nil_r|]. split; [cbn; intros; lia|].
    intros f. by rewrite app_nil_r.
  - destruct (split_child c items) as [[[[a nm] its1] b]|] eqn:E; [|done]. cbn [mbind option_bind]. intros H.
    destruct (IH nm its1 H) as (pre & nm' & post & E1 & E2 & E3).
    pose proof (split_child_Some _ _ _ _ _ _ E) as ->.
    assert (forall X, flat (INode name (a ++ INode nm X :: b)) =
      (TBegin name :: flats a) ++ flat (INode nm X) ++ flats b ++ [TEnd]) as Hx.
    { intros X. pose proof (flat_node_app name (a ++ INode nm X :: b) []) as F. rewrite !app_nil_r in F.
      rewrite F, flats_app, flats_cons. cbn [app]. by rewrite <- !app_assoc. }
    exists ((TBegin name :: flats a) ++ pre), nm', (post ++ flats b ++ [TEnd]).
    split; [rewrite Hx, E1, <- !app_assoc; done|]. split.
    + intros o. rewrite split_child_child, E. cbn [mbind option_bind]. rewrite E2, toks_len_app. unfold body_off.
      cbn [toks_len]. lia.
    + intros f. rewrite Hx, E3, <- !app_assoc. done.
Qed.

Lemma no_node_at_path comps name items o : items_at comps items = None -> lookup_path comps o name items = - FDT_ERR_NOTFOUND.
Proof.
  revert name items o. induction comps as [|c comps IH]; intros name items o; [done|]. cbn [items_at lookup_path].
  rewrite split_child_child. destruct (split_child c items) as [[[[a nm] its] b]|]; [|done]. cbn [mbind option_bind]. apply IH.
Qed.
