(* ===== verification/FdtCheckSpec.v ===== *)
(** What [fdt_check_full] accepts: the tokens the structure block parses as,
    and which sequences of items pass. *)
From S2P Require Import Prelude Monad Memory Libfdt Fdt FdtSpec FdtTree FdtRo FdtCheck FdtSafe FdtWip FdtRead.
From S2P Require Import FdtNav.

(** ** Reachable offsets *)

(** Offsets the tag walker reaches from the beginning of the block. *)
Inductive tag_reach (m : mem) (fdt : Z) (h : header) : Z -> Prop :=
| reach_start : tag_reach m fdt h 0
| reach_step o tag next :
    tag_reach m fdt h o -> tag_step m fdt h o tag next -> tag <> FDT_END -> tag_reach m fdt h next.

(** ** The tokens accepted *)

(** [fdt_check_full] over tokens: the depth, and whether the root is closed. *)
Fixpoint check_toks (strs : list byte) (ts : list tok) (d : Z) (closed : bool) : Z :=
  match ts with
  | [] => if negb (d =? 0) then - FDT_ERR_BADSTRUCTURE else 0
  | t :: ts =>
    if closed then - FDT_ERR_BADSTRUCTURE else
    match t with
    | TNop => check_toks strs ts d closed
    | TBegin name =>
      if (d =? 0) && negb (bool_decide (name = [])) then - FDT_ERR_BADSTRUCTURE
      else check_toks strs ts (d + 1) closed
    | TEnd =>
      if d =? 0 then - FDT_ERR_BADSTRUCTURE
      else check_toks strs ts (d - 1) (if d - 1 =? 0 then true else closed)
    | TProp nameoff _ =>
      match strs_get strs nameoff with
      | Some _ => check_toks strs ts d closed
      | None => if (0 <=? nameoff) && (nameoff <? zlen strs) then - FDT_ERR_TRUNCATED
                else - FDT_ERR_BADOFFSET
      end
    end
  end.

(** Every property name is a string of the strings block. *)
Definition names_ok (strs : list byte) (ts : list tok) : Prop :=
  Forall (fun t => match t with TProp nameoff _ => is_Some (strs_get strs nameoff) | _ => True end) ts.

(** What can come before the root: NOPs, and properties of no node. *)
Definition loose (it : item) : Prop :=
  match it with INode _ _ => False | _ => True end.

(** The items of an accepted structure block: at most one root, unnamed and
    last. The code asks for no root, and accepts properties before it. *)
Definition root_shape (items : list item) : Prop :=
  exists pre root, items = pre ++ root /\ Forall loose pre /\
    (root = [] \/ exists its, root = [INode [] its]).

(** The headers [fdt_check_header] accepts. *)
Definition header_ok (fdt : Z) (h : header) : Prop :=
  let hs := fdt_header_size_ (h_version h) in
  Z.land fdt 7 = 0 /\ h_magic h = FDT_MAGIC /\
  (FDT_FIRST_SUPPORTED_VERSION <= h_version h /\ h_last_comp h <= FDT_LAST_SUPPORTED_VERSION) /\
  h_last_comp h <= h_version h /\
  (hs <= h_totalsize h <= INT_MAX) /\
  (hs <= h_off_rsv h <= h_totalsize h) /\
  (hs <= h_off_struct h /\
   h_off_struct h + (if h_version h <? 17 then 0 else h_size_struct h) <= h_totalsize h) /\
  (hs <= h_off_strings h /\ h_off_strings h + h_size_strings h <= h_totalsize h).

(** The state of the walk of [fdt_check_full]: the tokens read so far. *)
Definition parse_inv (m : mem) (fdt : Z) (h : header) (st : check_state) : Prop :=
  exists ts, toks_at m (saddr fdt h 0) ts /\ cs_nextoffset st = toks_len ts /\
    toks_len ts <= INT_MAX - 1 /\ tag_reach m fdt h (toks_len ts) /\ 0 <= cs_depth st <= toks_len ts.

(** What [fdt_check_full] promises when it returns 0: the header and the
    reserve map are sound, and the structure block holds items whose property
    names are strings of the strings block. *)
Definition accepted (m : mem) (fdt : Z) (h : header) (bufsize : Z) : Prop :=
  header_ok fdt h /\ h_totalsize h <= bufsize /\
  (exists n, 0 <= n /\ fdt_num_mem_rsv m fdt = Ret n) /\
  exists items strs, tree_at m fdt h (flats items) strs /\ root_shape items /\
    names_ok strs (flats items).

(** The same, and the structure block is one unnamed root with what is in it. *)
Definition accepted_tree (m : mem) (fdt : Z) (h : header) (bufsize : Z) : Prop :=
  header_ok fdt h /\ h_totalsize h <= bufsize /\
  (exists n, 0 <= n /\ fdt_num_mem_rsv m fdt = Ret n) /\
  exists items strs, tree_at m fdt h (flat (INode [] items)) strs /\ names_ok strs (flat (INode [] items)).

(** A block that starts with a node is accepted as a tree or not at all. *)
Lemma accepted_rooted m fdt h bufsize :
  ld32 m (saddr fdt h 0) = Ret FDT_BEGIN_NODE -> accepted m fdt h bufsize <-> accepted_tree m fdt h bufsize.
Proof.
  intros Hb. split.
  - intros (H1 & H2 & H3 & items & strs & Ht & (pre & root & -> & Hpre & Hroot) & Hn).
    split; [done|]. split; [done|]. split; [done|]. pose proof (ta_struct _ _ _ _ _ Ht) as Hst.
    assert (pre = []) as ->.
    { destruct pre as [|it pre]; [done|]. apply Forall_cons in Hpre as [Hit _]. exfalso.
      pose proof (sa_toks _ _ _ _ Hst) as Hts. rewrite <- app_comm_cons in Hts. cbn [flats flat_map] in Hts.
      destruct it as [|no d|n its]; [| |done]; cbn [flat app] in Hts; destruct Hts as (_ & Hat & _);
        apply tok_ld in Hat; rewrite Hat in Hb; discriminate Hb. }
    cbn [app] in Ht, Hn. destruct Hroot as [->|[its ->]].
    + exfalso. pose proof (sa_end _ _ _ _ Hst) as He. apply ld32_at in He. cbn [app flats flat_map toks_len] in He.
      rewrite He in Hb. discriminate Hb.
    + exists its, strs. unfold flats in Ht, Hn. cbn [flat_map] in Ht, Hn. by rewrite app_nil_r in Ht, Hn.
  - intros (H1 & H2 & H3 & items & strs & Ht & Hn). split; [done|]. split; [done|]. split; [done|].
    exists [INode [] items], strs. unfold flats. cbn [flat_map]. rewrite app_nil_r.
    split; [done|]. split; [|done]. exists [], [INode [] items]. split; [done|]. split; [constructor|]. right. by exists items.
Qed.

(** ** A step of the walker reads a token *)

Lemma load_list m a n :
  valid m a n -> 0 <= n -> exists l, zlen l = n /\ bytes_at m a l.
Proof.
  intros Hv Hn. destruct (load_valid m a (Z.to_nat n)) as (l & _ & Hl & Hat); [by rewrite Z2Nat.id|].
  exists l. split; [unfold zlen; lia|done].
Qed.

Lemma tag_step_inv_tok m fdt h start tag next :
  blob m fdt h -> 0x10 <= h_version h -> len_ok m fdt h start -> 0 <= start -> start mod 4 = 0 ->
  tag_step m fdt h start tag next -> tag <> FDT_END ->
  exists t, tag = tok_tag t /\ next = start + tok_len t /\ tok_ok t /\
    bytes_at m (saddr fdt h start) (tok_enc t).
Proof.
  intros Hb Hv HL Hs Hal Hst Hne. pose proof (blob_room _ _ _ Hb).
  destruct Hst as [|Hs' Hbad|off H1 H2 H3 H4 H5|len off H1 H2 H3 H4 H5 H6|tag H1 H2 H3]; [done|done|..].
  - pose proof H2 as (J1 & J2 & _)%in_struct_true.
    destruct (load_list m (saddr fdt h (start + 4)) (off - 1 - (start + 4))) as (name & Hlen & Hat); [|lia|].
    { eapply (in_struct_valid _ _ _ Hb start _ _ _ H2); unfold saddr; lia. }
    exists (TBegin name). split; [done|]. split; [|split].
    + cbn [tok_len]. replace off with (start + (4 + (zlen name + 1))) by lia.
      rewrite align_up_4_add by done. f_equal. by apply align_up_4_add.
    + cbn [tok_ok]. intros (i & Hi)%list_elem_of_lookup. pose proof (lookup_lt_Some _ _ _ Hi).
      apply (H5 (start + 4 + Z.of_nat i)); [unfold zlen in *; lia|]. rewrite saddr_add. by apply Hat.
    + cbn [tok_enc]. apply bytes_at_app. split; [by apply ld32_inv|]. rewrite be_enc32_length.
      change (Z.of_nat 4) with 4. rewrite <- saddr_add. apply bytes_at_appz. split; [done|].
      apply bytes_at_cons. split; [|apply bytes_at_nil]. rewrite <- saddr_add. rewrite Hlen.
      rewrite <- H4. f_equal. f_equal. lia.
  - specialize (H6 HL). pose proof (ld32_range _ _ _ H2) as Hlr. unfold prop_pad in H6.
    destruct (Z.ltb_spec (h_version h) 16); [lia|]. cbn [andb] in H6. subst off.
    pose proof H4 as (J1 & J2 & _)%in_struct_true.
    destruct (ld32_valid m (saddr fdt h start + 8)) as (no & Hno & Hnr).
    { eapply (in_struct_valid _ _ _ Hb start _ _ _ H4); unfold saddr; ilia. }
    destruct (load_list m (saddr fdt h (start + 12)) len) as (data & Hdl & Hat); [|ilia|].
    { eapply (in_struct_valid _ _ _ Hb start _ _ _ H4); unfold saddr; lia. }
    exists (TProp no data). split; [done|]. split; [|split; [done|]].
    + cbn [tok_len]. rewrite Hdl. replace (start + 12 + len + 0) with (start + (12 + len)) by lia.
      rewrite align_up_4_add by done. f_equal. by apply align_up_4_add.
    + cbn [tok_enc]. rewrite !bytes_at_app, !be_enc32_length. change (Z.of_nat 4) with 4.
      replace (saddr fdt h start + 4 + 4) with (saddr fdt h start + 8) by lia.
      split; [by apply ld32_inv|]. split; [|split].
      * rewrite Hdl, <- saddr_add. by apply ld32_inv.
      * by apply ld32_inv.
      * replace (saddr fdt h start + 8 + 4) with (saddr fdt h (start + 12)) by (unfold saddr; lia). done.
  - destruct H2 as [ -> | [ -> | -> ] ]; [done|exists TEnd|exists TNop]; cbn [tok_tag tok_len tok_ok tok_enc];
      rewrite align_up_4_add by done; (split; [done|]; split; [done|]; split; [done|]; by apply ld32_inv).
Qed.

(** ** The header *)

Lemma check_block_eq hs total base size :
  is_u32 base -> is_u32 size -> is_u32 total -> 0 <= hs ->
  check_block_ hs total base size = (hs <=? base) && (base + size <=? total).
Proof.
  intros Hb Hs Ht Hh. unfold check_block_, check_off_. rewrite u32_add_wrap by done.
  destruct (Z.leb_spec hs base); cbn [andb negb]; [|done].
  destruct (Z.leb_spec base total), (Z.leb_spec (base + size) UINT32_MAX),
    (Z.leb_spec (base + size) total); cbn [andb negb]; try done; try ilia.
  - rewrite u32_small by ilia. destruct (Z.leb_spec hs (base + size)); [|ilia].
    by destruct (Z.leb_spec (base + size) total); [|lia].
  - rewrite u32_small by ilia. destruct (Z.leb_spec (base + size) total); [lia|]. by rewrite andb_false_r.
Qed.

Lemma fdt_header_size_pos v : 28 <= fdt_header_size_ v <= 40.
Proof.
  unfold fdt_header_size_, FDT_V17_SIZE, FDT_V16_SIZE, FDT_V3_SIZE, FDT_V2_SIZE, FDT_V1_SIZE.
  repeat case_match; lia.
Qed.

(** A test of the header that must pass for the result to be 0. *)
Lemma check_step (b : bool) (P R : Prop) e (k : res Z) :
  (b = false <-> P) -> (k = Ret 0 <-> R) -> e <> 0 ->
  (if b then Ret e else k) = Ret 0 <-> P /\ R.
Proof.
  intros HP HR He. destruct b.
  - split; [by intros [= ?]|]. intros [HP' _]. by apply HP in HP'.
  - rewrite HR. tauto.
Qed.

Lemma fdt_check_header_iff m fdt h :
  hdr_at m fdt h -> fdt_check_header m fdt = Ret 0 <-> header_ok fdt h.
Proof.
  intros Hh. hdr_ranges Hh. pose proof (fdt_header_size_pos (h_version h)) as Hs.
  unfold fdt_check_header, fdt_header_size. rd Hh. noassume. unfold header_ok. cbn zeta.
  apply check_step; [by rewrite negb_false_iff, Z.eqb_eq| |elia].
  apply check_step; [by rewrite negb_false_iff, Z.eqb_eq| |elia].
  apply check_step; [by rewrite orb_false_iff, !Z.ltb_ge| |elia].
  apply check_step; [by rewrite Z.ltb_ge| |elia].
  apply check_step; [by rewrite orb_false_iff, !Z.ltb_ge| |elia].
  apply check_step; [unfold check_off_; by rewrite negb_false_iff, andb_true_iff, !Z.leb_le| |elia].
  assert (Hso : (if h_version h <? 17
      then Ret (check_off_ (fdt_header_size_ (h_version h)) (h_totalsize h) (h_off_struct h))
      else Ret (check_block_ (fdt_header_size_ (h_version h)) (h_totalsize h) (h_off_struct h) (h_size_struct h)))
    = Ret ((fdt_header_size_ (h_version h) <=? h_off_struct h) &&
        (h_off_struct h + (if h_version h <? 17 then 0 else h_size_struct h) <=? h_totalsize h))).
  { destruct (h_version h <? 17).
    - unfold check_off_. by rewrite Z.add_0_r.
    - rewrite check_block_eq by (done || lia). done. }
  rewrite Hso. clear Hso. cbn [rbind].
  apply check_step; [by rewrite negb_false_iff, andb_true_iff, !Z.leb_le| |elia].
  rewrite check_block_eq by (done || lia).
  destruct (_ && _) eqn:E; cbn [negb].
  - apply andb_true_iff in E. rewrite !Z.leb_le in E. by split.
  - split; [discriminate|]. intros E'. rewrite <- !Z.leb_le, <- andb_true_iff in E'. congruence.
Qed.

Lemma fdt_check_header_ret m fdt h :
  hdr_at m fdt h -> exists e, fdt_check_header m fdt = Ret e /\ is_s32 e.
Proof.
  intros Hh. apply wp_total_ex. unfold fdt_check_header, fdt_header_size. rd Hh. noassume.
  repeat (match goal with |- context [if ?c then _ else _] => destruct c end; cbn [wp rbind]; try elia).
Qed.

(** ** The reserve map *)

Lemma fdt_mem_rsv_eq m fdt h n :
  hdr_at m fdt h -> 16 <= h_totalsize h <= INT_MAX -> 0 <= n < 2 ^ 28 ->
  fdt_mem_rsv m fdt n =
    Ret (if h_off_rsv h + 16 * n + 16 <=? h_totalsize h then Some (fdt + h_off_rsv h + 16 * n) else None).
Proof.
  intros Hh Ht Hn. hdr_ranges Hh. unfold fdt_mem_rsv, sizeof_fdt_reserve_entry. rd Hh. noassume.
  rewrite (u32_small (n * 16)) by ilia. rewrite u32_add_wrap by ilia.
  destruct (Z.leb_spec (h_off_rsv h + n * 16) UINT32_MAX); cbn [negb rbind].
  2:{ by destruct (Z.leb_spec (h_off_rsv h + 16 * n + 16) (h_totalsize h)); [ilia|]. }
  rd Hh. rewrite u32_small by ilia. rewrite u64_small by ilia.
  destruct (Z.ltb_spec (h_totalsize h - 16) (h_off_rsv h + n * 16)),
    (Z.leb_spec (h_off_rsv h + 16 * n + 16) (h_totalsize h)); try lia; cbn [rbind]; [done|].
  unfold fdt_mem_rsv_. rd Hh. do 2 f_equal. unfold sizeof_fdt_reserve_entry. lia.
Qed.

Lemma fdt_num_mem_rsv_wp m fdt h :
  blob m fdt h -> 16 <= h_totalsize h ->
  wp total (fdt_num_mem_rsv m fdt) (fun r => r = - FDT_ERR_TRUNCATED \/ 0 <= r <= INT_MAX).
Proof.
  intros Hb Ht. pose proof (blob_hdr _ _ _ Hb) as Hh. pose proof (blob_size _ _ _ Hb). hdr_ranges Hh.
  unfold fdt_num_mem_rsv.
  apply (wp_loop total (fun i => 0 <= i /\ 16 * i <= INT_MAX) (fun i => INT_MAX - i)); [ilia| |].
  { intros i ?. unfold loop_bound. ilia. }
  intros i Hi. rewrite (fdt_mem_rsv_eq _ _ _ _ Hh) by ilia. cbn [rbind].
  destruct (Z.leb_spec (h_off_rsv h + 16 * i + 16) (h_totalsize h)); [|by left].
  unfold fdt64_ld_, re_size.
  destruct (ld64_valid m (fdt + h_off_rsv h + 16 * i + 8)) as [sz ->].
  { eapply valid_sub; [apply (blob_valid _ _ _ Hb)| |]; ilia. }
  cbn [rbind]. destruct (sz =? 0); [right; ilia|]. rewrite sint_small by ilia. cbn. ilia.
Qed.

(** ** The tokens accepted are those of a tree *)

Lemma names_ok_app strs ts1 ts2 : names_ok strs (ts1 ++ ts2) <-> names_ok strs ts1 /\ names_ok strs ts2.
Proof. apply Forall_app. Qed.

Lemma names_ok_cons strs t ts :
  names_ok strs (t :: ts) <->
    match t with TProp nameoff _ => is_Some (strs_get strs nameoff) | _ => True end /\ names_ok strs ts.
Proof. apply Forall_cons. Qed.

Lemma check_closed strs ts d : check_toks strs ts d true = 0 -> ts = [].
Proof. by destruct ts. Qed.

Lemma bad_name_code (c : bool) : (if c then - FDT_ERR_TRUNCATED else - FDT_ERR_BADOFFSET) <> 0.
Proof. by destruct c. Qed.

(** Inside a node, the tokens up to its end are items. *)
Lemma check_toks_items strs n ts d :
  (length ts <= n)%nat -> 1 <= d -> check_toks strs ts d false = 0 ->
  exists items ts', ts = flats items ++ TEnd :: ts' /\ names_ok strs (flats items) /\
    (length ts' < length ts)%nat /\
    (if d =? 1 then ts' = [] else check_toks strs ts' (d - 1) false = 0).
Proof.
  revert ts d. induction n as [|n IH]; intros ts d Hn Hd Hc; destruct ts as [|t ts]; cbn [length] in *; try lia;
    cbn [check_toks] in Hc.
  1,2: by destruct (Z.eqb_spec d 0); [lia|].
  destruct t as [name| |nameoff data|].
  - destruct (Z.eqb_spec d 0); [lia|]. cbn [andb] in Hc.
    destruct (IH ts (d + 1)) as (its & ts1 & -> & Hn1 & Hl1 & Hc1); [lia|lia|done|].
    destruct (Z.eqb_spec (d + 1) 1); [lia|]. replace (d + 1 - 1) with d in Hc1 by lia.
    destruct (IH ts1 d) as (items & ts2 & -> & Hn2 & Hl2 & Hc2); [lia|lia|done|].
    exists (INode name its :: items), ts2. rewrite flats_cons. cbn [flat]. fold (flats its).
    split; [cbn [app]; repeat (rewrite <- app_assoc; cbn [app]); done|].
    split; [|split; [lia|done]]. unfold names_ok in *. cbn [app]. rewrite <- app_assoc.
    rewrite Forall_cons, Forall_app. cbn [app]. by rewrite Forall_cons.
  - exists [], ts. split; [done|]. split; [constructor|]. split; [lia|].
    destruct (Z.eqb_spec d 0); [lia|]. destruct (Z.eqb_spec d 1), (Z.eqb_spec (d - 1) 0); try lia.
    by eapply check_closed.
  - destruct (strs_get strs nameoff) as [s|] eqn:Es; [|by apply bad_name_code in Hc].
    destruct (IH ts d) as (items & ts' & -> & Hn1 & Hl1 & Hc1); [lia|lia|done|].
    exists (IProp nameoff data :: items), ts'. split; [done|]. split; [|split; [lia|done]].
    apply names_ok_cons. by rewrite Es.
  - destruct (IH ts d) as (items & ts' & -> & Hn1 & Hl1 & Hc1); [lia|lia|done|].
    exists (INop :: items), ts'. split; [done|]. split; [|split; [lia|done]]. by apply names_ok_cons.
Qed.

Lemma check_toks_sound strs ts :
  check_toks strs ts 0 false = 0 ->
  exists items, ts = flats items /\ root_shape items /\ names_ok strs ts.
Proof.
  induction ts as [|t ts IH]; intros Hc.
  - exists []. split; [done|]. split; [|constructor]. exists [], []. split; [done|]. split; [constructor|by left].
  - assert (Hrec : check_toks strs ts 0 false = 0 -> forall it, loose it -> flat it = [t] -> names_ok strs [t] ->
      exists items, t :: ts = flats items /\ root_shape items /\ names_ok strs (t :: ts)).
    { intros Hc' it Hl Hf Hno. destruct (IH Hc') as (items & -> & (pre & root & -> & Hp & Hr) & Hn).
      exists (it :: pre ++ root). split; [by rewrite flats_cons, Hf|]. split.
      - exists (it :: pre), root. split; [done|]. split; [by constructor|done].
      - by apply (names_ok_app _ [t]). }
    destruct t as [name| |nameoff data|]; cbn [check_toks Z.eqb andb] in Hc.
    + case_bool_decide as Hname; [subst name|done]. cbn [negb] in Hc.
      destruct (check_toks_items strs (length ts) ts 1) as (its & ts' & -> & Hn & _ & ->); [done|lia|done|].
      exists [INode [] its]. split; [unfold flats; cbn; by rewrite app_nil_r|]. split.
      * exists [], [INode [] its]. split; [done|]. split; [constructor|right; eauto].
      * apply names_ok_cons. split; [done|]. apply names_ok_app. split; [done|]. by repeat constructor.
    + done.
    + destruct (strs_get strs nameoff) as [s|] eqn:Es; [|by apply bad_name_code in Hc].
      apply (Hrec Hc (IProp nameoff data)); [done|done|]. apply names_ok_cons. split; [by rewrite Es|constructor].
    + apply (Hrec Hc INop); [done|done|]. apply names_ok_cons. split; [done|constructor].
Qed.

Lemma check_toks_flat strs it ts d :
  names_ok strs (flat it) -> 1 <= d -> check_toks strs (flat it ++ ts) d false = check_toks strs ts d false.
Proof.
  revert ts d. induction it as [|nameoff data|name items IH] using item_ind'; intros ts d Hn Hd.
  - done.
  - apply names_ok_cons in Hn as [[s Hs] _]. cbn [flat app check_toks]. by rewrite Hs.
  - cbn [flat app check_toks] in *. fold (flats items) in *. destruct (Z.eqb_spec d 0); [lia|]. cbn [andb].
    apply names_ok_cons in Hn as [_ [Hn _]%names_ok_app]. rewrite <- app_assoc.
    assert (Hl : forall ts, check_toks strs (flats items ++ ts) (d + 1) false = check_toks strs ts (d + 1) false).
    { revert Hn. induction IH as [|it items Hit _ IHl]; intros Hn ts'; [done|].
      rewrite flats_cons in Hn. apply names_ok_app in Hn as [Hn1 Hn2].
      rewrite flats_cons, <- app_assoc, Hit by (done || lia). by apply IHl. }
    rewrite Hl. cbn [app check_toks]. destruct (Z.eqb_spec (d + 1) 0); [lia|].
    destruct (Z.eqb_spec (d + 1 - 1) 0); [lia|]. by replace (d + 1 - 1) with d by lia.
Qed.

Lemma check_toks_complete strs items :
  root_shape items -> names_ok strs (flats items) -> check_toks strs (flats items) 0 false = 0.
Proof.
  intros (pre & root & -> & Hp & Hr) Hn. rewrite flats_app in *.
  induction Hp as [|it pre Hit _ IH].
  - destruct Hr as [->|[its ->]]; [done|]. cbn [flats flat_map flat app] in *. rewrite app_nil_r in *.
    fold (flats its) in *. cbn [app check_toks Z.eqb andb negb]. rewrite bool_decide_eq_true_2 by done.
    cbn [negb Z.add]. apply names_ok_cons in Hn as [_ [Hn _]%names_ok_app].
    assert (Hl : forall its ts, names_ok strs (flats its) ->
        check_toks strs (flats its ++ ts) 1 false = check_toks strs ts 1 false).
    { clear. induction its as [|it its IH]; intros ts Hn; [done|]. rewrite flats_cons in *.
      apply names_ok_app in Hn as [Hn1 Hn2]. rewrite <- app_assoc, check_toks_flat by (done || lia).
      by apply IH. }
    by rewrite Hl.
  - rewrite flats_cons in *. rewrite <- app_assoc in *. destruct it as [|nameoff data|]; [..|done];
      cbn [flat app] in *; apply names_ok_cons in Hn as [Hn1 Hn2]; specialize (IH Hn2); cbn [check_toks].
    + done.
    + by destruct Hn1 as [s ->].
Qed.

(** ** The walk of [fdt_check_full] over tokens *)

Section check_tree.
Context (m : mem) (fdt : Z) (h : header) (ts : list tok) (strs : list byte).
Context (Ht : tree_at m fdt h ts strs).

Let Hst : struct_at m fdt h ts := ta_struct _ _ _ _ _ Ht.
Let Hb : blob m fdt h := sa_blob _ _ _ _ Hst.
Let Hh : hdr_at m fdt h := blob_hdr _ _ _ Hb.

Lemma strs_get_code nameoff :
  is_u32 nameoff -> strs_get strs nameoff = None ->
  (if (0 <=? s32 nameoff) && (s32 nameoff <? zlen strs) then - FDT_ERR_TRUNCATED else - FDT_ERR_BADOFFSET) =
  (if (0 <=? nameoff) && (nameoff <? zlen strs) then - FDT_ERR_TRUNCATED else - FDT_ERR_BADOFFSET).
Proof using Ht.
  intros Hn _. pose proof (ta_strs_room _ _ _ _ _ Ht). pose proof (ta_total _ _ _ _ _ Ht).
  pose proof (hdr_u32 _ _ _ Hh f_off_dt_strings) as Ho. cbn [hdr_get] in Ho.
  destruct (decide (nameoff <= INT_MAX)); [by rewrite s32_small by ilia|].
  assert (s32 nameoff < 0).
  { unfold s32. replace (nameoff + 2147483648) with (nameoff - 2147483648 + 1 * 4294967296) by lia.
    rewrite Z.mod_add, Z.mod_small by ilia. ilia. }
  destruct (Z.leb_spec 0 (s32 nameoff)); [lia|]. destruct (Z.ltb_spec nameoff (zlen strs)); [ilia|].
  by rewrite andb_false_r.
Qed.

Lemma getprop_by_offset_at pre nameoff data rest :
  ts = pre ++ TProp nameoff data :: rest ->
  fdt_getprop_by_offset m fdt (toks_len pre) true =
    Ret match strs_get strs nameoff with
        | Some _ => (Some (saddr fdt h (toks_len pre) + 12), Some (fdt + h_off_strings h + nameoff), zlen data)
        | None => (None, None, if (0 <=? nameoff) && (nameoff <? zlen strs) then - FDT_ERR_TRUNCATED
                               else - FDT_ERR_BADOFFSET)
        end.
Proof using Ht.
  intros E. unfold fdt_getprop_by_offset.
  rewrite (get_property_by_offset_at _ _ _ _ _ Ht _ _ _ _ E). cbn [rbind].
  destruct (struct_tok _ _ _ _ Hst _ _ _ E) as (Hok & (_ & Hno & _)%tok_prop_at & _).
  unfold fdt32_ld_ at 1, prop_nameoff. rewrite Hno. cbn [rbind tok_ok] in *. noassume.
  rewrite (u32_small nameoff) by done.
  rewrite (fdt_get_string_at _ _ _ _ _ Ht) by apply s32_range. cbn [rbind].
  rewrite (strs_get_s32 _ _ _ _ _ Ht) by done.
  destruct (strs_get strs nameoff) as [s|] eqn:Es; cbn [is_null rbind].
  - rd Hh. noassume. pose proof (ta_version _ _ _ _ _ Ht). destruct (Z.ltb_spec (h_version h) 16); [lia|].
    cbn [andb rbind]. unfold prop_data. rewrite s32_small; [done|].
    apply strs_get_Some in Es as (Hp0 & _ & p & r & Hs & ->). pose proof (ta_strs_room _ _ _ _ _ Ht) as Hr.
    pose proof (ta_total _ _ _ _ _ Ht). pose proof (hdr_u32 _ _ _ Hh f_off_dt_strings) as Ho. cbn [hdr_get] in Ho.
    rewrite Hs, !zlen_app in Hr. pose proof (zlen_nonneg s). pose proof (zlen_nonneg (x00 :: r)). ilia.
  - by rewrite strs_get_code.
Qed.

Lemma check_loop_at :
  loop (fdt_check_full_body m fdt) (CheckState 0 0 false) = Ret (check_toks strs ts 0 false).
Proof using Ht.
  apply wp_total_eq.
  apply (toks_loop_wp _ _ _ _ Hst (fun pre rest st => exists d e, st = CheckState (toks_len pre) d e /\
    0 <= d <= toks_len pre /\ check_toks strs rest d e = check_toks strs ts 0 false) _ [] ts); [done|by exists 0, false|].
  intros pre rest st E (d & e & -> & Hd & <-). pose proof (struct_bound _ _ _ _ Hst _ _ E) as [H0 H1].
  pose proof (toks_len_nonneg rest) as Hr. unfold fdt_check_full_body. destruct rest as [|t rest].
  - rewrite app_nil_r in E. rewrite <- E in *. rewrite (fdt_next_tag_end _ _ _ _ Hst). cbn [rbind].
    destruct (Z.ltb_spec (toks_len ts + 4) 0); [lia|]. cbn.
    by rewrite andb_false_r; destruct (d =? 0).
  - rewrite (fdt_next_tag_at _ _ _ _ Hst _ _ _ E). cbn [rbind]. pose proof (tok_len_ge t) as Hge.
    destruct (Z.ltb_spec (toks_len pre + tok_len t) 0); [lia|].
    assert (Hne : (tok_tag t =? FDT_END) = false) by (by destruct t). rewrite Hne. cbn [negb check_toks].
    rewrite andb_true_r. destruct e; [done|]. destruct t as [name| |nameoff data|].
    + cbn. rewrite u32_small by ilia. destruct (Z.ltb_spec INT_MAX (d + 1)); [ilia|].
      replace (d + 1 =? 1) with (d =? 0) by (destruct (Z.eqb_spec d 0), (Z.eqb_spec (d + 1) 1); lia).
      destruct (d =? 0); cbn [rbind andb].
      * rewrite (fdt_get_name_at _ _ _ _ _ Ht _ _ _ E). cbn [rbind nonnull].
        destruct (node_name_at _ _ _ _ _ Ht _ _ _ E) as (Hat & Hnn & _).
        destruct name as [|c name]; cbn [app] in Hat; apply bytes_at_cons in Hat as [Hc _];
          rewrite (ld8_at _ _ _ Hc); cbn [rbind].
        -- rewrite !bool_decide_eq_true_2 by done. cbn. one_tok. exists (d + 1), false.
           rewrite toks_len_snoc. split; [done|]. split; [lia|done].
        -- rewrite bool_decide_eq_false_2; [done|]. intros ->. apply Hnn. set_solver.
      * one_tok. exists (d + 1), false. rewrite toks_len_snoc. split; [done|]. split; [lia|done].
    + cbn. destruct (Z.eqb_spec d 0); [done|]. one_tok. exists (d - 1), (if d - 1 =? 0 then true else false).
      rewrite toks_len_snoc. split; [done|]. split; [cbn; lia|done].
    + cbn [tok_tag Z.eqb Pos.eqb FDT_NOP FDT_END FDT_BEGIN_NODE FDT_END_NODE FDT_PROP].
      rewrite (getprop_by_offset_at _ _ _ _ E). cbn [rbind].
      destruct (strs_get strs nameoff); cbn [is_null]; [|done]. one_tok. exists d, false.
      rewrite toks_len_snoc. split; [done|]. split; [lia|done].
    + cbn. one_tok. exists d, false. rewrite toks_len_snoc. split; [done|]. split; [cbn; lia|done].
Qed.
End check_tree.

(** ** From the bytes to the tokens *)

Section parse.
Context (m : mem) (fdt : Z) (h : header) (Hb : blob m fdt h).
Context (Hok : header_ok fdt h) (Hv : 17 <= h_version h) (Htot : h_totalsize h < INT_MAX).
Context (Hlen : forall o, tag_reach m fdt h o -> len_ok m fdt h o).

Let Hh : hdr_at m fdt h := blob_hdr _ _ _ Hb.

Lemma reach_sane : sane_blob m fdt h (tag_reach m fdt h).
Proof using All.
  constructor; [done|apply Hok|intros o tag next ???; by eapply reach_step|done|apply reach_start].
Qed.

Lemma probe_ok : fdt_ro_probe_ m fdt = Ret (h_totalsize h).
Proof using All.
  destruct Hok as (Ha & Hm & [Hf Hl] & _). unfold fdt_ro_probe_. rd Hh. noassume.
  rewrite Ha, Hm, !Z.eqb_refl. cbn [negb].
  destruct (Z.ltb_spec (h_version h) FDT_FIRST_SUPPORTED_VERSION); [lia|].
  destruct (Z.ltb_spec FDT_LAST_SUPPORTED_VERSION (h_last_comp h)); [lia|]. unfold INT32_MAX.
  by destruct (Z.ltb_spec (h_totalsize h) INT_MAX); [|lia].
Qed.

(** At a tag just read, the name is there. *)
Lemma get_name_begin o next :
  is_s32 o -> 0 <= o -> o mod 4 = 0 -> 0 <= next -> tag_reach m fdt h o ->
  fdt_next_tag m fdt o = Ret (FDT_BEGIN_NODE, next) ->
  wp total (fdt_get_name m fdt o) (fun '(p, len) => exists a, p = Some a /\ cstr_in m a len).
Proof using All.
  intros Ho H0 Hal Hn HP Hnt.
  eapply wp_mono; [apply (wp_and total _ _ (fun r => r.1 <> None)
    (fdt_get_name_wp _ _ _ _ reach_sane _ Ho HP))|].
  - unfold fdt_get_name. rd Hh. rewrite probe_ok. cbn [rbind].
    destruct Hok as (_ & _ & _ & _ & [Hs _] & _). pose proof (fdt_header_size_pos (h_version h)).
    destruct (Z.ltb_spec (h_totalsize h) 0); [lia|].
    unfold fdt_check_node_offset_. noassume. destruct (Z.ltb_spec o 0); [lia|].
    unfold FDT_TAGSIZE. rewrite Hal, Hnt. cbn [orb negb Z.eqb rbind Pos.eqb FDT_BEGIN_NODE].
    destruct (Z.ltb_spec next 0); [lia|]. noassume. destruct (Z.ltb_spec (h_version h) 16); [lia|].
    assert (Hstep : tag_step m fdt h o FDT_BEGIN_NODE next).
    { pose proof (fdt_next_tag_wp _ _ _ Hb total o Ho (or_intror (Hlen _ HP))) as W.
      by rewrite Hnt in W. }
    destruct (node_name_in _ _ _ _ reach_sane o next) as (q & Hq & Hlt & Hz & Hval); [by repeat split|].
    unfold nh_name. eapply wp_seq.
    { apply (strlen_cstr m _ q); [lia|ilia| |done]. eapply valid_sub; eauto; lia. }
    intros n _. done.
  - intros [[a|] len] [H1 H2]; [eauto|done].
Qed.

(** The walk reads tokens as long as it goes on. *)
Lemma check_loop_parse :
  wp total (loop (fdt_check_full_body m fdt) (CheckState 0 0 false)) (fun r =>
    is_s32 r /\ (r = 0 -> exists ts, struct_at m fdt h ts)).
Proof using All.
  apply (wp_loop total (parse_inv m fdt h) (fun st => INT_MAX - cs_nextoffset st)).
  { exists []. cbn. split; [done|]. split; [done|]. split; [ilia|]. split; [apply reach_start|lia]. }
  { intros st (ts & _ & -> & Hle & _). pose proof (toks_len_nonneg ts). unfold loop_bound. ilia. }
  intros [nxt d e] (ts & Hts & Hnxt & Hle & HP & Hd). cbn [cs_nextoffset cs_depth] in *. subst nxt.
  pose proof (toks_len_nonneg ts) as H0. unfold fdt_check_full_body.
  eapply wp_seq_eq; [apply (fdt_next_tag_wp _ _ _ Hb); [ilia|auto]|]. intros [tag next] Hnt Hstep.
  destruct (tag_step_next _ _ _ Hb _ _ _ Hstep H0) as (Hn32 & Hneg & Hpos).
  destruct (Z.ltb_spec next 0) as [Hlt|Hge]; [cbn; split; [done|lia]|].
  destruct (Hpos Hge) as (Hal & Hr & Hprog). specialize (Hprog (Hlen _ HP)).
  destruct (e && negb (tag =? FDT_END)); [cbn; elia|].
  destruct (Z.eqb_spec tag FDT_END) as [->|Hne].
  { change (FDT_END =? FDT_NOP) with false. cbv iota. destruct (negb (d =? 0)); [cbn; elia|].
    split; [ilia|]. intros _. exists ts.
    inversion Hstep as [Hs|Hs|off Hs|len off Hs|tag Hs Ht Hin]; subst; [by cbv in Hge..|].
    constructor; [done|lia|done|by apply ld32_inv|].
    apply in_struct_true in Hin as (? & ? & ?). apply in_struct_true. split; [lia|]. split; [lia|lia]. }
  destruct (tag_step_inv_tok _ _ _ _ _ _ Hb ltac:(lia) (Hlen _ HP) H0 (toks_len_mod ts) Hstep Hne)
    as (t & -> & -> & Htok & Hat).
  assert (Hcont : forall d' e', 0 <= d' <= d + 1 ->
    parse_inv m fdt h (CheckState (toks_len ts + tok_len t) d' e') /\
    INT_MAX - (toks_len ts + tok_len t) < INT_MAX - toks_len ts).
  { intros d' e' Hd'. split; [|lia]. exists (ts ++ [t]). cbn [cs_nextoffset cs_depth].
    rewrite toks_len_snoc. split; [|split; [done|split; [lia|split; [by eapply reach_step|lia]]]].
    apply toks_at_app. split; [done|]. rewrite <- saddr_add. by repeat split. }
  destruct (tok_tag t =? FDT_NOP); [apply Hcont; lia|].
  destruct (Z.eqb_spec (tok_tag t) FDT_BEGIN_NODE) as [Ht|_].
  { rewrite u32_small by ilia. destruct (INT_MAX <? d + 1); [cbn; elia|].
    eapply wp_seq with (P := fun _ => True).
    - destruct (d + 1 =? 1); [|done]. rewrite Ht in Hnt.
      eapply wp_seq; [apply (get_name_begin (toks_len ts) _ ltac:(ilia) H0 (toks_len_mod ts) Hge HP Hnt)|].
      intros [p len] (a & -> & Hl & _ & Hval & _). cbn [nonnull rbind].
      destruct (Hval 0 ltac:(lia)) as [c Hc]. rewrite Z.add_0_r in Hc. by rewrite (ld8_at _ _ _ Hc).
    - intros [] _; [cbn; elia|]. apply Hcont. lia. }
  destruct (tok_tag t =? FDT_END_NODE).
  { destruct (Z.eqb_spec d 0); [cbn; elia|]. apply Hcont. lia. }
  destruct (tok_tag t =? FDT_PROP); [|cbn; elia].
  eapply wp_seq; [apply (fdt_getprop_by_offset_wp _ _ _ _ reach_sane); [ilia|done]|].
  intros [[p nm] err] Hp. destruct p as [p|]; cbn [is_null]; [apply Hcont; lia|].
  destruct Hp. cbn. split; [done|lia].
Qed.
End parse.

Lemma tree_of_struct m fdt h ts :
  header_ok fdt h -> 17 <= h_version h -> h_totalsize h < INT_MAX -> struct_at m fdt h ts ->
  exists strs, tree_at m fdt h ts strs.
Proof.
  intros (Ha & Hm & [_ Hl] & _ & [Hs _] & _ & _ & [Ho1 Ho2]) Hv Htot Hst.
  pose proof (sa_blob _ _ _ _ Hst) as Hb. pose proof (blob_hdr _ _ _ Hb) as Hh. hdr_ranges Hh.
  pose proof (fdt_header_size_pos (h_version h)).
  destruct (load_list m (fdt + h_off_strings h) (h_size_strings h)) as (strs & Hlen & Hat); [|ilia|].
  - eapply valid_sub; [apply (blob_valid _ _ _ Hb)| |]; ilia.
  - exists strs. constructor; try done. lia.
Qed.

Lemma fdt_check_full_wp m fdt h bufsize :
  hdr_at m fdt h -> valid m fdt bufsize -> bufsize < INT_MAX -> 17 <= h_version h ->
  (forall o, tag_reach m fdt h o -> len_ok m fdt h o) ->
  wp total (fdt_check_full m fdt bufsize) (fun r => is_s32 r /\ (r = 0 <-> accepted m fdt h bufsize)).
Proof.
  intros Hh Hval Hmax Hv Hlen. unfold fdt_check_full, fdt_header_size. rd Hh. noassume.
  change FDT_V1_SIZE with 28.
  assert (Hhs : fdt_header_size_ (h_version h) = 40).
  { unfold fdt_header_size_. by destruct (Z.leb_spec (h_version h) 1), (Z.leb_spec (h_version h) 2),
      (Z.leb_spec (h_version h) 3), (Z.leb_spec (h_version h) 16); try lia. }
  assert (Hsmall : bufsize < 40 -> is_s32 (- FDT_ERR_TRUNCATED) /\ (- FDT_ERR_TRUNCATED = 0 <-> accepted m fdt h bufsize)).
  { intros Hlt. split; [elia|]. split; [intros; exfalso; elia|].
    intros ((_ & _ & _ & _ & [Hts _] & _) & ? & _). rewrite Hhs in Hts. lia. }
  destruct (Z.ltb_spec bufsize 28); [apply Hsmall; lia|]. cbn [rbind]. rewrite Hhs.
  destruct (Z.ltb_spec bufsize 40); [by apply Hsmall|]. clear Hsmall.
  destruct (fdt_check_header_ret m fdt h Hh) as (e & He & He32). rewrite He. cbn [rbind].
  assert (Hhdr : e = 0 <-> header_ok fdt h) by (rewrite <- (fdt_check_header_iff m fdt h Hh), He; split; [by intros ->|by intros [= ->]]).
  destruct (Z.eqb_spec e 0) as [He0|Hne]; cbn [negb].
  2:{ split; [done|]. unfold accepted. tauto. }
  apply proj1 in Hhdr as Hok. specialize (Hok He0). rd Hh.
  pose proof Hok as (_ & _ & _ & _ & [Hts Htm] & _ & [Hos _] & _). rewrite Hhs in Hts, Hos.
  destruct (Z.ltb_spec bufsize (h_totalsize h)) as [Hbig|Hfit].
  { cbn. split; [elia|]. split; [intros; exfalso; elia|]. intros (_ & ? & _). lia. }
  assert (Hb : blob m fdt h).
  { constructor; [done|eapply valid_sub; eauto; lia|lia|ilia]. }
  eapply wp_seq_eq; [apply (fdt_num_mem_rsv_wp _ _ _ Hb); lia|]. intros n Hn Hnr.
  destruct (Z.ltb_spec n 0) as [Hneg|Hpos].
  { destruct Hnr as [->|]; [|lia]. cbn. split; [elia|]. split; [intros; exfalso; elia|].
    intros (_ & _ & (n & ? & Hn') & _). rewrite Hn in Hn'. injection Hn' as <-. lia. }
  pose proof (check_loop_parse m fdt h Hb Hok Hv ltac:(lia) Hlen) as W.
  destruct (loop (fdt_check_full_body m fdt) (CheckState 0 0 false)) as [r|f] eqn:El; [|done].
  destruct W as [W1 W2]. split; [done|]. split.
  - intros Hr. destruct (W2 Hr) as [ts Hst].
    destruct (tree_of_struct _ _ _ _ Hok Hv ltac:(lia) Hst) as [strs Ht].
    rewrite (check_loop_at _ _ _ _ _ Ht) in El. injection El as Ec.
    destruct (check_toks_sound strs ts ltac:(congruence)) as (items & -> & Hsh & Hnm).
    split; [done|]. split; [done|]. split; [by exists n|]. by exists items, strs.
  - intros (_ & _ & _ & items & strs & Ht & Hsh & Hnm).
    rewrite (check_loop_at _ _ _ _ _ Ht) in El. injection El as <-. by apply check_toks_complete.
Qed.

(** In a well-formed block only token boundaries are reached. *)
Lemma reach_boundary m fdt h ts o :
  struct_at m fdt h ts -> tag_reach m fdt h o -> boundary ts o.
Proof.
  intros Hst. induction 1 as [|o tag next _ IH Hs Hne].
  - by exists [], ts.
  - by eapply boundary_closed.
Qed.

Lemma reach_len_ok m fdt h ts o :
  struct_at m fdt h ts -> tag_reach m fdt h o -> len_ok m fdt h o.
Proof. intros Hst Hr. eapply boundary_len_ok, reach_boundary; eauto. Qed.

(** A well-formed tree is a sane blob. *)
Lemma tree_sane m fdt h ts strs : tree_at m fdt h ts strs -> sane_blob m fdt h (boundary ts).
Proof.
  intros Ht. pose proof (ta_struct _ _ _ _ _ Ht) as Hst. constructor.
  - apply (sa_blob _ _ _ _ Hst).
  - apply (ta_magic _ _ _ _ _ Ht).
  - by apply boundary_closed.
  - intros o. by apply boundary_len_ok.
  - by exists [], ts.
Qed.
