(* ===== verification/FdtRw.v ===== *)
(** libfdt/fdt_rw.c: edits that move the blocks of the tree. *)
From S2P Require Import Prelude Monad Memory Libfdt Fdt FdtRo FdtWip.

Definition fdt_blocks_misordered_ (m : mem) (fdt mem_rsv_size struct_size : Z) : res bool :=
  let! off_rsv := fdt_off_mem_rsvmap m fdt in
  let! off_struct := fdt_off_dt_struct m fdt in
  let! off_strings := fdt_off_dt_strings m fdt in
  let! totalsize := fdt_totalsize m fdt in
  let! size_strings := fdt_size_dt_strings m fdt in
  Ret ((off_rsv <? FDT_ALIGN sizeof_fdt_header 8)
       || (off_struct <? u32 (off_rsv + mem_rsv_size))
       || (off_strings <? u32 (off_struct + struct_size))
       || (totalsize <? u32 (off_strings + size_strings))).

Definition fdt_rw_probe_ (m : mem) (fdt : Z) : res (Z * mem) :=
  if can_assume ASSUME_VALID_DTB then Ret (0, m) else
  let! e := fdt_ro_probe_ m fdt in
  if e <? 0 then Ret (e, m) else
  let! version := fdt_version m fdt in
  if negb (can_assume ASSUME_LATEST) && (version <? 17) then Ret (- FDT_ERR_BADVERSION, m) else
  let! size_struct := fdt_size_dt_struct m fdt in
  let! mis := fdt_blocks_misordered_ m fdt sizeof_fdt_reserve_entry (s32 size_struct) in
  if mis then Ret (- FDT_ERR_BADLAYOUT, m) else
  if negb (can_assume ASSUME_LATEST) && (17 <? version) then
    let! m := fdt_set_version m fdt 17 in
    Ret (0, m)
  else Ret (0, m).

(** [FDT_RW_PROBE(fdt)], before the rest [k] of the function. *)
Definition FDT_RW_PROBE (m : mem) (fdt : Z) (k : mem -> res (Z * mem)) : res (Z * mem) :=
  let! '(err, m) := fdt_rw_probe_ m fdt in
  if negb (err =? 0) then Ret (err, m) else k m.

Definition fdt_data_size_ (m : mem) (fdt : Z) : res Z :=
  let! off_strings := fdt_off_dt_strings m fdt in
  let! size_strings := fdt_size_dt_strings m fdt in
  Ret (u32 (off_strings + size_strings)).

Definition fdt_splice_ (m : mem) (fdt splicepoint oldlen newlen : Z) : res (Z * mem) :=
  let p := splicepoint in
  let! dsize := fdt_data_size_ m fdt in
  let soff := u64 (p - fdt) in
  if (oldlen <? 0) || (u64 (soff + oldlen) <? soff) || (dsize <? u64 (soff + oldlen))
  then Ret (- FDT_ERR_BADOFFSET, m) else
  if (p <? fdt) || (u32 (dsize + newlen) <? u32 oldlen) then Ret (- FDT_ERR_BADOFFSET, m) else
  let! totalsize := fdt_totalsize m fdt in
  if totalsize <? u32 (dsize - oldlen + newlen) then Ret (- FDT_ERR_NOSPACE, m) else
  let! m := memmove m (p + newlen) (p + oldlen) ((fdt + dsize) - (p + oldlen)) in
  Ret (0, m).

Definition fdt_splice_mem_rsv_ (m : mem) (fdt p oldn newn : Z) : res (Z * mem) :=
  let delta := s32 ((newn - oldn) * sizeof_fdt_reserve_entry) in
  let! '(err, m) := fdt_splice_ m fdt p (s32 (oldn * sizeof_fdt_reserve_entry))
                                        (s32 (newn * sizeof_fdt_reserve_entry)) in
  if negb (err =? 0) then Ret (err, m) else
  let! off_struct := fdt_off_dt_struct m fdt in
  let! m := fdt_set_off_dt_struct m fdt (u32 (off_struct + delta)) in
  let! off_strings := fdt_off_dt_strings m fdt in
  let! m := fdt_set_off_dt_strings m fdt (u32 (off_strings + delta)) in
  Ret (0, m).

Definition fdt_splice_struct_ (m : mem) (fdt p oldlen newlen : Z) : res (Z * mem) :=
  let! delta := sint (newlen - oldlen) in
  let! '(err, m) := fdt_splice_ m fdt p oldlen newlen in
  if negb (err =? 0) then Ret (err, m) else
  let! size_struct := fdt_size_dt_struct m fdt in
  let! m := fdt_set_size_dt_struct m fdt (u32 (size_struct + delta)) in
  let! off_strings := fdt_off_dt_strings m fdt in
  let! m := fdt_set_off_dt_strings m fdt (u32 (off_strings + delta)) in
  Ret (0, m).

(** Must only be used to roll back in case of error. *)
Definition fdt_del_last_string_ (m : mem) (fdt : Z) (s : list byte) : res mem :=
  let newlen := Z.of_nat (length s) + 1 in
  let! size_strings := fdt_size_dt_strings m fdt in
  fdt_set_size_dt_strings m fdt (u32 (size_strings - newlen)).

Definition fdt_splice_string_ (m : mem) (fdt newlen : Z) : res (Z * mem) :=
  let! off_strings := fdt_off_dt_strings m fdt in
  let! size_strings := fdt_size_dt_strings m fdt in
  let p := fdt + off_strings + size_strings in
  let! '(err, m) := fdt_splice_ m fdt p 0 newlen in
  if negb (err =? 0) then Ret (err, m) else
  let! size_strings := fdt_size_dt_strings m fdt in
  let! m := fdt_set_size_dt_strings m fdt (u32 (size_strings + newlen)) in
  Ret (0, m).

(** Returns the offset of the string or an error, and [*allocated]. *)
Definition fdt_find_add_string_ (m : mem) (fdt : Z) (s : list byte) : res (Z * bool * mem) :=
  let! off_strings := fdt_off_dt_strings m fdt in
  let strtab := fdt + off_strings in
  let len := Z.of_nat (length s) + 1 in
  let! size_strings := fdt_size_dt_strings m fdt in
  let! p := fdt_find_string_ m strtab (s32 size_strings) s in
  match p with
  | Some p => Ret (s32 (p - strtab), false, m) (* found it *)
  | None =>
    let new := strtab + size_strings in
    let! '(err, m) := fdt_splice_string_ m fdt len in
    if negb (err =? 0) then Ret (err, false, m) else
    let! m := store_bytes m new (s ++ [x00]) in
    Ret (s32 (new - strtab), true, m)
  end.

Definition fdt_add_mem_rsv (m : mem) (fdt address size : Z) : res (Z * mem) :=
  FDT_RW_PROBE m fdt (fun m =>
  let! n := fdt_num_mem_rsv m fdt in
  let! re := fdt_mem_rsv_w_ m fdt n in
  let! '(err, m) := fdt_splice_mem_rsv_ m fdt re 0 1 in
  if negb (err =? 0) then Ret (err, m) else
  let! m := st64 m (re_address re) address in
  let! m := st64 m (re_size re) size in
  Ret (0, m)).

Definition fdt_del_mem_rsv (m : mem) (fdt n : Z) : res (Z * mem) :=
  let! re := fdt_mem_rsv_w_ m fdt n in
  FDT_RW_PROBE m fdt (fun m =>
  let! num := fdt_num_mem_rsv m fdt in
  if num <=? n then Ret (- FDT_ERR_NOTFOUND, m) else
  fdt_splice_mem_rsv_ m fdt re 1 0).

(** Returns the error code and [*prop]. *)
Definition fdt_resize_property_ (m : mem) (fdt nodeoffset : Z) (name : list byte) (len : Z)
    : res (Z * option Z * mem) :=
  let! '(prop, oldlen) := fdt_get_property_w m fdt nodeoffset name in
  match prop with
  | None => Ret (oldlen, None, m)
  | Some prop =>
    let! '(err, m) := fdt_splice_struct_ m fdt (prop_data prop) (s32 (FDT_TAGALIGN oldlen))
                                         (s32 (FDT_TAGALIGN len)) in
    if negb (err =? 0) then Ret (err, Some prop, m) else
    let! m := st32 m (prop_len prop) len in
    Ret (0, Some prop, m)
  end.

(** Returns the error code and [*prop]. *)
Definition fdt_add_property_ (m : mem) (fdt nodeoffset : Z) (name : list byte) (len : Z)
    : res (Z * option Z * mem) :=
  let! nextoffset := fdt_check_node_offset_ m fdt nodeoffset in
  if nextoffset <? 0 then Ret (nextoffset, None, m) else
  let! '(namestroff, allocated, m) := fdt_find_add_string_ m fdt name in
  if namestroff <? 0 then Ret (namestroff, None, m) else
  let! prop := fdt_offset_ptr_w_ m fdt nextoffset in
  let proplen := s32 (sizeof_fdt_property + FDT_TAGALIGN len) in
  let! '(err, m) := fdt_splice_struct_ m fdt prop 0 proplen in
  if negb (err =? 0) then
    (* Delete the string if we failed to add it *)
    if negb (can_assume ASSUME_NO_ROLLBACK) && allocated then
      let! m := fdt_del_last_string_ m fdt name in
      Ret (err, Some prop, m)
    else Ret (err, Some prop, m)
  else
    let! m := st32 m (prop_tag prop) FDT_PROP in
    let! m := st32 m (prop_nameoff prop) namestroff in
    let! m := st32 m (prop_len prop) len in
    Ret (0, Some prop, m).

Definition fdt_set_name (m : mem) (fdt nodeoffset : Z) (name : list byte) : res (Z * mem) :=
  FDT_RW_PROBE m fdt (fun m =>
  let! '(namep, oldlen) := fdt_get_name m fdt nodeoffset in
  match namep with
  | None => Ret (oldlen, m)
  | Some namep =>
    let newlen := Z.of_nat (length name) in
    let! old1 := sint (oldlen + 1) in
    let! new1 := sint (newlen + 1) in
    let! '(err, m) := fdt_splice_struct_ m fdt namep (s32 (FDT_TAGALIGN old1))
                                         (s32 (FDT_TAGALIGN new1)) in
    if negb (err =? 0) then Ret (err, m) else
    let! m := store_bytes m namep (name ++ [x00]) in
    Ret (0, m)
  end).

(** Returns the error code and, on success, [*prop_data]. *)
Definition fdt_setprop_placeholder (m : mem) (fdt nodeoffset : Z) (name : list byte) (len : Z)
    : res (Z * option Z * mem) :=
  let! '(err, m) := fdt_rw_probe_ m fdt in
  if negb (err =? 0) then Ret (err, None, m) else
  let! '(err, prop, m) := fdt_resize_property_ m fdt nodeoffset name len in
  let! '(err, prop, m) :=
    if err =? - FDT_ERR_NOTFOUND then fdt_add_property_ m fdt nodeoffset name len
    else Ret (err, prop, m) in
  if negb (err =? 0) then Ret (err, None, m) else
  let! prop := nonnull prop in
  Ret (0, Some (prop_data prop), m).

(** [val] is the [len] bytes the caller passes. *)
Definition fdt_setprop (m : mem) (fdt nodeoffset : Z) (name val : list byte) : res (Z * mem) :=
  let len := Z.of_nat (length val) in
  let! '(err, prop_data, m) := fdt_setprop_placeholder m fdt nodeoffset name len in
  if negb (err =? 0) then Ret (err, m) else
  if negb (len =? 0) then
    let! prop_data := nonnull prop_data in
    let! m := store_bytes m prop_data val in
    Ret (0, m)
  else Ret (0, m).

Definition fdt_setprop_u32 (m : mem) (fdt nodeoffset : Z) (name : list byte) (val : Z)
    : res (Z * mem) :=
  fdt_setprop m fdt nodeoffset name (be_enc32 val).

Definition fdt_setprop_u64 (m : mem) (fdt nodeoffset : Z) (name : list byte) (val : Z)
    : res (Z * mem) :=
  fdt_setprop m fdt nodeoffset name (be_enc64 val).

Definition fdt_setprop_cell (m : mem) (fdt nodeoffset : Z) (name : list byte) (val : Z)
    : res (Z * mem) :=
  fdt_setprop_u32 m fdt nodeoffset name val.

Definition fdt_appendprop (m : mem) (fdt nodeoffset : Z) (name val : list byte) : res (Z * mem) :=
  let len := Z.of_nat (length val) in
  FDT_RW_PROBE m fdt (fun m =>
  let! '(prop, oldlen) := fdt_get_property_w m fdt nodeoffset name in
  match prop with
  | Some prop =>
    let! newlen := sint (len + oldlen) in
    let! '(err, m) := fdt_splice_struct_ m fdt (prop_data prop) (s32 (FDT_TAGALIGN oldlen))
                                         (s32 (FDT_TAGALIGN newlen)) in
    if negb (err =? 0) then Ret (err, m) else
    let! m := st32 m (prop_len prop) newlen in
    let! m := store_bytes m (prop_data prop + oldlen) val in
    Ret (0, m)
  | None =>
    let! '(err, prop, m) := fdt_add_property_ m fdt nodeoffset name len in
    if negb (err =? 0) then Ret (err, m) else
    let! prop := nonnull prop in
    let! m := store_bytes m (prop_data prop) val in
    Ret (0, m)
  end).

Definition fdt_appendprop_u32 (m : mem) (fdt nodeoffset : Z) (name : list byte) (val : Z)
    : res (Z * mem) :=
  fdt_appendprop m fdt nodeoffset name (be_enc32 val).

Definition fdt_appendprop_u64 (m : mem) (fdt nodeoffset : Z) (name : list byte) (val : Z)
    : res (Z * mem) :=
  fdt_appendprop m fdt nodeoffset name (be_enc64 val).

Definition fdt_appendprop_cell (m : mem) (fdt nodeoffset : Z) (name : list byte) (val : Z)
    : res (Z * mem) :=
  fdt_appendprop_u32 m fdt nodeoffset name val.

Definition fdt_delprop (m : mem) (fdt nodeoffset : Z) (name : list byte) : res (Z * mem) :=
  FDT_RW_PROBE m fdt (fun m =>
  let! '(prop, len) := fdt_get_property_w m fdt nodeoffset name in
  match prop with
  | None => Ret (len, m)
  | Some prop =>
    let proplen := s32 (sizeof_fdt_property + FDT_TAGALIGN len) in
    fdt_splice_struct_ m fdt prop proplen 0
  end).

(** The [do ... while] loop of [fdt_add_subnode_namelen]: the offset of the
    first tag after the properties. *)
Definition fdt_skip_props (m : mem) (fdt nextoffset : Z) : res Z :=
  loop (fun nextoffset =>
    let offset := nextoffset in
    let! '(tag, nextoffset) := fdt_next_tag m fdt offset in
    if (tag =? FDT_PROP) || (tag =? FDT_NOP) then Ret (Continue nextoffset)
    else Ret (Break offset)) nextoffset.

(** [name] holds the [namelen] characters. *)
Definition fdt_add_subnode_namelen (m : mem) (fdt parentoffset : Z) (name : list byte)
    : res (Z * mem) :=
  let namelen := Z.of_nat (length name) in
  FDT_RW_PROBE m fdt (fun m =>
  let! offset := fdt_subnode_offset_namelen m fdt parentoffset name in
  if 0 <=? offset then Ret (- FDT_ERR_EXISTS, m)
  else if negb (offset =? - FDT_ERR_NOTFOUND) then Ret (offset, m) else
  (* Try to place the new node after the parent's properties *)
  let! '(tag, nextoffset) := fdt_next_tag m fdt parentoffset in
  (* the fdt_subnode_offset_namelen() should ensure this never hits *)
  if negb (can_assume ASSUME_LIBFDT_FLAWLESS) && negb (tag =? FDT_BEGIN_NODE)
  then Ret (- FDT_ERR_INTERNAL, m) else
  let! offset := fdt_skip_props m fdt nextoffset in
  let! nh := fdt_offset_ptr_w_ m fdt offset in
  let! len1 := sint (namelen + 1) in
  let nodelen := s32 (sizeof_fdt_node_header + FDT_TAGALIGN len1 + FDT_TAGSIZE) in
  let! '(err, m) := fdt_splice_struct_ m fdt nh 0 nodelen in
  if negb (err =? 0) then Ret (err, m) else
  let! m := st32 m (nh_tag nh) FDT_BEGIN_NODE in
  let! m := memset m (nh_name nh) x00 (FDT_TAGALIGN len1) in
  let! m := store_bytes m (nh_name nh) name in
  let endtag := nh + nodelen - FDT_TAGSIZE in
  let! m := st32 m endtag FDT_END_NODE in
  Ret (offset, m)).

Definition fdt_add_subnode (m : mem) (fdt parentoffset : Z) (name : list byte) : res (Z * mem) :=
  fdt_add_subnode_namelen m fdt parentoffset name.

Definition fdt_del_node (m : mem) (fdt nodeoffset : Z) : res (Z * mem) :=
  FDT_RW_PROBE m fdt (fun m =>
  let! endoffset := fdt_node_end_offset_ m fdt nodeoffset in
  if endoffset <? 0 then Ret (endoffset, m) else
  let! p := fdt_offset_ptr_w_ m fdt nodeoffset in
  let! len := sint (endoffset - nodeoffset) in
  fdt_splice_struct_ m fdt p len 0).

(** [old] and [new] may overlap. *)
Definition fdt_packblocks_ (m : mem) (old new mem_rsv_size struct_size strings_size : Z) : res mem :=
  let mem_rsv_off := FDT_ALIGN sizeof_fdt_header 8 in
  let! struct_off := sint (mem_rsv_off + mem_rsv_size) in
  let! strings_off := sint (struct_off + struct_size) in
  let! off_rsv := fdt_off_mem_rsvmap m old in
  let! m := memmove m (new + mem_rsv_off) (old + off_rsv) mem_rsv_size in
  let! m := fdt_set_off_mem_rsvmap m new mem_rsv_off in
  let! off_struct := fdt_off_dt_struct m old in
  let! m := memmove m (new + struct_off) (old + off_struct) struct_size in
  let! m := fdt_set_off_dt_struct m new struct_off in
  let! m := fdt_set_size_dt_struct m new struct_size in
  let! off_strings := fdt_off_dt_strings m old in
  let! m := memmove m (new + strings_off) (old + off_strings) strings_size in
  let! m := fdt_set_off_dt_strings m new strings_off in
  let! size_strings := fdt_size_dt_strings m old in
  fdt_set_size_dt_strings m new size_strings.

(** The structure block size of a version 16 tree, as [fdt_open_into] measures
    it: [while (fdt_next_tag(fdt, struct_size, &struct_size) != FDT_END) ;]. *)
Definition fdt_measure_struct (m : mem) (fdt : Z) : res Z :=
  loop (fun struct_size =>
    let! '(tag, struct_size) := fdt_next_tag m fdt struct_size in
    if tag =? FDT_END then Ret (Break struct_size) else Ret (Continue struct_size)) 0.

Definition fdt_open_into (m : mem) (fdt buf bufsize : Z) : res (Z * mem) :=
  let fdtstart := fdt in
  let! totalsize := fdt_totalsize m fdt in
  let fdtend := fdtstart + totalsize in
  let! e := fdt_ro_probe_ m fdt in
  if e <? 0 then Ret (e, m) else
  let! n := fdt_num_mem_rsv m fdt in
  let! n1 := sint (n + 1) in
  let mem_rsv_size := s32 (n1 * sizeof_fdt_reserve_entry) in
  let! version := fdt_version m fdt in
  (* inl: return that code; inr: the structure block size *)
  let! r :=
    if can_assume ASSUME_LATEST || (17 <=? version) then
      let! size := fdt_size_dt_struct m fdt in Ret (inr (s32 size))
    else if version =? 16 then
      let! struct_size := fdt_measure_struct m fdt in
      if struct_size <? 0 then Ret (inl struct_size) else Ret (inr struct_size)
    else Ret (inl (- FDT_ERR_BADVERSION)) in
  match r with
  | inl err => Ret (err, m)
  | inr struct_size =>
    let! ordered := Ret (can_assume ASSUME_LIBFDT_ORDER) ||!
      (let! mis := fdt_blocks_misordered_ m fdt mem_rsv_size struct_size in Ret (negb mis)) in
    if ordered then
      (* no further work necessary *)
      let! '(err, m) := fdt_move m fdt buf bufsize in
      if negb (err =? 0) then Ret (err, m) else
      let! m := fdt_set_version m buf 17 in
      let! m := fdt_set_size_dt_struct m buf struct_size in
      let! m := fdt_set_totalsize m buf bufsize in
      Ret (0, m)
    else
    (* Need to reorder *)
    let! size_strings := fdt_size_dt_strings m fdt in
    let newsize := s32 (FDT_ALIGN sizeof_fdt_header 8 + mem_rsv_size + struct_size + size_strings) in
    if bufsize <? newsize then Ret (- FDT_ERR_NOSPACE, m) else
    (* First attempt to build converted tree at beginning of buffer; but if
       that overlaps with the old tree, try right after the old tree instead *)
    let overlaps := (fdtstart <? buf + newsize) && (buf <? fdtend) in
    let tmp := if overlaps then fdtend else buf in
    if overlaps && (buf + bufsize <? tmp + newsize) then Ret (- FDT_ERR_NOSPACE, m) else
    let! m := fdt_packblocks_ m fdt tmp mem_rsv_size struct_size (s32 size_strings) in
    let! m := memmove m buf tmp newsize in
    let! m := fdt_set_magic m buf FDT_MAGIC in
    let! m := fdt_set_totalsize m buf bufsize in
    let! m := fdt_set_version m buf 17 in
    let! m := fdt_set_last_comp_version m buf 16 in
    let! cpuid := fdt_boot_cpuid_phys m fdt in
    let! m := fdt_set_boot_cpuid_phys m buf cpuid in
    Ret (0, m)
  end.

Definition fdt_pack (m : mem) (fdt : Z) : res (Z * mem) :=
  FDT_RW_PROBE m fdt (fun m =>
  let! n := fdt_num_mem_rsv m fdt in
  let! n1 := sint (n + 1) in
  let mem_rsv_size := s32 (n1 * sizeof_fdt_reserve_entry) in
  let! size_struct := fdt_size_dt_struct m fdt in
  let! size_strings := fdt_size_dt_strings m fdt in
  let! m := fdt_packblocks_ m fdt fdt mem_rsv_size (s32 size_struct) (s32 size_strings) in
  let! dsize := fdt_data_size_ m fdt in
  let! m := fdt_set_totalsize m fdt dsize in
  Ret (0, m)).
