(* ===== verification/FdtEdit.v ===== *)
(** Edits of a blob: what changes and what is copied, header updates, and the
    splices of fdt_rw.c as moves of the bytes after the splice point. *)
From S2P Require Import Prelude Monad Memory Libfdt Fdt FdtSpec FdtTree FdtRo FdtWip FdtRead FdtRw.

(** ** Change and copy *)

(** [m'] differs from [m] only in the [n] bytes at [a], and frees nothing. *)
Record changes (m m' : mem) (a n : Z) : Prop := Changes {
  ch_out : forall x, x < a \/ a + n <= x -> m' !! x = m !! x;
  ch_dom : forall x, is_Some (m !! x) -> is_Some (m' !! x);
}.

(** The [n] bytes at [a] of [m] are at [a'] in [m']. *)
Definition copied (m : mem) (a : Z) (m' : mem) (a' n : Z) : Prop :=
  forall i, 0 <= i < n -> m' !! (a' + i) = m !! (a + i).

(** The header [h] with word [f] set to [v]. *)
Definition hdr_set (h : header) (f : fdt_header_field) (v : Z) : header :=
  let g f' x := if bool_decide (field_off f = field_off f') then v else x in
  Header (g f_magic (h_magic h)) (g f_totalsize (h_totalsize h))
    (g f_off_dt_struct (h_off_struct h)) (g f_off_dt_strings (h_off_strings h))
    (g f_off_mem_rsvmap (h_off_rsv h)) (g f_version (h_version h))
    (g f_last_comp_version (h_last_comp h)) (g f_boot_cpuid_phys (h_cpuid h))
    (g f_size_dt_strings (h_size_strings h)) (g f_size_dt_struct (h_size_struct h)).

(** The end of the blob's contents: the strings block is the last. *)
Definition data_end (h : header) : Z := h_off_strings h + h_size_strings h.

Lemma changes_refl m a n : changes m m a n.
Proof. by split. Qed.

Lemma changes_trans m1 m2 m3 a n :
  changes m1 m2 a n -> changes m2 m3 a n -> changes m1 m3 a n.
Proof. intros [A1 A2] [B1 B2]. split; [intros; rewrite B1, A1 by done; done|auto]. Qed.

Lemma changes_weak m m' a n a' n' :
  changes m m' a n -> a' <= a -> a + n <= a' + n' -> changes m m' a' n'.
Proof. intros [A1 A2] ? ?. split; [|done]. intros x Hx. apply A1. lia. Qed.

Lemma changes_valid m m' a n x k : changes m m' a n -> valid m x k -> valid m' x k.
Proof. intros [_ H] Hv i Hi. by apply H, Hv. Qed.

Lemma changes_upd m a l : valid m a (zlen l) -> changes m (upd m a l) a (zlen l).
Proof.
  intros Hv. split; [intros; by apply upd_lookup_out|].
  intros x Hx. rewrite upd_lookup. case_decide; [|done]. apply lookup_lt_is_Some. lia.
Qed.

Lemma changes_upd_in m m1 a n b l :
  changes m m1 a n -> valid m a n -> a <= b -> b + zlen l <= a + n -> changes m (upd m1 b l) a n.
Proof.
  intros Hc Hv ? ?. eapply changes_trans; [exact Hc|]. eapply changes_weak; [apply changes_upd| |]; [|lia..].
  eapply changes_valid; [exact Hc|]. eapply valid_sub; [exact Hv|lia..].
Qed.

Lemma changes_copied m m' a n x k :
  changes m m' a n -> x + k <= a \/ a + n <= x -> copied m x m' x k.
Proof. intros [H _] Hd i Hi. apply H. lia. Qed.

Lemma copied_changes m a m' a' n m'' b k :
  copied m a m' a' n -> changes m' m'' b k -> a' + n <= b \/ b + k <= a' -> copied m a m'' a' n.
Proof. intros H [Hc _] Hd i Hi. rewrite Hc by lia. by apply H. Qed.

Lemma copied_from m m1 a m' a' n b k :
  copied m1 a m' a' n -> changes m m1 b k -> a + n <= b \/ b + k <= a -> copied m a m' a' n.
Proof. intros H [Hc _] Hd i Hi. rewrite H by lia. apply Hc. lia. Qed.

Lemma copied_sub m a m' a' n x k :
  copied m a m' a' n -> a <= x -> x + k <= a + n -> copied m x m' (x - a + a') k.
Proof.
  intros H ? ? i Hi. replace (x - a + a' + i) with (a' + (x - a + i)) by lia.
  rewrite H by lia. f_equal. lia.
Qed.

(** The same with the target address given. *)
Lemma copied_at m a m' a' n x x' k :
  copied m a m' a' n -> x - a = x' - a' -> a <= x -> x + k <= a + n -> copied m x m' x' k.
Proof. intros H E ? ?. replace x' with (x - a + a') by lia. by eapply copied_sub. Qed.

Lemma copied_bytes m a m' a' l : copied m a m' a' (zlen l) -> bytes_at m a l -> bytes_at m' a' l.
Proof.
  intros H Hl i b Hi. pose proof (lookup_lt_Some _ _ _ Hi). rewrite H by (unfold zlen; lia). by apply Hl.
Qed.

Lemma copied_toks m a m' a' ts : copied m a m' a' (toks_len ts) -> toks_at m a ts -> toks_at m' a' ts.
Proof.
  revert a a'. induction ts as [|t ts IH]; intros a a' H; [done|]. cbn [toks_at toks_len] in *.
  intros (H1 & H2 & H3). pose proof (tok_len_ge t). pose proof (toks_len_nonneg ts).
  pose proof (tok_enc_len t). split; [done|]. split.
  - eapply copied_bytes; [|exact H2]. eapply copied_at; [exact H|lia..].
  - eapply IH; [|exact H3]. eapply copied_at; [exact H|lia..].
Qed.

Lemma memmove_copied m dst src n :
  0 <= n -> valid m src n -> valid m dst n ->
  exists m', memmove m dst src n = Ret m' /\ changes m m' dst n /\ copied m src m' dst n.
Proof.
  intros Hn Hs Hd. unfold memmove, load_bytes. destruct (Z.ltb_spec n 0); [lia|].
  destruct (load_valid m src (Z.to_nat n)) as (l & Hl & Hlen & Hat);
    [by rewrite Z2Nat.id|]. rewrite Hl. cbn [rbind].
  assert (zlen l = n) as E by (unfold zlen; lia).
  rewrite store_valid by (fold (zlen l); by rewrite E). exists (upd m dst l). split; [done|].
  split; [rewrite <- E; apply changes_upd; by rewrite E|]. intros i Hi.
  destruct (lookup_lt_is_Some_2 l (Z.to_nat i)) as [b Hb]; [lia|].
  pose proof (upd_at m dst l _ _ Hb) as H1. pose proof (Hat _ _ Hb) as H2.
  rewrite Z2Nat.id in H1, H2 by lia. by rewrite H1, H2.
Qed.

Lemma memmove_0 m dst src : memmove m dst src 0 = Ret m.
Proof. reflexivity. Qed.

(** ** Header words *)

Lemma hdr_get_set h f v f' :
  hdr_get (hdr_set h f v) f' = if decide (field_off f = field_off f') then v else hdr_get h f'.
Proof. by destruct f, f'. Qed.

Lemma field_off_range f : 0 <= field_off f <= 36.
Proof. destruct f; simpl; lia. Qed.

Lemma field_off_sep f f' : field_off f <> field_off f' -> Z.abs (field_off f - field_off f') >= 4.
Proof. destruct f, f'; simpl; lia. Qed.

Lemma hdr_valid m fdt h : hdr_at m fdt h -> valid m fdt 40.
Proof.
  intros Hh i Hi.
  assert (exists f, field_off f <= i < field_off f + 4) as (f & Hf).
  { destruct (decide (i < 4)); [exists f_magic|destruct (decide (i < 8)); [exists f_totalsize|
    destruct (decide (i < 12)); [exists f_off_dt_struct|destruct (decide (i < 16)); [exists f_off_dt_strings|
    destruct (decide (i < 20)); [exists f_off_mem_rsvmap|destruct (decide (i < 24)); [exists f_version|
    destruct (decide (i < 28)); [exists f_last_comp_version|destruct (decide (i < 32)); [exists f_boot_cpuid_phys|
    destruct (decide (i < 36)); [exists f_size_dt_strings|exists f_size_dt_struct]]]]]]]]]; simpl; lia. }
  pose proof (Hh f) as H. apply ld32_inv, bytes_at_valid in H. rewrite be_enc32_length in H.
  replace (fdt + i) with (fdt + field_off f + (i - field_off f)) by lia. apply H. lia.
Qed.

Lemma hdr_at_changes m m' fdt h a n :
  hdr_at m fdt h -> changes m m' a n -> a + n <= fdt \/ fdt + 40 <= a -> hdr_at m' fdt h.
Proof.
  intros Hh [Hc _] Hd f. rewrite <- (Hh f). unfold fdt_get_header, fdt32_ld. apply ld32_ext.
  intros x Hx. pose proof (field_off_range f). apply Hc. lia.
Qed.

Lemma hdr_set_at m fdt h f v :
  hdr_at m fdt h -> is_u32 v ->
  exists m', fdt_set_hdr_ f m fdt v = Ret m' /\ hdr_at m' fdt (hdr_set h f v) /\
    changes m m' (fdt + field_off f) 4.
Proof.
  intros Hh Hv. pose proof (field_off_range f). pose proof (hdr_valid _ _ _ Hh) as Hval.
  assert (valid m (fdt + field_off f) 4) as Hvf by (eapply valid_sub; [exact Hval|lia..]).
  unfold fdt_set_hdr_. rewrite st32_valid by done. eexists. split; [done|].
  split; [|by apply (changes_upd m _ (be_enc32 v))].
  intros f'. rewrite hdr_get_set. unfold fdt_get_header, fdt32_ld. case_decide as E.
  - rewrite <- E, (ld32_at _ _ v) by apply upd_at. by rewrite u32_small.
  - pose proof (field_off_sep _ _ E). rewrite <- (Hh f'). apply ld32_ext. intros x Hx.
    apply upd_lookup_out. rewrite be_enc32_length. lia.
Qed.

(** ** Splices *)

(** The bytes from [p + oldlen] to the end of the data, [dsize] bytes after
    [fdt], have moved to [p + newlen]. *)
Definition moved (m m' : mem) (fdt p oldlen newlen dsize : Z) : Prop :=
  changes m m' (p + newlen) (fdt + dsize - (p + oldlen)) /\
  copied m (p + oldlen) m' (p + newlen) (fdt + dsize - (p + oldlen)).

(** The room a splice needs. *)
Definition fits (h : header) (oldlen newlen : Z) : bool :=
  data_end h - oldlen + newlen <=? h_totalsize h.

Section splice.
Context (m : mem) (fdt : Z) (h : header).
Context (Hh : hdr_at m fdt h) (Hval : valid m fdt (h_totalsize h)).
Context (Hfit : data_end h <= h_totalsize h) (Htot : h_totalsize h < INT_MAX).

Lemma fdt_data_size_at : fdt_data_size_ m fdt = Ret (data_end h).
Proof using Hh Hfit Htot.
  unfold fdt_data_size_. rd Hh. hdr_ranges Hh. unfold data_end in *. by rewrite u32_small by ilia.
Qed.

Lemma fdt_splice_at o oldlen newlen :
  0 <= o -> 0 <= oldlen -> o + oldlen <= data_end h -> is_s32 newlen -> 0 <= newlen ->
  if fits h oldlen newlen then
    exists m', fdt_splice_ m fdt (fdt + o) oldlen newlen = Ret (0, m') /\
      moved m m' fdt (fdt + o) oldlen newlen (data_end h)
  else fdt_splice_ m fdt (fdt + o) oldlen newlen = Ret (- FDT_ERR_NOSPACE, m).
Proof using Hh Hval Hfit Htot.
  intros Ho Hold Hend Hns Hnew. hdr_ranges Hh. unfold fdt_splice_, fits.
  rewrite fdt_data_size_at. cbn [rbind]. rd Hh.
  replace (fdt + o - fdt) with o by lia. rewrite (u64_small o) by ilia. rewrite (u64_small (o + _)) by ilia.
  destruct (Z.ltb_spec oldlen 0); [lia|]. destruct (Z.ltb_spec (o + oldlen) o); [lia|].
  destruct (Z.ltb_spec (data_end h) (o + oldlen)); [lia|].
  destruct (Z.ltb_spec (fdt + o) fdt); [lia|]. cbn [orb].
  rewrite (u32_small oldlen), (u32_small (data_end h + newlen)) by ilia.
  destruct (Z.ltb_spec (data_end h + newlen) oldlen); [lia|].
  rewrite u32_small by ilia.
  destruct (Z.leb_spec (data_end h - oldlen + newlen) (h_totalsize h)),
    (Z.ltb_spec (h_totalsize h) (data_end h - oldlen + newlen)); try lia; [|done].
  destruct (memmove_copied m (fdt + o + newlen) (fdt + o + oldlen)
    (fdt + data_end h - (fdt + o + oldlen))) as (m' & -> & Hc & Hcp); [lia| | |].
  - eapply valid_sub; [exact Hval|lia..].
  - eapply valid_sub; [exact Hval|lia..].
  - exists m'. by split.
Qed.
End splice.
