(* ===== verification/FdtRwSpec.v ===== *)
(** The blob a read-write edit starts from and leaves: reserve entries, tokens
    and strings in the order fdt_rw.c keeps them, and how the splice of the
    structure block and of the strings block edits them. *)
From S2P Require Import Prelude Monad Memory Libfdt Fdt FdtSpec FdtTree FdtRo FdtWip FdtRead FdtNav FdtRw.
From S2P Require Import FdtEdit.

(** ** The layout *)

Definition rsv_enc (l : list (Z * Z)) : list byte :=
  flat_map (fun '(a, s) => be_enc64 a ++ be_enc64 s) l.

(** An entry that does not end the map. *)
Definition rsv_ok (e : Z * Z) : Prop := is_u64 e.1 /\ is_u64 e.2 /\ e.2 <> 0.

(** The reserve entries [rsv] and the terminating entry, of size 0. *)
Definition rsv_at (m : mem) (a : Z) (rsv : list (Z * Z)) : Prop :=
  Forall rsv_ok rsv /\
  exists t, bytes_at m a (rsv_enc rsv ++ be_enc64 t ++ be_enc64 0).

(** A tree that can be edited: version 17, blocks in order and disjoint. *)
Record rw_at (m : mem) (fdt : Z) (h : header) (rsv : list (Z * Z)) (ts : list tok)
    (strs : list byte) : Prop := RwAt {
  rw_tree : tree_at m fdt h ts strs;
  rw_version : h_version h = 17;
  rw_head : 40 <= h_off_rsv h;
  rw_rsv : rsv_at m (fdt + h_off_rsv h) rsv;
  rw_rsv_room : h_off_rsv h + 16 * zlen rsv + 16 <= h_off_struct h;
  rw_struct_room : h_off_struct h + h_size_struct h <= h_off_strings h;
}.

(** The header after the structure block has grown by [delta]. *)
Definition hdr_splice (h : header) (delta : Z) : header :=
  Header (h_magic h) (h_totalsize h) (h_off_struct h) (h_off_strings h + delta) (h_off_rsv h)
    (h_version h) (h_last_comp h) (h_cpuid h) (h_size_strings h) (h_size_struct h + delta).

(** The header after the strings block has grown by [delta]. *)
Definition hdr_strings (h : header) (delta : Z) : header :=
  Header (h_magic h) (h_totalsize h) (h_off_struct h) (h_off_strings h) (h_off_rsv h)
    (h_version h) (h_last_comp h) (h_cpuid h) (h_size_strings h + delta) (h_size_struct h).

(** The [oldlen] bytes at structure offset [o] have given way to [newlen]
    bytes; what was around them is kept. *)
Record edited (m m' : mem) (fdt : Z) (h : header) (o oldlen newlen : Z) : Prop := Edited {
  ed_hdr : hdr_at m' fdt (hdr_splice h (newlen - oldlen));
  ed_changes : changes m m' fdt (h_totalsize h);
  ed_before : copied m (fdt + 40) m' (fdt + 40) (h_off_struct h + o - 40);
  ed_after : copied m (saddr fdt h (o + oldlen)) m' (saddr fdt h (o + newlen))
    (data_end h - (h_off_struct h + o + oldlen));
}.

(** Read the words of a spliced header. *)
Ltac hdr_simpl :=
  cbn [hdr_splice hdr_strings h_magic h_totalsize h_off_struct h_off_strings h_off_rsv h_version
       h_last_comp h_cpuid h_size_strings h_size_struct].

Lemma rsv_enc_len l : zlen (rsv_enc l) = 16 * zlen l.
Proof.
  induction l as [|[a s] l IH]; [done|]. unfold rsv_enc in *. cbn [flat_map].
  rewrite !zlen_app, zlen_cons, IH. change (zlen (be_enc64 a)) with 8. change (zlen (be_enc64 s)) with 8. lia.
Qed.

Lemma rsv_at_copied m a m' a' rsv :
  copied m a m' a' (16 * zlen rsv + 16) -> rsv_at m a rsv -> rsv_at m' a' rsv.
Proof.
  intros H [Hf [t Ht]]. split; [done|]. exists t. eapply copied_bytes; [|exact Ht].
  rewrite !zlen_app, rsv_enc_len. exact H.
Qed.

Lemma edited_widen m m' fdt h o k oldlen newlen :
  0 <= k -> edited m m' fdt h (o + k) oldlen newlen -> edited m m' fdt h o (oldlen + k) (newlen + k).
Proof.
  intros Hk [H1 H2 H3 H4]. split; [|done| |].
  - by replace (newlen + k - (oldlen + k)) with (newlen - oldlen) by lia.
  - eapply copied_at; [exact H3|lia..].
  - replace (o + (oldlen + k)) with (o + k + oldlen) by lia.
    replace (o + (newlen + k)) with (o + k + newlen) by lia.
    by replace (h_off_struct h + o + (oldlen + k)) with (h_off_struct h + (o + k) + oldlen) by lia.
Qed.

Section rw.
Context (m : mem) (fdt : Z) (h : header) (rsv : list (Z * Z)) (ts : list tok) (strs : list byte).
Context (Hrw : rw_at m fdt h rsv ts strs).

Let Ht : tree_at m fdt h ts strs := rw_tree _ _ _ _ _ _ Hrw.
Let Hst : struct_at m fdt h ts := ta_struct _ _ _ _ _ Ht.
Let Hb : blob m fdt h := sa_blob _ _ _ _ Hst.
Let Hh : hdr_at m fdt h := blob_hdr _ _ _ Hb.

(** The arithmetic of the layout. *)
Lemma rw_layout :
  56 <= h_off_struct h /\ toks_len ts + 4 <= h_size_struct h /\
  h_off_struct h + h_size_struct h <= h_off_strings h /\
  h_size_strings h = zlen strs /\ data_end h <= h_totalsize h /\ h_totalsize h < INT_MAX.
Proof using Hrw.
  pose proof (rw_version _ _ _ _ _ _ Hrw). pose proof (rw_head _ _ _ _ _ _ Hrw).
  pose proof (rw_rsv_room _ _ _ _ _ _ Hrw). pose proof (rw_struct_room _ _ _ _ _ _ Hrw).
  pose proof (sa_room _ _ _ _ Hst) as (_ & _ & H3)%in_struct_true.
  pose proof (ta_strs_room _ _ _ _ _ Ht). pose proof (ta_strs_size _ _ _ _ _ Ht).
  pose proof (zlen_nonneg rsv). pose proof (ta_total _ _ _ _ _ Ht). unfold data_end. lia.
Qed.

Lemma edited_changes m' m'' o oldlen newlen b k :
  edited m m' fdt h o oldlen newlen -> changes m' m'' b k -> 0 <= o -> 0 <= newlen -> 0 <= k ->
  saddr fdt h o <= b -> b + k <= saddr fdt h (o + newlen) ->
  data_end h - oldlen + newlen <= h_totalsize h -> o + oldlen <= h_size_struct h ->
  edited m m'' fdt h o oldlen newlen.
Proof using Hrw.
  intros [H1 H2 H3 H4] Hc Ho Hn Hk Hl Hr Hfit Hold. pose proof rw_layout.
  unfold saddr, data_end in *. hdr_ranges Hh. split.
  - eapply hdr_at_changes; [exact H1|exact Hc|ilia].
  - eapply changes_trans; [exact H2|]. eapply changes_weak; [exact Hc|ilia|ilia].
  - eapply copied_changes; [exact H3|exact Hc|ilia].
  - eapply copied_changes; [exact H4|exact Hc|unfold saddr, data_end; ilia].
Qed.

(** [fdt_splice_struct_] at structure offset [o]. *)
Lemma fdt_splice_struct_at o oldlen newlen :
  0 <= o -> 0 <= oldlen -> o + oldlen <= h_size_struct h -> 0 <= newlen -> is_s32 newlen ->
  if fits h oldlen newlen then
    exists m', fdt_splice_struct_ m fdt (saddr fdt h o) oldlen newlen = Ret (0, m') /\
      edited m m' fdt h o oldlen newlen /\ copied m (saddr fdt h o) m' (saddr fdt h o) newlen
  else fdt_splice_struct_ m fdt (saddr fdt h o) oldlen newlen = Ret (- FDT_ERR_NOSPACE, m).
Proof using Hrw.
  intros Ho Hold Hend Hnew Hns. pose proof rw_layout as (L1 & L2 & L3 & L4 & L5 & L6). hdr_ranges Hh.
  unfold fdt_splice_struct_. unfold data_end in *. rewrite sint_small by ilia. cbn [rbind].
  unfold saddr. replace (fdt + h_off_struct h + o) with (fdt + (h_off_struct h + o)) by lia.
  pose proof (fdt_splice_at m fdt h Hh (blob_valid _ _ _ Hb) L5 L6 (h_off_struct h + o) oldlen newlen
    ltac:(lia) Hold ltac:(unfold data_end; ilia) Hns Hnew) as Hsp.
  unfold fits in *. destruct (Z.leb_spec (data_end h - oldlen + newlen) (h_totalsize h)) as [Hf|_].
  2:{ by rewrite Hsp. }
  unfold data_end in *. destruct Hsp as (m1 & -> & Hc & Hcp). cbn [rbind].
  change (negb (0 =? 0)) with false. cbv iota.
  assert (hdr_at m1 fdt h) as Hh1 by (eapply hdr_at_changes; [exact Hh|exact Hc|ilia]).
  rd Hh1. rewrite (u32_small (h_size_struct h + _)) by ilia.
  destruct (hdr_set_at m1 fdt h f_size_dt_struct (h_size_struct h + (newlen - oldlen)) Hh1 ltac:(ilia))
    as (m2 & E2 & Hh2 & Hc2).
  unfold fdt_set_size_dt_struct. rewrite E2. cbn [rbind]. rd Hh2.
  change (h_off_strings (hdr_set h f_size_dt_struct _)) with (h_off_strings h).
  rewrite u32_small by ilia.
  destruct (hdr_set_at m2 fdt _ f_off_dt_strings (h_off_strings h + (newlen - oldlen)) Hh2 ltac:(ilia))
    as (m3 & E3 & Hh3 & Hc3).
  unfold fdt_set_off_dt_strings. rewrite E3. cbn [rbind]. exists m3. split; [done|].
  assert (changes m1 m3 fdt 40) as Hc13.
  { eapply changes_trans; (eapply changes_weak; [eassumption|simpl; ilia|simpl; ilia]). }
  split.
  2:{ eapply copied_changes; [|exact Hc13|unfold saddr; ilia].
      eapply changes_copied; [exact Hc|unfold saddr; ilia]. }
  split.
  - exact Hh3.
  - eapply changes_trans; (eapply changes_weak; [eassumption|lia|ilia]).
  - eapply copied_changes; [|exact Hc13|ilia]. eapply changes_copied; [exact Hc|ilia].
  - eapply copied_changes; [|exact Hc13|unfold saddr; lia].
    eapply copied_at; [exact Hcp|unfold saddr, data_end; ilia..].
Qed.
End rw.

(** New tokens [mid'] in place of [mid] give an editable tree again. *)
Lemma rw_edit m m' fdt h rsv strs pre mid mid' post :
  rw_at m fdt h rsv (pre ++ mid ++ post) strs ->
  fits h (toks_len mid) (toks_len mid') = true ->
  edited m m' fdt h (toks_len pre) (toks_len mid) (toks_len mid') ->
  toks_at m' (saddr fdt h (toks_len pre)) mid' ->
  rw_at m' fdt (hdr_splice h (toks_len mid' - toks_len mid)) rsv (pre ++ mid' ++ post) strs.
Proof.
  intros Hrw Hfit%Z.leb_le [E1 E2 E3 E4] Hmid. pose proof (rw_layout _ _ _ _ _ _ Hrw) as (L1 & L2 & L3 & L4 & L5 & L6).
  destruct Hrw as [[[[Hh Hv Hs1 Hs2] Hs3 Htk He Hr] T1 T2 T3 T4 T5 T6 T7 T8] R1 R2 R3 R4 R5].
  unfold data_end in *. hdr_ranges Hh. rewrite !toks_len_app in *.
  pose proof (toks_len_nonneg pre). pose proof (toks_len_nonneg mid). pose proof (toks_len_nonneg post).
  pose proof (toks_len_nonneg mid'). pose proof (zlen_nonneg rsv).
  apply toks_at_app in Htk as [Hpre [_ Hpost]%toks_at_app]. apply in_struct_true in Hr as (Hr1 & Hr2 & Hr3).
  unfold saddr, data_end in *. rewrite !Z.add_0_r in *.
  constructor; [constructor; [constructor; [constructor|..]|..]|..];
    unfold saddr in *; try (hdr_simpl; first [assumption|ilia]).
  - eapply changes_valid; [exact E2|exact Hv].
  - hdr_simpl. rewrite !toks_at_app. repeat split.
    + eapply copied_toks; [|exact Hpre]. eapply copied_at; [exact E3|ilia..].
    + rewrite Z.add_0_r. exact Hmid.
    + eapply copied_toks; [|exact Hpost]. eapply copied_at; [exact E4|ilia..].
  - hdr_simpl. eapply copied_bytes; [|exact He]. change (zlen (be_enc32 FDT_END)) with 4.
    rewrite !toks_len_app. eapply copied_at; [exact E4|ilia..].
  - apply in_struct_true. hdr_simpl. rewrite !toks_len_app. ilia.
  - hdr_simpl. eapply copied_bytes; [|exact T6]. eapply copied_at; [exact E4|ilia..].
  - hdr_simpl. eapply rsv_at_copied; [|exact R3]. eapply copied_at; [exact E3|ilia..].
Qed.

(** ** The strings block *)

(** Another contents of the strings block, the rest of the blob kept. *)
Lemma rw_strings m m' fdt h rsv ts strs strs' :
  rw_at m fdt h rsv ts strs ->
  hdr_at m' fdt (hdr_strings h (zlen strs' - zlen strs)) ->
  changes m m' fdt (h_totalsize h) ->
  copied m (fdt + 40) m' (fdt + 40) (h_off_strings h - 40) ->
  bytes_at m' (fdt + h_off_strings h) strs' ->
  h_off_strings h + zlen strs' <= h_totalsize h ->
  rw_at m' fdt (hdr_strings h (zlen strs' - zlen strs)) rsv ts strs'.
Proof.
  intros Hrw Hh' Hc Hcp Hs Hroom. pose proof (rw_layout _ _ _ _ _ _ Hrw) as (L1 & L2 & L3 & L4 & L5 & L6).
  destruct Hrw as [[[[Hh Hv Hs1 Hs2] Hs3 Htk He Hr] T1 T2 T3 T4 T5 T6 T7 T8] R1 R2 R3 R4 R5].
  pose proof (toks_len_nonneg ts). pose proof (zlen_nonneg rsv).
  unfold saddr in *. rewrite !Z.add_0_r in *.
  constructor; [constructor; [constructor; [constructor|..]|..]|..];
    unfold saddr in *; try (hdr_simpl; first [assumption|lia]).
  - eapply changes_valid; [exact Hc|exact Hv].
  - hdr_simpl. rewrite Z.add_0_r. eapply copied_toks; [|exact Htk]. eapply copied_at; [exact Hcp|lia..].
  - hdr_simpl. eapply copied_bytes; [|exact He]. change (zlen (be_enc32 FDT_END)) with 4.
    eapply copied_at; [exact Hcp|lia..].
  - hdr_simpl. eapply rsv_at_copied; [|exact R3]. eapply copied_at; [exact Hcp|lia..].
Qed.

Lemma hdr_strings_back h n : hdr_strings (hdr_strings h n) (- n) = h.
Proof. destruct h. unfold hdr_strings. hdr_simpl. f_equal. lia. Qed.

Lemma hdr_strings_0 h : hdr_strings h 0 = h.
Proof. destruct h. unfold hdr_strings. hdr_simpl. f_equal. lia. Qed.

Lemma rw_strs_at m fdt h rsv ts strs :
  rw_at m fdt h rsv ts strs -> bytes_at m (fdt + h_off_strings h) strs /\ zlen strs < INT_MAX.
Proof.
  intros Hrw. pose proof (rw_layout _ _ _ _ _ _ Hrw). split; [apply (ta_strs _ _ _ _ _ (rw_tree _ _ _ _ _ _ Hrw))|].
  pose proof (zlen_nonneg strs). unfold data_end in *.
  pose proof (sa_blob _ _ _ _ (ta_struct _ _ _ _ _ (rw_tree _ _ _ _ _ _ Hrw))) as Hb.
  hdr_ranges (blob_hdr _ _ _ Hb). ilia.
Qed.

Section add_string.
Context (m : mem) (fdt : Z) (h : header) (rsv : list (Z * Z)) (ts : list tok) (strs : list byte).
Context (Hrw : rw_at m fdt h rsv ts strs).

Let Hb : blob m fdt h := sa_blob _ _ _ _ (ta_struct _ _ _ _ _ (rw_tree _ _ _ _ _ _ Hrw)).
Let Hh : hdr_at m fdt h := blob_hdr _ _ _ Hb.

Lemma fdt_splice_string_at n :
  0 <= n -> is_s32 n ->
  if fits h 0 n then
    exists m', fdt_splice_string_ m fdt n = Ret (0, m') /\ hdr_at m' fdt (hdr_strings h n) /\
      changes m m' (fdt + field_off f_size_dt_strings) 4
  else fdt_splice_string_ m fdt n = Ret (- FDT_ERR_NOSPACE, m).
Proof using Hrw.
  intros Hn Hns. pose proof (rw_layout _ _ _ _ _ _ Hrw) as (L1 & L2 & L3 & L4 & L5 & L6). hdr_ranges Hh.
  unfold fdt_splice_string_. rd Hh.
  replace (fdt + h_off_strings h + h_size_strings h) with (fdt + data_end h) by (unfold data_end; lia).
  pose proof (fdt_splice_at m fdt h Hh (blob_valid _ _ _ Hb) L5 L6 (data_end h) 0 n
    ltac:(unfold data_end; ilia) ltac:(lia) ltac:(lia) Hns Hn) as Hsp.
  unfold fits in *. destruct (Z.leb_spec (data_end h - 0 + n) (h_totalsize h)) as [Hf|_].
  2:{ by rewrite Hsp. }
  destruct Hsp as (m1 & -> & Hc & _). cbn [rbind]. change (negb (0 =? 0)) with false. cbv iota.
  replace (fdt + data_end h - (fdt + data_end h + 0)) with 0 in Hc by lia.
  assert (hdr_at m1 fdt h) as Hh1.
  { eapply hdr_at_changes; [exact Hh|exact Hc|]. unfold data_end. ilia. }
  rd Hh1. unfold data_end in *. rewrite u32_small by ilia.
  destruct (hdr_set_at m1 fdt h f_size_dt_strings (h_size_strings h + n) Hh1 ltac:(ilia))
    as (m2 & E2 & Hh2 & Hc2).
  unfold fdt_set_size_dt_strings. rewrite E2. cbn [rbind]. exists m2. split; [done|]. split; [exact Hh2|].
  destruct Hc as [Hc3 Hc4], Hc2 as [Hc5 Hc6]. split; [|auto].
  intros x Hx. rewrite Hc5 by done. apply Hc3. lia.
Qed.

(** The growth of the strings block when [s] is added. *)
Definition str_growth (s : list byte) : Z :=
  match str_pos strs s with Some _ => 0 | None => zlen s + 1 end.

Lemma add_str_growth s : zlen (add_str strs s).1 - zlen strs = str_growth s.
Proof.
  unfold add_str, str_growth. destruct (str_pos strs s); cbn [fst]; [lia|].
  rewrite !zlen_app. change (zlen [x00]) with 1. lia.
Qed.

(** The offset of the string, in the old strings block or in the new one. *)
Lemma fdt_find_add_string_at s :
  zlen s < INT_MAX ->
  if fits h 0 (str_growth s) then
    exists m', fdt_find_add_string_ m fdt s = Ret ((add_str strs s).2, is_null (str_pos strs s), m') /\
      rw_at m' fdt (hdr_strings h (str_growth s)) rsv ts (add_str strs s).1 /\
      changes m m' fdt (h_totalsize h)
  else fdt_find_add_string_ m fdt s = Ret (- FDT_ERR_NOSPACE, false, m).
Proof using Hrw.
  intros Hs. destruct (rw_strs_at _ _ _ _ _ _ Hrw) as [Hstr Hlen].
  pose proof (rw_layout _ _ _ _ _ _ Hrw) as (L1 & L2 & L3 & L4 & L5 & L6). hdr_ranges Hh.
  pose proof (zlen_nonneg s). pose proof (zlen_nonneg strs).
  unfold fdt_find_add_string_. rd Hh. rewrite L4, s32_small by ilia.
  rewrite (fdt_find_string_at m (fdt + h_off_strings h) strs s Hstr Hlen). cbn [rbind].
  pose proof (add_str_growth s) as Hg. unfold str_growth, add_str in *.
  destruct (str_pos strs s) as [o|] eqn:Ep; cbn [fmap option_fmap option_map fst snd] in *.
  { unfold fits. destruct (Z.leb_spec (data_end h - 0 + 0) (h_totalsize h)); [|lia].
    exists m. pose proof (str_pos_range _ _ _ Ep). rewrite s32_small by ilia. cbn [is_null]. split; [do 3 f_equal; lia|].
    rewrite hdr_strings_0. split; [done|apply changes_refl]. }
  fold (zlen s). pose proof (fdt_splice_string_at (zlen s + 1) ltac:(lia) ltac:(ilia)) as Hsp.
  unfold fits, data_end in *. destruct (Z.leb_spec (h_off_strings h + h_size_strings h - 0 + (zlen s + 1)) (h_totalsize h)) as [Hf|_].
  2:{ by rewrite Hsp. }
  destruct Hsp as (m1 & -> & Hh1 & Hc1). cbn [rbind]. change (negb (0 =? 0)) with false. cbv iota.
  assert (zlen (s ++ [x00]) = zlen s + 1) as Hz by (rewrite zlen_app; done).
  assert (valid m1 (fdt + h_off_strings h + zlen strs) (zlen (s ++ [x00]))) as Hv1.
  { eapply changes_valid; [exact Hc1|]. eapply valid_sub; [apply (blob_valid _ _ _ Hb)|ilia..]. }
  rewrite store_valid by exact Hv1. cbn [rbind].
  pose proof (changes_upd _ _ _ Hv1) as Hc2. exists (upd m1 (fdt + h_off_strings h + zlen strs) (s ++ [x00])).
  rewrite s32_small by ilia. split; [do 3 f_equal; cbn; lia|]. cbn [field_off] in Hc1.
  assert (changes m (upd m1 (fdt + h_off_strings h + zlen strs) (s ++ [x00])) fdt (h_totalsize h)) as Hc.
  { eapply changes_trans; (eapply changes_weak; [eassumption|ilia|ilia]). }
  split; [|exact Hc]. rewrite <- Hg. apply (rw_strings m).
  - done.
  - rewrite Hg. eapply hdr_at_changes; [exact Hh1|exact Hc2|ilia].
  - exact Hc.
  - eapply copied_changes; [eapply changes_copied; [exact Hc1|ilia]|exact Hc2|ilia].
  - apply bytes_at_appz. split; [|apply upd_at].
    eapply copied_bytes; [|exact Hstr]. eapply copied_changes; [eapply changes_copied; [exact Hc1|ilia]|exact Hc2|ilia].
  - ilia.
Qed.

(** Rolling the addition back. *)
Lemma fdt_del_last_string_at s strs0 h0 :
  strs = strs0 ++ s ++ [x00] -> h = hdr_strings h0 (zlen s + 1) ->
  exists m', fdt_del_last_string_ m fdt s = Ret m' /\ rw_at m' fdt h0 rsv ts strs0 /\
    changes m m' fdt (h_totalsize h).
Proof using Hrw.
  intros Es Eh. pose proof (rw_layout _ _ _ _ _ _ Hrw) as (L1 & L2 & L3 & L4 & L5 & L6). hdr_ranges Hh.
  assert (zlen strs = zlen strs0 + zlen s + 1) as Hz.
  { rewrite Es, !zlen_app. change (zlen [x00]) with 1. lia. }
  pose proof (zlen_nonneg s). pose proof (zlen_nonneg strs0). unfold data_end in *.
  unfold fdt_del_last_string_. rd Hh. fold (zlen s). rewrite u32_small by ilia.
  destruct (hdr_set_at m fdt h f_size_dt_strings (h_size_strings h - (zlen s + 1)) Hh ltac:(ilia))
    as (m2 & E2 & Hh2 & Hc2).
  unfold fdt_set_size_dt_strings. rewrite E2. exists m2. split; [done|]. cbn [field_off] in Hc2.
  assert (changes m m2 fdt (h_totalsize h)) as Hc by (eapply changes_weak; [exact Hc2|ilia|ilia]).
  split; [|exact Hc].
  assert (h0 = hdr_strings h (zlen strs0 - zlen strs)) as ->.
  { rewrite Eh. replace (zlen strs0 - zlen strs) with (- (zlen s + 1)) by lia. by rewrite hdr_strings_back. }
  apply (rw_strings m); [done| |done| | |ilia].
  - replace (zlen strs0 - zlen strs) with (- (zlen s + 1)) by lia. exact Hh2.
  - eapply changes_copied; [exact Hc2|ilia].
  - destruct (rw_strs_at _ _ _ _ _ _ Hrw) as [Hstr _]. rewrite Es in Hstr. apply bytes_at_appz in Hstr as [Hstr _].
    eapply copied_bytes; [|exact Hstr]. eapply changes_copied; [exact Hc2|ilia].
Qed.
End add_string.

(** A change inside the tokens [mid] that leaves the tokens [mid'] there. *)
Lemma rw_patch m m' fdt h rsv strs pre mid mid' post :
  rw_at m fdt h rsv (pre ++ mid ++ post) strs ->
  changes m m' (saddr fdt h (toks_len pre)) (toks_len mid) ->
  toks_len mid' = toks_len mid ->
  toks_at m' (saddr fdt h (toks_len pre)) mid' ->
  rw_at m' fdt h rsv (pre ++ mid' ++ post) strs.
Proof.
  intros Hrw Hc El Hm. pose proof (rw_layout _ _ _ _ _ _ Hrw) as (L1 & L2 & L3 & L4 & L5 & L6).
  pose proof (blob_hdr _ _ _ (sa_blob _ _ _ _ (ta_struct _ _ _ _ _ (rw_tree _ _ _ _ _ _ Hrw)))) as Hh.
  hdr_ranges Hh. rewrite !toks_len_app in *. unfold data_end in *.
  pose proof (toks_len_nonneg pre). pose proof (toks_len_nonneg mid). pose proof (toks_len_nonneg post).
  assert (hdr_splice h (toks_len mid' - toks_len mid) = h) as E.
  { destruct h. unfold hdr_splice. hdr_simpl. f_equal; lia. }
  rewrite <- E. apply (rw_edit m); [done| | |done].
  - unfold fits, data_end. apply Z.leb_le. lia.
  - split; [rewrite E; eapply hdr_at_changes; [exact Hh|exact Hc|unfold saddr; ilia]|..].
    + eapply changes_weak; [exact Hc|unfold saddr; ilia..].
    + eapply changes_copied; [exact Hc|unfold saddr; ilia].
    + rewrite El. eapply changes_copied; [exact Hc|unfold saddr; ilia].
Qed.

Lemma add_str_offset m fdt h rsv ts strs s :
  rw_at m fdt h rsv ts strs -> 0 <= (add_str strs s).2 /\ is_u32 (add_str strs s).2.
Proof.
  intros Hrw. destruct (rw_strs_at _ _ _ _ _ _ Hrw) as [_ Hl]. pose proof (zlen_nonneg strs).
  unfold add_str. destruct (str_pos strs s) as [o|] eqn:E; cbn [snd]; [|ilia].
  pose proof (str_pos_range _ _ _ E). ilia.
Qed.

(** The splice of the structure block over tokens: [oldlen] of the bytes of
    [mid], from byte [k] on, give way to [newlen] bytes. The hole keeps the old
    bytes; any tokens [mid'] written over it complete the edit. *)
Lemma rw_splice m fdt h rsv strs pre mid post k oldlen newlen :
  rw_at m fdt h rsv (pre ++ mid ++ post) strs ->
  toks_len mid = k + oldlen -> 0 <= k -> 0 <= oldlen -> 0 <= newlen -> is_s32 newlen ->
  let p := saddr fdt h (toks_len pre) in
  if fits h oldlen newlen then
    exists m1, fdt_splice_struct_ m fdt (p + k) oldlen newlen = Ret (0, m1) /\
      changes m m1 fdt (h_totalsize h) /\ valid m1 p (k + newlen) /\
      copied m p m1 p (k + newlen) /\
      forall m' mid', changes m1 m' p (k + newlen) -> toks_len mid' = k + newlen -> toks_at m' p mid' ->
        rw_at m' fdt (hdr_splice h (newlen - oldlen)) rsv (pre ++ mid' ++ post) strs /\
        changes m m' fdt (h_totalsize h)
  else fdt_splice_struct_ m fdt (p + k) oldlen newlen = Ret (- FDT_ERR_NOSPACE, m).
Proof.
  intros Hrw El Hk Hold Hnew Hns p. pose proof (rw_layout _ _ _ _ _ _ Hrw) as (L1 & L2 & L3 & L4 & L5 & L6).
  pose proof (sa_blob _ _ _ _ (ta_struct _ _ _ _ _ (rw_tree _ _ _ _ _ _ Hrw))) as Hb.
  hdr_ranges (blob_hdr _ _ _ Hb). rewrite !toks_len_app in L2. unfold data_end in *.
  pose proof (toks_len_nonneg pre). pose proof (toks_len_nonneg post).
  replace (p + k) with (saddr fdt h (toks_len pre + k)) by (unfold p, saddr; lia).
  pose proof (fdt_splice_struct_at _ _ _ _ _ _ Hrw (toks_len pre + k) oldlen newlen
    ltac:(lia) Hold ltac:(lia) Hnew Hns) as Hsp.
  destruct (fits h oldlen newlen) eqn:Hfit; [|exact Hsp].
  destruct Hsp as (m1 & E & Hed & Hcp). exists m1. split; [exact E|]. split; [apply Hed|].
  apply Z.leb_le in Hfit. unfold data_end in *.
  assert (valid m1 p (k + newlen)) as Hv1.
  { eapply changes_valid; [apply Hed|]. eapply valid_sub; [apply (blob_valid _ _ _ Hb)|unfold p, saddr; ilia..]. }
  split; [done|]. split.
  - intros i Hi. destruct (decide (i < k)).
    + unfold p, saddr. replace (fdt + h_off_struct h + toks_len pre + i) with (fdt + 40 + (h_off_struct h + toks_len pre + i - 40)) by lia.
      apply (ed_before _ _ _ _ _ _ _ Hed). lia.
    + replace (p + i) with (saddr fdt h (toks_len pre + k) + (i - k)) by (unfold p, saddr; lia). apply Hcp. lia.
  - intros m' mid' Hc El' Htk. apply edited_widen in Hed; [|lia].
    assert (edited m m' fdt h (toks_len pre) (oldlen + k) (newlen + k)) as Hed'.
    { eapply edited_changes; [exact Hrw|exact Hed|exact Hc|lia..| | |lia]; unfold p, saddr, data_end; lia. }
    split; [|apply Hed']. replace (newlen - oldlen) with (toks_len mid' - toks_len mid) by lia.
    apply (rw_edit m); [done|unfold fits, data_end; apply Z.leb_le; lia| |done].
    by rewrite El, El', !(Z.add_comm k).
Qed.
