(* ===== verification/FdtRwProp.v ===== *)
(** The property edits of fdt_rw.c on an editable tree. *)
From S2P Require Import Prelude Monad Memory Libfdt Fdt FdtSpec FdtTree FdtRo FdtWip FdtRead FdtNav FdtRw.
From S2P Require Import FdtEdit FdtRwSpec.

(** ** The property of a node *)

(** The first property of that name among the items before the first subnode:
    the items before it, its name offset and value, and the items after it. *)
Fixpoint split_prop (strs name : list byte) (items : list item)
    : option (list item * Z * list byte * list item) :=
  match items with
  | IProp no d :: its =>
    if bool_decide (strs_get strs no = Some name) then Some ([], no, d, its)
    else '(a, no', d', b) ← split_prop strs name its; Some (IProp no d :: a, no', d', b)
  | INop :: its => '(a, no, d, b) ← split_prop strs name its; Some (INop :: a, no, d, b)
  | _ => None
  end.

(** The value of a property, and what reading it returns. *)
Definition prop_value (strs : list byte) (items : list item) (name : list byte) : option (list byte) :=
  '(_, _, d, _) ← split_prop strs name items; Some d.

Definition value_read (m : mem) (r : res (option Z * Z)) (v : option (list byte)) : Prop :=
  match v with
  | Some v => exists p, r = Ret (Some p, zlen v) /\ bytes_at m p v
  | None => r = Ret (None, - FDT_ERR_NOTFOUND)
  end.

(** The tree a node is in: the tokens around it. *)
Definition in_tree (pre : list tok) (name : list byte) (items : list item) (post : list tok) : list tok :=
  pre ++ flat (INode name items) ++ post.

Lemma split_prop_Some strs name items a no d b :
  split_prop strs name items = Some (a, no, d, b) ->
  items = a ++ IProp no d :: b /\ strs_get strs no = Some name.
Proof.
  revert a no d b. induction items as [|it items IH]; intros a no d b; [done|].
  destruct it as [|no1 d1|]; cbn [split_prop]; [| |done].
  - destruct (split_prop strs name items) as [[[[a' no'] d'] b']|] eqn:E; [|done].
    intros [= <- <- <- <-]. destruct (IH _ _ _ _ eq_refl) as [-> ?]. done.
  - case_bool_decide; [by intros [= <- <- <- <-]|].
    destruct (split_prop strs name items) as [[[[a' no'] d'] b']|] eqn:E; [|done].
    intros [= <- <- <- <-]. destruct (IH _ _ _ _ eq_refl) as [-> ?]. done.
Qed.

Lemma find_prop_items strs name items post o :
  find_prop strs name (flats items ++ TEnd :: post) o =
    match split_prop strs name items with
    | Some (a, no, d, b) => inr (o + toks_len (flats a), d)
    | None => inl (- FDT_ERR_NOTFOUND)
    end.
Proof.
  revert o. induction items as [|it items IH]; intros o; [done|]. rewrite flats_cons.
  destruct it as [|no d|nm its]; cbn [flat flats flat_map app find_prop split_prop]; [| |done].
  - rewrite IH. destruct (split_prop strs name items) as [[[[a no] d] b]|]; [|done].
    cbn. do 2 f_equal. fold (flats a). lia.
  - case_bool_decide; [cbn; by rewrite Z.add_0_r|].
    rewrite IH. destruct (split_prop strs name items) as [[[[a no'] d'] b]|]; [|done].
    cbn -[Z.add tok_len]. do 2 f_equal. fold (flats a). lia.
Qed.

(** The tokens around an item of a node. *)
Lemma in_tree_mid pre name a its b post :
  in_tree pre name (a ++ its ++ b) post =
  (pre ++ [TBegin name] ++ flats a) ++ flats its ++ (flats b ++ TEnd :: post).
Proof. unfold in_tree. rewrite flat_node_app, !flats_app. cbn [app]. by rewrite <- !app_assoc. Qed.

Lemma in_tree_begin pre name items post :
  in_tree pre name items post = pre ++ TBegin name :: (flats items ++ TEnd :: post).
Proof. unfold in_tree. by rewrite flat_node_app. Qed.

(** [fdt_rw_probe_] accepts an editable tree and changes nothing. *)
Lemma fdt_rw_probe_at m fdt h rsv ts strs :
  rw_at m fdt h rsv ts strs -> fdt_rw_probe_ m fdt = Ret (0, m).
Proof.
  intros Hrw. pose proof (rw_layout _ _ _ _ _ _ Hrw) as (L1 & L2 & L3 & L4 & L5 & L6).
  pose proof (rw_tree _ _ _ _ _ _ Hrw) as Ht. pose proof (blob_hdr _ _ _ (sa_blob _ _ _ _ (ta_struct _ _ _ _ _ Ht))) as Hh.
  hdr_ranges Hh. pose proof (rw_head _ _ _ _ _ _ Hrw). pose proof (rw_rsv_room _ _ _ _ _ _ Hrw).
  pose proof (rw_version _ _ _ _ _ _ Hrw). pose proof (zlen_nonneg rsv). pose proof (toks_len_nonneg ts).
  unfold fdt_rw_probe_. noassume. rewrite (ro_probe_at _ _ _ _ _ Ht (fun e => (e, m))). rd Hh. noassume.
  destruct (Z.ltb_spec (h_version h) 17); [lia|].
  unfold fdt_blocks_misordered_, data_end in *. rd Hh. unfold sizeof_fdt_reserve_entry, sizeof_fdt_header.
  rewrite s32_small by ilia. rewrite !u32_small by ilia.
  change (FDT_ALIGN 40 8) with 40.
  destruct (Z.ltb_spec (h_off_rsv h) 40); [lia|].
  destruct (Z.ltb_spec (h_off_struct h) (h_off_rsv h + 16)); [lia|].
  destruct (Z.ltb_spec (h_off_strings h) (h_off_struct h + h_size_struct h)); [lia|].
  destruct (Z.ltb_spec (h_totalsize h) (h_off_strings h + h_size_strings h)); [lia|]. cbn [orb].
  by destruct (Z.ltb_spec 17 (h_version h)); [lia|].
Qed.

Lemma FDT_RW_PROBE_at m fdt h rsv ts strs k :
  rw_at m fdt h rsv ts strs -> FDT_RW_PROBE m fdt k = k m.
Proof. intros H. unfold FDT_RW_PROBE. by rewrite (fdt_rw_probe_at _ _ _ _ _ _ H). Qed.

Lemma TAGALIGN_small len : 0 <= len <= INT_MAX - 3 -> s32 (FDT_TAGALIGN len) = align_up len 4.
Proof.
  intros H. unfold FDT_TAGALIGN, FDT_ALIGN, FDT_TAGSIZE. pose proof (align_up_4_bounds len).
  apply s32_small. ilia.
Qed.

(** A property token from its words; the value is what is there. *)
Lemma prop_toks m a no len :
  bytes_at m a (be_enc32 FDT_PROP) -> bytes_at m (a + 4) (be_enc32 len) ->
  bytes_at m (a + 8) (be_enc32 no) -> valid m (a + 12) len -> is_u32 no -> 0 <= len ->
  exists X, zlen X = len /\ bytes_at m (a + 12) X /\ toks_at m a [TProp no X].
Proof.
  intros H1 H2 H3 Hv Hno Hl. destruct (load_valid m (a + 12) (Z.to_nat len)) as (X & _ & El & HX);
    [by rewrite Z2Nat.id|].
  assert (zlen X = len) as HlX by (unfold zlen; lia). exists X. split; [done|]. split; [done|].
  cbn [toks_at tok_ok]. split; [done|]. split; [|done]. cbn [tok_enc]. rewrite HlX.
  rewrite !bytes_at_app, !be_enc32_length. change (Z.of_nat 4) with 4.
  replace (a + 4 + 4 + 4) with (a + 12) by lia. by replace (a + 4 + 4) with (a + 8) by lia.
Qed.

Lemma prop_words m a no d :
  bytes_at m a (tok_enc (TProp no d)) ->
  bytes_at m a (be_enc32 FDT_PROP) /\ bytes_at m (a + 8) (be_enc32 no) /\ bytes_at m (a + 12) d.
Proof.
  cbn [tok_enc]. rewrite !bytes_at_app, !be_enc32_length. change (Z.of_nat 4) with 4.
  replace (a + 4 + 4 + 4) with (a + 12) by lia. replace (a + 4 + 4) with (a + 8) by lia. tauto.
Qed.

(** The three stores that make a property over the bytes at [p]. *)
Lemma write_prop_at m p v len :
  valid m p (12 + align_up len 4) -> 0 <= len ->
  exists m' X,
    (let! m := st32 m (prop_tag p) FDT_PROP in
     let! m := st32 m (prop_nameoff p) v in
     st32 m (prop_len p) len) = Ret m' /\
    zlen X = len /\ bytes_at m' (p + 12) X /\ toks_at m' p [TProp (u32 v) X] /\
    changes m m' p (12 + align_up len 4).
Proof.
  intros Hv Hl. pose proof (align_up_4_bounds len).
  unfold prop_tag, prop_nameoff, prop_len. rewrite st32_valid by (eapply valid_sub; [exact Hv|lia..]).
  cbn [rbind]. rewrite st32_valid by (apply upd_valid; eapply valid_sub; [exact Hv|lia..]).
  cbn [rbind]. rewrite st32_valid by (do 2 apply upd_valid; eapply valid_sub; [exact Hv|lia..]).
  set (m' := upd (upd (upd m p (be_enc32 FDT_PROP)) (p + 8) (be_enc32 v)) (p + 4) (be_enc32 len)).
  destruct (prop_toks m' p (u32 v) len) as (X & HX & HbX & HtX);
    [apply upd_bytes_out; [apply upd_bytes_out; [apply upd_at|]|]; rewrite !be_enc32_length; lia
    |apply upd_at|rewrite be_enc32_u32; apply upd_bytes_out; [apply upd_at|rewrite !be_enc32_length; lia]
    |do 3 apply upd_valid; eapply valid_sub; [exact Hv|lia..]|apply u32_range|lia|].
  exists m', X. repeat (split; [done|]).
  repeat (apply changes_upd_in; [|exact Hv|rewrite ?be_enc32_zlen; lia..]). apply changes_refl.
Qed.

Section prop.
Context (m : mem) (fdt : Z) (h : header) (rsv : list (Z * Z)) (strs : list byte).
Context (pre post : list tok) (nm : list byte) (items : list item).
Context (Hrw : rw_at m fdt h rsv (in_tree pre nm items post) strs).

Let Ht : tree_at m fdt h (in_tree pre nm items post) strs := rw_tree _ _ _ _ _ _ Hrw.
Let Hst : struct_at m fdt h (in_tree pre nm items post) := ta_struct _ _ _ _ _ Ht.
Let Hb : blob m fdt h := sa_blob _ _ _ _ Hst.
Let Hh : hdr_at m fdt h := blob_hdr _ _ _ Hb.

(** Where the contents of the node start. *)
Let body : Z := body_off (toks_len pre) nm.

Lemma get_property_at name :
  fdt_get_property_w m fdt (toks_len pre) name =
    Ret match split_prop strs name items with
        | Some (a, no, d, b) => (Some (saddr fdt h (body + toks_len (flats a))), zlen d)
        | None => (None, - FDT_ERR_NOTFOUND)
        end.
Proof using Hrw.
  unfold fdt_get_property_w, fdt_get_property, fdt_get_property_namelen. rd Hh. noassume.
  rewrite (rw_version _ _ _ _ _ _ Hrw). change (17 <? 16) with false. cbv iota.
  rewrite (get_property_namelen_at _ _ _ _ _ Ht _ _ _ name (in_tree_begin _ _ _ _)), find_prop_items.
  destruct (split_prop strs name items) as [[[[a no] d] b]|]; done.
Qed.

(** The property [a, no, d, b] of the node, and a splice of its value. *)
Section one.
Context (a b : list item) (no : Z) (d : list byte).
Context (Eit : items = a ++ IProp no d :: b).

Let o : Z := body + toks_len (flats a).

Lemma prop_place :
  in_tree pre nm items post =
    (pre ++ [TBegin nm] ++ flats a) ++ [TProp no d] ++ (flats b ++ TEnd :: post) /\
  o = toks_len (pre ++ [TBegin nm] ++ flats a).
Proof using Eit.
  split; [rewrite Eit; apply (in_tree_mid _ _ _ [IProp no d])|].
  unfold o, body, body_off. rewrite !toks_len_app. cbn [toks_len]. lia.
Qed.

Lemma prop_here :
  0 <= o /\ o + tok_len (TProp no d) <= h_size_struct h /\ is_u32 no /\ zlen d <= INT_MAX - 20 /\
  bytes_at m (saddr fdt h o) (tok_enc (TProp no d)).
Proof using Hrw Eit.
  destruct prop_place as [E Eo]. rewrite Eo. pose proof Hst as Hst'. rewrite E in Hst'.
  destruct (struct_tok _ _ _ _ Hst' _ _ _ eq_refl) as (H1 & H2 & (H3 & _ & H4)%in_struct_true).
  pose proof (rw_version _ _ _ _ _ _ Hrw). split; [done|]. split; [lia|]. split; [done|]. split; [|done].
  eapply (prop_data_bound _ _ _ _ _ Ht). exact E.
Qed.

(** The value is given another length; the bytes it keeps are those that were
    there. *)
Lemma splice_value_at len :
  0 <= len <= INT_MAX - 15 ->
  let p := saddr fdt h o in
  if fits h (align_up (zlen d) 4) (align_up len 4) then
    exists m1, fdt_splice_struct_ m fdt (p + 12) (s32 (FDT_TAGALIGN (zlen d))) (s32 (FDT_TAGALIGN len)) = Ret (0, m1) /\
    exists m' X, st32 m1 (prop_len p) len = Ret m' /\ zlen X = len /\
      rw_at m' fdt (hdr_splice h (align_up len 4 - align_up (zlen d) 4)) rsv
        (in_tree pre nm (a ++ IProp no X :: b) post) strs /\
      bytes_at m' (p + 12) X /\ changes m m' fdt (h_totalsize h) /\
      (forall d1 d2, d = d1 ++ d2 -> zlen d1 <= len -> take (length d1) X = d1)
  else fdt_splice_struct_ m fdt (p + 12) (s32 (FDT_TAGALIGN (zlen d))) (s32 (FDT_TAGALIGN len)) = Ret (- FDT_ERR_NOSPACE, m).
Proof using Hrw Eit.
  intros Hlen p. destruct prop_here as (H1 & H2 & H3 & H4 & H5).
  destruct prop_place as [Ets Eo]. pose proof Hrw as Hrw'. rewrite Ets in Hrw'.
  pose proof (zlen_nonneg d). pose proof (align_up_4_bounds (zlen d)). pose proof (align_up_4_bounds len).
  rewrite !TAGALIGN_small by ilia. set (al := align_up len 4) in *.
  pose proof (rw_splice _ _ _ _ _ _ _ _ 12 (align_up (zlen d) 4) al Hrw'
    ltac:(cbn [toks_len tok_len]; lia) ltac:(lia) ltac:(lia) ltac:(lia) ltac:(ilia)) as Hsp.
  rewrite <- Eo in Hsp. cbv zeta in Hsp. fold p in Hsp.
  destruct (fits h _ _); [|exact Hsp]. destruct Hsp as (m1 & -> & _ & Hv & Hcp & Hedit).
  exists m1. split; [done|]. unfold prop_len. assert (valid m1 (p + 4) 4) as Hv4 by (eapply valid_sub; [exact Hv|lia..]).
  rewrite st32_valid by exact Hv4. set (m' := upd m1 (p + 4) (be_enc32 len)).
  assert (changes m1 m' (p + 4) 4) as Hc by (by apply (changes_upd m1 (p + 4) (be_enc32 len))).
  destruct (prop_words _ _ _ _ H5) as (W1 & W2 & W3).
  assert (forall k l, 0 <= k -> k + zlen l <= 12 + al -> k + zlen l <= 4 \/ 8 <= k ->
    bytes_at m (p + k) l -> bytes_at m' (p + k) l) as Hkeep.
  { intros k l Hk Hk2 Hk3 Hl. eapply copied_bytes; [|exact Hl].
    eapply copied_changes; [|exact Hc|lia]. eapply copied_at; [exact Hcp|lia..]. }
  destruct (prop_toks m' p no len) as (X & HX & HbX & HtX);
    [rewrite <- (Z.add_0_r p); apply Hkeep; rewrite ?be_enc32_zlen; [lia..|by rewrite Z.add_0_r]
    |apply upd_at|apply Hkeep; rewrite ?be_enc32_zlen; [lia..|exact W2]
    |eapply changes_valid; [exact Hc|]; eapply valid_sub; [exact Hv|lia..]|done|lia|].
  destruct (Hedit m' [TProp no X]) as [Hrw2 Hc2];
    [eapply changes_weak; [exact Hc|lia..]|cbn [toks_len tok_len]; rewrite HX; fold al; lia|exact HtX|].
  exists m', X. split; [done|]. split; [done|]. split; [|split; [done|split; [exact Hc2|]]].
  - change (IProp no X :: b) with ([IProp no X] ++ b). rewrite in_tree_mid. exact Hrw2.
  - intros d1 d2 -> Hd1. apply bytes_at_app in W3 as [W3 _].
    apply (bytes_at_inj m' (p + 12)); [by apply bytes_at_take|apply Hkeep; [lia|lia|lia|exact W3]|].
    rewrite length_take. unfold zlen in *. lia.
Qed.

Lemma rw_value_room :
  fdt <= saddr fdt h o + 12 /\ saddr fdt h o + 12 + zlen d <= fdt + h_totalsize h.
Proof using Hrw Eit.
  destruct prop_here as (H1 & H2 & H3 & H4 & H5). cbn [tok_len] in H2.
  pose proof (rw_layout _ _ _ _ _ _ Hrw) as (L1 & L2 & L3 & L4 & L5 & L6). hdr_ranges Hh.
  pose proof (align_up_4_bounds (zlen d)). unfold saddr, data_end in *. ilia.
Qed.

(** Bytes of the value overwritten in place. *)
Lemma write_value_at d1 d2 d3 val :
  d = d1 ++ d2 ++ d3 -> zlen val = zlen d2 ->
  exists m', store_bytes m (saddr fdt h o + 12 + zlen d1) val = Ret m' /\
    rw_at m' fdt h rsv (in_tree pre nm (a ++ IProp no (d1 ++ val ++ d3) :: b) post) strs /\
    changes m m' (saddr fdt h o + 12 + zlen d1) (zlen val).
Proof using Hrw Eit.
  intros Ed Elen. destruct prop_here as (H1 & H2 & H3 & H4 & H5). cbn [tok_len] in H2.
  destruct prop_place as [Ets Eo]. pose proof Hrw as Hrw'. rewrite Ets in Hrw'.
  pose proof (zlen_nonneg d1). pose proof (zlen_nonneg d3). pose proof (zlen_nonneg val).
  pose proof (align_up_4_bounds (zlen d)). assert (zlen d = zlen d1 + zlen val + zlen d3) as Edl by (rewrite Ed, !zlen_app; lia).
  pose proof (rw_layout _ _ _ _ _ _ Hrw). set (P := saddr fdt h o) in *.
  pose proof (bytes_at_valid _ _ _ H5) as Hv5. change (Z.of_nat (length ?l)) with (zlen l) in Hv5.
  assert (zlen (tok_enc (TProp no d)) = 12 + zlen d) as Ez.
  { cbn [tok_enc]. rewrite !zlen_app. change (zlen (be_enc32 _)) with 4. lia. }
  assert (valid m (P + 12 + zlen d1) (zlen val)) as Hv.
  { eapply valid_sub; [exact Hv5|lia|]. fold (zlen (tok_enc (TProp no d))). lia. }
  rewrite store_valid by exact Hv. eexists. split; [done|]. split; [|by apply changes_upd].
  change (IProp no (d1 ++ val ++ d3) :: b) with ([IProp no (d1 ++ val ++ d3)] ++ b). rewrite in_tree_mid.
  apply (rw_patch m _ _ _ _ _ _ [TProp no d] [TProp no (d1 ++ val ++ d3)] _ Hrw').
  - rewrite <- Eo. cbn [toks_len tok_len]. eapply changes_weak; [by apply changes_upd|fold P; lia|].
    fold P. lia.
  - cbn [toks_len tok_len]. rewrite !zlen_app, Edl. do 3 f_equal. lia.
  - rewrite <- Eo. split; [done|]. split; [|done]. fold P.
    set (w := be_enc32 FDT_PROP ++ be_enc32 (zlen d) ++ be_enc32 no ++ d1).
    assert (forall v, zlen v = zlen d2 -> tok_enc (TProp no (d1 ++ v ++ d3)) = w ++ v ++ d3) as Ew.
    { intros v Ev. unfold w. cbn [tok_enc]. rewrite <- !app_assoc.
      assert (zlen (d1 ++ v ++ d3) = zlen d) as -> by (rewrite Edl, !zlen_app; lia). done. }
    rewrite Ed, Ew in H5 by done. rewrite Ew by done.
    replace (P + 12 + zlen d1) with (P + zlen w) by (unfold w; rewrite !zlen_app, !be_enc32_zlen; lia).
    apply upd_mid with d2; [exact H5|]. unfold zlen in Elen. lia.
Qed.
End one.

Lemma resize_property_at name len :
  0 <= len <= INT_MAX - 15 ->
  match split_prop strs name items with
  | Some (a, no, d, b) =>
    let p := saddr fdt h (body + toks_len (flats a)) in
    if fits h (align_up (zlen d) 4) (align_up len 4) then
      exists m' X, fdt_resize_property_ m fdt (toks_len pre) name len = Ret (0, Some p, m') /\
        zlen X = len /\ bytes_at m' (p + 12) X /\
        rw_at m' fdt (hdr_splice h (align_up len 4 - align_up (zlen d) 4)) rsv
          (in_tree pre nm (a ++ IProp no X :: b) post) strs /\
        changes m m' fdt (h_totalsize h)
    else fdt_resize_property_ m fdt (toks_len pre) name len = Ret (- FDT_ERR_NOSPACE, Some p, m)
  | None => fdt_resize_property_ m fdt (toks_len pre) name len = Ret (- FDT_ERR_NOTFOUND, None, m)
  end.
Proof using Hrw.
  intros Hlen. unfold fdt_resize_property_. rewrite get_property_at. cbn [rbind].
  destruct (split_prop strs name items) as [[[[a no] d] b]|] eqn:E; [|done].
  apply split_prop_Some in E as [E _]. cbv zeta. unfold prop_data.
  pose proof (splice_value_at a b no d E len Hlen) as Hsp.
  destruct (fits h _ _); [|by rewrite Hsp].
  destruct Hsp as (m1 & -> & m2 & X & E2 & HX & Hrw2 & HbX & Hc & _). cbn [rbind].
  change (negb (0 =? 0)) with false. cbv iota. rewrite E2.
  cbn [rbind]. eauto 10.
Qed.

(** A new property in front of the contents of the node. *)
Lemma insert_prop_at no len :
  0 <= len <= INT_MAX - 15 -> is_u32 no ->
  let p := saddr fdt h body in
  if fits h 0 (12 + align_up len 4) then
    exists m1, fdt_splice_struct_ m fdt p 0 (12 + align_up len 4) = Ret (0, m1) /\
    exists m' X,
      (let! m := st32 m1 (prop_tag p) FDT_PROP in
       let! m := st32 m (prop_nameoff p) no in
       st32 m (prop_len p) len) = Ret m' /\
      zlen X = len /\ bytes_at m' (p + 12) X /\
      rw_at m' fdt (hdr_splice h (12 + align_up len 4)) rsv
        (in_tree pre nm (IProp no X :: items) post) strs /\
      changes m m' fdt (h_totalsize h)
  else fdt_splice_struct_ m fdt p 0 (12 + align_up len 4) = Ret (- FDT_ERR_NOSPACE, m).
Proof using Hrw.
  intros Hlen Hno p. pose proof (align_up_4_bounds len). set (al := align_up len 4) in *.
  assert (body = toks_len (pre ++ [TBegin nm])) as Eb by (by rewrite toks_len_snoc).
  assert (rw_at m fdt h rsv ((pre ++ [TBegin nm] ++ flats []) ++ flats [] ++ (flats items ++ TEnd :: post)) strs)
    as Hrw' by (rewrite <- in_tree_mid; exact Hrw).
  pose proof (rw_splice _ _ _ _ _ _ _ _ 0 0 (12 + al) Hrw'
    ltac:(done) ltac:(lia) ltac:(lia) ltac:(lia) ltac:(ilia)) as Hsp.
  change ([TBegin nm] ++ flats []) with [TBegin nm] in Hsp. cbv zeta in Hsp.
  rewrite <- Eb, Z.add_0_r in Hsp. fold p in Hsp.
  destruct (fits h 0 (12 + al)); [|exact Hsp]. destruct Hsp as (m1 & E1 & _ & Hv1 & _ & Hedit).
  rewrite Z.add_0_l, Z.sub_0_r in *. exists m1. split; [exact E1|].
  destruct (write_prop_at m1 p no len Hv1 ltac:(lia)) as (m' & X & Ew & HX & HbX & HtX & Hc).
  rewrite u32_small in HtX by done.
  destruct (Hedit m' [TProp no X] Hc) as [Hrw2 Hc2]; [cbn [toks_len tok_len]; rewrite HX; fold al; lia|exact HtX|].
  exists m', X. split; [exact Ew|]. split; [done|]. split; [done|]. split; [|exact Hc2].
  change (IProp no X :: items) with ([] ++ [IProp no X] ++ items). rewrite in_tree_mid. exact Hrw2.
Qed.
End prop.

(** ** Whole operations *)

(** The room and the header after a new property of [len] bytes. *)
Definition add_growth (strs name : list byte) (len : Z) : Z :=
  str_growth strs name + (12 + align_up len 4).

Definition hdr_add (h : header) (strs name : list byte) (len : Z) : header :=
  hdr_splice (hdr_strings h (str_growth strs name)) (12 + align_up len 4).

(** Setting a property to [val]: the first one of that name is changed, a new
    one goes in front of the contents. *)
Definition set_items (strs name : list byte) (items : list item) (val : list byte) : list item :=
  match split_prop strs name items with
  | Some (a, no, d, b) => a ++ IProp no val :: b
  | None => IProp (add_str strs name).2 val :: items
  end.

Definition set_strs (strs name : list byte) (items : list item) : list byte :=
  match split_prop strs name items with
  | Some _ => strs
  | None => (add_str strs name).1
  end.

Definition set_growth (strs name : list byte) (items : list item) (len : Z) : Z :=
  match split_prop strs name items with
  | Some (a, no, d, b) => align_up len 4 - align_up (zlen d) 4
  | None => add_growth strs name len
  end.

Definition set_hdr (h : header) (strs name : list byte) (items : list item) (len : Z) : header :=
  match split_prop strs name items with
  | Some (a, no, d, b) => hdr_splice h (align_up len 4 - align_up (zlen d) 4)
  | None => hdr_add h strs name len
  end.

(** The structure offset of the property after that. *)
Definition set_pos (strs name : list byte) (items : list item) : Z :=
  match split_prop strs name items with
  | Some (a, no, d, b) => toks_len (flats a)
  | None => 0
  end.

Section ops.
Context (m : mem) (fdt : Z) (h : header) (rsv : list (Z * Z)) (strs : list byte).
Context (pre post : list tok) (nm : list byte) (items : list item).
Context (Hrw : rw_at m fdt h rsv (in_tree pre nm items post) strs).

Let Ht : tree_at m fdt h (in_tree pre nm items post) strs := rw_tree _ _ _ _ _ _ Hrw.
Let Hst : struct_at m fdt h (in_tree pre nm items post) := ta_struct _ _ _ _ _ Ht.
Let Hh : hdr_at m fdt h := blob_hdr _ _ _ (sa_blob _ _ _ _ Hst).
Let body : Z := body_off (toks_len pre) nm.

(** What a failed edit leaves: the same tree. *)
Definition unchanged (m' : mem) : Prop :=
  rw_at m' fdt h rsv (in_tree pre nm items post) strs /\ changes m m' fdt (h_totalsize h).

Lemma unchanged_refl : unchanged m.
Proof using Hrw. split; [done|apply changes_refl]. Qed.

Lemma add_property_at name len :
  0 <= len <= INT_MAX - 15 -> zlen name < INT_MAX ->
  if fits h 0 (add_growth strs name len) then
    exists m' X, fdt_add_property_ m fdt (toks_len pre) name len = Ret (0, Some (saddr fdt h body), m') /\
      zlen X = len /\ bytes_at m' (saddr fdt h body + 12) X /\
      rw_at m' fdt (hdr_add h strs name len) rsv
        (in_tree pre nm (IProp (add_str strs name).2 X :: items) post) (add_str strs name).1 /\
      changes m m' fdt (h_totalsize h)
  else exists m' p, fdt_add_property_ m fdt (toks_len pre) name len = Ret (- FDT_ERR_NOSPACE, p, m') /\
    unchanged m'.
Proof using Hrw.
  intros Hlen Hname. pose proof (align_up_4_bounds len). unfold fdt_add_property_, add_growth.
  rewrite (check_node_at _ _ _ _ Hst _ _ _ (in_tree_begin _ _ _ _)). cbn [rbind].
  pose proof (toks_len_nonneg pre). pose proof (tok_len_ge (TBegin nm)).
  destruct (Z.ltb_spec (toks_len pre + tok_len (TBegin nm)) 0); [lia|].
  change (toks_len pre + tok_len (TBegin nm)) with body.
  pose proof (fdt_find_add_string_at _ _ _ _ _ _ Hrw name Hname) as Hadd.
  assert (0 <= str_growth strs name) as Hg.
  { unfold str_growth. destruct (str_pos strs name); pose proof (zlen_nonneg name); lia. }
  unfold fits in *. destruct (Z.leb_spec (data_end h - 0 + str_growth strs name) (h_totalsize h)) as [Hf1|Hf1].
  2:{ rewrite Hadd. cbn [rbind]. destruct (Z.leb_spec (data_end h - 0 + (str_growth strs name + (12 + align_up len 4))) (h_totalsize h)); [lia|].
      exists m, None. split; [done|apply unchanged_refl]. }
  destruct Hadd as (m1 & -> & Hrw1 & Hc1). cbn [rbind].
  destruct (add_str_offset m fdt h rsv _ strs name Hrw) as [Hn0 Hnu].
  destruct (Z.ltb_spec (add_str strs name).2 0); [lia|].
  pose proof (sa_blob _ _ _ _ (ta_struct _ _ _ _ _ (rw_tree _ _ _ _ _ _ Hrw1))) as Hb1.
  unfold fdt_offset_ptr_w_. rewrite (rd_offset_ptr_ _ _ _ (blob_hdr _ _ _ Hb1)). cbn [rbind].
  change (saddr fdt (hdr_strings h (str_growth strs name)) body) with (saddr fdt h body).
  replace (s32 (sizeof_fdt_property + FDT_TAGALIGN len)) with (12 + align_up len 4)
    by (unfold FDT_TAGALIGN, FDT_ALIGN, FDT_TAGSIZE; symmetry; apply s32_small; elia).
  pose proof (insert_prop_at _ _ _ _ _ _ _ _ _ Hrw1 (add_str strs name).2 len Hlen Hnu) as Hins.
  cbv zeta in Hins. change (saddr fdt (hdr_strings h (str_growth strs name)) _) with (saddr fdt h body) in Hins.
  unfold fits, data_end in *. revert Hins. hdr_simpl. intros Hins.
  destruct (Z.leb_spec (h_off_strings h + h_size_strings h - 0 + (str_growth strs name + (12 + align_up len 4))) (h_totalsize h)),
    (Z.leb_spec (h_off_strings h + (h_size_strings h + str_growth strs name) - 0 + (12 + align_up len 4)) (h_totalsize h)); try lia.
  - destruct Hins as (m2 & -> & m3 & X & E3 & HX & HbX & Hrw3 & Hc3). cbn [rbind].
    change (negb (0 =? 0)) with false. cbv iota. exists m3, X.
    split; [|split; [done|split; [done|split; [done|]]]].
    + destruct (st32 m2 _ _); [|discriminate E3]. cbn [rbind] in *. destruct (st32 _ (prop_nameoff _) _); [|discriminate E3].
      cbn [rbind] in *. by rewrite E3.
    + eapply changes_trans; [exact Hc1|exact Hc3].
  - rewrite Hins. cbn [rbind]. change (negb (- FDT_ERR_NOSPACE =? 0)) with true. cbv iota. noassume.
    destruct (str_pos strs name) as [k|] eqn:Ep; cbn [is_null].
    + exists m1, (Some (saddr fdt h body)). split; [done|]. unfold str_growth, add_str in Hrw1. rewrite Ep, hdr_strings_0 in Hrw1.
      by split.
    + unfold str_growth, add_str in Hrw1. rewrite Ep in Hrw1.
      destruct (fdt_del_last_string_at _ _ _ _ _ _ Hrw1 name strs h eq_refl eq_refl) as (m2 & -> & Hrw2 & Hc2).
      cbn [rbind]. eexists m2, _. split; [done|]. split; [done|]. eapply changes_trans; [exact Hc1|exact Hc2].
Qed.

(** The value's place is made; it holds some bytes [X]. *)
Lemma setprop_placeholder_at name len :
  0 <= len <= INT_MAX - 15 -> zlen name < INT_MAX ->
  if data_end h + set_growth strs name items len <=? h_totalsize h then
    exists m' X, fdt_setprop_placeholder m fdt (toks_len pre) name len =
        Ret (0, Some (saddr fdt h (body + set_pos strs name items) + 12), m') /\
      zlen X = len /\
      rw_at m' fdt (set_hdr h strs name items len) rsv
        (in_tree pre nm (set_items strs name items X) post) (set_strs strs name items) /\
      changes m m' fdt (h_totalsize h)
  else exists m', fdt_setprop_placeholder m fdt (toks_len pre) name len = Ret (- FDT_ERR_NOSPACE, None, m') /\
    unchanged m'.
Proof using Hrw.
  intros Hlen Hname. unfold fdt_setprop_placeholder. rewrite (fdt_rw_probe_at _ _ _ _ _ _ Hrw). cbn [rbind].
  change (negb (0 =? 0)) with false. cbv iota.
  pose proof (resize_property_at _ _ _ _ _ _ _ _ _ Hrw name len Hlen) as Hres.
  pose proof (add_property_at name len Hlen Hname) as Hadd.
  unfold set_growth, set_items, set_strs, set_hdr, set_pos, fits in *. cbv zeta in *.
  destruct (split_prop strs name items) as [[[[a no] d] b]|].
  - replace (data_end h + (align_up len 4 - align_up (zlen d) 4))
      with (data_end h - align_up (zlen d) 4 + align_up len 4) by lia.
    destruct (_ <=? _).
    + destruct Hres as (m' & X & -> & HX & _ & Hrw' & Hc). cbn [rbind nonnull].
      change (0 =? - FDT_ERR_NOTFOUND) with false. cbn [rbind nonnull].
      change (negb (0 =? 0)) with false. cbv iota. eauto 10.
    + rewrite Hres. cbn [rbind]. exists m. split; [done|apply unchanged_refl].
  - rewrite Hres. cbn [rbind]. change (- FDT_ERR_NOTFOUND =? - FDT_ERR_NOTFOUND) with true. cbv iota.
    rewrite Z.sub_0_r in Hadd. destruct (_ <=? _).
    + destruct Hadd as (m' & X & -> & HX & _ & Hrw' & Hc). cbn [rbind nonnull].
      change (negb (0 =? 0)) with false. cbv iota. rewrite Z.add_0_r. eauto 10.
    + destruct Hadd as (m' & p & -> & Hun). cbn [rbind]. by exists m'.
Qed.

(** Where the property is in the new tree. *)
Lemma set_items_split name X :
  exists a no b, set_items strs name items X = a ++ IProp no X :: b /\
    toks_len (flats a) = set_pos strs name items /\
    (forall X', set_items strs name items X' = a ++ IProp no X' :: b).
Proof using.
  unfold set_items, set_pos. destruct (split_prop strs name items) as [[[[a no] d] b]|].
  - by exists a, no, b.
  - by exists [], (add_str strs name).2, items.
Qed.

Lemma set_hdr_struct name len :
  h_off_struct (set_hdr h strs name items len) = h_off_struct h /\
  h_totalsize (set_hdr h strs name items len) = h_totalsize h.
Proof using. unfold set_hdr. by destruct (split_prop strs name items) as [[[[a no] d] b]|]. Qed.

Lemma setprop_at name val :
  zlen val <= INT_MAX - 15 -> zlen name < INT_MAX ->
  if data_end h + set_growth strs name items (zlen val) <=? h_totalsize h then
    exists m', fdt_setprop m fdt (toks_len pre) name val = Ret (0, m') /\
      rw_at m' fdt (set_hdr h strs name items (zlen val)) rsv
        (in_tree pre nm (set_items strs name items val) post) (set_strs strs name items) /\
      changes m m' fdt (h_totalsize h)
  else exists m', fdt_setprop m fdt (toks_len pre) name val = Ret (- FDT_ERR_NOSPACE, m') /\ unchanged m'.
Proof using Hrw.
  intros Hval Hname. pose proof (zlen_nonneg val).
  pose proof (setprop_placeholder_at name (zlen val) ltac:(lia) Hname) as Hph.
  unfold fdt_setprop. fold (zlen val). destruct (_ <=? _).
  2:{ destruct Hph as (m' & -> & Hun). cbn [rbind]. by exists m'. }
  destruct Hph as (m1 & X & -> & HX & Hrw1 & Hc1). cbn [rbind]. change (negb (0 =? 0)) with false. cbv iota.
  destruct (Z.eqb_spec (zlen val) 0) as [E0|N0]; cbn [negb].
  { exists m1. destruct val; [|unfold zlen in E0; cbn in E0; lia]. destruct X; [done|].
    rewrite zlen_cons in HX. pose proof (zlen_nonneg X). change (zlen (@nil byte)) with 0 in HX. lia. }
  cbn [nonnull rbind]. destruct (set_items_split name X) as (a & no & b & E1 & E2 & E3).
  destruct (set_hdr_struct name (zlen val)) as [Eo Et].
  rewrite E1 in Hrw1. destruct (write_value_at _ _ _ _ _ _ _ _ _ Hrw1 a b no X eq_refl [] X [] val) as (m2 & Es & Hrw2 & Hc2);
    [by rewrite app_nil_r|done|].
  unfold saddr in Es. change (zlen (@nil byte)) with 0 in Es.
  rewrite Eo, E2, Z.add_0_r in Es. unfold saddr. change (body_off (toks_len pre) nm) with body in Es. rewrite Es. cbn [rbind].
  exists m2. split; [done|]. cbn [app] in Hrw2. rewrite app_nil_r in Hrw2. rewrite E3. split; [exact Hrw2|].
  eapply changes_trans; [exact Hc1|].
  pose proof (rw_value_room _ _ _ _ _ _ _ _ _ Hrw1 a b no X eq_refl) as [R1 R2]. rewrite Et in R2.
  eapply changes_weak; [exact Hc2|change (zlen (@nil byte)) with 0; lia..].
Qed.
(** Deleting a property always fits. *)
Lemma delprop_at name :
  match split_prop strs name items with
  | Some (a, no, d, b) =>
    exists m', fdt_delprop m fdt (toks_len pre) name = Ret (0, m') /\
      rw_at m' fdt (hdr_splice h (- (12 + align_up (zlen d) 4))) rsv (in_tree pre nm (a ++ b) post) strs /\
      changes m m' fdt (h_totalsize h)
  | None => fdt_delprop m fdt (toks_len pre) name = Ret (- FDT_ERR_NOTFOUND, m)
  end.
Proof using Hrw.
  unfold fdt_delprop. rewrite (FDT_RW_PROBE_at _ _ _ _ _ _ _ Hrw), (get_property_at _ _ _ _ _ _ _ _ _ Hrw). cbn [rbind].
  destruct (split_prop strs name items) as [[[[a no] d] b]|] eqn:E; [|done].
  apply split_prop_Some in E as [E _]. destruct (prop_place pre post nm items a b no d E) as [Ets Eo].
  destruct (prop_here _ _ _ _ _ _ _ _ _ Hrw a b no d E) as (H1 & H2 & H3 & H4 & H5).
  pose proof (zlen_nonneg d). pose proof (align_up_4_bounds (zlen d)).
  replace (s32 (sizeof_fdt_property + FDT_TAGALIGN (zlen d))) with (12 + align_up (zlen d) 4)
    by (unfold FDT_TAGALIGN, FDT_ALIGN, FDT_TAGSIZE; symmetry; apply s32_small; elia).
  pose proof Hrw as Hrw'. rewrite Ets in Hrw'. pose proof (rw_layout _ _ _ _ _ _ Hrw).
  pose proof (rw_splice _ _ _ _ _ _ _ _ 0 (12 + align_up (zlen d) 4) 0 Hrw'
    ltac:(cbn [toks_len tok_len]; lia) ltac:(lia) ltac:(lia) ltac:(lia) ltac:(ilia)) as Hsp.
  cbv zeta in Hsp. rewrite <- Eo, Z.add_0_r in Hsp. unfold fits in Hsp.
  destruct (Z.leb_spec (data_end h - (12 + align_up (zlen d) 4) + 0) (h_totalsize h)); [|lia].
  destruct Hsp as (m' & E1 & _ & _ & _ & Hedit). exists m'. split; [exact E1|].
  destruct (Hedit m' [] (changes_refl _ _ _) eq_refl I) as [Hrw2 Hc2].
  rewrite (in_tree_mid pre nm a [] b). by split.
Qed.

(** Appending to a property, or adding it. *)
Definition app_items (name : list byte) (val : list byte) : list item :=
  match split_prop strs name items with
  | Some (a, no, d, b) => a ++ IProp no (d ++ val) :: b
  | None => IProp (add_str strs name).2 val :: items
  end.

Definition app_len (name : list byte) (len : Z) : Z :=
  match split_prop strs name items with
  | Some (a, no, d, b) => zlen d + len
  | None => len
  end.

Lemma appendprop_at name val :
  app_len name (zlen val) <= INT_MAX - 15 -> zlen name < INT_MAX ->
  if data_end h + set_growth strs name items (app_len name (zlen val)) <=? h_totalsize h then
    exists m', fdt_appendprop m fdt (toks_len pre) name val = Ret (0, m') /\
      rw_at m' fdt (set_hdr h strs name items (app_len name (zlen val))) rsv
        (in_tree pre nm (app_items name val) post) (set_strs strs name items) /\
      changes m m' fdt (h_totalsize h)
  else exists m', fdt_appendprop m fdt (toks_len pre) name val = Ret (- FDT_ERR_NOSPACE, m') /\ unchanged m'.
Proof using Hrw.
  intros Hval Hname. pose proof (zlen_nonneg val).
  unfold fdt_appendprop. rewrite (FDT_RW_PROBE_at _ _ _ _ _ _ _ Hrw), (get_property_at _ _ _ _ _ _ _ _ _ Hrw). cbn [rbind].
  fold (zlen val). unfold app_items, app_len, set_growth, set_hdr, set_strs in *.
  destruct (split_prop strs name items) as [[[[a no] d] b]|] eqn:E.
  - apply split_prop_Some in E as [E _]. pose proof (zlen_nonneg d).
    rewrite (Z.add_comm (zlen val)), sint_small by ilia. cbn [rbind]. unfold prop_data.
    pose proof (splice_value_at _ _ _ _ _ _ _ _ _ Hrw a b no d E (zlen d + zlen val) ltac:(lia)) as Hsp.
    cbv zeta in Hsp. unfold fits in *.
    replace (data_end h + (align_up (zlen d + zlen val) 4 - align_up (zlen d) 4))
      with (data_end h - align_up (zlen d) 4 + align_up (zlen d + zlen val) 4) by lia.
    destruct (_ <=? _).
    2:{ rewrite Hsp. cbn [rbind]. exists m. split; [done|apply unchanged_refl]. }
    destruct Hsp as (m1 & -> & m2 & X & E2 & HX & Hrw2 & HbX & Hc & Htake). cbn [rbind].
    change (negb (0 =? 0)) with false. cbv iota. rewrite E2. cbn [rbind]. specialize (Htake d [] ltac:(by rewrite app_nil_r) ltac:(lia)).
    destruct (write_value_at _ _ _ _ _ _ _ _ _ Hrw2 a b no X eq_refl d (drop (length d) X) [] val) as (m3 & E3 & Hrw3 & Hc3).
    { rewrite app_nil_r. rewrite <- Htake at 1. by rewrite take_drop. }
    { unfold zlen in *. rewrite length_drop. lia. }
    rewrite app_nil_r in Hrw3. exists m3. pose proof (rw_value_room _ _ _ _ _ _ _ _ _ Hrw2 a b no X eq_refl) as [R1 R2].
    unfold saddr in *. revert E3 R1 R2 Hc3. hdr_simpl. intros E3 R1 R2 Hc3. rewrite E3. cbn [rbind].
    split; [done|]. split; [exact Hrw3|]. eapply changes_trans; [exact Hc|].
    eapply changes_weak; [exact Hc3|lia..].
  - pose proof (add_property_at name (zlen val) ltac:(lia) Hname) as Hadd.
    unfold fits in Hadd. rewrite Z.sub_0_r in Hadd. destruct (_ <=? _).
    2:{ destruct Hadd as (m' & p & -> & Hun). cbn [rbind]. by exists m'. }
    destruct Hadd as (m1 & X & -> & HX & _ & Hrw1 & Hc1). cbn [rbind nonnull]. change (negb (0 =? 0)) with false. cbv iota.
    destruct (write_value_at _ _ _ _ _ _ _ _ _ Hrw1 [] items _ X eq_refl [] X [] val) as (m2 & E2 & Hrw2 & Hc2);
      [by rewrite app_nil_r|done|].
    rewrite app_nil_r in Hrw2. exists m2. pose proof (rw_value_room _ _ _ _ _ _ _ _ _ Hrw1 [] items _ X eq_refl) as [R1 R2].
    cbn [flats flat_map toks_len] in *. change (zlen (@nil byte)) with 0 in *. rewrite !Z.add_0_r in *.
    unfold saddr, prop_data in *. change (body_off (toks_len pre) nm) with body in E2, R1, R2, Hc2.
    unfold hdr_add in *. revert E2 R1 R2 Hc2. hdr_simpl. intros E2 R1 R2 Hc2.
    rewrite E2. cbn [rbind]. split; [done|]. split; [exact Hrw2|].
    eapply changes_trans; [exact Hc1|]. eapply changes_weak; [exact Hc2|lia..].
Qed.
End ops.

(** ** Reading after an edit *)

Lemma getprop_value m fdt h strs pre nm items post name :
  tree_at m fdt h (in_tree pre nm items post) strs ->
  value_read m (fdt_getprop m fdt (toks_len pre) name) (prop_value strs items name).
Proof.
  intros Ht. unfold fdt_getprop, prop_value. rewrite (getprop_namelen_at _ _ _ _ _ Ht _ _ _ name (in_tree_begin _ _ _ _)).
  rewrite find_prop_items. destruct (split_prop strs name items) as [[[[a no] d] b]|] eqn:E; [|done].
  apply split_prop_Some in E as [E _]. destruct (prop_place pre post nm items a b no d E) as [Ets Eo].
  cbn [mbind option_bind value_read]. eexists. split; [done|].
  unfold body_off in Eo. rewrite Eo. rewrite Ets in Ht.
  destruct (struct_tok _ _ _ _ (ta_struct _ _ _ _ _ Ht) _ _ _ eq_refl) as (_ & Hat & _).
  by apply tok_prop_at in Hat as (_ & _ & Hat).
Qed.

(** A value lies in the blob. *)
Lemma prop_value_small m fdt h strs pre nm items post name v :
  tree_at m fdt h (in_tree pre nm items post) strs -> prop_value strs items name = Some v -> zlen v <= INT_MAX.
Proof.
  intros Ht. unfold prop_value. destruct (split_prop strs name items) as [[[[a no] d] b]|] eqn:E; [|done].
  cbn [mbind option_bind]. intros [= ->]. apply split_prop_Some in E as [E _].
  destruct (prop_place pre post nm items a b no v E) as [Ets _]. rewrite Ets in Ht.
  destruct (struct_tok _ _ _ _ (ta_struct _ _ _ _ _ Ht) _ _ _ eq_refl) as (_ & _ & (R1 & R2 & R3)%in_struct_true).
  pose proof (ta_total _ _ _ _ _ Ht). hdr_ranges (blob_hdr _ _ _ (sa_blob _ _ _ _ (ta_struct _ _ _ _ _ Ht))).
  cbn [tok_len] in *. pose proof (align_up_4_bounds (zlen v)). ilia.
Qed.

Lemma split_prop_cons_nop strs name items :
  prop_value strs (INop :: items) name = prop_value strs items name.
Proof. unfold prop_value. cbn [split_prop]. by destruct (split_prop strs name items) as [[[[? ?] ?] ?]|]. Qed.

Lemma prop_value_cons strs name no d items :
  prop_value strs (IProp no d :: items) name =
    if bool_decide (strs_get strs no = Some name) then Some d else prop_value strs items name.
Proof.
  unfold prop_value. cbn [split_prop]. case_bool_decide; [done|].
  by destruct (split_prop strs name items) as [[[[? ?] ?] ?]|].
Qed.

(** Growing the strings block keeps the values of the named properties. *)
Lemma prop_value_grow strs strs' items name :
  (forall o x, strs_get strs o = Some x -> strs_get strs' o = Some x) ->
  Forall (fun t => match t with TProp no _ => is_Some (strs_get strs no) | _ => True end) (flats items) ->
  prop_value strs' items name = prop_value strs items name.
Proof.
  intros Hg. induction items as [|it items IH]; [done|]. rewrite flats_cons, Forall_app. intros [H1 H2].
  specialize (IH H2). destruct it as [|no d|]; [by rewrite !split_prop_cons_nop| |done].
  rewrite !prop_value_cons, IH. cbn [flat] in H1. apply Forall_cons in H1 as [[x Hx] _].
  by rewrite Hx, (Hg _ _ Hx).
Qed.

Lemma prop_value_set strs name items val name' :
  no_nul name ->
  Forall (fun t => match t with TProp no _ => is_Some (strs_get strs no) | _ => True end) (flats items) ->
  prop_value (set_strs strs name items) (set_items strs name items val) name' =
    if bool_decide (name' = name) then Some val else prop_value strs items name'.
Proof.
  intros Hn Hok. unfold set_strs, set_items. destruct (split_prop strs name items) as [[[[a no] d] b]|] eqn:E.
  - clear Hok. revert a no d b E. induction items as [|it items IH]; intros a no d b; [done|].
    destruct it as [|no1 d1|]; cbn [split_prop]; [| |done].
    + destruct (split_prop strs name items) as [[[[a' no'] d'] b']|]; [|done]. intros [= <- <- <- <-].
      cbn [app]. rewrite !split_prop_cons_nop. exact (IH _ _ _ _ eq_refl).
    + destruct (bool_decide_reflect (strs_get strs no1 = Some name)) as [Hno|Hno].
      * intros [= <- <- <- <-]. cbn [app]. rewrite !prop_value_cons, Hno.
        destruct (decide (name' = name)) as [->|Hne]; [by rewrite !bool_decide_eq_true_2|].
        by rewrite !bool_decide_eq_false_2 by congruence.
      * destruct (split_prop strs name items) as [[[[a' no'] d'] b']|]; [|done]. intros [= <- <- <- <-].
        cbn [app]. rewrite !prop_value_cons, (IH _ _ _ _ eq_refl).
        destruct (bool_decide_reflect (strs_get strs no1 = Some name')) as [Hc|]; [|done].
        by rewrite bool_decide_eq_false_2 by (intros ->; done).
  - rewrite prop_value_cons, add_str_get by done.
    rewrite (prop_value_grow strs) by (done || apply add_str_mono).
    destruct (decide (name' = name)) as [->|Hne]; [by rewrite !bool_decide_eq_true_2|].
    by rewrite !bool_decide_eq_false_2 by congruence.
Qed.
