(* ===== verification/Sample.v ===== *)
(** A concrete tree, at which the witnesses evaluate the theorems. *)
From S2P Require Import Prelude Monad Memory Libfdt Fdt FdtSpec FdtTree FdtRo FdtWip FdtRead FdtNav.
From S2P Require Import FdtCheckSpec FdtEdit FdtRwSpec FdtRwProp.

Definition b4 (n : Z) : list byte := be_enc32 n.

(** / { compatible = "acme"; n@1 { reg = <1>; phandle = <7>; }; m { }; }; *)
Definition s_n1 : item := INode (str "n@1") [IProp 11 (b4 1); IProp 15 (b4 7)].
Definition s_m : item := INode (str "m") [].
Definition s_items : list item := [IProp 0 (str "acme" ++ [x00]); INop; s_n1; s_m].
Definition s_root : item := INode [] s_items.
Definition s_toks : list tok := flat s_root.

Definition s_strs : list byte :=
  str "compatible" ++ x00 :: str "reg" ++ x00 :: str "phandle" ++ [x00].

Definition s_struct : list byte := flat_map tok_bytes s_toks ++ b4 FDT_END.

(** Header, an empty reserve map, the structure block, the strings, and room. *)
Definition s_base : Z := 4096.
Definition s_hdr : header :=
  Header FDT_MAGIC 256 56 (56 + zlen s_struct) 40 17 16 0 (zlen s_strs) (zlen s_struct).
Definition s_words : list Z :=
  [h_magic s_hdr; h_totalsize s_hdr; h_off_struct s_hdr; h_off_strings s_hdr; h_off_rsv s_hdr;
   h_version s_hdr; h_last_comp s_hdr; h_cpuid s_hdr; h_size_strings s_hdr; h_size_struct s_hdr].
Definition s_used : list byte :=
  flat_map be_enc32 s_words ++ replicate 16 x00 ++ s_struct ++ s_strs.
Definition s_bytes : list byte := s_used ++ replicate (256 - length s_used) x00.
Definition s_mem : mem := upd ∅ s_base s_bytes.

Lemma load_bytes_at_inv m a l : load m a (length l) = Ret l -> bytes_at m a l.
Proof. by intros [_ H]%load_inv. Qed.

Ltac bytes_eval := apply load_bytes_at_inv; vm_compute; reflexivity.

Lemma s_valid : valid s_mem s_base 256.
Proof. by apply (bytes_at_valid s_mem s_base s_bytes), upd_at. Qed.

Lemma s_hdr_at : hdr_at s_mem s_base s_hdr.
Proof. intros []; vm_compute; reflexivity. Qed.

Lemma s_blob : blob s_mem s_base s_hdr.
Proof.
  constructor; [apply s_hdr_at|apply s_valid|vm_compute; discriminate|vm_compute; discriminate].
Qed.

Lemma no_nul_dec s : bool_decide (x00 ∉ s) = true -> no_nul s.
Proof. apply bool_decide_eq_true. Qed.

Lemma s_struct_at : struct_at s_mem s_base s_hdr s_toks.
Proof.
  constructor; [apply s_blob|vm_compute; discriminate| |bytes_eval|vm_compute; reflexivity].
  repeat (apply conj; [first [exact I|apply no_nul_dec; vm_compute; reflexivity
                             |cbn [tok_ok]; ilia]|apply conj; [bytes_eval|]]).
  exact I.
Qed.

Lemma s_tree_at : tree_at s_mem s_base s_hdr s_toks s_strs.
Proof.
  constructor; [apply s_struct_at|..]; first
    [bytes_eval|vm_compute; reflexivity|vm_compute; discriminate].
Qed.

(** ** The sample tree can be edited. *)

Lemma s_rw_at : rw_at s_mem s_base s_hdr [] (in_tree [] [] s_items []) s_strs.
Proof.
  constructor; [apply s_tree_at|reflexivity|vm_compute; discriminate| |vm_compute; discriminate|vm_compute; discriminate].
  split; [constructor|]. exists 0. bytes_eval.
Qed.

Lemma s_names_ok : names_ok s_strs (flats s_items).
Proof. repeat (constructor; [first [exact I|vm_compute; eauto]|]). constructor. Qed.
