(* ===== verification/ReadProps.v ===== *)
(** Properties of the readers: fdt.c, fdt_ro.c, fdt_check.c. *)
From S2P Require Import Prelude Monad Memory Libfdt Fdt FdtSpec FdtTree FdtRo FdtCheck FdtSafe FdtWip FdtRead.
From S2P Require Import FdtNav FdtCheckSpec Sample.

(** ** Validation *)

(** C1. [fdt_check_full] decides, for a header of version 17 or later and a
    readable buffer below 2 GiB in which no property length the walk can meet
    wraps: it returns, without leaving the buffer, and the result is 0 exactly
    when the header is sound, the blob fits the buffer, the reserve map ends,
    and the structure block holds items whose property names are strings of
    the strings block, with at most one root, unnamed and last. As the code
    does, this accepts a block without a root, and properties before it; when
    the block starts with a node, the result is 0 exactly when it is one
    well-formed tree with an unnamed root. *)
Theorem fdt_check_full_decides m fdt h bufsize :
  hdr_at m fdt h -> valid m fdt bufsize -> bufsize < INT_MAX -> 17 <= h_version h ->
  (forall o, tag_reach m fdt h o -> len_ok m fdt h o) ->
  exists r, fdt_check_full m fdt bufsize = Ret r /\ is_s32 r /\ (r = 0 <-> accepted m fdt h bufsize) /\
    (ld32 m (saddr fdt h 0) = Ret FDT_BEGIN_NODE -> r = 0 <-> accepted_tree m fdt h bufsize).
Proof.
  intros Hh Hv Hb H17 Hl.
  destruct (proj1 (wp_total_ex _ _) (fdt_check_full_wp m fdt h bufsize Hh Hv Hb H17 Hl)) as (r & E & Hr & Ha).
  exists r. split; [exact E|]. split; [exact Hr|]. split; [exact Ha|]. intros H. by rewrite Ha, accepted_rooted.
Qed.

Theorem fdt_check_full_decides_witness :
  ld32 s_mem (saddr s_base s_hdr 0) = Ret FDT_BEGIN_NODE /\
  exists r, fdt_check_full s_mem s_base 256 = Ret r /\ is_s32 r /\
    (r = 0 <-> accepted s_mem s_base s_hdr 256) /\
    (ld32 s_mem (saddr s_base s_hdr 0) = Ret FDT_BEGIN_NODE -> r = 0 <-> accepted_tree s_mem s_base s_hdr 256).
Proof.
  split; [vm_compute; reflexivity|]. apply (fdt_check_full_decides s_mem s_base s_hdr 256).
  - apply s_hdr_at.
  - apply s_valid.
  - reflexivity.
  - vm_compute; discriminate.
  - intros o. apply (reach_len_ok _ _ _ s_toks), s_struct_at.
Defined.

(** C2. [fdt_check_header] returns 0 exactly for the headers whose blocks lie
    in the blob, for every supported version. *)
Theorem fdt_check_header_decides m fdt h :
  hdr_at m fdt h -> fdt_check_header m fdt = Ret 0 <-> header_ok fdt h.
Proof. apply fdt_check_header_iff. Qed.

Theorem fdt_check_header_decides_witness :
  fdt_check_header s_mem s_base = Ret 0 <-> header_ok s_base s_hdr.
Proof. apply fdt_check_header_decides, s_hdr_at. Defined.

(** ** Bounds *)

(** C3. The wrap-around tests of [fdt_offset_ptr] amount to exact range
    arithmetic: the pointer is returned just when the [len] bytes at [offset]
    lie in the blob and, from version 17, in the structure block. *)
Theorem fdt_offset_ptr_bounds m fdt h offset len :
  hdr_at m fdt h -> is_s32 offset -> is_u32 len ->
  fdt_offset_ptr m fdt offset len =
    Ret (if in_struct h offset len then Some (saddr fdt h offset) else None).
Proof. apply fdt_offset_ptr_eq. Qed.

Theorem fdt_offset_ptr_bounds_witness :
  fdt_offset_ptr s_mem s_base 4 4294967295 =
    Ret (if in_struct s_hdr 4 4294967295 then Some (saddr s_base s_hdr 4) else None).
Proof. apply fdt_offset_ptr_bounds; [apply s_hdr_at|ilia|ilia]. Defined.

(** C4. One step of the tag walker, for every offset and any contents: where
    no property length wraps, [fdt_next_tag] returns what [tag_step] says of
    the bytes there, errors and their reasons included; where a property does
    have a length with which the [int] arithmetic wraps, it returns what
    [prop_wraps] computes modulo 2^32, which can be an overflow, or a property
    that takes no room at all. *)
Theorem fdt_next_tag_exact m fdt h start :
  blob m fdt h -> is_s32 start ->
  (len_ok m fdt h start /\
   exists tag next, fdt_next_tag m fdt start = Ret (tag, next) /\ tag_step m fdt h start tag next) \/
  (exists len, ld32 m (saddr fdt h start) = Ret FDT_PROP /\ ld32 m (saddr fdt h (start + 4)) = Ret len /\
     in_struct h start 4 = true /\ in_struct h (start + 4) 4 = true /\ INT_MAX < start + 16 + len /\
     fdt_next_tag m fdt start = prop_wraps h start len).
Proof.
  intros Hb Hs. destruct (len_ok_or m fdt h start) as [HL|(len & H1 & H2 & H3 & H4 & H5)]; [left|right].
  - split; [exact HL|]. pose proof (fdt_next_tag_wp _ _ _ Hb total start Hs (or_intror HL)) as W.
    apply wp_total_ex in W as ([tag next] & -> & W). eauto.
  - exists len. repeat (split; [done|]). by apply fdt_next_tag_wraps.
Qed.

Theorem fdt_next_tag_exact_witness :
  exists tag next, fdt_next_tag s_mem s_base 8 = Ret (tag, next) /\
    tag_step s_mem s_base s_hdr 8 tag next.
Proof.
  destruct (fdt_next_tag_exact s_mem s_base s_hdr 8) as [[_ H]|(len & _ & H & _ & _ & Hl & _)];
    [apply s_blob|ilia|exact H|].
  vm_compute in H. injection H as <-. vm_compute in Hl. discriminate Hl.
Defined.

(** C5. Whatever the blob holds, walking it with [fdt_next_node] never
    touches memory outside the blob. *)
Theorem fdt_next_node_memory_safe m fdt h offset depth :
  blob m fdt h -> is_s32 offset -> (forall d, depth = Some d -> is_s32 d) ->
  fdt_next_node m fdt offset depth <> Fault Oob.
Proof.
  intros Hb Ho Hd. eapply wp_memsafe.
  apply (fdt_next_node_wp m fdt h Hb (fun _ => True) ltac:(done) memsafe False);
    [done|by left|done|done|]. destruct depth as [d|]; [|done]. split; [by apply Hd|done].
Qed.

Theorem fdt_next_node_memory_safe_witness :
  fdt_next_node (upd s_mem 4200 (str "garbage")) s_base 24 (Some 1) <> Fault Oob.
Proof.
  apply (fdt_next_node_memory_safe _ _ s_hdr).
  - constructor; [intros []; vm_compute; reflexivity|apply upd_valid, s_valid|vm_compute; discriminate..].
  - ilia.
  - intros d [= <-]. ilia.
Defined.

(** C6. On a complete blob of any contents where no reachable property length
    wraps, looking up a property by name returns, and the value it returns
    lies in the blob with its whole length. *)
Theorem fdt_getprop_in_blob m fdt h P nodeoffset name :
  sane_blob m fdt h P -> is_s32 nodeoffset -> P nodeoffset ->
  exists p len, fdt_getprop m fdt nodeoffset name = Ret (p, len) /\
    match p with
    | Some p => 0 <= len <= INT_MAX /\ valid m p len
    | None => is_s32 len /\ len < 0
    end.
Proof.
  intros Hs Ho HP. pose proof (fdt_getprop_namelen_wp _ _ _ _ Hs _ name Ho HP) as W.
  apply wp_total_ex in W as ([p len] & E & W). exists p, len. by rewrite <- E.
Qed.

Theorem fdt_getprop_in_blob_witness :
  exists p len, fdt_getprop s_mem s_base 0 (str "compatible") = Ret (p, len) /\
    match p with
    | Some p => 0 <= len <= INT_MAX /\ valid s_mem p len
    | None => is_s32 len /\ len < 0
    end.
Proof.
  apply (fdt_getprop_in_blob _ _ s_hdr (boundary s_toks)).
  - apply (tree_sane _ _ _ _ _ s_tree_at).
  - ilia.
  - by exists [], s_toks.
Defined.

(** C7. On the same blobs every search over the nodes returns: by phandle, by
    property value, the largest phandle, a child by name, the depth and the
    parent of any offset. *)
Theorem searches_return m fdt h P offset ph name val :
  sane_blob m fdt h P -> is_s32 offset -> P (Z.max 0 offset) ->
  (exists r, fdt_node_offset_by_phandle m fdt ph = Ret r /\ is_s32 r) /\
  (exists r, fdt_node_offset_by_prop_value m fdt offset name val = Ret r /\ is_s32 r) /\
  (exists e max, fdt_find_max_phandle m fdt = Ret (e, max) /\ e <= 0 /\ is_u32 max) /\
  (exists r, fdt_subnode_offset_namelen m fdt offset name = Ret r /\ (0 <= r -> P r)) /\
  (exists r, fdt_node_depth m fdt offset = Ret r /\ is_s32 r) /\
  (exists r, fdt_parent_offset m fdt offset = Ret r /\ is_s32 r).
Proof.
  intros Hs Ho HP. split; [|split; [|split; [|split; [|split]]]].
  - apply wp_total_ex, (fdt_node_offset_by_phandle_wp _ _ _ _ Hs).
  - by apply wp_total_ex, (fdt_node_offset_by_prop_value_wp _ _ _ _ Hs).
  - pose proof (fdt_find_max_phandle_wp _ _ _ _ Hs) as W.
    apply wp_total_ex in W as ([e max] & E & _ & ?). eauto.
  - pose proof (fdt_subnode_offset_namelen_wp _ _ _ _ Hs offset name Ho HP) as W.
    apply wp_total_ex in W as (r & E & _ & ?). eauto.
  - apply wp_total_ex, (fdt_node_depth_wp _ _ _ _ Hs).
  - apply wp_total_ex, (fdt_parent_offset_wp _ _ _ _ Hs).
Qed.

Theorem searches_return_witness :
  (exists r, fdt_node_offset_by_phandle s_mem s_base 7 = Ret r /\ is_s32 r) /\
  (exists r, fdt_node_offset_by_prop_value s_mem s_base (-1) (str "reg") (b4 1) = Ret r /\ is_s32 r) /\
  (exists e max, fdt_find_max_phandle s_mem s_base = Ret (e, max) /\ e <= 0 /\ is_u32 max) /\
  (exists r, fdt_subnode_offset_namelen s_mem s_base (-1) (str "reg") = Ret r /\
     (0 <= r -> boundary s_toks r)) /\
  (exists r, fdt_node_depth s_mem s_base (-1) = Ret r /\ is_s32 r) /\
  (exists r, fdt_parent_offset s_mem s_base (-1) = Ret r /\ is_s32 r).
Proof.
  apply (searches_return _ _ s_hdr (boundary s_toks)).
  - apply (tree_sane _ _ _ _ _ s_tree_at).
  - ilia.
  - by exists [], s_toks.
Defined.

(** ** Refinement to trees *)

(** C8. Property lookup on a well-formed tree: from a node the value found is
    the one of the first property of that name, or the reason there is none. *)
Theorem fdt_getprop_refines m fdt h strs pre nodename rest name :
  tree_at m fdt h (pre ++ TBegin nodename :: rest) strs ->
  fdt_getprop m fdt (toks_len pre) name =
    Ret match find_prop strs name rest (body_off (toks_len pre) nodename) with
        | inl e => (None, e)
        | inr (o, data) => (Some (saddr fdt h o + 12), zlen data)
        end.
Proof. intros Ht. by apply (getprop_namelen_at _ _ _ _ _ Ht). Qed.

Theorem fdt_getprop_refines_witness :
  fdt_getprop s_mem s_base (toks_len (flats (take 2 s_items)) + 8) (str "phandle") =
    Ret match find_prop s_strs (str "phandle") (tail (flats (drop 2 s_items)) ++ [TEnd])
                (body_off (toks_len (flats (take 2 s_items)) + 8) (str "n@1")) with
        | inl e => (None, e)
        | inr (o, data) => (Some (saddr s_base s_hdr o + 12), zlen data)
        end.
Proof.
  apply (fdt_getprop_refines s_mem s_base s_hdr s_strs (TBegin [] :: flats (take 2 s_items))).
  apply s_tree_at.
Defined.

(** C9. The children of a node: [fdt_subnode_offset_namelen] returns the first
    that matches the name, with or without the unit address, and otherwise
    [-FDT_ERR_NOTFOUND]; [fdt_first_subnode] and [fdt_next_subnode] enumerate
    exactly the children, in order, and end with [-FDT_ERR_NOTFOUND]. *)
Theorem subnodes_refine m fdt h strs pre name items post :
  tree_at m fdt h (pre ++ flat (INode name items) ++ post) strs ->
  (forall s, fdt_subnode_offset_namelen m fdt (toks_len pre) s =
    Ret match child s items (body_off (toks_len pre) name) with
        | Some (o, _, _) => o
        | None => - FDT_ERR_NOTFOUND
        end) /\
  fdt_first_subnode m fdt (toks_len pre) =
    Ret (first_off (children items (body_off (toks_len pre) name))) /\
  forall i1 cname its i2, items = i1 ++ INode cname its :: i2 ->
    let o := body_off (toks_len pre) name + toks_len (flats i1) in
    fdt_next_subnode m fdt o = Ret (first_off (children i2 (o + item_len (INode cname its)))).
Proof.
  intros Ht. split; [|split; [by apply (first_subnode_item _ _ _ _ _ _ _ _ Ht)|]].
  - intros s. rewrite flat_node_app in Ht. erewrite (fdt_subnode_offset_namelen_at _ _ _ _ _ Ht) by reflexivity.
    by rewrite find_sub_items.
  - intros i1 cname its i2 E. by apply (next_subnode_item _ _ _ _ _ _ _ _ Ht).
Qed.

Theorem subnodes_refine_witness :
  (forall s, fdt_subnode_offset_namelen s_mem s_base 0 s =
    Ret match child s s_items (body_off 0 []) with
        | Some (o, _, _) => o
        | None => - FDT_ERR_NOTFOUND
        end) /\
  fdt_first_subnode s_mem s_base 0 = Ret (first_off (children s_items (body_off 0 []))) /\
  forall i1 cname its i2, s_items = i1 ++ INode cname its :: i2 ->
    let o := body_off 0 [] + toks_len (flats i1) in
    fdt_next_subnode s_mem s_base o = Ret (first_off (children i2 (o + item_len (INode cname its)))).
Proof. apply (subnodes_refine _ _ s_hdr s_strs [] [] s_items []). apply s_tree_at. Defined.

(** C10. An absolute path is resolved component by component from the root. *)
Theorem fdt_path_offset_refines m fdt h strs name items post p :
  tree_at m fdt h (flat (INode name items) ++ post) strs ->
  head p = Some "/"%byte -> Z.of_nat (length p) < Z.pos loop_bound - 1 ->
  fdt_path_offset m fdt p = Ret (lookup_path (path_comps p) 0 name items).
Proof. intros Ht. by apply (fdt_path_offset_at _ _ _ _ _ Ht _ _ _ post). Qed.

Theorem fdt_path_offset_refines_witness :
  fdt_path_offset s_mem s_base (str "//n@1/") = Ret (lookup_path (path_comps (str "//n@1/")) 0 [] s_items).
Proof.
  apply (fdt_path_offset_refines _ _ s_hdr s_strs _ _ []); [apply s_tree_at|reflexivity|reflexivity].
Defined.
