(* ===== verification/FdtRwNode.v ===== *)
(** The node edits of fdt_rw.c on an editable tree. *)
From S2P Require Import Prelude Monad Memory Libfdt Fdt FdtSpec FdtTree FdtRo FdtWip FdtRead FdtNav FdtRw.
From S2P Require Import FdtEdit FdtRwSpec FdtRwProp.

(** The items before the first subnode, and the rest: a new subnode goes
    between them. *)
Fixpoint split_props (items : list item) : list item * list item :=
  match items with
  | INode name its :: items => ([], INode name its :: items)
  | it :: items => let '(a, b) := split_props items in (it :: a, b)
  | [] => ([], [])
  end.

(** [items] with the empty subnode [name] added. *)
Definition add_sub (items : list item) (name : list byte) : list item :=
  (split_props items).1 ++ INode name [] :: (split_props items).2.

Definition node_len (name : list byte) : Z := 8 + align_up (zlen name + 1) 4.

Lemma split_props_app items : items = (split_props items).1 ++ (split_props items).2.
Proof.
  induction items as [|it items IH]; [done|]. destruct it; cbn [split_props]; [| |done];
    destruct (split_props items); cbn in *; by rewrite IH.
Qed.

Lemma item_node_len name : item_len (INode name []) = node_len name.
Proof. unfold item_len, node_len. cbn. lia. Qed.

Lemma name_matches_refl name : name_matches name name = true.
Proof.
  unfold name_matches. rewrite firstn_all, drop_all. by rewrite bool_decide_eq_true_2.
Qed.

(** The new subnode comes before the others. *)
Lemma child_add_sub name items o :
  child name (add_sub items name) o = Some (o + toks_len (flats (split_props items).1), name, []).
Proof.
  unfold add_sub. revert o. induction items as [|it items IH]; intros o.
  - cbn. rewrite name_matches_refl. by rewrite Z.add_0_r.
  - destruct it as [|no d|nm its]; cbn [split_props];
      [| |cbn; rewrite name_matches_refl; by rewrite Z.add_0_r];
      destruct (split_props items) as [a b]; cbn [fst snd app child] in *;
      rewrite IH, flats_cons, toks_len_app; unfold item_len; do 3 f_equal; lia.
Qed.

(** The name and its padding. *)
Lemma name_toks m a name :
  no_nul name ->
  bytes_at m a (be_enc32 FDT_BEGIN_NODE) -> bytes_at m (a + 4) (name ++ [x00]) ->
  bytes_at m (a + 4 + align_up (zlen name + 1) 4) (be_enc32 FDT_END_NODE) ->
  toks_at m a [TBegin name; TEnd].
Proof.
  intros Hn H1 H2 H3. cbn [toks_at tok_ok tok_enc tok_len]. split; [done|]. split.
  - by rewrite bytes_at_app, be_enc32_length.
  - split; [done|]. split; [|done]. by rewrite Z.add_assoc.
Qed.

(** The stores that make an empty node over [node_len name] bytes at [p]. *)
Lemma write_node_at {A} m p name (k : mem -> res A) :
  no_nul name -> valid m p (node_len name) ->
  exists m', (let! m := st32 m (nh_tag p) FDT_BEGIN_NODE in
              let! m := memset m (nh_name p) x00 (align_up (zlen name + 1) 4) in
              let! m := store_bytes m (nh_name p) name in
              let! m := st32 m (p + node_len name - FDT_TAGSIZE) FDT_END_NODE in k m) = k m' /\
    toks_at m' p [TBegin name; TEnd] /\ changes m m' p (node_len name).
Proof.
  intros Hn Hv. pose proof (zlen_nonneg name). pose proof (align_up_4_bounds (zlen name + 1)).
  unfold node_len, nh_tag, nh_name, FDT_TAGSIZE in *. set (al := align_up (zlen name + 1) 4) in *.
  set (z := replicate (Z.to_nat al) x00). assert (zlen z = al) as Hz by (unfold z, zlen; rewrite length_replicate; lia).
  rewrite st32_valid by (eapply valid_sub; [exact Hv|lia..]). cbn [rbind].
  unfold memset. destruct (Z.ltb_spec al 0); [lia|]. fold z.
  rewrite store_valid by (apply upd_valid; fold (zlen z); rewrite Hz; eapply valid_sub; [exact Hv|lia..]). cbn [rbind].
  rewrite store_valid by (do 2 apply upd_valid; fold (zlen name); eapply valid_sub; [exact Hv|lia..]). cbn [rbind].
  rewrite st32_valid by (do 3 apply upd_valid; eapply valid_sub; [exact Hv|lia..]). cbn [rbind].
  eexists. split; [reflexivity|]. replace (p + (8 + al) - 4) with (p + 4 + al) by lia. split.
  - assert (z = take (length name) z ++ [x00] ++ drop (length name + 1) z) as Ez.
    { rewrite <- (take_drop (length name) z) at 1. f_equal. rewrite <- drop_drop. unfold z.
      rewrite drop_replicate. destruct (Z.to_nat al - length name)%nat eqn:E; [unfold zlen in *; lia|].
      cbn [replicate app]. done. }
    apply name_toks; [done|..].
    + apply upd_bytes_out; [|rewrite !be_enc32_length; lia].
      do 2 (apply upd_bytes_out; [|rewrite be_enc32_length; lia]). apply upd_at.
    + apply upd_bytes_out; [|rewrite length_app; cbn [length]; unfold zlen in *; lia].
      apply bytes_at_app. split; [apply upd_at|]. apply upd_bytes_out; [|cbn [length]; lia].
      pose proof (upd_at (upd m p (be_enc32 FDT_BEGIN_NODE)) (p + 4) z) as Hat. rewrite Ez in Hat at 2.
      rewrite !bytes_at_app in Hat. destruct Hat as (_ & Hat & _).
      rewrite length_take, Nat.min_l in Hat by (unfold zlen in *; lia). exact Hat.
    + apply upd_at.
  - repeat (apply changes_upd_in; [|exact Hv|rewrite ?be_enc32_zlen, ?Hz; lia..]). apply changes_refl.
Qed.

Section node.
Context (m : mem) (fdt : Z) (h : header) (rsv : list (Z * Z)) (strs : list byte).
Context (pre post : list tok) (nm : list byte) (items : list item).
Context (Hrw : rw_at m fdt h rsv (in_tree pre nm items post) strs).

Let Ht : tree_at m fdt h (in_tree pre nm items post) strs := rw_tree _ _ _ _ _ _ Hrw.
Let Hst : struct_at m fdt h (in_tree pre nm items post) := ta_struct _ _ _ _ _ Ht.
Let Hb : blob m fdt h := sa_blob _ _ _ _ Hst.
Let Hh : hdr_at m fdt h := blob_hdr _ _ _ Hb.
Let body : Z := body_off (toks_len pre) nm.

(** The loop over the properties stops at the first subnode or at the end. *)
Lemma fdt_skip_props_at :
  fdt_skip_props m fdt body = Ret (body + toks_len (flats (split_props items).1)).
Proof using Hrw.
  unfold fdt_skip_props. apply wp_total_eq.
  apply (toks_loop_wp _ _ _ _ Hst (fun pre' rest' s => s = toks_len pre' /\
    exists its, rest' = flats its ++ TEnd :: post /\
      toks_len pre' + toks_len (flats (split_props its).1) = body + toks_len (flats (split_props items).1))
    _ (pre ++ [TBegin nm]) (flats items ++ TEnd :: post)).
  - rewrite <- app_assoc. apply in_tree_begin.
  - rewrite toks_len_snoc. split; [done|]. by exists items.
  - intros pre' rest' s E (-> & its & -> & Hv). destruct its as [|it its].
    + rewrite (fdt_next_tag_at _ _ _ _ Hst _ _ _ E). cbn. cbn in Hv. lia.
    + rewrite flats_cons in *. destruct it as [|no d|name its'].
      * rewrite (fdt_next_tag_at _ _ _ _ Hst _ _ _ E). cbn. one_tok. rewrite toks_len_snoc.
        split; [done|]. exists its. split; [done|]. cbn [split_props] in Hv.
        destruct (split_props its) as [l l0]. cbn [fst] in *. rewrite flats_cons, toks_len_app in Hv. cbn [flat toks_len] in Hv. lia.
      * rewrite (fdt_next_tag_at _ _ _ _ Hst _ _ _ E). cbn -[tok_len]. one_tok. rewrite toks_len_snoc.
        split; [done|]. exists its. split; [done|]. cbn [split_props] in Hv.
        destruct (split_props its) as [l l0]. cbn [fst] in *. rewrite flats_cons, toks_len_app in Hv. cbn [flat toks_len] in Hv. lia.
      * rewrite (fdt_next_tag_at _ _ _ _ Hst _ _ _ E). cbn -[tok_len]. cbn in Hv. lia.
Qed.

Lemma add_subnode_at name :
  no_nul name -> zlen name <= INT_MAX - 20 ->
  match child name items body with
  | Some _ => fdt_add_subnode_namelen m fdt (toks_len pre) name = Ret (- FDT_ERR_EXISTS, m)
  | None =>
    let o := body + toks_len (flats (split_props items).1) in
    if fits h 0 (node_len name) then
      exists m', fdt_add_subnode_namelen m fdt (toks_len pre) name = Ret (o, m') /\
        rw_at m' fdt (hdr_splice h (node_len name)) rsv (in_tree pre nm (add_sub items name) post) strs /\
        changes m m' fdt (h_totalsize h)
    else fdt_add_subnode_namelen m fdt (toks_len pre) name = Ret (- FDT_ERR_NOSPACE, m)
  end.
Proof using Hrw.
  intros Hnn Hlen. pose proof (zlen_nonneg name). pose proof (align_up_4_bounds (zlen name + 1)).
  unfold fdt_add_subnode_namelen. rewrite (FDT_RW_PROBE_at _ _ _ _ _ _ _ Hrw).
  rewrite (fdt_subnode_offset_namelen_at _ _ _ _ _ Ht _ _ _ name (in_tree_begin _ _ _ _)), find_sub_items.
  cbn [rbind]. fold body. destruct (child name items body) as [[[o' nm'] its']|] eqn:Ec.
  { apply child_split in Ec as (i1 & i2 & _ & -> & _). pose proof (toks_len_nonneg (flats i1)).
    pose proof (toks_len_nonneg pre). pose proof (tok_len_ge (TBegin nm)). unfold body, body_off.
    set (x := _ + _ + _). by destruct (Z.leb_spec 0 x); [|lia]. }
  change (0 <=? - FDT_ERR_NOTFOUND) with false. change (negb (- FDT_ERR_NOTFOUND =? - FDT_ERR_NOTFOUND)) with false. cbv iota.
  rewrite (fdt_next_tag_at _ _ _ _ Hst _ _ _ (in_tree_begin _ _ _ _)). cbn [rbind tok_tag]. noassume.
  change (FDT_BEGIN_NODE =? FDT_BEGIN_NODE) with true. cbn [negb].
  change (toks_len pre + tok_len (TBegin nm)) with body. rewrite fdt_skip_props_at. cbn [rbind].
  unfold fdt_offset_ptr_w_. rd Hh. fold (zlen name). rewrite sint_small by ilia. cbn [rbind].
  set (a := (split_props items).1). set (b := (split_props items).2). cbv zeta. set (o := body + toks_len (flats a)).
  assert (FDT_TAGALIGN (zlen name + 1) = align_up (zlen name + 1) 4) as Eta by done. rewrite Eta.
  replace (s32 (sizeof_fdt_node_header + align_up (zlen name + 1) 4 + FDT_TAGSIZE)) with (node_len name)
    by (unfold node_len; symmetry; rewrite s32_small; elia).
  assert (rw_at m fdt h rsv ((pre ++ [TBegin nm] ++ flats a) ++ flats [] ++ (flats b ++ TEnd :: post)) strs) as Hrw'.
  { rewrite <- in_tree_mid. cbn [app]. unfold a, b. by rewrite <- split_props_app. }
  assert (o = toks_len (pre ++ [TBegin nm] ++ flats a)) as Eo.
  { unfold o, body, body_off. rewrite !toks_len_app. cbn [toks_len]. fold a. lia. }
  pose proof (rw_splice _ _ _ _ _ _ _ _ 0 0 (node_len name) Hrw' ltac:(done) ltac:(lia) ltac:(lia)
    ltac:(unfold node_len; lia) ltac:(unfold node_len; ilia)) as Hsp.
  cbv zeta in Hsp. rewrite <- Eo, Z.add_0_r in Hsp. fold o.
  destruct (fits h 0 (node_len name)); [|by rewrite Hsp].
  destruct Hsp as (m1 & -> & _ & Hv & _ & Hedit). cbn [rbind]. change (negb (0 =? 0)) with false. cbv iota.
  destruct (write_node_at m1 (saddr fdt h o) name (fun m => Ret (o, m)) Hnn Hv) as (m' & -> & Htk & Hc).
  destruct (Hedit m' [TBegin name; TEnd] Hc) as [Hrw2 Hc2];
    [cbn [toks_len tok_len]; unfold node_len; lia|exact Htk|].
  exists m'. split; [done|]. split; [|exact Hc2]. unfold add_sub. fold a b. rewrite Z.sub_0_r in Hrw2.
  change (INode name [] :: b) with ([INode name []] ++ b). rewrite in_tree_mid. exact Hrw2.
Qed.

Lemma node_end_at :
  fdt_node_end_offset_ m fdt (toks_len pre) = Ret (toks_len pre + item_len (INode nm items)) /\
  0 <= toks_len pre /\ 8 <= item_len (INode nm items) <= INT_MAX - 8.
Proof using Hrw.
  rewrite (fdt_node_end_offset_at _ _ _ _ _ Ht _ _ _ (in_tree_begin _ _ _ _)), end_off_items, item_len_node.
  pose proof (struct_bound _ _ _ _ Hst _ _ (in_tree_begin _ _ _ _)) as [H1 H2].
  pose proof (toks_len_nonneg pre). pose proof (toks_len_nonneg (flats items)). pose proof (tok_len_ge (TBegin nm)).
  pose proof (toks_len_nonneg post). cbn [toks_len] in H2. rewrite toks_len_app in H2. unfold body_off. cbn [toks_len tok_len] in *.
  split; [f_equal; lia|ilia].
Qed.

Lemma del_node_at :
  exists m', fdt_del_node m fdt (toks_len pre) = Ret (0, m') /\
    rw_at m' fdt (hdr_splice h (- item_len (INode nm items))) rsv (pre ++ post) strs /\
    changes m m' fdt (h_totalsize h).
Proof using Hrw.
  destruct node_end_at as (En & H0 & Hl). unfold fdt_del_node. rewrite (FDT_RW_PROBE_at _ _ _ _ _ _ _ Hrw), En. cbn [rbind].
  set (l := item_len (INode nm items)) in *. destruct (Z.ltb_spec (toks_len pre + l) 0); [lia|].
  unfold fdt_offset_ptr_w_. rd Hh. rewrite sint_small by ilia. cbn [rbind].
  replace (toks_len pre + l - toks_len pre) with l by lia. pose proof (rw_layout _ _ _ _ _ _ Hrw).
  pose proof (rw_splice _ _ _ _ _ _ _ _ 0 l 0 Hrw eq_refl ltac:(lia) ltac:(lia) ltac:(lia) ltac:(ilia)) as Hsp.
  cbv zeta in Hsp. rewrite Z.add_0_r in Hsp. unfold fits in Hsp.
  destruct (Z.leb_spec (data_end h - l + 0) (h_totalsize h)); [|lia].
  destruct Hsp as (m' & E1 & _ & _ & _ & Hedit). exists m'. split; [exact E1|].
  exact (Hedit m' [] (changes_refl _ _ _) eq_refl I).
Qed.

(** Renaming: the name's field is resized; the contents stay. *)
Lemma set_name_at name :
  no_nul name -> zlen name <= INT_MAX - 20 ->
  let d := align_up (zlen name + 1) 4 - align_up (zlen nm + 1) 4 in
  if data_end h + d <=? h_totalsize h then
    exists m', fdt_set_name m fdt (toks_len pre) name = Ret (0, m') /\
      rw_at m' fdt (hdr_splice h d) rsv (in_tree pre name items post) strs /\
      changes m m' fdt (h_totalsize h)
  else fdt_set_name m fdt (toks_len pre) name = Ret (- FDT_ERR_NOSPACE, m).
Proof using Hrw.
  intros Hnn Hlen d. unfold fdt_set_name. rewrite (FDT_RW_PROBE_at _ _ _ _ _ _ _ Hrw).
  rewrite (fdt_get_name_at _ _ _ _ _ Ht _ _ _ (in_tree_begin _ _ _ _)). cbn [rbind]. fold (zlen name).
  destruct (node_name_at _ _ _ _ _ Ht _ _ _ (in_tree_begin _ _ _ _)) as (Hat & _ & Hlo).
  pose proof (zlen_nonneg name). pose proof (zlen_nonneg nm).
  pose proof (align_up_4_bounds (zlen name + 1)). pose proof (align_up_4_bounds (zlen nm + 1)).
  rewrite !sint_small by ilia. cbn [rbind]. rewrite !TAGALIGN_small by ilia. unfold d.
  set (new := align_up (zlen name + 1) 4) in *. set (old := align_up (zlen nm + 1) 4) in *.
  pose proof Hrw as Hrw'. rewrite in_tree_begin in Hrw'. change (TBegin nm :: ?l) with ([TBegin nm] ++ l) in Hrw'.
  pose proof (rw_splice _ _ _ _ _ _ _ _ 4 old new Hrw' ltac:(cbn [toks_len tok_len]; lia) ltac:(lia) ltac:(lia)
    ltac:(lia) ltac:(ilia)) as Hsp. cbv zeta in Hsp. unfold fits in Hsp.
  replace (data_end h + (new - old)) with (data_end h - old + new) by lia.
  destruct (_ <=? _); [|by rewrite Hsp]. set (p := saddr fdt h (toks_len pre)) in *.
  destruct Hsp as (m1 & -> & _ & Hv & Hcp & Hedit). cbn [rbind]. change (negb (0 =? 0)) with false. cbv iota.
  assert (zlen (name ++ [x00]) = zlen name + 1) as Ez by (rewrite zlen_app; done).
  assert (valid m1 (p + 4) (zlen (name ++ [x00]))) as Hv4 by (eapply valid_sub; [exact Hv|lia..]).
  rewrite store_valid by exact Hv4. cbn [rbind]. eexists. split; [done|].
  rewrite in_tree_begin. change (TBegin name :: ?l) with ([TBegin name] ++ l).
  destruct (struct_tok _ _ _ _ Hst _ _ _ (in_tree_begin _ _ _ _)) as (_ & Hbe & _).
  fold p in Hbe. cbn [tok_enc] in Hbe. apply bytes_at_app in Hbe as [Hbe _].
  apply Hedit; [eapply changes_weak; [by apply changes_upd|lia..]|cbn [toks_len tok_len]; lia|].
  cbn [toks_at tok_ok tok_enc]. split; [done|]. split; [|done]. apply bytes_at_app. split; [|apply upd_at].
  apply upd_bytes_out; [|rewrite be_enc32_length; lia]. eapply copied_bytes; [|exact Hbe].
  eapply copied_at; [exact Hcp|rewrite ?be_enc32_zlen; lia..].
Qed.
End node.

(** ** The edits in place of fdt_wip.c on an editable tree: the header and the
    lengths of the blocks do not change. *)

(** [n] bytes of NOP tags. *)
Definition nops (n : Z) : list tok := replicate (Z.to_nat (n / 4)) TNop.
Definition inops (n : Z) : list item := replicate (Z.to_nat (n / 4)) INop.

Lemma toks_len_replicate k : toks_len (replicate k TNop) = 4 * Z.of_nat k.
Proof. induction k as [|k IH]; [done|]. cbn [replicate toks_len tok_len]. rewrite IH. lia. Qed.

Lemma toks_len_nops n : 0 <= n -> n mod 4 = 0 -> toks_len (nops n) = n.
Proof.
  intros H0 H4. unfold nops. rewrite toks_len_replicate.
  pose proof (Z.div_mod n 4). pose proof (Z.div_pos n 4). rewrite Z2Nat.id by lia. lia.
Qed.

Lemma flats_inops n : flats (inops n) = nops n.
Proof. unfold inops, nops. induction (Z.to_nat (n / 4)) as [|k IH]; [done|]. cbn. by rewrite <- IH. Qed.

Lemma toks_at_nops_snoc m a k :
  toks_at m a (replicate k TNop) -> bytes_at m (a + 4 * Z.of_nat k) (be_enc32 FDT_NOP) ->
  toks_at m a (replicate (S k) TNop).
Proof.
  intros H1 H2. rewrite replicate_S_end. apply toks_at_app. split; [done|].
  by rewrite toks_len_replicate.
Qed.

(** The loop that stores the NOPs covers [len] rounded up. *)
Lemma fdt_nop_region_at m p len :
  0 <= len <= INT_MAX -> valid m p (align_up len 4) ->
  exists m', fdt_nop_region_ m p len = Ret m' /\ toks_at m' p (nops (align_up len 4)) /\
    changes m m' p (align_up len 4).
Proof.
  intros Hlen Hv. apply wp_total_ex. unfold fdt_nop_region_.
  pose proof (align_up_4_bounds len) as [Hal H4]. set (al := align_up len 4) in *.
  pose proof (Z.div_mod al 4 ltac:(lia)) as Hd. pose proof (Z.div_pos al 4 ltac:(lia) ltac:(lia)) as Hq.
  apply (wp_loop _ (fun '(m', q) => exists k : nat, q = p + 4 * Z.of_nat k /\ Z.of_nat k <= al / 4 /\
           toks_at m' p (replicate k TNop) /\ changes m m' p al)
           (fun '(_, q) => p + al + 1 - q)).
  - exists 0%nat. split; [lia|]. split; [lia|]. split; [done|apply changes_refl].
  - intros [m' q] (k & -> & Hk & _). unfold loop_bound. ilia.
  - intros [m' q] (k & -> & Hk & Htk & Hc).
    destruct (Z.ltb_spec (p + 4 * Z.of_nat k) (p + len)) as [Hlt|Hge].
    + rewrite st32_valid by (eapply changes_valid; [exact Hc|]; eapply valid_sub; [exact Hv|lia..]).
      cbn [rbind wp]. split; [|lia]. exists (S k). split; [lia|]. split; [lia|]. split.
      * apply toks_at_nops_snoc; [|apply upd_at]. eapply copied_toks; [|exact Htk]. intros i Hi.
        rewrite toks_len_replicate in Hi. apply upd_lookup_out. rewrite be_enc32_length. lia.
      * apply changes_upd_in; [done|done|lia|rewrite be_enc32_zlen; lia].
    + cbn [wp]. split; [|done]. unfold nops. by replace (Z.to_nat (al / 4)) with k by lia.
Qed.

Section wip.
Context (m : mem) (fdt : Z) (h : header) (rsv : list (Z * Z)) (strs : list byte).
Context (pre post : list tok) (nm : list byte) (items : list item).
Context (Hrw : rw_at m fdt h rsv (in_tree pre nm items post) strs).

Let Ht : tree_at m fdt h (in_tree pre nm items post) strs := rw_tree _ _ _ _ _ _ Hrw.
Let Hst : struct_at m fdt h (in_tree pre nm items post) := ta_struct _ _ _ _ _ Ht.
Let Hb : blob m fdt h := sa_blob _ _ _ _ Hst.
Let Hh : hdr_at m fdt h := blob_hdr _ _ _ Hb.

Lemma tok_range p t q :
  in_tree pre nm items post = p ++ t ++ q ->
  valid m (saddr fdt h (toks_len p)) (toks_len t) /\ toks_len t <= INT_MAX - 8 /\
  fdt <= saddr fdt h (toks_len p) /\ saddr fdt h (toks_len p) + toks_len t <= fdt + h_totalsize h.
Proof using Hrw.
  intros E. pose proof (rw_layout _ _ _ _ _ _ Hrw) as (L1 & L2 & L3 & L4 & L5 & L6). hdr_ranges Hh.
  pose proof (struct_bound _ _ _ _ Hst _ _ E) as [S1 S2]. rewrite E, !toks_len_app in *.
  pose proof (toks_len_nonneg q). unfold data_end, saddr in *. split; [|ilia].
  eapply valid_sub; [apply (blob_valid _ _ _ Hb)|ilia..].
Qed.

Lemma nop_property_at name :
  match split_prop strs name items with
  | Some (a, no, d, b) =>
    exists m', fdt_nop_property m fdt (toks_len pre) name = Ret (0, m') /\
      rw_at m' fdt h rsv (in_tree pre nm (a ++ inops (12 + align_up (zlen d) 4) ++ b) post) strs /\
      changes m m' fdt (h_totalsize h)
  | None => fdt_nop_property m fdt (toks_len pre) name = Ret (- FDT_ERR_NOTFOUND, m)
  end.
Proof using Hrw.
  unfold fdt_nop_property. rewrite (get_property_at _ _ _ _ _ _ _ _ _ Hrw). cbn [rbind].
  destruct (split_prop strs name items) as [[[[a no] d] b]|] eqn:E; [|done].
  apply split_prop_Some in E as [E _]. destruct (prop_place pre post nm items a b no d E) as [Ets Eo].
  destruct (tok_range _ _ _ Ets) as (Hv & Hl & R1 & R2). cbn [toks_len tok_len] in Hv, Hl, R1, R2.
  rewrite Z.add_0_r in *. pose proof (zlen_nonneg d). pose proof (align_up_4_bounds (zlen d)).
  assert (align_up (zlen d + 12) 4 = 12 + align_up (zlen d) 4) as Ea by (rewrite Z.add_comm; by apply align_up_4_add).
  unfold sizeof_fdt_property. rewrite s32_small, Eo by ilia.
  destruct (fdt_nop_region_at m _ (zlen d + 12) ltac:(ilia) ltac:(rewrite Ea; exact Hv)) as (m' & Em & Htk & Hc).
  rewrite Em. cbn [rbind]. exists m'. split; [done|]. rewrite Ea in *.
  split; [|eapply changes_weak; [exact Hc|lia..]].
  pose proof Hrw as Hrw'. rewrite Ets in Hrw'. rewrite (in_tree_mid pre nm a (inops _) b), flats_inops.
  assert (toks_len (nops (12 + align_up (zlen d) 4)) = 12 + align_up (zlen d) 4) as En.
  { apply toks_len_nops; [lia|]. rewrite Z.add_mod, (proj2 (align_up_4_bounds _)) by lia. done. }
  eapply rw_patch; [exact Hrw'|cbn [toks_len tok_len]; rewrite Z.add_0_r; exact Hc| |exact Htk].
  rewrite En. cbn [toks_len tok_len]. lia.
Qed.

(** A node becomes NOPs; what is around it stays. *)
Lemma nop_node_at :
  exists m', fdt_nop_node m fdt (toks_len pre) = Ret (0, m') /\
    rw_at m' fdt h rsv (pre ++ nops (item_len (INode nm items)) ++ post) strs /\
    changes m m' fdt (h_totalsize h).
Proof using Hrw.
  destruct (node_end_at _ _ _ _ _ _ _ _ _ Hrw) as (En & H0 & Hl). unfold fdt_nop_node. rewrite En. cbn [rbind].
  destruct (tok_range pre (flat (INode nm items)) post eq_refl) as (Hv & _ & R1 & R2).
  fold (item_len (INode nm items)) in *. set (l := item_len (INode nm items)) in *.
  destruct (Z.ltb_spec (toks_len pre + l) 0); [lia|].
  pose proof (struct_bound _ _ _ _ Hst _ _ (in_tree_begin _ _ _ _)) as [S1 S2].
  pose proof (sa_room _ _ _ _ Hst) as Hroom. unfold in_tree in Hroom.
  unfold fdt_offset_ptr_w. pose proof (toks_len_nonneg (TBegin nm :: flats items ++ TEnd :: post)).
  rewrite (fdt_offset_ptr_eq _ _ _ _ _ Hh) by (rewrite ?u32_small by ilia; ilia). cbn [rbind].
  assert (l mod 4 = 0) as H4 by apply toks_len_mod.
  pose proof (toks_len_nonneg post).
  rewrite (in_struct_sub _ _ _ (toks_len pre) (u32 0) Hroom);
    [|rewrite ?(u32_small 0) by ilia; rewrite ?toks_len_app; fold (item_len (INode nm items)); fold l; lia..].
  rewrite sint_small by ilia. cbn [rbind nonnull]. replace (toks_len pre + l - toks_len pre) with l by lia.
  destruct (fdt_nop_region_at m (saddr fdt h (toks_len pre)) l) as (m' & Em & Htk & Hc);
    [ilia|by rewrite align_up_4_id|].
  rewrite align_up_4_id in Htk, Hc by done. rewrite Em. cbn [rbind]. exists m'. split; [done|].
  split; [|eapply changes_weak; [exact Hc|lia..]].
  eapply rw_patch; [exact Hrw|exact Hc|change (toks_len (nops l) = l); apply toks_len_nops; [lia|done]|exact Htk].
Qed.

(** The value overwritten in place must have the old length. *)
Lemma setprop_inplace_at name val :
  match split_prop strs name items with
  | Some (a, no, d, b) =>
    if zlen val =? zlen d then
      exists m', fdt_setprop_inplace m fdt (toks_len pre) name val = Ret (0, m') /\
        rw_at m' fdt h rsv (in_tree pre nm (a ++ IProp no val :: b) post) strs /\
        changes m m' fdt (h_totalsize h)
    else fdt_setprop_inplace m fdt (toks_len pre) name val = Ret (- FDT_ERR_NOSPACE, m)
  | None => fdt_setprop_inplace m fdt (toks_len pre) name val = Ret (- FDT_ERR_NOTFOUND, m)
  end.
Proof using Hrw.
  unfold fdt_setprop_inplace, fdt_getprop, fdt_setprop_inplace_namelen_partial, fdt_getprop_namelen_w.
  rewrite (getprop_namelen_at _ _ _ _ _ Ht _ _ _ name (in_tree_begin _ _ _ _)), find_prop_items.
  destruct (split_prop strs name items) as [[[[a no] d] b]|] eqn:E; cbn [rbind]; [|done].
  apply split_prop_Some in E as [E _]. fold (zlen val). rewrite (Z.eqb_sym (zlen d)).
  destruct (Z.eqb_spec (zlen val) (zlen d)) as [El|Nl]; cbn [negb]; [|done].
  destruct (prop_here _ _ _ _ _ _ _ _ _ Hrw a b no d E) as (_ & _ & _ & Hd & _). pose proof (zlen_nonneg d).
  rewrite Z.add_0_r, El, Z.ltb_irrefl.
  destruct (write_value_at _ _ _ _ _ _ _ _ _ Hrw a b no d E [] d [] val) as (m' & Em & Hrw' & Hc);
    [by rewrite app_nil_r|done|].
  destruct (rw_value_room _ _ _ _ _ _ _ _ _ Hrw a b no d E) as [R1 R2].
  change (zlen (@nil byte)) with 0 in *. rewrite Z.add_0_r in *. cbn [app] in Hrw'. rewrite app_nil_r in Hrw'.
  unfold body_off in *. rewrite Em. cbn [rbind]. exists m'. split; [done|]. split; [exact Hrw'|].
  eapply changes_weak; [exact Hc|lia..].
Qed.
End wip.
