(* ===== verification/FdtRsv.v ===== *)
(** The memory reservation map: reading, adding and deleting entries. *)
From S2P Require Import Prelude Monad Memory Libfdt Fdt FdtSpec FdtTree FdtRo FdtWip FdtRead FdtNav.
From S2P Require Import FdtCheckSpec FdtRw FdtEdit FdtRwSpec FdtRwProp.

(** The header after the reserve map has grown by [delta]. *)
Definition hdr_rsv (h : header) (delta : Z) : header :=
  Header (h_magic h) (h_totalsize h) (h_off_struct h + delta) (h_off_strings h + delta) (h_off_rsv h)
    (h_version h) (h_last_comp h) (h_cpuid h) (h_size_strings h) (h_size_struct h).

Ltac rsv_simpl :=
  cbn [hdr_rsv h_magic h_totalsize h_off_struct h_off_strings h_off_rsv h_version
       h_last_comp h_cpuid h_size_strings h_size_struct].

Lemma rsv_enc_app l1 l2 : rsv_enc (l1 ++ l2) = rsv_enc l1 ++ rsv_enc l2.
Proof. apply flat_map_app. Qed.

Lemma be_enc64_zlen v : zlen (be_enc64 v) = 8.
Proof. reflexivity. Qed.

(** Entry [e] of the map, at byte [16 * zlen l1]. *)
Lemma rsv_entry_at m a l1 e l2 :
  rsv_at m a (l1 ++ e :: l2) ->
  ld64 m (a + 16 * zlen l1) = Ret e.1 /\ ld64 m (a + 16 * zlen l1 + 8) = Ret e.2 /\ e.2 <> 0.
Proof.
  intros [Hok [t Hat]]. apply Forall_app in Hok as [_ [(H1 & H2 & H3) _]%Forall_cons].
  rewrite rsv_enc_app, <- app_assoc in Hat. apply bytes_at_appz in Hat as [_ Hat].
  rewrite rsv_enc_len in Hat. destruct e as [x s]. cbn [rsv_enc flat_map fst snd] in *.
  rewrite <- !app_assoc in Hat. apply bytes_at_appz in Hat as [Hx Hat]. apply bytes_at_appz in Hat as [Hs _].
  rewrite be_enc64_zlen in Hs. rewrite (ld64_at _ _ _ Hx), (ld64_at _ _ _ Hs), !u64_small by done. done.
Qed.

Lemma rsv_end_at m a l : rsv_at m a l -> ld64 m (a + 16 * zlen l + 8) = Ret 0.
Proof.
  intros [_ [t Hat]]. rewrite bytes_at_appz in Hat. destruct Hat as [_ Hat]. rewrite rsv_enc_len in Hat.
  apply bytes_at_appz in Hat as [_ Hat]. rewrite be_enc64_zlen in Hat. by rewrite (ld64_at _ _ _ Hat).
Qed.

(** A map inside the blob, wherever it is. *)
Lemma num_mem_rsv_in m fdt h rsv :
  hdr_at m fdt h -> rsv_at m (fdt + h_off_rsv h) rsv ->
  h_off_rsv h + 16 * zlen rsv + 16 <= h_totalsize h -> h_totalsize h < INT_MAX -> fdt_num_mem_rsv m fdt = Ret (zlen rsv).
Proof.
  intros Hh Hr Hin Hmax. hdr_ranges Hh. pose proof (zlen_nonneg rsv).
  unfold fdt_num_mem_rsv. apply wp_total_eq.
  apply (wp_loop _ (fun i => exists l1 l2, rsv = l1 ++ l2 /\ i = zlen l1) (fun i => zlen rsv + 1 - i)).
  - by exists [], rsv.
  - intros i (l1 & l2 & E & ->). assert (zlen rsv = zlen l1 + zlen l2) as El by (by rewrite E, zlen_app).
    pose proof (zlen_nonneg l1). pose proof (zlen_nonneg l2).
    unfold loop_bound. ilia.
  - intros i (l1 & l2 & E & ->). pose proof (zlen_nonneg l1). pose proof (zlen_nonneg l2).
    assert (zlen rsv = zlen l1 + zlen l2) as El by (by rewrite E, zlen_app).
    rewrite (fdt_mem_rsv_eq _ _ _ _ Hh) by ilia.
    destruct (Z.leb_spec (h_off_rsv h + 16 * zlen l1 + 16) (h_totalsize h)); [|lia]. cbn [rbind]. unfold fdt64_ld_, re_size.
    destruct l2 as [|e l2].
    + rewrite app_nil_r in E. rewrite <- E, (rsv_end_at _ _ _ Hr). done.
    + rewrite E in Hr. apply rsv_entry_at in Hr as (_ & -> & Hn). cbn [rbind].
      destruct (Z.eqb_spec e.2 0); [done|]. rewrite zlen_cons in El. pose proof (zlen_nonneg l2). rewrite sint_small by ilia. cbn [rbind wp].
      split; [|lia]. exists (l1 ++ [e]), l2. rewrite <- app_assoc, zlen_app. done.
Qed.

Section rsv.
Context (m : mem) (fdt : Z) (h : header) (rsv : list (Z * Z)) (ts : list tok) (strs : list byte).
Context (Hrw : rw_at m fdt h rsv ts strs).

Let Ht : tree_at m fdt h ts strs := rw_tree _ _ _ _ _ _ Hrw.
Let Hb : blob m fdt h := sa_blob _ _ _ _ (ta_struct _ _ _ _ _ Ht).
Let Hh : hdr_at m fdt h := blob_hdr _ _ _ Hb.

Lemma rsv_bound : 16 * zlen rsv + 16 + 40 <= h_off_struct h /\ h_off_struct h + 4 <= h_totalsize h /\ h_totalsize h < INT_MAX.
Proof using Hrw.
  pose proof (rw_layout _ _ _ _ _ _ Hrw). pose proof (rw_head _ _ _ _ _ _ Hrw). pose proof (rw_rsv_room _ _ _ _ _ _ Hrw).
  pose proof (toks_len_nonneg ts). hdr_ranges Hh. unfold data_end in *. ilia.
Qed.

Lemma fdt_mem_rsv_at n :
  0 <= n <= zlen rsv -> fdt_mem_rsv m fdt n = Ret (Some (fdt + h_off_rsv h + 16 * n)).
Proof using Hrw.
  intros Hn. pose proof rsv_bound. pose proof (rw_rsv_room _ _ _ _ _ _ Hrw). pose proof (rw_head _ _ _ _ _ _ Hrw).
  rewrite (fdt_mem_rsv_eq _ _ _ _ Hh) by ilia.
  by destruct (Z.leb_spec (h_off_rsv h + 16 * n + 16) (h_totalsize h)); [|lia].
Qed.

Lemma fdt_num_mem_rsv_at : fdt_num_mem_rsv m fdt = Ret (zlen rsv).
Proof using Hrw.
  pose proof rsv_bound. pose proof (rw_rsv_room _ _ _ _ _ _ Hrw). apply (num_mem_rsv_in _ _ h); [done|apply Hrw|lia|lia].
Qed.

Lemma fdt_get_mem_rsv_at l1 e l2 :
  rsv = l1 ++ e :: l2 -> fdt_get_mem_rsv m fdt (zlen l1) = Ret (0, e.1, e.2).
Proof using Hrw.
  intros E. unfold fdt_get_mem_rsv. rewrite (ro_probe_at _ _ _ _ _ Ht (fun e => (e, 0, 0))).
  assert (zlen rsv = zlen l1 + zlen (e :: l2)) as El by (by rewrite E, zlen_app).
  pose proof (zlen_nonneg l1). pose proof (zlen_nonneg (e :: l2)).
  rewrite fdt_mem_rsv_at by lia. cbn [rbind is_null nonnull]. noassume. unfold fdt64_ld_, re_address, re_size.
  pose proof (rw_rsv _ _ _ _ _ _ Hrw) as Hr. rewrite E in Hr. apply rsv_entry_at in Hr as (H1 & H2 & _).
  rewrite ?Z.add_0_r, H1. cbn [rbind]. by rewrite H2.
Qed.
End rsv.

(** ** Editing the map *)

Lemma rsv_at_edit m a m' l1 old l2 new :
  rsv_at m a (l1 ++ old ++ l2) ->
  copied m a m' a (16 * zlen l1) ->
  copied m (a + 16 * zlen l1 + 16 * zlen old) m' (a + 16 * zlen l1 + 16 * zlen new) (16 * zlen l2 + 16) ->
  bytes_at m' (a + 16 * zlen l1) (rsv_enc new) -> Forall rsv_ok new ->
  rsv_at m' a (l1 ++ new ++ l2).
Proof.
  intros [Hok [t Hat]] C1 C2 Hnew Hnok. split.
  - apply Forall_app in Hok as [? [_ ?]%Forall_app]. by repeat apply Forall_app_2.
  - exists t. rewrite !rsv_enc_app, <- !app_assoc in *. set (x := rsv_enc l2 ++ be_enc64 t ++ be_enc64 0) in *.
    assert (zlen x = 16 * zlen l2 + 16) as Hx by (unfold x; rewrite !zlen_app, rsv_enc_len, !be_enc64_zlen; lia).
    apply bytes_at_appz in Hat as [A1 Hat]. apply bytes_at_appz in Hat as [_ A2]. rewrite !rsv_enc_len in A2.
    apply bytes_at_appz. rewrite rsv_enc_len. split; [|apply bytes_at_appz; rewrite rsv_enc_len; split; [done|]].
    + eapply copied_bytes; [|exact A1]. by rewrite rsv_enc_len.
    + eapply copied_bytes; [|exact A2]. by rewrite Hx.
Qed.

(** [new] in place of [old]: everything behind moves. *)
Lemma rw_rsv_edit m m' fdt h l1 old l2 new ts strs :
  rw_at m fdt h (l1 ++ old ++ l2) ts strs ->
  fits h (16 * zlen old) (16 * zlen new) = true ->
  let d := 16 * zlen new - 16 * zlen old in
  let o := h_off_rsv h + 16 * zlen l1 in
  hdr_at m' fdt (hdr_rsv h d) ->
  changes m m' fdt (h_totalsize h) ->
  copied m (fdt + 40) m' (fdt + 40) (o - 40) ->
  copied m (fdt + o + 16 * zlen old) m' (fdt + o + 16 * zlen new) (data_end h - (o + 16 * zlen old)) ->
  bytes_at m' (fdt + o) (rsv_enc new) -> Forall rsv_ok new ->
  rw_at m' fdt (hdr_rsv h d) (l1 ++ new ++ l2) ts strs.
Proof.
  intros Hrw Hfit%Z.leb_le d o Hh' E2 E3 E4 Hnew Hok.
  pose proof (rw_layout _ _ _ _ _ _ Hrw) as (L1 & L2 & L3 & L4 & L5 & L6).
  destruct Hrw as [[[[Hh Hv Hs1 Hs2] Hs3 Htk He Hr] T1 T2 T3 T4 T5 T6 T7 T8] R1 R2 R3 R4 R5].
  hdr_ranges Hh. rewrite !zlen_app in *. pose proof (toks_len_nonneg ts). unfold data_end, saddr, d, o in *.
  pose proof (zlen_nonneg l1). pose proof (zlen_nonneg l2). pose proof (zlen_nonneg old). pose proof (zlen_nonneg new).
  apply in_struct_true in Hr as (Hr1 & Hr2 & Hr3). rewrite !Z.add_0_r in *.
  constructor; [constructor; [constructor; [constructor|..]|..]|..];
    unfold saddr in *; try (rsv_simpl; rewrite ?zlen_app; first [assumption|ilia]).
  - eapply changes_valid; [exact E2|exact Hv].
  - rsv_simpl. eapply copied_toks; [|exact Htk]. eapply copied_at; [exact E4|ilia..].
  - rsv_simpl. eapply copied_bytes; [|exact He]. rewrite be_enc32_zlen. eapply copied_at; [exact E4|ilia..].
  - apply in_struct_true. rsv_simpl. ilia.
  - rsv_simpl. eapply copied_bytes; [|exact T6]. eapply copied_at; [exact E4|ilia..].
  - rsv_simpl. eapply (rsv_at_edit m _ m'); [exact R3| | |rewrite <- Z.add_assoc; exact Hnew|exact Hok].
    + eapply copied_at; [exact E3|ilia..].
    + eapply copied_at; [exact E4|ilia..].
Qed.

Section edit.
Context (m : mem) (fdt : Z) (h : header) (l1 old l2 : list (Z * Z)) (ts : list tok) (strs : list byte).
Context (Hrw : rw_at m fdt h (l1 ++ old ++ l2) ts strs).

Let Hb : blob m fdt h := sa_blob _ _ _ _ (ta_struct _ _ _ _ _ (rw_tree _ _ _ _ _ _ Hrw)).
Let Hh : hdr_at m fdt h := blob_hdr _ _ _ Hb.

(** The splice makes room for [newn] entries; [new] written there completes
    the edit. *)
Lemma fdt_splice_mem_rsv_at newn :
  0 <= newn <= 1 ->
  let p := fdt + h_off_rsv h + 16 * zlen l1 in
  if fits h (16 * zlen old) (16 * newn) then
    exists m1, fdt_splice_mem_rsv_ m fdt p (zlen old) newn = Ret (0, m1) /\
      valid m1 p (16 * newn) /\
      forall m' new, changes m1 m' p (16 * newn) -> zlen new = newn -> bytes_at m' p (rsv_enc new) ->
        Forall rsv_ok new ->
        rw_at m' fdt (hdr_rsv h (16 * newn - 16 * zlen old)) (l1 ++ new ++ l2) ts strs /\
        changes m m' fdt (h_totalsize h)
  else fdt_splice_mem_rsv_ m fdt p (zlen old) newn = Ret (- FDT_ERR_NOSPACE, m).
Proof using Hrw.
  intros Hn p. pose proof (rw_layout _ _ _ _ _ _ Hrw) as (L1 & L2 & L3 & L4 & L5 & L6). hdr_ranges Hh.
  pose proof (rw_head _ _ _ _ _ _ Hrw). pose proof (rw_rsv_room _ _ _ _ _ _ Hrw) as HR.
  rewrite !zlen_app in HR. pose proof (zlen_nonneg l1). pose proof (zlen_nonneg old). pose proof (zlen_nonneg l2).
  pose proof (toks_len_nonneg ts). unfold fdt_splice_mem_rsv_, sizeof_fdt_reserve_entry.
  unfold p. replace (fdt + h_off_rsv h + 16 * zlen l1) with (fdt + (h_off_rsv h + 16 * zlen l1)) by lia.
  set (o := h_off_rsv h + 16 * zlen l1) in *.
  assert (40 <= o /\ o + 16 * zlen old + 16 * zlen l2 + 16 <= h_off_struct h) as Ho by (unfold o; lia).
  unfold data_end in *.
  rewrite !s32_small by ilia. rewrite !(Z.mul_comm _ 16).
  pose proof (fdt_splice_at m fdt h Hh (blob_valid _ _ _ Hb) L5 L6 o (16 * zlen old) (16 * newn)
    ltac:(unfold o; lia) ltac:(lia) ltac:(unfold data_end; ilia) ltac:(ilia) ltac:(lia)) as Hsp.
  destruct (fits h (16 * zlen old) (16 * newn)) eqn:Hf; [|by rewrite Hsp].
  destruct Hsp as (m1 & -> & Hc & Hcp). cbn [rbind]. change (negb (0 =? 0)) with false. cbv iota.
  apply Z.leb_le in Hf. unfold data_end in *.
  assert (hdr_at m1 fdt h) as Hh1 by (eapply hdr_at_changes; [exact Hh|exact Hc|ilia]).
  set (d := 16 * newn - 16 * zlen old). replace (16 * (newn - zlen old)) with d by (unfold d; lia).
  rd Hh1. rewrite (u32_small (h_off_struct h + _)) by (unfold d; ilia).
  destruct (hdr_set_at m1 fdt h f_off_dt_struct (h_off_struct h + d) Hh1 ltac:(unfold d; ilia)) as (m2 & E2 & Hh2 & Hc2).
  unfold fdt_set_off_dt_struct. rewrite E2. cbn [rbind]. rd Hh2.
  change (h_off_strings (hdr_set h f_off_dt_struct _)) with (h_off_strings h).
  rewrite u32_small by (unfold d; ilia).
  destruct (hdr_set_at m2 fdt _ f_off_dt_strings (h_off_strings h + d) Hh2 ltac:(unfold d; ilia)) as (m3 & E3 & Hh3 & Hc3).
  unfold fdt_set_off_dt_strings. rewrite E3. cbn [rbind]. exists m3. split; [done|].
  assert (changes m1 m3 fdt 40) as Hc13.
  { eapply changes_trans; (eapply changes_weak; [eassumption|simpl; ilia|simpl; ilia]). }
  assert (changes m m3 fdt (h_totalsize h)) as Hcm.
  { eapply changes_trans; (eapply changes_weak; [eassumption|ilia|ilia]). }
  split; [eapply changes_valid; [exact Hcm|]; eapply valid_sub; [apply (blob_valid _ _ _ Hb)|ilia..]|].
  intros m' new Hc' En Hnew Hok. assert (changes m m' fdt (h_totalsize h)) as Hcm'.
  { eapply changes_trans; [exact Hcm|]. eapply changes_weak; [exact Hc'|ilia..]. }
  split; [|exact Hcm']. subst newn.
  apply (rw_rsv_edit m m'); [done|by apply Z.leb_le| |done|..]; fold o; unfold data_end.
  - eapply hdr_at_changes; [exact Hh3|exact Hc'|ilia].
  - eapply copied_changes; [eapply copied_changes; [eapply changes_copied; [exact Hc|ilia]|exact Hc13|ilia]|exact Hc'|ilia].
  - eapply copied_changes; [eapply copied_changes; [|exact Hc13|ilia]|exact Hc'|ilia].
    eapply copied_at; [exact Hcp|ilia..].
  - exact Hnew.
  - exact Hok.
Qed.
End edit.

Lemma add_mem_rsv_at m fdt h rsv ts strs e :
  rw_at m fdt h rsv ts strs -> rsv_ok e ->
  if fits h 0 16 then
    exists m', fdt_add_mem_rsv m fdt e.1 e.2 = Ret (0, m') /\
      rw_at m' fdt (hdr_rsv h 16) (rsv ++ [e]) ts strs /\ changes m m' fdt (h_totalsize h)
  else fdt_add_mem_rsv m fdt e.1 e.2 = Ret (- FDT_ERR_NOSPACE, m).
Proof.
  intros Hrw He. unfold fdt_add_mem_rsv. rewrite (FDT_RW_PROBE_at _ _ _ _ _ _ _ Hrw).
  pose proof (sa_blob _ _ _ _ (ta_struct _ _ _ _ _ (rw_tree _ _ _ _ _ _ Hrw))) as Hb.
  rewrite (fdt_num_mem_rsv_at _ _ _ _ _ _ Hrw). cbn [rbind]. unfold fdt_mem_rsv_w_, fdt_mem_rsv_.
  rd (blob_hdr _ _ _ Hb). unfold sizeof_fdt_reserve_entry. rewrite (Z.mul_comm _ 16).
  assert (rw_at m fdt h (rsv ++ [] ++ []) ts strs) as Hrw' by (by rewrite !app_nil_r).
  pose proof (fdt_splice_mem_rsv_at _ _ _ _ _ _ _ _ Hrw' 1 ltac:(lia)) as Hsp. cbv zeta in Hsp.
  change (zlen (@nil (Z * Z))) with 0 in Hsp. change (16 * 0) with 0 in Hsp. change (16 * 1) with 16 in Hsp.
  destruct (fits h 0 16); [|by rewrite Hsp].
  destruct Hsp as (m1 & -> & Hv & Hedit). cbn [rbind]. change (negb (0 =? 0)) with false. cbv iota.
  set (p := fdt + h_off_rsv h + 16 * zlen rsv) in *. unfold re_address, re_size. rewrite ?Z.add_0_r.
  rewrite st64_valid by (eapply valid_sub; [exact Hv|lia..]). cbn [rbind].
  rewrite st64_valid by (apply upd_valid; eapply valid_sub; [exact Hv|lia..]). cbn [rbind].
  eexists. split; [done|]. apply (Hedit _ [e]).
  - repeat (apply changes_upd_in; [|exact Hv|rewrite ?be_enc64_zlen; lia..]). apply changes_refl.
  - done.
  - destruct e as [x s]. cbn [rsv_enc flat_map fst snd]. rewrite app_nil_r. apply bytes_at_appz.
    split; [|rewrite be_enc64_zlen; apply upd_at].
    apply upd_bytes_out; [apply upd_at|]. rewrite be_enc64_length. lia.
  - by constructor.
Qed.

(** Entry [n] is deleted; [n] past the end is refused. *)
Lemma del_mem_rsv_at m fdt h l1 e l2 ts strs :
  rw_at m fdt h (l1 ++ e :: l2) ts strs ->
  exists m', fdt_del_mem_rsv m fdt (zlen l1) = Ret (0, m') /\
    rw_at m' fdt (hdr_rsv h (- 16)) (l1 ++ l2) ts strs /\ changes m m' fdt (h_totalsize h).
Proof.
  intros Hrw. pose proof (sa_blob _ _ _ _ (ta_struct _ _ _ _ _ (rw_tree _ _ _ _ _ _ Hrw))) as Hb.
  unfold fdt_del_mem_rsv, fdt_mem_rsv_w_, fdt_mem_rsv_. rd (blob_hdr _ _ _ Hb).
  rewrite (FDT_RW_PROBE_at _ _ _ _ _ _ _ Hrw), (fdt_num_mem_rsv_at _ _ _ _ _ _ Hrw). cbn [rbind].
  rewrite zlen_app, zlen_cons. pose proof (zlen_nonneg l2). pose proof (zlen_nonneg l1).
  destruct (Z.leb_spec (zlen l1 + (zlen l2 + 1)) (zlen l1)); [lia|].
  unfold sizeof_fdt_reserve_entry. rewrite (Z.mul_comm _ 16).
  pose proof (fdt_splice_mem_rsv_at _ _ _ l1 [e] l2 _ _ Hrw 0 ltac:(lia)) as Hsp. cbv zeta in Hsp.
  change (zlen [e]) with 1 in Hsp. change (16 * 1) with 16 in Hsp. change (16 * 0) with 0 in Hsp.
  pose proof (rw_layout _ _ _ _ _ _ Hrw). unfold fits in Hsp.
  destruct (Z.leb_spec (data_end h - 16 + 0) (h_totalsize h)); [|lia].
  destruct Hsp as (m1 & E & _ & Hedit). exists m1. split; [exact E|].
  exact (Hedit m1 [] (changes_refl _ _ _) eq_refl (bytes_at_nil _ _) (List.Forall_nil _)).
Qed.

Lemma del_mem_rsv_beyond m fdt h rsv ts strs n :
  rw_at m fdt h rsv ts strs -> zlen rsv <= n ->
  fdt_del_mem_rsv m fdt n = Ret (- FDT_ERR_NOTFOUND, m).
Proof.
  intros Hrw Hn. pose proof (sa_blob _ _ _ _ (ta_struct _ _ _ _ _ (rw_tree _ _ _ _ _ _ Hrw))) as Hb.
  unfold fdt_del_mem_rsv, fdt_mem_rsv_w_, fdt_mem_rsv_. rd (blob_hdr _ _ _ Hb).
  rewrite (FDT_RW_PROBE_at _ _ _ _ _ _ _ Hrw), (fdt_num_mem_rsv_at _ _ _ _ _ _ Hrw). cbn [rbind].
  by destruct (Z.leb_spec (zlen rsv) n); [|lia].
Qed.
