(* ===== verification/FdtPack.v ===== *)
(** [fdt_pack] and [fdt_open_into]: the blocks of a tree put in order, close
    together or in a buffer with room to edit. *)
From S2P Require Import Prelude Monad Memory Libfdt Fdt FdtSpec FdtTree FdtRo FdtWip FdtRead FdtNav.
From S2P Require Import FdtCheckSpec FdtRw FdtEdit FdtRwSpec FdtRwProp FdtRsv.

(** The header with the blocks packed behind it: [rs], [ss] and [st] bytes. *)
Definition hdr_packed (h : header) (rs ss st : Z) : header :=
  Header (h_magic h) (h_totalsize h) (40 + rs) (40 + rs + ss) 40
    (h_version h) (h_last_comp h) (h_cpuid h) st ss.

Ltac pack_simpl :=
  cbn [hdr_packed h_magic h_totalsize h_off_struct h_off_strings h_off_rsv h_version
       h_last_comp h_cpuid h_size_strings h_size_struct].

(** A block already copied, across a later change elsewhere. *)
Ltac kept C := eapply copied_changes; [|exact C|lia].

Section packblocks.
Context (m : mem) (old new : Z) (h h0 : header) (rs ss : Z).
Context (Hh : hdr_at m old h) (Hh0 : hdr_at m new h0).
Let st := h_size_strings h.
Context (Hrs : 0 <= rs) (Hss : 0 <= ss) (Hsize : 40 + rs + ss + st <= INT_MAX).
Context (Hval : valid m new (40 + rs + ss + st)).
Context (V1 : valid m (old + h_off_rsv h) rs) (V2 : valid m (old + h_off_struct h) ss)
        (V3 : valid m (old + h_off_strings h) st).
(** The old header stays readable where it is not the new one, and no block
    is overwritten before it has been moved. *)
Context (A1 : old = new /\ h0 = h \/ new + (40 + rs + ss + st) <= old \/ old + 40 <= new).
Context (A2 : new + 40 + rs <= old + h_off_struct h \/ old + h_off_struct h + ss <= new).
Context (A3 : new + 40 + rs + ss <= old + h_off_strings h \/ old + h_off_strings h + st <= new).

(** A word of the old header, while the new one still has its own there. *)
Lemma old_word m' h' n f :
  hdr_at m' new h' -> changes m m' new n -> n <= 40 + rs + ss + st -> hdr_get h' f = hdr_get h0 f ->
  fdt_get_header m' old f = Ret (hdr_get h f).
Proof using A1 Hh.
  intros H' Hc Hn Hf. destruct A1 as [[E1 E2]|A].
  - rewrite E1, <- E2, <- Hf. apply H'.
  - assert (hdr_at m' old h) as Ho; [|apply Ho]. eapply hdr_at_changes; [exact Hh|exact Hc|lia].
Qed.

Lemma packblocks_at :
  exists m', fdt_packblocks_ m old new rs ss st = Ret m' /\ changes m m' new (40 + rs + ss + st) /\
    hdr_at m' new (hdr_packed h0 rs ss st) /\
    copied m (old + h_off_rsv h) m' (new + 40) rs /\
    copied m (old + h_off_struct h) m' (new + (40 + rs)) ss /\
    copied m (old + h_off_strings h) m' (new + (40 + rs + ss)) st.
Proof using A1 A2 A3 Hh Hh0 Hrs Hsize Hss V1 V2 V3 Hval.
  hdr_ranges Hh. assert (0 <= st) as Hst by (unfold st; ilia).
  unfold fdt_packblocks_. change (FDT_ALIGN sizeof_fdt_header 8) with 40.
  rewrite sint_small by ilia. cbn [rbind]. rewrite sint_small by ilia. cbn [rbind]. rd Hh.
  destruct (memmove_copied m (new + 40) (old + h_off_rsv h) rs Hrs V1) as (m1 & -> & C1 & K1);
    [eapply valid_sub; [exact Hval|lia..]|]. cbn [rbind].
  assert (hdr_at m1 new h0) as X1 by (eapply hdr_at_changes; [exact Hh0|exact C1|lia]).
  destruct (hdr_set_at m1 new h0 f_off_mem_rsvmap 40 X1 ltac:(ilia)) as (m2 & E2 & X2 & C2). cbn [field_off] in C2.
  unfold fdt_set_off_mem_rsvmap. rewrite E2. cbn [rbind].
  assert (changes m m2 new (40 + rs)) as D2.
  { eapply changes_trans; eapply changes_weak; [exact C1|lia|lia|exact C2|lia|lia]. }
  unfold fdt_off_dt_struct. rewrite (old_word m2 _ _ f_off_dt_struct X2 D2) by (try reflexivity; lia). cbn [rbind hdr_get].
  destruct (memmove_copied m2 (new + (40 + rs)) (old + h_off_struct h) ss Hss) as (m3 & -> & C3 & K3);
    [eapply changes_valid; [exact D2|exact V2]|eapply changes_valid; [exact D2|eapply valid_sub; [exact Hval|lia..]]|].
  cbn [rbind]. assert (hdr_at m3 new _) as X3 by (eapply hdr_at_changes; [exact X2|exact C3|lia]).
  destruct (hdr_set_at m3 new _ f_off_dt_struct (40 + rs) X3 ltac:(ilia)) as (m4 & E4 & X4 & C4). cbn [field_off] in C4.
  unfold fdt_set_off_dt_struct. rewrite E4. cbn [rbind].
  destruct (hdr_set_at m4 new _ f_size_dt_struct ss X4 ltac:(ilia)) as (m5 & E5 & X5 & C5). cbn [field_off] in C5.
  unfold fdt_set_size_dt_struct. rewrite E5. cbn [rbind].
  assert (changes m2 m5 new (40 + rs + ss)) as D5'.
  { eapply changes_trans; [eapply changes_weak; [exact C3|lia|lia]|].
    eapply changes_trans; eapply changes_weak; [exact C4|lia|lia|exact C5|lia|lia]. }
  assert (changes m m5 new (40 + rs + ss)) as D5.
  { eapply changes_trans; [eapply changes_weak; [exact D2|lia|lia]|exact D5']. }
  unfold fdt_off_dt_strings. rewrite (old_word m5 _ _ f_off_dt_strings X5 D5) by (try reflexivity; lia). cbn [rbind hdr_get].
  destruct (memmove_copied m5 (new + (40 + rs + ss)) (old + h_off_strings h) st Hst) as (m6 & -> & C6 & K6);
    [eapply changes_valid; [exact D5|exact V3]|eapply changes_valid; [exact D5|eapply valid_sub; [exact Hval|lia..]]|].
  cbn [rbind]. assert (hdr_at m6 new _) as X6 by (eapply hdr_at_changes; [exact X5|exact C6|lia]).
  destruct (hdr_set_at m6 new _ f_off_dt_strings (40 + rs + ss) X6 ltac:(ilia)) as (m7 & E7 & X7 & C7). cbn [field_off] in C7.
  unfold fdt_set_off_dt_strings. rewrite E7. cbn [rbind].
  assert (changes m5 m7 new (40 + rs + ss + st)) as D7'.
  { eapply changes_trans; eapply changes_weak; [exact C6|lia|lia|exact C7|lia|lia]. }
  assert (changes m m7 new (40 + rs + ss + st)) as D7.
  { eapply changes_trans; [eapply changes_weak; [exact D5|lia|lia]|exact D7']. }
  unfold fdt_size_dt_strings. rewrite (old_word m7 _ _ f_size_dt_strings X7 D7) by (try reflexivity; lia). cbn [rbind hdr_get].
  fold st. destruct (hdr_set_at m7 new _ f_size_dt_strings st X7 ltac:(unfold st; ilia)) as (m8 & E8 & X8 & C8). cbn [field_off] in C8.
  unfold fdt_set_size_dt_strings. rewrite E8. exists m8. split; [done|].
  split; [eapply changes_trans; [exact D7|]; eapply changes_weak; [exact C8|lia|lia]|]. split; [exact X8|].
  split; [|split].
  - kept C8. kept C7. kept C6. kept C5. kept C4. kept C3. kept C2. exact K1.
  - eapply (copied_from m m2); [|exact D2|lia]. kept C8. kept C7. kept C6. kept C5. kept C4. exact K3.
  - eapply (copied_from m m5); [|exact D5|lia]. kept C8. kept C7. exact K6.
Qed.
End packblocks.

(** ** The packed tree *)

(** The size of the packed blob. *)
Definition packed_size (h : header) (rsv : list (Z * Z)) : Z :=
  40 + (16 * zlen rsv + 16) + h_size_struct h + h_size_strings h.

Definition with_total (h : header) (total : Z) : header :=
  Header (h_magic h) total (h_off_struct h) (h_off_strings h) (h_off_rsv h)
    (h_version h) (h_last_comp h) (h_cpuid h) (h_size_strings h) (h_size_struct h).

(** A header whose blocks are packed is that of an editable tree where the
    blocks have been copied. *)
Lemma rw_packed m old h m' new h' rsv ts strs :
  tree_at m old h ts strs -> rsv_at m (old + h_off_rsv h) rsv ->
  let rs := 16 * zlen rsv + 16 in let ss := h_size_struct h in let st := h_size_strings h in
  copied m (old + h_off_rsv h) m' (new + 40) rs ->
  copied m (old + h_off_struct h) m' (new + (40 + rs)) ss ->
  copied m (old + h_off_strings h) m' (new + (40 + rs + ss)) st ->
  hdr_at m' new h' -> valid m' new (h_totalsize h') -> Z.land new 7 = 0 ->
  packed_size h rsv <= h_totalsize h' < INT_MAX -> h_magic h' = FDT_MAGIC -> h_version h' = 17 ->
  h_last_comp h' <= FDT_LAST_SUPPORTED_VERSION -> hdr_packed h' rs ss st = h' ->
  rw_at m' new h' rsv ts strs.
Proof.
  intros Ht Hr rs ss st K1 K2 K3 Hh' Hv Hal Htot Hm Hver Hlast Epk.
  assert (Er : h_off_rsv h' = 40) by (by rewrite <- Epk). assert (Es : h_off_struct h' = 40 + rs) by (by rewrite <- Epk).
  assert (Eg : h_off_strings h' = 40 + rs + ss) by (by rewrite <- Epk). assert (Ess : h_size_struct h' = ss) by (by rewrite <- Epk).
  assert (Est : h_size_strings h' = st) by (by rewrite <- Epk). clear Epk.
  destruct Ht as [[[Hh Hv0 Hs1 Hs2] Hs3 Htk He Hroom] T1 T2 T3 T4 T5 T6 T7 T8].
  apply in_struct_true in Hroom as (R1 & R2 & R3). specialize (R3 T3). hdr_ranges Hh.
  pose proof (zlen_nonneg rsv). pose proof (toks_len_nonneg ts). unfold packed_size, saddr, rs, ss, st in *.
  constructor; [constructor; [constructor; [constructor|..]|..]|..]; unfold saddr; rewrite ?Er, ?Es, ?Eg, ?Ess, ?Est;
    try first [assumption|ilia].
  - eapply copied_toks; [|exact Htk]. eapply copied_at; [exact K2|lia|lia|lia].
  - eapply copied_bytes; [|exact He]. rewrite be_enc32_zlen. eapply copied_at; [exact K2|lia|lia|lia].
  - apply in_struct_true. rewrite Es, Ess. ilia.
  - eapply copied_bytes; [|exact T6]. rewrite <- T7. replace (new + (40 + (16 * zlen rsv + 16) + h_size_struct h)) with
      (new + (40 + (16 * zlen rsv + 16) + h_size_struct h)) by lia. exact K3.
  - eapply rsv_at_copied; [exact K1|exact Hr].
Qed.

Section pack.
Context (m : mem) (fdt : Z) (h : header) (rsv : list (Z * Z)) (ts : list tok) (strs : list byte).

(** [fdt_pack]: the blocks close up and the total size is what they take. *)
Lemma fdt_pack_at : rw_at m fdt h rsv ts strs ->
  exists m', fdt_pack m fdt = Ret (0, m') /\ changes m m' fdt (h_totalsize h) /\ packed_size h rsv <= h_totalsize h /\
    rw_at m' fdt (with_total (hdr_packed h (16 * zlen rsv + 16) (h_size_struct h) (h_size_strings h)) (packed_size h rsv)) rsv ts strs.
Proof.
  intros Hrw. pose proof (rw_layout _ _ _ _ _ _ Hrw) as (L1 & L2 & L3 & L4 & L5 & L6).
  pose proof (rw_tree _ _ _ _ _ _ Hrw) as Ht. pose proof (sa_blob _ _ _ _ (ta_struct _ _ _ _ _ Ht)) as Hb.
  pose proof (blob_hdr _ _ _ Hb) as Hh. pose proof (blob_valid _ _ _ Hb) as Hv. hdr_ranges Hh.
  pose proof (rw_head _ _ _ _ _ _ Hrw). pose proof (rw_rsv_room _ _ _ _ _ _ Hrw). pose proof (zlen_nonneg rsv).
  pose proof (toks_len_nonneg ts). unfold data_end, packed_size in *.
  unfold fdt_pack. rewrite (FDT_RW_PROBE_at _ _ _ _ _ _ _ Hrw), (fdt_num_mem_rsv_at _ _ _ _ _ _ Hrw). cbn [rbind].
  rewrite sint_small by ilia. cbn [rbind]. rd Hh. unfold sizeof_fdt_reserve_entry. rewrite !s32_small by ilia.
  replace ((zlen rsv + 1) * 16) with (16 * zlen rsv + 16) by lia.
  set (rs := 16 * zlen rsv + 16) in *. set (ss := h_size_struct h) in *. set (st := h_size_strings h) in *.
  destruct (packblocks_at m fdt fdt h h rs ss Hh Hh) as (m1 & E1 & C1 & H1' & K1 & K2 & K3); fold st; try ilia.
  1-4: eapply valid_sub; [exact Hv|ilia|ilia].
  { by left. }
  fold st in E1, C1, H1', K3. rewrite E1. cbn [rbind]. unfold fdt_data_size_. rd H1'. pack_simpl. rewrite u32_small by ilia.
  destruct (hdr_set_at m1 fdt _ f_totalsize (40 + rs + ss + st) H1' ltac:(ilia)) as (m2 & E2 & H2' & C2). cbn [field_off] in C2.
  unfold fdt_set_totalsize. rewrite E2. cbn [rbind]. exists m2. split; [done|].
  assert (changes m m2 fdt (40 + rs + ss + st)) as C.
  { eapply changes_trans; [exact C1|]. eapply changes_weak; [exact C2|lia|ilia]. }
  split; [eapply changes_weak; [exact C|lia|ilia]|]. split; [ilia|].
  apply (rw_packed m fdt h); fold rs ss st; try done.
  - apply Hrw.
  - kept C2. exact K1.
  - kept C2. exact K2.
  - kept C2. exact K3.
  - eapply changes_valid; [exact C|]. cbn. eapply valid_sub; [exact Hv|lia|ilia].
  - apply Ht.
  - unfold packed_size. cbn. fold ss st. ilia.
  - apply Ht.
  - apply Hrw.
  - apply Ht.
Qed.
End pack.

(** ** Moving a tree into a buffer *)

Lemma copied_trans m a m1 b m2 c n : copied m a m1 b n -> copied m1 b m2 c n -> copied m a m2 c n.
Proof. intros H1 H2 i Hi. by rewrite H2, H1. Qed.

Lemma hdr_at_copied m fdt h m' buf : hdr_at m fdt h -> copied m fdt m' buf 40 -> hdr_at m' buf h.
Proof.
  intros Hh Hc f. rewrite <- (Hh f). pose proof (field_off_range f) as Hf.
  unfold fdt_get_header, fdt32_ld, ld32, ld8.
  replace (buf + field_off f + 1) with (buf + (field_off f + 1)) by lia. replace (buf + field_off f + 2) with (buf + (field_off f + 2)) by lia.
  replace (buf + field_off f + 3) with (buf + (field_off f + 3)) by lia. rewrite !Hc by lia.
  by rewrite !Z.add_assoc.
Qed.

Lemma valid_copied m a m' a' n : valid m a n -> copied m a m' a' n -> valid m' a' n.
Proof. intros Hv Hc i Hi. rewrite Hc by lia. by apply Hv. Qed.

(** A tree copied as a whole to another aligned place. *)
Lemma rw_at_copied m fdt h m' fdt' rsv ts strs :
  rw_at m fdt h rsv ts strs -> copied m fdt m' fdt' (h_totalsize h) -> Z.land fdt' 7 = 0 ->
  rw_at m' fdt' h rsv ts strs.
Proof.
  intros [Ht Hver Hhd Hr Hrr Hsr] K Ha.
  pose proof Ht as [[[Hh Hv0 Hs1 Hs2] Hs3 Htk He Hroom] T1 T2 T3 T4 T5 T6 T7 T8].
  apply in_struct_true in Hroom as (R1 & R2 & R3). specialize (R3 T3). hdr_ranges Hh.
  pose proof (toks_len_nonneg ts). pose proof (zlen_nonneg rsv). pose proof (zlen_nonneg strs).
  constructor; [constructor; [constructor; [constructor|..]|..]|..]; unfold saddr in *; try first [assumption|ilia].
  - eapply hdr_at_copied; [exact Hh|]. eapply copied_at; [exact K|lia..].
  - exact (valid_copied _ _ _ _ _ Hv0 K).
  - eapply copied_toks; [|exact Htk]. eapply copied_at; [exact K|lia..].
  - eapply copied_bytes; [|exact He]. rewrite be_enc32_zlen. eapply copied_at; [exact K|lia..].
  - apply in_struct_true. ilia.
  - eapply copied_bytes; [|exact T6]. eapply copied_at; [exact K|lia..].
  - eapply rsv_at_copied; [|exact Hr]. eapply copied_at; [exact K|lia..].
Qed.

(** The blocks are in the order the edits need. *)
Definition ordered (h : header) (rsv : list (Z * Z)) : bool :=
  (40 <=? h_off_rsv h) && (h_off_rsv h + (16 * zlen rsv + 16) <=? h_off_struct h) &&
  (h_off_struct h + h_size_struct h <=? h_off_strings h).

(** The room [fdt_open_into] asks for. *)
Definition open_room (h : header) (rsv : list (Z * Z)) (fdt buf bufsize : Z) : bool :=
  if ordered h rsv then h_totalsize h <=? bufsize else
  (packed_size h rsv <=? bufsize) &&
  negb ((fdt <? buf + packed_size h rsv) && (buf <? fdt + h_totalsize h) &&
        (buf + bufsize <? fdt + h_totalsize h + packed_size h rsv)).

(** What a call of [fdt_open_into] can do: no room and nothing changed, or an
    editable copy in the buffer. *)
Record opened (m m' : mem) (fdt : Z) (h : header) (rsv : list (Z * Z)) (ts : list tok) (strs : list byte)
    (buf bufsize : Z) (h' : header) : Prop := Opened {
  op_rw : rw_at m' buf h' rsv ts strs;
  op_total : h_totalsize h' = bufsize;
  op_changes : changes m m' buf bufsize;
  op_cpuid : ordered h rsv = true \/ fdt + 40 <= buf \/ buf + bufsize <= fdt -> h_cpuid h' = h_cpuid h;
  op_end : data_end h' = if ordered h rsv then data_end h else packed_size h rsv;
}.

Section open_into.
Context (m : mem) (fdt : Z) (h : header) (rsv : list (Z * Z)) (ts : list tok) (strs : list byte).
Context (Ht : tree_at m fdt h ts strs) (Hr : rsv_at m (fdt + h_off_rsv h) rsv).
Context (Htot : 40 <= h_totalsize h) (Hrin : h_off_rsv h + 16 * zlen rsv + 16 <= h_totalsize h).
Context (Hsin : h_off_struct h + h_size_struct h <= h_totalsize h).
Context (Hpk : packed_size h rsv <= INT_MAX).
Context (buf bufsize : Z) (Hv : valid m buf bufsize) (Hbs : 0 <= bufsize < INT_MAX) (Hal : Z.land buf 7 = 0).

Let Hb : blob m fdt h := sa_blob _ _ _ _ (ta_struct _ _ _ _ _ Ht).
Let Hh : hdr_at m fdt h := blob_hdr _ _ _ Hb.

Lemma open_sizes : 40 <= h_totalsize h < INT_MAX /\ toks_len ts + 4 <= h_size_struct h /\ 0 <= h_size_strings h /\
  h_off_strings h + h_size_strings h <= h_totalsize h.
Proof using Ht Htot.
  pose proof (ta_total _ _ _ _ _ Ht). pose proof (ta_strs_size _ _ _ _ _ Ht) as Es. pose proof (ta_strs_room _ _ _ _ _ Ht).
  pose proof (sa_room _ _ _ _ (ta_struct _ _ _ _ _ Ht)) as (R1 & R2 & R3)%in_struct_true. specialize (R3 (ta_version _ _ _ _ _ Ht)).
  pose proof (zlen_nonneg strs). hdr_ranges Hh. pose proof (toks_len_nonneg ts). ilia.
Qed.

(** [fdt_open_into] after the probe, with the sizes read. *)
Lemma open_misordered : fdt_blocks_misordered_ m fdt (16 * zlen rsv + 16) (h_size_struct h) = Ret (negb (ordered h rsv)).
Proof using Ht Htot Hrin Hsin.
  pose proof open_sizes. hdr_ranges Hh. pose proof (zlen_nonneg rsv). unfold fdt_blocks_misordered_, ordered. rd Hh.
  change (FDT_ALIGN sizeof_fdt_header 8) with 40. rewrite !u32_small by ilia. f_equal.
  destruct (Z.ltb_spec (h_totalsize h) (h_off_strings h + h_size_strings h)); [lia|]. rewrite orb_false_r, !Z.ltb_antisym.
  by rewrite !negb_andb.
Qed.

(** In order: one move. *)
Lemma open_ordered : ordered h rsv = true ->
  exists err m', (let! '(err, m1) := fdt_move m fdt buf bufsize in
      if negb (err =? 0) then Ret (err, m1) else
      let! m1 := fdt_set_version m1 buf 17 in
      let! m1 := fdt_set_size_dt_struct m1 buf (h_size_struct h) in
      let! m1 := fdt_set_totalsize m1 buf bufsize in
      Ret (0, m1)) = Ret (err, m') /\
    if h_totalsize h <=? bufsize then err = 0 /\ exists h', opened m m' fdt h rsv ts strs buf bufsize h'
    else err = - FDT_ERR_NOSPACE /\ m' = m.
Proof using Ht Hr Hrin Hsin Hv Hbs Hal Htot.
  intros Hord. pose proof Hord as Hord0. pose proof open_sizes as (S1 & S2 & S3 & S4). hdr_ranges Hh.
  pose proof (zlen_nonneg rsv). pose proof (toks_len_nonneg ts).
  unfold ordered in Hord. apply andb_prop in Hord as [[O1 O2]%andb_prop O3]. apply Z.leb_le in O1, O2, O3.
  unfold fdt_move. noassume. destruct (Z.ltb_spec bufsize 0); [lia|]. cbn [andb negb].
  rewrite (fdt_ro_probe_at _ _ _ _ _ Ht). cbn [rbind]. destruct (Z.ltb_spec (h_totalsize h) 0); [lia|]. rd Hh.
  rewrite u32_small by ilia. destruct (Z.leb_spec (h_totalsize h) bufsize), (Z.ltb_spec bufsize (h_totalsize h)); try lia.
  2:{ exists (- FDT_ERR_NOSPACE), m. by cbn. }
  destruct (memmove_copied m buf fdt (h_totalsize h)) as (m1 & -> & C1 & K1);
    [lia|apply Hb|eapply valid_sub; [exact Hv|lia..]|]. cbn [rbind]. change (negb (0 =? 0)) with false. cbv iota.
  assert (hdr_at m1 buf h) as X1 by (eapply hdr_at_copied; [exact Hh|eapply copied_at; [exact K1|lia..]]).
  destruct (hdr_set_at m1 buf _ f_version 17 X1 ltac:(ilia)) as (m2 & E2 & X2 & C2). cbn [field_off] in C2.
  unfold fdt_set_version. rewrite E2. cbn [rbind].
  destruct (hdr_set_at m2 buf _ f_size_dt_struct (h_size_struct h) X2 ltac:(ilia)) as (m3 & E3 & X3 & C3). cbn [field_off] in C3.
  unfold fdt_set_size_dt_struct. rewrite E3. cbn [rbind].
  destruct (hdr_set_at m3 buf _ f_totalsize bufsize X3 ltac:(ilia)) as (m4 & E4 & X4 & C4). cbn [field_off] in C4.
  unfold fdt_set_totalsize. rewrite E4. cbn [rbind]. exists 0, m4. split; [done|]. split; [done|].
  assert (changes m m4 buf bufsize) as C.
  { eapply changes_trans; [eapply changes_weak; [exact C1|lia|lia]|]. eapply changes_trans; [eapply changes_weak; [exact C2|lia|lia]|].
    eapply changes_trans; eapply changes_weak; [exact C3|lia|lia|exact C4|lia|lia]. }
  assert (copied m (fdt + 40) m4 (buf + 40) (h_totalsize h - 40)) as K.
  { kept C4. kept C3. kept C2. eapply copied_at; [exact K1|lia..]. }
  exists (Header (h_magic h) bufsize (h_off_struct h) (h_off_strings h) (h_off_rsv h) 17
    (h_last_comp h) (h_cpuid h) (h_size_strings h) (h_size_struct h)).
  split; [|done|exact C|done|by rewrite Hord0].
  pose proof Ht as [[[_ Hv0 Hs1 Hs2] Hs3 Htk He Hroom] T1 T2 T3 T4 T5 T6 T7 T8].
  apply in_struct_true in Hroom as (R1 & R2 & R3). specialize (R3 T3).
  constructor; [constructor; [constructor; [constructor|..]|..]|..]; unfold saddr in *; cbn [h_magic h_totalsize h_off_struct
    h_off_strings h_off_rsv h_version h_last_comp h_cpuid h_size_strings h_size_struct]; try first [assumption|ilia].
  - eapply changes_valid; [exact C|exact Hv].
  - eapply copied_toks; [|exact Htk]. eapply copied_at; [exact K|lia..].
  - eapply copied_bytes; [|exact He]. rewrite be_enc32_zlen. eapply copied_at; [exact K|lia..].
  - apply in_struct_true. cbn. ilia.
  - eapply copied_bytes; [|exact T6]. eapply copied_at; [exact K|lia..].
  - eapply rsv_at_copied; [|exact Hr]. eapply copied_at; [exact K|lia..].
Qed.

(** Out of order: the blocks are packed at [tmp], behind the old tree where
    the buffer overlaps it, and moved to the start of the buffer. *)
Lemma open_packed tmp : ordered h rsv = false ->
  (tmp + packed_size h rsv <= fdt \/ fdt + h_totalsize h <= tmp) -> (tmp = buf \/ tmp = fdt + h_totalsize h) ->
  buf <= tmp -> tmp + packed_size h rsv <= buf + bufsize ->
  exists m', (let! m1 := fdt_packblocks_ m fdt tmp (16 * zlen rsv + 16) (h_size_struct h) (h_size_strings h) in
      let! m1 := memmove m1 buf tmp (packed_size h rsv) in
      let! m1 := fdt_set_magic m1 buf FDT_MAGIC in
      let! m1 := fdt_set_totalsize m1 buf bufsize in
      let! m1 := fdt_set_version m1 buf 17 in
      let! m1 := fdt_set_last_comp_version m1 buf 16 in
      let! cpuid := fdt_boot_cpuid_phys m1 fdt in
      let! m1 := fdt_set_boot_cpuid_phys m1 buf cpuid in
      Ret (0, m1)) = Ret (0, m') /\ exists h', opened m m' fdt h rsv ts strs buf bufsize h'.
Proof using Ht Hr Hrin Hsin Hpk Hv Hbs Hal Htot.
  intros Hord Hap Htmp Hlo Hhi. pose proof open_sizes as (S1 & S2 & S3 & S4). hdr_ranges Hh. pose proof (zlen_nonneg rsv).
  pose proof (toks_len_nonneg ts). pose proof (blob_valid _ _ _ Hb) as Hvo.
  pose proof (hdr_valid _ _ _ Hh) as Hvh. unfold packed_size in *.
  set (rs := 16 * zlen rsv + 16) in *. set (ss := h_size_struct h) in *. set (st := h_size_strings h) in *.
  assert (valid m tmp (40 + rs + ss + st)) as Hvt by (eapply valid_sub; [exact Hv|lia..]).
  destruct (hdr_exists m tmp) as [h0 Hh0]; [eapply valid_sub; [exact Hvt|lia|ilia]|].
  destruct (packblocks_at m fdt tmp h h0 rs ss Hh Hh0) as (m1 & E1 & C1 & X1 & K1 & K2 & K3); fold st; try ilia.
  1: exact Hvt. 1-3: eapply valid_sub; [exact Hvo|ilia|ilia].
  fold st in E1, C1, X1, K3. rewrite E1. cbn [rbind].
  assert (valid m1 buf bufsize) as Hv1 by (eapply changes_valid; [exact C1|exact Hv]).
  destruct (memmove_copied m1 buf tmp (40 + rs + ss + st)) as (m2 & -> & C2 & M2);
    [ilia|eapply changes_valid; [exact C1|exact Hvt]|eapply valid_sub; [exact Hv1|lia..]|]. cbn [rbind].
  assert (hdr_at m2 buf (hdr_packed h0 rs ss st)) as X2 by (eapply hdr_at_copied; [exact X1|eapply copied_at; [exact M2|ilia..]]).
  destruct (hdr_set_at m2 buf _ f_magic FDT_MAGIC X2 ltac:(unfold FDT_MAGIC; ilia)) as (m3 & E3 & X3 & C3). cbn [field_off] in C3.
  unfold fdt_set_magic. rewrite E3. cbn [rbind].
  destruct (hdr_set_at m3 buf _ f_totalsize bufsize X3 ltac:(ilia)) as (m4 & E4 & X4 & C4). cbn [field_off] in C4.
  unfold fdt_set_totalsize. rewrite E4. cbn [rbind].
  destruct (hdr_set_at m4 buf _ f_version 17 X4 ltac:(ilia)) as (m5 & E5 & X5 & C5). cbn [field_off] in C5.
  unfold fdt_set_version. rewrite E5. cbn [rbind].
  destruct (hdr_set_at m5 buf _ f_last_comp_version 16 X5 ltac:(ilia)) as (m6 & E6 & X6 & C6). cbn [field_off] in C6.
  unfold fdt_set_last_comp_version. rewrite E6. cbn [rbind].
  assert (changes m2 m6 buf 40) as D6.
  { eapply changes_trans; [eapply changes_weak; [exact C3|lia|lia]|]. eapply changes_trans; [eapply changes_weak; [exact C4|lia|lia]|].
    eapply changes_trans; eapply changes_weak; [exact C5|lia|lia|exact C6|lia|lia]. }
  assert (changes m m6 buf bufsize) as C.
  { eapply changes_trans; [eapply changes_weak; [exact C1|lia|lia]|]. eapply changes_trans; [eapply changes_weak; [exact C2|lia|ilia]|].
    eapply changes_weak; [exact D6|lia|ilia]. }
  assert (exists cpu, fdt_boot_cpuid_phys m6 fdt = Ret cpu /\ is_u32 cpu /\
    (fdt + 40 <= buf \/ buf + bufsize <= fdt -> cpu = h_cpuid h)) as (cpu & -> & Hcu & Hcpu).
  { destruct (hdr_exists m6 fdt) as [h6 Hg]; [eapply changes_valid; [exact C|exact Hvh]|]. exists (h_cpuid h6).
    split; [exact (Hg f_boot_cpuid_phys)|]. split; [exact (hdr_u32 _ _ _ Hg f_boot_cpuid_phys)|]. intros Hd.
    assert (hdr_at m6 fdt h) as Hg' by (eapply hdr_at_changes; [exact Hh|exact C|lia]).
    pose proof (Hg f_boot_cpuid_phys) as A. rewrite (Hg' f_boot_cpuid_phys) in A. by injection A. }
  cbn [rbind]. destruct (hdr_set_at m6 buf _ f_boot_cpuid_phys cpu X6 Hcu) as (m7 & E7 & X7 & C7). cbn [field_off] in C7.
  unfold fdt_set_boot_cpuid_phys. rewrite E7. cbn [rbind]. exists m7. split; [done|].
  exists (Header FDT_MAGIC bufsize (40 + rs) (40 + rs + ss) 40 17 16 cpu st ss).
  assert (changes m m7 buf bufsize) as C'. { eapply changes_trans; [exact C|]. eapply changes_weak; [exact C7|lia|ilia]. }
  assert (K : forall a k n, 40 <= k -> k + n <= 40 + rs + ss + st -> copied m a m1 (tmp + k) n -> copied m a m7 (buf + k) n).
  { intros a k n Hk Hn Hc. kept C7. eapply copied_changes; [|exact D6|lia]. eapply copied_trans; [exact Hc|].
    eapply copied_at; [exact M2|lia..]. }
  split; [|done|exact C'|rewrite Hord; cbn; intros [|Hd]; [done|auto]|].
  2:{ rewrite Hord. unfold data_end, packed_size. cbn. fold rs ss st. lia. }
  apply (rw_packed m fdt h); fold rs ss st; try done.
  - apply K; [lia|ilia|exact K1].
  - apply K; [ilia|ilia|exact K2].
  - apply K; [ilia|ilia|exact K3].
  - eapply changes_valid; [exact C'|exact Hv].
  - unfold packed_size. cbn. fold rs ss st. lia.
Qed.

Lemma fdt_open_into_at :
  exists err m', fdt_open_into m fdt buf bufsize = Ret (err, m') /\
    if open_room h rsv fdt buf bufsize then err = 0 /\ exists h', opened m m' fdt h rsv ts strs buf bufsize h'
    else err = - FDT_ERR_NOSPACE /\ m' = m.
Proof using Ht Hr Hrin Hsin Hpk Hv Hbs Hal Htot.
  pose proof open_sizes as (S1 & S2 & S3 & S4). pose proof (ta_version _ _ _ _ _ Ht). hdr_ranges Hh. pose proof (zlen_nonneg rsv).
  pose proof (toks_len_nonneg ts). unfold fdt_open_into. rd Hh. rewrite (fdt_ro_probe_at _ _ _ _ _ Ht). cbn [rbind].
  destruct (Z.ltb_spec (h_totalsize h) 0); [lia|]. rewrite (num_mem_rsv_in _ _ _ _ Hh Hr) by lia. cbn [rbind].
  rewrite sint_small by ilia. cbn [rbind]. rd Hh. noassume. destruct (Z.leb_spec 17 (h_version h)); [|lia]. cbn [orb rbind].
  unfold sizeof_fdt_reserve_entry. rewrite !s32_small by ilia.
  replace ((zlen rsv + 1) * 16) with (16 * zlen rsv + 16) by lia. rewrite open_misordered. cbn [rbind]. rewrite negb_involutive.
  unfold open_room. destruct (ordered h rsv) eqn:Ho; [by apply open_ordered|].
  change (FDT_ALIGN sizeof_fdt_header 8) with 40. unfold packed_size in *. rewrite s32_small by ilia.
  rewrite (s32_small (h_size_strings h)) by ilia.
  set (size := 40 + (16 * zlen rsv + 16) + h_size_struct h + h_size_strings h) in *.
  destruct (Z.ltb_spec bufsize size), (Z.leb_spec size bufsize); try lia; cbn [andb].
  { exists (- FDT_ERR_NOSPACE), m. done. }
  destruct ((fdt <? buf + size) && (buf <? fdt + h_totalsize h)) eqn:Eov; cbn [andb negb].
  - apply andb_prop in Eov as [O1%Z.ltb_lt O2%Z.ltb_lt].
    destruct (Z.ltb_spec (buf + bufsize) (fdt + h_totalsize h + size)); cbn [negb]; [exists (- FDT_ERR_NOSPACE), m; done|].
    destruct (open_packed (fdt + h_totalsize h) Ho) as (m' & E & Hop); unfold packed_size; fold size; try lia.
    exists 0, m'. split; [exact E|done].
  - destruct (open_packed buf Ho) as (m' & E & Hop); unfold packed_size; fold size; try lia.
    exists 0, m'. split; [exact E|done].
Qed.
End open_into.
