(* ===== verification/FdtSw.v ===== *)
(** libfdt/fdt_sw.c: the sequential writer, and fdt_empty_tree.c. *)
From S2P Require Import Prelude Monad Memory Libfdt Fdt FdtRo FdtRw.

Definition fdt_sw_probe_ (m : mem) (fdt : Z) : res Z :=
  if negb (can_assume ASSUME_VALID_INPUT) then
    let! magic := fdt_magic m fdt in
    if magic =? FDT_MAGIC then Ret (- FDT_ERR_BADSTATE)
    else if negb (magic =? FDT_SW_MAGIC) then Ret (- FDT_ERR_BADMAGIC)
    else Ret 0
  else Ret 0.

(** 'memrsv' state: initial state after [fdt_create]. *)
Definition fdt_sw_probe_memrsv_ (m : mem) (fdt : Z) : res Z :=
  let! err := fdt_sw_probe_ m fdt in
  if negb (err =? 0) then Ret err else
  let! off_strings := fdt_off_dt_strings m fdt in
  if negb (can_assume ASSUME_VALID_INPUT) && negb (off_strings =? 0)
  then Ret (- FDT_ERR_BADSTATE) else Ret 0.

(** 'struct' state: entered by [fdt_finish_reservemap]. *)
Definition fdt_sw_probe_struct_ (m : mem) (fdt : Z) : res Z :=
  let! err := fdt_sw_probe_ m fdt in
  if negb (err =? 0) then Ret err else
  let! off_strings := fdt_off_dt_strings m fdt in
  let! totalsize := fdt_totalsize m fdt in
  if negb (can_assume ASSUME_VALID_INPUT) && negb (off_strings =? totalsize)
  then Ret (- FDT_ERR_BADSTATE) else Ret 0.

Definition sw_flags (m : mem) (fdt : Z) : res Z := fdt_last_comp_version m fdt.

(** Returns the grabbed space, or None when there is not enough. *)
Definition fdt_grab_space_ (m : mem) (fdt len : Z) : res (option Z * mem) :=
  let! offset := fdt_size_dt_struct m fdt in
  let! totalsize := fdt_totalsize m fdt in
  let! off_struct := fdt_off_dt_struct m fdt in
  let! size_strings := fdt_size_dt_strings m fdt in
  let spaceleft := u32 (totalsize - off_struct - size_strings) in
  if (u64 (offset + len) <? offset) || (spaceleft <? u64 (offset + len)) then Ret (None, m) else
  let! m := fdt_set_size_dt_struct m fdt (u32 (offset + len)) in
  let! p := fdt_offset_ptr_w_ m fdt (s32 offset) in
  Ret (Some p, m).

Definition fdt_create_with_flags (m : mem) (buf bufsize flags : Z) : res (Z * mem) :=
  let hdrsize := FDT_ALIGN sizeof_fdt_header sizeof_fdt_reserve_entry in
  let fdt := buf in
  if bufsize <? hdrsize then Ret (- FDT_ERR_NOSPACE, m) else
  if negb (Z.land flags (Z.lnot FDT_CREATE_FLAGS_ALL) =? 0) then Ret (- FDT_ERR_BADFLAGS, m) else
  let! m := memset m buf x00 bufsize in
  (* magic and last_comp_version keep intermediate state during the fdt
     creation process, which is replaced with the proper FDT format by
     fdt_finish(). *)
  let! m := fdt_set_magic m fdt FDT_SW_MAGIC in
  let! m := fdt_set_version m fdt FDT_LAST_SUPPORTED_VERSION in
  let! m := fdt_set_last_comp_version m fdt flags in
  let! m := fdt_set_totalsize m fdt bufsize in
  let! m := fdt_set_off_mem_rsvmap m fdt hdrsize in
  let! off_rsv := fdt_off_mem_rsvmap m fdt in
  let! m := fdt_set_off_dt_struct m fdt off_rsv in
  let! m := fdt_set_off_dt_strings m fdt 0 in
  Ret (0, m).

Definition fdt_create (m : mem) (buf bufsize : Z) : res (Z * mem) :=
  fdt_create_with_flags m buf bufsize 0.

Definition fdt_resize (m : mem) (fdt buf bufsize : Z) : res (Z * mem) :=
  let! err := fdt_sw_probe_ m fdt in
  if negb (err =? 0) then Ret (err, m) else
  if bufsize <? 0 then Ret (- FDT_ERR_NOSPACE, m) else
  let! off_struct := fdt_off_dt_struct m fdt in
  let! size_struct := fdt_size_dt_struct m fdt in
  let headsize := u32 (off_struct + size_struct) in
  let! tailsize := fdt_size_dt_strings m fdt in
  let! totalsize := fdt_totalsize m fdt in
  if negb (can_assume ASSUME_VALID_DTB) && (totalsize <? headsize + tailsize)
  then Ret (- FDT_ERR_INTERNAL, m) else
  if bufsize <? headsize + tailsize then Ret (- FDT_ERR_NOSPACE, m) else
  let oldtail := fdt + totalsize - tailsize in
  let newtail := buf + bufsize - tailsize in
  (* Two cases to avoid clobbering data if the old and new buffers partially
     overlap *)
  let! m :=
    if buf <=? fdt then
      let! m := memmove m buf fdt headsize in
      memmove m newtail oldtail tailsize
    else
      let! m := memmove m newtail oldtail tailsize in
      memmove m buf fdt headsize in
  let! m := fdt_set_totalsize m buf bufsize in
  let! off_strings := fdt_off_dt_strings m buf in
  if negb (off_strings =? 0) then
    let! m := fdt_set_off_dt_strings m buf bufsize in
    Ret (0, m)
  else Ret (0, m).

Definition fdt_add_reservemap_entry (m : mem) (fdt addr size : Z) : res (Z * mem) :=
  let! err := fdt_sw_probe_memrsv_ m fdt in
  if negb (err =? 0) then Ret (err, m) else
  let! off_struct := fdt_off_dt_struct m fdt in
  let offset := s32 off_struct in
  let! totalsize := fdt_totalsize m fdt in
  if totalsize <? u64 (offset + sizeof_fdt_reserve_entry) then Ret (- FDT_ERR_NOSPACE, m) else
  let re := fdt + offset in
  let! m := st64 m (re_address re) addr in
  let! m := st64 m (re_size re) size in
  let! m := fdt_set_off_dt_struct m fdt (u32 (offset + sizeof_fdt_reserve_entry)) in
  Ret (0, m).

Definition fdt_finish_reservemap (m : mem) (fdt : Z) : res (Z * mem) :=
  let! '(err, m) := fdt_add_reservemap_entry m fdt 0 0 in
  if negb (err =? 0) then Ret (err, m) else
  let! totalsize := fdt_totalsize m fdt in
  let! m := fdt_set_off_dt_strings m fdt totalsize in
  Ret (0, m).

Definition fdt_begin_node (m : mem) (fdt : Z) (name : list byte) : res (Z * mem) :=
  let! err := fdt_sw_probe_struct_ m fdt in
  if negb (err =? 0) then Ret (err, m) else
  let! namelen := sint (Z.of_nat (length name) + 1) in
  let! '(nh, m) := fdt_grab_space_ m fdt (sizeof_fdt_node_header + FDT_TAGALIGN namelen) in
  match nh with
  | None => Ret (- FDT_ERR_NOSPACE, m)
  | Some nh =>
    let! m := st32 m (nh_tag nh) FDT_BEGIN_NODE in
    let! m := store_bytes m (nh_name nh) (name ++ [x00]) in
    Ret (0, m)
  end.

Definition fdt_end_node (m : mem) (fdt : Z) : res (Z * mem) :=
  let! err := fdt_sw_probe_struct_ m fdt in
  if negb (err =? 0) then Ret (err, m) else
  let! '(en, m) := fdt_grab_space_ m fdt FDT_TAGSIZE in
  match en with
  | None => Ret (- FDT_ERR_NOSPACE, m)
  | Some en =>
    let! m := st32 m en FDT_END_NODE in
    Ret (0, m)
  end.

(** The offset of the new string relative to the end of the table, 0 when
    there is no more room. *)
Definition fdt_add_string_ (m : mem) (fdt : Z) (s : list byte) : res (Z * mem) :=
  let! totalsize := fdt_totalsize m fdt in
  let strtab := fdt + totalsize in
  let! strtabsize := fdt_size_dt_strings m fdt in
  let len := u32 (Z.of_nat (length s) + 1) in
  let offset := u32 (strtabsize + len) in
  let! off_struct := fdt_off_dt_struct m fdt in
  let! size_struct := fdt_size_dt_struct m fdt in
  let struct_top := u32 (off_struct + size_struct) in
  if u32 (totalsize - offset) <? struct_top then Ret (0, m) (* no more room :( *) else
  let! m := store_bytes m (strtab - offset) (s ++ [x00]) in
  let! m := fdt_set_size_dt_strings m fdt (u32 (strtabsize + len)) in
  Ret (s32 (- offset), m).

(** Must only be used to roll back in case of error. *)
Definition fdt_sw_del_last_string_ (m : mem) (fdt : Z) (s : list byte) : res mem :=
  let! strtabsize := fdt_size_dt_strings m fdt in
  let! len := sint (Z.of_nat (length s) + 1) in
  let! size := sint (s32 strtabsize - len) in
  fdt_set_size_dt_strings m fdt size.

(** Returns the relative offset and [*allocated]. *)
Definition fdt_sw_find_add_string_ (m : mem) (fdt : Z) (s : list byte) : res (Z * bool * mem) :=
  let! totalsize := fdt_totalsize m fdt in
  let strtab := fdt + totalsize in
  let! size_strings := fdt_size_dt_strings m fdt in
  let strtabsize := s32 size_strings in
  let! p := fdt_find_string_ m (strtab - strtabsize) strtabsize s in
  match p with
  | Some p => Ret (s32 (p - strtab), false, m)
  | None =>
    let! '(off, m) := fdt_add_string_ m fdt s in
    Ret (off, true, m)
  end.

(** Returns the error code and [*valp]. *)
Definition fdt_property_placeholder (m : mem) (fdt : Z) (name : list byte) (len : Z)
    : res (Z * option Z * mem) :=
  let! err := fdt_sw_probe_struct_ m fdt in
  if negb (err =? 0) then Ret (err, None, m) else
  (* String de-duplication can be slow, _NO_NAME_DEDUP skips it *)
  let! flags := sw_flags m fdt in
  let! '(nameoff, allocated, m) :=
    if negb (Z.land flags FDT_CREATE_FLAG_NO_NAME_DEDUP =? 0) then
      let! '(nameoff, m) := fdt_add_string_ m fdt name in
      Ret (nameoff, true, m)
    else fdt_sw_find_add_string_ m fdt name in
  if nameoff =? 0 then Ret (- FDT_ERR_NOSPACE, None, m) else
  let! '(prop, m) := fdt_grab_space_ m fdt (u64 (sizeof_fdt_property + FDT_TAGALIGN len)) in
  match prop with
  | None =>
    let! m := if (allocated : bool) then fdt_sw_del_last_string_ m fdt name else Ret m in
    Ret (- FDT_ERR_NOSPACE, None, m)
  | Some prop =>
    let! m := st32 m (prop_tag prop) FDT_PROP in
    let! m := st32 m (prop_nameoff prop) nameoff in
    let! m := st32 m (prop_len prop) len in
    Ret (0, Some (prop_data prop), m)
  end.

Definition fdt_property (m : mem) (fdt : Z) (name val : list byte) : res (Z * mem) :=
  let len := Z.of_nat (length val) in
  let! '(ret, ptr, m) := fdt_property_placeholder m fdt name len in
  if negb (ret =? 0) then Ret (ret, m) else
  let! ptr := nonnull ptr in
  let! m := store_bytes m ptr val in
  Ret (0, m).

Definition fdt_property_u32 (m : mem) (fdt : Z) (name : list byte) (val : Z) : res (Z * mem) :=
  fdt_property m fdt name (be_enc32 val).

Definition fdt_property_u64 (m : mem) (fdt : Z) (name : list byte) (val : Z) : res (Z * mem) :=
  fdt_property m fdt name (be_enc64 val).

Definition fdt_property_cell (m : mem) (fdt : Z) (name : list byte) (val : Z) : res (Z * mem) :=
  fdt_property_u32 m fdt name val.

(** One round of the loop of [fdt_finish] that corrects the string offsets;
    breaks with the last [nextoffset]. *)
Definition fdt_finish_body (fdt : Z) (st : mem * Z) : res (ctl (mem * Z) (mem * Z)) :=
  let '(m, offset) := st in
  let! '(tag, nextoffset) := fdt_next_tag m fdt offset in
  if tag =? FDT_END then Ret (Break (m, nextoffset)) else
  let! m :=
    if tag =? FDT_PROP then
      let! prop := fdt_offset_ptr_w_ m fdt offset in
      let! nameoff := fdt32_to_cpu_at m (prop_nameoff prop) in
      let! size_strings := fdt_size_dt_strings m fdt in
      let nameoff := s32 (s32 nameoff + size_strings) in
      st32 m (prop_nameoff prop) nameoff
    else Ret m in
  Ret (Continue (m, nextoffset)).

Definition fdt_finish (m : mem) (fdt : Z) : res (Z * mem) :=
  let p := fdt in
  let! err := fdt_sw_probe_struct_ m fdt in
  if negb (err =? 0) then Ret (err, m) else
  (* Add terminator *)
  let! '(end_, m) := fdt_grab_space_ m fdt 4 in
  match end_ with
  | None => Ret (- FDT_ERR_NOSPACE, m)
  | Some end_ =>
    let! m := st32 m end_ FDT_END in
    (* Relocate the string table *)
    let! totalsize := fdt_totalsize m fdt in
    let! size_strings := fdt_size_dt_strings m fdt in
    let oldstroffset := s32 (totalsize - size_strings) in
    let! off_struct := fdt_off_dt_struct m fdt in
    let! size_struct := fdt_size_dt_struct m fdt in
    let newstroffset := s32 (off_struct + size_struct) in
    let! m := memmove m (p + newstroffset) (p + oldstroffset) size_strings in
    let! m := fdt_set_off_dt_strings m fdt newstroffset in
    (* Walk the structure, correcting string offsets *)
    let! '(m, nextoffset) := loop (fdt_finish_body fdt) (m, 0) in
    if nextoffset <? 0 then Ret (nextoffset, m) else
    (* Finally, adjust the header *)
    let! size_strings := fdt_size_dt_strings m fdt in
    let! m := fdt_set_totalsize m fdt (u32 (newstroffset + size_strings)) in
    (* And fix up fields that were keeping intermediate state. *)
    let! m := fdt_set_last_comp_version m fdt FDT_LAST_COMPATIBLE_VERSION in
    let! m := fdt_set_magic m fdt FDT_MAGIC in
    Ret (0, m)
  end.

(** ** fdt_empty_tree.c *)

Definition fdt_create_empty_tree (m : mem) (buf bufsize : Z) : res (Z * mem) :=
  let! '(err, m) := fdt_create m buf bufsize in
  if negb (err =? 0) then Ret (err, m) else
  let! '(err, m) := fdt_finish_reservemap m buf in
  if negb (err =? 0) then Ret (err, m) else
  let! '(err, m) := fdt_begin_node m buf (str "") in
  if negb (err =? 0) then Ret (err, m) else
  let! '(err, m) := fdt_end_node m buf in
  if negb (err =? 0) then Ret (err, m) else
  let! '(err, m) := fdt_finish m buf in
  if negb (err =? 0) then Ret (err, m) else
  fdt_open_into m buf buf bufsize.
