(* ===== verification/FdtSwSpec.v ===== *)
(** The sequential writer: the states of a blob under construction, as a
    record for each state of the machine, and what every operation does to
    them. *)
From S2P Require Import Prelude Monad Memory Libfdt Fdt FdtSpec FdtTree FdtRo FdtWip FdtRead FdtNav FdtRw.
From S2P Require Import FdtEdit FdtRwSpec FdtRwProp FdtRwNode FdtRsv FdtSw.

(** ** States *)

(** What holds in every state before [fdt_finish]. *)
Record sw_base (m : mem) (fdt : Z) (h : header) : Prop := SwBase {
  sw_hdr : hdr_at m fdt h;
  sw_valid : valid m fdt (h_totalsize h);
  sw_magic : h_magic h = FDT_SW_MAGIC;
  sw_version : h_version h = 17;
  sw_flag : h_last_comp h = 0 \/ h_last_comp h = FDT_CREATE_FLAG_NO_NAME_DEDUP;
  sw_off_rsv : h_off_rsv h = 48;
  sw_total : h_totalsize h < INT_MAX;
}.

(** The 'memrsv' state, with the entries [rsv] so far. *)
Record sw_memrsv (m : mem) (fdt : Z) (h : header) (rsv : list (Z * Z)) : Prop := SwMemrsv {
  sm_base : sw_base m fdt h;
  sm_state : h_off_strings h = 0;
  sm_sizes : h_size_struct h = 0 /\ h_size_strings h = 0;
  sm_off : h_off_struct h = 48 + 16 * zlen rsv;
  sm_room : h_off_struct h <= h_totalsize h;
  sm_ok : Forall rsv_ok rsv;
  sm_rsv : bytes_at m (fdt + 48) (rsv_enc rsv);
}.

(** A string offset of the 'struct' state counts from the end of the strings. *)
Definition sw_name_ok (n : Z) (t : tok) : Prop :=
  match t with TProp no _ => - n <= s32 no < 0 | _ => True end.

(** The 'struct' state: tokens [ts] behind the reserve map, strings [strs] at
    the end of the buffer. *)
Record sw_struct (m : mem) (fdt : Z) (h : header) (rsv : list (Z * Z)) (ts : list tok)
    (strs : list byte) : Prop := SwStruct {
  ss_base : sw_base m fdt h;
  ss_state : h_off_strings h = h_totalsize h;
  ss_off : h_off_struct h = 48 + 16 * zlen rsv + 16;
  ss_size : h_size_struct h = toks_len ts;
  ss_strsize : h_size_strings h = zlen strs;
  ss_room : h_off_struct h + toks_len ts + zlen strs <= h_totalsize h;
  ss_rsv : rsv_at m (fdt + 48) rsv;
  ss_toks : toks_at m (fdt + h_off_struct h) ts;
  ss_strs : bytes_at m (fdt + h_totalsize h - zlen strs) strs;
  ss_names : Forall (sw_name_ok (zlen strs)) ts;
}.

(** The header after the structure block has grown by [n]. *)
Definition hdr_grow (h : header) (n : Z) : header :=
  Header (h_magic h) (h_totalsize h) (h_off_struct h) (h_off_strings h) (h_off_rsv h)
    (h_version h) (h_last_comp h) (h_cpuid h) (h_size_strings h) (h_size_struct h + n).

Ltac sw_simpl :=
  cbn [hdr_grow hdr_strings h_magic h_totalsize h_off_struct h_off_strings h_off_rsv h_version
       h_last_comp h_cpuid h_size_strings h_size_struct].

(** ** Probes *)

Lemma sw_probe_at m fdt h : sw_base m fdt h -> fdt_sw_probe_ m fdt = Ret 0.
Proof.
  intros [Hh _ Hm _ _ _ _]. unfold fdt_sw_probe_. noassume. rd Hh. rewrite Hm. done.
Qed.

Lemma sw_probe_struct_at m fdt h rsv ts strs :
  sw_struct m fdt h rsv ts strs -> fdt_sw_probe_struct_ m fdt = Ret 0.
Proof.
  intros H. unfold fdt_sw_probe_struct_. rewrite (sw_probe_at _ _ _ (ss_base _ _ _ _ _ _ H)). cbn [rbind].
  rd (sw_hdr _ _ _ (ss_base _ _ _ _ _ _ H)). noassume. by rewrite (ss_state _ _ _ _ _ _ H), !Z.eqb_refl.
Qed.

Lemma sw_probe_memrsv_at m fdt h rsv :
  sw_memrsv m fdt h rsv -> fdt_sw_probe_memrsv_ m fdt = Ret 0.
Proof.
  intros H. unfold fdt_sw_probe_memrsv_. rewrite (sw_probe_at _ _ _ (sm_base _ _ _ _ H)). cbn [rbind].
  rd (sw_hdr _ _ _ (sm_base _ _ _ _ H)). noassume. by rewrite (sm_state _ _ _ _ H).
Qed.

(** ** Growing the structure block *)

Section grow.
Context (m : mem) (fdt : Z) (h : header) (rsv : list (Z * Z)) (ts : list tok) (strs : list byte).
Context (Hsw : sw_struct m fdt h rsv ts strs).

Let Hbase : sw_base m fdt h := ss_base _ _ _ _ _ _ Hsw.
Let Hh : hdr_at m fdt h := sw_hdr _ _ _ Hbase.

Lemma sw_layout :
  64 <= h_off_struct h /\ h_size_struct h = toks_len ts /\ h_size_strings h = zlen strs /\
  h_off_struct h + toks_len ts + zlen strs <= h_totalsize h /\ h_totalsize h < INT_MAX /\
  0 <= toks_len ts /\ 0 <= zlen strs /\ h_off_struct h = 64 + 16 * zlen rsv /\ 0 <= zlen rsv.
Proof using Hsw.
  pose proof (ss_off _ _ _ _ _ _ Hsw). pose proof (ss_size _ _ _ _ _ _ Hsw). pose proof (ss_strsize _ _ _ _ _ _ Hsw).
  pose proof (ss_room _ _ _ _ _ _ Hsw). pose proof (sw_total _ _ _ Hbase). pose proof (toks_len_nonneg ts).
  pose proof (zlen_nonneg strs). pose proof (zlen_nonneg rsv). lia.
Qed.

(** The room the structure block can still take. *)
Definition sw_fits (n : Z) : bool :=
  h_off_struct h + h_size_struct h + n + h_size_strings h <=? h_totalsize h.

Lemma fdt_grab_space_at len :
  0 <= len <= INT_MAX ->
  if sw_fits len then
    exists m', fdt_grab_space_ m fdt len = Ret (Some (fdt + h_off_struct h + toks_len ts), m') /\
      hdr_at m' fdt (hdr_grow h len) /\ changes m m' (fdt + 36) 4
  else fdt_grab_space_ m fdt len = Ret (None, m).
Proof using Hsw.
  intros Hlen. pose proof sw_layout as (L1 & L2 & L3 & L4 & L5 & L6 & L7 & _). hdr_ranges Hh.
  unfold fdt_grab_space_, sw_fits. rd Hh. rewrite u32_small, u64_small by ilia.
  destruct (Z.ltb_spec (h_size_struct h + len) (h_size_struct h)); [lia|]. cbn [orb].
  destruct (Z.leb_spec (h_off_struct h + h_size_struct h + len + h_size_strings h) (h_totalsize h)),
    (Z.ltb_spec (h_totalsize h - h_off_struct h - h_size_strings h) (h_size_struct h + len)); try lia; [|done].
  rewrite u32_small by ilia.
  destruct (hdr_set_at m fdt h f_size_dt_struct (h_size_struct h + len) Hh ltac:(ilia)) as (m' & E & Hh' & Hc).
  unfold fdt_set_size_dt_struct. rewrite E. cbn [rbind]. unfold fdt_offset_ptr_w_. rd Hh'. exists m'.
  split; [|by split]. rewrite L2, s32_small by ilia. done.
Qed.

(** A new token in the grabbed space. *)
Lemma sw_append m1 m' t :
  sw_fits (tok_len t) = true ->
  hdr_at m1 fdt (hdr_grow h (tok_len t)) -> changes m m1 (fdt + 36) 4 ->
  changes m1 m' (fdt + h_off_struct h + toks_len ts) (tok_len t) ->
  toks_at m' (fdt + h_off_struct h + toks_len ts) [t] ->
  sw_name_ok (zlen strs) t ->
  sw_struct m' fdt (hdr_grow h (tok_len t)) rsv (ts ++ [t]) strs /\ changes m m' fdt (h_totalsize h).
Proof using Hsw.
  intros Hfit%Z.leb_le Hh1 Hc1 Hc2 Ht Hn. pose proof sw_layout as (L1 & L2 & L3 & L4 & L5 & L6 & L7 & L8 & L9).
  pose proof (tok_len_ge t).
  assert (changes m m' fdt (h_totalsize h)) as Hc.
  { eapply changes_trans; (eapply changes_weak; [eassumption|lia..]). }
  split; [|exact Hc].
  assert (Hkeep : forall a n, fdt + 40 <= a -> a + n <= fdt + h_off_struct h + toks_len ts \/
    fdt + h_off_struct h + toks_len ts + tok_len t <= a -> copied m a m' a n).
  { intros a n Ha Hd. eapply copied_changes; [eapply changes_copied; [exact Hc1|lia]|exact Hc2|lia]. }
  constructor; [constructor|..]; sw_simpl; rewrite ?toks_len_app; cbn [toks_len];
    try (first [apply Hbase|apply Hsw|lia]).
  - eapply hdr_at_changes; [exact Hh1|exact Hc2|lia].
  - eapply changes_valid; [exact Hc|apply Hbase].
  - eapply rsv_at_copied; [|apply (ss_rsv _ _ _ _ _ _ Hsw)]. apply Hkeep; lia.
  - apply toks_at_app. split; [|exact Ht]. eapply copied_toks; [|apply (ss_toks _ _ _ _ _ _ Hsw)]. apply Hkeep; lia.
  - eapply copied_bytes; [|apply (ss_strs _ _ _ _ _ _ Hsw)]. apply Hkeep; lia.
  - apply Forall_app. split; [apply Hsw|by constructor].
Qed.
End grow.

(** ** Nodes *)

Section nodes.
Context (m : mem) (fdt : Z) (h : header) (rsv : list (Z * Z)) (ts : list tok) (strs : list byte).
Context (Hsw : sw_struct m fdt h rsv ts strs).

Let Hbase : sw_base m fdt h := ss_base _ _ _ _ _ _ Hsw.

Lemma sw_hole_valid m1 n :
  sw_fits h n = true -> changes m m1 (fdt + 36) 4 -> valid m1 (fdt + h_off_struct h + toks_len ts) n.
Proof using Hsw.
  intros Hfit%Z.leb_le Hc. pose proof (sw_layout _ _ _ _ _ _ Hsw).
  eapply changes_valid; [exact Hc|]. eapply valid_sub; [apply (sw_valid _ _ _ Hbase)|lia..].
Qed.

Lemma fdt_begin_node_at name :
  no_nul name -> zlen name <= INT_MAX - 20 ->
  let t := TBegin name in
  if sw_fits h (tok_len t) then
    exists m', fdt_begin_node m fdt name = Ret (0, m') /\
      sw_struct m' fdt (hdr_grow h (tok_len t)) rsv (ts ++ [t]) strs /\ changes m m' fdt (h_totalsize h)
  else fdt_begin_node m fdt name = Ret (- FDT_ERR_NOSPACE, m).
Proof using Hsw.
  intros Hnn Hlen t. pose proof (zlen_nonneg name). pose proof (align_up_4_bounds (zlen name + 1)).
  unfold fdt_begin_node. rewrite (sw_probe_struct_at _ _ _ _ _ _ Hsw). cbn [rbind].
  change (negb (0 =? 0)) with false. cbv iota. fold (zlen name). rewrite sint_small by ilia. cbn [rbind].
  change (sizeof_fdt_node_header + FDT_TAGALIGN (zlen name + 1)) with (tok_len t).
  pose proof (fdt_grab_space_at _ _ _ _ _ _ Hsw (tok_len t) ltac:(cbn [t tok_len]; ilia)) as Hg.
  destruct (sw_fits h (tok_len t)) eqn:Hf; [|by rewrite Hg].
  destruct Hg as (m1 & -> & Hh1 & Hc1). cbn [rbind]. pose proof (sw_hole_valid m1 _ Hf Hc1) as Hv.
  set (p := fdt + h_off_struct h + toks_len ts) in *. unfold nh_tag, nh_name.
  assert (zlen (name ++ [x00]) = zlen name + 1) as Hz by (rewrite zlen_app; done). cbn [t tok_len] in Hv.
  rewrite st32_valid by (eapply valid_sub; [exact Hv|lia..]). cbn [rbind].
  rewrite store_valid by (apply upd_valid; fold (zlen (name ++ [x00])); eapply valid_sub; [exact Hv|lia..]). cbn [rbind].
  eexists. split; [done|]. eapply sw_append; [exact Hsw|exact Hf|exact Hh1|exact Hc1| | |done].
  - change (tok_len t) with (4 + align_up (zlen name + 1) 4).
    repeat (apply changes_upd_in; [|exact Hv|rewrite ?be_enc32_zlen, ?Hz; lia..]). apply changes_refl.
  - cbn [toks_at tok_ok tok_enc]. split; [done|]. split; [|done]. apply bytes_at_app. split; [|apply upd_at].
    apply upd_bytes_out; [apply upd_at|]. rewrite be_enc32_length. lia.
Qed.

Lemma fdt_end_node_at :
  if sw_fits h 4 then
    exists m', fdt_end_node m fdt = Ret (0, m') /\
      sw_struct m' fdt (hdr_grow h 4) rsv (ts ++ [TEnd]) strs /\ changes m m' fdt (h_totalsize h)
  else fdt_end_node m fdt = Ret (- FDT_ERR_NOSPACE, m).
Proof using Hsw.
  unfold fdt_end_node. rewrite (sw_probe_struct_at _ _ _ _ _ _ Hsw). cbn [rbind].
  change (negb (0 =? 0)) with false. cbv iota. unfold FDT_TAGSIZE.
  pose proof (fdt_grab_space_at _ _ _ _ _ _ Hsw 4 ltac:(ilia)) as Hg.
  destruct (sw_fits h 4) eqn:Hf; [|by rewrite Hg].
  destruct Hg as (m1 & -> & Hh1 & Hc1). cbn [rbind]. pose proof (sw_hole_valid m1 _ Hf Hc1) as Hv.
  rewrite st32_valid by exact Hv. cbn [rbind]. eexists. split; [done|].
  eapply (sw_append _ _ _ _ _ _ Hsw _ _ TEnd); [exact Hf|exact Hh1|exact Hc1| | |done].
  - by apply (changes_upd m1 _ (be_enc32 FDT_END_NODE)).
  - cbn [toks_at tok_ok tok_enc]. split; [done|]. split; [apply upd_at|done].
Qed.
End nodes.

(** ** Strings *)

(** The strings block grows downwards. *)
Definition sw_add_str (strs s : list byte) : list byte := s ++ x00 :: strs.

(** The offset of a name from the end, and the strings block with the name. *)
Definition sw_str (dedup : bool) (strs s : list byte) : list byte * Z :=
  match (if dedup then str_pos strs s else None) with
  | Some o => (strs, o - zlen strs)
  | None => (sw_add_str strs s, - (zlen strs + zlen s + 1))
  end.

Section strings.
Context (m : mem) (fdt : Z) (h : header) (rsv : list (Z * Z)) (ts : list tok) (strs : list byte).
Context (Hsw : sw_struct m fdt h rsv ts strs).

Let Hbase : sw_base m fdt h := ss_base _ _ _ _ _ _ Hsw.
Let Hh : hdr_at m fdt h := sw_hdr _ _ _ Hbase.

(** Another strings block at the end of the buffer. *)
Lemma sw_strings m' strs' :
  hdr_at m' fdt (hdr_strings h (zlen strs' - zlen strs)) -> changes m m' fdt (h_totalsize h) ->
  copied m (fdt + 40) m' (fdt + 40) (h_off_struct h + toks_len ts - 40) ->
  bytes_at m' (fdt + h_totalsize h - zlen strs') strs' ->
  h_off_struct h + toks_len ts + zlen strs' <= h_totalsize h ->
  Forall (sw_name_ok (zlen strs')) ts ->
  sw_struct m' fdt (hdr_strings h (zlen strs' - zlen strs)) rsv ts strs'.
Proof using Hsw.
  intros Hh' Hc Hcp Hs Hr Hn. pose proof (sw_layout _ _ _ _ _ _ Hsw) as (L1 & L2 & L3 & L4 & L5 & L6 & L7 & L8 & L9).
  constructor; [constructor|..]; sw_simpl; try (first [assumption|apply Hbase|apply Hsw|lia]).
  - eapply changes_valid; [exact Hc|apply Hbase].
  - eapply rsv_at_copied; [|apply (ss_rsv _ _ _ _ _ _ Hsw)]. eapply copied_at; [exact Hcp|lia..].
  - eapply copied_toks; [|apply (ss_toks _ _ _ _ _ _ Hsw)]. eapply copied_at; [exact Hcp|lia..].
Qed.

Lemma sw_name_ok_grow n n' l : n <= n' -> Forall (sw_name_ok n) l -> Forall (sw_name_ok n') l.
Proof using. intros Hn H. eapply Forall_impl; [exact H|]. intros []; cbn; lia. Qed.

(** Adding a string; the arithmetic of the room test is only right when the
    string is not longer than the buffer. *)
Lemma fdt_add_string_at s :
  zlen strs + zlen s + 1 <= h_totalsize h ->
  if sw_fits h (zlen s + 1) then
    exists m', fdt_add_string_ m fdt s = Ret (- (zlen strs + zlen s + 1), m') /\
      sw_struct m' fdt (hdr_strings h (zlen s + 1)) rsv ts (sw_add_str strs s) /\
      changes m m' fdt (h_totalsize h)
  else fdt_add_string_ m fdt s = Ret (0, m).
Proof using Hsw.
  intros Hlen. pose proof (zlen_nonneg s). pose proof (sw_layout _ _ _ _ _ _ Hsw) as (L1 & L2 & L3 & L4 & L5 & L6 & L7 & L8 & L9).
  hdr_ranges Hh. unfold fdt_add_string_, sw_fits. rd Hh. fold (zlen s). rewrite L2, L3.
  rewrite (u32_small (zlen s + 1)), (u32_small (zlen strs + (zlen s + 1))) by ilia.
  rewrite (u32_small (h_off_struct h + toks_len ts)) by ilia. rewrite u32_small by ilia.
  destruct (Z.leb_spec (h_off_struct h + toks_len ts + (zlen s + 1) + zlen strs) (h_totalsize h)),
    (Z.ltb_spec (h_totalsize h - (zlen strs + (zlen s + 1))) (h_off_struct h + toks_len ts)); try lia; [|done].
  set (p := fdt + h_totalsize h - (zlen strs + (zlen s + 1))).
  assert (zlen (s ++ [x00]) = zlen s + 1) as Hz by (rewrite zlen_app; done).
  assert (valid m p (zlen (s ++ [x00]))) as Hv by (eapply valid_sub; [apply (sw_valid _ _ _ Hbase)|unfold p; lia..]).
  rewrite store_valid by exact Hv. cbn [rbind]. pose proof (changes_upd _ _ _ Hv) as Hc1.
  set (m1 := upd m p (s ++ [x00])) in *.
  assert (hdr_at m1 fdt h) as Hh1 by (eapply hdr_at_changes; [exact Hh|exact Hc1|unfold p; lia]).
  destruct (hdr_set_at m1 fdt h f_size_dt_strings (zlen strs + (zlen s + 1)) Hh1 ltac:(ilia)) as (m2 & E2 & Hh2 & Hc2).
  unfold fdt_set_size_dt_strings. rewrite E2. cbn [rbind]. cbn [field_off] in Hc2.
  exists m2. rewrite s32_small by ilia. split; [do 2 f_equal; lia|].
  assert (changes m m2 fdt (h_totalsize h)) as Hc.
  { eapply changes_trans; (eapply changes_weak; [eassumption|unfold p; lia..]). }
  split; [|exact Hc]. assert (zlen (sw_add_str strs s) = zlen strs + zlen s + 1) as Ez.
  { unfold sw_add_str. rewrite zlen_app, zlen_cons. lia. }
  replace (zlen s + 1) with (zlen (sw_add_str strs s) - zlen strs) by lia.
  apply (sw_strings m2); rewrite ?Ez.
  - replace (zlen strs + zlen s + 1 - zlen strs) with (zlen s + 1) by lia.
    rewrite <- L3 in Hh2. exact Hh2.
  - exact Hc.
  - eapply copied_changes; [eapply changes_copied; [exact Hc1|unfold p; lia]|exact Hc2|lia].
  - unfold sw_add_str. change (x00 :: strs) with ([x00] ++ strs). rewrite app_assoc. apply bytes_at_appz.
    assert (Hk : forall a n, fdt + 40 <= a -> copied m1 a m2 a n) by (intros; eapply changes_copied; [exact Hc2|lia]).
    replace (fdt + h_totalsize h - (zlen strs + zlen s + 1)) with p by (unfold p; lia). split.
    + eapply copied_bytes; [apply Hk; unfold p; lia|apply upd_at].
    + rewrite Hz. replace (p + (zlen s + 1)) with (fdt + h_totalsize h - zlen strs) by (unfold p; lia).
      eapply copied_bytes; [|apply (ss_strs _ _ _ _ _ _ Hsw)].
      eapply copied_changes; [eapply changes_copied; [exact Hc1|unfold p; lia]|exact Hc2|lia].
  - lia.
  - apply (sw_name_ok_grow (zlen strs)); [lia|apply Hsw].
Qed.

Lemma sw_add_str_len s : zlen (sw_add_str strs s) = zlen strs + zlen s + 1.
Proof using. unfold sw_add_str. rewrite zlen_app, zlen_cons. lia. Qed.

(** Searching first, unless the creation flags forbid it. *)
Definition sw_dedup : bool := h_last_comp h =? 0.

Lemma fdt_sw_find_add_string_at s :
  zlen strs + zlen s + 1 <= h_totalsize h ->
  let '(strs', off) := sw_str true strs s in
  if sw_fits h (zlen strs' - zlen strs) then
    exists m', fdt_sw_find_add_string_ m fdt s = Ret (off, is_null (str_pos strs s), m') /\
      sw_struct m' fdt (hdr_strings h (zlen strs' - zlen strs)) rsv ts strs' /\
      changes m m' fdt (h_totalsize h)
  else fdt_sw_find_add_string_ m fdt s = Ret (0, true, m).
Proof using Hsw.
  intros Hlen. pose proof (zlen_nonneg s). pose proof (sw_layout _ _ _ _ _ _ Hsw) as (L1 & L2 & L3 & L4 & L5 & L6 & L7 & L8 & L9).
  hdr_ranges Hh. unfold fdt_sw_find_add_string_. rd Hh. rewrite L3, s32_small by ilia.
  rewrite (fdt_find_string_at _ _ strs s (ss_strs _ _ _ _ _ _ Hsw)) by lia. cbn [rbind]. unfold sw_str.
  destruct (str_pos strs s) as [o|] eqn:Ep; cbn [fmap option_fmap option_map is_null].
  - pose proof (str_pos_range _ _ _ Ep). unfold sw_fits. rewrite Z.sub_diag, L2, L3.
    destruct (Z.leb_spec (h_off_struct h + toks_len ts + 0 + zlen strs) (h_totalsize h)); [|lia].
    exists m. rewrite s32_small by ilia. rewrite hdr_strings_0. split; [do 3 f_equal; lia|].
    split; [exact Hsw|apply changes_refl].
  - pose proof (fdt_add_string_at s Hlen) as Hadd. rewrite sw_add_str_len.
    replace (zlen strs + zlen s + 1 - zlen strs) with (zlen s + 1) by lia.
    destruct (sw_fits h (zlen s + 1)); [|by rewrite Hadd].
    destruct Hadd as (m' & -> & Hsw' & Hc). exists m'. by split.
Qed.

(** Rolling a new string back. *)
Lemma fdt_sw_del_last_string_at s strs0 h0 :
  strs = sw_add_str strs0 s -> h = hdr_strings h0 (zlen s + 1) -> Forall (sw_name_ok (zlen strs0)) ts ->
  exists m', fdt_sw_del_last_string_ m fdt s = Ret m' /\ sw_struct m' fdt h0 rsv ts strs0 /\
    changes m m' fdt (h_totalsize h).
Proof using Hsw.
  intros Es Eh Hn. pose proof (zlen_nonneg s). pose proof (sw_layout _ _ _ _ _ _ Hsw) as (L1 & L2 & L3 & L4 & L5 & L6 & L7 & L8 & L9).
  assert (zlen strs = zlen strs0 + zlen s + 1) as Hz by (rewrite Es; unfold sw_add_str; rewrite zlen_app, zlen_cons; lia).
  pose proof (zlen_nonneg strs0). hdr_ranges Hh. unfold fdt_sw_del_last_string_. rd Hh. fold (zlen s).
  rewrite L3, sint_small by ilia. cbn [rbind]. rewrite s32_small, sint_small by ilia. cbn [rbind].
  destruct (hdr_set_at m fdt h f_size_dt_strings (zlen strs - (zlen s + 1)) Hh ltac:(ilia)) as (m2 & E2 & Hh2 & Hc2).
  unfold fdt_set_size_dt_strings. rewrite E2. exists m2. split; [done|]. cbn [field_off] in Hc2.
  assert (changes m m2 fdt (h_totalsize h)) as Hc by (eapply changes_weak; [exact Hc2|lia..]).
  split; [|exact Hc].
  assert (h0 = hdr_strings h (zlen strs0 - zlen strs)) as ->.
  { rewrite Eh. replace (zlen strs0 - zlen strs) with (- (zlen s + 1)) by lia. by rewrite hdr_strings_back. }
  apply (sw_strings m2); [|exact Hc|eapply changes_copied; [exact Hc2|lia]| |lia|exact Hn].
  - rewrite <- L3 in Hh2. replace (zlen strs0 - zlen strs) with (- (zlen s + 1)) by lia. exact Hh2.
  - eapply copied_bytes; [eapply changes_copied; [exact Hc2|lia]|].
    pose proof (ss_strs _ _ _ _ _ _ Hsw) as Hat. rewrite Hz, Es in Hat. unfold sw_add_str in Hat.
    change (x00 :: strs0) with ([x00] ++ strs0) in Hat. rewrite app_assoc in Hat.
    apply bytes_at_appz in Hat as [_ Hat]. rewrite zlen_app in Hat. change (zlen [x00]) with 1 in Hat.
    by replace (fdt + h_totalsize h - zlen strs0) with
      (fdt + h_totalsize h - (zlen strs0 + zlen s + 1) + (zlen s + 1)) by lia.
Qed.
End strings.

(** The last token replaced by one of the same length. *)
Lemma sw_patch m m' fdt h rsv ts strs t t' :
  sw_struct m fdt h rsv (ts ++ [t]) strs ->
  changes m m' (fdt + h_off_struct h + toks_len ts) (tok_len t) -> tok_len t' = tok_len t ->
  toks_at m' (fdt + h_off_struct h + toks_len ts) [t'] -> sw_name_ok (zlen strs) t' ->
  sw_struct m' fdt h rsv (ts ++ [t']) strs /\ changes m m' fdt (h_totalsize h).
Proof.
  intros Hsw Hc El Ht Hn. pose proof (sw_layout _ _ _ _ _ _ Hsw) as (L1 & L2 & L3 & L4 & L5 & L6 & L7 & L8 & L9).
  pose proof (ss_base _ _ _ _ _ _ Hsw) as Hbase. pose proof (toks_len_nonneg ts). pose proof (tok_len_ge t).
  rewrite !toks_len_app in *. cbn [toks_len] in *. rewrite !Z.add_0_r in *.
  assert (changes m m' fdt (h_totalsize h)) as Hct by (eapply changes_weak; [exact Hc|lia..]).
  split; [|exact Hct].
  constructor; [constructor|..]; rewrite ?toks_len_app; cbn [toks_len]; rewrite ?El, ?Z.add_0_r;
    try (first [apply Hbase|apply Hsw|lia]).
  - eapply hdr_at_changes; [apply Hbase|exact Hc|lia].
  - eapply changes_valid; [exact Hct|apply Hbase].
  - eapply rsv_at_copied; [|apply (ss_rsv _ _ _ _ _ _ Hsw)]. eapply changes_copied; [exact Hc|lia].
  - apply toks_at_app. split; [|exact Ht].
    pose proof (ss_toks _ _ _ _ _ _ Hsw) as Htk. apply toks_at_app in Htk as [Htk _].
    eapply copied_toks; [|exact Htk]. eapply changes_copied; [exact Hc|lia].
  - eapply copied_bytes; [|apply (ss_strs _ _ _ _ _ _ Hsw)]. eapply changes_copied; [exact Hc|lia].
  - pose proof (ss_names _ _ _ _ _ _ Hsw) as Hns. apply Forall_app in Hns as [Hns _].
    apply Forall_app. split; [done|by constructor].
Qed.

(** ** Properties *)

Section write_prop.
Context (m : mem) (fdt : Z) (h : header) (rsv : list (Z * Z)) (ts : list tok) (strs : list byte).
Context (Hsw : sw_struct m fdt h rsv ts strs).

(** The property's space is grabbed and its words are written. *)
Lemma sw_write_prop_at off len :
  - zlen strs <= off < 0 -> 0 <= len <= INT_MAX - 15 ->
  let p := fdt + h_off_struct h + toks_len ts in
  if sw_fits h (12 + align_up len 4) then
    exists m1, fdt_grab_space_ m fdt (12 + align_up len 4) = Ret (Some p, m1) /\
    exists m' X,
      (let! m := st32 m1 (prop_tag p) FDT_PROP in
       let! m := st32 m (prop_nameoff p) off in
       st32 m (prop_len p) len) = Ret m' /\ zlen X = len /\
      sw_struct m' fdt (hdr_grow h (12 + align_up len 4)) rsv (ts ++ [TProp (u32 off) X]) strs /\
      changes m m' fdt (h_totalsize h)
  else fdt_grab_space_ m fdt (12 + align_up len 4) = Ret (None, m).
Proof using Hsw.
  intros Hoff Hlen p. pose proof (align_up_4_bounds len). pose proof (sw_layout _ _ _ _ _ _ Hsw) as (L1 & L2 & L3 & L4 & L5 & L6 & L7 & L8 & L9).
  pose proof (fdt_grab_space_at _ _ _ _ _ _ Hsw (12 + align_up len 4) ltac:(ilia)) as Hg. fold p in Hg.
  destruct (sw_fits h (12 + align_up len 4)) eqn:Hf; [|exact Hg].
  destruct Hg as (m1 & E & Hh1 & Hc1). exists m1. split; [exact E|].
  pose proof (sw_hole_valid _ _ _ _ _ _ Hsw m1 _ Hf Hc1) as Hv. fold p in Hv.
  destruct (write_prop_at m1 p off len Hv ltac:(lia)) as (m' & X & Ew & HX & _ & Htk & Hc).
  exists m', X. split; [exact Ew|]. split; [exact HX|]. rewrite <- HX in *.
  apply (sw_append _ _ _ _ _ _ Hsw m1 m' (TProp (u32 off) X)); [exact Hf|exact Hh1|exact Hc1|exact Hc|exact Htk|].
  cbn [sw_name_ok]. rewrite s32_u32, s32_small by ilia. lia.
Qed.

End write_prop.

Section property.
Context (m : mem) (fdt : Z) (h : header) (rsv : list (Z * Z)) (ts : list tok) (strs : list byte).
Context (Hsw : sw_struct m fdt h rsv ts strs).

Let Hbase : sw_base m fdt h := ss_base _ _ _ _ _ _ Hsw.
Let Hh : hdr_at m fdt h := sw_hdr _ _ _ Hbase.

(** The string of the name, with or without the search. *)
Lemma sw_name_at name :
  zlen strs + zlen name + 1 <= h_totalsize h ->
  let '(strs', off) := sw_str (sw_dedup h) strs name in
  let get := if negb (Z.land (h_last_comp h) FDT_CREATE_FLAG_NO_NAME_DEDUP =? 0) then
      let! '(nameoff, m) := fdt_add_string_ m fdt name in Ret (nameoff, true, m)
    else fdt_sw_find_add_string_ m fdt name in
  (- zlen strs' <= off < 0 /\ zlen strs <= zlen strs' <= zlen strs + zlen name + 1) /\
  if sw_fits h (zlen strs' - zlen strs) then
    exists m', get = Ret (off, negb (zlen strs' =? zlen strs), m') /\
      sw_struct m' fdt (hdr_strings h (zlen strs' - zlen strs)) rsv ts strs' /\
      changes m m' fdt (h_totalsize h)
  else exists b, get = Ret (0, b, m).
Proof using Hsw.
  intros Hlen. pose proof (zlen_nonneg name). pose proof (zlen_nonneg strs).
  assert (zlen (sw_add_str strs name) = zlen strs + zlen name + 1) as El by apply sw_add_str_len.
  unfold sw_dedup. destruct (sw_flag _ _ _ Hbase) as [-> | ->].
  - change (0 =? 0) with true. change (negb (Z.land 0 _ =? 0)) with false. cbv iota zeta.
    pose proof (fdt_sw_find_add_string_at _ _ _ _ _ _ Hsw name Hlen) as Hf. unfold sw_str in *.
    destruct (str_pos strs name) as [o|] eqn:Ep; cbv iota beta zeta in *; cbn [is_null] in Hf.
    + pose proof (str_pos_range _ _ _ Ep). split; [lia|]. rewrite Z.sub_diag, Z.eqb_refl in *.
      destruct (sw_fits h 0); [|by eexists]. destruct Hf as (m' & -> & S1 & S2).
      exists m'. cbn [negb]. repeat (split; [done|]). done.
    + rewrite El in *. split; [lia|]. destruct (sw_fits h _); [|by eexists].
      destruct Hf as (m' & -> & S1 & S2). exists m'.
      destruct (Z.eqb_spec (zlen strs + zlen name + 1) (zlen strs)); [lia|]. cbn [negb]. done.
  - change (FDT_CREATE_FLAG_NO_NAME_DEDUP =? 0) with false.
    change (negb (Z.land FDT_CREATE_FLAG_NO_NAME_DEDUP _ =? 0)) with true. cbv iota zeta. unfold sw_str.
    pose proof (fdt_add_string_at _ _ _ _ _ _ Hsw name Hlen) as Hf. cbv iota beta zeta. rewrite El.
    replace (zlen strs + zlen name + 1 - zlen strs) with (zlen name + 1) by lia. split; [lia|].
    destruct (sw_fits h _); [|rewrite Hf; by eexists]. destruct Hf as (m' & -> & S1 & S2). exists m'.
    destruct (Z.eqb_spec (zlen strs + zlen name + 1) (zlen strs)); [lia|]. cbn [negb rbind]. done.
Qed.

(** Rolling the name back restores the strings and the header. *)
Lemma sw_rollback_at m1 name strs' off :
  sw_str (sw_dedup h) strs name = (strs', off) ->
  sw_struct m1 fdt (hdr_strings h (zlen strs' - zlen strs)) rsv ts strs' ->
  exists m', (if negb (zlen strs' =? zlen strs) then fdt_sw_del_last_string_ m1 fdt name else Ret m1) = Ret m' /\
    sw_struct m' fdt h rsv ts strs /\ changes m1 m' fdt (h_totalsize h).
Proof using Hsw.
  intros Es Hsw1. pose proof (zlen_nonneg name). unfold sw_str in Es.
  destruct (if sw_dedup h then _ else _); injection Es as <- <-.
  - rewrite Z.eqb_refl. cbn [negb]. exists m1. rewrite Z.sub_diag, hdr_strings_0 in Hsw1.
    split; [done|]. split; [done|apply changes_refl].
  - rewrite sw_add_str_len in *. destruct (Z.eqb_spec (zlen strs + zlen name + 1) (zlen strs)); [lia|]. cbn [negb].
    replace (zlen strs + zlen name + 1 - zlen strs) with (zlen name + 1) in Hsw1 by lia.
    apply (fdt_sw_del_last_string_at _ _ _ _ _ _ Hsw1 name strs h eq_refl eq_refl), Hsw.
Qed.

(** The growth of the strings block with the name. *)
Definition sw_growth (name : list byte) : Z := zlen (sw_str (sw_dedup h) strs name).1 - zlen strs.

Definition hdr_property (name : list byte) (len : Z) : header :=
  hdr_grow (hdr_strings h (sw_growth name)) (12 + align_up len 4).

Lemma fdt_property_placeholder_at name len :
  zlen strs + zlen name + 1 <= h_totalsize h -> 0 <= len <= INT_MAX - 15 ->
  let '(strs', off) := sw_str (sw_dedup h) strs name in
  if sw_fits h (sw_growth name + (12 + align_up len 4)) then
    exists m' X, fdt_property_placeholder m fdt name len =
        Ret (0, Some (fdt + h_off_struct h + toks_len ts + 12), m') /\ zlen X = len /\
      sw_struct m' fdt (hdr_property name len) rsv (ts ++ [TProp (u32 off) X]) strs' /\
      changes m m' fdt (h_totalsize h)
  else exists m', fdt_property_placeholder m fdt name len = Ret (- FDT_ERR_NOSPACE, None, m') /\
    sw_struct m' fdt h rsv ts strs /\ changes m m' fdt (h_totalsize h).
Proof using Hsw.
  intros Hname Hlen. pose proof (align_up_4_bounds len). unfold hdr_property, sw_growth.
  pose proof (sw_name_at name Hname) as Hn. destruct (sw_str (sw_dedup h) strs name) as [strs' off] eqn:Es.
  cbn [fst]. destruct Hn as [[Hoff Hgr] Hn]. cbv zeta in Hn.
  unfold fdt_property_placeholder. rewrite (sw_probe_struct_at _ _ _ _ _ _ Hsw). cbn [rbind].
  change (negb (0 =? 0)) with false. cbv iota. unfold sw_flags. rd Hh.
  set (g := zlen strs' - zlen strs) in *. set (al := align_up len 4) in *.
  set (get := if negb (Z.land _ _ =? 0) then _ else _) in *. clearbody get.
  destruct (sw_fits h g) eqn:Hf1.
  2:{ destruct Hn as [b ->]. cbn [rbind]. change (0 =? 0) with true. cbv iota.
      assert (sw_fits h (g + (12 + al)) = false) as ->.
      { apply Z.leb_gt in Hf1. apply Z.leb_gt. unfold g in *. lia. }
      exists m. split; [done|]. split; [exact Hsw|apply changes_refl]. }
  destruct Hn as (m1 & -> & Hsw1 & Hc1). cbn [rbind]. destruct (Z.eqb_spec off 0); [lia|].
  replace (u64 (sizeof_fdt_property + FDT_TAGALIGN len)) with (12 + al)
    by (symmetry; apply u64_small; unfold FDT_TAGALIGN, FDT_ALIGN, FDT_TAGSIZE; fold al; elia).
  pose proof (sw_write_prop_at _ _ _ _ _ _ Hsw1 off len ltac:(lia) Hlen) as Hw. cbv zeta in Hw. fold al in Hw.
  assert (sw_fits (hdr_strings h g) (12 + al) = sw_fits h (g + (12 + al))) as Ef.
  { unfold sw_fits. sw_simpl. f_equal. lia. }
  rewrite Ef in Hw. revert Hw. sw_simpl. intros Hw. destruct (sw_fits h (g + (12 + al))).
  - destruct Hw as (m2 & -> & m3 & X & Ew & HX & Hsw3 & Hc3). cbn [rbind]. exists m3, X.
    destruct (st32 m2 _ _); [|discriminate Ew]. cbn [rbind] in *.
    destruct (st32 _ (prop_nameoff _) _); [|discriminate Ew]. cbn [rbind] in *. rewrite Ew. cbn [rbind].
    split; [done|]. split; [done|]. split; [exact Hsw3|]. by eapply changes_trans.
  - rewrite Hw. cbn [rbind]. destruct (sw_rollback_at m1 name strs' off Es Hsw1) as (m2 & -> & Hsw2 & Hc2).
    cbn [rbind]. exists m2. split; [done|]. split; [done|]. by eapply changes_trans.
Qed.

Lemma fdt_property_at name val :
  zlen strs + zlen name + 1 <= h_totalsize h -> zlen val <= INT_MAX - 15 ->
  let '(strs', off) := sw_str (sw_dedup h) strs name in
  if sw_fits h (sw_growth name + (12 + align_up (zlen val) 4)) then
    exists m', fdt_property m fdt name val = Ret (0, m') /\
      sw_struct m' fdt (hdr_property name (zlen val)) rsv (ts ++ [TProp (u32 off) val]) strs' /\
      changes m m' fdt (h_totalsize h)
  else exists m', fdt_property m fdt name val = Ret (- FDT_ERR_NOSPACE, m') /\
    sw_struct m' fdt h rsv ts strs /\ changes m m' fdt (h_totalsize h).
Proof using Hsw.
  intros Hname Hval. pose proof (zlen_nonneg val). pose proof (align_up_4_bounds (zlen val)).
  pose proof (fdt_property_placeholder_at name (zlen val) Hname ltac:(lia)) as Hp.
  unfold fdt_property. fold (zlen val). destruct (sw_str (sw_dedup h) strs name) as [strs' off].
  destruct (sw_fits h _).
  2:{ destruct Hp as (m' & -> & H1 & H2). cbn [rbind]. by exists m'. }
  destruct Hp as (m1 & X & -> & HX & Hsw1 & Hc1). cbn [rbind nonnull]. change (negb (0 =? 0)) with false. cbv iota.
  pose proof (ss_toks _ _ _ _ _ _ Hsw1) as Htk. apply toks_at_app in Htk as [_ (Hok & Hat & _)].
  set (p := fdt + h_off_struct h + toks_len ts) in *. change (bytes_at m1 p (tok_enc (TProp (u32 off) X))) in Hat.
  pose proof (sw_layout _ _ _ _ _ _ Hsw1) as (L1 & _ & _ & L4 & _ & _ & L7 & _).
  rewrite toks_len_app in L4. cbn [toks_len tok_len] in L4. rewrite HX in L4. revert L1 L4. unfold hdr_property. sw_simpl. intros L1 L4.
  pose proof (toks_len_nonneg ts).
  assert (valid m1 (p + 12) (zlen val)) as Hv.
  { eapply valid_sub; [apply (sw_valid _ _ _ (ss_base _ _ _ _ _ _ Hsw1))|unfold p, hdr_property; sw_simpl; lia..]. }
  rewrite store_valid by exact Hv. cbn [rbind]. exists (upd m1 (p + 12) val). split; [done|].
  pose proof (ss_names _ _ _ _ _ _ Hsw1) as Hns. apply Forall_app in Hns as [_ [Hns _]%Forall_cons].
  destruct (sw_patch m1 (upd m1 (p + 12) val) _ _ _ _ _ _ (TProp (u32 off) val) Hsw1) as [Hsw2 Hc2].
  - eapply changes_weak; [by apply changes_upd|unfold p, hdr_property; sw_simpl; lia|].
    unfold p, hdr_property. sw_simpl. cbn [tok_len]. rewrite HX. lia.
  - cbn [tok_len]. by rewrite HX.
  - change (toks_at (upd m1 (p + 12) val) p [TProp (u32 off) val]).
    split; [exact Hok|]. split; [|done]. cbn [tok_enc] in *. rewrite HX in Hat.
    apply bytes_at_app in Hat as [A1 Hat]. apply bytes_at_app in Hat as [A2 Hat]. apply bytes_at_app in Hat as [A3 _].
    rewrite !be_enc32_length in *. change (Z.of_nat 4) with 4 in *.
    rewrite !bytes_at_app, !be_enc32_length. change (Z.of_nat 4) with 4.
    split; [|split; [|split; [|replace (p + 4 + 4 + 4) with (p + 12) by lia; apply upd_at]]];
      (apply upd_bytes_out; [eassumption|rewrite be_enc32_length; lia]).
  - exact Hns.
  - split; [exact Hsw2|]. eapply changes_trans; [exact Hc1|]. exact Hc2.
Qed.
End property.

(** ** Starting: the header and the reserve map *)

(** The header after [fdt_create]. *)
Definition hdr_create (bufsize flags cpuid : Z) : header :=
  Header FDT_SW_MAGIC bufsize 48 0 48 17 flags cpuid 0 0.

Lemma ld32_zero m p : bytes_at m p [x00; x00; x00; x00] -> ld32 m p = Ret 0.
Proof. apply (ld32_at m p 0). Qed.

Lemma fdt_create_at m buf bufsize flags :
  valid m buf bufsize -> 48 <= bufsize < INT_MAX -> flags = 0 \/ flags = FDT_CREATE_FLAG_NO_NAME_DEDUP ->
  exists m', fdt_create_with_flags m buf bufsize flags = Ret (0, m') /\
    sw_memrsv m' buf (hdr_create bufsize flags 0) [] /\ changes m m' buf bufsize.
Proof.
  intros Hv Hb Hfl. unfold fdt_create_with_flags.
  change (FDT_ALIGN sizeof_fdt_header sizeof_fdt_reserve_entry) with 48.
  destruct (Z.ltb_spec bufsize 48); [lia|].
  replace (negb (Z.land flags (Z.lnot FDT_CREATE_FLAGS_ALL) =? 0)) with false by (by destruct Hfl as [-> | ->]).
  unfold memset. destruct (Z.ltb_spec bufsize 0); [lia|].
  set (z := replicate (Z.to_nat bufsize) x00). assert (zlen z = bufsize) as Hz by (unfold z, zlen; rewrite length_replicate; lia).
  rewrite store_valid by (fold (zlen z); by rewrite Hz). cbn [rbind].
  pose proof (changes_upd m buf z ltac:(by rewrite Hz)) as Hc0. rewrite Hz in Hc0. set (m0 := upd m buf z) in *.
  assert (hdr_at m0 buf (Header 0 0 0 0 0 0 0 0 0 0)) as Hh0.
  { intros f. unfold fdt_get_header, fdt32_ld. replace (hdr_get _ f) with 0 by (by destruct f).
    apply ld32_zero. intros i b Hi. pose proof (lookup_lt_Some _ _ _ Hi) as Hl. cbn in Hl.
    pose proof (field_off_range f). unfold m0. rewrite upd_lookup, decide_True by (unfold zlen in Hz; lia).
    unfold z. rewrite lookup_replicate_2 by lia. by destruct i as [|[|[|[|i]]]]; [injection Hi as <-..|lia]. }
  assert (Hstep : forall f v m1 h1, hdr_at m1 buf h1 -> changes m m1 buf bufsize -> is_u32 v ->
    exists m2, fdt_set_hdr_ f m1 buf v = Ret m2 /\ hdr_at m2 buf (hdr_set h1 f v) /\ changes m m2 buf bufsize).
  { intros f v m1 h1 Hh1 Hc1 Hu. destruct (hdr_set_at m1 buf h1 f v Hh1 Hu) as (m2 & E & Hh2 & Hc2).
    exists m2. split; [exact E|]. split; [exact Hh2|]. pose proof (field_off_range f).
    eapply changes_trans; [exact Hc1|]. eapply changes_weak; [exact Hc2|lia..]. }
  assert (is_u32 flags) as Hfu by (destruct Hfl as [-> | ->]; vm_compute; split; discriminate).
  unfold fdt_set_magic, fdt_set_version, fdt_set_last_comp_version, fdt_set_totalsize, fdt_set_off_mem_rsvmap,
    fdt_set_off_dt_struct, fdt_set_off_dt_strings.
  destruct (Hstep f_magic FDT_SW_MAGIC _ _ Hh0 Hc0) as (m1 & -> & Hh1 & Hc1); [unfold FDT_SW_MAGIC; ilia|]. cbn [rbind].
  destruct (Hstep f_version FDT_LAST_SUPPORTED_VERSION _ _ Hh1 Hc1) as (m2 & -> & Hh2 & Hc2); [unfold FDT_LAST_SUPPORTED_VERSION; ilia|]. cbn [rbind].
  destruct (Hstep f_last_comp_version flags _ _ Hh2 Hc2 Hfu) as (m3 & -> & Hh3 & Hc3). cbn [rbind].
  destruct (Hstep f_totalsize bufsize _ _ Hh3 Hc3) as (m4 & -> & Hh4 & Hc4); [ilia|]. cbn [rbind].
  destruct (Hstep f_off_mem_rsvmap 48 _ _ Hh4 Hc4) as (m5 & -> & Hh5 & Hc5); [ilia|]. cbn [rbind].
  rd Hh5. change (h_off_rsv _) with 48.
  destruct (Hstep f_off_dt_struct 48 _ _ Hh5 Hc5) as (m6 & -> & Hh6 & Hc6); [ilia|]. cbn [rbind].
  destruct (Hstep f_off_dt_strings 0 _ _ Hh6 Hc6) as (m7 & -> & Hh7 & Hc7); [ilia|]. cbn [rbind].
  exists m7. split; [done|]. split; [|exact Hc7].
  constructor; [constructor|..]; cbn [hdr_create h_totalsize h_magic h_version h_last_comp h_off_rsv h_off_strings
    h_size_struct h_size_strings h_off_struct]; try done; try lia.
  - eapply changes_valid; [exact Hc7|exact Hv].
Qed.

(** The header with one more reserve entry. *)
Definition hdr_entry (h : header) : header :=
  Header (h_magic h) (h_totalsize h) (h_off_struct h + 16) (h_off_strings h) (h_off_rsv h)
    (h_version h) (h_last_comp h) (h_cpuid h) (h_size_strings h) (h_size_struct h).

Lemma fdt_add_entry_at m fdt h rsv addr size :
  sw_memrsv m fdt h rsv ->
  if h_off_struct h + 16 <=? h_totalsize h then
    exists m', fdt_add_reservemap_entry m fdt addr size = Ret (0, m') /\
      hdr_at m' fdt (hdr_entry h) /\ changes m m' fdt (h_totalsize h) /\
      bytes_at m' (fdt + 48) (rsv_enc (rsv ++ [(addr, size)]))
  else fdt_add_reservemap_entry m fdt addr size = Ret (- FDT_ERR_NOSPACE, m).
Proof.
  intros H. destruct (sm_base _ _ _ _ H) as [Hh Hv B1 B2 B3 B4 B5]. hdr_ranges Hh.
  pose proof (sm_off _ _ _ _ H) as Ho. pose proof (sm_room _ _ _ _ H). pose proof (zlen_nonneg rsv).
  unfold fdt_add_reservemap_entry. rewrite (sw_probe_memrsv_at _ _ _ _ H). cbn [rbind].
  change (negb (0 =? 0)) with false. cbv iota. rd Hh. unfold sizeof_fdt_reserve_entry.
  rewrite s32_small by ilia. rewrite u64_small by ilia.
  destruct (Z.leb_spec (h_off_struct h + 16) (h_totalsize h)), (Z.ltb_spec (h_totalsize h) (h_off_struct h + 16)); try lia; [|done].
  set (p := fdt + h_off_struct h). unfold re_address, re_size. rewrite ?Z.add_0_r.
  assert (valid m p 16) as Hvp by (eapply valid_sub; [exact Hv|unfold p; lia..]).
  rewrite st64_valid by (eapply valid_sub; [exact Hvp|lia..]). cbn [rbind].
  rewrite st64_valid by (apply upd_valid; eapply valid_sub; [exact Hvp|lia..]). cbn [rbind].
  set (m1 := upd (upd m p (be_enc64 addr)) (p + 8) (be_enc64 size)).
  assert (changes m m1 p 16) as Hc1.
  { repeat (apply changes_upd_in; [|exact Hvp|rewrite ?be_enc64_zlen; lia..]). apply changes_refl. }
  assert (hdr_at m1 fdt h) as Hh1 by (eapply hdr_at_changes; [exact Hh|exact Hc1|unfold p; lia]).
  rewrite u32_small by ilia.
  destruct (hdr_set_at m1 fdt h f_off_dt_struct (h_off_struct h + 16) Hh1 ltac:(ilia)) as (m2 & E2 & Hh2 & Hc2).
  unfold fdt_set_off_dt_struct. rewrite E2. cbn [rbind]. exists m2. split; [done|]. split; [exact Hh2|].
  cbn [field_off] in Hc2. split.
  - eapply changes_trans; (eapply changes_weak; [eassumption|unfold p; lia..]).
  - rewrite rsv_enc_app. apply bytes_at_appz. rewrite rsv_enc_len.
    replace (fdt + 48 + 16 * zlen rsv) with p by (unfold p; lia).
    assert (Hk : forall a n, fdt + 40 <= a -> copied m1 a m2 a n) by (intros; eapply changes_copied; [exact Hc2|lia]).
    split.
    + eapply copied_bytes; [|apply (sm_rsv _ _ _ _ H)]. rewrite rsv_enc_len.
      eapply copied_changes; [eapply changes_copied; [exact Hc1|unfold p; lia]|exact Hc2|lia].
    + cbn [rsv_enc flat_map]. rewrite app_nil_r. eapply copied_bytes; [apply Hk; unfold p; lia|].
      apply bytes_at_appz. split; [|rewrite be_enc64_zlen; apply upd_at].
      apply upd_bytes_out; [apply upd_at|]. rewrite be_enc64_length. lia.
Qed.

Lemma fdt_add_reservemap_entry_at m fdt h rsv e :
  sw_memrsv m fdt h rsv -> rsv_ok e ->
  if h_off_struct h + 16 <=? h_totalsize h then
    exists m', fdt_add_reservemap_entry m fdt e.1 e.2 = Ret (0, m') /\
      sw_memrsv m' fdt (hdr_entry h) (rsv ++ [e]) /\ changes m m' fdt (h_totalsize h)
  else fdt_add_reservemap_entry m fdt e.1 e.2 = Ret (- FDT_ERR_NOSPACE, m).
Proof.
  intros H He. pose proof (fdt_add_entry_at m fdt h rsv e.1 e.2 H) as Ha.
  destruct (Z.leb_spec (h_off_struct h + 16) (h_totalsize h)); [|exact Ha].
  destruct Ha as (m' & E & Hh' & Hc & Hr). exists m'. split; [exact E|]. split; [|exact Hc].
  destruct H as [[B0 B1 B2 B3 B4 B5 B6] S1 S2 S3 S4 S5 S6].
  constructor; [constructor|..]; cbn [hdr_entry h_totalsize h_magic h_version h_last_comp h_off_rsv h_off_strings
    h_size_struct h_size_strings h_off_struct]; try assumption.
  - eapply changes_valid; [exact Hc|exact B1].
  - rewrite zlen_app. change (zlen [e]) with 1. lia.
  - apply Forall_app. split; [done|by constructor].
  - destruct e. exact Hr.
Qed.

(** The terminating entry, and the 'struct' state with nothing in it. *)
Lemma fdt_finish_reservemap_at m fdt h rsv :
  sw_memrsv m fdt h rsv ->
  if h_off_struct h + 16 <=? h_totalsize h then
    exists m', fdt_finish_reservemap m fdt = Ret (0, m') /\
      sw_struct m' fdt (hdr_set (hdr_entry h) f_off_dt_strings (h_totalsize h)) rsv [] [] /\
      changes m m' fdt (h_totalsize h)
  else fdt_finish_reservemap m fdt = Ret (- FDT_ERR_NOSPACE, m).
Proof.
  intros H. pose proof (fdt_add_entry_at m fdt h rsv 0 0 H) as Ha. unfold fdt_finish_reservemap.
  destruct (Z.leb_spec (h_off_struct h + 16) (h_totalsize h)); [|by rewrite Ha].
  destruct Ha as (m1 & -> & Hh1 & Hc1 & Hr). cbn [rbind]. change (negb (0 =? 0)) with false. cbv iota.
  destruct H as [[B0 B1 B2 B3 B4 B5 B6] S1 S2 S3 S4 S5 S6]. hdr_ranges B0. pose proof (zlen_nonneg rsv).
  rd Hh1. cbn [hdr_entry h_totalsize].
  destruct (hdr_set_at m1 fdt _ f_off_dt_strings (h_totalsize h) Hh1 ltac:(ilia)) as (m2 & E2 & Hh2 & Hc2).
  unfold fdt_set_off_dt_strings. rewrite E2. cbn [rbind]. exists m2. split; [done|]. cbn [field_off] in Hc2.
  assert (changes m m2 fdt (h_totalsize h)) as Hc.
  { eapply changes_trans; (eapply changes_weak; [eassumption|lia..]). }
  split; [|exact Hc]. rewrite rsv_enc_app in Hr.
  assert (bytes_at m2 (fdt + 48) (rsv_enc rsv ++ be_enc64 0 ++ be_enc64 0)) as Hr2.
  { eapply copied_bytes; [|exact Hr]. eapply changes_copied; [exact Hc2|lia]. }
  destruct S2 as [S2a S2b].
  constructor; [constructor|..];
    change (h_totalsize (hdr_set _ _ _)) with (h_totalsize h); change (h_off_struct (hdr_set _ _ _)) with (h_off_struct h + 16);
    try assumption; try done.
  - eapply changes_valid; [exact Hc|exact B1].
  - cbn [toks_len]. lia.
  - change (zlen (@nil byte)) with 0. cbn [toks_len]. lia.
  - split; [exact S5|by exists 0].
Qed.
