(* ===== verification/FdtSwFinish.v ===== *)
(** [fdt_finish]: the blob under construction becomes a complete tree. *)
From S2P Require Import Prelude Monad Memory Libfdt Fdt FdtSpec FdtTree FdtRo FdtWip FdtRead FdtNav FdtRw.
From S2P Require Import FdtEdit FdtRwSpec FdtRwProp FdtRwNode FdtRsv FdtSw FdtSwSpec.

(** A name offset counted from the start of the strings block. *)
Definition fix_name (n no : Z) : Z := u32 (s32 (s32 no + n)).

Definition fix_tok (n : Z) (t : tok) : tok :=
  match t with TProp no d => TProp (fix_name n no) d | _ => t end.

Definition fix_toks (n : Z) (ts : list tok) : list tok := map (fix_tok n) ts.

(** The header of the finished tree. *)
Definition hdr_finish (h : header) : header :=
  let s := h_off_struct h + h_size_struct h + 4 in
  Header FDT_MAGIC (s + h_size_strings h) (h_off_struct h) s (h_off_rsv h) 17 16 (h_cpuid h)
    (h_size_strings h) (h_size_struct h + 4).

Lemma fix_tok_len n t : tok_len (fix_tok n t) = tok_len t.
Proof. by destruct t. Qed.

Lemma fix_toks_len n ts : toks_len (fix_toks n ts) = toks_len ts.
Proof. induction ts as [|t ts IH]; [done|]. cbn [fix_toks map toks_len]. fold (fix_toks n ts). by rewrite IH, fix_tok_len. Qed.

(** A token of the structure block replaced by one of the same length. *)
Lemma struct_patch m m' fdt h pre t t' post :
  struct_at m fdt h (pre ++ t :: post) -> 40 <= h_off_struct h ->
  changes m m' (saddr fdt h (toks_len pre)) (tok_len t) -> tok_len t' = tok_len t ->
  toks_at m' (saddr fdt h (toks_len pre)) [t'] ->
  struct_at m' fdt h (pre ++ t' :: post).
Proof.
  intros [[Hh Hv Hs1 Hs2] Hs3 Htk He Hr] Ho Hc El Ht. pose proof (toks_len_nonneg pre). pose proof (tok_len_ge t).
  apply toks_at_app in Htk as [Hpre [_ [_ Hpost]]]. rewrite !toks_len_app in *. cbn [toks_len] in *.
  pose proof (toks_len_nonneg post). unfold saddr in *. rewrite !Z.add_0_r in *.
  assert (Hk : forall a n, a + n <= fdt + h_off_struct h + toks_len pre \/
    fdt + h_off_struct h + toks_len pre + tok_len t <= a -> copied m a m' a n)
    by (intros; eapply changes_copied; [exact Hc|lia]).
  constructor; [constructor|..]; try assumption; unfold saddr; rewrite ?toks_len_app; cbn [toks_len]; rewrite ?El.
  - eapply hdr_at_changes; [exact Hh|exact Hc|lia].
  - eapply changes_valid; [exact Hc|exact Hv].
  - rewrite Z.add_0_r. apply toks_at_app. split; [eapply copied_toks; [apply Hk; lia|exact Hpre]|].
    destruct Ht as (Ht1 & Ht2 & _). split; [exact Ht1|]. split; [exact Ht2|]. rewrite El.
    eapply copied_toks; [apply Hk; lia|exact Hpost].
  - eapply copied_bytes; [apply Hk; rewrite be_enc32_zlen; lia|exact He].
  - exact Hr.
Qed.

(** The property's name offset rewritten in place. *)
Lemma store_nameoff_at m p no d v :
  toks_at m p [TProp no d] -> is_u32 v ->
  exists m', st32 m (prop_nameoff p) v = Ret m' /\ toks_at m' p [TProp v d] /\ changes m m' (p + 8) 4.
Proof.
  intros (_ & Hat & _) Hv. unfold prop_nameoff.
  pose proof (bytes_at_valid _ _ _ Hat) as Hval. fold (zlen (tok_enc (TProp no d))) in Hval.
  assert (12 <= zlen (tok_enc (TProp no d))) as Hz.
  { cbn [tok_enc]. rewrite !zlen_app, !be_enc32_zlen. pose proof (zlen_nonneg d). lia. }
  assert (valid m (p + 8) 4) as Hv8 by (eapply valid_sub; [exact Hval|lia..]).
  rewrite st32_valid by exact Hv8. eexists. split; [done|]. split; [|by apply (changes_upd m (p + 8) (be_enc32 v))].
  split; [exact Hv|]. split; [|done]. cbn [tok_enc] in *. rewrite app_assoc in *.
  replace (p + 8) with (p + zlen (be_enc32 FDT_PROP ++ be_enc32 (zlen d))) by (rewrite zlen_app, !be_enc32_zlen; lia).
  by apply upd_mid with (be_enc32 no).
Qed.

Section loop.
Context (m : mem) (fdt : Z) (h : header) (ts : list tok).
Context (Hst : struct_at m fdt h ts) (Ho : 40 <= h_off_struct h).

Let n : Z := h_size_strings h.

(** The walk that corrects the name offsets: what is behind [o] has been
    corrected, what is ahead of it is as it was. *)
Definition finish_inv (st : mem * Z) : Prop :=
  exists dn todo, ts = dn ++ todo /\ st.2 = toks_len dn /\
    struct_at st.1 fdt h (fix_toks n dn ++ todo) /\ changes m st.1 (saddr fdt h 0) (toks_len ts).

Lemma fdt_finish_loop_wp :
  wp total (loop (fdt_finish_body fdt) (m, 0)) (fun r : mem * Z => r.2 = toks_len ts + 4 /\
    struct_at r.1 fdt h (fix_toks n ts) /\ changes m r.1 (saddr fdt h 0) (toks_len ts)).
Proof using Hst Ho.
  apply (wp_loop total finish_inv (fun st => toks_len ts + 1 - st.2)).
  - exists [], ts. split; [done|]. split; [done|]. split; [exact Hst|apply changes_refl].
  - intros [m' o] (dn & todo & E & Eo & _). cbn in Eo |- *. subst o. pose proof (struct_bound _ _ _ _ Hst _ _ E).
    pose proof (toks_len_nonneg todo). rewrite E, toks_len_app. unfold loop_bound. ilia.
  - intros [m' o] (dn & todo & E & Eo & Hst' & Hc). cbn in Eo, Hst', Hc. subst o. unfold fdt_finish_body.
    rewrite <- (fix_toks_len n dn). destruct todo as [|t todo].
    + rewrite app_nil_r in Hst', E. rewrite (fdt_next_tag_end _ _ _ _ Hst'). cbn [rbind].
      change (FDT_END =? FDT_END) with true. cbn [wp]. subst dn. by rewrite fix_toks_len.
    + rewrite (fdt_next_tag_at _ _ _ _ Hst' _ _ _ eq_refl). cbn [rbind].
      assert ((tok_tag t =? FDT_END) = false) as -> by (by destruct t).
      assert (Hnext : forall m2, struct_at m2 fdt h (fix_toks n dn ++ fix_tok n t :: todo) ->
        changes m m2 (saddr fdt h 0) (toks_len ts) ->
        finish_inv (m2, toks_len (fix_toks n dn) + tok_len t)).
      { intros m2 H1 H2. exists (dn ++ [t]), todo. cbn [fst snd]. rewrite <- app_assoc, toks_len_snoc, fix_toks_len.
        split; [done|]. split; [done|]. split; [|done]. unfold fix_toks in *. rewrite map_app, <- app_assoc. exact H1. }
      pose proof (tok_len_ge t). destruct (Z.eqb_spec (tok_tag t) FDT_PROP) as [Et|Nt].
      * destruct t as [| |no d|]; try discriminate Et.
        pose proof (sa_blob _ _ _ _ Hst') as Hb'. unfold fdt_offset_ptr_w_. rd (blob_hdr _ _ _ Hb').
        destruct (struct_tok _ _ _ _ Hst' _ _ _ eq_refl) as (Hok & Hat & _).
        destruct (tok_prop_at _ _ _ _ Hat) as (_ & Hno & _).
        unfold fdt32_to_cpu_at, prop_nameoff. rewrite Hno. cbn [rbind]. rd (blob_hdr _ _ _ Hb'). fold n.
        destruct (store_nameoff_at m' (saddr fdt h (toks_len (fix_toks n dn))) no d (fix_name n no)) as (m2 & E2 & Htk2 & Hc2);
          [done|apply u32_range|].
        cbn [tok_ok] in Hok. rewrite (u32_small no) by done.
        assert (st32 m' (saddr fdt h (toks_len (fix_toks n dn)) + 8) (s32 (s32 no + n)) = Ret m2) as ->.
        { unfold st32, prop_nameoff, fix_name in *. by rewrite be_enc32_u32 in E2. }
        cbn [rbind wp]. split; [|cbn [snd]; lia]. apply Hnext.
        -- eapply struct_patch; [exact Hst'|exact Ho| |by rewrite fix_tok_len|exact Htk2].
           eapply changes_weak; [exact Hc2|lia|]. cbn [tok_len] in *. pose proof (align_up_4_bounds (zlen d)).
           pose proof (zlen_nonneg d). lia.
        -- eapply changes_trans; [exact Hc|]. rewrite E, toks_len_app. cbn [toks_len tok_len] in *.
           pose proof (toks_len_nonneg todo). pose proof (toks_len_nonneg dn). rewrite fix_toks_len in Hc2.
           pose proof (align_up_4_bounds (zlen d)). pose proof (zlen_nonneg d). unfold saddr in *.
           eapply changes_weak; [exact Hc2|lia..].
      * cbn [rbind wp]. split; [|cbn [snd]; lia]. apply Hnext; [|exact Hc]. by destruct t.
Qed.

Lemma fdt_finish_loop_at :
  exists m', loop (fdt_finish_body fdt) (m, 0) = Ret (m', toks_len ts + 4) /\
    struct_at m' fdt h (fix_toks n ts) /\ changes m m' (saddr fdt h 0) (toks_len ts).
Proof using Hst Ho.
  pose proof fdt_finish_loop_wp as Hloop.
  apply wp_total_ex in Hloop as ([m1 o1] & -> & E1 & H1 & H2).
  cbn in *. subst o1. by exists m1.
Qed.
End loop.

(** ** [fdt_finish] *)

Ltac fin_simpl :=
  cbn [hdr_finish hdr_set hdr_grow h_magic h_totalsize h_off_struct h_off_strings h_off_rsv h_version
       h_last_comp h_cpuid h_size_strings h_size_struct].

(** The header once the strings have moved behind the END tag. *)
Definition hdr_relocated (h : header) : header :=
  Header (h_magic h) (h_totalsize h) (h_off_struct h) (h_off_struct h + h_size_struct h + 4) (h_off_rsv h)
    (h_version h) (h_last_comp h) (h_cpuid h) (h_size_strings h) (h_size_struct h + 4).

(** The blob with the END tag and the moved strings, names uncorrected. *)
Record relocated (m : mem) (fdt : Z) (h : header) (rsv : list (Z * Z)) (ts : list tok)
    (strs : list byte) : Prop := Relocated {
  rl_struct : struct_at m fdt (hdr_relocated h) ts;
  rl_rsv : rsv_at m (fdt + 48) rsv;
  rl_strs : bytes_at m (fdt + h_off_struct h + h_size_struct h + 4) strs;
}.

Section finish.
Context (m : mem) (fdt : Z) (h : header) (rsv : list (Z * Z)) (ts : list tok) (strs : list byte).
Context (Hsw : sw_struct m fdt h rsv ts strs).

Let Hbase : sw_base m fdt h := ss_base _ _ _ _ _ _ Hsw.
Let Hh : hdr_at m fdt h := sw_hdr _ _ _ Hbase.
Let s : Z := h_off_struct h + h_size_struct h + 4.

(** The END tag: the old strings are still where they were. *)
Lemma sw_terminate_at m1 :
  sw_fits h 4 = true -> hdr_at m1 fdt (hdr_grow h 4) -> changes m m1 (fdt + 36) 4 ->
  exists m', st32 m1 (fdt + h_off_struct h + toks_len ts) FDT_END = Ret m' /\
    hdr_at m' fdt (hdr_grow h 4) /\ valid m' fdt (h_totalsize h) /\ rsv_at m' (fdt + 48) rsv /\
    toks_at m' (fdt + h_off_struct h) ts /\
    bytes_at m' (fdt + h_off_struct h + toks_len ts) (be_enc32 FDT_END) /\
    bytes_at m' (fdt + h_totalsize h - zlen strs) strs /\ changes m m' fdt (h_totalsize h).
Proof using Hsw.
  intros Hf Hh1 Hc1. pose proof (sw_hole_valid _ _ _ _ _ _ Hsw m1 4 Hf Hc1) as Hv. apply Z.leb_le in Hf.
  pose proof (sw_layout _ _ _ _ _ _ Hsw) as (L1 & L2 & L3 & L4 & L5 & L6 & L7 & L8 & L9).
  rewrite st32_valid by exact Hv. eexists. split; [done|]. set (p := fdt + h_off_struct h + toks_len ts) in *.
  assert (changes m1 (upd m1 p (be_enc32 FDT_END)) p 4) as Hc2 by (by apply (changes_upd m1 p (be_enc32 FDT_END))).
  set (m' := upd m1 p _) in *.
  assert (changes m m' fdt (h_totalsize h)) as Hc.
  { eapply changes_trans; (eapply changes_weak; [eassumption|subst p; lia..]). }
  assert (Hkeep : forall a n, fdt + 40 <= a -> a + n <= p \/ p + 4 <= a -> copied m a m' a n).
  { intros a n Ha Hd. eapply copied_changes; [eapply changes_copied; [exact Hc1|lia]|exact Hc2|lia]. }
  split; [eapply hdr_at_changes; [exact Hh1|exact Hc2|lia]|].
  split; [eapply changes_valid; [exact Hc|apply Hbase]|].
  split; [eapply rsv_at_copied; [apply Hkeep; lia|apply Hsw]|].
  split; [eapply copied_toks; [apply Hkeep; lia|apply Hsw]|].
  split; [apply upd_at|]. split; [|exact Hc].
  eapply copied_bytes; [apply Hkeep; lia|apply Hsw].
Qed.

(** The strings move down to the END tag, and the header says so. *)
Lemma sw_relocate_at m1 :
  sw_fits h 4 = true -> hdr_at m1 fdt (hdr_grow h 4) -> valid m1 fdt (h_totalsize h) ->
  rsv_at m1 (fdt + 48) rsv -> toks_at m1 (fdt + h_off_struct h) ts ->
  bytes_at m1 (fdt + h_off_struct h + toks_len ts) (be_enc32 FDT_END) ->
  bytes_at m1 (fdt + h_totalsize h - zlen strs) strs ->
  exists m2 m', memmove m1 (fdt + s) (fdt + (h_totalsize h - zlen strs)) (zlen strs) = Ret m2 /\
    fdt_set_off_dt_strings m2 fdt s = Ret m' /\ relocated m' fdt h rsv ts strs /\
    changes m1 m' fdt (h_totalsize h).
Proof using Hsw.
  intros Hf%Z.leb_le Hh1 Hv1 Hr1 Ht1 He1 Hs1.
  pose proof (sw_layout _ _ _ _ _ _ Hsw) as (L1 & L2 & L3 & L4 & L5 & L6 & L7 & L8 & L9). unfold s in *. hdr_ranges Hh.
  destruct (memmove_copied m1 (fdt + (h_off_struct h + h_size_struct h + 4)) (fdt + (h_totalsize h - zlen strs)) (zlen strs))
    as (m2 & E2 & Hc2 & Hcp2); [lia|eapply valid_sub; [exact Hv1|lia..]|eapply valid_sub; [exact Hv1|lia..]|].
  assert (hdr_at m2 fdt (hdr_grow h 4)) as Hh2 by (eapply hdr_at_changes; [exact Hh1|exact Hc2|lia]).
  destruct (hdr_set_at m2 fdt _ f_off_dt_strings (h_off_struct h + h_size_struct h + 4) Hh2 ltac:(ilia)) as (m' & E' & Hh' & Hc').
  cbn [field_off] in Hc'.
  assert (changes m1 m' fdt (h_totalsize h)) as Hc.
  { eapply changes_trans; (eapply changes_weak; [eassumption|lia..]). }
  exists m2, m'. split; [exact E2|]. split; [exact E'|]. split; [|exact Hc].
  assert (Hkeep : forall a n, fdt + 40 <= a -> a + n <= fdt + (h_off_struct h + h_size_struct h + 4) ->
    copied m1 a m' a n).
  { intros a n Ha Hd. eapply copied_changes; [eapply changes_copied; [exact Hc2|lia]|exact Hc'|lia]. }
  change (hdr_set (hdr_grow h 4) f_off_dt_strings (h_off_struct h + h_size_struct h + 4)) with (hdr_relocated h) in Hh'.
  constructor; [constructor; [constructor|..]|..]; cbn [hdr_relocated h_totalsize h_off_struct h_version]; unfold saddr;
    cbn [hdr_relocated h_off_struct].
  - exact Hh'.
  - eapply changes_valid; [exact Hc|exact Hv1].
  - lia.
  - ilia.
  - rewrite (sw_version _ _ _ Hbase). lia.
  - rewrite Z.add_0_r. eapply copied_toks; [apply Hkeep; lia|exact Ht1].
  - eapply copied_bytes; [apply Hkeep; rewrite ?be_enc32_zlen; lia|exact He1].
  - apply in_struct_true. cbn [hdr_relocated h_totalsize h_off_struct h_size_struct]. lia.
  - eapply rsv_at_copied; [apply Hkeep; lia|exact Hr1].
  - eapply copied_bytes; [|exact Hs1]. eapply copied_at; [eapply copied_changes; [exact Hcp2|exact Hc'|lia]|lia..].
Qed.

(** The corrected structure block and the last header words. *)
Lemma sw_close_at m1 m2 :
  Z.land fdt 7 = 0 -> sw_fits h 4 = true ->
  relocated m1 fdt h rsv ts strs ->
  struct_at m2 fdt (hdr_relocated h) (fix_toks (zlen strs) ts) ->
  changes m1 m2 (saddr fdt (hdr_relocated h) 0) (toks_len ts) ->
  exists m3 m4 m', fdt_set_totalsize m2 fdt (s + zlen strs) = Ret m3 /\
    fdt_set_last_comp_version m3 fdt FDT_LAST_COMPATIBLE_VERSION = Ret m4 /\
    fdt_set_magic m4 fdt FDT_MAGIC = Ret m' /\
    rw_at m' fdt (hdr_finish h) rsv (fix_toks (zlen strs) ts) strs /\ changes m2 m' fdt 40.
Proof using Hsw.
  intros Hal Hfit%Z.leb_le [_ Hr1 Hs1] Hst2 Hc12.
  pose proof (sw_layout _ _ _ _ _ _ Hsw) as (L1 & L2 & L3 & L4 & L5 & L6 & L7 & L8 & L9). unfold s in *. hdr_ranges Hh.
  pose proof (sa_blob _ _ _ _ Hst2) as [Hh2 Hv2 _ _]. cbn [hdr_relocated h_totalsize] in Hv2.
  unfold saddr in Hc12. cbn [hdr_relocated h_off_struct] in Hc12.
  destruct (hdr_set_at m2 fdt _ f_totalsize (h_off_struct h + h_size_struct h + 4 + zlen strs) Hh2 ltac:(ilia)) as (m3 & E3 & Hh3 & Hc3).
  destruct (hdr_set_at m3 fdt _ f_last_comp_version 16 Hh3 ltac:(ilia)) as (m4 & E4 & Hh4 & Hc4).
  destruct (hdr_set_at m4 fdt _ f_magic FDT_MAGIC Hh4 ltac:(done)) as (m' & E' & Hh' & Hc').
  cbn [field_off] in Hc3, Hc4, Hc'.
  assert (changes m2 m' fdt 40) as Hc.
  { eapply changes_trans; [|eapply changes_trans]; (eapply changes_weak; [eassumption|lia..]). }
  exists m3, m4, m'. split; [exact E3|]. split; [exact E4|]. split; [exact E'|]. split; [|exact Hc].
  change (hdr_set _ f_magic FDT_MAGIC) with (Header FDT_MAGIC (h_off_struct h + h_size_struct h + 4 + zlen strs) (h_off_struct h)
    (h_off_struct h + h_size_struct h + 4) (h_off_rsv h) (h_version h) 16 (h_cpuid h) (h_size_strings h) (h_size_struct h + 4)) in Hh'.
  assert (hdr_at m' fdt (hdr_finish h)) as Hhf.
  { unfold hdr_finish. rewrite L3, (sw_version _ _ _ Hbase) in Hh'. rewrite L3. exact Hh'. }
  assert (Hkeep : forall a n, fdt + 40 <= a -> copied m2 a m' a n)
    by (intros a n Ha; eapply changes_copied; [exact Hc|lia]).
  assert (Hkeep1 : forall a n, fdt + 40 <= a -> a + n <= fdt + h_off_struct h \/ fdt + h_off_struct h + toks_len ts <= a ->
    copied m1 a m' a n).
  { intros a n Ha Hd. eapply copied_changes; [eapply changes_copied; [exact Hc12|lia]|exact Hc|lia]. }
  destruct Hst2 as [_ _ Ht2 He2 _]. unfold saddr in Ht2, He2. cbn [hdr_relocated h_off_struct] in Ht2, He2.
  pose proof (sw_off_rsv _ _ _ Hbase).
  constructor; [constructor; [constructor; [constructor|..]|..]|..]; unfold saddr; rewrite ?fix_toks_len;
    cbn [hdr_finish h_magic h_totalsize h_off_struct h_off_strings h_off_rsv h_version h_last_comp h_size_strings h_size_struct];
    try assumption; try (unfold FDT_LAST_SUPPORTED_VERSION; ilia).
  - eapply changes_valid; [exact Hc|]. eapply valid_sub; [exact Hv2|lia..].
  - eapply copied_toks; [apply Hkeep; lia|exact Ht2].
  - rewrite fix_toks_len in He2. eapply copied_bytes; [apply Hkeep; lia|exact He2].
  - apply in_struct_true. cbn [hdr_finish h_totalsize h_off_struct h_size_struct]. lia.
  - eapply copied_bytes; [apply Hkeep1; lia|]. replace (fdt + (h_off_struct h + h_size_struct h + 4))
      with (fdt + h_off_struct h + h_size_struct h + 4) by lia. exact Hs1.
  - replace (h_off_rsv h) with 48 by lia. eapply rsv_at_copied; [apply Hkeep1; lia|exact Hr1].
Qed.

(** [fdt_finish]: a complete tree, or no room for the END tag. *)
Lemma fdt_finish_at :
  Z.land fdt 7 = 0 ->
  if sw_fits h 4 then
    exists m', fdt_finish m fdt = Ret (0, m') /\
      rw_at m' fdt (hdr_finish h) rsv (fix_toks (zlen strs) ts) strs /\ changes m m' fdt (h_totalsize h)
  else fdt_finish m fdt = Ret (- FDT_ERR_NOSPACE, m).
Proof using Hsw.
  intros Hal. pose proof (sw_layout _ _ _ _ _ _ Hsw) as (L1 & L2 & L3 & L4 & L5 & L6 & L7 & L8 & L9). hdr_ranges Hh.
  unfold fdt_finish. rewrite (sw_probe_struct_at _ _ _ _ _ _ Hsw). cbn [rbind].
  change (negb (0 =? 0)) with false. cbv iota.
  pose proof (fdt_grab_space_at _ _ _ _ _ _ Hsw 4 ltac:(ilia)) as Hg.
  destruct (sw_fits h 4) eqn:Hf; [|by rewrite Hg]. pose proof Hf as Hfit%Z.leb_le.
  destruct Hg as (m1 & -> & Hh1 & Hc1). cbn [rbind].
  destruct (sw_terminate_at m1 Hf Hh1 Hc1) as (m2 & -> & Hh2 & Hv2 & Hr2 & Ht2 & He2 & Hs2 & Hc2). cbn [rbind].
  rd Hh2. sw_simpl.
  destruct (sw_relocate_at m2 Hf Hh2 Hv2 Hr2 Ht2 He2 Hs2) as (m3 & m4 & E3 & E4 & Hrl & Hc4).
  replace (h_off_struct h + (h_size_struct h + 4)) with (h_off_struct h + h_size_struct h + 4) by lia.
  rewrite L3, !s32_small by ilia. unfold s in E3, E4. rewrite E3. cbn [rbind]. rewrite E4. cbn [rbind].
  destruct (fdt_finish_loop_at m4 fdt (hdr_relocated h) ts (rl_struct _ _ _ _ _ _ Hrl)) as (m5 & E5 & Hst5 & Hc5);
    [cbn [hdr_relocated h_off_struct]; lia|]. rewrite E5. cbn [rbind].
  destruct (Z.ltb_spec (toks_len ts + 4) 0); [lia|].
  change (h_size_strings (hdr_relocated h)) with (h_size_strings h) in Hst5. rewrite L3 in Hst5.
  rd (blob_hdr _ _ _ (sa_blob _ _ _ _ Hst5)). cbn [hdr_relocated h_size_strings].
  rewrite L3, u32_small by ilia.
  destruct (sw_close_at m4 m5 Hal Hf Hrl Hst5 Hc5) as (m6 & m7 & m' & E6 & E7 & E8 & Hrw & Hc8).
  unfold s in E6. rewrite E6. cbn [rbind]. rewrite E7. cbn [rbind]. rewrite E8. cbn [rbind].
  exists m'. split; [done|]. split; [exact Hrw|]. unfold saddr in Hc5. cbn [hdr_relocated h_off_struct] in Hc5.
  eapply changes_trans; [exact Hc2|]. eapply changes_trans; [exact Hc4|].
  eapply changes_trans; (eapply changes_weak; [eassumption|lia..]).
Qed.
End finish.
