(* ===== verification/FdtSwBuild.v ===== *)
(** The sequential writer as a state machine: the calls of a client, the
    abstract states they move between, and the simulation between the two. *)
From S2P Require Import Prelude Monad Memory Libfdt Fdt FdtSpec FdtTree FdtRo FdtCheck FdtWip FdtRead FdtNav.
From S2P Require Import FdtCheckSpec FdtRw FdtEdit FdtRwSpec FdtRwProp FdtRwNode FdtRsv FdtSw FdtSwSpec.
From S2P Require Import FdtSwFinish.

(** ** The abstract machine *)

(** What a client writes into the structure block. *)
Inductive sw_op :=
| SwBegin (name : list byte)
| SwEnd
| SwProp (name val : list byte).

Inductive sw_call :=
| CallRsv (e : Z * Z)
| CallFinishRsv
| CallOp (op : sw_op)
| CallFinish.

(** 'memrsv', 'struct' and the finished tree, with what has been written. *)
Inductive sw_state :=
| StRsv (rsv : list (Z * Z))
| StStruct (rsv : list (Z * Z)) (ops : list sw_op)
| StDone (rsv : list (Z * Z)) (ops : list sw_op).

(** Where a call leads when it is made in its state. *)
Definition sw_next (st : sw_state) (c : sw_call) : option sw_state :=
  match st, c with
  | StRsv rsv, CallRsv e => Some (StRsv (rsv ++ [e]))
  | StRsv rsv, CallFinishRsv => Some (StStruct rsv [])
  | StStruct rsv ops, CallOp op => Some (StStruct rsv (ops ++ [op]))
  | StStruct rsv ops, CallFinish => Some (StDone rsv ops)
  | _, _ => None
  end.

(** The room a call can take. *)
Definition op_need (op : sw_op) : Z :=
  match op with
  | SwBegin name => 4 + align_up (zlen name + 1) 4
  | SwEnd => 4
  | SwProp name val => zlen name + 1 + (12 + align_up (zlen val) 4)
  end.

Definition sw_need (c : sw_call) : Z :=
  match c with
  | CallRsv _ | CallFinishRsv => 16
  | CallOp op => op_need op
  | CallFinish => 4
  end.

(** [f] is the room the machine can count on: what the calls so far have left
    when each took its need. A call succeeds, or lacks the space, and then its
    need is more than [f], or is made in the wrong state; only the first moves
    the machine. *)
Inductive sw_trans (st : sw_state) (f : Z) (c : sw_call) : Z -> sw_state -> Z -> Prop :=
| tr_ok st' : sw_next st c = Some st' -> sw_trans st f c 0 st' (f - sw_need c)
| tr_nospace st' : sw_next st c = Some st' -> f < sw_need c -> sw_trans st f c (- FDT_ERR_NOSPACE) st f
| tr_badstate : sw_next st c = None -> sw_trans st f c (- FDT_ERR_BADSTATE) st f.

(** ** The calls of the code *)

Definition run_op (op : sw_op) (m : mem) (fdt : Z) : res (Z * mem) :=
  match op with
  | SwBegin name => fdt_begin_node m fdt name
  | SwEnd => fdt_end_node m fdt
  | SwProp name val => fdt_property m fdt name val
  end.

Definition run_call (c : sw_call) (m : mem) (fdt : Z) : res (Z * mem) :=
  match c with
  | CallRsv e => fdt_add_reservemap_entry m fdt e.1 e.2
  | CallFinishRsv => fdt_finish_reservemap m fdt
  | CallOp op => run_op op m fdt
  | CallFinish => fdt_finish m fdt
  end.

(** A client that goes on whatever the calls return. *)
Fixpoint run_calls (cs : list sw_call) (m : mem) (fdt : Z) : res (list Z * mem) :=
  match cs with
  | [] => Ret ([], m)
  | c :: cs =>
    let! '(r, m) := run_call c m fdt in
    let! '(rs, m) := run_calls cs m fdt in
    Ret (r :: rs, m)
  end.

(** The calls the simulation is about: C strings, sizes an [int] can hold,
    reserve entries with a size that is not 0, and property names short enough
    for the room test of fdt_add_string_, which wraps with longer ones (the
    devicetree specification allows 31 characters). *)
Definition op_ok (op : sw_op) : Prop :=
  match op with
  | SwBegin name => no_nul name /\ zlen name <= INT_MAX - 20
  | SwEnd => True
  | SwProp name val => no_nul name /\ zlen name < 64 /\ zlen val <= INT_MAX - 15
  end.

Definition call_ok (c : sw_call) : Prop :=
  match c with
  | CallRsv e => rsv_ok e
  | CallOp op => op_ok op
  | CallFinishRsv | CallFinish => True
  end.

(** ** The relation between memory and machine *)

(** A token writes an operation: in the 'struct' state names count from the
    end of the strings, in a finished tree from their start. *)
Definition writes (get : Z -> option (list byte)) (op : sw_op) (t : tok) : Prop :=
  match op, t with
  | SwBegin n, TBegin n' => n = n'
  | SwEnd, TEnd => True
  | SwProp n v, TProp no v' => v = v' /\ get no = Some n
  | _, _ => False
  end.

Definition from_end (strs : list byte) (no : Z) : option (list byte) :=
  strs_get strs (zlen strs + s32 no).

Definition sw_free (h : header) : Z :=
  h_totalsize h - h_off_struct h - h_size_struct h - h_size_strings h.

(** The memory is in the state: at least [f] bytes of the [T] are free. *)
Definition sw_holds (m : mem) (fdt T f : Z) (st : sw_state) : Prop :=
  match st with
  | StRsv rsv => exists h, sw_memrsv m fdt h rsv /\ h_totalsize h = T /\ f <= sw_free h
  | StStruct rsv ops => exists h ts strs, sw_struct m fdt h rsv ts strs /\ h_totalsize h = T /\
      f <= sw_free h /\ Forall2 (writes (from_end strs)) ops ts
  | StDone rsv ops => exists h ts strs, rw_at m fdt h rsv ts strs /\ h_totalsize h <= T /\ h_last_comp h <= h_version h /\
      Forall2 (writes (strs_get strs)) ops ts
  end.

Lemma writes_mono get get' op t :
  (forall o n, get o = Some n -> get' o = Some n) -> writes get op t -> writes get' op t.
Proof. intros H. destruct op, t; cbn; try done. intros [-> Hn]. auto. Qed.

Lemma strs_get_prepend p strs o n :
  strs_get strs o = Some n -> strs_get (p ++ strs) (zlen p + o) = Some n.
Proof.
  intros (_ & Hn & pre & r & -> & ->)%strs_get_Some. rewrite app_assoc, <- zlen_app. by apply strs_get_app.
Qed.

(** The strings block grows at its start: what is in it keeps its name. *)
Lemma sw_str_mono b strs name o n :
  from_end strs o = Some n -> from_end (sw_str b strs name).1 o = Some n.
Proof.
  intros H. unfold sw_str. destruct (if b then _ else _); cbn [fst]; [done|]. unfold from_end, sw_add_str in *.
  change (name ++ x00 :: strs) with (name ++ [x00] ++ strs). rewrite (app_assoc name [x00] strs), zlen_app.
  rewrite <- Z.add_assoc. by apply strs_get_prepend.
Qed.

(** The offset of the written property finds its name. *)
Lemma sw_str_get b strs name :
  no_nul name -> zlen strs + zlen name + 1 <= INT_MAX ->
  from_end (sw_str b strs name).1 (u32 (sw_str b strs name).2) = Some name.
Proof.
  intros Hn Hl. pose proof (zlen_nonneg strs). pose proof (zlen_nonneg name).
  unfold from_end. rewrite s32_u32. unfold sw_str. destruct b; [destruct (str_pos strs name) as [o|] eqn:E|]; cbn [fst snd].
  - pose proof (str_pos_range _ _ _ E). rewrite s32_small by ilia.
    replace (zlen strs + (o - zlen strs)) with o by lia. by apply str_pos_get.
  - rewrite s32_small by ilia. rewrite sw_add_str_len. replace (_ + _) with 0 by lia.
    by apply (strs_get_app [] name strs).
  - rewrite s32_small by ilia. rewrite sw_add_str_len. replace (_ + _) with 0 by lia.
    by apply (strs_get_app [] name strs).
Qed.

(** Correcting the offsets keeps what is written. *)
Lemma fix_toks_writes strs ops ts :
  zlen strs <= INT_MAX -> Forall (sw_name_ok (zlen strs)) ts ->
  Forall2 (writes (from_end strs)) ops ts ->
  Forall2 (writes (strs_get strs)) ops (fix_toks (zlen strs) ts).
Proof.
  intros Hl Hn H. induction H as [|op t ops ts Hw H IH]; [constructor|].
  apply Forall_cons in Hn as [Hn1 Hn]. cbn [fix_toks map]. constructor; [|by apply IH].
  destruct op, t; cbn in *; try done. destruct Hw as [-> Hg]. split; [done|]. unfold from_end, fix_name in *.
  pose proof (zlen_nonneg strs). rewrite u32_s32, u32_small by ilia.
  by replace (s32 nameoff + zlen strs) with (zlen strs + s32 nameoff) by lia.
Qed.

(** ** One call *)

(** The outcome of a call that the machine allows: done, in [st'], having
    taken no more than its need; or no space, and then there was not [need]. *)
Definition sw_outcome (m : mem) (fdt T f need : Z) (st st' : sw_state) (x : res (Z * mem)) : Prop :=
  exists r m', x = Ret (r, m') /\ changes m m' fdt T /\
    ((r = 0 /\ sw_holds m' fdt T (f - need) st') \/
     (r = - FDT_ERR_NOSPACE /\ f < need /\ sw_holds m' fdt T f st)).

Lemma sw_fits_free h n : sw_fits h n = (n <=? sw_free h).
Proof.
  unfold sw_fits, sw_free. destruct (Z.leb_spec (h_off_struct h + h_size_struct h + n + h_size_strings h) (h_totalsize h)),
    (Z.leb_spec n (h_totalsize h - h_off_struct h - h_size_struct h - h_size_strings h)); lia.
Qed.

Lemma sw_free_grow h n : sw_free (hdr_grow h n) = sw_free h - n.
Proof. unfold sw_free. sw_simpl. lia. Qed.

Section step.
Context (m : mem) (fdt : Z) (h : header) (rsv : list (Z * Z)) (ts : list tok) (strs : list byte).
Context (ops : list sw_op) (f : Z).
Context (Hsw : sw_struct m fdt h rsv ts strs) (Hf : f <= sw_free h).
Context (Hw : Forall2 (writes (from_end strs)) ops ts).

Let T : Z := h_totalsize h.

(** A token that needs no string. *)
Lemma op_outcome op t (x : res (Z * mem)) :
  writes (from_end strs) op t -> op_need op = tok_len t ->
  (if sw_fits h (tok_len t) then exists m', x = Ret (0, m') /\
     sw_struct m' fdt (hdr_grow h (tok_len t)) rsv (ts ++ [t]) strs /\ changes m m' fdt T
   else x = Ret (- FDT_ERR_NOSPACE, m)) ->
  sw_outcome m fdt T f (op_need op) (StStruct rsv ops) (StStruct rsv (ops ++ [op])) x.
Proof using Hsw Hf Hw.
  intros Ht En Hx. rewrite sw_fits_free in Hx. destruct (Z.leb_spec (tok_len t) (sw_free h)).
  - destruct Hx as (m' & -> & Hsw' & Hc). exists 0, m'. split; [done|]. split; [exact Hc|]. left. split; [done|].
    exists (hdr_grow h (tok_len t)), (ts ++ [t]), strs. split; [exact Hsw'|]. split; [done|].
    rewrite sw_free_grow. split; [lia|]. apply Forall2_app; [done|by constructor].
  - exists (- FDT_ERR_NOSPACE), m. split; [exact Hx|]. split; [apply changes_refl|]. right. split; [done|].
    split; [lia|]. exists h, ts, strs. done.
Qed.

Lemma run_op_at op :
  op_ok op ->
  sw_outcome m fdt T f (op_need op) (StStruct rsv ops) (StStruct rsv (ops ++ [op])) (run_op op m fdt).
Proof using Hsw Hf Hw.
  intros Hok. pose proof (sw_layout _ _ _ _ _ _ Hsw) as (L1 & L2 & L3 & L4 & L5 & L6 & L7 & L8 & L9).
  destruct op as [name| |name val]; cbn [op_ok run_op] in *.
  - destruct Hok as [Hn Hl]. apply (op_outcome _ (TBegin name)); [done|done|].
    by apply fdt_begin_node_at.
  - apply (op_outcome _ TEnd); [done|done|]. by apply fdt_end_node_at.
  - destruct Hok as (Hn & Hl & Hv). pose proof (fdt_property_at _ _ _ _ _ _ Hsw name val ltac:(lia) Hv) as Hp.
    pose proof (sw_name_at _ _ _ _ _ _ Hsw name ltac:(lia)) as Hg.
    pose proof (sw_str_get (sw_dedup h) strs name Hn ltac:(lia)) as Hget.
    pose proof (fun o n => sw_str_mono (sw_dedup h) strs name o n) as Hmono.
    unfold sw_growth in Hp. destruct (sw_str (sw_dedup h) strs name) as [strs' off] eqn:Es. cbn [fst snd] in *.
    destruct Hg as [[_ [Hg1 Hg2]] _]. rewrite sw_fits_free in Hp. cbn [op_need].
    destruct (Z.leb_spec (zlen strs' - zlen strs + (12 + align_up (zlen val) 4)) (sw_free h)).
    + destruct Hp as (m' & -> & Hsw' & Hc). exists 0, m'. split; [done|]. split; [exact Hc|]. left. split; [done|].
      eexists _, _, strs'. split; [exact Hsw'|]. split; [done|]. split.
      * unfold hdr_property, sw_growth. rewrite Es, sw_free_grow. unfold sw_free in *. sw_simpl. cbn [fst]. lia.
      * apply Forall2_app; [|by constructor]. eapply Forall2_impl; [exact Hw|]. intros o t. by apply writes_mono.
    + destruct Hp as (m' & -> & Hsw' & Hc). exists (- FDT_ERR_NOSPACE), m'. split; [done|]. split; [exact Hc|].
      right. split; [done|]. split; [lia|]. exists h, ts, strs. done.
Qed.

Lemma run_finish_at :
  Z.land fdt 7 = 0 ->
  sw_outcome m fdt T f 4 (StStruct rsv ops) (StDone rsv ops) (fdt_finish m fdt).
Proof using Hsw Hf Hw.
  intros Hal. pose proof (sw_layout _ _ _ _ _ _ Hsw) as (L1 & L2 & L3 & L4 & L5 & L6 & L7 & L8 & L9).
  pose proof (fdt_finish_at _ _ _ _ _ _ Hsw Hal) as Hx. rewrite sw_fits_free in Hx.
  destruct (Z.leb_spec 4 (sw_free h)) as [H4|H4].
  - destruct Hx as (m' & -> & Hrw & Hc). exists 0, m'. split; [done|]. split; [exact Hc|]. left. split; [done|].
    eexists _, _, strs. split; [exact Hrw|]. split.
    + cbn [hdr_finish h_totalsize]. unfold sw_free, T in *. lia.
    + split; [done|]. apply fix_toks_writes; [lia|apply Hsw|done].
  - exists (- FDT_ERR_NOSPACE), m. split; [exact Hx|]. split; [apply changes_refl|]. right. split; [done|].
    split; [lia|]. exists h, ts, strs. done.
Qed.
End step.

(** ** Calls in the wrong state *)

Lemma run_call_struct_only m fdt c e :
  fdt_sw_probe_struct_ m fdt = Ret e -> e <> 0 ->
  match c with CallOp _ | CallFinish => run_call c m fdt = Ret (e, m) | _ => True end.
Proof.
  intros E He. apply Z.eqb_neq in He.
  destruct c as [| |[| |]|]; cbn [run_call run_op]; [done|done|..];
    unfold fdt_begin_node, fdt_end_node, fdt_property, fdt_property_placeholder, fdt_finish;
    rewrite E; cbn [rbind]; rewrite He; cbn [negb rbind]; [done|done| |done]. by rewrite He.
Qed.

Lemma run_call_rsv_only m fdt c e :
  fdt_sw_probe_memrsv_ m fdt = Ret e -> e <> 0 ->
  match c with CallRsv _ | CallFinishRsv => run_call c m fdt = Ret (e, m) | _ => True end.
Proof.
  intros E He. apply Z.eqb_neq in He. destruct c; cbn [run_call]; try done;
    unfold fdt_finish_reservemap, fdt_add_reservemap_entry; rewrite E; cbn [rbind]; rewrite He; cbn [negb rbind]; [done|].
  by rewrite He.
Qed.

Lemma sw_wrong_state m fdt T f st c :
  sw_holds m fdt T f st -> sw_next st c = None -> run_call c m fdt = Ret (- FDT_ERR_BADSTATE, m).
Proof.
  intros H Hn.
  assert (Hs : match st with StStruct _ _ => True | _ => fdt_sw_probe_struct_ m fdt = Ret (- FDT_ERR_BADSTATE) end /\
    match st with StRsv _ => True | _ => fdt_sw_probe_memrsv_ m fdt = Ret (- FDT_ERR_BADSTATE) end).
  { destruct st as [rsv|rsv ops|rsv ops]; (split; [try exact I|try exact I]).
    - destruct H as (h & [B S1 _ S3 S4 _ _] & _). unfold fdt_sw_probe_struct_. rewrite (sw_probe_at _ _ _ B). cbn [rbind].
      rd (sw_hdr _ _ _ B). noassume. rewrite S1.
      assert (48 <= h_totalsize h) by (pose proof (zlen_nonneg rsv); lia).
      destruct (Z.eqb_spec 0 (h_totalsize h)); [lia|done].
    - destruct H as (h & ts & strs & Hsw & _). pose proof (sw_layout _ _ _ _ _ _ Hsw).
      pose proof (ss_base _ _ _ _ _ _ Hsw) as B. unfold fdt_sw_probe_memrsv_. rewrite (sw_probe_at _ _ _ B). cbn [rbind].
      rd (sw_hdr _ _ _ B). noassume. rewrite (ss_state _ _ _ _ _ _ Hsw). destruct (Z.eqb_spec (h_totalsize h) 0); [lia|done].
    - destruct H as (h & ts & strs & Hrw & _). pose proof (rw_tree _ _ _ _ _ _ Hrw) as Ht.
      unfold fdt_sw_probe_struct_, fdt_sw_probe_. noassume. rd (blob_hdr _ _ _ (sa_blob _ _ _ _ (ta_struct _ _ _ _ _ Ht))).
      by rewrite (ta_magic _ _ _ _ _ Ht).
    - destruct H as (h & ts & strs & Hrw & _). pose proof (rw_tree _ _ _ _ _ _ Hrw) as Ht.
      unfold fdt_sw_probe_memrsv_, fdt_sw_probe_. noassume. rd (blob_hdr _ _ _ (sa_blob _ _ _ _ (ta_struct _ _ _ _ _ Ht))).
      by rewrite (ta_magic _ _ _ _ _ Ht). }
  destruct Hs as [Hs1 Hs2]. assert (- FDT_ERR_BADSTATE <> 0) as He by done.
  destruct st; destruct c; try discriminate Hn;
    first [exact (run_call_struct_only _ _ (CallOp _) _ Hs1 He)|exact (run_call_struct_only _ _ CallFinish _ Hs1 He)
          |exact (run_call_rsv_only _ _ (CallRsv _) _ Hs2 He)|exact (run_call_rsv_only _ _ CallFinishRsv _ Hs2 He)].
Qed.

(** ** The simulation *)

Lemma sw_holds_weak m fdt T f f' st : f' <= f -> sw_holds m fdt T f st -> sw_holds m fdt T f' st.
Proof.
  intros Hf. destruct st; cbn; [intros (h & A & B & C)|intros (h & ts & strs & A & B & C & D)|done]; eauto 10 with lia.
Qed.

(** The entries of the reserve map, and its end. *)
Lemma run_rsv_at m fdt T f rsv e :
  sw_holds m fdt T f (StRsv rsv) -> rsv_ok e ->
  sw_outcome m fdt T f 16 (StRsv rsv) (StRsv (rsv ++ [e])) (fdt_add_reservemap_entry m fdt e.1 e.2).
Proof.
  intros (h & Hm & <- & Hf) He. pose proof (fdt_add_reservemap_entry_at m fdt h rsv e Hm He) as Hx.
  destruct (sm_sizes _ _ _ _ Hm) as [E1 E2]. unfold sw_free in Hf. rewrite E1, E2 in Hf.
  destruct (Z.leb_spec (h_off_struct h + 16) (h_totalsize h)).
  - destruct Hx as (m' & -> & Hm' & Hc). exists 0, m'. split; [done|]. split; [exact Hc|]. left. split; [done|].
    exists (hdr_entry h). split; [exact Hm'|]. split; [done|]. unfold sw_free. cbn. lia.
  - exists (- FDT_ERR_NOSPACE), m. split; [exact Hx|]. split; [apply changes_refl|]. right. split; [done|].
    split; [lia|]. exists h. split; [done|]. split; [done|]. unfold sw_free. lia.
Qed.

Lemma run_finish_rsv_at m fdt T f rsv :
  sw_holds m fdt T f (StRsv rsv) ->
  sw_outcome m fdt T f 16 (StRsv rsv) (StStruct rsv []) (fdt_finish_reservemap m fdt).
Proof.
  intros (h & Hm & <- & Hf). pose proof (fdt_finish_reservemap_at m fdt h rsv Hm) as Hx.
  destruct (sm_sizes _ _ _ _ Hm) as [E1 E2]. unfold sw_free in Hf. rewrite E1, E2 in Hf.
  destruct (Z.leb_spec (h_off_struct h + 16) (h_totalsize h)).
  - destruct Hx as (m' & -> & Hm' & Hc). exists 0, m'. split; [done|]. split; [exact Hc|]. left. split; [done|].
    exists (hdr_set (hdr_entry h) f_off_dt_strings (h_totalsize h)), [], []. split; [exact Hm'|]. split; [done|].
    split; [|constructor]. change (f - 16 <= h_totalsize h - (h_off_struct h + 16) - h_size_struct h - h_size_strings h). lia.
  - exists (- FDT_ERR_NOSPACE), m. split; [exact Hx|]. split; [apply changes_refl|]. right. split; [done|].
    split; [lia|]. exists h. split; [done|]. split; [done|]. unfold sw_free. lia.
Qed.

(** Every call in its state. *)
Lemma run_call_at m fdt T f st c st' :
  sw_holds m fdt T f st -> call_ok c -> Z.land fdt 7 = 0 -> sw_next st c = Some st' ->
  sw_outcome m fdt T f (sw_need c) st st' (run_call c m fdt).
Proof.
  intros H Hok Hal Hn. destruct st as [rsv|rsv ops|rsv ops], c as [e| |op|]; try discriminate Hn;
    injection Hn as <-; cbn [run_call sw_need call_ok] in *.
  - by apply run_rsv_at.
  - by apply run_finish_rsv_at.
  - destruct H as (h & ts & strs & Hsw & <- & Hf & Hw). by eapply run_op_at.
  - destruct H as (h & ts & strs & Hsw & <- & Hf & Hw). by eapply run_finish_at.
Qed.

Lemma sw_step m fdt T f st c :
  sw_holds m fdt T f st -> call_ok c -> Z.land fdt 7 = 0 ->
  exists r m' st' f', run_call c m fdt = Ret (r, m') /\ changes m m' fdt T /\ sw_trans st f c r st' f' /\
    sw_holds m' fdt T f' st'.
Proof.
  intros H Hok Hal. destruct (sw_next st c) as [st'|] eqn:En.
  - destruct (run_call_at _ _ _ _ _ _ _ H Hok Hal En) as (r & m' & E & Hc & [[-> Hh]|(-> & Hlt & Hh)]).
    + exists 0, m', st', (f - sw_need c). split; [exact E|]. split; [exact Hc|]. split; [by constructor|done].
    + exists (- FDT_ERR_NOSPACE), m', st, f. split; [exact E|]. split; [exact Hc|]. split; [by eapply tr_nospace|done].
  - exists (- FDT_ERR_BADSTATE), m, st, f. split; [by eapply sw_wrong_state|]. split; [apply changes_refl|].
    split; [by apply tr_badstate|done].
Qed.

(** The runs of the machine. *)
Inductive sw_runs : sw_state -> Z -> list sw_call -> list Z -> sw_state -> Z -> Prop :=
| runs_nil st f : sw_runs st f [] [] st f
| runs_cons st f c r st1 f1 cs rs st2 f2 :
    sw_trans st f c r st1 f1 -> sw_runs st1 f1 cs rs st2 f2 -> sw_runs st f (c :: cs) (r :: rs) st2 f2.

Definition sw_needs (cs : list sw_call) : Z := foldr (fun c n => sw_need c + n) 0 cs.

(** The machine run with every call succeeding. *)
Fixpoint sw_nexts (st : sw_state) (cs : list sw_call) : option sw_state :=
  match cs with
  | [] => Some st
  | c :: cs => match sw_next st c with Some st' => sw_nexts st' cs | None => None end
  end.

Lemma sw_steps cs : forall m fdt T f st,
  sw_holds m fdt T f st -> Forall call_ok cs -> Z.land fdt 7 = 0 ->
  exists rs m' st' f', run_calls cs m fdt = Ret (rs, m') /\ changes m m' fdt T /\ sw_runs st f cs rs st' f' /\
    sw_holds m' fdt T f' st'.
Proof.
  induction cs as [|c cs IH]; intros m fdt T f st H Hok Hal; cbn [run_calls].
  - exists [], m, st, f. split; [done|]. split; [apply changes_refl|]. split; [constructor|done].
  - apply Forall_cons in Hok as [Hok1 Hok].
    destruct (sw_step m fdt T f st c H Hok1 Hal) as (r & m1 & st1 & f1 & -> & Hc1 & Ht & Hh). cbn [rbind].
    destruct (IH m1 fdt T f1 st1 Hh Hok Hal) as (rs & m' & st' & f' & -> & Hc & Hr & Hh'). cbn [rbind].
    exists (r :: rs), m', st', f'. split; [done|]. split; [by eapply changes_trans|]. split; [by econstructor|done].
Qed.

Lemma op_need_pos op : 0 < op_need op.
Proof.
  destruct op as [n| |n v]; cbn [op_need]; [pose proof (align_up_4_bounds (zlen n + 1)); pose proof (zlen_nonneg n)|
    |pose proof (align_up_4_bounds (zlen v)); pose proof (zlen_nonneg v); pose proof (zlen_nonneg n)]; lia.
Qed.

Lemma sw_need_pos c : 0 < sw_need c.
Proof. destruct c; cbn [sw_need]; [lia|lia|apply op_need_pos|lia]. Qed.

Lemma sw_needs_nonneg cs : 0 <= sw_needs cs.
Proof.
  unfold sw_needs. induction cs as [|c cs IH]; cbn [foldr]; [lia|]. pose proof (sw_need_pos c). lia.
Qed.

(** Enough room and the calls in order: no call fails. *)
Lemma sw_steps_ok cs : forall m fdt T f st st',
  sw_holds m fdt T f st -> Forall call_ok cs -> Z.land fdt 7 = 0 ->
  sw_nexts st cs = Some st' -> sw_needs cs <= f ->
  exists m', run_calls cs m fdt = Ret (replicate (length cs) 0, m') /\ changes m m' fdt T /\
    sw_holds m' fdt T (f - sw_needs cs) st'.
Proof.
  induction cs as [|c cs IH]; intros m fdt T f st st' H Hok Hal Hn Hf; cbn [run_calls sw_nexts length] in *.
  - injection Hn as ->. exists m. split; [done|]. split; [apply changes_refl|]. eapply sw_holds_weak; [|exact H].
    unfold sw_needs. cbn. lia.
  - apply Forall_cons in Hok as [Hok1 Hok]. destruct (sw_next st c) as [st1|] eqn:En; [|done].
    change (sw_needs (c :: cs)) with (sw_need c + sw_needs cs) in *. pose proof (sw_needs_nonneg cs).
    destruct (run_call_at _ _ _ _ _ _ _ H Hok1 Hal En) as (r & m1 & -> & Hc1 & [[-> Hh]|(_ & Hlt & _)]); [|lia].
    cbn [rbind]. destruct (IH m1 fdt T _ st1 st' Hh Hok Hal Hn ltac:(lia)) as (m' & -> & Hc & Hh'). cbn [rbind].
    exists m'. split; [done|]. split; [by eapply changes_trans|]. eapply sw_holds_weak; [|exact Hh']. lia.
Qed.

(** ** The trees a client writes with the sequential writer: the calls for a
    tree, and the finished blob that reads back as that tree. *)

(** A node with its properties and subnodes. *)
Unset Elimination Schemes.
Inductive wnode := WNode (name : list byte) (props : list (list byte * list byte)) (kids : list wnode).
Set Elimination Schemes.

Definition wn_name (w : wnode) : list byte := let 'WNode n _ _ := w in n.
Definition wn_props (w : wnode) : list (list byte * list byte) := let 'WNode _ ps _ := w in ps.

(** The operations that write it. *)
Fixpoint wops (w : wnode) : list sw_op :=
  match w with
  | WNode n ps ks => SwBegin n :: map (fun p => SwProp p.1 p.2) ps ++ flat_map wops ks ++ [SwEnd]
  end.

(** A node [w'] inside [w]. *)
Inductive wsub (w' : wnode) : wnode -> Prop :=
| wsub_refl : wsub w' w'
| wsub_kid n ps ks k : k ∈ ks -> wsub w' k -> wsub w' (WNode n ps ks).

(** The value of a property: the first of that name. *)
Fixpoint wprop (ps : list (list byte * list byte)) (name : list byte) : option (list byte) :=
  match ps with
  | [] => None
  | (n, v) :: ps => if bool_decide (n = name) then Some v else wprop ps name
  end.

Lemma wnode_ind' (Q : wnode -> Prop) :
  (forall n ps ks, Forall Q ks -> Q (WNode n ps ks)) -> forall w, Q w.
Proof.
  intros H. fix IH 1. intros [n ps ks]. apply H. induction ks as [|k ks IHl]; constructor; [apply IH|apply IHl].
Qed.

(** ** The tokens written for a node *)

Section written.
Context (strs : list byte).

Definition is_wprop (p : list byte * list byte) (it : item) : Prop :=
  exists no, it = IProp no p.2 /\ strs_get strs no = Some p.1.

Lemma written_props ps ts :
  Forall2 (writes (strs_get strs)) (map (fun p => SwProp p.1 p.2) ps) ts ->
  exists ips, ts = flats ips /\ Forall2 is_wprop ps ips.
Proof using.
  revert ts. induction ps as [|[n v] ps IH]; intros ts H; cbn [map] in H.
  - apply Forall2_nil_inv_l in H as ->. by exists [].
  - apply Forall2_cons_inv_l in H as (t & ts' & Ht & H & ->). destruct (IH _ H) as (ips & -> & Hi).
    destruct t as [| |no d|]; cbn in Ht; try done. destruct Ht as [<- Hn].
    exists (IProp no v :: ips). split; [done|]. constructor; [by exists no|done].
Qed.

Lemma wprops_value ps ips iks :
  Forall2 is_wprop ps ips -> (forall name, split_prop strs name iks = None) ->
  names_ok strs (flats ips) /\ forall name, prop_value strs (ips ++ iks) name = wprop ps name.
Proof using.
  intros Hips Hns. induction Hips as [|[n1 v1] it ps ips (no & -> & Hno) _ [IH1 IH2]].
  - split; [constructor|]. intros name. cbn [app wprop]. unfold prop_value. by rewrite Hns.
  - cbn [fst snd] in Hno. split.
    + change (names_ok strs (TProp no v1 :: flats ips)). apply names_ok_cons. split; [by rewrite Hno|done].
    + intros name. cbn [app wprop]. rewrite <- IH2. unfold prop_value. cbn [split_prop snd]. rewrite Hno.
      destruct (decide (n1 = name)) as [->|Hd]; [by rewrite !bool_decide_eq_true_2|].
      rewrite (bool_decide_eq_false_2 (n1 = name)) by done. rewrite bool_decide_eq_false_2 by congruence.
      destruct (split_prop strs name (ips ++ iks)) as [[[[? ?] ?] ?]|]; done.
Qed.

(** What is written for the node is the node with the same name, properties
    and, in order, subnodes. *)
Lemma written_node w : forall ts,
  Forall2 (writes (strs_get strs)) (wops w) ts ->
  exists items, ts = flat (INode (wn_name w) items) /\ names_ok strs (flats items) /\
    (forall name, prop_value strs items name = wprop (wn_props w) name) /\
    forall w', wsub w' w -> exists pre items' post,
      ts = in_tree pre (wn_name w') items' post /\
      forall name, prop_value strs items' name = wprop (wn_props w') name.
Proof using.
  induction w as [n ps ks IH] using wnode_ind'. intros ts H. cbn [wops wn_name wn_props] in *.
  apply Forall2_cons_inv_l in H as (t & ts1 & Ht & H & ->). destruct t as [n'| | |]; cbn in Ht; try done. subst n'.
  apply Forall2_app_inv_l in H as (tp & ts2 & Hp & H & ->). apply Forall2_app_inv_l in H as (tk & te & Hk & H & ->).
  apply Forall2_cons_inv_l in H as (t & ts3 & Ht & H & ->). apply Forall2_nil_inv_l in H as ->.
  destruct t; cbn in Ht; try done. clear Ht.
  destruct (written_props _ _ Hp) as (ips & -> & Hips).
  assert (exists iks, tk = flats iks /\ names_ok strs (flats iks) /\ (forall name, split_prop strs name iks = None) /\
    forall w' k, k ∈ ks -> wsub w' k -> exists pre items' post, flats iks = in_tree pre (wn_name w') items' post /\
      forall name, prop_value strs items' name = wprop (wn_props w') name) as (iks & -> & Hok & Hns & Hsub).
  { clear Hp Hips. revert tk Hk. induction IH as [|k ks Hk1 _ IHl]; intros tk Hk.
    - apply Forall2_nil_inv_l in Hk as ->. exists []. split; [done|]. split; [constructor|]. split; [done|].
      intros w' k Hin. by apply elem_of_nil in Hin.
    - cbn [flat_map] in Hk. apply Forall2_app_inv_l in Hk as (t1 & t2 & H1 & H2 & ->).
      destruct (Hk1 _ H1) as (its & -> & Hn1 & _ & Hs1). destruct (IHl _ H2) as (iks & -> & Hn2 & _ & Hs2).
      exists (INode (wn_name k) its :: iks). split; [by rewrite flats_cons|]. rewrite flats_cons. split.
      { apply names_ok_app. split; [|done]. cbn [flat]. apply names_ok_cons. split; [done|].
        apply names_ok_app. split; [exact Hn1|]. by repeat constructor. }
      split; [done|]. intros w' k' [->|Hin]%elem_of_cons Hw.
      + destruct (Hs1 _ Hw) as (pre & items' & post & -> & Hv). exists pre, items', (post ++ flats iks).
        split; [|done]. unfold in_tree. by rewrite <- !app_assoc.
      + destruct (Hs2 _ _ Hin Hw) as (pre & items' & post & -> & Hv).
        exists (flat (INode (wn_name k) its) ++ pre), items', post. split; [|done]. unfold in_tree. by rewrite <- !app_assoc. }
  destruct (wprops_value _ _ _ Hips Hns) as [Hokp Hval].
  exists (ips ++ iks). split; [|split; [|split; [exact Hval|]]].
  - cbn [flat app]. fold (flats (ips ++ iks)). rewrite flats_app, <- app_assoc. done.
  - rewrite flats_app. by apply names_ok_app.
  - intros w' Hw. inversion Hw as [|n0 ps0 ks0 k Hin Hk0]; subst.
    + exists [], (ips ++ iks), []. split; [|exact Hval]. unfold in_tree. cbn [flat app wn_name]. fold (flats (ips ++ iks)).
      rewrite flats_app, app_nil_r, <- app_assoc. done.
    + destruct (Hsub _ _ Hin Hk0) as (pre & items' & post & Ef & Hv). rewrite Ef.
      exists (TBegin n :: flats ips ++ pre), items', (post ++ [TEnd]). split; [|exact Hv].
      unfold in_tree. cbn [app]. by rewrite <- !app_assoc.
Qed.
End written.

(** ** The finished blob *)

Lemma rw_header_ok m fdt h rsv ts strs : rw_at m fdt h rsv ts strs -> h_last_comp h <= h_version h -> header_ok fdt h.
Proof.
  intros Hrw Hl. pose proof (rw_layout _ _ _ _ _ _ Hrw) as (L1 & L2 & L3 & L4 & L5 & L6).
  pose proof (rw_tree _ _ _ _ _ _ Hrw) as Ht. pose proof (blob_hdr _ _ _ (sa_blob _ _ _ _ (ta_struct _ _ _ _ _ Ht))) as Hh.
  hdr_ranges Hh. pose proof (rw_head _ _ _ _ _ _ Hrw). pose proof (rw_rsv_room _ _ _ _ _ _ Hrw).
  pose proof (rw_version _ _ _ _ _ _ Hrw) as Ev. pose proof (zlen_nonneg rsv). pose proof (toks_len_nonneg ts).
  pose proof (zlen_nonneg strs). unfold data_end in *.
  unfold header_ok. rewrite Ev in *. change (fdt_header_size_ 17) with 40. change (17 <? 17) with false. cbv iota zeta.
  split; [apply Ht|]. split; [apply Ht|]. unfold FDT_FIRST_SUPPORTED_VERSION, FDT_LAST_SUPPORTED_VERSION. lia.
Qed.

(** An editable tree whose tokens are one unnamed root passes the full check. *)
Lemma rw_accepted m fdt h rsv items strs bufsize :
  rw_at m fdt h rsv (flat (INode [] items)) strs -> names_ok strs (flats items) ->
  h_last_comp h <= h_version h -> h_totalsize h <= bufsize -> accepted m fdt h bufsize.
Proof.
  intros Hrw Hn Hl Hb. split; [by eapply rw_header_ok|]. split; [done|]. split.
  - exists (zlen rsv). split; [apply zlen_nonneg|]. by eapply fdt_num_mem_rsv_at.
  - assert (flats [INode [] items] = flat (INode [] items)) as E by (unfold flats; cbn; by rewrite app_nil_r).
    exists [INode [] items], strs. rewrite E. split; [apply Hrw|]. split.
    + exists [], [INode [] items]. split; [done|]. split; [constructor|right; eauto].
    + cbn [flat]. apply names_ok_cons. split; [done|]. apply names_ok_app. split; [exact Hn|by repeat constructor].
Qed.

Lemma rw_check_full m fdt h rsv items strs bufsize :
  rw_at m fdt h rsv (flat (INode [] items)) strs -> names_ok strs (flats items) ->
  h_last_comp h <= h_version h -> h_totalsize h <= bufsize < INT_MAX -> valid m fdt bufsize ->
  fdt_check_full m fdt bufsize = Ret 0.
Proof.
  intros Hrw Hn Hl Hb Hv. pose proof (rw_tree _ _ _ _ _ _ Hrw) as Ht. pose proof (ta_struct _ _ _ _ _ Ht) as Hst.
  pose proof (blob_hdr _ _ _ (sa_blob _ _ _ _ Hst)) as Hh. pose proof (rw_version _ _ _ _ _ _ Hrw).
  pose proof (rw_layout _ _ _ _ _ _ Hrw) as (L1 & L2 & L3 & L4 & L5 & L6). unfold data_end in L5.
  pose proof (zlen_nonneg strs). pose proof (toks_len_nonneg (flat (INode [] items))). hdr_ranges Hh.
  pose proof (fdt_check_full_wp m fdt h bufsize Hh Hv) as W.
  assert (wp total (fdt_check_full m fdt bufsize) (fun r => is_s32 r /\ (r = 0 <-> accepted m fdt h bufsize))) as W'.
  { apply W; [lia|lia|]. intros o. by eapply reach_len_ok. }
  apply wp_total_ex in W' as (r & -> & _ & Hr). f_equal. apply Hr. eapply rw_accepted; [exact Hrw|exact Hn|exact Hl|lia].
Qed.

(** A node of it reads back through libfdt: its name, and the value of the
    first property of each name. *)
Lemma rw_node_reads m fdt h rsv strs pre items post w :
  rw_at m fdt h rsv (in_tree pre (wn_name w) items post) strs ->
  (forall name, prop_value strs items name = wprop (wn_props w) name) ->
  exists o p, fdt_get_name m fdt o = Ret (Some p, zlen (wn_name w)) /\ bytes_at m p (wn_name w) /\
    forall name, value_read m (fdt_getprop m fdt o name) (wprop (wn_props w) name).
Proof.
  intros Hrw Hval. pose proof (rw_tree _ _ _ _ _ _ Hrw) as Htr. pose proof (ta_struct _ _ _ _ _ Htr) as Hst.
  rewrite in_tree_begin in Hst. destruct (struct_tok _ _ _ _ Hst _ _ _ eq_refl) as (_ & Hat & _).
  exists (toks_len pre), (saddr fdt h (toks_len pre) + 4). split; [|split].
  - eapply (fdt_get_name_at _ _ _ _ _ Htr). apply in_tree_begin.
  - by apply tok_begin_at, bytes_at_app in Hat as [Hat _].
  - intros name. rewrite <- Hval. eapply getprop_value, Htr.
Qed.
