(* ===== verification/SwProps.v ===== *)
(** Properties of the sequential writer: fdt_sw.c. *)
From S2P Require Import Prelude Monad Memory Libfdt Fdt FdtSpec FdtTree FdtRo FdtCheck FdtWip FdtRead FdtNav.
From S2P Require Import FdtCheckSpec FdtRw FdtEdit FdtRwSpec FdtRwProp Sample FdtRwNode FdtRsv FdtSw.
From S2P Require Import FdtSwSpec FdtSwFinish FdtSwBuild.

(** ** A session of calls *)

(** The reserve entries, then the tree. *)
Definition sw_session (rsv : list (Z * Z)) (w : wnode) : list sw_call :=
  map CallRsv rsv ++ CallFinishRsv :: map CallOp (wops w) ++ [CallFinish].

Lemma sw_nexts_app cs1 : forall st cs2,
  sw_nexts st (cs1 ++ cs2) = match sw_nexts st cs1 with Some st' => sw_nexts st' cs2 | None => None end.
Proof. induction cs1 as [|c cs1 IH]; intros st cs2; cbn [app sw_nexts]; [done|]. destruct (sw_next st c); [apply IH|done]. Qed.

Lemma sw_nexts_rsv l : forall rsv, sw_nexts (StRsv rsv) (map CallRsv l) = Some (StRsv (rsv ++ l)).
Proof. induction l as [|e l IH]; intros rsv; cbn; [by rewrite app_nil_r|]. by rewrite IH, <- app_assoc. Qed.

Lemma sw_nexts_ops l : forall rsv ops, sw_nexts (StStruct rsv ops) (map CallOp l) = Some (StStruct rsv (ops ++ l)).
Proof. induction l as [|e l IH]; intros rsv ops; cbn; [by rewrite app_nil_r|]. by rewrite IH, <- app_assoc. Qed.

Lemma sw_nexts_session rsv w : sw_nexts (StRsv []) (sw_session rsv w) = Some (StDone rsv (wops w)).
Proof.
  unfold sw_session. rewrite sw_nexts_app, sw_nexts_rsv. cbn [sw_nexts sw_next app].
  by rewrite sw_nexts_app, sw_nexts_ops.
Qed.

Lemma session_ok rsv w : Forall rsv_ok rsv -> Forall op_ok (wops w) -> Forall call_ok (sw_session rsv w).
Proof.
  intros Hr Ho. unfold sw_session. apply Forall_app. split; [by apply Forall_map|]. constructor; [done|].
  apply Forall_app. split; [by apply Forall_map|]. by repeat constructor.
Qed.

Lemma create_holds m buf bufsize flags :
  valid m buf bufsize -> 48 <= bufsize < INT_MAX -> flags = 0 \/ flags = FDT_CREATE_FLAG_NO_NAME_DEDUP ->
  exists m1, fdt_create_with_flags m buf bufsize flags = Ret (0, m1) /\ changes m m1 buf bufsize /\
    sw_holds m1 buf bufsize (bufsize - 48) (StRsv []).
Proof.
  intros Hv Hb Hf. destruct (fdt_create_at m buf bufsize flags Hv Hb Hf) as (m1 & E & Hm & Hc).
  exists m1. split; [exact E|]. split; [exact Hc|]. exists (hdr_create bufsize flags 0). split; [exact Hm|].
  split; [done|]. unfold sw_free. cbn. lia.
Qed.

(** A buffer for the witnesses, and a tree for it. *)
Definition w_mem : mem := upd ∅ 4096 (replicate (Z.to_nat 512) xff).
Definition w_tree : wnode :=
  WNode [] [(str "compatible", str "acme" ++ [x00])]
    [WNode (str "cpu@0") [(str "reg", b4 0); (str "compatible", [])] []; WNode (str "mem") [] []].

Lemma w_valid : valid w_mem 4096 512.
Proof. exact (bytes_at_valid w_mem 4096 (replicate (Z.to_nat 512) xff) (upd_at _ _ _)). Qed.

Lemma w_ops_ok : Forall op_ok (wops w_tree).
Proof.
  repeat (constructor; [repeat (first [exact I|apply no_nul_dec; vm_compute; reflexivity|reflexivity
    |vm_compute; discriminate|split])|]). constructor.
Qed.

(** ** Properties *)

(** C20. Sequential writing simulates the abstract machine: after a
    successful [fdt_create] any sequence of the writer's calls, in order or
    not, returns for every call what a run of the machine allows, and leaves
    the buffer in the state that run reaches, with everything written so far;
    nothing outside the buffer changes. What the machine allows is 0; wrong
    state, where the call does not belong; and no space, but only when the
    room left, [bufsize - 48] less the needs of the calls that returned 0, is
    less than the call's need (a property needs room for its name, whether the
    strings block has that name already or not). The calls are those [call_ok]
    describes: reserve entries with a size that is not 0 (0 would end the map),
    names that are C strings, sizes an [int] holds, and property names under
    64 bytes, since [fdt_add_string_] can write below the buffer with longer
    ones. *)
Theorem sw_simulates m buf bufsize flags cs :
  valid m buf bufsize -> 48 <= bufsize < INT_MAX -> Z.land buf 7 = 0 ->
  flags = 0 \/ flags = FDT_CREATE_FLAG_NO_NAME_DEDUP -> Forall call_ok cs ->
  exists m1 rs m' st f, fdt_create_with_flags m buf bufsize flags = Ret (0, m1) /\
    run_calls cs m1 buf = Ret (rs, m') /\ sw_runs (StRsv []) (bufsize - 48) cs rs st f /\
    sw_holds m' buf bufsize f st /\ changes m m' buf bufsize.
Proof.
  intros Hv Hb Hal Hf Hok. destruct (create_holds m buf bufsize flags Hv Hb Hf) as (m1 & E & Hc & Hh).
  destruct (sw_steps cs _ _ _ _ _ Hh Hok Hal) as (rs & m' & st & f & E' & Hc' & Hr & Hs).
  exists m1, rs, m', st, f. repeat (split; [done|]). by eapply changes_trans.
Qed.

Theorem sw_simulates_witness :
  let cs := [CallOp SwEnd; CallRsv (16, 32); CallFinishRsv; CallOp (SwBegin []); CallRsv (16, 32);
             CallOp (SwProp (str "reg") (b4 1)); CallOp SwEnd; CallFinish; CallOp SwEnd] in
  exists m1 rs m' st f, fdt_create_with_flags w_mem 4096 512 0 = Ret (0, m1) /\
    run_calls cs m1 4096 = Ret (rs, m') /\ sw_runs (StRsv []) (512 - 48) cs rs st f /\
    sw_holds m' 4096 512 f st /\ changes w_mem m' 4096 512.
Proof.
  apply sw_simulates; [apply w_valid|split; [vm_compute; discriminate|reflexivity]|reflexivity|by left|].
  repeat (constructor; [repeat (first [exact I|apply no_nul_dec; vm_compute; reflexivity|reflexivity
    |vm_compute; discriminate|split])|]). constructor.
Defined.

(** C21. Enough room is enough: calls made in the machine's order, whose needs
    sum to at most the free room of the buffer, all return 0, with and without
    the search for equal names. *)
Theorem sw_enough_room m buf bufsize flags cs st :
  valid m buf bufsize -> 48 <= bufsize < INT_MAX -> Z.land buf 7 = 0 ->
  flags = 0 \/ flags = FDT_CREATE_FLAG_NO_NAME_DEDUP -> Forall call_ok cs ->
  sw_nexts (StRsv []) cs = Some st -> 48 + sw_needs cs <= bufsize ->
  exists m1 m', fdt_create_with_flags m buf bufsize flags = Ret (0, m1) /\
    run_calls cs m1 buf = Ret (replicate (length cs) 0, m') /\
    sw_holds m' buf bufsize (bufsize - 48 - sw_needs cs) st.
Proof.
  intros Hv Hb Hal Hf Hok Hn Hroom. destruct (create_holds m buf bufsize flags Hv Hb Hf) as (m1 & E & _ & Hh).
  destruct (sw_steps_ok cs _ _ _ _ _ _ Hh Hok Hal Hn ltac:(lia)) as (m' & E' & _ & Hs). eauto.
Qed.

Theorem sw_enough_room_witness :
  let cs := sw_session [(16, 32)] w_tree in
  exists m1 m', fdt_create_with_flags w_mem 4096 512 FDT_CREATE_FLAG_NO_NAME_DEDUP = Ret (0, m1) /\
    run_calls cs m1 4096 = Ret (replicate (length cs) 0, m') /\
    sw_holds m' 4096 512 (512 - 48 - sw_needs cs) (StDone [(16, 32)] (wops w_tree)).
Proof.
  apply sw_enough_room; [apply w_valid|split; [vm_compute; discriminate|reflexivity]|reflexivity|by right| |reflexivity
    |vm_compute; discriminate].
  apply session_ok; [|apply w_ops_ok]. constructor; [|constructor].
  repeat (first [reflexivity|vm_compute; discriminate|split]).
Defined.

(** C22. Round trip: a tree written with the sequential writer is a tree that
    [fdt_check_full] accepts, has the reserve entries written, and every node
    of it reads back: [fdt_get_name] finds the name's length and
    [fdt_getprop], for every name, the value of the first property written
    with that name, or none. *)
Theorem sw_tree_roundtrip m buf bufsize flags rsv w :
  valid m buf bufsize -> 48 <= bufsize < INT_MAX -> Z.land buf 7 = 0 ->
  flags = 0 \/ flags = FDT_CREATE_FLAG_NO_NAME_DEDUP ->
  Forall rsv_ok rsv -> Forall op_ok (wops w) -> wn_name w = [] ->
  48 + sw_needs (sw_session rsv w) <= bufsize ->
  exists m1 m', fdt_create_with_flags m buf bufsize flags = Ret (0, m1) /\
    run_calls (sw_session rsv w) m1 buf = Ret (replicate (length (sw_session rsv w)) 0, m') /\
    fdt_check_full m' buf bufsize = Ret 0 /\ fdt_num_mem_rsv m' buf = Ret (zlen rsv) /\
    forall w', wsub w' w -> exists o p, fdt_get_name m' buf o = Ret (Some p, zlen (wn_name w')) /\
      bytes_at m' p (wn_name w') /\
      forall name, value_read m' (fdt_getprop m' buf o name) (wprop (wn_props w') name).
Proof.
  intros Hv Hb Hal Hf Hr Ho Hn Hroom. destruct (create_holds m buf bufsize flags Hv Hb Hf) as (m1 & E & Hc1 & Hh).
  destruct (sw_steps_ok (sw_session rsv w) _ _ _ _ _ _ Hh (session_ok _ _ Hr Ho) Hal (sw_nexts_session rsv w) ltac:(lia))
    as (m' & E' & Hc & (h & ts & strs & Hrw & Ht & Hl & Hw)).
  exists m1, m'. split; [exact E|]. split; [exact E'|].
  destruct (written_node strs w ts Hw) as (items & -> & Hnm & _ & Hsub). rewrite Hn in Hrw.
  split; [|split; [by eapply fdt_num_mem_rsv_at|]].
  - eapply rw_check_full; [exact Hrw|exact Hnm|exact Hl|lia|].
    eapply changes_valid; [exact Hc|]. eapply changes_valid; [exact Hc1|exact Hv].
  - intros w' Hs. destruct (Hsub w' Hs) as (pre & items' & post & Et & Hval). rewrite Hn in Et. rewrite Et in Hrw.
    by eapply rw_node_reads.
Qed.

Theorem sw_tree_roundtrip_witness :
  exists m1 m', fdt_create_with_flags w_mem 4096 512 0 = Ret (0, m1) /\
    run_calls (sw_session [] w_tree) m1 4096 = Ret (replicate (length (sw_session [] w_tree)) 0, m') /\
    fdt_check_full m' 4096 512 = Ret 0 /\ fdt_num_mem_rsv m' 4096 = Ret 0 /\
    forall w', wsub w' w_tree -> exists o p, fdt_get_name m' 4096 o = Ret (Some p, zlen (wn_name w')) /\
      bytes_at m' p (wn_name w') /\
      forall name, value_read m' (fdt_getprop m' 4096 o name) (wprop (wn_props w') name).
Proof.
  apply (sw_tree_roundtrip w_mem 4096 512 0 [] w_tree); [apply w_valid|split; [vm_compute; discriminate|reflexivity]
    |reflexivity|by left|constructor|apply w_ops_ok|reflexivity|vm_compute; discriminate].
Defined.
