(* ===== verification/FdtAddresses.v ===== *)
(** libfdt/fdt_addresses.c: cell counts and address ranges. *)
From S2P Require Import Prelude Monad Memory Libfdt Fdt FdtRo FdtRw.

Definition fdt_cells (m : mem) (fdt nodeoffset : Z) (name : list byte) : res Z :=
  let! '(c, len) := fdt_getprop m fdt nodeoffset name in
  match c with
  | None => Ret len
  | Some c =>
    if negb (len =? 4) then Ret (- FDT_ERR_BADNCELLS) else
    let! val := fdt32_to_cpu_at m c in
    if FDT_MAX_NCELLS <? val then Ret (- FDT_ERR_BADNCELLS) else
    Ret (s32 val)
  end.

Definition fdt_address_cells (m : mem) (fdt nodeoffset : Z) : res Z :=
  let! val := fdt_cells m fdt nodeoffset (str "#address-cells") in
  if val =? 0 then Ret (- FDT_ERR_BADNCELLS)
  else if val =? - FDT_ERR_NOTFOUND then Ret 2
  else Ret val.

Definition fdt_size_cells (m : mem) (fdt nodeoffset : Z) : res Z :=
  let! val := fdt_cells m fdt nodeoffset (str "#size-cells") in
  if val =? - FDT_ERR_NOTFOUND then Ret 1 else Ret val.

(** This function assumes that [address|size]_cells is 1 or 2. *)
Definition fdt_appendprop_addrrange (m : mem) (fdt parent nodeoffset : Z) (name : list byte)
    (addr size : Z) : res (Z * mem) :=
  let! addr_cells := fdt_address_cells m fdt parent in
  if addr_cells <? 0 then Ret (addr_cells, m) else
  let! size_cells := fdt_size_cells m fdt parent in
  if size_cells <? 0 then Ret (size_cells, m) else
  (* check validity of address; inl: that error *)
  let adata :=
    if addr_cells =? 1 then
      (* UINT32_MAX + 1 is computed in 32 bits before it meets the 64-bit addr *)
      if (UINT32_MAX <? addr) || (u64 (u32 (UINT32_MAX + 1) - addr) <? size)
      then inl (- FDT_ERR_BADVALUE)
      else inr (be_enc32 (u32 addr))
    else if addr_cells =? 2 then inr (be_enc64 addr)
    else inl (- FDT_ERR_BADNCELLS) in
  match adata with
  | inl err => Ret (err, m)
  | inr adata =>
    (* check validity of size *)
    let sdata :=
      if size_cells =? 1 then
        if UINT32_MAX <? size then inl (- FDT_ERR_BADVALUE) else inr (be_enc32 (u32 size))
      else if size_cells =? 2 then inr (be_enc64 size)
      else inl (- FDT_ERR_BADNCELLS) in
    match sdata with
    | inl err => Ret (err, m)
    | inr sdata => fdt_appendprop m fdt nodeoffset name (adata ++ sdata)
    end
  end.
