(* ===== verification/FdtOverlay.v ===== *)
(** libfdt/fdt_overlay.c: applying an overlay [fdto] to a base tree [fdt], two
    blobs of the same memory. A string passed by address is read from memory
    at each call. *)
From S2P Require Import Prelude Monad Memory Ctype Libfdt Fdt FdtRo FdtWip FdtRw.

(** [strtoul(p, &endptr, 10)]: white space, a sign, then digits; the value
    saturates at ULONG_MAX. Returns the value and [endptr]. *)
Definition ULONG_MAX : Z := 18446744073709551615.

Definition strtoul (m : mem) (nptr : Z) : res (Z * Z) :=
  let! p := loop (fun p =>
    let! c := ld8 m p in
    if is_space c then Ret (Continue (p + 1)) else Ret (Break p)) nptr in
  let! c := ld8 m p in
  let neg := bool_decide (c = "-"%byte) in
  let start := if neg || bool_decide (c = "+"%byte) then p + 1 else p in
  let! '(v, endptr) := loop (fun '(v, p) =>
    let! c := ld8 m p in
    if is_digit c then Ret (Continue (v * 10 + (b2z c - 48), p + 1)) else Ret (Break (v, p)))
    (0, start) in
  if endptr =? start then Ret (0, nptr) (* no digits *)
  else if ULONG_MAX <? v then Ret (ULONG_MAX, endptr)
  else Ret (if neg then u64 (- v) else v, endptr).

Definition overlay_get_target_phandle (m : mem) (fdto fragment : Z) : res Z :=
  let! '(val, len) := fdt_getprop m fdto fragment (str "target") in
  match val with
  | None => Ret 0
  | Some val =>
    if negb (len =? 4) then Ret (u32 (-1)) else
    let! v := fdt32_to_cpu_at m val in
    if v =? u32 (-1) then Ret (u32 (-1)) else Ret v
  end.

(** Returns the offset of the target, and [*pathp]. *)
Definition overlay_get_target (m : mem) (fdt fdto fragment : Z) : res (Z * option Z) :=
  (* Try first to do a phandle based lookup *)
  let! phandle := overlay_get_target_phandle m fdto fragment in
  if phandle =? u32 (-1) then Ret (- FDT_ERR_BADPHANDLE, None) else
  let! '(ret, path, path_len) :=
    (* no phandle, try path *)
    if phandle =? 0 then
      (* And then a path based lookup *)
      let! '(path, path_len) := fdt_getprop m fdto fragment (str "target-path") in
      match path with
      | Some p =>
        let! s := load_str m p in
        let! ret := fdt_path_offset m fdt s in
        Ret (ret, path, path_len)
      | None => Ret (path_len, None, path_len)
      end
    else
      let! ret := fdt_node_offset_by_phandle m fdt phandle in
      Ret (ret, None, 0) in
  (* If we haven't found either a target or a target-path property in a node
     that contains a __overlay__ subnode, consider it a improperly written
     overlay *)
  let ret := if (ret <? 0) && (path_len =? - FDT_ERR_NOTFOUND) then - FDT_ERR_BADOVERLAY else ret in
  (* return on error *)
  if ret <? 0 then Ret (ret, None) else
  Ret (ret, path).

Definition overlay_phandle_add_offset (m : mem) (fdt node : Z) (name : list byte) (delta : Z)
    : res (Z * mem) :=
  let! '(val, len) := fdt_getprop m fdt node name in
  match val with
  | None => Ret (len, m)
  | Some val =>
    if negb (len =? 4) then Ret (- FDT_ERR_BADPHANDLE, m) else
    let! adj_val := fdt32_to_cpu_at m val in
    if u32 (adj_val + delta) <? adj_val then Ret (- FDT_ERR_NOPHANDLES, m) else
    let adj_val := u32 (adj_val + delta) in
    if adj_val =? u32 (-1) then Ret (- FDT_ERR_NOPHANDLES, m) else
    fdt_setprop_inplace_u32 m fdt node name adj_val
  end.

(** [fdt_for_each_subnode(child, fdt, node)]: [f] returns 0 to go on or the
    code the enclosing function returns. *)
Definition fdt_for_each_subnode (fdt node : Z) (f : mem -> Z -> res (Z * mem)) (m : mem)
    : res (Z * mem) :=
  let! child := fdt_first_subnode m fdt node in
  loop (fun '(m, child) =>
    if 0 <=? child then
      let! '(ret, m) := f m child in
      if negb (ret =? 0) then Ret (Break (ret, m)) else
      let! child := fdt_next_subnode m fdt child in
      Ret (Continue (m, child))
    else Ret (Break (0, m))) (m, child).

(** [fdt_for_each_property_offset(property, fdt, node)], likewise. *)
Definition fdt_for_each_property_offset (fdt node : Z) (f : mem -> Z -> res (Z * mem)) (m : mem)
    : res (Z * mem) :=
  let! property := fdt_first_property_offset m fdt node in
  loop (fun '(m, property) =>
    if 0 <=? property then
      let! '(ret, m) := f m property in
      if negb (ret =? 0) then Ret (Break (ret, m)) else
      let! property := fdt_next_property_offset m fdt property in
      Ret (Continue (m, property))
    else Ret (Break (0, m))) (m, property).

Fixpoint overlay_adjust_node_phandles (depth : nat) (m : mem) (fdto node delta : Z)
    : res (Z * mem) :=
  match depth with
  | O => Fault Div
  | S depth =>
    let! '(ret, m) := overlay_phandle_add_offset m fdto node (str "phandle") delta in
    if negb (ret =? 0) && negb (ret =? - FDT_ERR_NOTFOUND) then Ret (ret, m) else
    let! '(ret, m) := overlay_phandle_add_offset m fdto node (str "linux,phandle") delta in
    if negb (ret =? 0) && negb (ret =? - FDT_ERR_NOTFOUND) then Ret (ret, m) else
    fdt_for_each_subnode fdto node (fun m child =>
      overlay_adjust_node_phandles depth m fdto child delta) m
  end.

Definition overlay_adjust_local_phandles (m : mem) (fdto delta : Z) : res (Z * mem) :=
  (* Start adjusting the phandles from the overlay root *)
  overlay_adjust_node_phandles call_depth m fdto 0 delta.

(** The loop over the words of one [__local_fixups__] property. *)
Definition overlay_update_words (m : mem) (fdto tree_node fixup_val tree_val name fixup_len delta : Z)
    : res (Z * mem) :=
  loop (fun '(m, i) =>
    if i <? fixup_len then
      let! poffset := fdt32_to_cpu_at m (fixup_val + 4 * i) in
      (* phandles to fixup can be unaligned: memcpy(&adj_val, tree_val + poffset, ...) *)
      let! adj_val := ld32 m (tree_val + poffset) in
      let! s := load_str m name in
      let! '(ret, m) := fdt_setprop_inplace_namelen_partial m fdto tree_node s poffset
                          (be_enc32 (u32 (adj_val + delta))) in
      if ret =? - FDT_ERR_NOSPACE then Ret (Break (- FDT_ERR_BADOVERLAY, m)) else
      if negb (ret =? 0) then Ret (Break (ret, m)) else
      Ret (Continue (m, i + 1))
    else Ret (Break (0, m))) (m, 0).

Fixpoint overlay_update_local_node_references (depth : nat) (m : mem)
    (fdto tree_node fixup_node delta : Z) : res (Z * mem) :=
  match depth with
  | O => Fault Div
  | S depth =>
    let! '(ret, m) := fdt_for_each_property_offset fdto fixup_node (fun m fixup_prop =>
      let! '(fixup_val, name, fixup_len) := fdt_getprop_by_offset m fdto fixup_prop true in
      match fixup_val with
      | None => Ret (fixup_len, m)
      | Some fixup_val =>
        if negb (u64 fixup_len mod 4 =? 0) then Ret (- FDT_ERR_BADOVERLAY, m) else
        let fixup_len := s32 (u64 fixup_len / 4) in
        let! name := nonnull name in
        let! s := load_str m name in
        let! '(tree_val, tree_len) := fdt_getprop m fdto tree_node s in
        match tree_val with
        | None =>
          if tree_len =? - FDT_ERR_NOTFOUND then Ret (- FDT_ERR_BADOVERLAY, m)
          else Ret (tree_len, m)
        | Some tree_val =>
          overlay_update_words m fdto tree_node fixup_val tree_val name fixup_len delta
        end
      end) m in
    if negb (ret =? 0) then Ret (ret, m) else
    fdt_for_each_subnode fdto fixup_node (fun m fixup_child =>
      let! '(fixup_child_name, _) := fdt_get_name m fdto fixup_child in
      let! fixup_child_name := nonnull fixup_child_name in
      let! s := load_str m fixup_child_name in
      let! tree_child := fdt_subnode_offset m fdto tree_node s in
      if tree_child =? - FDT_ERR_NOTFOUND then Ret (- FDT_ERR_BADOVERLAY, m) else
      if tree_child <? 0 then Ret (tree_child, m) else
      overlay_update_local_node_references depth m fdto tree_child fixup_child delta) m
  end.

Definition overlay_update_local_references (m : mem) (fdto delta : Z) : res (Z * mem) :=
  let! fixups := fdt_path_offset m fdto (str "/__local_fixups__") in
  if fixups <? 0 then
    (* There's no local phandles to adjust, bail out *)
    if fixups =? - FDT_ERR_NOTFOUND then Ret (0, m) else Ret (fixups, m)
  else
  (* Update our local references from the root of the tree *)
  overlay_update_local_node_references call_depth m fdto 0 fixups delta.

(** [path], [name] are addresses in the overlay with their lengths, [label]
    the address of a string. *)
Definition overlay_fixup_one_phandle (m : mem) (fdt fdto symbols_off path path_len name name_len
    poffset label : Z) : res (Z * mem) :=
  if symbols_off <? 0 then Ret (symbols_off, m) else
  let! lab := load_str m label in
  let! '(symbol_path, prop_len) := fdt_getprop m fdt symbols_off lab in
  match symbol_path with
  | None => Ret (prop_len, m)
  | Some symbol_path =>
    let! s := load_str m symbol_path in
    let! symbol_off := fdt_path_offset m fdt s in
    if symbol_off <? 0 then Ret (symbol_off, m) else
    let! phandle := fdt_get_phandle m fdt symbol_off in
    if phandle =? 0 then Ret (- FDT_ERR_NOTFOUND, m) else
    (* the separator after the path is readable too *)
    let! p := load_bytes m path (path_len + 1) in
    let! fixup_off := fdt_path_offset_namelen call_depth m fdto p (s32 path_len) in
    if fixup_off =? - FDT_ERR_NOTFOUND then Ret (- FDT_ERR_BADOVERLAY, m) else
    if fixup_off <? 0 then Ret (fixup_off, m) else
    let! n := load_bytes m name name_len in
    fdt_setprop_inplace_namelen_partial m fdto fixup_off n (u32 poffset) (be_enc32 phandle)
  end.

(** One round of the [do ... while (len > 0)] loop of [overlay_fixup_phandle]. *)
Definition overlay_fixup_phandle_body (fdt fdto symbols_off label : Z) (st : mem * Z * Z)
    : res (ctl (mem * Z * Z) (Z * mem)) :=
  let '(m, value, len) := st in
  let fixup_str := value in
  let! fixup_end := memchr m value x00 len in
  match fixup_end with
  | None => Ret (Break (- FDT_ERR_BADOVERLAY, m))
  | Some fixup_end =>
    let fixup_len := u32 (fixup_end - fixup_str) in
    let len := s32 (len - u32 (fixup_len + 1)) in
    let value := value + u32 (fixup_len + 1) in
    let path := fixup_str in
    let! sep := memchr m fixup_str ":"%byte fixup_len in
    match sep with
    | None => Ret (Break (- FDT_ERR_BADOVERLAY, m))
    | Some sep =>
      let path_len := u32 (sep - path) in
      if path_len =? u32 (fixup_len - 1) then Ret (Break (- FDT_ERR_BADOVERLAY, m)) else
      let fixup_len := u32 (fixup_len - u32 (path_len + 1)) in
      let name := sep + 1 in
      let! sep := memchr m name ":"%byte fixup_len in
      match sep with
      | None => Ret (Break (- FDT_ERR_BADOVERLAY, m))
      | Some sep =>
        let name_len := u32 (sep - name) in
        if name_len =? 0 then Ret (Break (- FDT_ERR_BADOVERLAY, m)) else
        let! '(v, endptr) := strtoul m (sep + 1) in
        let poffset := s32 v in
        let! c := ld8 m endptr in
        if negb (bool_decide (c = x00)) || (endptr <=? sep + 1)
        then Ret (Break (- FDT_ERR_BADOVERLAY, m)) else
        let! '(ret, m) := overlay_fixup_one_phandle m fdt fdto symbols_off path path_len
                            name name_len poffset label in
        if negb (ret =? 0) then Ret (Break (ret, m)) else
        if 0 <? len then Ret (Continue (m, value, len)) else Ret (Break (0, m))
      end
    end
  end.

Definition overlay_fixup_phandle (m : mem) (fdt fdto symbols_off property : Z) : res (Z * mem) :=
  let! '(value, label, len) := fdt_getprop_by_offset m fdto property true in
  match value with
  | None =>
    if len =? - FDT_ERR_NOTFOUND then Ret (- FDT_ERR_INTERNAL, m) else Ret (len, m)
  | Some value =>
    let! label := nonnull label in
    loop (overlay_fixup_phandle_body fdt fdto symbols_off label) (m, value, len)
  end.

Definition overlay_fixup_phandles (m : mem) (fdt fdto : Z) : res (Z * mem) :=
  (* We can have overlays without any fixups *)
  let! fixups_off := fdt_path_offset m fdto (str "/__fixups__") in
  if fixups_off =? - FDT_ERR_NOTFOUND then Ret (0, m) (* nothing to do *) else
  if fixups_off <? 0 then Ret (fixups_off, m) else
  (* And base DTs without symbols *)
  let! symbols_off := fdt_path_offset m fdt (str "/__symbols__") in
  if (symbols_off <? 0) && negb (symbols_off =? - FDT_ERR_NOTFOUND) then Ret (symbols_off, m) else
  fdt_for_each_property_offset fdto fixups_off (fun m property =>
    overlay_fixup_phandle m fdt fdto symbols_off property) m.

Fixpoint overlay_apply_node (depth : nat) (m : mem) (fdt target fdto node : Z) : res (Z * mem) :=
  match depth with
  | O => Fault Div
  | S depth =>
    let! '(ret, m) := fdt_for_each_property_offset fdto node (fun m property =>
      let! '(prop, name, prop_len) := fdt_getprop_by_offset m fdto property true in
      if prop_len =? - FDT_ERR_NOTFOUND then Ret (- FDT_ERR_INTERNAL, m) else
      if prop_len <? 0 then Ret (prop_len, m) else
      let! name := nonnull name in
      let! prop := nonnull prop in
      let! s := load_str m name in
      let! val := load_bytes m prop prop_len in
      fdt_setprop m fdt target s val) m in
    if negb (ret =? 0) then Ret (ret, m) else
    fdt_for_each_subnode fdto node (fun m subnode =>
      let! '(name, _) := fdt_get_name m fdto subnode in
      let! name := nonnull name in
      let! s := load_str m name in
      let! '(nnode, m) := fdt_add_subnode m fdt target s in
      let! nnode :=
        if nnode =? - FDT_ERR_EXISTS then
          let! nnode := fdt_subnode_offset m fdt target s in
          Ret (if nnode =? - FDT_ERR_NOTFOUND then - FDT_ERR_INTERNAL else nnode)
        else Ret nnode in
      if nnode <? 0 then Ret (nnode, m) else
      overlay_apply_node depth m fdt nnode fdto subnode) m
  end.

Definition overlay_merge (m : mem) (fdt fdto : Z) : res (Z * mem) :=
  fdt_for_each_subnode fdto 0 (fun m fragment =>
    (* Each fragments will have an __overlay__ node. If they don't, it's not
       supposed to be merged *)
    let! overlay := fdt_subnode_offset m fdto fragment (str "__overlay__") in
    if overlay =? - FDT_ERR_NOTFOUND then Ret (0, m) (* continue *) else
    if overlay <? 0 then Ret (overlay, m) else
    let! '(target, _) := overlay_get_target m fdt fdto fragment in
    if target <? 0 then Ret (target, m) else
    overlay_apply_node call_depth m fdt target fdto overlay) m.

Definition get_path_len (m : mem) (fdt nodeoffset : Z) : res Z :=
  let! e := fdt_ro_probe_ m fdt in
  if e <? 0 then Ret e else
  loop (fun '(nodeoffset, len) =>
    let! '(name, namelen) := fdt_get_name m fdt nodeoffset in
    if is_null name then Ret (Break namelen) else
    (* root? we're done *)
    if namelen =? 0 then
      (* in case of root pretend it's "/" *)
      Ret (Break (if len =? 0 then len + 1 else len))
    else
      let! nodeoffset := fdt_parent_offset m fdt nodeoffset in
      if nodeoffset <? 0 then Ret (Break nodeoffset) else
      let! len := sint (len + (namelen + 1)) in
      Ret (Continue (nodeoffset, len))) (nodeoffset, 0).

(** The body of the property loop of [overlay_symbol_update]; 0 to go on. *)
Definition overlay_symbol_update_one (m : mem) (fdt fdto root_sym prop : Z) : res (Z * mem) :=
  let! '(path, name, path_len) := fdt_getprop_by_offset m fdto prop true in
  match path with
  | None => Ret (path_len, m)
  | Some path =>
    let! name := nonnull name in
    (* verify it's a string property (terminated by a single \0) *)
    let! bad := Ret (path_len <? 1) ||!
      (let! z := memchr m path x00 path_len in
       Ret (negb (bool_decide (z = Some (path + path_len - 1))))) in
    if bad then Ret (- FDT_ERR_BADVALUE, m) else
    (* keep end marker to avoid strlen() *)
    let e := path + path_len in
    let! c := ld8 m path in
    if negb (bool_decide (c = "/"%byte)) then Ret (- FDT_ERR_BADVALUE, m) else
    (* get fragment name first *)
    let! s := strchr m (path + 1) "/"%byte in
    match s with
    | None => Ret (0, m) (* refers to something that won't end up in the target tree *)
    | Some s =>
      let frag_name := path + 1 in
      let frag_name_len := s32 (s - path - 1) in
      (* verify format; safe since "s" lies in \0 terminated prop *)
      let len := 13 in
      let! whole := Ret (len <? e - s) &&! memcmp_eq m s (str "/__overlay__/") in
      let! node := if (whole : bool) then Ret false
                   else Ret (e - s =? len) &&! memcmp_eq m s (str "/__overlay__") in
      if negb whole && negb node then Ret (0, m) (* continue *) else
      let! rel := if (whole : bool) then load_bytes m (s + len) (e - (s + len) - 1) else Ret [] in
      let rel_path_len := Z.of_nat (length rel) in
      (* find the fragment index in which the symbol lies *)
      let! fname := load_bytes m frag_name frag_name_len in
      let! fragment := fdt_subnode_offset_namelen m fdto 0 fname in
      if fragment <? 0 then Ret (- FDT_ERR_BADOVERLAY, m) else
      (* an __overlay__ subnode must exist *)
      let! ret := fdt_subnode_offset m fdto fragment (str "__overlay__") in
      if ret <? 0 then Ret (- FDT_ERR_BADOVERLAY, m) else
      (* get the target of the fragment *)
      let! '(target, target_path) := overlay_get_target m fdt fdto fragment in
      if target <? 0 then Ret (target, m) else
      (* if we have a target path use *)
      let! len :=
        match target_path with
        | None => get_path_len m fdt target
        | Some tp => let! n := strlen m tp in Ret (s32 n)
        end in
      if is_null target_path && (len <? 0) then Ret (len, m) else
      let! pname := load_str m name in
      let! plen := sint (len + (if 1 <? len then 1 else 0) + rel_path_len + 1) in
      let! '(ret, p, m) := fdt_setprop_placeholder m fdt root_sym pname plen in
      if ret <? 0 then Ret (ret, m) else
      (* again in case setprop_placeholder changed it *)
      let! '(target, target_path) :=
        if is_null target_path then overlay_get_target m fdt fdto fragment
        else Ret (target, target_path) in
      if target <? 0 then Ret (target, m) else
      let! buf := nonnull p in
      let! '(ret, len, m) :=
        if 1 <? len then (* target is not root *)
          match target_path with
          | None =>
            let! '(ret, m) := fdt_get_path m fdt target buf (len + 1) in
            Ret (ret, len, m)
          | Some tp => let! m := memcpy m buf tp (len + 1) in Ret (0, len, m)
          end
        else Ret (0, len - 1, m) in
      if ret <? 0 then Ret (ret, m) else
      let! m := store_bytes m (buf + len) ["/"%byte] in
      let! m := store_bytes m (buf + len + 1) rel in
      let! m := store_bytes m (buf + len + 1 + rel_path_len) [x00] in
      Ret (0, m)
    end
  end.

Definition overlay_symbol_update (m : mem) (fdt fdto : Z) : res (Z * mem) :=
  let! ov_sym := fdt_subnode_offset m fdto 0 (str "__symbols__") in
  (* if no overlay symbols exist no problem *)
  if ov_sym <? 0 then Ret (0, m) else
  let! root_sym := fdt_subnode_offset m fdt 0 (str "__symbols__") in
  (* it no root symbols exist we should create them *)
  let! '(root_sym, m) :=
    if root_sym =? - FDT_ERR_NOTFOUND then fdt_add_subnode m fdt 0 (str "__symbols__")
    else Ret (root_sym, m) in
  (* any error is fatal now *)
  if root_sym <? 0 then Ret (root_sym, m) else
  (* iterate over each overlay symbol *)
  fdt_for_each_property_offset fdto ov_sym (fun m prop =>
    overlay_symbol_update_one m fdt fdto root_sym prop) m.

(** The [err:] exit of [fdt_overlay_apply]. *)
Definition fdt_overlay_err (m : mem) (fdt fdto ret : Z) : res (Z * mem) :=
  (* The overlay might have been damaged, erase its magic. *)
  let! m := fdt_set_magic m fdto (Z.lnot 0) in
  (* The base device tree might have been damaged, erase its magic. *)
  let! m := fdt_set_magic m fdt (Z.lnot 0) in
  Ret (ret, m).

Definition fdt_overlay_apply (m : mem) (fdt fdto : Z) : res (Z * mem) :=
  let! e := fdt_ro_probe_ m fdt in
  if e <? 0 then Ret (e, m) else
  let! e := fdt_ro_probe_ m fdto in
  if e <? 0 then Ret (e, m) else
  let! '(ret, delta) := fdt_find_max_phandle m fdt in
  if negb (ret =? 0) then fdt_overlay_err m fdt fdto ret else
  let! '(ret, m) := overlay_adjust_local_phandles m fdto delta in
  if negb (ret =? 0) then fdt_overlay_err m fdt fdto ret else
  let! '(ret, m) := overlay_update_local_references m fdto delta in
  if negb (ret =? 0) then fdt_overlay_err m fdt fdto ret else
  let! '(ret, m) := overlay_fixup_phandles m fdt fdto in
  if negb (ret =? 0) then fdt_overlay_err m fdt fdto ret else
  let! '(ret, m) := overlay_merge m fdt fdto in
  if negb (ret =? 0) then fdt_overlay_err m fdt fdto ret else
  let! '(ret, m) := overlay_symbol_update m fdt fdto in
  if negb (ret =? 0) then fdt_overlay_err m fdt fdto ret else
  (* The overlay has been damaged, erase its magic. *)
  let! m := fdt_set_magic m fdto (Z.lnot 0) in
  Ret (0, m).
