(* ===== verification/FdtOverlaySpec.v ===== *)
(** fdt_overlay.c on well-formed trees: the walks over the properties and the
    subnodes of a node whose body changes memory, and the shift of the
    overlay's own phandles as a function on items. *)
From S2P Require Import Prelude Monad Memory Libfdt Fdt FdtSpec FdtTree FdtRo FdtWip FdtRead FdtNav FdtRw.
From S2P Require Import FdtEdit FdtRwSpec FdtRwProp FdtRwNode FdtOverlay.

Lemma wp_total_pair {A B} (r : res (A * B)) (Q : A -> B -> Prop) :
  wp total r (fun '(a, b) => Q a b) -> exists a b, r = Ret (a, b) /\ Q a b.
Proof. destruct r as [[a b]|]; [|done]. intros H. exists a, b. split; [done|exact H]. Qed.

(** ** Results with an error code *)

Definition ebind {A B} (x : Z + A) (f : A -> Z + B) : Z + B :=
  match x with inl e => inl e | inr a => f a end.

Fixpoint emap {A B} (f : A -> Z + B) (l : list A) : Z + list B :=
  match l with
  | [] => inr []
  | a :: l => ebind (f a) (fun b => ebind (emap f l) (fun l => inr (b :: l)))
  end.

(** ** The shift of the phandles *)

(** A cell holding a phandle, with [delta] added. *)
Definition adj_cell (delta : Z) (d : list byte) : Z + list byte :=
  match d with
  | [b0; b1; b2; b3] =>
    let v := be32 b0 b1 b2 b3 in
    if (u32 (v + delta) <? v) || (u32 (v + delta) =? u32 (-1)) then inl (- FDT_ERR_NOPHANDLES)
    else inr (be_enc32 (u32 (v + delta)))
  | _ => inl (- FDT_ERR_BADPHANDLE)
  end.

(** The property [name] of a node, if it has one. *)
Definition adj_prop (strs : list byte) (delta : Z) (name : list byte) (items : list item) : Z + list item :=
  match split_prop strs name items with
  | Some (a, no, d, b) => ebind (adj_cell delta d) (fun v => inr (a ++ IProp no v :: b))
  | None => inr items
  end.

(** Both properties that name a phandle. *)
Definition adj_own (strs : list byte) (delta : Z) (items : list item) : Z + list item :=
  ebind (adj_prop strs delta (str "phandle") items) (adj_prop strs delta (str "linux,phandle")).

(** A node: its own phandle, then its subnodes in order; the first error ends
    the whole. The properties of a node are the items before its first
    subnode. *)
Fixpoint adj_item (strs : list byte) (delta : Z) (it : item) : Z + item :=
  match it with
  | INode name items =>
    ebind (adj_own strs delta (split_props items).1) (fun own =>
    ebind (emap (adj_item strs delta) items) (fun items' =>
    inr (INode name (own ++ drop (length (split_props items).1) items'))))
  | it => inr it
  end.

(** The depth of the recursion over an item. *)
Fixpoint height (it : item) : nat :=
  match it with
  | INode _ items => S (foldr (fun it => Nat.max (height it)) 0%nat items)
  | _ => 0%nat
  end.

Definition is_node (it : item) : bool := match it with INode _ _ => true | _ => false end.

(** ** The walks *)

Section walks.
Context (fdt : Z) (f : mem -> Z -> res (Z * mem)) (Q : Z * mem -> Prop).
Context (Inv : mem -> list item -> Z -> Prop).
Context (Hlen : forall m its o, Inv m its o -> 0 <= o /\ zlen its < Z.pos loop_bound).

(** The subnodes: [Inv m items o] where [items], at [o], are left. *)
Lemma subnodes_wp node m items o :
  (forall m it its o, is_node it = false -> Inv m (it :: its) o -> Inv m its (o + item_len it)) ->
  (forall m nm its items o, Inv m (INode nm its :: items) o ->
     wp total (f m o) (fun '(r, m') =>
       if r =? 0 then
         let o' := o + item_len (INode nm its) in
         Inv m' items o' /\ fdt_next_subnode m' fdt o = Ret (first_off (children items o'))
       else Q (r, m'))) ->
  (forall m o, Inv m [] o -> Q (0, m)) ->
  fdt_first_subnode m fdt node = Ret (first_off (children items o)) -> Inv m items o ->
  wp total (fdt_for_each_subnode fdt node f m) Q.
Proof using Hlen.
  intros Hskip Hnode Hend Hf Hi. unfold fdt_for_each_subnode. rewrite Hf. cbn [rbind].
  apply (wp_loop_rel total (fun s n => exists items o, Inv s.1 items o /\ s.2 = first_off (children items o) /\
    n = zlen items) _ _ (zlen items)); [by exists items, o| |].
  { intros s n (its & o1 & Hi1 & _ & ->). pose proof (zlen_nonneg its). pose proof (Hlen _ _ _ Hi1). lia. }
  intros [m1 c] n (its & o1 & Hi1 & Hc & ->). cbn [fst snd] in *. subst c. clear Hf Hi items o m.
  assert (forall k, zlen its <= k -> wp total
    (let child := first_off (children its o1) in
     if 0 <=? child then
       let! '(ret, m0) := f m1 child in
       if negb (ret =? 0) then Ret (Break (ret, m0)) else
       let! child0 := fdt_next_subnode m0 fdt child in Ret (Continue (m0, child0))
     else Ret (Break (0, m1)))
    (fun r => match r with
      | Continue s' => exists n', (exists items o, Inv s'.1 items o /\ s'.2 = first_off (children items o) /\
          n' = zlen items) /\ n' < k
      | Break a => Q a end)) as HH; [|exact (HH _ (Z.le_refl _))].
  revert o1 Hi1. induction its as [|it its IH]; intros o1 Hi1 k Hk; [by apply (Hend _ o1)|].
  rewrite zlen_cons in Hk. destruct (is_node it) eqn:En.
  - destruct it as [| |nm ci]; try done. cbn [children first_off]. cbv zeta.
    rewrite (proj2 (Z.leb_le 0 o1)) by apply (Hlen _ _ _ Hi1).
    eapply wp_seq; [exact (Hnode _ _ _ _ _ Hi1)|]. intros [r m'] Hr. destruct (r =? 0); cbn [negb].
    + destruct Hr as [Hi' En']. rewrite En'. cbn [rbind wp fst snd]. exists (zlen its). split; [|lia].
      by exists its, (o1 + item_len (INode nm ci)).
    + exact Hr.
  - apply Hskip in Hi1; [|done]. pose proof (IH _ Hi1 k) as H1.
    assert (children (it :: its) o1 = children its (o1 + item_len it)) as -> by (by destruct it).
    apply H1. lia.
Qed.

(** The properties: they end at the first subnode, where [post] is what
    follows the node's END_NODE. *)
Lemma properties_wp post node m items o :
  (forall m its o, Inv m (INop :: its) o -> Inv m its (o + item_len INop)) ->
  (forall m no d items o, Inv m (IProp no d :: items) o ->
     wp total (f m o) (fun '(r, m') =>
       if r =? 0 then
         let o' := o + item_len (IProp no d) in
         Inv m' items o' /\ fdt_next_property_offset m' fdt o = Ret (next_prop (flats items ++ TEnd :: post) o')
       else Q (r, m'))) ->
  (forall m its o, Inv m its o -> (split_props its).1 = [] -> Q (0, m)) ->
  fdt_first_property_offset m fdt node = Ret (next_prop (flats items ++ TEnd :: post) o) -> Inv m items o ->
  wp total (fdt_for_each_property_offset fdt node f m) Q.
Proof using Hlen.
  intros Hskip Hprop Hend Hf Hi. unfold fdt_for_each_property_offset. rewrite Hf. cbn [rbind].
  apply (wp_loop_rel total (fun s n => exists items o, Inv s.1 items o /\
    s.2 = next_prop (flats items ++ TEnd :: post) o /\ n = zlen items) _ _ (zlen items)); [by exists items, o| |].
  { intros s n (its & o1 & Hi1 & _ & ->). pose proof (zlen_nonneg its). pose proof (Hlen _ _ _ Hi1). lia. }
  intros [m1 c] n (its & o1 & Hi1 & Hc & ->). cbn [fst snd] in *. subst c. clear Hf Hi items o m.
  assert (forall k, zlen its <= k -> wp total
    (let property := next_prop (flats its ++ TEnd :: post) o1 in
     if 0 <=? property then
       let! '(ret, m0) := f m1 property in
       if negb (ret =? 0) then Ret (Break (ret, m0)) else
       let! property0 := fdt_next_property_offset m0 fdt property in Ret (Continue (m0, property0))
     else Ret (Break (0, m1)))
    (fun r => match r with
      | Continue s' => exists n', (exists items o, Inv s'.1 items o /\
          s'.2 = next_prop (flats items ++ TEnd :: post) o /\ n' = zlen items) /\ n' < k
      | Break a => Q a end)) as HH; [|exact (HH _ (Z.le_refl _))].
  revert o1 Hi1. induction its as [|it its IH]; intros o1 Hi1 k Hk; [by apply (Hend _ _ _ Hi1)|].
  rewrite zlen_cons in Hk. rewrite flats_cons. destruct it as [|no d|nm ci].
  - apply Hskip in Hi1. pose proof (IH _ Hi1 k) as H1. cbn [flat app next_prop].
    change (item_len INop) with 4 in H1. apply H1. lia.
  - cbn [flat app next_prop]. cbv zeta. rewrite (proj2 (Z.leb_le 0 o1)) by apply (Hlen _ _ _ Hi1).
    eapply wp_seq; [exact (Hprop _ _ _ _ _ Hi1)|]. intros [r m'] Hr. destruct (r =? 0); cbn [negb].
    + destruct Hr as [Hi' En']. rewrite En'. cbn [rbind wp fst snd]. exists (zlen its). split; [|lia].
      by exists its, (o1 + item_len (IProp no d)).
    + exact Hr.
  - exact (Hend _ _ _ Hi1 eq_refl).
Qed.
End walks.

(** ** Items *)

Lemma split_props_skip it items :
  is_node it = false -> split_props (it :: items) = (it :: (split_props items).1, (split_props items).2).
Proof. destruct it; try done; intros _; cbn [split_props]; by destruct (split_props items). Qed.

Lemma split_props_own items : Forall (fun it => is_node it = false) (split_props items).1.
Proof.
  induction items as [|it items IH]; [constructor|]. destruct (is_node it) eqn:E.
  - destruct it; try done; constructor.
  - rewrite split_props_skip by done. by constructor.
Qed.

(** The properties of a node do not depend on its subnodes. *)
Lemma split_prop_own strs name items :
  split_prop strs name items =
    match split_prop strs name (split_props items).1 with
    | Some (a, no, d, b) => Some (a, no, d, b ++ (split_props items).2)
    | None => None
    end.
Proof.
  induction items as [|it items IH]; [done|]. destruct it as [|no d|]; [| |done].
  - rewrite split_props_skip by done. cbn [fst snd split_prop]. rewrite IH.
    destruct (split_prop strs name (split_props items).1) as [[[[? ?] ?] ?]|]; reflexivity.
  - rewrite split_props_skip by done. cbn [fst snd split_prop]. case_bool_decide.
    + by rewrite <- split_props_app.
    + rewrite IH. destruct (split_prop strs name (split_props items).1) as [[[[? ?] ?] ?]|]; reflexivity.
Qed.

Lemma split_props_absorb own subs :
  Forall (fun it => is_node it = false) own -> (split_props subs).1 = [] ->
  split_props (own ++ subs) = (own, subs).
Proof.
  intros Ho Hs. induction Ho as [|it own Hi Ho IH]; cbn [app].
  - rewrite (split_props_app subs) at 2. rewrite Hs. destruct (split_props subs) eqn:E. cbn in *. by subst.
  - by rewrite split_props_skip, IH.
Qed.

Lemma split_props_rest items : (split_props (split_props items).2).1 = [].
Proof.
  induction items as [|it items IH]; [done|]. destruct (is_node it) eqn:E; [by destruct it|].
  by rewrite split_props_skip.
Qed.

Lemma adj_prop_own strs delta name own subs :
  Forall (fun it => is_node it = false) own -> (split_props subs).1 = [] ->
  adj_prop strs delta name (own ++ subs) = ebind (adj_prop strs delta name own) (fun own => inr (own ++ subs)).
Proof.
  intros Ho Hs. unfold adj_prop. rewrite split_prop_own, split_props_absorb by done. cbn [fst snd].
  destruct (split_prop strs name own) as [[[[a no] d] b]|]; [|done].
  destruct (adj_cell delta d); cbn [ebind]; [done|]. by rewrite <- app_assoc.
Qed.

Lemma adj_cell_len delta d v : adj_cell delta d = inr v -> zlen v = zlen d.
Proof.
  destruct d as [|b0 [|b1 [|b2 [|b3 [|]]]]]; cbn [adj_cell]; try done. cbv zeta.
  destruct (_ || _); [done|]. by intros [= <-].
Qed.

(** The shift keeps the kind and the length of everything. *)
Lemma adj_prop_keep strs delta name items items' :
  adj_prop strs delta name items = inr items' ->
  toks_len (flats items') = toks_len (flats items) /\
  (Forall (fun it => is_node it = false) items -> Forall (fun it => is_node it = false) items').
Proof.
  unfold adj_prop. destruct (split_prop strs name items) as [[[[a no] d] b]|] eqn:E; [|by intros [= ->]].
  apply split_prop_Some in E as [-> _]. destruct (adj_cell delta d) as [|v] eqn:Ev; [done|]. intros [= <-].
  apply adj_cell_len in Ev. split.
  - rewrite !flats_app, !flats_cons, !toks_len_app. cbn [flat toks_len tok_len]. by rewrite Ev.
  - rewrite !Forall_app, !Forall_cons. tauto.
Qed.

Lemma adj_own_keep strs delta items items' :
  adj_own strs delta items = inr items' ->
  toks_len (flats items') = toks_len (flats items) /\
  (Forall (fun it => is_node it = false) items -> Forall (fun it => is_node it = false) items').
Proof.
  unfold adj_own. destruct (adj_prop strs delta (str "phandle") items) as [|i1] eqn:E1; [done|].
  apply adj_prop_keep in E1 as [L1 K1]. cbn [ebind]. intros [L2 K2]%adj_prop_keep.
  split; [by rewrite L2|auto].
Qed.

Lemma emap_skip strs delta own subs :
  Forall (fun it => is_node it = false) own ->
  emap (adj_item strs delta) (own ++ subs) =
    ebind (emap (adj_item strs delta) subs) (fun subs => inr (own ++ subs)).
Proof.
  induction 1 as [|it own Hi Ho IH]; cbn [app emap]; [by destruct (emap _ subs)|].
  rewrite IH. destruct it; try done; cbn [adj_item ebind]; by destruct (emap (adj_item strs delta) subs).
Qed.

(** The shift of a node, with its items in two parts. *)
Lemma adj_item_node strs delta nm items :
  adj_item strs delta (INode nm items) =
    ebind (adj_own strs delta (split_props items).1) (fun own =>
    ebind (emap (adj_item strs delta) (split_props items).2) (fun subs => inr (INode nm (own ++ subs)))).
Proof.
  cbn [adj_item]. destruct (adj_own _ _ _) as [|own]; [done|]. cbn [ebind].
  rewrite (split_props_app items) at 1. rewrite emap_skip by apply split_props_own.
  destruct (emap _ (split_props items).2); cbn [ebind]; [done|]. by rewrite drop_app_length.
Qed.

Lemma adj_item_len strs delta it it' : adj_item strs delta it = inr it' -> item_len it' = item_len it.
Proof.
  revert it'. induction it as [|no d|nm items IH] using item_ind'; intros it'; [by intros [= <-]..|].
  rewrite adj_item_node. destruct (adj_own _ _ _) as [|own] eqn:Eo; [done|]. cbn [ebind].
  destruct (emap _ _) as [|subs] eqn:Es; [done|]. intros [= <-]. rewrite !item_len_node.
  rewrite (split_props_app items) at 1. rewrite !flats_app, !toks_len_app.
  apply adj_own_keep in Eo as [-> _]. rewrite (split_props_app items) in IH. apply Forall_app in IH as [_ IH].
  assert (toks_len (flats subs) = toks_len (flats (split_props items).2)) as ->; [|done].
  revert subs Es. induction IH as [|it its Hi _ IHl]; intros subs; cbn [emap]; [by intros [= <-]|].
  destruct (adj_item strs delta it) as [|it1] eqn:E1; [done|]. cbn [ebind].
  destruct (emap _ its) as [|its1] eqn:E2; [done|]. intros [= <-]. rewrite !flats_cons, !toks_len_app.
  rewrite (IHl _ eq_refl). specialize (Hi _ eq_refl). unfold item_len in Hi. lia.
Qed.

Lemma adj_cell_err delta d e : adj_cell delta d = inl e -> e < 0 /\ e <> - FDT_ERR_NOTFOUND.
Proof.
  destruct d as [|b0 [|b1 [|b2 [|b3 [|]]]]]; cbn [adj_cell]; try (intros [= <-]; elia).
  cbv zeta. destruct (_ || _); [|done]. intros [= <-]. elia.
Qed.

Lemma in_tree_item pre nm a it b post :
  in_tree pre nm (a ++ it :: b) post = (pre ++ TBegin nm :: flats a) ++ flat it ++ (flats b ++ TEnd :: post).
Proof. apply (item_place pre post nm _ a it b eq_refl). Qed.

Lemma height_items nm items depth :
  (height (INode nm items) <= S depth)%nat -> Forall (fun it => (height it <= depth)%nat) items.
Proof.
  cbn [height]. intros H. apply le_S_n in H. induction items as [|it items IH]; [constructor|]. cbn [foldr] in H.
  constructor; [|apply IH]; lia.
Qed.

Lemma adj_item_kind strs delta nm items it' :
  adj_item strs delta (INode nm items) = inr it' -> exists items', it' = INode nm items'.
Proof.
  rewrite adj_item_node. destruct (adj_own _ _ _); [done|]. cbn [ebind].
  destruct (emap _ _); [done|]. intros [= <-]. eauto.
Qed.

Lemma flats_snoc items it : toks_len (flats (items ++ [it])) = toks_len (flats items) + item_len it.
Proof. rewrite flats_app, toks_len_app, flats_cons. cbn [flats flat_map]. by rewrite app_nil_r. Qed.

Lemma body_off_at pre nm dn : body_off (toks_len pre) nm + toks_len (flats dn) = toks_len (pre ++ TBegin nm :: flats dn).
Proof. rewrite toks_len_app. unfold body_off. cbn [toks_len]. lia. Qed.

Lemma zlen_flats items : zlen items <= toks_len (flats items).
Proof.
  induction items as [|it items IH]; [done|]. rewrite zlen_cons, flats_cons, toks_len_app.
  assert (4 <= toks_len (flat it)); [|lia].
  destruct it as [|no d|nm its]; cbn [flat toks_len]; [done|pose proof (tok_len_ge (TProp no d)); lia|].
  rewrite toks_len_app. pose proof (tok_len_ge (TBegin nm)). pose proof (toks_len_nonneg (flat_map flat its)).
  cbn [toks_len]. pose proof (tok_len_ge TEnd). lia.
Qed.

(** The offsets and numbers of items are small. *)
Lemma tree_bounds m fdt h strs pre nm dn todo post :
  tree_at m fdt h (in_tree pre nm (dn ++ todo) post) strs ->
  0 <= body_off (toks_len pre) nm + toks_len (flats dn) /\ zlen todo < Z.pos loop_bound.
Proof.
  intros Ht. pose proof (sa_room _ _ _ _ (ta_struct _ _ _ _ _ Ht)) as (_ & H2 & _)%in_struct_true.
  pose proof (blob_room _ _ _ (sa_blob _ _ _ _ (ta_struct _ _ _ _ _ Ht))) as H3.
  rewrite (in_tree_begin pre nm) in H2. rewrite flats_app, !toks_len_app in H2. cbn [toks_len] in H2.
  rewrite !toks_len_app in H2. pose proof (zlen_flats todo). pose proof (zlen_flats dn).
  pose proof (zlen_nonneg dn). pose proof (toks_len_nonneg pre). pose proof (toks_len_nonneg (TEnd :: post)).
  pose proof (tok_len_ge (TBegin nm)). unfold body_off. unfold loop_bound. split; [lia|]. ilia.
Qed.

(** ** [overlay_adjust_local_phandles] *)

Section adjust.
Context (fdt : Z) (h : header) (rsv : list (Z * Z)) (strs : list byte) (delta : Z).

(** One property: the error is the cell's, and its absence is no error. *)
Lemma add_offset_at m pre nm items post name :
  rw_at m fdt h rsv (in_tree pre nm items post) strs ->
  match adj_prop strs delta name items with
  | inl e => overlay_phandle_add_offset m fdt (toks_len pre) name delta = Ret (e, m) /\
             e < 0 /\ e <> - FDT_ERR_NOTFOUND
  | inr items' => exists r m', overlay_phandle_add_offset m fdt (toks_len pre) name delta = Ret (r, m') /\
      (r = 0 \/ r = - FDT_ERR_NOTFOUND) /\ rw_at m' fdt h rsv (in_tree pre nm items' post) strs /\
      changes m m' fdt (h_totalsize h)
  end.
Proof.
  intros Hrw. pose proof (getprop_value _ _ _ _ _ _ _ _ name (rw_tree _ _ _ _ _ _ Hrw)) as Hv.
  pose proof (fun v => setprop_inplace_at _ _ _ _ _ _ _ _ _ Hrw name v) as Hs.
  unfold adj_prop, overlay_phandle_add_offset, prop_value in *.
  destruct (split_prop strs name items) as [[[[a no] d] b]|]; cbn [mbind option_bind value_read ebind] in *.
  2:{ rewrite Hv. cbn [rbind]. exists (- FDT_ERR_NOTFOUND), m. split; [done|]. split; [by right|].
      split; [done|apply changes_refl]. }
  destruct Hv as (p & -> & Hp). cbn [rbind].
  destruct d as [|b0 [|b1 [|b2 [|b3 [|b4 d]]]]]; try (cbn; split; [done|elia]).
  2:{ cbn [adj_cell ebind]. rewrite (proj2 (Z.eqb_neq _ 4)) by (rewrite !zlen_cons; pose proof (zlen_nonneg d); lia).
      cbn [negb]. split; [done|elia]. }
  change (zlen [b0; b1; b2; b3]) with 4 in *. cbn [Z.eqb Pos.eqb negb adj_cell]. cbv zeta.
  pose proof (be32_range b0 b1 b2 b3) as Hr. rewrite <- enc_be32 in Hp. unfold fdt32_to_cpu_at.
  rewrite (ld32_at _ _ _ Hp), (u32_small _ Hr). cbn [rbind]. set (v := be32 b0 b1 b2 b3) in *.
  destruct (u32 (v + delta) <? v); cbn [orb]; [split; [done|elia]|].
  destruct (u32 (v + delta) =? u32 (-1)); cbn [ebind]; [split; [done|elia]|].
  specialize (Hs (be_enc32 (u32 (v + delta)))). change (zlen (be_enc32 (u32 (v + delta)))) with 4 in Hs.
  cbn [Z.eqb Pos.eqb] in Hs. destruct Hs as (m' & E & Hrw' & Hc). exists 0, m'.
  split; [exact E|]. split; [by left|]. by split.
Qed.

(** The same as a step of the function: an error ends it. *)
Lemma add_offset_step m pre nm items post name k :
  rw_at m fdt h rsv (in_tree pre nm items post) strs ->
  let r := let! '(ret, m) := overlay_phandle_add_offset m fdt (toks_len pre) name delta in
           if negb (ret =? 0) && negb (ret =? - FDT_ERR_NOTFOUND) then Ret (ret, m) else k m in
  match adj_prop strs delta name items with
  | inl e => r = Ret (e, m) /\ e < 0
  | inr items' => exists m', r = k m' /\ rw_at m' fdt h rsv (in_tree pre nm items' post) strs /\
      changes m m' fdt (h_totalsize h)
  end.
Proof.
  intros Hrw. cbv zeta. pose proof (add_offset_at _ _ _ _ _ name Hrw) as H.
  destruct (adj_prop strs delta name items) as [e|items'].
  - destruct H as (-> & He & Hn). cbn [rbind]. rewrite (proj2 (Z.eqb_neq e 0)) by lia.
    by rewrite (proj2 (Z.eqb_neq e _)) by done.
  - destruct H as (r & m' & -> & Hr & H). exists m'. split; [|exact H]. cbn [rbind]. by destruct Hr as [-> | ->].
Qed.

(** Both properties of a node with items [own], properties, and [subs]. *)
Lemma adjust_own_at m pre nm own subs post k :
  Forall (fun it => is_node it = false) own -> (split_props subs).1 = [] ->
  rw_at m fdt h rsv (in_tree pre nm (own ++ subs) post) strs ->
  exists r m',
    (let! '(ret, m) := overlay_phandle_add_offset m fdt (toks_len pre) (str "phandle") delta in
     if negb (ret =? 0) && negb (ret =? - FDT_ERR_NOTFOUND) then Ret (ret, m) else
     let! '(ret, m) := overlay_phandle_add_offset m fdt (toks_len pre) (str "linux,phandle") delta in
     if negb (ret =? 0) && negb (ret =? - FDT_ERR_NOTFOUND) then Ret (ret, m) else k m) = r /\
    changes m m' fdt (h_totalsize h) /\
    match adj_own strs delta own with
    | inl e => r = Ret (e, m') /\ e < 0
    | inr own' => r = k m' /\ rw_at m' fdt h rsv (in_tree pre nm (own' ++ subs) post) strs
    end.
Proof.
  intros Ho Hs Hrw. unfold adj_own. eexists.
  pose proof (add_offset_step _ _ _ _ _ (str "phandle") (fun m =>
    let! '(ret, m) := overlay_phandle_add_offset m fdt (toks_len pre) (str "linux,phandle") delta in
    if negb (ret =? 0) && negb (ret =? - FDT_ERR_NOTFOUND) then Ret (ret, m) else k m) Hrw) as H1.
  rewrite adj_prop_own in H1 by done.
  destruct (adj_prop strs delta (str "phandle") own) as [e|own1] eqn:E1; cbn [ebind] in *.
  { exists m. split; [done|]. split; [apply changes_refl|]. apply H1. }
  destruct H1 as (m1 & E & Hrw1 & Hc1). apply adj_prop_keep in E1 as [_ Ho1]. specialize (Ho1 Ho).
  pose proof (add_offset_step _ _ _ _ _ (str "linux,phandle") k Hrw1) as H2. rewrite adj_prop_own in H2 by done.
  destruct (adj_prop strs delta (str "linux,phandle") own1) as [e|own2]; cbn [ebind] in *.
  { exists m1. split; [done|]. split; [exact Hc1|]. destruct H2 as [H2 He]. split; [|exact He]. exact (eq_trans E H2). }
  destruct H2 as (m2 & E2 & Hrw2 & Hc2). exists m2. split; [done|].
  split; [exact (changes_trans _ _ _ _ _ Hc1 Hc2)|]. split; [exact (eq_trans E E2)|exact Hrw2].
Qed.

(** [f] shifts the phandles of any node of height at most [depth]. *)
Definition adjusts (f : mem -> Z -> res (Z * mem)) (depth : nat) : Prop :=
  forall m pre nm items post,
    (height (INode nm items) <= depth)%nat ->
    rw_at m fdt h rsv (in_tree pre nm items post) strs ->
    exists r m', f m (toks_len pre) = Ret (r, m') /\ changes m m' fdt (h_totalsize h) /\
      match adj_item strs delta (INode nm items) with
      | inl e => r = e /\ e < 0
      | inr it' => r = 0 /\ rw_at m' fdt h rsv (pre ++ flat it' ++ post) strs
      end.

(** Then the walk over the subnodes shifts those of all of them. *)
Lemma adjust_subnodes_at f depth m pre nm items post :
  adjusts f depth -> Forall (fun it => (height it <= depth)%nat) items ->
  rw_at m fdt h rsv (in_tree pre nm items post) strs ->
  exists r m', fdt_for_each_subnode fdt (toks_len pre) f m = Ret (r, m') /\ changes m m' fdt (h_totalsize h) /\
    match emap (adj_item strs delta) items with
    | inl e => r = e /\ e < 0
    | inr its' => r = 0 /\ rw_at m' fdt h rsv (in_tree pre nm its' post) strs
    end.
Proof.
  intros Hf Hd Hrw. apply wp_total_pair.
  apply (subnodes_wp fdt f _ (fun m1 todo o => Forall (fun it => (height it <= depth)%nat) todo /\
    changes m m1 fdt (h_totalsize h) /\ exists dn,
      rw_at m1 fdt h rsv (in_tree pre nm (dn ++ todo) post) strs /\ o = body_off (toks_len pre) nm + toks_len (flats dn) /\
      emap (adj_item strs delta) items = ebind (emap (adj_item strs delta) todo) (fun t => inr (dn ++ t))))
    with (items := items) (o := body_off (toks_len pre) nm).
  - intros m1 its o (_ & _ & dn & Hrw1 & -> & _). exact (tree_bounds _ _ _ _ _ _ _ _ _ (rw_tree _ _ _ _ _ _ Hrw1)).
  - intros m1 it its o Hn (Hd1 & Hc1 & dn & Hrw1 & -> & Ee). apply Forall_cons in Hd1 as [_ Hd1].
    split; [exact Hd1|]. split; [exact Hc1|]. exists (dn ++ [it]). rewrite <- app_assoc. split; [exact Hrw1|].
    rewrite flats_snoc. split; [lia|]. rewrite Ee. cbn [emap].
    destruct it; try done; cbn [adj_item ebind]; destruct (emap _ its); cbn [ebind]; by rewrite <- ?app_assoc.
  - intros m1 cn ci its o (Hd1 & Hc1 & dn & Hrw1 & -> & Ee). apply Forall_cons in Hd1 as [Hh Hd1].
    rewrite in_tree_item in Hrw1. destruct (Hf _ _ _ _ _ Hh Hrw1) as (r & m2 & E & Hc2 & Ha).
    pose proof (changes_trans _ _ _ _ _ Hc1 Hc2) as Hc. rewrite (body_off_at pre nm dn), E. cbn [wp].
    cbn [emap] in Ee. destruct (adj_item strs delta (INode cn ci)) as [e|it'] eqn:Ei; cbn [ebind] in Ee.
    + destruct Ha as [-> He]. rewrite (proj2 (Z.eqb_neq e 0)) by lia. split; [exact Hc|]. by rewrite Ee.
    + destruct Ha as [-> Hrw2]. cbn [Z.eqb]. cbv zeta. pose proof (adj_item_len _ _ _ _ Ei) as Hlen.
      destruct (adj_item_kind _ _ _ _ _ Ei) as [ci' ->].
      rewrite <- in_tree_item, <- (body_off_at pre nm dn) in *. split.
      * split; [exact Hd1|]. split; [exact Hc|]. exists (dn ++ [INode cn ci']). rewrite <- app_assoc.
        split; [exact Hrw2|]. rewrite flats_snoc. split; [lia|]. rewrite Ee.
        destruct (emap _ its); cbn [ebind]; by rewrite <- ?app_assoc.
      * rewrite <- Hlen. exact (next_subnode_item _ _ _ _ _ _ _ _ (rw_tree _ _ _ _ _ _ Hrw2) _ _ _ _ eq_refl).
  - intros m1 o (_ & Hc1 & dn & Hrw1 & _ & Ee). split; [exact Hc1|]. rewrite Ee. cbn [emap ebind].
    rewrite app_nil_r in *. by split.
  - exact (first_subnode_item _ _ _ _ _ _ _ _ (rw_tree _ _ _ _ _ _ Hrw)).
  - split; [exact Hd|]. split; [apply changes_refl|]. exists []. split; [exact Hrw|]. split; [cbn; lia|].
    by destruct (emap _ items).
Qed.

(** A node and all below it. *)
Lemma adjust_node_at depth : adjusts (fun m node => overlay_adjust_node_phandles depth m fdt node delta) depth.
Proof.
  induction depth as [|depth IH]; intros m pre nm items post Hh Hrw; [cbn in Hh; lia|].
  cbn [overlay_adjust_node_phandles]. rewrite adj_item_node.
  pose proof (split_props_own items) as Ho. pose proof (split_props_rest items) as Hs.
  apply height_items in Hh. rewrite (split_props_app items) in Hh, Hrw. apply Forall_app in Hh as [_ Hh].
  destruct (adjust_own_at m pre nm _ _ post (fun m => fdt_for_each_subnode fdt (toks_len pre) (fun m child =>
      overlay_adjust_node_phandles depth m fdt child delta) m) Ho Hs Hrw) as (r & m1 & E & Hc1 & H1).
  rewrite E. destruct (adj_own strs delta (split_props items).1) as [e|own'] eqn:Eo; cbn [ebind].
  { exists e, m1. destruct H1 as [-> He]. by split. }
  destruct H1 as [-> Hrw1]. apply adj_own_keep in Eo as [_ Ho']. specialize (Ho' Ho).
  assert (Forall (fun it => (height it <= depth)%nat) (own' ++ (split_props items).2)) as Hd.
  { apply Forall_app. split; [|exact Hh]. eapply Forall_impl; [exact Ho'|]. intros [] ?; cbn in *; (done || lia). }
  destruct (adjust_subnodes_at _ depth _ _ _ _ _ IH Hd Hrw1) as (r2 & m2 & -> & Hc2 & H2).
  exists r2, m2. split; [done|]. split; [exact (changes_trans _ _ _ _ _ Hc1 Hc2)|].
  rewrite emap_skip in H2 by done. by destruct (emap (adj_item strs delta) (split_props items).2).
Qed.
End adjust.
