(* ===== verification/FdtMergeSpec.v ===== *)
(** [overlay_apply_node] as a function on trees: a node of the overlay merged
    into a node of the base tree, with the room it takes. *)
From S2P Require Import Prelude Monad Memory Libfdt Fdt FdtSpec FdtTree FdtRo FdtWip FdtRead FdtNav.
From S2P Require Import FdtCheckSpec FdtRw FdtEdit FdtRwSpec FdtRwProp FdtRwNode FdtOverlay FdtOverlaySpec.

Fixpoint efold {A B} (f : A -> B -> Z + B) (l : list A) (b : B) : Z + B :=
  match l with
  | [] => inr b
  | a :: l => ebind (f a b) (efold f l)
  end.

(** ** The merge *)

(** A node of the base tree that is merged into: what it holds, and the header
    and the strings block of its blob. *)
Record target := Target { t_hdr : header; t_strs : list byte; t_items : list item }.

(** A property is set. *)
Definition set_step (name val : list byte) (t : target) : Z + target :=
  let '(Target h strs items) := t in
  if data_end h + set_growth strs name items (zlen val) <=? h_totalsize h then
    inr (Target (set_hdr h strs name items (zlen val)) (set_strs strs name items) (set_items strs name items val))
  else inl (- FDT_ERR_NOSPACE).

(** A subnode of that name is there, or is added. *)
Definition add_step (name : list byte) (t : target) : Z + target :=
  let '(Target h strs items) := t in
  match split_child name items with
  | Some _ => inr t
  | None => if fits h 0 (node_len name) then inr (Target (hdr_splice h (node_len name)) strs (add_sub items name))
            else inl (- FDT_ERR_NOSPACE)
  end.

(** [f] for the subnode of that name. *)
Definition in_child (name : list byte) (f : target -> Z + target) (t : target) : Z + target :=
  let '(Target h strs items) := t in
  match split_child name items with
  | Some (a, nm, its, b) =>
    ebind (f (Target h strs its)) (fun '(Target h strs its) => inr (Target h strs (a ++ INode nm its :: b)))
  | None => inl (- FDT_ERR_INTERNAL)
  end.

(** The properties before the first subnode, then the subnodes. *)
Definition merge_prop (ostrs : list byte) (it : item) (t : target) : Z + target :=
  match it with
  | IProp no val => set_step (default [] (strs_get ostrs no)) val t
  | _ => inr t
  end.

Fixpoint merge_node (ostrs : list byte) (it : item) (t : target) : Z + target :=
  match it with
  | INode _ items =>
    ebind (efold (merge_prop ostrs) (split_props items).1 t) (fun t =>
    efold (fun it t =>
      match it with
      | INode name _ => ebind (add_step name t) (in_child name (merge_node ostrs it))
      | _ => inr t
      end) items t)
  | _ => inr t
  end.

Definition merge_sub (ostrs : list byte) (it : item) (t : target) : Z + target :=
  match it with
  | INode name _ => ebind (add_step name t) (in_child name (merge_node ostrs it))
  | _ => inr t
  end.

(** ** Lemmas *)

Definition merged_total (t : target) (r : Z + target) : Prop :=
  match r with
  | inl e => e < 0
  | inr t' => h_totalsize (t_hdr t') = h_totalsize (t_hdr t)
  end.

Lemma merge_node_subs ostrs nm items t :
  merge_node ostrs (INode nm items) t =
    ebind (efold (merge_prop ostrs) (split_props items).1 t) (efold (merge_sub ostrs) items).
Proof. reflexivity. Qed.

Lemma load_str_at m p s :
  bytes_at m p (s ++ [x00]) -> no_nul s -> zlen s < INT_MAX -> load_str m p = Ret s.
Proof.
  intros Hat Hnn Hl. unfold load_str. rewrite (strlen_at _ _ _ Hat Hnn) by (unfold loop_bound, zlen in *; ilia).
  cbn [rbind]. apply bytes_at_app in Hat as [Hat _]. by apply load_bytes_at.
Qed.

(** A tree is not touched by changes elsewhere. *)
Lemma tree_at_changes m m' fdt h ts strs a n :
  tree_at m fdt h ts strs -> 40 <= h_totalsize h -> changes m m' a n ->
  a + n <= fdt \/ fdt + h_totalsize h <= a -> tree_at m' fdt h ts strs.
Proof.
  intros [Hst Hal Hma Hv Hla Hto Hs Hsz Hsr] H40 Hc Hd.
  pose proof Hst as [[Hh Hval Hsize Hroom] Hver Htoks Hend Hin].
  apply in_struct_true in Hin as (I1 & I2 & I3). pose proof (toks_len_nonneg ts).
  hdr_ranges Hh. constructor; try done.
  - constructor; try done; [| | |by apply in_struct_true].
    + constructor; try done; [|by eapply changes_valid]. eapply hdr_at_changes; [exact Hh|exact Hc|lia].
    + eapply copied_toks; [|exact Htoks]. eapply changes_copied; [exact Hc|]. unfold saddr. ilia.
    + eapply copied_bytes; [|exact Hend]. eapply changes_copied; [exact Hc|]. unfold saddr.
      change (zlen (be_enc32 FDT_END)) with 4. ilia.
  - eapply copied_bytes; [|exact Hs]. eapply changes_copied; [exact Hc|]. pose proof (zlen_nonneg strs). ilia.
Qed.

(** ** [overlay_apply_node] *)

Section apply.
Context (fdt tot : Z) (rsv : list (Z * Z)).
Context (fdto : Z) (ho : header) (ots : list tok) (ostrs : list byte).
Context (Hsep : fdt + tot <= fdto \/ fdto + h_totalsize ho <= fdt) (H40 : 40 <= h_totalsize ho).
Context (Hnames : names_ok ostrs ots).

(** Both trees: the target is the node after [pre] of the base tree. *)
Record both (m : mem) (pre : list tok) (nm : list byte) (t : target) (post : list tok) : Prop := Both {
  bo_base : rw_at m fdt (t_hdr t) rsv (in_tree pre nm (t_items t) post) (t_strs t);
  bo_total : h_totalsize (t_hdr t) = tot;
  bo_over : tree_at m fdto ho ots ostrs;
}.

(** What a step that computes [x] does: with an error the base tree is lost,
    but nothing outside it. *)
Definition outcome (m : mem) (pre : list tok) (nm : list byte) (post : list tok) (x : Z + target) (r : Z) (m' : mem) : Prop :=
  changes m m' fdt tot /\
  match x with
  | inl e => r = e /\ e < 0
  | inr t' => r = 0 /\ both m' pre nm t' post
  end.

Lemma over_changes m m' : tree_at m fdto ho ots ostrs -> changes m m' fdt tot -> tree_at m' fdto ho ots ostrs.
Proof using Hsep H40. intros Ht Hc. eapply tree_at_changes; [exact Ht|exact H40|exact Hc|exact Hsep]. Qed.

Lemma over_name m opre no d opost :
  tree_at m fdto ho ots ostrs -> ots = opre ++ TProp no d :: opost ->
  exists s, strs_get ostrs no = Some s /\ zlen s < INT_MAX /\ load_str m (fdto + h_off_strings ho + no) = Ret s.
Proof using Hnames.
  intros Ht E. rewrite E in Hnames. apply names_ok_app in Hnames as [_ Hn]. apply names_ok_cons in Hn as [[s Hs] _].
  exists s. split; [exact Hs|]. apply strs_get_Some in Hs as (H0 & Hnn & p & r & Es & Ep).
  pose proof (ta_strs _ _ _ _ _ Ht) as Hat. pose proof (ta_strs_room _ _ _ _ _ Ht) as Hr.
  pose proof (ta_total _ _ _ _ _ Ht). pose proof (blob_hdr _ _ _ (sa_blob _ _ _ _ (ta_struct _ _ _ _ _ Ht))) as Hh.
  hdr_ranges Hh. rewrite Es, !zlen_app, zlen_cons in Hr. pose proof (zlen_nonneg p). pose proof (zlen_nonneg s).
  pose proof (zlen_nonneg r). assert (zlen s < INT_MAX) as Hl by ilia. split; [exact Hl|].
  apply load_str_at; [|exact Hnn|exact Hl]. rewrite Es in Hat. apply bytes_at_appz in Hat as [_ Hat].
  rewrite <- Ep in Hat. change (s ++ x00 :: r) with (s ++ [x00] ++ r) in Hat. rewrite app_assoc in Hat.
  by apply bytes_at_app in Hat as [Hat _].
Qed.

(** The bodies of the two loops. *)
Definition prop_body (target : Z) (m : mem) (property : Z) : res (Z * mem) :=
  let! '(prop, name, prop_len) := fdt_getprop_by_offset m fdto property true in
  if prop_len =? - FDT_ERR_NOTFOUND then Ret (- FDT_ERR_INTERNAL, m) else
  if prop_len <? 0 then Ret (prop_len, m) else
  let! name := nonnull name in
  let! prop := nonnull prop in
  let! s := load_str m name in
  let! val := load_bytes m prop prop_len in
  fdt_setprop m fdt target s val.

Definition sub_body (f : mem -> Z -> Z -> res (Z * mem)) (target : Z) (m : mem) (subnode : Z) : res (Z * mem) :=
  let! '(name, _) := fdt_get_name m fdto subnode in
  let! name := nonnull name in
  let! s := load_str m name in
  let! '(nnode, m) := fdt_add_subnode m fdt target s in
  let! nnode :=
    if nnode =? - FDT_ERR_EXISTS then
      let! nnode := fdt_subnode_offset m fdt target s in
      Ret (if nnode =? - FDT_ERR_NOTFOUND then - FDT_ERR_INTERNAL else nnode)
    else Ret nnode in
  if nnode <? 0 then Ret (nnode, m) else f m nnode subnode.

Lemma apply_prop_at m pre nm t post opre no d opost :
  both m pre nm t post -> ots = opre ++ TProp no d :: opost ->
  exists r m', prop_body (toks_len pre) m (toks_len opre) = Ret (r, m') /\
    outcome m pre nm post (set_step (default [] (strs_get ostrs no)) d t) r m'.
Proof using Hsep H40 Hnames.
  intros [Hb Htot Ho] E. destruct (over_name _ _ _ _ _ Ho E) as (s & Hs & Hl & Hload). unfold prop_body.
  rewrite (getprop_by_offset_at _ _ _ _ _ Ho _ _ _ _ E), Hs. cbn [rbind default].
  pose proof (prop_data_bound _ _ _ _ _ Ho _ _ _ _ E) as Hd. pose proof (zlen_nonneg d).
  rewrite (proj2 (Z.eqb_neq (zlen d) _)) by elia. rewrite (proj2 (Z.ltb_ge (zlen d) 0)) by lia.
  cbn [nonnull rbind]. rewrite Hload. cbn [rbind].
  destruct (struct_tok _ _ _ _ (ta_struct _ _ _ _ _ Ho) _ _ _ E) as (_ & (_ & _ & Hdat)%tok_prop_at & _).
  rewrite (load_bytes_at _ _ _ (zlen d) Hdat) by done. cbn [rbind].
  pose proof (setprop_at _ _ _ _ _ _ _ _ _ Hb s d ltac:(lia) Hl) as Hset.
  destruct t as [h strs items]. cbn [t_hdr t_strs t_items set_step] in *. rewrite Htot in *.
  destruct (_ <=? tot).
  - destruct Hset as (m' & E' & Hrw & Hc). exists 0, m'. split; [exact E'|]. split; [exact Hc|]. split; [done|].
    constructor; cbn [t_hdr t_strs t_items]; [exact Hrw| |by eapply over_changes].
    rewrite (proj2 (set_hdr_struct _ _ _ _ _)). exact Htot.
  - destruct Hset as (m' & E' & _ & Hc). rewrite Htot in Hc. exists (- FDT_ERR_NOSPACE), m'. split; [exact E'|]. split; [exact Hc|]. split; [done|elia].
Qed.

Lemma prop_walk_at m pre nm t post opre onm oitems opost :
  both m pre nm t post -> ots = in_tree opre onm oitems opost ->
  exists r m', fdt_for_each_property_offset fdto (toks_len opre) (prop_body (toks_len pre)) m = Ret (r, m') /\
    outcome m pre nm post (efold (merge_prop ostrs) (split_props oitems).1 t) r m'.
Proof using Hsep H40 Hnames.
  intros Hb Eo. apply wp_total_pair.
  apply (properties_wp fdto _ _ (fun m1 todo o => exists dn t1, oitems = dn ++ todo /\
    both m1 pre nm t1 post /\ changes m m1 fdt tot /\ o = body_off (toks_len opre) onm + toks_len (flats dn) /\
    efold (merge_prop ostrs) (split_props oitems).1 t = efold (merge_prop ostrs) (split_props todo).1 t1))
    with (post := opost) (items := oitems) (o := body_off (toks_len opre) onm).
  - intros m1 its o (dn & t1 & -> & Hb1 & _ & -> & _). pose proof (bo_over _ _ _ _ _ Hb1) as Ho. rewrite Eo in Ho.
    eapply tree_bounds. exact Ho.
  - intros m1 its o (dn & t1 & E & Hb1 & Hc & -> & Ef). exists (dn ++ [INop]), t1. rewrite <- app_assoc.
    split; [exact E|]. split; [exact Hb1|]. split; [exact Hc|]. rewrite flats_snoc. split; [lia|].
    rewrite Ef, split_props_skip by done. done.
  - intros m1 no d its o (dn & t1 & E & Hb1 & Hc & -> & Ef). pose proof Eo as Ep. rewrite E, in_tree_item in Ep.
    destruct (apply_prop_at _ _ _ _ _ _ _ _ _ Hb1 Ep) as (r & m2 & Er & Hc2 & Hr). rewrite body_off_at, Er. cbn [wp].
    pose proof (changes_trans _ _ _ _ _ Hc Hc2) as Hc3. rewrite split_props_skip in Ef by done. cbn [fst efold merge_prop] in Ef.
    destruct (set_step _ d t1) as [e|t2]; cbn [ebind] in Ef.
    + destruct Hr as [-> He]. rewrite (proj2 (Z.eqb_neq e 0)) by lia. split; [exact Hc3|]. by rewrite Ef.
    + destruct Hr as [-> Hb2]. cbn [Z.eqb]. cbv zeta. rewrite <- body_off_at. split.
      * exists (dn ++ [IProp no d]), t2. rewrite <- app_assoc. split; [exact E|]. split; [exact Hb2|].
        split; [exact Hc3|]. rewrite flats_snoc. split; [lia|exact Ef].
      * pose proof (bo_over _ _ _ _ _ Hb2) as Ho. rewrite Eo in Ho.
        exact (next_property_item _ _ _ _ _ _ _ _ Ho _ _ _ _ E).
  - intros m1 its o (dn & t1 & _ & Hb1 & Hc & _ & Ef) Es. split; [exact Hc|]. rewrite Ef, Es. by split.
  - pose proof (bo_over _ _ _ _ _ Hb) as Ho. rewrite Eo in Ho. exact (first_property_item _ _ _ _ _ _ _ _ Ho).
  - exists [], t. split; [done|]. split; [exact Hb|]. split; [apply changes_refl|]. split; [cbn; lia|done].
Qed.

(** [f] merges a node of height at most [depth] into any node. *)
Definition merges (f : mem -> Z -> Z -> res (Z * mem)) (depth : nat) : Prop :=
  forall m pre nm t post opre onm oits opost,
    (height (INode onm oits) <= depth)%nat -> both m pre nm t post -> ots = in_tree opre onm oits opost ->
    exists r m', f m (toks_len pre) (toks_len opre) = Ret (r, m') /\
      outcome m pre nm post (merge_node ostrs (INode onm oits) t) r m'.

(** Then it does so for the subnode of that name. *)
Lemma in_child_at f depth name m pre nm t post opre onm oits opost a cn its b :
  merges f depth -> (height (INode onm oits) <= depth)%nat ->
  both m pre nm t post -> ots = in_tree opre onm oits opost -> split_child name (t_items t) = Some (a, cn, its, b) ->
  exists r m', f m (body_off (toks_len pre) nm + toks_len (flats a)) (toks_len opre) = Ret (r, m') /\
    outcome m pre nm post (in_child name (merge_node ostrs (INode onm oits)) t) r m'.
Proof.
  intros Hf Hh [Hb Htot Ho] Eo Es. destruct t as [h strs items]. cbn [t_hdr t_strs t_items] in *.
  pose proof (split_child_Some _ _ _ _ _ _ Es) as Ei. rewrite Ei, in_tree_item in Hb.
  destruct (Hf m _ _ (Target h strs its) _ _ _ _ _ Hh (Both _ _ _ (Target h strs its) _ Hb Htot Ho) Eo)
    as (r & m' & E & Hc & Hr).
  rewrite body_off_at. exists r, m'. split; [exact E|]. split; [exact Hc|]. cbn [in_child]. rewrite Es.
  destruct (merge_node _ _ _) as [e|[h' strs' its']]; cbn [ebind]; [exact Hr|].
  destruct Hr as [-> [Hb' Htot' Ho']]. split; [done|]. cbn [t_hdr t_strs t_items] in *.
  constructor; [|exact Htot'|exact Ho']. cbn [t_hdr t_strs t_items]. rewrite in_tree_item. exact Hb'.
Qed.

Lemma apply_sub_at f depth m pre nm t post opre cn ci opost :
  merges f depth -> (height (INode cn ci) <= depth)%nat -> 8 <= toks_len opre ->
  both m pre nm t post -> ots = in_tree opre cn ci opost ->
  exists r m', sub_body f (toks_len pre) m (toks_len opre) = Ret (r, m') /\
    outcome m pre nm post (merge_sub ostrs (INode cn ci) t) r m'.
Proof using Hsep H40.
  intros Hf Hh H8 Hb Eo. pose proof Hb as [Hrw Htot Ho]. pose proof Eo as Eb. rewrite in_tree_begin in Eb.
  destruct (node_name_at _ _ _ _ _ Ho _ _ _ Eb) as (Hat & Hnn & Hlen).
  assert (zlen cn <= INT_MAX - 20) as Hl.
  { pose proof (sa_room _ _ _ _ (ta_struct _ _ _ _ _ Ho)) as (_ & H2 & _)%in_struct_true.
    pose proof (blob_room _ _ _ (sa_blob _ _ _ _ (ta_struct _ _ _ _ _ Ho))) as H3.
    rewrite Eb, toks_len_app in H2. cbn [toks_len tok_len] in H2.
    pose proof (toks_len_nonneg (flats ci ++ TEnd :: opost)). pose proof (align_up_4_bounds (zlen cn + 1)). lia. }
  unfold sub_body. rewrite (fdt_get_name_at _ _ _ _ _ Ho _ _ _ Eb). cbn [rbind nonnull].
  rewrite (load_str_at _ _ _ Hat Hnn) by ilia. cbn [rbind]. unfold fdt_add_subnode, fdt_subnode_offset.
  pose proof (add_subnode_at _ _ _ _ _ _ _ _ _ Hrw cn Hnn Hl) as Ha. rewrite split_child_child in Ha.
  pose proof (toks_len_nonneg pre) as Hp. pose proof (tok_len_ge (TBegin nm)) as Hn.
  destruct t as [h strs items]. cbn [t_hdr t_strs t_items merge_sub add_step] in *.
  destruct (split_child cn items) as [[[[a nm'] its'] b]|] eqn:Es; cbn [mbind option_bind] in Ha; [|destruct (fits _ _ _)].
  - rewrite Ha. cbn [rbind]. rewrite Z.eqb_refl.
    rewrite (fdt_subnode_offset_namelen_at _ _ _ _ _ (rw_tree _ _ _ _ _ _ Hrw) _ _ _ cn (in_tree_begin _ _ _ _)).
    rewrite find_sub_items, split_child_child, Es. cbn [mbind option_bind rbind].
    pose proof (toks_len_nonneg (flats a)).
    rewrite (proj2 (Z.eqb_neq (_ + _) (- FDT_ERR_NOTFOUND))) by (unfold body_off; elia).
    rewrite (proj2 (Z.ltb_ge _ 0)) by (unfold body_off; lia). cbn [ebind].
    exact (in_child_at _ _ cn _ _ _ (Target h strs items) _ _ _ _ _ _ _ _ _ Hf Hh Hb Eo Es).
  - destruct Ha as (m1 & -> & Hrw1 & Hc1). cbn [rbind]. rewrite Htot in Hc1.
    pose proof (child_add_sub cn items 0) as Hca. rewrite split_child_child in Hca.
    destruct (split_child cn (add_sub items cn)) as [[[[a nm'] its'] b]|] eqn:Es1; cbn [mbind option_bind] in Hca; [|done].
    injection Hca as Ha _ _. rewrite !Z.add_0_l in Ha. rewrite <- Ha. pose proof (toks_len_nonneg (flats a)).
    rewrite (proj2 (Z.eqb_neq _ _)) by (unfold body_off; elia). cbn [rbind].
    rewrite (proj2 (Z.ltb_ge _ 0)) by (unfold body_off; lia). cbn [ebind].
    destruct (in_child_at f depth cn m1 pre nm (Target (hdr_splice h (node_len cn)) strs (add_sub items cn)) post
      opre cn ci opost a nm' its' b Hf Hh) as (r & m' & E & Hc & Hr); [|exact Eo|exact Es1|].
    { constructor; [exact Hrw1|exact Htot|by eapply over_changes]. }
    exists r, m'. split; [exact E|]. split; [exact (changes_trans _ _ _ _ _ Hc1 Hc)|exact Hr].
  - rewrite Ha. cbn [rbind]. change (- FDT_ERR_NOSPACE =? - FDT_ERR_EXISTS) with false. cbn [rbind].
    change (- FDT_ERR_NOSPACE <? 0) with true. cbn [ebind]. eexists _, m. split; [done|].
    split; [apply changes_refl|]. split; [done|elia].
Qed.

Lemma sub_walk_at f depth m pre nm t post opre onm oitems opost :
  merges f depth -> Forall (fun it => (height it <= depth)%nat) oitems ->
  both m pre nm t post -> ots = in_tree opre onm oitems opost ->
  exists r m', fdt_for_each_subnode fdto (toks_len opre) (sub_body f (toks_len pre)) m = Ret (r, m') /\
    outcome m pre nm post (efold (merge_sub ostrs) oitems t) r m'.
Proof using Hsep H40.
  intros Hf Hd Hb Eo. apply wp_total_pair.
  apply (subnodes_wp fdto _ _ (fun m1 todo o => exists dn t1, oitems = dn ++ todo /\
    Forall (fun it => (height it <= depth)%nat) todo /\
    both m1 pre nm t1 post /\ changes m m1 fdt tot /\ o = body_off (toks_len opre) onm + toks_len (flats dn) /\
    efold (merge_sub ostrs) oitems t = efold (merge_sub ostrs) todo t1))
    with (items := oitems) (o := body_off (toks_len opre) onm).
  - intros m1 its o (dn & t1 & E & _ & Hb1 & _ & -> & _). pose proof (bo_over _ _ _ _ _ Hb1) as Ho.
    rewrite Eo, E in Ho. eapply tree_bounds. exact Ho.
  - intros m1 it its o Hn (dn & t1 & E & Hd1 & Hb1 & Hc & -> & Ef). apply Forall_cons in Hd1 as [_ Hd1].
    exists (dn ++ [it]), t1. rewrite <- app_assoc. split; [exact E|]. split; [exact Hd1|]. split; [exact Hb1|].
    split; [exact Hc|]. rewrite flats_snoc. split; [lia|]. rewrite Ef. by destruct it.
  - intros m1 cn ci its o (dn & t1 & E & Hd1 & Hb1 & Hc & -> & Ef). apply Forall_cons in Hd1 as [Hh Hd1].
    pose proof Eo as Ep. rewrite E, in_tree_item in Ep.
    assert (8 <= toks_len (opre ++ TBegin onm :: flats dn)) as H8.
    { rewrite toks_len_app. cbn [toks_len tok_len]. pose proof (toks_len_nonneg opre). pose proof (toks_len_nonneg (flats dn)).
      pose proof (align_up_4_bounds (zlen onm + 1)). pose proof (zlen_nonneg onm).
      Z.to_euclidean_division_equations. lia. }
    destruct (apply_sub_at f depth m1 pre nm t1 post _ cn ci _ Hf Hh H8 Hb1 Ep) as (r & m2 & Er & Hc2 & Hr).
    rewrite body_off_at, Er. cbn [wp]. pose proof (changes_trans _ _ _ _ _ Hc Hc2) as Hc3. cbn [efold] in Ef.
    destruct (merge_sub ostrs (INode cn ci) t1) as [e|t2]; cbn [ebind] in Ef.
    + destruct Hr as [-> He]. rewrite (proj2 (Z.eqb_neq e 0)) by lia. split; [exact Hc3|]. by rewrite Ef.
    + destruct Hr as [-> Hb2]. cbn [Z.eqb]. cbv zeta. rewrite <- body_off_at. split.
      * exists (dn ++ [INode cn ci]), t2. rewrite <- app_assoc. split; [exact E|]. split; [exact Hd1|].
        split; [exact Hb2|]. split; [exact Hc3|]. rewrite flats_snoc. split; [lia|exact Ef].
      * pose proof (bo_over _ _ _ _ _ Hb2) as Ho. rewrite Eo in Ho.
        exact (next_subnode_item _ _ _ _ _ _ _ _ Ho _ _ _ _ E).
  - intros m1 o (dn & t1 & _ & _ & Hb1 & Hc & _ & Ef). split; [exact Hc|]. rewrite Ef. by split.
  - pose proof (bo_over _ _ _ _ _ Hb) as Ho. rewrite Eo in Ho. exact (first_subnode_item _ _ _ _ _ _ _ _ Ho).
  - exists [], t. split; [done|]. split; [exact Hd|]. split; [exact Hb|]. split; [apply changes_refl|].
    split; [cbn; lia|done].
Qed.

(** A node of the overlay and all below it. *)
Lemma apply_node_at depth : merges (fun m target node => overlay_apply_node depth m fdt target fdto node) depth.
Proof using Hsep H40 Hnames.
  induction depth as [|depth IH]; intros m pre nm t post opre onm oits opost Hh Hb Eo; [cbn in Hh; lia|].
  apply height_items in Hh. cbn [overlay_apply_node]. rewrite merge_node_subs.
  destruct (prop_walk_at _ _ _ _ _ _ _ _ _ Hb Eo) as (r1 & m1 & E1 & Hc1 & H1). unfold prop_body in E1. rewrite E1. cbn [rbind].
  destruct (efold (merge_prop ostrs) _ t) as [e|t1]; cbn [ebind].
  { destruct H1 as [-> He]. rewrite (proj2 (Z.eqb_neq e 0)) by lia. exists e, m1. by split. }
  destruct H1 as [-> Hb1]. cbn [Z.eqb negb].
  destruct (sub_walk_at _ _ _ _ _ _ _ _ _ _ _ IH Hh Hb1 Eo) as (r2 & m2 & E2 & Hc2 & H2).
  exists r2, m2. split; [exact E2|]. split; [exact (changes_trans _ _ _ _ _ Hc1 Hc2)|exact H2].
Qed.
End apply.

(** ** What the merge does to values *)

(** The value of [name] after the properties [props] of the overlay. *)
Definition over_step (ostrs name : list byte) (v : option (list byte)) (it : item) : option (list byte) :=
  match it with
  | IProp no d => if bool_decide (default [] (strs_get ostrs no) = name) then Some d else v
  | _ => v
  end.

Definition over_value (ostrs name : list byte) (props : list item) (v : option (list byte)) : option (list byte) :=
  foldl (over_step ostrs name) v props.

Definition strs_grow (strs strs' : list byte) : Prop :=
  forall o x, strs_get strs o = Some x -> strs_get strs' o = Some x.

#[export] Instance strs_grow_pre : PreOrder strs_grow.
Proof. split; [by intros s o x|]. intros s1 s2 s3 H1 H2 o x Hx. by apply H2, H1. Qed.

(** The names of the target stay good, and its strings stay where they are. *)
Definition keeps_names (f : target -> Z + target) : Prop :=
  forall t t', f t = inr t' -> names_ok (t_strs t) (flats (t_items t)) ->
    names_ok (t_strs t') (flats (t_items t')) /\ strs_grow (t_strs t) (t_strs t').

Lemma names_ok_grow strs strs' ts : strs_grow strs strs' -> names_ok strs ts -> names_ok strs' ts.
Proof.
  intros Hg. induction ts as [|t ts IH]; [constructor|]. rewrite !names_ok_cons. intros [H1 H2]. split; [|by apply IH].
  destruct t; try done. destruct H1 as [x Hx]. exists x. by apply Hg.
Qed.

Lemma ebind_inr {A B} (x : Z + A) (f : A -> Z + B) b : ebind x f = inr b -> exists a, x = inr a /\ f a = inr b.
Proof. destruct x; [done|]. eauto. Qed.

Lemma keeps_names_efold {A} (f : A -> target -> Z + target) l : Forall (fun a => keeps_names (f a)) l -> keeps_names (efold f l).
Proof.
  induction 1 as [|a l Ha _ IH]; intros t t'; cbn [efold]; [intros [= <-]; by split|].
  intros (t1 & E1 & E2)%ebind_inr Hn. destruct (Ha _ _ E1 Hn) as [Hn1 Hg1]. destruct (IH _ _ E2 Hn1) as [Hn2 Hg2].
  split; [exact Hn2|]. by transitivity (t_strs t1).
Qed.

Lemma set_step_names name val : no_nul name -> keeps_names (set_step name val).
Proof.
  intros Hnn [h strs items] t'. cbn [set_step t_strs t_items]. destruct (_ <=? _); [|done]. intros [= <-] Hn.
  cbn [t_strs t_items]. unfold set_strs, set_items.
  destruct (split_prop strs name items) as [[[[a no] d] b]|] eqn:E.
  - split; [|done]. apply split_prop_Some in E as [-> _]. rewrite flats_app, flats_cons in *.
    rewrite !names_ok_app in *. cbn [flat] in *. by rewrite !names_ok_cons in *.
  - assert (strs_grow strs (add_str strs name).1) as Hg by (intros o x; apply add_str_mono). split; [|exact Hg].
    rewrite flats_cons. cbn [flat app]. apply names_ok_cons. split; [|exact (names_ok_grow _ _ _ Hg Hn)].
    exists name. by apply add_str_get.
Qed.

Lemma add_step_names name : keeps_names (add_step name).
Proof.
  intros [h strs items] t'. cbn [add_step t_strs t_items].
  destruct (split_child name items); [intros [= <-]; by split|]. destruct (fits _ _ _); [|done].
  intros [= <-] Hn. cbn [t_strs t_items]. split; [|done]. unfold add_sub. rewrite (split_props_app items) in Hn.
  rewrite flats_app, flats_cons, !names_ok_app in *. cbn [flat flat_map app]. rewrite !names_ok_cons.
  destruct Hn. repeat split; try done. constructor.
Qed.

Lemma in_child_names name f : keeps_names f -> keeps_names (in_child name f).
Proof.
  intros Hf [h strs items] t'. cbn [in_child t_strs t_items].
  destruct (split_child name items) as [[[[a nm] its] b]|] eqn:E; [|done].
  intros ([h1 strs1 its1] & E1 & [= <-])%ebind_inr Hn. cbn [t_strs t_items].
  apply split_child_Some in E as ->. rewrite flats_app, flats_cons, !names_ok_app in *.
  destruct Hn as (Ha & Hc & Hb). cbn [flat] in *. fold (flats its) in Hc. fold (flats its1).
  rewrite !names_ok_cons, !names_ok_app in *. destruct Hc as (_ & Hc & He).
  destruct (Hf _ _ E1 Hc) as [Hc1 Hg]. cbn [t_strs t_items] in *. split; [|exact Hg].
  split; [exact (names_ok_grow _ _ _ Hg Ha)|]. split; [|exact (names_ok_grow _ _ _ Hg Hb)].
  split; [done|]. split; [exact Hc1|]. rewrite names_ok_cons. split; [done|constructor].
Qed.

Lemma strs_name_nonul strs no : no_nul (default [] (strs_get strs no)).
Proof.
  destruct (strs_get strs no) as [s|] eqn:E; [|apply not_elem_of_nil].
  by apply strs_get_Some in E as (_ & H & _).
Qed.

Lemma merge_prop_names ostrs it : keeps_names (merge_prop ostrs it).
Proof.
  destruct it as [|no d|nm its]; cbn [merge_prop]; try (intros t t' [= <-]; by split).
  apply set_step_names, strs_name_nonul.
Qed.

Lemma ebind_names (f g : target -> Z + target) : keeps_names f -> keeps_names g -> keeps_names (fun t => ebind (f t) g).
Proof.
  intros Hf Hg t t' (t1 & E1 & E2)%ebind_inr Hn. destruct (Hf _ _ E1 Hn) as [H1 G1]. destruct (Hg _ _ E2 H1) as [H2 G2].
  split; [exact H2|]. by transitivity (t_strs t1).
Qed.

Lemma merge_node_names ostrs it : keeps_names (merge_node ostrs it).
Proof.
  induction it as [|no d|nm its IH] using item_ind'; try (intros t t' [= <-]; by split).
  apply (ebind_names (efold (merge_prop ostrs) (split_props its).1) (efold (merge_sub ostrs) its)); apply keeps_names_efold.
  - apply Forall_forall. intros it _. apply merge_prop_names.
  - eapply Forall_impl; [exact IH|]. intros [|no d|cn ci] Hi; try (intros t t' [= <-]; by split).
    apply (ebind_names (add_step cn)); [apply add_step_names|by apply in_child_names].
Qed.

(** The properties of a node are not touched by merges into its subnodes. *)
Lemma prop_value_own strs items name : prop_value strs items name = prop_value strs (split_props items).1 name.
Proof. unfold prop_value. rewrite split_prop_own. by destruct (split_prop strs name _) as [[[[? ?] ?] ?]|]. Qed.

Lemma split_props_mid a nm its its' b :
  (split_props (a ++ INode nm its :: b)).1 = (split_props (a ++ INode nm its' :: b)).1.
Proof.
  induction a as [|it a IH]; [done|]. cbn [app]. destruct (is_node it) eqn:E; [by destruct it|].
  by rewrite !split_props_skip, IH.
Qed.

Lemma merge_sub_value ostrs it t t' name :
  merge_sub ostrs it t = inr t' -> names_ok (t_strs t) (flats (t_items t)) ->
  prop_value (t_strs t') (t_items t') name = prop_value (t_strs t) (t_items t) name.
Proof.
  destruct it as [|no d|cn ci]; cbn [merge_sub]; try (by intros [= <-]).
  intros (t1 & E1 & E2)%ebind_inr Hn. destruct (add_step_names _ _ _ E1 Hn) as [Hn1 _].
  transitivity (prop_value (t_strs t1) (t_items t1) name).
  - destruct t1 as [h strs items]. cbn [in_child t_strs t_items] in *.
    destruct (split_child cn items) as [[[[a nm] its] b]|] eqn:E; [|done].
    apply ebind_inr in E2 as ([h2 strs2 its2] & E2 & [= <-]). cbn [t_strs t_items].
    apply split_child_Some in E as ->.
    assert (names_ok strs (flats its)) as Hc.
    { rewrite flats_app, flats_cons, !names_ok_app in Hn1. destruct Hn1 as (_ & Hc & _). cbn [flat] in Hc.
      fold (flats its) in Hc. rewrite names_ok_cons, names_ok_app in Hc. apply Hc. }
    destruct (merge_node_names _ _ _ _ E2 Hc) as [_ Hg]. cbn [t_strs t_items] in Hg.
    rewrite prop_value_own, (split_props_mid a nm its2 its b), <- prop_value_own. by apply prop_value_grow.
  - destruct t as [h strs items]. cbn [add_step t_strs t_items] in *.
    destruct (split_child cn items); [by injection E1 as <-|]. destruct (fits _ _ _); [|done].
    injection E1 as <-. cbn [t_strs t_items]. unfold add_sub.
    rewrite prop_value_own, (split_props_absorb _ (INode cn [] :: (split_props items).2) (split_props_own items) eq_refl). cbn [fst].
    by rewrite <- prop_value_own.
Qed.

Lemma set_step_value nm val t t' name :
  set_step nm val t = inr t' -> no_nul nm -> names_ok (t_strs t) (flats (t_items t)) ->
  prop_value (t_strs t') (t_items t') name =
    if bool_decide (nm = name) then Some val else prop_value (t_strs t) (t_items t) name.
Proof.
  destruct t as [h strs items]. cbn [set_step t_strs t_items]. destruct (_ <=? _); [|done]. intros [= <-] Hnn Hn.
  cbn [t_strs t_items]. rewrite prop_value_set by done.
  destruct (decide (name = nm)) as [->|Hne]; [by rewrite !bool_decide_eq_true_2|].
  by rewrite !bool_decide_eq_false_2 by congruence.
Qed.

(** The merged node has the overlay's values, the last of each name, and keeps
    its own of the other names. *)
Lemma merge_node_value ostrs nm items t t' name :
  merge_node ostrs (INode nm items) t = inr t' -> names_ok (t_strs t) (flats (t_items t)) ->
  prop_value (t_strs t') (t_items t') name =
    over_value ostrs name (split_props items).1 (prop_value (t_strs t) (t_items t) name).
Proof.
  rewrite merge_node_subs. intros (t1 & E1 & E2)%ebind_inr Hn.
  assert (names_ok (t_strs t1) (flats (t_items t1)) /\ prop_value (t_strs t1) (t_items t1) name =
    over_value ostrs name (split_props items).1 (prop_value (t_strs t) (t_items t) name)) as [Hn1 <-].
  { clear E2. revert t E1 Hn. induction (split_props items).1 as [|it its IH]; intros t; cbn [efold].
    - by intros [= <-].
    - intros (t2 & E2 & E1)%ebind_inr Hn. destruct (merge_prop_names _ _ _ _ E2 Hn) as [Hn2 _].
      destruct (IH _ E1 Hn2) as [Hn1 ->]. split; [exact Hn1|]. 
      apply (f_equal (over_value ostrs name its)).
      destruct it as [|no d|]; cbn [merge_prop] in E2; try (by injection E2 as <-).
      exact (set_step_value _ _ _ _ _ E2 (strs_name_nonul _ _) Hn). }
  clear E1 Hn t. revert t1 E2 Hn1. induction items as [|it items IH]; intros t1; cbn [efold]; [by intros [= <-]|].
  intros (t2 & E2 & E1)%ebind_inr Hn1. rewrite (IH _ E1).
  - by eapply merge_sub_value.
  - assert (keeps_names (merge_sub ostrs it)) as Hk; [|apply (Hk _ _ E2 Hn1)].
    destruct it as [|no d|cn ci]; try (intros u u' [= <-]; by split).
    apply (ebind_names (add_step cn)); [apply add_step_names|apply in_child_names, merge_node_names].
Qed.
