(* ===== verification/EditProps.v ===== *)
(** Properties of the edits, fdt_rw.c and fdt_wip.c, and of fdt_overlay.c: the
    shift of an overlay's phandles, and the merge of an overlay's node into
    the base tree. *)
From S2P Require Import Prelude Monad Memory Libfdt Fdt FdtSpec FdtTree FdtRo FdtWip FdtRead FdtNav.
From S2P Require Import FdtCheckSpec FdtRw FdtEdit FdtRwSpec FdtRwProp Sample FdtRwNode FdtRsv FdtPack.
From S2P Require Import FdtOverlay FdtOverlaySpec FdtMergeSpec.

(** ** Properties *)

(** C11. [fdt_setprop] on a node of an editable tree: the first property of
    that name gets the value and its length, or a new property goes in front
    of the node's contents, its name taken from the strings block or added to
    it; the rest of the tree stays and nothing outside the blob changes.
    Without room the result is -FDT_ERR_NOSPACE and the tree is unchanged,
    an added name being rolled back. *)
Theorem fdt_setprop_refines m fdt h rsv strs pre nm items post name val :
  rw_at m fdt h rsv (in_tree pre nm items post) strs ->
  zlen val <= INT_MAX - 15 -> zlen name < INT_MAX ->
  exists r m', fdt_setprop m fdt (toks_len pre) name val = Ret (r, m') /\
    changes m m' fdt (h_totalsize h) /\
    if data_end h + set_growth strs name items (zlen val) <=? h_totalsize h then
      r = 0 /\ rw_at m' fdt (set_hdr h strs name items (zlen val)) rsv
        (in_tree pre nm (set_items strs name items val) post) (set_strs strs name items)
    else r = - FDT_ERR_NOSPACE /\ rw_at m' fdt h rsv (in_tree pre nm items post) strs.
Proof.
  intros Hrw Hv Hn. pose proof (setprop_at _ _ _ _ _ _ _ _ _ Hrw name val Hv Hn) as H.
  destruct (_ <=? _); [destruct H as (m' & E & Hrw' & Hc)|destruct H as (m' & E & Hrw' & Hc)]; eauto 10.
Qed.

Theorem fdt_setprop_refines_witness :
  exists r m', fdt_setprop s_mem s_base 0 (str "model") (b4 3) = Ret (r, m') /\
    changes s_mem m' s_base 256 /\
    if data_end s_hdr + set_growth s_strs (str "model") s_items 4 <=? 256 then
      r = 0 /\ rw_at m' s_base (set_hdr s_hdr s_strs (str "model") s_items 4) []
        (in_tree [] [] (set_items s_strs (str "model") s_items (b4 3)) []) (set_strs s_strs (str "model") s_items)
    else r = - FDT_ERR_NOSPACE /\ rw_at m' s_base s_hdr [] (in_tree [] [] s_items []) s_strs.
Proof.
  apply (fdt_setprop_refines s_mem s_base s_hdr [] s_strs [] [] s_items []); [apply s_rw_at|vm_compute; discriminate|reflexivity].
Defined.

(** C12. Reading after writing: after a successful [fdt_setprop] the node's
    [fdt_getprop] returns the value just set, and for every other name what it
    returned before. *)
Theorem setprop_getprop m fdt h rsv strs pre nm items post name val m' :
  rw_at m fdt h rsv (in_tree pre nm items post) strs -> names_ok strs (flats items) ->
  zlen val <= INT_MAX - 15 -> zlen name < INT_MAX -> no_nul name ->
  fdt_setprop m fdt (toks_len pre) name val = Ret (0, m') ->
  forall name', value_read m' (fdt_getprop m' fdt (toks_len pre) name')
    (if bool_decide (name' = name) then Some val else prop_value strs items name').
Proof.
  intros Hrw Hok Hv Hn Hnn E name'. pose proof (setprop_at _ _ _ _ _ _ _ _ _ Hrw name val Hv Hn) as H.
  destruct (_ <=? _); destruct H as (m1 & E1 & Hrw' & _); rewrite E1 in E; [|done].
  injection E as ->. rewrite <- (prop_value_set strs name items val name' Hnn Hok).
  apply (getprop_value _ _ _ _ _ _ _ _ _ (rw_tree _ _ _ _ _ _ Hrw')).
Qed.

Definition s_set : mem :=
  match fdt_setprop s_mem s_base 0 (str "reg") (b4 3) with Ret (_, m) => m | _ => ∅ end.

Theorem setprop_getprop_witness :
  value_read s_set (fdt_getprop s_set s_base 0 (str "reg")) (Some (b4 3)) /\
  value_read s_set (fdt_getprop s_set s_base 0 (str "compatible")) (Some (str "acme" ++ [x00])).
Proof.
  assert (forall name', value_read s_set (fdt_getprop s_set s_base 0 name')
    (if bool_decide (name' = str "reg") then Some (b4 3) else prop_value s_strs s_items name')) as H; [|split; apply H].
  apply (setprop_getprop s_mem s_base s_hdr [] s_strs [] [] s_items []); [apply s_rw_at|apply s_names_ok
    |vm_compute; discriminate|reflexivity|apply no_nul_dec; vm_compute; reflexivity|vm_compute; reflexivity].
Defined.

(** [fdt_appendprop] adds the bytes to the end of the property's value,
    or makes the property; without room the tree is unchanged. *)
Theorem fdt_appendprop_refines m fdt h rsv strs pre nm items post name val :
  rw_at m fdt h rsv (in_tree pre nm items post) strs ->
  app_len strs items name (zlen val) <= INT_MAX - 15 -> zlen name < INT_MAX ->
  exists r m', fdt_appendprop m fdt (toks_len pre) name val = Ret (r, m') /\
    changes m m' fdt (h_totalsize h) /\
    if data_end h + set_growth strs name items (app_len strs items name (zlen val)) <=? h_totalsize h then
      r = 0 /\ rw_at m' fdt (set_hdr h strs name items (app_len strs items name (zlen val))) rsv
        (in_tree pre nm (app_items strs items name val) post) (set_strs strs name items)
    else r = - FDT_ERR_NOSPACE /\ rw_at m' fdt h rsv (in_tree pre nm items post) strs.
Proof.
  intros Hrw Hv Hn. pose proof (appendprop_at _ _ _ _ _ _ _ _ _ Hrw name val Hv Hn) as H.
  destruct (_ <=? _); [destruct H as (m' & E & Hrw' & Hc)|destruct H as (m' & E & Hrw' & Hc)]; eauto 10.
Qed.

Theorem fdt_appendprop_refines_witness :
  exists r m', fdt_appendprop s_mem s_base 0 (str "compatible") (str "x") = Ret (r, m') /\
    changes s_mem m' s_base 256 /\
    if data_end s_hdr + set_growth s_strs (str "compatible") s_items 6 <=? 256 then
      r = 0 /\ rw_at m' s_base (set_hdr s_hdr s_strs (str "compatible") s_items 6) []
        (in_tree [] [] (app_items s_strs s_items (str "compatible") (str "x")) [])
        (set_strs s_strs (str "compatible") s_items)
    else r = - FDT_ERR_NOSPACE /\ rw_at m' s_base s_hdr [] (in_tree [] [] s_items []) s_strs.
Proof.
  apply (fdt_appendprop_refines s_mem s_base s_hdr [] s_strs [] [] s_items []);
    [apply s_rw_at|vm_compute; discriminate|reflexivity].
Defined.

(** [fdt_delprop] removes the first property of that name and always
    succeeds when there is one; otherwise nothing changes. *)
Theorem fdt_delprop_refines m fdt h rsv strs pre nm items post name :
  rw_at m fdt h rsv (in_tree pre nm items post) strs ->
  match split_prop strs name items with
  | Some (a, no, d, b) =>
    exists m', fdt_delprop m fdt (toks_len pre) name = Ret (0, m') /\
      rw_at m' fdt (hdr_splice h (- (12 + align_up (zlen d) 4))) rsv (in_tree pre nm (a ++ b) post) strs /\
      changes m m' fdt (h_totalsize h)
  | None => fdt_delprop m fdt (toks_len pre) name = Ret (- FDT_ERR_NOTFOUND, m)
  end.
Proof. intros Hrw. exact (delprop_at _ _ _ _ _ _ _ _ _ Hrw name). Qed.

Theorem fdt_delprop_refines_witness :
  exists m', fdt_delprop s_mem s_base 0 (str "compatible") = Ret (0, m') /\
    rw_at m' s_base (hdr_splice s_hdr (- (12 + align_up 5 4))) []
      (in_tree [] [] [INop; s_n1; s_m] []) s_strs /\ changes s_mem m' s_base 256.
Proof. exact (fdt_delprop_refines s_mem s_base s_hdr [] s_strs [] [] s_items [] (str "compatible") s_rw_at). Defined.

(** C15. [fdt_add_subnode_namelen] refuses a name that already finds a
    subnode; otherwise, given the room, it adds an empty node behind the
    properties of its parent and returns its offset, and looking the name up
    then finds it. *)
Theorem fdt_add_subnode_refines m fdt h rsv strs pre nm items post name :
  rw_at m fdt h rsv (in_tree pre nm items post) strs ->
  no_nul name -> zlen name <= INT_MAX - 20 ->
  match child name items (body_off (toks_len pre) nm) with
  | Some _ => fdt_add_subnode_namelen m fdt (toks_len pre) name = Ret (- FDT_ERR_EXISTS, m)
  | None =>
    let o := body_off (toks_len pre) nm + toks_len (flats (split_props items).1) in
    if fits h 0 (node_len name) then
      exists m', fdt_add_subnode_namelen m fdt (toks_len pre) name = Ret (o, m') /\
        rw_at m' fdt (hdr_splice h (node_len name)) rsv (in_tree pre nm (add_sub items name) post) strs /\
        changes m m' fdt (h_totalsize h) /\
        fdt_subnode_offset_namelen m' fdt (toks_len pre) name = Ret o
    else fdt_add_subnode_namelen m fdt (toks_len pre) name = Ret (- FDT_ERR_NOSPACE, m)
  end.
Proof.
  intros Hrw Hnn Hlen. pose proof (add_subnode_at _ _ _ _ _ _ _ _ _ Hrw name Hnn Hlen) as H.
  destruct (child name items _); [exact H|]. cbv zeta in *. destruct (fits h 0 _); [|exact H].
  destruct H as (m' & E & Hrw' & Hc). exists m'. split; [exact E|]. split; [exact Hrw'|]. split; [exact Hc|].
  rewrite (fdt_subnode_offset_namelen_at _ _ _ _ _ (rw_tree _ _ _ _ _ _ Hrw') _ _ _ name (in_tree_begin _ _ _ _)).
  by rewrite find_sub_items, child_add_sub.
Qed.

Theorem fdt_add_subnode_refines_witness :
  exists m', fdt_add_subnode_namelen s_mem s_base 0 (str "k") = Ret (32, m') /\
    rw_at m' s_base (hdr_splice s_hdr 12) [] (in_tree [] [] (add_sub s_items (str "k")) []) s_strs /\
    changes s_mem m' s_base 256 /\ fdt_subnode_offset_namelen m' s_base 0 (str "k") = Ret 32.
Proof.
  assert (zlen (str "k") <= INT_MAX - 20) as Hk by (vm_compute; discriminate).
  exact (fdt_add_subnode_refines s_mem s_base s_hdr [] s_strs [] [] s_items [] (str "k") s_rw_at
    (no_nul_dec (str "k") eq_refl) Hk).
Defined.

(** [fdt_del_node] removes the node with all it holds. *)
Theorem fdt_del_node_refines m fdt h rsv strs pre nm items post :
  rw_at m fdt h rsv (in_tree pre nm items post) strs ->
  exists m', fdt_del_node m fdt (toks_len pre) = Ret (0, m') /\
    rw_at m' fdt (hdr_splice h (- item_len (INode nm items))) rsv (pre ++ post) strs /\
    changes m m' fdt (h_totalsize h).
Proof. apply del_node_at. Qed.

(** The subnode n@1 of the sample tree. *)
Definition s_pre1 : list tok := [TBegin []; TProp 0 (str "acme" ++ [x00]); TNop].
Definition s_items1 : list item := [IProp 11 (b4 1); IProp 15 (b4 7)].
Definition s_post1 : list tok := [TBegin (str "m"); TEnd; TEnd].

Lemma s_rw_at1 : rw_at s_mem s_base s_hdr [] (in_tree s_pre1 (str "n@1") s_items1 s_post1) s_strs.
Proof. exact s_rw_at. Qed.

Theorem fdt_del_node_refines_witness :
  exists m', fdt_del_node s_mem s_base 32 = Ret (0, m') /\
    rw_at m' s_base (hdr_splice s_hdr (- item_len s_n1)) [] (s_pre1 ++ s_post1) s_strs /\
    changes s_mem m' s_base 256.
Proof. exact (fdt_del_node_refines s_mem s_base s_hdr [] s_strs s_pre1 (str "n@1") s_items1 s_post1 s_rw_at1). Defined.

(** [fdt_set_name] renames the node and keeps its contents. *)
Theorem fdt_set_name_refines m fdt h rsv strs pre nm items post name :
  rw_at m fdt h rsv (in_tree pre nm items post) strs ->
  no_nul name -> zlen name <= INT_MAX - 20 ->
  let d := align_up (zlen name + 1) 4 - align_up (zlen nm + 1) 4 in
  if data_end h + d <=? h_totalsize h then
    exists m', fdt_set_name m fdt (toks_len pre) name = Ret (0, m') /\
      rw_at m' fdt (hdr_splice h d) rsv (in_tree pre name items post) strs /\
      changes m m' fdt (h_totalsize h)
  else fdt_set_name m fdt (toks_len pre) name = Ret (- FDT_ERR_NOSPACE, m).
Proof. intros Hrw. exact (set_name_at _ _ _ _ _ _ _ _ _ Hrw name). Qed.

Theorem fdt_set_name_refines_witness :
  exists m', fdt_set_name s_mem s_base 32 (str "node@1") = Ret (0, m') /\
    rw_at m' s_base (hdr_splice s_hdr 4) [] (in_tree s_pre1 (str "node@1") s_items1 s_post1) s_strs /\
    changes s_mem m' s_base 256.
Proof.
  assert (zlen (str "node@1") <= INT_MAX - 20) as Hk by (vm_compute; discriminate).
  exact (fdt_set_name_refines s_mem s_base s_hdr [] s_strs s_pre1 (str "n@1") s_items1 s_post1 (str "node@1") s_rw_at1
    (no_nul_dec (str "node@1") eq_refl) Hk).
Defined.

(** C13. The other edits of a node of an editable tree: [fdt_appendprop] adds
    bytes to the end of a value, or makes the property, or finds no room and
    changes nothing; [fdt_delprop] removes the first property of that name and
    succeeds when there is one; [fdt_del_node] removes the node with all it
    holds; [fdt_set_name] renames it and keeps its contents, or finds no room. *)
Theorem other_edits_refine m fdt h rsv strs pre nm items post :
  rw_at m fdt h rsv (in_tree pre nm items post) strs ->
  (forall name val, app_len strs items name (zlen val) <= INT_MAX - 15 -> zlen name < INT_MAX ->
    exists r m', fdt_appendprop m fdt (toks_len pre) name val = Ret (r, m') /\
      changes m m' fdt (h_totalsize h) /\
      if data_end h + set_growth strs name items (app_len strs items name (zlen val)) <=? h_totalsize h then
        r = 0 /\ rw_at m' fdt (set_hdr h strs name items (app_len strs items name (zlen val))) rsv
          (in_tree pre nm (app_items strs items name val) post) (set_strs strs name items)
      else r = - FDT_ERR_NOSPACE /\ rw_at m' fdt h rsv (in_tree pre nm items post) strs) /\
  (forall name,
    match split_prop strs name items with
    | Some (a, no, d, b) =>
      exists m', fdt_delprop m fdt (toks_len pre) name = Ret (0, m') /\
        rw_at m' fdt (hdr_splice h (- (12 + align_up (zlen d) 4))) rsv (in_tree pre nm (a ++ b) post) strs /\
        changes m m' fdt (h_totalsize h)
    | None => fdt_delprop m fdt (toks_len pre) name = Ret (- FDT_ERR_NOTFOUND, m)
    end) /\
  (exists m', fdt_del_node m fdt (toks_len pre) = Ret (0, m') /\
    rw_at m' fdt (hdr_splice h (- item_len (INode nm items))) rsv (pre ++ post) strs /\
    changes m m' fdt (h_totalsize h)) /\
  (forall name, no_nul name -> zlen name <= INT_MAX - 20 ->
    let d := align_up (zlen name + 1) 4 - align_up (zlen nm + 1) 4 in
    if data_end h + d <=? h_totalsize h then
      exists m', fdt_set_name m fdt (toks_len pre) name = Ret (0, m') /\
        rw_at m' fdt (hdr_splice h d) rsv (in_tree pre name items post) strs /\
        changes m m' fdt (h_totalsize h)
    else fdt_set_name m fdt (toks_len pre) name = Ret (- FDT_ERR_NOSPACE, m)).
Proof.
  intros Hrw. split_and!.
  - intros name val. exact (fdt_appendprop_refines _ _ _ _ _ _ _ _ _ name val Hrw).
  - intros name. exact (delprop_at _ _ _ _ _ _ _ _ _ Hrw name).
  - exact (del_node_at _ _ _ _ _ _ _ _ _ Hrw).
  - intros name. exact (set_name_at _ _ _ _ _ _ _ _ _ Hrw name).
Qed.

Theorem other_edits_refine_witness :
  (exists r m', fdt_appendprop s_mem s_base 32 (str "reg") (str "x") = Ret (r, m') /\ changes s_mem m' s_base 256) /\
  (exists m', fdt_delprop s_mem s_base 32 (str "reg") = Ret (0, m') /\
    rw_at m' s_base (hdr_splice s_hdr (- (12 + align_up 4 4))) [] (in_tree s_pre1 (str "n@1") [IProp 15 (b4 7)] s_post1) s_strs) /\
  (exists m', fdt_del_node s_mem s_base 32 = Ret (0, m') /\
    rw_at m' s_base (hdr_splice s_hdr (- item_len s_n1)) [] (s_pre1 ++ s_post1) s_strs) /\
  (exists m', fdt_set_name s_mem s_base 32 (str "node@1") = Ret (0, m') /\
    rw_at m' s_base (hdr_splice s_hdr 4) [] (in_tree s_pre1 (str "node@1") s_items1 s_post1) s_strs).
Proof.
  destruct (other_edits_refine s_mem s_base s_hdr [] s_strs s_pre1 (str "n@1") s_items1 s_post1 s_rw_at1) as (A & D & L & N).
  split_and!.
  - destruct (A (str "reg") (str "x")) as (r & m' & E & C & _); [vm_compute; discriminate|reflexivity|]. exists r, m'. split; [exact E|exact C].
  - destruct (D (str "reg")) as (m' & E & H & _). exists m'. split; [exact E|exact H].
  - destruct L as (m' & E & H & _). exists m'. split; [exact E|exact H].
  - assert (zlen (str "node@1") <= INT_MAX - 20) as Hk by (vm_compute; discriminate).
    destruct (N (str "node@1") (no_nul_dec (str "node@1") eq_refl) Hk) as (m' & E & H & _). exists m'. split; [exact E|exact H].
Defined.

(** C18. The edits in place: [fdt_nop_property] and [fdt_nop_node] turn a
    property or a node into NOPs without moving anything, and
    [fdt_setprop_inplace] overwrites a value by one of the same length only;
    header and layout stay the same. *)
Theorem wip_refines m fdt h rsv strs pre nm items post :
  rw_at m fdt h rsv (in_tree pre nm items post) strs ->
  (exists m', fdt_nop_node m fdt (toks_len pre) = Ret (0, m') /\
    rw_at m' fdt h rsv (pre ++ nops (item_len (INode nm items)) ++ post) strs /\
    changes m m' fdt (h_totalsize h)) /\
  forall name, match split_prop strs name items with
  | Some (a, no, d, b) =>
    (exists m', fdt_nop_property m fdt (toks_len pre) name = Ret (0, m') /\
      rw_at m' fdt h rsv (in_tree pre nm (a ++ inops (12 + align_up (zlen d) 4) ++ b) post) strs /\
      changes m m' fdt (h_totalsize h)) /\
    forall val, if zlen val =? zlen d then
      exists m', fdt_setprop_inplace m fdt (toks_len pre) name val = Ret (0, m') /\
        rw_at m' fdt h rsv (in_tree pre nm (a ++ IProp no val :: b) post) strs /\
        changes m m' fdt (h_totalsize h)
    else fdt_setprop_inplace m fdt (toks_len pre) name val = Ret (- FDT_ERR_NOSPACE, m)
  | None => fdt_nop_property m fdt (toks_len pre) name = Ret (- FDT_ERR_NOTFOUND, m) /\
    forall val, fdt_setprop_inplace m fdt (toks_len pre) name val = Ret (- FDT_ERR_NOTFOUND, m)
  end.
Proof.
  intros Hrw. split; [by apply nop_node_at|]. intros name.
  pose proof (nop_property_at _ _ _ _ _ _ _ _ _ Hrw name) as H1.
  pose proof (setprop_inplace_at _ _ _ _ _ _ _ _ _ Hrw name) as H2.
  destruct (split_prop strs name items) as [[[[a no] d] b]|]; by split.
Qed.

Theorem wip_refines_witness :
  (exists m', fdt_nop_node s_mem s_base 32 = Ret (0, m') /\
    rw_at m' s_base s_hdr [] (s_pre1 ++ nops 44 ++ s_post1) s_strs /\ changes s_mem m' s_base 256) /\
  exists m', fdt_setprop_inplace s_mem s_base 32 (str "reg") (b4 9) = Ret (0, m') /\
    rw_at m' s_base s_hdr [] (in_tree s_pre1 (str "n@1") [IProp 11 (b4 9); IProp 15 (b4 7)] s_post1) s_strs /\
    changes s_mem m' s_base 256.
Proof.
  destruct (wip_refines s_mem s_base s_hdr [] s_strs s_pre1 (str "n@1") s_items1 s_post1 s_rw_at1) as [H1 H2].
  split; [exact H1|]. exact (proj2 (H2 (str "reg")) (b4 9)).
Defined.

(** C19. The reservation map: [fdt_add_mem_rsv] appends an entry, which
    [fdt_num_mem_rsv] counts and [fdt_get_mem_rsv] returns, with the tree and
    its strings moved but unchanged, and [fdt_del_mem_rsv] takes it away
    again, header included. *)
Theorem mem_rsv_edits m fdt h rsv ts strs e :
  rw_at m fdt h rsv ts strs -> rsv_ok e ->
  if fits h 0 16 then
    exists m1, fdt_add_mem_rsv m fdt e.1 e.2 = Ret (0, m1) /\
      rw_at m1 fdt (hdr_rsv h 16) (rsv ++ [e]) ts strs /\ changes m m1 fdt (h_totalsize h) /\
      fdt_num_mem_rsv m1 fdt = Ret (zlen rsv + 1) /\
      fdt_get_mem_rsv m1 fdt (zlen rsv) = Ret (0, e.1, e.2) /\
      exists m2, fdt_del_mem_rsv m1 fdt (zlen rsv) = Ret (0, m2) /\ rw_at m2 fdt h rsv ts strs
  else fdt_add_mem_rsv m fdt e.1 e.2 = Ret (- FDT_ERR_NOSPACE, m).
Proof.
  intros Hrw He. pose proof (add_mem_rsv_at _ _ _ _ _ _ _ Hrw He) as H. destruct (fits h 0 16); [|exact H].
  destruct H as (m1 & E1 & Hrw1 & Hc1). exists m1. split; [exact E1|]. split; [exact Hrw1|]. split; [exact Hc1|].
  split; [rewrite (fdt_num_mem_rsv_at _ _ _ _ _ _ Hrw1), zlen_app; done|].
  split; [exact (fdt_get_mem_rsv_at _ _ _ _ _ _ Hrw1 rsv e [] eq_refl)|].
  destruct (del_mem_rsv_at _ _ _ rsv e [] _ _ Hrw1) as (m2 & E2 & Hrw2 & _). exists m2. split; [exact E2|].
  rewrite app_nil_r in Hrw2. assert (hdr_rsv (hdr_rsv h 16) (- 16) = h) as Eh; [|by rewrite Eh in Hrw2].
  destruct h. unfold hdr_rsv. rsv_simpl. f_equal; lia.
Qed.

Theorem mem_rsv_edits_witness :
  exists m1, fdt_add_mem_rsv s_mem s_base 4096 64 = Ret (0, m1) /\
    rw_at m1 s_base (hdr_rsv s_hdr 16) [(4096, 64)] (in_tree [] [] s_items []) s_strs /\
    changes s_mem m1 s_base 256 /\ fdt_num_mem_rsv m1 s_base = Ret 1 /\
    fdt_get_mem_rsv m1 s_base 0 = Ret (0, 4096, 64) /\
    exists m2, fdt_del_mem_rsv m1 s_base 0 = Ret (0, m2) /\
      rw_at m2 s_base s_hdr [] (in_tree [] [] s_items []) s_strs.
Proof.
  assert (rsv_ok (4096, 64)) as Ho by (split; cbn; [ilia|split; [ilia|lia]]).
  exact (mem_rsv_edits s_mem s_base s_hdr [] _ s_strs (4096, 64) s_rw_at Ho).
Defined.

(** C38. [fdt_open_into] makes a tree editable and [fdt_pack] closes it again:
    for a version 17 tree whose reserve map and structure block lie in the
    blob, in whatever order, and a buffer of any place, which may overlap the
    blob, [fdt_open_into] either reports that there is no room and changes
    nothing, exactly when there is less than it needs, or leaves in the buffer
    a blob of that total size with the same reserve entries, structure and
    strings, in the order edits need; [fdt_pack] then keeps all three and cuts
    the total size to what they take. *)
Theorem open_pack_keep_tree m fdt h rsv ts strs buf bufsize :
  tree_at m fdt h ts strs -> rsv_at m (fdt + h_off_rsv h) rsv -> 40 <= h_totalsize h ->
  h_off_rsv h + 16 * zlen rsv + 16 <= h_totalsize h -> h_off_struct h + h_size_struct h <= h_totalsize h ->
  packed_size h rsv <= INT_MAX -> valid m buf bufsize -> 0 <= bufsize < INT_MAX -> Z.land buf 7 = 0 ->
  exists err m', fdt_open_into m fdt buf bufsize = Ret (err, m') /\
    if open_room h rsv fdt buf bufsize then
      err = 0 /\ exists h', opened m m' fdt h rsv ts strs buf bufsize h' /\
        exists m'' h'', fdt_pack m' buf = Ret (0, m'') /\ rw_at m'' buf h'' rsv ts strs /\ changes m' m'' buf bufsize /\
          h_totalsize h'' = packed_size h' rsv /\ h_totalsize h'' = data_end h'' /\ h_totalsize h'' <= bufsize
    else err = - FDT_ERR_NOSPACE /\ m' = m.
Proof.
  intros Ht Hr H1 H2 H3 H4 Hv Hb Ha.
  destruct (fdt_open_into_at m fdt h rsv ts strs Ht Hr H1 H2 H3 H4 buf bufsize Hv Hb Ha) as (err & m' & E & Hc).
  exists err, m'. split; [exact E|]. destruct (open_room _ _ _ _ _); [|done]. destruct Hc as (He & h' & Hop).
  split; [exact He|]. exists h'. split; [exact Hop|]. destruct (fdt_pack_at m' buf h' rsv ts strs) as (m'' & Ep & Cp & Sp & Hrw).
  { apply Hop. }
  rewrite (op_total _ _ _ _ _ _ _ _ _ _ Hop) in Cp, Sp. exists m''. eexists. split; [exact Ep|]. split; [exact Hrw|]. done.
Qed.

Theorem open_pack_keep_tree_witness :
  exists m' h', fdt_open_into s_mem s_base s_base 256 = Ret (0, m') /\
    opened s_mem m' s_base s_hdr [] s_toks s_strs s_base 256 h' /\
    exists m'' h'', fdt_pack m' s_base = Ret (0, m'') /\ rw_at m'' s_base h'' [] s_toks s_strs /\ h_totalsize h'' = packed_size h' [].
Proof.
  destruct (open_pack_keep_tree s_mem s_base s_hdr [] s_toks s_strs s_base 256) as (err & m' & E & Hc);
    [exact s_tree_at|apply s_rw_at|vm_compute; discriminate|vm_compute; discriminate|vm_compute; discriminate|
     vm_compute; discriminate|exact s_valid|split; [lia|reflexivity]|reflexivity|].
  assert (open_room s_hdr [] s_base s_base 256 = true) as Eo by (vm_compute; reflexivity). rewrite Eo in Hc.
  destruct Hc as (Ee & h' & Hop & m'' & h'' & Ep & Hrw & _ & Hs & _). subst err. exists m', h'. split; [exact E|]. split; [exact Hop|].
  exists m'', h''. split; [exact Ep|]. split; [exact Hrw|exact Hs].
Defined.

(** ** Overlays *)

(** The sample tree twice: the second is the overlay. *)
Definition o_base : Z := 8192.
Definition o_mem : mem := upd s_mem o_base s_bytes.

Lemma o_tree_at b : b = s_base \/ b = o_base -> tree_at o_mem b s_hdr s_toks s_strs.
Proof.
  intros Hb. assert (bytes_at o_mem b s_bytes) as Hat by (destruct Hb as [-> | ->]; bytes_eval).
  assert (struct_at o_mem b s_hdr s_toks) as Hs.
  { constructor; [constructor; [intros []; destruct Hb as [-> | ->]; vm_compute; reflexivity|
      exact (bytes_at_valid _ _ _ Hat)|vm_compute; discriminate|vm_compute; discriminate]
      |vm_compute; discriminate| |destruct Hb as [-> | ->]; bytes_eval|vm_compute; reflexivity].
    destruct Hb as [-> | ->];
    repeat (apply conj; [first [exact I|apply no_nul_dec; vm_compute; reflexivity
                               |cbn [tok_ok]; ilia]|apply conj; [bytes_eval|]]); exact I. }
  constructor; [exact Hs|..]; destruct Hb as [-> | ->]; first
    [bytes_eval|vm_compute; reflexivity|vm_compute; discriminate].
Qed.

Lemma o_base_rw_at : rw_at o_mem s_base s_hdr [] s_toks s_strs.
Proof.
  constructor; [apply o_tree_at; by left|reflexivity|vm_compute; discriminate| |vm_compute; discriminate|vm_compute; discriminate].
  split; [constructor|]. exists 0. bytes_eval.
Qed.

(** ** Properties *)

(** C39. [overlay_adjust_local_phandles] visits the whole overlay and adds
    [delta] to every phandle and linux,phandle cell, header, layout and all
    other values kept; it stops with -FDT_ERR_BADPHANDLE at a phandle that is
    not one cell and with -FDT_ERR_NOPHANDLES at the first sum that wraps
    around or is the reserved value 2^32 - 1, in the order of the tree. It
    changes nothing outside the overlay. *)
Theorem adjust_local_phandles_refines m fdto h rsv strs nm items post delta :
  rw_at m fdto h rsv (flat (INode nm items) ++ post) strs -> (height (INode nm items) <= call_depth)%nat ->
  exists r m', overlay_adjust_local_phandles m fdto delta = Ret (r, m') /\ changes m m' fdto (h_totalsize h) /\
    match adj_item strs delta (INode nm items) with
    | inl e => r = e /\ e < 0
    | inr root => r = 0 /\ rw_at m' fdto h rsv (flat root ++ post) strs
    end.
Proof. intros Hrw Hh. exact (adjust_node_at fdto h rsv strs delta call_depth m [] nm items post Hh Hrw). Qed.

Theorem adjust_local_phandles_refines_witness :
  exists m', overlay_adjust_local_phandles s_mem s_base 100 = Ret (0, m') /\ changes s_mem m' s_base 256 /\
    rw_at m' s_base s_hdr [] (flat (INode [] [IProp 0 (str "acme" ++ [x00]); INop;
      INode (str "n@1") [IProp 11 (b4 1); IProp 15 (b4 107)]; INode (str "m") []])) s_strs.
Proof.
  destruct (adjust_local_phandles_refines s_mem s_base s_hdr [] s_strs [] s_items [] 100 s_rw_at) as (r & m' & E & Hc & H).
  { apply Nat.leb_le. vm_compute. reflexivity. }
  assert (adj_item s_strs 100 (INode [] s_items) = inr (INode [] [IProp 0 (str "acme" ++ [x00]); INop;
    INode (str "n@1") [IProp 11 (b4 1); IProp 15 (b4 107)]; INode (str "m") []])) as Ea by (vm_compute; reflexivity).
  rewrite Ea, app_nil_r in H. destruct H as [-> H]. exists m'. split; [exact E|]. split; [exact Hc|exact H].
Defined.

(** C40. [overlay_apply_node] merges a node of the overlay into a node of an
    editable base tree: its properties are set one after the other, each of
    its subnodes is found by name in the target or added behind the target's
    properties, and merged in turn. The result, with the header and the
    strings, is that of the same steps on the trees; with no room for a step
    it is -FDT_ERR_NOSPACE. The overlay is only read, and nothing outside the
    base blob changes. Read back, a property of the merged node has the last
    value the overlay's node gives it, or else the value it had. *)
Theorem overlay_apply_node_refines m fdt rsv pre nm t post fdto ho opre onm oitems opost ostrs :
  rw_at m fdt (t_hdr t) rsv (in_tree pre nm (t_items t) post) (t_strs t) ->
  tree_at m fdto ho (in_tree opre onm oitems opost) ostrs -> 40 <= h_totalsize ho ->
  names_ok ostrs (in_tree opre onm oitems opost) ->
  fdt + h_totalsize (t_hdr t) <= fdto \/ fdto + h_totalsize ho <= fdt ->
  (height (INode onm oitems) <= call_depth)%nat ->
  exists r m', overlay_apply_node call_depth m fdt (toks_len pre) fdto (toks_len opre) = Ret (r, m') /\
    changes m m' fdt (h_totalsize (t_hdr t)) /\
    match merge_node ostrs (INode onm oitems) t with
    | inl e => r = e /\ e < 0
    | inr t' => r = 0 /\ rw_at m' fdt (t_hdr t') rsv (in_tree pre nm (t_items t') post) (t_strs t') /\
        tree_at m' fdto ho (in_tree opre onm oitems opost) ostrs /\
        (names_ok (t_strs t) (flats (t_items t)) -> forall name,
           value_read m' (fdt_getprop m' fdt (toks_len pre) name)
             (over_value ostrs name (split_props oitems).1 (prop_value (t_strs t) (t_items t) name)))
    end.
Proof.
  intros Hrw Ho H40 Hn Hsep Hh.
  destruct (apply_node_at fdt (h_totalsize (t_hdr t)) rsv fdto ho _ ostrs Hsep H40 Hn call_depth m pre nm t post
    opre onm oitems opost Hh (Both _ _ _ _ _ _ _ _ _ _ _ _ Hrw eq_refl Ho) eq_refl) as (r & m' & E & Hc & H).
  exists r, m'. split; [exact E|]. split; [exact Hc|]. destruct (merge_node _ _ _) as [e|t'] eqn:Em; [exact H|].
  destruct H as [Hr [H1 _ H2]]. split; [exact Hr|]. split; [exact H1|]. split; [exact H2|]. intros Hok name.
  rewrite <- (merge_node_value _ _ _ _ _ name Em Hok). exact (getprop_value _ _ _ _ _ _ _ _ name (rw_tree _ _ _ _ _ _ H1)).
Qed.

Definition o_target : target := Target s_hdr s_strs [].
Definition o_pre : list tok := [TBegin []; TProp 0 (str "acme" ++ [x00]); TNop; TBegin (str "n@1"); TProp 11 (b4 1);
  TProp 15 (b4 7); TEnd].
Definition o_opre : list tok := [TBegin []; TProp 0 (str "acme" ++ [x00]); TNop].

(** The overlay's node n@1 merged into the empty node m. *)
Theorem overlay_apply_node_refines_witness :
  exists m' h', overlay_apply_node call_depth o_mem s_base 76 o_base 32 = Ret (0, m') /\
    rw_at m' s_base h' [] (in_tree o_pre (str "m") [IProp 15 (b4 7); IProp 11 (b4 1)] [TEnd]) s_strs.
Proof.
  destruct (overlay_apply_node_refines o_mem s_base [] o_pre (str "m") o_target [TEnd] o_base s_hdr o_opre (str "n@1")
    [IProp 11 (b4 1); IProp 15 (b4 7)] [TBegin (str "m"); TEnd; TEnd] s_strs) as (r & m' & E & _ & H).
  - exact o_base_rw_at.
  - apply o_tree_at. by right.
  - vm_compute. discriminate.
  - repeat (constructor; [first [exact I|vm_compute; eauto]|]). constructor.
  - left. vm_compute. discriminate.
  - apply Nat.leb_le. vm_compute. reflexivity.
  - destruct (merge_node s_strs _ _) as [e|t'] eqn:Em; [vm_compute in Em; discriminate Em|].
    destruct H as (-> & Hrw & _). exists m', (t_hdr t'). split; [exact E|].
    assert (t_items t' = [IProp 15 (b4 7); IProp 11 (b4 1)] /\ t_strs t' = s_strs) as [Ei Es].
    { vm_compute in Em. injection Em as <-. split; vm_compute; reflexivity. }
    by rewrite Ei, Es in Hrw.
Defined.
