(* ===== verification/DtcUtil.v ===== *)
(** dtc/util.c: character escapes, paths and printable strings. A [char *]
    into a buffer is the buffer's bytes and an index. *)
From S2P Require Import Prelude Monad Ctype.

(** [s[i]]. *)
Definition char_at (s : list byte) (i : Z) : res byte :=
  if i <? 0 then Fault Oob else nonnull (s !! Z.to_nat i).

(** [strncpy(x, s + i, n)] into a buffer of [n] characters and a terminator:
    the characters before a NUL. *)
Fixpoint strncpy (n : nat) (s : list byte) (i : Z) : res (list byte) :=
  match n with
  | O => Ret []
  | S n =>
    let! c := char_at s i in
    if bool_decide (c = x00) then Ret [] else
    let! r := strncpy n s (i + 1) in Ret (c :: r)
  end.

(** Returns the character and the new [*i]. *)
Definition get_oct_char (s : list byte) (i : Z) : res (byte * Z) :=
  let! x := strncpy 3 s i in
  let '(val, endx) := strtol x 8 in
  let! _ := c_assert (0 <? endx) in
  Ret (z2b val, i + endx).

Definition get_hex_char (s : list byte) (i : Z) : res (byte * Z) :=
  let! x := strncpy 2 s i in
  let '(val, endx) := strtol x 16 in
  if negb (0 <? endx) then Fault Die else
  Ret (z2b val, i + endx).

Definition get_escape_char (s : list byte) (i : Z) : res (byte * Z) :=
  let! c := char_at s i in
  let j := i + 1 in
  match c with
  | "a"%byte => Ret (x07, j)
  | "b"%byte => Ret (x08, j)
  | "t"%byte => Ret (x09, j)
  | "n"%byte => Ret (x0a, j)
  | "v"%byte => Ret (x0b, j)
  | "f"%byte => Ret (x0c, j)
  | "r"%byte => Ret (x0d, j)
  | "0"%byte | "1"%byte | "2"%byte | "3"%byte | "4"%byte | "5"%byte | "6"%byte | "7"%byte =>
    (* need to re-read the first digit as part of the octal value *)
    get_oct_char s (j - 1)
  | "x"%byte => get_hex_char s j
  | _ => Ret (c, j)
  end.

Definition join_path (path name : list byte) : list byte :=
  match last path with
  | Some "/"%byte => path ++ name
  | _ => path ++ "/"%byte :: name
  end.

(** The string that starts at [s], up to its NUL, printable and not empty; the
    rest of the data. *)
Fixpoint printable_run (s : list byte) : nat * list byte :=
  match s with
  | c :: s' => if negb (bool_decide (c = x00)) && isprint c
               then let '(n, r) := printable_run s' in (S n, r) else (O, s)
  | [] => (O, [])
  end.

(** One string of the data at a time; [fuel] bounds their number. *)
Fixpoint printable_strings (fuel : nat) (s : list byte) : bool :=
  match fuel with
  | O => true
  | S fuel =>
    match s with
    | [] => true
    | _ =>
      match printable_run s with
      | (O, _) => false                       (* s == ss *)
      | (_, x00 :: r) => printable_strings fuel r
      | _ => false                            (* not zero, or not done yet *)
      end
    end
  end.

Definition util_is_printable_string (s : list byte) : bool :=
  match last s with
  | None => false                             (* zero length is not *)
  | Some c => if negb (bool_decide (c = x00)) then false (* must terminate with zero *)
              else printable_strings (S (length s)) s
  end.
