(* ===== verification/DtcData.v ===== *)
(** dtc/data.c and the data structures of dtc.h: growing byte buffers with
    markers. *)
From S2P Require Import Prelude Monad Ctype DtcUtil.

(** ** Big-endian words of the host's integers (dtc.h) *)

Definition be_enc16 (z : Z) : list byte := [z2b (Z.shiftr z 8); z2b z].

(** A read at an offset of a buffer. *)
Definition bytes_from (p : list byte) (off : Z) (n : nat) : res (list byte) :=
  if (0 <=? off) && (off + Z.of_nat n <=? zlen p)
  then Ret (take n (drop (Z.to_nat off) p)) else Fault Oob.

Definition dtb_ld16 (p : list byte) (off : Z) : res Z :=
  let! bp := bytes_from p off 2 in
  match bp with
  | [a; b] => Ret (Z.lor (Z.shiftl (b2z a) 8) (b2z b))
  | _ => Fault Oob
  end.

Definition dtb_ld32 (p : list byte) (off : Z) : res Z :=
  let! bp := bytes_from p off 4 in
  match bp with
  | [a; b; c; d] =>
    Ret (Z.lor (Z.lor (Z.lor (Z.shiftl (b2z a) 24) (Z.shiftl (b2z b) 16)) (Z.shiftl (b2z c) 8)) (b2z d))
  | _ => Fault Oob
  end.

Definition dtb_ld64 (p : list byte) (off : Z) : res Z :=
  let! hi := dtb_ld32 p off in
  let! lo := dtb_ld32 p (off + 4) in
  Ret (Z.lor (Z.shiftl hi 32) lo).

Definition strends (s suffix : list byte) : bool :=
  if (length s <? length suffix)%nat then false
  else streq (drop (length s - length suffix) s) suffix.

(** [ALIGN(x, a)] in [unsigned int] arithmetic. *)
Definition ALIGN (x a : Z) : Z := Z.land (u32 (x + a - 1)) (u32 (Z.lnot (a - 1))).

(** ** Data blobs *)

Inductive markertype :=
| TYPE_NONE | REF_PHANDLE | REF_PATH | LABEL
| TYPE_UINT8 | TYPE_UINT16 | TYPE_UINT32 | TYPE_UINT64 | TYPE_STRING.

#[export] Instance markertype_eq_dec : EqDecision markertype.
Proof. solve_decision. Defined.

Record marker := Marker {
  m_type : markertype;
  m_offset : Z;                 (* unsigned int *)
  m_ref : option (list byte);
}.

(** The bytes written, in a buffer of [d_cap] bytes, and the marker list. *)
Record data := Data {
  d_val : list byte;
  d_cap : Z;
  d_markers : list marker;
}.

Definition d_len (d : data) : Z := zlen (d_val d).

Definition empty_data : data := Data [] 0 [].

(** Storing [p] at [off], inside the buffer and not past its contents. *)
Definition data_put (d : data) (off : Z) (p : list byte) : res data :=
  if (0 <=? off) && (off <=? d_len d) && (off + zlen p <=? d_cap d)
  then Ret (Data (take (Z.to_nat off) (d_val d) ++ p ++ drop (Z.to_nat (off + zlen p)) (d_val d))
                 (d_cap d) (d_markers d))
  else Fault Oob.

Definition data_grow_for (d : data) (xlen : Z) : res data :=
  if xlen =? 0 then Ret d else
  let! newsize := loop (fun newsize =>
    if newsize <? u32 (d_len d + xlen) then Ret (Continue (u32 (newsize * 2)))
    else Ret (Break newsize)) xlen in
  (* xrealloc keeps what fits *)
  Ret (Data (take (Z.to_nat newsize) (d_val d)) newsize (d_markers d)).

Definition data_copy_mem (p : list byte) : res data :=
  let! d := data_grow_for empty_data (zlen p) in
  data_put d 0 p.

Definition data_append_markers (d : data) (m : list marker) : data :=
  Data (d_val d) (d_cap d) (d_markers d ++ m).

Definition data_add_marker (d : data) (type : markertype) (ref : option (list byte)) : data :=
  data_append_markers d [Marker type (d_len d) ref].

(** [s] is the buffer the [len] characters are in. *)
Definition data_copy_escape_string (s : list byte) (len : Z) : res data :=
  let d := data_add_marker empty_data TYPE_STRING None in
  let! len1 := sint (len + 1) in
  let! d := data_grow_for d (u32 len1) in
  let! '(_, d) := loop (fun '(i, d) =>
    if i <? len then
      let! c := char_at s i in
      let i := i + 1 in
      let! '(c, i) := if bool_decide (c = "\"%byte) then get_escape_char s i else Ret (c, i) in
      let! d := data_put d (d_len d) [c] in
      Ret (Continue (i, d))
    else Ret (Break (i, d))) (0, d) in
  data_put d (d_len d) [x00].

(** A file is what is left of it; [feof] is set by a read past its end.
    [maxlen] None is [(size_t)-1]. *)
Definition data_copy_file (f : list byte) (maxlen : option Z) : res data :=
  let d := data_add_marker empty_data TYPE_NONE None in
  let! '(d, _, _) := loop (fun '(d, f, eof) =>
    if negb eof && match maxlen with Some n => d_len d <? n | None => true end then
      let chunksize := match maxlen with Some n => n - d_len d | None => 4096 end in
      let! d := data_grow_for d (u32 chunksize) in
      let got := take (Z.to_nat chunksize) f in
      let! d' := data_put d (d_len d) got in
      if u64 (d_len d + zlen got) <? d_len d then Fault Die else
      Ret (Continue (d', drop (Z.to_nat chunksize) f, zlen got <? chunksize))
    else Ret (Break (d, f, eof))) (d, f, false) in
  Ret d.

Definition data_append_data (d : data) (p : list byte) : res data :=
  let! d := data_grow_for d (u32 (zlen p)) in
  data_put d (d_len d) p.

(** Move the markers after the first [k]. *)
Definition shift_markers (k : nat) (len : Z) (ms : list marker) : list marker :=
  take k ms ++ map (fun m => Marker (m_type m) (u32 (m_offset m + len)) (m_ref m)) (drop k ms).

(** [m] is the marker at position [k] of [d]'s list. *)
Definition data_insert_at_marker (d : data) (k : nat) (p : list byte) : res data :=
  let! m := nonnull (d_markers d !! k) in
  let! d := data_grow_for d (u32 (zlen p)) in
  let tail := drop (Z.to_nat (m_offset m)) (d_val d) in
  let! d := data_put d (m_offset m) (p ++ tail) in
  (* Adjust all markers after the one we're inserting at *)
  Ret (Data (d_val d) (d_cap d) (shift_markers (S k) (zlen p) (d_markers d))).

Definition data_merge (d1 d2 : data) : res data :=
  let! d := data_append_data d1 (d_val d2) in
  (* Adjust for the length of d1 *)
  Ret (data_append_markers d (shift_markers 0 (d_len d1) (d_markers d2))).

Definition data_append_integer (d : data) (value bits : Z) : res data :=
  if bits =? 8 then data_append_data d [z2b value]
  else if bits =? 16 then data_append_data d (be_enc16 value)
  else if bits =? 32 then data_append_data d (be_enc32 value)
  else if bits =? 64 then data_append_data d (be_enc64 value)
  else Fault Die.

Definition data_append_re (d : data) (address size : Z) : res data :=
  data_append_data d (be_enc64 address ++ be_enc64 size).

Definition data_append_cell (d : data) (word : Z) : res data := data_append_integer d word 32.

Definition data_append_addr (d : data) (addr : Z) : res data := data_append_integer d addr 64.

Definition data_append_byte (d : data) (b : byte) : res data := data_append_data d [b].

Definition data_append_zeroes (d : data) (len : Z) : res data :=
  let! d := data_grow_for d (u32 len) in
  if len <? 0 then Fault Oob (* memset of a huge size_t *)
  else data_put d (d_len d) (replicate (Z.to_nat len) x00).

Definition data_append_align (d : data) (align : Z) : res data :=
  let newlen := s32 (ALIGN (d_len d) align) in
  data_append_zeroes d (s32 (u32 (newlen - d_len d))).

Definition data_is_one_string (d : data) : bool :=
  match last (d_val d) with
  | None => false
  | Some c => bool_decide (x00 ∉ take (length (d_val d) - 1) (d_val d)) && bool_decide (c = x00)
  end.
