(* ===== verification/DtcTree.v ===== *)
(** dtc/livetree.c: the live tree. The C structures are linked by pointers and
    each node has one owner, so a tree is a value; a pointer to a node of the
    tree is its position, the indices of the children on the way from the
    root, deleted ones counted. Source positions are not modelled. *)
From S2P Require Import Prelude Monad Ctype DtcUtil DtcData.

(** ** dtc.h: the structures *)

Record label := Label {
  l_deleted : bool;
  l_label : list byte;
}.

Record property := Property {
  p_deleted : bool;
  p_name : list byte;
  p_val : data;
  p_labels : list label;
}.

Unset Elimination Schemes.
Inductive node := Node {
  n_deleted : bool;
  n_name_ : option (list byte);
  n_proplist : list property;
  n_children : list node;
  n_fullpath : list byte;
  n_basenamelen : Z;
  n_phandle : Z;
  n_addr_cells : Z;
  n_size_cells : Z;
  n_labels : list label;
  n_omit_if_unused : bool;
  n_is_referenced : bool;
}.
Set Elimination Schemes.

(** The name where the code uses it as a string: the parser names every node
    before it links it to another. *)
Definition n_name (n : node) : list byte := default [] (n_name_ n).

Record reserve_info := ReserveInfo {
  rs_address : Z;
  rs_size : Z;
  rs_labels : list label;
}.

Record dt_info := DtInfo {
  dtsflags : Z;
  reservelist : list reserve_info;
  boot_cpuid_phys : Z;
  dt : node;
}.

(** The command line options the tree code reads. *)
Record dtc_opts := DtcOpts {
  quiet : Z;
  reservenum : Z;
  minsize : Z;
  padsize : Z;
  alignsize : Z;
  phandle_format : Z;
  generate_fixups : bool;
}.

Definition PHANDLE_LEGACY : Z := 1.
Definition PHANDLE_EPAPR : Z := 2.

Definition DTSF_V1 : Z := 1.
Definition DTSF_PLUGIN : Z := 2.

(** Assignments to a field. *)
Definition n_set_deleted (b : bool) (n : node) : node :=
  Node b (n_name_ n) (n_proplist n) (n_children n) (n_fullpath n) (n_basenamelen n) (n_phandle n)
    (n_addr_cells n) (n_size_cells n) (n_labels n) (n_omit_if_unused n) (n_is_referenced n).
Definition n_set_name (s : option (list byte)) (n : node) : node :=
  Node (n_deleted n) s (n_proplist n) (n_children n) (n_fullpath n) (n_basenamelen n) (n_phandle n)
    (n_addr_cells n) (n_size_cells n) (n_labels n) (n_omit_if_unused n) (n_is_referenced n).
Definition n_set_proplist (l : list property) (n : node) : node :=
  Node (n_deleted n) (n_name_ n) l (n_children n) (n_fullpath n) (n_basenamelen n) (n_phandle n)
    (n_addr_cells n) (n_size_cells n) (n_labels n) (n_omit_if_unused n) (n_is_referenced n).
Definition n_set_children (l : list node) (n : node) : node :=
  Node (n_deleted n) (n_name_ n) (n_proplist n) l (n_fullpath n) (n_basenamelen n) (n_phandle n)
    (n_addr_cells n) (n_size_cells n) (n_labels n) (n_omit_if_unused n) (n_is_referenced n).
Definition n_set_path (s : list byte) (b : Z) (n : node) : node :=
  Node (n_deleted n) (n_name_ n) (n_proplist n) (n_children n) s b (n_phandle n)
    (n_addr_cells n) (n_size_cells n) (n_labels n) (n_omit_if_unused n) (n_is_referenced n).
Definition n_set_phandle (v : Z) (n : node) : node :=
  Node (n_deleted n) (n_name_ n) (n_proplist n) (n_children n) (n_fullpath n) (n_basenamelen n) v
    (n_addr_cells n) (n_size_cells n) (n_labels n) (n_omit_if_unused n) (n_is_referenced n).
Definition n_set_labels (l : list label) (n : node) : node :=
  Node (n_deleted n) (n_name_ n) (n_proplist n) (n_children n) (n_fullpath n) (n_basenamelen n) (n_phandle n)
    (n_addr_cells n) (n_size_cells n) l (n_omit_if_unused n) (n_is_referenced n).
Definition n_set_flags (omit ref : bool) (n : node) : node :=
  Node (n_deleted n) (n_name_ n) (n_proplist n) (n_children n) (n_fullpath n) (n_basenamelen n) (n_phandle n)
    (n_addr_cells n) (n_size_cells n) (n_labels n) omit ref.

(** The node at a position, and a change of it. *)
Fixpoint node_at (t : node) (pos : list nat) {struct pos} : option node :=
  match pos with
  | [] => Some t
  | i :: pos => c ← n_children t !! i; node_at c pos
  end.

Fixpoint update_at (t : node) (pos : list nat) (f : node -> node) {struct pos} : node :=
  match pos with
  | [] => f t
  | i :: pos => n_set_children (alter (fun c => update_at c pos f) i (n_children t)) t
  end.

(** The first element with a property, changed. *)
Fixpoint alter_first {A} (p : A -> bool) (f : A -> A) (l : list A) : list A :=
  match l with
  | [] => []
  | x :: l => if p x then f x :: l else x :: alter_first p f l
  end.

(** The index and value of the first element with a property. *)
Fixpoint find_first {A} (p : A -> bool) (l : list A) : option (nat * A) :=
  match l with
  | [] => None
  | x :: l => if p x then Some (O, x) else '(i, y) ← find_first p l; Some (S i, y)
  end.

(** ** Tree building functions *)

Definition add_label (labels : list label) (s : list byte) : list label :=
  (* Make sure the label isn't already there *)
  match find_first (fun l => streq (l_label l) s) labels with
  | Some _ => alter_first (fun l => streq (l_label l) s) (fun l => Label false (l_label l)) labels
  | None => Label false s :: labels
  end.

Definition delete_labels (labels : list label) : list label :=
  map (fun l => Label true (l_label l)) labels.

Definition build_property (name : list byte) (val : data) : property := Property false name val [].

Definition build_property_delete (name : list byte) : property := Property true name empty_data [].

(** [first] with what follows it. *)
Definition chain_property (first rest : list property) : res (list property) :=
  match first with
  | [p] => Ret (p :: rest)
  | [] => Fault Oob
  | _ => Fault Abort
  end.

Fixpoint reverse_properties_ (p head : list property) : list property :=
  match p with
  | [] => head
  | x :: next => reverse_properties_ next (x :: head)
  end.

Definition reverse_properties (first : list property) : list property := reverse_properties_ first [].

Definition build_node (proplist : list property) (children : list node) : node :=
  Node false None (reverse_properties proplist) children [] 0 0 0 0 [] false false.

Definition build_node_delete : node := Node true None [] [] [] 0 0 0 0 [] false false.

Definition name_node (n : node) (name : list byte) : res node :=
  let! _ := c_assert (is_null (n_name_ n)) in
  Ret (n_set_name (Some name) n).

Definition omit_node_if_unused (n : node) : node := n_set_flags true (n_is_referenced n) n.

Definition reference_node (n : node) : node := n_set_flags (n_omit_if_unused n) true n.

Definition chain_node (first rest : list node) : res (list node) :=
  match first with
  | [n] => Ret (n :: rest)
  | [] => Fault Oob
  | _ => Fault Abort
  end.

Definition add_property (n : node) (prop : property) : node := n_set_proplist (n_proplist n ++ [prop]) n.

Definition delete_property (prop : property) : property :=
  Property true (p_name prop) (p_val prop) (delete_labels (p_labels prop)).

Definition delete_property_by_name (n : node) (name : list byte) : node :=
  n_set_proplist (alter_first (fun p => streq (p_name p) name) delete_property (n_proplist n)) n.

Definition add_child (parent child : node) : node := n_set_children (n_children parent ++ [child]) parent.

(** Deletes the live children and properties along with the node. *)
Fixpoint delete_node (n : node) : node :=
  Node true (n_name_ n)
    (map (fun p => if p_deleted p then p else delete_property p) (n_proplist n))
    (map (fun c => if n_deleted c then c else delete_node c) (n_children n))
    (n_fullpath n) (n_basenamelen n) (n_phandle n) (n_addr_cells n) (n_size_cells n)
    (delete_labels (n_labels n)) (n_omit_if_unused n) (n_is_referenced n).

Definition delete_node_by_name (parent : node) (name : list byte) : node :=
  n_set_children (alter_first (fun c => streq (n_name c) name) delete_node (n_children parent)) parent.

(** One property of the new node moved to the old one. *)
Definition merge_property (old_node : node) (new_prop : property) : node :=
  if p_deleted new_prop then delete_property_by_name old_node (p_name new_prop) else
  (* Look for a collision, set new value if there is *)
  let same p := streq (p_name p) (p_name new_prop) in
  match find_first same (n_proplist old_node) with
  | Some _ =>
    n_set_proplist (alter_first same (fun old_prop =>
      Property false (p_name old_prop) (p_val new_prop)
        (fold_left (fun ls l => add_label ls (l_label l)) (p_labels new_prop) (p_labels old_prop)))
      (n_proplist old_node)) old_node
  (* if no collision occurred, add property to the old node. *)
  | None => add_property old_node new_prop
  end.

(** Merge the new node's contents into the old one. *)
Fixpoint merge_nodes (old_node new_node : node) {struct new_node} : node :=
  let old_node := n_set_deleted false old_node in
  (* Add new node labels to old node *)
  let old_node := n_set_labels (fold_left (fun ls l => add_label ls (l_label l)) (n_labels new_node)
    (n_labels old_node)) old_node in
  (* Move properties from the new node to the old node. *)
  let old_node := fold_left merge_property (n_proplist new_node) old_node in
  (* Move the override child nodes into the primary node. *)
  (fix children (old_node : node) (l : list node) : node :=
    match l with
    | [] => old_node
    | new_child :: l =>
      let old_node :=
        if n_deleted new_child then delete_node_by_name old_node (n_name new_child) else
        (* Search for a collision.  Merge if there is *)
        let same c := streq (n_name c) (n_name new_child) in
        match find_first same (n_children old_node) with
        | Some _ => n_set_children (alter_first same (fun old_child => merge_nodes old_child new_child)
            (n_children old_node)) old_node
        (* if no collision occurred, add child to the old node. *)
        | None => add_child old_node new_child
        end in
      children old_node l
    end) old_node (n_children new_node).

(** [next_orphan_fragment] is the function's static counter. *)
Definition add_orphan_node (dt new_node : node) (ref : list byte) (next_orphan_fragment : Z) : res (node * Z) :=
  let! p :=
    if bool_decide (head ref = Some "/"%byte) then
      let d := data_add_marker empty_data TYPE_STRING (Some ref) in
      let! d := data_append_data d (ref ++ [x00]) in
      Ret (build_property (str "target-path") d)
    else
      let d := data_add_marker empty_data REF_PHANDLE (Some ref) in
      let! d := data_append_integer d 4294967295 32 in
      Ret (build_property (str "target") d) in
  let name := str "fragment@" ++ fmt_u next_orphan_fragment in
  let! new_node := name_node new_node (str "__overlay__") in
  let! n := name_node (build_node [p] [new_node]) name in
  Ret (add_child dt n, u32 (next_orphan_fragment + 1)).

(** ** Tree accessor functions *)

Definition get_unitname (n : node) : list byte :=
  drop (Z.to_nat (n_basenamelen n + 1)) (n_name n).

Definition live_prop (name : list byte) (p : property) : bool := negb (p_deleted p) && streq (p_name p) name.

Definition get_property (n : node) (propname : list byte) : option property :=
  snd <$> find_first (live_prop propname) (n_proplist n).

Definition append_to_property (n : node) (name p : list byte) (type : markertype) : res node :=
  match get_property n name with
  | Some prop =>
    let d := data_add_marker (p_val prop) type (Some name) in
    let! d := data_append_data d p in
    Ret (n_set_proplist (alter_first (live_prop name) (fun p => Property (p_deleted p) (p_name p) d (p_labels p))
      (n_proplist n)) n)
  | None =>
    let d := data_add_marker empty_data type (Some name) in
    let! d := data_append_data d p in
    Ret (add_property n (build_property name d))
  end.

Definition build_reserve_entry (address size : Z) : reserve_info := ReserveInfo address size [].

Definition chain_reserve_entry (first rest : list reserve_info) : res (list reserve_info) :=
  match first with
  | [r] => Ret (r :: rest)
  | [] => Fault Oob
  | _ => Fault Abort
  end.

Definition add_reserve_entry (l : list reserve_info) (new : reserve_info) : list reserve_info :=
  l ++ [new].

Definition build_dt_info (flags : Z) (l : list reserve_info) (tree : node) (cpuid : Z) : dt_info :=
  DtInfo flags l cpuid tree.

Definition propval_cell (prop : property) : res Z :=
  let! _ := c_assert (d_len (p_val prop) =? 4) in
  dtb_ld32 (d_val (p_val prop)) 0.

Definition propval_cell_n (prop : property) (n : Z) : res Z :=
  let! _ := c_assert (n <=? d_len (p_val prop) / 4) in
  dtb_ld32 (d_val (p_val prop)) (4 * n).

Definition has_label (labels : list label) (s : list byte) : bool :=
  existsb (fun l => negb (l_deleted l) && streq (l_label l) s) labels.

(** The first live child, in order, in which [f] finds something, with its
    index: the loop [for_each_child(tree, child) if ((x = f(child)))]. *)
Fixpoint first_child {A} (f : node -> option A) (i : nat) (cs : list node) : option (nat * A) :=
  match cs with
  | [] => None
  | c :: cs =>
    if n_deleted c then first_child f (S i) cs else
    match f c with
    | Some a => Some (i, a)
    | None => first_child f (S i) cs
    end
  end.

Definition under {A} (r : option (nat * (list nat * A))) : option (list nat * A) :=
  '(i, (pos, a)) ← r; Some (i :: pos, a).

(** Returns the property, with its index, and through [*node] the position of
    its node. *)
Fixpoint get_property_by_label (tree : node) (label : list byte) : option (list nat * (nat * property)) :=
  match find_first (fun p => negb (p_deleted p) && has_label (p_labels p) label) (n_proplist tree) with
  | Some (i, prop) => Some ([], (i, prop))
  | None => under (first_child (fun c => get_property_by_label c label) 0 (n_children tree))
  end.

Definition label_marker (label : list byte) (m : marker) : bool :=
  bool_decide (m_type m = LABEL) && bool_decide (m_ref m = Some label).

(** Returns the marker and the property, both with their indices. *)
Fixpoint get_marker_label (tree : node) (label : list byte)
    : option (list nat * ((nat * property) * (nat * marker))) :=
  match find_first (fun p => negb (p_deleted p) && existsb (label_marker label) (d_markers (p_val p)))
          (n_proplist tree) with
  | Some (i, prop) =>
    jm ← find_first (label_marker label) (d_markers (p_val prop)); Some ([], ((i, prop), jm))
  | None => under (first_child (fun c => get_marker_label c label) 0 (n_children tree))
  end.

Definition live_child (name : list byte) (c : node) : bool := negb (n_deleted c) && streq (n_name c) name.

(** The child and its index. *)
Definition get_subnode (n : node) (nodename : list byte) : option (nat * node) :=
  find_first (live_child nodename) (n_children n).

Fixpoint skip_slashes (path : list byte) : list byte :=
  match path with
  | "/"%byte :: path => skip_slashes path
  | _ => path
  end.

Fixpoint get_node_by_path (tree : node) (path : list byte) : option (list nat) :=
  match path with
  | [] => if n_deleted tree then None else Some []
  | _ =>
    let path := skip_slashes path in
    let p := split_char "/" path in
    (fix children (i : nat) (cs : list node) : option (list nat) :=
      match cs with
      | [] => None
      | child :: cs =>
        if n_deleted child then children (S i) cs else
        match p with
        | Some (comp, rest) =>
          if streq comp (n_name child) then cons i <$> get_node_by_path child rest else children (S i) cs
        | None => if streq path (n_name child) then Some [i] else children (S i) cs
        end
      end) O (n_children tree)
  end.

Fixpoint get_node_by_label_ (tree : node) (label : list byte) : option (list nat * unit) :=
  if has_label (n_labels tree) label then Some ([], tt)
  else under (first_child (fun c => get_node_by_label_ c label) 0 (n_children tree)).

Definition get_node_by_label (tree : node) (label : list byte) : res (option (list nat)) :=
  let! _ := c_assert (negb (bool_decide (label = []))) in
  Ret (fst <$> get_node_by_label_ tree label).

(** A match in a deleted node ends the search below it. *)
Fixpoint get_node_by_phandle_ (tree : node) (phandle : Z) : option (list nat * unit) :=
  if n_phandle tree =? phandle then (if n_deleted tree then None else Some ([], tt))
  else under (first_child (fun c => get_node_by_phandle_ c phandle) 0 (n_children tree)).

Definition get_node_by_phandle (o : dtc_opts) (tree : node) (phandle : Z) : res (option (list nat)) :=
  if (phandle =? 0) || (phandle =? 4294967295) then
    let! _ := c_assert (generate_fixups o) in Ret None
  else Ret (fst <$> get_node_by_phandle_ tree phandle).

Definition get_node_by_ref (tree : node) (ref : list byte) : res (option (list nat)) :=
  if streq ref (str "/") then Ret (Some [])
  else if bool_decide (head ref = Some "/"%byte) then Ret (get_node_by_path tree ref)
  else get_node_by_label tree ref.

(** [phandle] is the function's static counter; the node is at [pos]. Returns
    the phandle, the tree and the counter. *)
Definition get_node_phandle (o : dtc_opts) (root : node) (pos : list nat) (phandle : Z) : res (Z * node * Z) :=
  let! n := nonnull (node_at root pos) in
  if negb (n_phandle n =? 0) && negb (n_phandle n =? 4294967295) then Ret (n_phandle n, root, phandle) else
  let! phandle := loop (fun phandle =>
    let! r := get_node_by_phandle o root phandle in
    if is_null r then Ret (Break phandle) else Ret (Continue (u32 (phandle + 1)))) phandle in
  let n := n_set_phandle phandle n in
  let d := data_add_marker empty_data TYPE_UINT32 None in
  let! d := data_append_cell d phandle in
  let n :=
    if is_null (get_property n (str "linux,phandle")) && negb (Z.land (phandle_format o) PHANDLE_LEGACY =? 0)
    then add_property n (build_property (str "linux,phandle") d) else n in
  let n :=
    if is_null (get_property n (str "phandle")) && negb (Z.land (phandle_format o) PHANDLE_EPAPR =? 0)
    then add_property n (build_property (str "phandle") d) else n in
  Ret (phandle, update_at root pos (fun _ => n), phandle).

Definition guess_boot_cpuid (tree : node) : res Z :=
  match get_node_by_path tree (str "/cpus") with
  | None => Ret 0
  | Some pos =>
    let! cpus := nonnull (node_at tree pos) in
    match n_children cpus with
    | [] => Ret 0
    | bootcpu :: _ =>
      match get_property bootcpu (str "reg") with
      | None => Ret 0
      | Some reg => if negb (d_len (p_val reg) =? 4) then Ret 0 else propval_cell reg
      end
    end
  end.
