(* ===== verification/DtcFlat.v ===== *)
(** dtc/flattree.c: the flat tree, written as a blob or as assembly through
    one emitter interface, and read back. Warnings on stderr are left out. *)
From S2P Require Import Prelude Monad Ctype Libfdt FdtSpec DtcUtil DtcData DtcTree.

Definition FTF_FULLPATH : Z := 1.
Definition FTF_VARALIGN : Z := 2.
Definition FTF_NAMEPROPS : Z := 4.
Definition FTF_BOOTCPUID : Z := 8.
Definition FTF_STRTABSIZE : Z := 16.
Definition FTF_STRUCTSIZE : Z := 32.
Definition FTF_NOPS : Z := 64.

Record version_info := VersionInfo {
  vi_version : Z;
  vi_last_comp_version : Z;
  vi_hdr_size : Z;
  vi_flags : Z;
}.

Definition version_table : list version_info :=
  [VersionInfo 1 1 FDT_V1_SIZE (Z.lor (Z.lor FTF_FULLPATH FTF_VARALIGN) FTF_NAMEPROPS);
   VersionInfo 2 1 FDT_V2_SIZE
     (Z.lor (Z.lor (Z.lor FTF_FULLPATH FTF_VARALIGN) FTF_NAMEPROPS) FTF_BOOTCPUID);
   VersionInfo 3 1 FDT_V3_SIZE
     (Z.lor (Z.lor (Z.lor (Z.lor FTF_FULLPATH FTF_VARALIGN) FTF_NAMEPROPS) FTF_BOOTCPUID) FTF_STRTABSIZE);
   VersionInfo 16 16 FDT_V3_SIZE (Z.lor (Z.lor FTF_BOOTCPUID FTF_STRTABSIZE) FTF_NOPS);
   VersionInfo 17 16 FDT_V17_SIZE
     (Z.lor (Z.lor (Z.lor FTF_BOOTCPUID FTF_STRTABSIZE) FTF_STRUCTSIZE) FTF_NOPS)].

Definition has_flag (flags f : Z) : bool := negb (Z.land flags f =? 0).

(** ** The emitter interface *)

(** [struct emitter]: the operations on a target [T]. A string of length 0 is
    measured, so an empty length means the whole string. *)
Record emitter (T : Type) := Emitter {
  e_cell : T -> Z -> res T;
  e_string : T -> list byte -> Z -> res T;
  e_align : T -> Z -> res T;
  e_data : T -> data -> res T;
  e_beginnode : T -> list label -> res T;
  e_endnode : T -> list label -> res T;
  e_property : T -> list label -> res T;
}.
Arguments Emitter {T}.
Arguments e_cell {T}.
Arguments e_string {T}.
Arguments e_align {T}.
Arguments e_data {T}.
Arguments e_beginnode {T}.
Arguments e_endnode {T}.
Arguments e_property {T}.

(** *** Binary *)

Definition bin_emit_cell (e : data) (val : Z) : res data := data_append_cell e val.

Definition bin_emit_string (e : data) (s : list byte) (len : Z) : res data :=
  let len := if len =? 0 then zlen s else len in
  let! p := bytes_from (s ++ [x00]) 0 (Z.to_nat len) in
  let! e := data_append_data e p in
  data_append_byte e x00.

Definition bin_emit_align (e : data) (a : Z) : res data := data_append_align e a.

Definition bin_emit_data (e : data) (d : data) : res data := data_append_data e (d_val d).

Definition bin_emit_beginnode (e : data) (labels : list label) : res data := bin_emit_cell e FDT_BEGIN_NODE.

Definition bin_emit_endnode (e : data) (labels : list label) : res data := bin_emit_cell e FDT_END_NODE.

Definition bin_emit_property (e : data) (labels : list label) : res data := bin_emit_cell e FDT_PROP.

Definition bin_emitter : emitter data :=
  Emitter bin_emit_cell bin_emit_string bin_emit_align bin_emit_data bin_emit_beginnode bin_emit_endnode
    bin_emit_property.

(** *** Assembly: the target is the text so far *)

Definition emit_label (f prefix label : list byte) : list byte :=
  f ++ tab :: str ".globl" ++ tab :: prefix ++ "_"%byte :: label ++ nl ::
  prefix ++ "_"%byte :: label ++ ":"%byte :: nl ::
  "_"%byte :: prefix ++ "_"%byte :: label ++ ":"%byte :: [nl].

Definition emit_offset_label (f label : list byte) (offset : Z) : list byte :=
  f ++ tab :: str ".globl" ++ tab :: label ++ nl :: label ++ tab :: str "= . + " ++ fmt_d offset ++ [nl].

(** [ASM_EMIT_BELONG] with its formatted argument. *)
Definition asm_emit_belong (f arg : list byte) : list byte :=
  f ++ tab :: str ".byte" ++ tab :: str "((" ++ arg ++ str ") >> 24) & 0xff" ++ nl ::
  tab :: str ".byte" ++ tab :: str "((" ++ arg ++ str ") >> 16) & 0xff" ++ nl ::
  tab :: str ".byte" ++ tab :: str "((" ++ arg ++ str ") >> 8) & 0xff" ++ nl ::
  tab :: str ".byte" ++ tab :: str "(" ++ arg ++ str ") & 0xff" ++ [nl].

Definition asm_byte_of (val k : Z) : list byte :=
  str ".byte 0x" ++ fmt_x 2 (Z.land (Z.shiftr val k) 255).

Definition asm_emit_cell (f : list byte) (val : Z) : res (list byte) :=
  Ret (f ++ tab :: asm_byte_of val 24 ++ str "; " ++ asm_byte_of val 16 ++ str "; " ++
       asm_byte_of val 8 ++ str "; " ++ asm_byte_of val 0 ++ [nl]).

Definition asm_emit_string (f s : list byte) (len : Z) : res (list byte) :=
  let s := if negb (len =? 0) then take (Z.to_nat len) s else s in
  Ret (f ++ tab :: str ".string" ++ tab :: quote :: s ++ [quote; nl]).

Definition asm_emit_align (f : list byte) (a : Z) : res (list byte) :=
  Ret (f ++ tab :: str ".balign" ++ tab :: fmt_d a ++ str ", 0" ++ [nl]).

(** The whole words of the data, then its last bytes. *)
Fixpoint asm_emit_words (fuel : nat) (f v : list byte) : res (list byte) :=
  match fuel with
  | O => Ret f
  | S fuel =>
    match v with
    | _ :: _ :: _ :: _ :: v' =>
      let! w := dtb_ld32 v 0 in
      let! f := asm_emit_cell f w in
      asm_emit_words fuel f v'
    | _ => Ret (fold_left (fun f b => f ++ tab :: str ".byte" ++ tab :: str "0x" ++ fmt_x 1 (b2z b) ++ [nl]) v f)
    end
  end.

Definition asm_emit_data (f : list byte) (d : data) : res (list byte) :=
  let! f := fold_left (fun r m => let! f := r in
    if bool_decide (m_type m = LABEL) then
      let! ref := nonnull (m_ref m) in Ret (emit_offset_label f ref (s32 (m_offset m)))
    else Ret f) (d_markers d) (Ret f) in
  asm_emit_words (S (length (d_val d))) f (d_val d).

(** The labels in front of a node or property, and behind a node. *)
Definition asm_labels (suffix : list byte) (f : list byte) (labels : list label) : list byte :=
  fold_left (fun f l => if l_deleted l then f else
    f ++ tab :: str ".globl" ++ tab :: l_label l ++ suffix ++ nl :: l_label l ++ suffix ++ ":"%byte :: [nl])
    labels f.

Definition asm_emit_beginnode (f : list byte) (labels : list label) : res (list byte) :=
  asm_emit_cell (asm_labels [] f labels ++ tab :: str "/* FDT_BEGIN_NODE */" ++ [nl]) FDT_BEGIN_NODE.

Definition asm_emit_endnode (f : list byte) (labels : list label) : res (list byte) :=
  let! f := asm_emit_cell (f ++ tab :: str "/* FDT_END_NODE */" ++ [nl]) FDT_END_NODE in
  Ret (asm_labels (str "_end") f labels).

Definition asm_emit_property (f : list byte) (labels : list label) : res (list byte) :=
  asm_emit_cell (asm_labels [] f labels ++ tab :: str "/* FDT_PROP */" ++ [nl]) FDT_PROP.

Definition asm_emitter : emitter (list byte) :=
  Emitter asm_emit_cell asm_emit_string asm_emit_align asm_emit_data asm_emit_beginnode asm_emit_endnode
    asm_emit_property.

(** ** Flattening *)

(** [streq(s, p)] for the string that starts at [p]. *)
Fixpoint streq_at (s p : list byte) : res bool :=
  match s, p with
  | _, [] => Fault Oob
  | [], c :: _ => Ret (bool_decide (c = x00))
  | x :: s, c :: p => if bool_decide (x = c) then streq_at s p else Ret false
  end.

(** The loop over the start [i] of every suffix of the string table. *)
Fixpoint stringtable_find (s p : list byte) (i : Z) : res (option Z) :=
  match p with
  | [] => Ret None
  | _ :: p' => let! b := streq_at s p in if b : bool then Ret (Some i) else stringtable_find s p' (i + 1)
  end.

(** Returns the offset and the table. *)
Definition stringtable_insert (d : data) (s : list byte) : res (Z * data) :=
  let! r := stringtable_find s (d_val d) 0 in
  match r with
  | Some i => Ret (s32 i, d)
  | None => let! d' := data_append_data d (s ++ [x00]) in Ret (s32 (d_len d), d')
  end.

Section flatten.
Context {T : Type} (emit : emitter T) (vi : version_info).

(** One property of a node. *)
Definition flatten_prop (st : T * data) (prop : property) : res (T * data) :=
  let '(e, strbuf) := st in
  let! '(nameoff, strbuf) := stringtable_insert strbuf (p_name prop) in
  let! e := e_property emit e (p_labels prop) in
  let! e := e_cell emit e (d_len (p_val prop)) in
  let! e := e_cell emit e (u32 nameoff) in
  let! e := if has_flag (vi_flags vi) FTF_VARALIGN && (8 <=? d_len (p_val prop))
            then e_align emit e 8 else Ret e in
  let! e := e_data emit e (p_val prop) in
  let! e := e_align emit e 4 in
  Ret (e, strbuf).

Fixpoint flatten_props (st : T * data) (props : list property) : res (T * data) :=
  match props with
  | [] => Ret st
  | p :: props =>
    if p_deleted p then flatten_props st props else
    let! st := flatten_prop st p in flatten_props st props
  end.

Definition seen_name_prop (n : node) : bool :=
  existsb (fun p => negb (p_deleted p) && streq (p_name p) (str "name")) (n_proplist n).

(** The "name" property old versions want. *)
Definition flatten_name (st : T * data) (n : node) : res (T * data) :=
  let '(e, strbuf) := st in
  let! e := e_property emit e [] in
  let! e := e_cell emit e (u32 (n_basenamelen n + 1)) in
  let! '(nameoff, strbuf) := stringtable_insert strbuf (str "name") in
  let! e := e_cell emit e (u32 nameoff) in
  let! e := if has_flag (vi_flags vi) FTF_VARALIGN && (8 <=? n_basenamelen n + 1)
            then e_align emit e 8 else Ret e in
  let! e := e_string emit e (n_name n) (n_basenamelen n) in
  let! e := e_align emit e 4 in
  Ret (e, strbuf).

Fixpoint flatten_tree (tree : node) (st : T * data) {struct tree} : res (T * data) :=
  if n_deleted tree then Ret st else
  let '(e, strbuf) := st in
  let! e := e_beginnode emit e (n_labels tree) in
  let! e := if has_flag (vi_flags vi) FTF_FULLPATH then e_string emit e (n_fullpath tree) 0
            else e_string emit e (n_name tree) 0 in
  let! e := e_align emit e 4 in
  let! st := flatten_props (e, strbuf) (n_proplist tree) in
  let! st := if has_flag (vi_flags vi) FTF_NAMEPROPS && negb (seen_name_prop tree)
             then flatten_name st tree else Ret st in
  let! '(e, strbuf) :=
    (fix children (st : T * data) (cs : list node) : res (T * data) :=
      match cs with
      | [] => Ret st
      | child :: cs =>
        if n_deleted child then children st cs else
        let! st := flatten_tree child st in children st cs
      end) st (n_children tree) in
  let! e := e_endnode emit e (n_labels tree) in
  Ret (e, strbuf).
End flatten.

(** ** The blob *)

Definition flatten_reserve_list (o : dtc_opts) (l : list reserve_info) : res data :=
  let! d := fold_left (fun r re => let! d := r in data_append_re d (rs_address re) (rs_size re)) l (Ret empty_data) in
  (* Add additional reserved slots if the user asked for them. *)
  fold_left (fun r _ => let! d := r in data_append_re d 0 0) (replicate (Z.to_nat (reservenum o)) tt) (Ret d).

(** The words of [struct fdt_header]; 0xffffffff where nothing is set. *)
Definition make_fdt_header (vi : version_info) (reservesize dtsize strsize boot_cpuid_phys : Z) : res header :=
  let reservesize := s32 (reservesize + sizeof_fdt_reserve_entry) in
  (* Reserve map should be doubleword aligned *)
  let reserve_off := s32 (ALIGN (vi_hdr_size vi) 8) in
  let! off_dt_struct := sint (reserve_off + reservesize) in
  let! off_dt_strings := sint (off_dt_struct + dtsize) in
  let! totalsize := sint (off_dt_strings + strsize) in
  let flag f v := if has_flag (vi_flags vi) f then u32 v else 4294967295 in
  Ret (Header FDT_MAGIC (u32 totalsize) (u32 off_dt_struct) (u32 off_dt_strings) (u32 reserve_off)
    (vi_version vi) (vi_last_comp_version vi) (flag FTF_BOOTCPUID boot_cpuid_phys)
    (flag FTF_STRTABSIZE strsize) (flag FTF_STRUCTSIZE dtsize)).

(** The header in memory, all ten words. *)
Definition header_bytes (h : header) : list byte :=
  flat_map be_enc32 [h_magic h; h_totalsize h; h_off_struct h; h_off_strings h; h_off_rsv h;
    h_version h; h_last_comp h; h_cpuid h; h_size_strings h; h_size_struct h].

Definition set_totalsize (h : header) (v : Z) : header :=
  Header (h_magic h) v (h_off_struct h) (h_off_strings h) (h_off_rsv h) (h_version h) (h_last_comp h)
    (h_cpuid h) (h_size_strings h) (h_size_struct h).

(** The padding the options ask for. *)
Definition blob_padlen (o : dtc_opts) (totalsize : Z) : Z :=
  let padlen :=
    if 0 <? minsize o then
      let padlen := s32 (u32 (minsize o - totalsize)) in
      if padlen <? 0 then 0 else padlen
    else 0 in
  let padlen := if 0 <? padsize o then padsize o else padlen in
  if 0 <? alignsize o then s32 (u32 (ALIGN (u32 (totalsize + padlen)) (alignsize o) - totalsize)) else padlen.

(** If the user asked for more space than is used, adjust the totalsize. *)
Definition pad_totalsize (fdt : header) (padlen : Z) : res header :=
  if 0 <? padlen then
    let! tsize := sint (s32 (h_totalsize fdt) + padlen) in
    Ret (set_totalsize fdt (u32 tsize))
  else Ret fdt.

(** Assemble the blob: the header, with alignment the reserve buffer, the
    terminating zeroes, the tree, the strings and the padding. *)
Definition assemble_blob (hdr_size : Z) (fdt : header) (reservebuf dtbuf strbuf : data) (padlen : Z) : res data :=
  let! p := bytes_from (header_bytes fdt) 0 (Z.to_nat hdr_size) in
  let! blob := data_append_data empty_data p in
  let! blob := data_append_align blob 8 in
  let! blob := data_merge blob reservebuf in
  let! blob := data_append_zeroes blob sizeof_fdt_reserve_entry in
  let! blob := data_merge blob dtbuf in
  let! blob := data_merge blob strbuf in
  if 0 <? padlen then data_append_zeroes blob padlen else Ret blob.

(** Returns what is written to the file. *)
Definition dt_to_blob (o : dtc_opts) (dti : dt_info) (version : Z) : res (list byte) :=
  match find_first (fun vi => vi_version vi =? version) version_table with
  | None => Fault Die
  | Some (_, vi) =>
    let! '(dtbuf, strbuf) := flatten_tree bin_emitter vi (dt dti) (empty_data, empty_data) in
    let! dtbuf := bin_emit_cell dtbuf FDT_END in
    let! reservebuf := flatten_reserve_list o (reservelist dti) in
    (* Make header *)
    let! fdt := make_fdt_header vi (s32 (d_len reservebuf)) (s32 (d_len dtbuf)) (s32 (d_len strbuf))
      (s32 (boot_cpuid_phys dti)) in
    let padlen := blob_padlen o (h_totalsize fdt) in
    let! fdt := pad_totalsize fdt padlen in
    let! blob := assemble_blob (vi_hdr_size vi) fdt reservebuf dtbuf strbuf padlen in
    Ret (d_val blob)
  end.

(** ** Assembly *)

Fixpoint dump_stringtable_asm (fuel : nat) (f p : list byte) : list byte :=
  match fuel, p with
  | S fuel, _ :: _ =>
    match split_char x00 p with
    | Some (s, rest) => dump_stringtable_asm fuel (f ++ tab :: str ".string " ++ quote :: s ++ [quote; nl]) rest
    | None => f
    end
  | _, _ => f
  end.

Definition comment_line (s : list byte) : list byte := tab :: str "/* " ++ s ++ str " */" ++ [nl].

(** The difference of two of the file's labels. *)
Definition label_diff (a b : list byte) : list byte := str "_dt_" ++ a ++ str " - _dt_" ++ b.

Definition asm_hex8 (v : Z) : list byte := str "0x" ++ fmt_x 8 v.

Definition asm_reserve_entry (f : list byte) (re : reserve_info) : list byte :=
  let f := asm_labels [] f (rs_labels re) in
  let f := asm_emit_belong f (asm_hex8 (Z.shiftr (rs_address re) 32)) in
  let f := asm_emit_belong f (asm_hex8 (Z.land (rs_address re) 4294967295)) in
  let f := asm_emit_belong f (asm_hex8 (Z.shiftr (rs_size re) 32)) in
  asm_emit_belong f (asm_hex8 (Z.land (rs_size re) 4294967295)).

Definition asm_zero_entry : list byte :=
  tab :: str ".long" ++ tab :: str "0, 0" ++ nl :: tab :: str ".long" ++ tab :: str "0, 0" ++ [nl].

Definition dt_to_asm (o : dtc_opts) (dti : dt_info) (version : Z) : res (list byte) :=
  match find_first (fun vi => vi_version vi =? version) version_table with
  | None => Fault Die
  | Some (_, vi) =>
    let dtl := str "dt" in
    let f := str "/* autogenerated by dtc, do not edit */" ++ [nl; nl] in
    let f := emit_label f dtl (str "blob_start") in
    let f := emit_label f dtl (str "header") in
    let! f := asm_emit_cell (f ++ comment_line (str "magic")) FDT_MAGIC in
    let f := asm_emit_belong (f ++ comment_line (str "totalsize")) (label_diff (str "blob_abs_end") (str "blob_start")) in
    let f := asm_emit_belong (f ++ comment_line (str "off_dt_struct")) (label_diff (str "struct_start") (str "blob_start")) in
    let f := asm_emit_belong (f ++ comment_line (str "off_dt_strings")) (label_diff (str "strings_start") (str "blob_start")) in
    let f := asm_emit_belong (f ++ comment_line (str "off_mem_rsvmap")) (label_diff (str "reserve_map") (str "blob_start")) in
    let! f := asm_emit_cell (f ++ comment_line (str "version")) (vi_version vi) in
    let! f := asm_emit_cell (f ++ comment_line (str "last_comp_version")) (vi_last_comp_version vi) in
    let! f := if has_flag (vi_flags vi) FTF_BOOTCPUID
      then asm_emit_cell (f ++ comment_line (str "boot_cpuid_phys")) (boot_cpuid_phys dti) else Ret f in
    let f := if has_flag (vi_flags vi) FTF_STRTABSIZE
      then asm_emit_belong (f ++ comment_line (str "size_dt_strings")) (label_diff (str "strings_end") (str "strings_start")) else f in
    let f := if has_flag (vi_flags vi) FTF_STRUCTSIZE
      then asm_emit_belong (f ++ comment_line (str "size_dt_struct")) (label_diff (str "struct_end") (str "struct_start")) else f in
    (* Reserve map entries. *)
    let! f := asm_emit_align f 8 in
    let f := emit_label f dtl (str "reserve_map") in
    let f := f ++ str "/* Memory reserve map from source file */" ++ [nl] in
    let f := fold_left asm_reserve_entry (reservelist dti) f in
    let f := f ++ concat (replicate (Z.to_nat (u32 (reservenum o))) asm_zero_entry) ++ asm_zero_entry in
    let f := emit_label f dtl (str "struct_start") in
    let! '(f, strbuf) := flatten_tree asm_emitter vi (dt dti) (f, empty_data) in
    let! f := asm_emit_cell (f ++ comment_line (str "FDT_END")) FDT_END in
    let f := emit_label f dtl (str "struct_end") in
    let f := emit_label f dtl (str "strings_start") in
    let f := dump_stringtable_asm (length (d_val strbuf)) f (d_val strbuf) in
    let f := emit_label f dtl (str "strings_end") in
    let f := emit_label f dtl (str "blob_end") in
    (* If the user asked for more space than is used, pad it out. *)
    let f := if 0 <? minsize o
      then f ++ tab :: str ".space" ++ tab :: fmt_d (minsize o) ++ str " - (_dt_blob_end - _dt_blob_start), 0" ++ [nl] else f in
    let f := if 0 <? padsize o then f ++ tab :: str ".space" ++ tab :: fmt_d (padsize o) ++ str ", 0" ++ [nl] else f in
    let! f := if 0 <? alignsize o then asm_emit_align f (alignsize o) else Ret f in
    Ret (emit_label f dtl (str "blob_abs_end"))
  end.
