(* ===== verification/DtcRegex.v ===== *)
(** The regular expressions of a scanner and the rule by which flex picks a
    match: the longest, and among those the first rule of the file. *)
From S2P Require Import Prelude Monad.

(** ** Expressions *)

(** A class is a list of ranges, or what is in none of them. *)
Inductive regex :=
| Void
| Eps
| Class (neg : bool) (ranges : list (byte * byte))
| Seq (r s : regex)
| Alt (r s : regex)
| Star (r : regex).

#[export] Instance regex_eq_dec : EqDecision regex.
Proof. solve_decision. Defined.

Definition in_class (neg : bool) (l : list (byte * byte)) (c : byte) : bool :=
  xorb neg (existsb (fun '(a, b) => (b2z a <=? b2z c) && (b2z c <=? b2z b)) l).

(** The strings an expression matches. *)
Inductive matches : regex -> list byte -> Prop :=
| m_eps : matches Eps []
| m_class neg l c : in_class neg l c = true -> matches (Class neg l) [c]
| m_seq r s a b : matches r a -> matches s b -> matches (Seq r s) (a ++ b)
| m_alt_l r s a : matches r a -> matches (Alt r s) a
| m_alt_r r s a : matches s a -> matches (Alt r s) a
| m_star_nil r : matches (Star r) []
| m_star_cons r a b : matches r a -> matches (Star r) b -> matches (Star r) (a ++ b).

Fixpoint nullable (r : regex) : bool :=
  match r with
  | Void | Class _ _ => false
  | Eps | Star _ => true
  | Seq r s => nullable r && nullable s
  | Alt r s => nullable r || nullable s
  end.

(** [Seq] and [Alt] up to the laws that keep derivatives few. *)
Fixpoint seq_ (r s : regex) : regex :=
  match r with
  | Void => Void
  | Eps => s
  | Seq a b => Seq a (seq_ b s)
  | _ => match s with Void => Void | _ => Seq r s end
  end.

Fixpoint alt_mem (r s : regex) : bool :=
  match s with
  | Alt a b => bool_decide (r = a) || alt_mem r b
  | _ => bool_decide (r = s)
  end.

Fixpoint alt_ (r s : regex) : regex :=
  match r with
  | Void => s
  | Alt a b => alt_ a (alt_ b s)
  | _ => match s with Void => r | _ => if alt_mem r s then s else Alt r s end
  end.

(** What is left to match behind [c]. *)
Fixpoint deriv (c : byte) (r : regex) : regex :=
  match r with
  | Void | Eps => Void
  | Class neg l => if in_class neg l c then Eps else Void
  | Seq r s => if nullable r then alt_ (seq_ (deriv c r) s) (deriv c s) else seq_ (deriv c r) s
  | Alt r s => alt_ (deriv c r) (deriv c s)
  | Star r => seq_ (deriv c r) (Star r)
  end.

Lemma nullable_ok r : nullable r = true <-> matches r [].
Proof.
  split.
  - induction r; cbn; intros H; try discriminate.
    + constructor.
    + apply andb_true_iff in H as [H1 H2]. change (@nil byte) with (@nil byte ++ []). constructor; auto.
    + apply orb_true_iff in H as [H|H]; [apply m_alt_l|apply m_alt_r]; auto.
    + constructor.
  - intros H. remember [] as w eqn:E. induction H; cbn; try done.
    + apply app_eq_nil in E as [-> ->]. by rewrite IHmatches1, IHmatches2.
    + by rewrite IHmatches.
    + rewrite IHmatches by done. apply orb_true_r.
Qed.

Lemma matches_void w : ~ matches Void w.
Proof. intros H. inversion H. Qed.

Lemma matches_eps w : matches Eps w <-> w = [].
Proof. split; [intros H; by inversion H|intros ->; constructor]. Qed.

Lemma matches_seq r s w : matches (Seq r s) w <-> exists a b, w = a ++ b /\ matches r a /\ matches s b.
Proof.
  split; [intros H; inversion H; subst; eauto|]. intros (a & b & -> & H1 & H2). by constructor.
Qed.

Lemma matches_alt r s w : matches (Alt r s) w <-> matches r w \/ matches s w.
Proof.
  split; [intros H; inversion H; subst; eauto|]. intros [H|H]; [by apply m_alt_l|by apply m_alt_r].
Qed.

Lemma matches_seq_void r w : ~ matches (Seq r Void) w.
Proof. rewrite matches_seq. by intros (a & b & _ & _ & H%matches_void). Qed.

Lemma seq_ok r s w : matches (seq_ r s) w <-> matches (Seq r s) w.
Proof.
  revert w. induction r as [| |neg l|a IHa b IHb|a _ b _|a _]; intros w; cbn [seq_];
    try (destruct s; try done; split; [intros H; by apply matches_void in H|intros H; by apply matches_seq_void in H]).
  - rewrite matches_seq. split; [intros H; by apply matches_void in H|]. by intros (a & b & _ & H%matches_void & _).
  - rewrite matches_seq. split.
    + intros H. exists [], w. by rewrite matches_eps.
    + intros (a & b & -> & ->%matches_eps & H). done.
  - rewrite !matches_seq. split.
    + intros (x & y & -> & H1 & (y1 & y2 & -> & H2 & H3)%IHb%matches_seq).
      exists (x ++ y1), y2. rewrite matches_seq, app_assoc. split_and!; eauto.
    + intros (x & y & -> & (x1 & x2 & -> & H1 & H2)%matches_seq & H3).
      exists x1, (x2 ++ y). rewrite app_assoc. split_and!; [done..|]. apply IHb. by constructor.
Qed.

Lemma alt_mem_ok r s w : alt_mem r s = true -> matches r w -> matches s w.
Proof.
  induction s; cbn; intros H Hr; try (apply bool_decide_eq_true in H; by subst).
  apply orb_true_iff in H as [H%bool_decide_eq_true|H]; [subst; by apply m_alt_l|apply m_alt_r; auto].
Qed.

Lemma alt_ok r s w : matches (alt_ r s) w <-> matches r w \/ matches s w.
Proof.
  assert (Hb : forall r s, matches (match s with Void => r | _ => if alt_mem r s then s else Alt r s end) w <->
                           matches r w \/ matches s w).
  { intros r' s'. destruct s' eqn:Es; try (destruct (alt_mem r' _) eqn:Em; [|apply matches_alt];
      split; [by right|intros [H|H]; [by eapply alt_mem_ok|done]]).
    split; [by left|intros [H|H]; [done|by apply matches_void in H]]. }
  revert s. induction r; intros s'; cbn [alt_]; try apply Hb.
  - split; [by right|intros [H|H]; [by apply matches_void in H|done]].
  - rewrite IHr1, IHr2, matches_alt. tauto.
Qed.

Lemma matches_star_cons r c w : matches (Star r) (c :: w) <->
  exists a b, w = a ++ b /\ matches r (c :: a) /\ matches (Star r) b.
Proof.
  split.
  - intros H. remember (Star r) as e eqn:Ee. remember (c :: w) as v eqn:Ev. revert w Ev.
    induction H as [| | | | | |r' a b Ha IHa Hb IHb]; intros w Ev; try done. injection Ee as ->.
    destruct a as [|c' a]; cbn in Ev; [by apply IHb|]. injection Ev as -> <-. eauto.
  - intros (a & b & -> & Ha & Hb). by apply (m_star_cons _ (c :: a)).
Qed.

Lemma deriv_ok c r w : matches (deriv c r) w <-> matches r (c :: w).
Proof.
  revert w. induction r as [| |neg l|r IHr s IHs|r IHr s IHs|r IHr]; intros w; cbn [deriv].
  - split; intros H; inversion H.
  - split; intros H; inversion H.
  - destruct (in_class neg l c) eqn:E; split; intros H; inversion H; subst; try congruence; by constructor.
  - assert (Hs : matches (Seq r s) (c :: w) <->
      matches (Seq (deriv c r) s) w \/ (nullable r = true /\ matches (deriv c s) w)).
    { rewrite !matches_seq. split.
      - intros ([|c' a] & b & E & Ha & Hb); cbn in E.
        + right. subst b. by rewrite nullable_ok, IHs.
        + injection E as <- ->. left. exists a, b. by rewrite IHr.
      - intros [(a & b & -> & Ha%IHr & Hb)|[Hr%nullable_ok Hb%IHs]]; [exists (c :: a), b|exists [], (c :: w)]; done. }
    rewrite Hs. destruct (nullable r); [rewrite alt_ok, seq_ok; tauto|rewrite seq_ok].
    split; [by left|]. by intros [H|[? _]].
  - by rewrite alt_ok, IHr, IHs, matches_alt.
  - rewrite seq_ok, matches_seq, matches_star_cons. split; intros (a & b & -> & Ha & Hb); exists a, b; by rewrite IHr in *.
Qed.

(** ** The longest match *)

(** The first rule that has matched. *)
Fixpoint accepts (k : nat) (rs : list regex) : option nat :=
  match rs with
  | [] => None
  | r :: rs => if nullable r then Some k else accepts (S k) rs
  end.

Definition dead (rs : list regex) : bool := forallb (fun r => bool_decide (r = Void)) rs.

(** [n] characters are behind, and [best] is the match so far: a rule and a
    length. *)
Fixpoint scan (rs : list regex) (s : list byte) (n : nat) (best : option (nat * nat)) : option (nat * nat) :=
  let best := match accepts 0 rs with Some k => Some (k, n) | None => best end in
  match s with
  | [] => best
  | c :: s => let rs := map (deriv c) rs in if dead rs then best else scan rs s (S n) best
  end.

Definition longest (rs : list regex) (s : list byte) : option (nat * nat) := scan rs s 0 None.

(** The rule [k] matches [w], and no rule before it does. *)
Definition first_match (rs : list regex) (w : list byte) (k : nat) : Prop :=
  (exists r, rs !! k = Some r /\ matches r w) /\
  forall j r, (j < k)%nat -> rs !! j = Some r -> ~ matches r w.

(** Some rule matches. *)
Definition some_match (rs : list regex) (w : list byte) : Prop := exists k, first_match rs w k.

Lemma first_match_deriv rs c w k : first_match (map (deriv c) rs) w k <-> first_match rs (c :: w) k.
Proof.
  unfold first_match. setoid_rewrite list_lookup_fmap. split.
  - intros [(r & Hr & Hm) Hj]. apply fmap_Some in Hr as (r0 & Hr & ->). split; [by exists r0; rewrite <-deriv_ok|].
    intros j r Hlt E Hc. apply (Hj j (deriv c r) Hlt); [by rewrite E|by apply deriv_ok].
  - intros [(r & Hr & Hm) Hj]. split; [exists (deriv c r); rewrite Hr, deriv_ok; done|].
    intros j r' Hlt E Hc. apply fmap_Some in E as (r0 & E & ->). apply (Hj j r0 Hlt E). by apply deriv_ok.
Qed.

Lemma accepts_ok rs k0 :
  match accepts k0 rs with
  | Some k => exists i, k = (k0 + i)%nat /\ first_match rs [] i
  | None => forall r, r ∈ rs -> ~ matches r []
  end.
Proof.
  revert k0. induction rs as [|r rs IH]; intros k0; cbn [accepts]; [by intros r ?%not_elem_of_nil|].
  destruct (nullable r) eqn:E.
  - exists 0%nat. split; [lia|]. split; [exists r; by rewrite <-nullable_ok|]. intros j ? Hj. lia.
  - assert (Hn : ~ matches r []) by (rewrite <-nullable_ok; congruence).
    specialize (IH (S k0)). destruct (accepts (S k0) rs) as [k|].
    + destruct IH as (i & -> & (r' & Hr' & Hm) & Hj). exists (S i). split; [lia|]. split; [by exists r'|].
      intros [|j] r0 Hlt E0; [by injection E0 as <-|]. apply (Hj j); [lia|done].
    + intros r' [->|H]%elem_of_cons; [done|by apply IH].
Qed.

Lemma first_match_det rs w k k' : first_match rs w k -> first_match rs w k' -> k = k'.
Proof.
  intros [(r & Hr & Hm) Hj] [(r' & Hr' & Hm') Hj'].
  destruct (Nat.lt_total k k') as [H|[H|H]]; [by destruct (Hj' _ _ H Hr)|done|by destruct (Hj _ _ H Hr')].
Qed.

Lemma some_match_in rs w : some_match rs w <-> exists r, r ∈ rs /\ matches r w.
Proof.
  split; [intros (k & (r & Hr & Hm) & _); exists r; eauto using list_elem_of_lookup_2|].
  revert rs. induction w as [|c w IH]; intros rs (r & Hr & Hm).
  - pose proof (accepts_ok rs 0) as Ha. destruct (accepts 0 rs) as [k|]; [|by destruct (Ha r)].
    destruct Ha as (i & _ & H). by exists i.
  - destruct (IH (map (deriv c) rs)) as [k Hk]; [|exists k; by apply first_match_deriv].
    exists (deriv c r). rewrite deriv_ok. split; [by apply list_elem_of_fmap_2|done].
Qed.

Lemma dead_ok rs w : dead rs = true -> ~ some_match rs w.
Proof.
  unfold dead. rewrite forallb_forall, some_match_in. intros H (r & Hr & Hm).
  specialize (H r). rewrite <-list_elem_of_In, bool_decide_eq_true in H. rewrite (H Hr) in Hm. by apply matches_void in Hm.
Qed.

(** The rule [k] matches the first [n] characters, and nothing matches more. *)
Definition longest_match (rs : list regex) (s : list byte) (k n : nat) : Prop :=
  (n <= length s)%nat /\ first_match rs (take n s) k /\
  forall m, (n < m <= length s)%nat -> ~ some_match rs (take m s).

Lemma scan_ok rs s n best :
  (exists k m, longest_match rs s k m /\ scan rs s n best = Some (k, n + m)%nat) \/
  (forall m, (m <= length s)%nat -> ~ some_match rs (take m s)) /\ scan rs s n best = best.
Proof.
  revert rs n best. induction s as [|c s IH]; intros rs n best; cbn [scan]; pose proof (accepts_ok rs 0) as Ha;
    set (best' := match accepts 0 rs with Some k => Some (k, n) | None => best end) in *.
  - unfold best'. destruct (accepts 0 rs) as [k|]; [left|right].
    + destruct Ha as (i & -> & Hi). exists i, 0%nat. split; [|f_equal; f_equal; lia].
      split_and!; [done|done|cbn; lia].
    + split; [|done]. intros [|m] Hm; [|cbn in Hm; lia]. rewrite some_match_in. intros (r & Hr & ?). by apply (Ha r).
  - assert (Hnone : (forall m, (m <= length s)%nat -> ~ some_match (map (deriv c) rs) (take m s)) ->
      (exists k m, longest_match rs (c :: s) k m /\ best' = Some (k, n + m)%nat) \/
      (forall m, (m <= length (c :: s))%nat -> ~ some_match rs (take m (c :: s))) /\ best' = best).
    { intros Hno. assert (Hlong : forall m, (0 < m <= length (c :: s))%nat -> ~ some_match rs (take m (c :: s))).
      { intros [|m] Hm; cbn in *; [lia|]. intros [k Hk]. apply (Hno m); [lia|]. exists k. by apply first_match_deriv. }
      unfold best'. destruct (accepts 0 rs) as [k|].
      - destruct Ha as (i & -> & Hi). left. exists i, 0%nat. split; [|f_equal; f_equal; lia].
        split_and!; [cbn; lia|done|exact Hlong].
      - right. split; [|done]. intros [|m] Hm; [|apply Hlong; lia].
        rewrite some_match_in. intros (r & Hr & ?). by apply (Ha r). }
    destruct (dead (map (deriv c) rs)) eqn:Ed; [apply Hnone; intros m _; by apply dead_ok|].
    destruct (IH (map (deriv c) rs) (S n) best') as [(k & m & (Hm & Hf & Hl) & ->)|[Hno ->]]; [|by apply Hnone].
    left. exists k, (S m). split; [|f_equal; f_equal; lia].
    split_and!; [cbn; lia|by apply first_match_deriv|].
    intros [|m'] Hm'; cbn in *; [lia|]. intros [j Hj]. apply (Hl m'); [lia|]. exists j. by apply first_match_deriv.
Qed.

(** [longest] finds the longest match of the first rule that has it. *)
Lemma longest_ok rs s k n : longest rs s = Some (k, n) <-> longest_match rs s k n.
Proof.
  destruct (scan_ok rs s 0 None) as [(k' & m & Hm & E)|[Hno E]]; unfold longest; rewrite E; cbn.
  - split; [by intros [= <- <-]|]. intros H. destruct Hm as (Hm & Hf & Hl), H as (Hn & Hf' & Hl').
    assert (n = m) as ->.
    { destruct (Nat.lt_total n m) as [Hlt|[Hlt|Hlt]]; [|done|].
      - destruct (Hl' m ltac:(lia)). by exists k'.
      - destruct (Hl n ltac:(lia)). by exists k. }
    by rewrite (first_match_det _ _ _ _ Hf Hf').
  - split; [done|]. intros (Hn & Hf & _). destruct (Hno n Hn). by exists k.
Qed.

Lemma longest_none rs s : longest rs s = None <-> forall m, (m <= length s)%nat -> ~ some_match rs (take m s).
Proof.
  destruct (scan_ok rs s 0 None) as [(k' & m & Hm & E)|[Hno E]]; unfold longest; rewrite E; [|done].
  split; [done|]. intros H. destruct Hm as (Hm & Hf & _). destruct (H m Hm). by exists k'.
Qed.

(** Where a rule matches the next character, the longest match is not empty. *)
Lemma longest_moves rs c s :
  is_null (accepts 0 (map (deriv c) rs)) = false ->
  exists k n r, longest rs (c :: s) = Some (k, S n) /\ rs !! k = Some r /\ (S n <= length (c :: s))%nat.
Proof.
  intros Ha. assert (some_match rs (take 1 (c :: s))) as H1.
  { pose proof (accepts_ok (map (deriv c) rs) 0) as H. destruct (accepts 0 (map (deriv c) rs)) as [i|]; [|done].
    destruct H as (j & _ & Hj). exists j. cbn [take]. rewrite take_0. by apply first_match_deriv. }
  destruct (longest rs (c :: s)) as [[k n]|] eqn:E.
  - apply longest_ok in E as (Hn & [(r & Hr & _) _] & Hl). destruct n as [|n]; [|by exists k, n, r].
    destruct (Hl 1%nat); [cbn; lia|done].
  - rewrite longest_none in E. destruct (E 1%nat); [cbn; lia|done].
Qed.

(** ** Runs of the automaton *)

(** What is left to match behind [w]. *)
Definition run (rs : list regex) (w : list byte) : list regex := fold_left (fun rs c => map (deriv c) rs) w rs.

Lemma run_app rs w1 w2 : run rs (w1 ++ w2) = run (run rs w1) w2.
Proof. apply fold_left_app. Qed.

Lemma dead_deriv rs c : dead rs = true -> dead (map (deriv c) rs) = true.
Proof.
  unfold dead. rewrite !forallb_forall. intros H r (r0 & <- & Hr)%in_map_iff. specialize (H r0 Hr).
  apply bool_decide_eq_true in H. by subst.
Qed.

Lemma dead_run rs w : dead rs = true -> dead (run rs w) = true.
Proof. revert rs. induction w as [|c w IH]; intros rs H; [done|]. by apply IH, dead_deriv. Qed.

Lemma accepts_alive rs k0 k : accepts k0 rs = Some k -> dead rs = false.
Proof.
  unfold dead. revert k0. induction rs as [|r rs IH]; intros k0; cbn [accepts forallb]; [done|].
  destruct r; cbn; try done; intros H; rewrite ?andb_false_r; try done; try by apply (IH _ H).
Qed.

(** The match ends where a rule accepts and the next character kills them
    all. *)
Lemma longest_run rs w t rest k :
  accepts 0 (run rs w) = Some k -> dead (run rs (w ++ [t])) = true -> longest rs (w ++ t :: rest) = Some (k, length w).
Proof.
  intros Ha Hd. unfold longest. rewrite run_app in Hd. cbn [run fold_left] in Hd.
  assert (forall rs n best, accepts 0 (run rs w) = Some k -> dead (map (deriv t) (run rs w)) = true ->
    scan rs (w ++ t :: rest) n best = Some (k, n + length w)%nat) as Hs; [|by apply Hs].
  clear. induction w as [|c w IH]; intros rs n best Ha Hd.
  - cbn [app scan length run fold_left] in *. rewrite Ha, Hd. f_equal. f_equal. lia.
  - cbn [app scan length]. destruct (dead (map (deriv c) rs)) eqn:E.
    + change (run rs (c :: w)) with (run (map (deriv c) rs) w) in Ha.
      apply accepts_alive in Ha. by rewrite dead_run in Ha.
    + rewrite IH by done. f_equal. f_equal. lia.
Qed.

(** Finite sets of automata states, closed under the characters of a class:
    whatever the string, the run ends in the set. *)
Definition all_bytes : list byte := map (fun n => z2b (Z.of_nat n)) (seq 0 256).

Lemma all_bytes_in c : c ∈ all_bytes.
Proof.
  unfold all_bytes. apply list_elem_of_fmap. exists (Z.to_nat (b2z c)). pose proof (b2z_range c).
  rewrite Z2Nat.id by lia. split; [by rewrite z2b_b2z|]. apply elem_of_seq. lia.
Qed.

Definition closed_under (p : byte -> bool) (states : list (list regex)) : bool :=
  forallb (fun rs => forallb (fun c => negb (p c) || bool_decide (map (deriv c) rs ∈ states)) all_bytes) states.

Definition start_in (p : byte -> bool) (rs : list regex) (states : list (list regex)) : bool :=
  forallb (fun c => negb (p c) || bool_decide (map (deriv c) rs ∈ states)) all_bytes.

Definition killed_by (t : byte -> bool) (states : list (list regex)) : bool :=
  forallb (fun rs => forallb (fun c => negb (t c) || dead (map (deriv c) rs)) all_bytes) states.

Definition accepted_as (k : nat) (states : list (list regex)) : bool :=
  forallb (fun rs => bool_decide (accepts 0 rs = Some k)) states.

Lemma for_byte (p : byte -> bool) (q : byte -> bool) :
  forallb (fun c => negb (p c) || q c) all_bytes = true -> forall c, p c = true -> q c = true.
Proof.
  rewrite forallb_forall. intros H c Hp. specialize (H c). rewrite <- list_elem_of_In, Hp in H.
  apply H, all_bytes_in.
Qed.

Lemma run_closed p states rs w :
  closed_under p states = true -> rs ∈ states -> forallb p w = true -> run rs w ∈ states.
Proof.
  intros Hc. revert rs. induction w as [|c w IH]; intros rs Hrs Hw; [done|].
  cbn [forallb] in Hw. apply andb_true_iff in Hw as [Hp Hw]. cbn [run fold_left]. apply IH; [|done].
  unfold closed_under in Hc. rewrite forallb_forall in Hc. specialize (Hc rs). rewrite <- list_elem_of_In in Hc.
  exact (bool_decide_eq_true_1 _ (for_byte p (fun c => bool_decide (map (deriv c) rs ∈ states)) (Hc Hrs) c Hp)).
Qed.

Lemma run_start p states rs c w :
  start_in p rs states = true -> closed_under p states = true -> p c = true -> forallb p w = true ->
  run rs (c :: w) ∈ states.
Proof.
  intros Hs Hc Hp Hw. apply (run_closed p states (map (deriv c) rs) w Hc); [|done].
  exact (bool_decide_eq_true_1 _ (for_byte p (fun c => bool_decide (map (deriv c) rs ∈ states)) Hs c Hp)).
Qed.

Lemma longest_closed t states k rs w c rest :
  accepted_as k states = true -> killed_by t states = true -> run rs w ∈ states -> t c = true ->
  longest rs (w ++ c :: rest) = Some (k, length w).
Proof.
  intros Ha Hk Hin Ht. apply longest_run.
  - unfold accepted_as in Ha. rewrite forallb_forall in Ha. rewrite list_elem_of_In in Hin.
    exact (bool_decide_eq_true_1 _ (Ha _ Hin)).
  - rewrite run_app. cbn [run fold_left]. unfold killed_by in Hk. rewrite forallb_forall in Hk.
    rewrite list_elem_of_In in Hin. exact (for_byte t (fun c => dead (map (deriv c) (run rs w))) (Hk _ Hin) c Ht).
Qed.

(** The states behind one character of a class, and those it leads on to. *)
Fixpoint add_new (l states : list (list regex)) : list (list regex) :=
  match l with
  | [] => states
  | x :: l => if bool_decide (x ∈ states) then add_new l states else add_new l (x :: states)
  end.

Definition step_states (p : byte -> bool) (from states : list (list regex)) : list (list regex) :=
  add_new (flat_map (fun rs => map (fun c => map (deriv c) rs) (filter p all_bytes)) from) states.

(** [n] characters of the class at most. *)
Fixpoint reach (n : nat) (p : byte -> bool) (states : list (list regex)) : list (list regex) :=
  match n with
  | O => states
  | S n => reach n p (step_states p states states)
  end.

Lemma longest_run_end rs w k : accepts 0 (run rs w) = Some k -> longest rs w = Some (k, length w).
Proof.
  intros Ha. unfold longest.
  assert (forall rs n best, accepts 0 (run rs w) = Some k -> scan rs w n best = Some (k, n + length w)%nat) as Hs;
    [|by apply Hs].
  clear. induction w as [|c w IH]; intros rs n best Ha; cbn [scan length].
  - cbn [run fold_left] in Ha. rewrite Ha. f_equal. f_equal. lia.
  - destruct (dead (map (deriv c) rs)) eqn:E.
    + change (run rs (c :: w)) with (run (map (deriv c) rs) w) in Ha. apply accepts_alive in Ha. by rewrite dead_run in Ha.
    + rewrite IH by done. f_equal. f_equal. lia.
Qed.

(** The same for strings made of pieces: [f] of every character of a class. *)
Definition closed_pieces (p : byte -> bool) (f : byte -> list byte) (states : list (list regex)) : bool :=
  forallb (fun rs => forallb (fun c => negb (p c) || bool_decide (run rs (f c) ∈ states)) all_bytes) states.

Lemma run_pieces p f states rs s :
  closed_pieces p f states = true -> rs ∈ states -> forallb p s = true -> run rs (flat_map f s) ∈ states.
Proof.
  intros Hc. revert rs. induction s as [|c s IH]; intros rs Hrs Hs; [done|].
  cbn [forallb flat_map] in *. apply andb_true_iff in Hs as [Hp Hs]. rewrite run_app. apply IH; [|done].
  unfold closed_pieces in Hc. rewrite forallb_forall in Hc. specialize (Hc rs). rewrite <- list_elem_of_In in Hc.
  exact (bool_decide_eq_true_1 _ (for_byte p (fun c => bool_decide (run rs (f c) ∈ states)) (Hc Hrs) c Hp)).
Qed.

Fixpoint reach_pieces (n : nat) (f : byte -> list byte) (l : list byte) (states : list (list regex)) : list (list regex) :=
  match n with
  | O => states
  | S n => reach_pieces n f l (add_new (flat_map (fun rs => map (fun c => run rs (f c)) l) states) states)
  end.
