(* ===== verification/DtcSrcpos.v ===== *)
(** dtc/srcpos.c: the source files that are being read, positions in them, and
    positions as text. A file's state is referred to by its number, since
    positions of a file see what happens to it later; a [struct srcpos *] is the
    list of the positions chained by [next], empty for NULL. *)
From S2P Require Import Prelude Monad Ctype DtcUtil.

Record srcfile_state := SrcFile {
  sf_name : option (list byte);
  sf_dir : option (list byte);
  sf_lineno : Z;
  sf_colno : Z;
  sf_prev : option nat;
}.

Record srcpos := SrcPos {
  first_line : Z;
  first_column : Z;
  last_line : Z;
  last_column : Z;
  sp_file : option nat;
}.

(** The variables of the file. [src_open] are the names of the open files. *)
Record srcfiles := SrcFiles {
  src_files : list srcfile_state;
  current_srcfile : option nat;
  srcfile_depth : Z;
  search_path : list (list byte);
  initial_path : option (list byte);
  initial_pathlen : Z;
  initial_cpp : bool;
  depfile : option (list byte);   (* what has been written to it *)
}.

Definition MAX_SRCFILE_DEPTH : Z := 200.

Definition no_srcfiles : srcfiles := SrcFiles [] None 0 [] None 0 true None.

Definition with_file (i : nat) (f : srcfile_state -> srcfile_state) (s : srcfiles) : srcfiles :=
  SrcFiles (alter f i (src_files s)) (current_srcfile s) (srcfile_depth s) (search_path s) (initial_path s)
    (initial_pathlen s) (initial_cpp s) (depfile s).

Definition set_current (c : option nat) (s : srcfiles) : srcfiles :=
  SrcFiles (src_files s) c (srcfile_depth s) (search_path s) (initial_path s) (initial_pathlen s) (initial_cpp s) (depfile s).

Definition file_at (s : srcfiles) (i : option nat) : res srcfile_state :=
  let! i := nonnull i in nonnull (src_files s !! i).

(** What is before the last slash. *)
Fixpoint get_dirname (path : list byte) : option (list byte) :=
  match path with
  | [] => None
  | c :: path =>
    match get_dirname path with
    | Some d => Some (c :: d)
    | None => if bool_decide (c = "/"%byte) then Some [] else None
    end
  end.

Definition set_initial_path (fname : list byte) (s : srcfiles) : srcfiles :=
  SrcFiles (src_files s) (current_srcfile s) (srcfile_depth s) (search_path s) (Some fname)
    (zlen (filter (fun c => c = "/"%byte) fname)) (initial_cpp s) (depfile s).

(** The common part of two paths up to a slash: the number of slashes, and the
    rest of the first behind the last of them. *)
Fixpoint common_slashes (p1 p2 : list byte) : Z * option (list byte) :=
  match p1, p2 with
  | c1 :: p1, c2 :: p2 =>
    if negb (bool_decide (c1 = c2)) then (0, None) else
    let '(n, rest) := common_slashes p1 p2 in
    if bool_decide (c1 = "/"%byte) then (n + 1, Some (default p1 rest)) else (n, rest)
  | _, _ => (0, None)
  end.

Definition shorten_to_initial_path (fname : list byte) (s : srcfiles) : res (option (list byte)) :=
  let! ip := nonnull (initial_path s) in
  match common_slashes fname ip with
  | (slashes, Some rest) =>
    let diff := initial_pathlen s - slashes in
    (* the counter i != diff goes up from 0 *)
    if diff <? 0 then Fault Oob else
    Ret (Some (concat (replicate (Z.to_nat diff) (str "../")) ++ rest))
  | (_, None) => Ret None
  end.

(** ** Files *)

Section files.
(** [fopen] of a name: whether it succeeds. *)
Context (fopen : list byte -> bool).

(** Try to open a file in a given directory: the name it was opened under. *)
Definition try_open (dirname : option (list byte)) (fname : list byte) : option (list byte) :=
  let fullname :=
    match dirname with
    | Some d => if bool_decide (head fname = Some "/"%byte) then fname else join_path d fname
    | None => fname
    end in
  if fopen fullname then Some fullname else None.

Fixpoint try_each (dirs : list (list byte)) (fname : list byte) : option (list byte) :=
  match dirs with
  | [] => None
  | d :: dirs =>
    match try_open (Some d) fname with
    | Some f => Some f
    | None => try_each dirs fname
    end
  end.

Definition fopen_any_on_path (fname : list byte) (s : srcfiles) : res (option (list byte)) :=
  (* Try current directory first *)
  let! cur_dir :=
    match current_srcfile s with
    | None => Ret None
    | c => let! f := file_at s c in Ret (sf_dir f)
    end in
  Ret match try_open cur_dir fname with
      | Some f => Some f
      (* Failing that, try each search path in turn *)
      | None => try_each (search_path s) fname
      end.

(** Returns the full name of the file. *)
Definition srcfile_relative_open (fname : list byte) (s : srcfiles) : res (list byte * srcfiles) :=
  let! fullname :=
    if streq fname (str "-") then Ret (str "<stdin>") else
    let! f := fopen_any_on_path fname s in
    match f with Some f => Ret f | None => Fault Die end in
  Ret (fullname, SrcFiles (src_files s) (current_srcfile s) (srcfile_depth s) (search_path s) (initial_path s)
    (initial_pathlen s) (initial_cpp s) (match depfile s with Some t => Some (t ++ str " " ++ fullname) | None => None end)).

Definition srcfile_push (fname : list byte) (s : srcfiles) : res srcfiles :=
  if MAX_SRCFILE_DEPTH <=? srcfile_depth s then Fault Die else
  let s := SrcFiles (src_files s) (current_srcfile s) (srcfile_depth s + 1) (search_path s) (initial_path s)
             (initial_pathlen s) (initial_cpp s) (depfile s) in
  let! '(name, s) := srcfile_relative_open fname s in
  let f := SrcFile (Some name) (get_dirname name) 1 1 (current_srcfile s) in
  let s := SrcFiles (src_files s ++ [f]) (Some (length (src_files s))) (srcfile_depth s) (search_path s)
             (initial_path s) (initial_pathlen s) (initial_cpp s) (depfile s) in
  Ret (if srcfile_depth s =? 1 then set_initial_path name s else s).
End files.

(** [fclose] does not fail. *)
Definition srcfile_pop (s : srcfiles) : res (bool * srcfiles) :=
  let! _ := c_assert (negb (is_null (current_srcfile s))) in
  let! f := file_at s (current_srcfile s) in
  Ret (negb (is_null (sf_prev f)), set_current (sf_prev f) s).

Definition srcfile_add_search_path (dirname : list byte) (s : srcfiles) : srcfiles :=
  SrcFiles (src_files s) (current_srcfile s) (srcfile_depth s) (search_path s ++ [dirname]) (initial_path s)
    (initial_pathlen s) (initial_cpp s) (depfile s).

(** ** Positions *)

(** Line and column behind [text]. *)
Fixpoint advance (text : list byte) (line col : Z) : Z * Z :=
  match text with
  | [] => (line, col)
  | c :: text => if bool_decide (c = nl) then advance text (line + 1) 1 else advance text line (col + 1)
  end.

Definition srcpos_update (text : list byte) (s : srcfiles) : res (srcpos * srcfiles) :=
  let! i := nonnull (current_srcfile s) in
  let! f := file_at s (Some i) in
  let '(line, col) := advance text (sf_lineno f) (sf_colno f) in
  Ret (SrcPos (sf_lineno f) (sf_colno f) line col (Some i),
       with_file i (fun f => SrcFile (sf_name f) (sf_dir f) line col (sf_prev f)) s).

(** The copy has a state of its file of its own. *)
Definition srcpos_copy (pos : list srcpos) (s : srcfiles) : res (list srcpos * srcfiles) :=
  match pos with
  | [] => Ret ([], s)
  | [p] =>
    let! f := file_at s (sp_file p) in
    Ret ([SrcPos (first_line p) (first_column p) (last_line p) (last_column p) (Some (length (src_files s)))],
         SrcFiles (src_files s ++ [f]) (current_srcfile s) (srcfile_depth s) (search_path s) (initial_path s)
           (initial_pathlen s) (initial_cpp s) (depfile s))
  | _ => Fault Abort
  end.

Definition srcpos_extend (pos newtail : list srcpos) : list srcpos := pos ++ newtail.

Definition file_name (s : srcfiles) (p : srcpos) : res (option (list byte)) :=
  match sp_file p with
  | None => Ret None
  | f => let! f := file_at s f in Ret (sf_name f)
  end.

Definition srcpos_string (s : srcfiles) (p : srcpos) : res (list byte) :=
  let! name := file_name s p in
  let fname := default (str "<no-file>") name in
  let n v := fmt_d v in
  Ret (fname ++ str ":" ++ n (first_line p) ++ str "." ++ n (first_column p) ++
    (if negb (first_line p =? last_line p) then str "-" ++ n (last_line p) ++ str "." ++ n (last_column p)
     else if negb (first_column p =? last_column p) then str "-" ++ n (last_column p) else [])).

Fixpoint srcpos_string_comment (s : srcfiles) (pos : list srcpos) (first : bool) (level : Z) : res (option (list byte)) :=
  match pos with
  | [] => Ret (if 1 <? level then Some (str "<no-file>:<no-line>") else None)
  | p :: rest =>
    let! fname :=
      match sp_file p with
      | None => Ret (str "<no-file>")
      | f =>
        let! f := file_at s f in
        match sf_name f with
        | None => Ret (str "<no-filename>")
        | Some name =>
          if 1 <? level then Ret name else
          let! short := shorten_to_initial_path name s in
          Ret (default name short)
        end
      end in
    let n v := fmt_d v in
    let here :=
      if 1 <? level then
        fname ++ str ":" ++ n (first_line p) ++ str ":" ++ n (first_column p) ++ str "-" ++ n (last_line p) ++
          str ":" ++ n (last_column p)
      else fname ++ str ":" ++ n (if first then first_line p else last_line p) in
    match rest with
    | [] => Ret (Some here)
    | _ =>
      let! rest := srcpos_string_comment s rest first level in
      Ret (Some (here ++ str ", " ++ default (str "(null)") rest))
    end
  end.

Definition srcpos_string_first (s : srcfiles) (pos : list srcpos) (level : Z) : res (option (list byte)) :=
  srcpos_string_comment s pos true level.
Definition srcpos_string_last (s : srcfiles) (pos : list srcpos) (level : Z) : res (option (list byte)) :=
  srcpos_string_comment s pos false level.

(** What is printed of a message. *)
Definition srcpos_verror (s : srcfiles) (p : srcpos) (prefix msg : list byte) : res (list byte) :=
  let! srcstr := srcpos_string s p in
  Ret (prefix ++ str ": " ++ srcstr ++ str " " ++ msg ++ [nl]).

Definition srcpos_error := srcpos_verror.

Definition srcpos_set_line (f : list byte) (l : Z) (s : srcfiles) : res srcfiles :=
  let! i := nonnull (current_srcfile s) in
  let! _ := file_at s (Some i) in
  let s := with_file i (fun st => SrcFile (Some f) (sf_dir st) l (sf_colno st) (sf_prev st)) s in
  Ret (if initial_cpp s then
         let s := set_initial_path f s in
         SrcFiles (src_files s) (current_srcfile s) (srcfile_depth s) (search_path s) (initial_path s)
           (initial_pathlen s) false (depfile s)
       else s).
