(* ===== verification/DtcLexer.v ===== *)
(** dtc/dtc-lexer.l: the scanner. flex turns the rules into [yylex]: at each
    position the longest match counts, of the first rule that has it. *)
From S2P Require Import Prelude Monad Ctype DtcUtil DtcSrcpos DtcData DtcRegex.

(** ** Patterns *)

Definition chr (c : byte) : regex := Class false [(c, c)].
Definition lit (s : list byte) : regex := fold_right (fun c r => seq_ (chr c) r) Eps s.
Definition alts (l : list regex) : regex := fold_right Alt Void l.
Definition plus (r : regex) : regex := Seq r (Star r).
Definition opt (r : regex) : regex := Alt r Eps.
Definition chars (s : list byte) : list (byte * byte) := map (fun c => (c, c)) s.
(** [.]: anything but a newline. *)
Definition dot : regex := Class true [(nl, nl)].

Definition digits : list (byte * byte) := [("0", "9")]%byte.
Definition hexdigits : list (byte * byte) := [("0", "9"); ("a", "f"); ("A", "F")]%byte.
Definition letters : list (byte * byte) := [("a", "z"); ("A", "Z")]%byte.
Definition blank : regex := Class false (chars [" "%byte; tab]).

Definition propnodechars : list (byte * byte) := letters ++ digits ++ chars (str ",._+*#?@-").
Definition PROPNODECHAR : regex := Class false propnodechars.
Definition PATHCHAR : regex := Class false (propnodechars ++ chars (str "/")).
Definition LABEL : regex :=
  Seq (Class false (letters ++ chars (str "_"))) (Star (Class false (letters ++ digits ++ chars (str "_")))).
Definition STRING : regex :=
  Seq (chr quote) (Seq (Star (Alt (Class true (chars ["\"%byte; quote])) (Seq (chr "\") dot))) (chr quote)).
Definition CHAR_LITERAL : regex :=
  Seq (chr "'") (Seq (Star (Alt (Class true (chars ["'"%byte])) (lit (str "\'")))) (chr "'")).
Definition WS : regex := Class false [(" "%byte, " "%byte); (x09, x0d)].
Definition COMMENT : regex :=
  Seq (lit (str "/*")) (Seq (Star (Alt (Class true (chars (str "*"))) (Seq (plus (chr "*")) (Class true (chars (str "*/"))))))
    (Seq (plus (chr "*")) (chr "/"))).
Definition LINECOMMENT : regex := Seq (lit (str "//")) (Seq (Star dot) (chr nl)).

(** ** Rules *)

Inductive start_condition := INITIAL | BYTESTRING | PROPNODENAME | V1.

#[export] Instance start_condition_eq_dec : EqDecision start_condition.
Proof. solve_decision. Defined.

Inductive action :=
| include | line_directive | string_ | keyword_v1 | keyword_plugin | keyword_memreserve | keyword_bits
| keyword_del_prop | keyword_del_node | keyword_omit | label_ | integer_literal | char_literal | label_ref | path_ref
| byte_ | bytestring_end | propnodename | incbin | skip | op_lshift | op_rshift | op_le | op_ge | op_eq | op_ne
| op_and | op_or | any_char.

(** The start conditions of a rule, whether it is for the beginning of a line
    only, and its pattern. [all] is <*>, [default_sc] a rule without. *)
Record rule := Rule {
  r_sc : list start_condition;
  r_bol : bool;
  r_regex : regex;
  r_action : action;
}.

Definition all : list start_condition := [INITIAL; BYTESTRING; PROPNODENAME; V1].
Definition default_sc : list start_condition := [INITIAL; V1].

Definition rules : list rule := [
  Rule all false (Seq (lit (str "/include/")) (Seq (Star WS) STRING)) include;
  Rule all true (Seq (chr "#") (Seq (opt (lit (str "line"))) (Seq (plus blank) (Seq (plus (Class false digits))
    (Seq (plus blank) (Seq STRING (Star (Seq (plus blank) (plus (Class false digits)))))))))) line_directive;
  Rule all false STRING string_;
  Rule all false (lit (str "/dts-v1/")) keyword_v1;
  Rule all false (lit (str "/plugin/")) keyword_plugin;
  Rule all false (lit (str "/memreserve/")) keyword_memreserve;
  Rule all false (lit (str "/bits/")) keyword_bits;
  Rule all false (lit (str "/delete-property/")) keyword_del_prop;
  Rule all false (lit (str "/delete-node/")) keyword_del_node;
  Rule all false (lit (str "/omit-if-no-ref/")) keyword_omit;
  Rule all false (Seq LABEL (chr ":")) label_;
  Rule [V1] false (Seq (Alt (plus (Class false digits)) (Seq (chr "0") (Seq (Class false (chars (str "xX")))
      (plus (Class false hexdigits)))))
    (opt (alts [lit (str "U"); lit (str "L"); lit (str "UL"); lit (str "LL"); lit (str "ULL")]))) integer_literal;
  Rule all false CHAR_LITERAL char_literal;
  Rule all false (Seq (chr "&") LABEL) label_ref;
  Rule all false (Seq (lit (str "&{/")) (Seq (Star PATHCHAR) (chr "}"))) path_ref;
  Rule [BYTESTRING] false (Seq (Class false hexdigits) (Class false hexdigits)) byte_;
  Rule [BYTESTRING] false (chr "]") bytestring_end;
  Rule [PROPNODENAME] false (Seq (opt (chr "\")) (plus PROPNODECHAR)) propnodename;
  Rule default_sc false (lit (str "/incbin/")) incbin;
  Rule all false (plus WS) skip;
  Rule all false (plus COMMENT) skip;
  Rule all false (plus LINECOMMENT) skip;
  Rule all false (lit (str "<<")) op_lshift;
  Rule all false (lit (str ">>")) op_rshift;
  Rule all false (lit (str "<=")) op_le;
  Rule all false (lit (str ">=")) op_ge;
  Rule all false (lit (str "==")) op_eq;
  Rule all false (lit (str "!=")) op_ne;
  Rule all false (lit (str "&&")) op_and;
  Rule all false (lit (str "||")) op_or;
  Rule all false dot any_char].

(** The patterns that count in a start condition, at the beginning of a line
    or not. *)
Definition active (sc : start_condition) (bol : bool) : list regex :=
  map (fun r => if bool_decide (sc ∈ r_sc r) && (bol || negb (r_bol r)) then r_regex r else Void) rules.

(** ** Tokens *)

Inductive token :=
| DT_V1 | DT_PLUGIN | DT_MEMRESERVE | DT_LSHIFT | DT_RSHIFT | DT_LE | DT_GE | DT_EQ | DT_NE | DT_AND | DT_OR
| DT_BITS | DT_DEL_PROP | DT_DEL_NODE | DT_OMIT_NO_REF
| DT_PROPNODENAME (propnodename : list byte)
| DT_LITERAL (integer : Z)
| DT_CHAR_LITERAL (integer : Z)
| DT_BYTE (b : byte)
| DT_STRING (d : data)
| DT_LABEL (labelref : list byte)
| DT_LABEL_REF (labelref : list byte)
| DT_PATH_REF (labelref : list byte)
| DT_INCBIN
| Char (c : byte).

(** A character is returned as a [char]: from 128 on it is negative. Zero and
    below are the end of the input for the parser. *)
Definition ends_input (t : token) : bool :=
  match t with
  | Char c => (b2z c =? 0) || (128 <=? b2z c)
  | _ => false
  end.

(** The characters of a string up to a NUL. *)
Fixpoint c_str (s : list byte) : list byte :=
  match s with
  | [] => []
  | c :: s => if bool_decide (c = x00) then [] else c :: c_str s
  end.

(** [strtoull(s, &e, 0)] of a text that starts with a digit: the value, what
    follows, and whether [errno] is ERANGE. *)
Definition strtoull0 (s : list byte) : Z * list byte * bool :=
  let '(v, n) :=
    match s with
    | "0"%byte :: x :: c :: _ =>
      if (bool_decide (x = "x"%byte) || bool_decide (x = "X"%byte)) && is_base_digit 16 c then strtol s 16
      else strtol s 8
    | "0"%byte :: _ => strtol s 8
    | _ => strtol s 10
    end in
  if 18446744073709551615 <? v then (18446744073709551615, drop (Z.to_nat n) s, true)
  else (v, drop (Z.to_nat n) s, false).

(** [e[strspn(e, set)]] is the end. *)
Definition all_of (set s : list byte) : bool := forallb (fun c => bool_decide (c ∈ set)) s.

(** ** The scanner *)

(** The buffers, the current one first, each with what is left of it and
    whether that is the beginning of a line; the start condition; the source
    files; and [treesource_error]. *)
Record lexer := Lexer {
  lx_buffers : list (list byte * bool);
  lx_sc : start_condition;
  lx_files : srcfiles;
  lx_error : bool;
}.

Definition lx_begin (sc : start_condition) (lx : lexer) : lexer := Lexer (lx_buffers lx) sc (lx_files lx) (lx_error lx).
Definition BEGIN_DEFAULT (lx : lexer) : lexer := lx_begin V1 lx.
Definition with_files (sf : srcfiles) (lx : lexer) : lexer := Lexer (lx_buffers lx) (lx_sc lx) sf (lx_error lx).
(** The message is not modelled. *)
Definition lexical_error (lx : lexer) : lexer := Lexer (lx_buffers lx) (lx_sc lx) (lx_files lx) true.

(** The buffer an escaped string of the matched text is read from: what
    follows the text is the NUL flex puts there. *)
Definition escape_string_at (yytext : list byte) (from len : Z) : res data :=
  data_copy_escape_string (drop (Z.to_nat from) yytext ++ [x00]) len.

(** The last position of a character. *)
Fixpoint last_index (c : byte) (s : list byte) : option nat :=
  match s with
  | [] => None
  | x :: s =>
    match last_index c s with
    | Some i => Some (S i)
    | None => if bool_decide (x = c) then Some O else None
    end
  end.

Definition integer_literal_action (yytext : list byte) (lx : lexer) : token * lexer :=
  let '(v, e, erange) := strtoull0 yytext in
  let lx := if all_of (str "UL") e then lx else lexical_error lx in
  let lx := if erange : bool then lexical_error lx else lx in
  (DT_LITERAL v, lx).

Definition char_literal_action (yytext : list byte) (lx : lexer) : res (token * lexer) :=
  let! d := escape_string_at yytext 1 (zlen yytext - 2) in
  if d_len d =? 1 then Ret (DT_CHAR_LITERAL 0, lexical_error lx) else
  let! c := nonnull (head (d_val d)) in
  Ret (DT_CHAR_LITERAL (b2z c), if 2 <? d_len d then lexical_error lx else lx).

(** [atoi]: the low 32 bits of what [strtol] returns. *)
Definition atoi (s : list byte) : Z :=
  s32 (Z.max (- 9223372036854775808) (Z.min 9223372036854775807 (strtol s 10).1)).

Fixpoint to_digit (s : list byte) : list byte :=
  match s with
  | c :: s' => if is_digit c then s else to_digit s'
  | [] => []
  end.

Definition line_action (yytext : list byte) (lx : lexer) : res lexer :=
  let line := to_digit yytext in
  match split_char quote yytext, last_index quote yytext with
  | Some (before, _), Some fnend =>
    let fnstart := zlen before in
    let! _ := c_assert (fnstart <? Z.of_nat fnend) in
    let! fn := escape_string_at yytext (fnstart + 1) (Z.of_nat fnend - fnstart - 1) in
    let lx := if bool_decide (x00 ∈ take (length (d_val fn) - 1) (d_val fn)) then lexical_error lx else lx in
    let! l := sint (atoi line - 1) in
    let! sf := srcpos_set_line (c_str (d_val fn)) l (lx_files lx) in
    Ret (with_files sf lx)
  | _, _ => Fault Abort
  end.

Section scanner.
(** [fopen] of a name, and what is read from the file opened for it, "-" being
    standard input, which is read once. *)
Context (fopen : list byte -> bool) (contents : list byte -> res (list byte)).

(** [srcfile_push], and what its file holds. *)
Definition open_source (fname : list byte) (sf : srcfiles) : res (list byte * srcfiles) :=
  let! sf := srcfile_push fopen fname sf in
  let! f := file_at sf (current_srcfile sf) in
  let! text := contents (if streq fname (str "-") then str "-" else default [] (sf_name f)) in
  Ret (text, sf).

Definition push_input_file (filename : list byte) (lx : lexer) : res lexer :=
  let! '(text, sf) := open_source filename (lx_files lx) in
  Ret (Lexer ((text, true) :: lx_buffers lx) (lx_sc lx) sf (lx_error lx)).

Definition pop_input_file (lx : lexer) : res (bool * lexer) :=
  let! '(more, sf) := srcfile_pop (lx_files lx) in
  if more : bool then Ret (true, Lexer (tail (lx_buffers lx)) (lx_sc lx) sf (lx_error lx))
  else Ret (false, with_files sf lx).

(** What a rule does: the token it returns, if any. *)
Definition do_action (a : action) (yytext : list byte) (lx : lexer) : res (option token * lexer) :=
  match a with
  | include =>
    let name := match split_char quote yytext with Some (_, s) => removelast s | None => [] end in
    let! lx := push_input_file (c_str name) lx in Ret (None, lx)
  | line_directive => let! lx := line_action yytext lx in Ret (None, lx)
  | string_ => let! d := escape_string_at yytext 1 (zlen yytext - 2) in Ret (Some (DT_STRING d), lx)
  | keyword_v1 => Ret (Some DT_V1, BEGIN_DEFAULT lx)
  | keyword_plugin => Ret (Some DT_PLUGIN, lx)
  | keyword_memreserve => Ret (Some DT_MEMRESERVE, BEGIN_DEFAULT lx)
  | keyword_bits => Ret (Some DT_BITS, BEGIN_DEFAULT lx)
  | keyword_del_prop => Ret (Some DT_DEL_PROP, lx_begin PROPNODENAME lx)
  | keyword_del_node => Ret (Some DT_DEL_NODE, lx_begin PROPNODENAME lx)
  | keyword_omit => Ret (Some DT_OMIT_NO_REF, lx_begin PROPNODENAME lx)
  | label_ => Ret (Some (DT_LABEL (removelast yytext)), lx)
  | integer_literal => let '(t, lx) := integer_literal_action yytext lx in Ret (Some t, lx)
  | char_literal => let! '(t, lx) := char_literal_action yytext lx in Ret (Some t, lx)
  | label_ref => Ret (Some (DT_LABEL_REF (drop 1 yytext)), lx)
  | path_ref => Ret (Some (DT_PATH_REF (drop 2 (removelast yytext))), lx)
  | byte_ => Ret (Some (DT_BYTE (z2b (strtol yytext 16).1)), lx)
  | bytestring_end => Ret (Some (Char "]"), BEGIN_DEFAULT lx)
  | propnodename =>
    Ret (Some (DT_PROPNODENAME (if bool_decide (head yytext = Some "\"%byte) then drop 1 yytext else yytext)),
         BEGIN_DEFAULT lx)
  | incbin => Ret (Some DT_INCBIN, lx)
  | skip => Ret (None, lx)
  | op_lshift => Ret (Some DT_LSHIFT, lx)
  | op_rshift => Ret (Some DT_RSHIFT, lx)
  | op_le => Ret (Some DT_LE, lx)
  | op_ge => Ret (Some DT_GE, lx)
  | op_eq => Ret (Some DT_EQ, lx)
  | op_ne => Ret (Some DT_NE, lx)
  | op_and => Ret (Some DT_AND, lx)
  | op_or => Ret (Some DT_OR, lx)
  | any_char =>
    let! c := nonnull (head yytext) in
    let lx := if bool_decide (c = "["%byte) then lx_begin BYTESTRING lx else lx in
    let lx := if bool_decide (c = "{"%byte) || bool_decide (c = ";"%byte) then lx_begin PROPNODENAME lx else lx in
    Ret (Some (Char c), lx)
  end.

(** One rule, or the end of a buffer. *)
Inductive lex_event :=
| Token (t : token) (yylloc : srcpos)
| Again
| Terminate.

Definition lex_step (lx : lexer) : res (lex_event * lexer) :=
  match lx_buffers lx with
  | [] => Fault Oob
  | ([], _) :: _ =>
    let! '(more, lx) := pop_input_file lx in
    Ret (if more : bool then Again else Terminate, lx)
  | (s, bol) :: below =>
    match longest (active (lx_sc lx) bol) s with
    | Some (k, n) =>
      let! r := nonnull (rules !! k) in
      let yytext := take n s in
      let lx := Lexer ((drop n s, bool_decide (last yytext = Some nl)) :: below) (lx_sc lx) (lx_files lx) (lx_error lx) in
      (* YY_USER_ACTION *)
      let! '(yylloc, sf) := srcpos_update yytext (lx_files lx) in
      let! '(t, lx) := do_action (r_action r) yytext (with_files sf lx) in
      Ret (match t with Some t => Token t yylloc | None => Again end, lx)
    | None => (* the default rule echoes a character *)
      Ret (Again, Lexer ((drop 1 s, bool_decide (head s = Some nl)) :: below) (lx_sc lx) (lx_files lx) (lx_error lx))
    end
  end.

(** The next token with its position, or the end. *)
Definition yylex (lx : lexer) : res (option (token * srcpos) * lexer) :=
  loop (fun lx =>
    let! '(e, lx) := lex_step lx in
    match e with
    | Token t pos => Ret (Break (Some (t, pos), lx))
    | Again => Ret (Continue lx)
    | Terminate => Ret (Break (None, lx))
    end) lx.

(** ** The input of the parser

    The scanner does not depend on the parser, so it can run ahead of it: each
    token comes with the source files and [treesource_error] as they are when
    the parser has read it, and the last one with how the scanner ended. *)
Inductive tokens :=
| Tok (t : token) (yylloc : srcpos) (sf : srcfiles) (error : bool) (rest : tokens)
| Eof (sf : srcfiles) (error : bool)
| Failed (f : fault).

Fixpoint add_tokens (l : list (token * srcpos * srcfiles * bool)) (e : tokens) : tokens :=
  match l with
  | [] => e
  | (t, pos, sf, error) :: l => add_tokens l (Tok t pos sf error e)
  end.

Definition lex_all (lx : lexer) : res tokens :=
  loop (fun '(lx, read) =>
    match yylex lx with
    | Fault f => Ret (Break (add_tokens read (Failed f)))
    | Ret (None, lx) => Ret (Break (add_tokens read (Eof (lx_files lx) (lx_error lx))))
    | Ret (Some (t, pos), lx) =>
      if ends_input t then Ret (Break (add_tokens read (Eof (lx_files lx) (lx_error lx))))
      else Ret (Continue (lx, (t, pos, lx_files lx, lx_error lx) :: read))
    end) (lx, []).
End scanner.
