(* ===== verification/DtcParser.v ===== *)
(** dtc/dtc-parser.y: the parser and what it builds. Every function parses a
    nonterminal of the grammar, by one token of lookahead, and runs its actions
    where the grammar has them. *)
From S2P Require Import Prelude Monad Ctype DtcUtil DtcSrcpos DtcRegex DtcLexer DtcData DtcTree.

(** ** The state

    What is to be read; the source files, and the files as the scanner left
    them when it had read as much; [treesource_error]; and the static counter
    of [add_orphan_node]. *)
Record pstate := PState {
  p_toks : tokens;
  p_files : srcfiles;
  p_scanned : srcfiles;
  p_error : bool;
  p_orphan : Z;
}.

(** A result, or [yyparse] ends with 1. *)
Definition parser (A : Type) : Type := pstate -> res (option (A * pstate)).

Definition pret {A} (a : A) : parser A := fun s => Ret (Some (a, s)).
Definition pthen {A B} (p : parser A) (k : A -> parser B) : parser B := fun s =>
  match p s with
  | Ret (Some (a, s)) => k a s
  | Ret None => Ret None
  | Fault f => Fault f
  end.

Declare Scope parser_scope.
Delimit Scope parser_scope with parser.
Open Scope parser_scope.

Notation "'let?' x := e 'in' k" := (pthen e (fun x => k))
  (at level 10, x binder, e at level 200, k at level 200, format "'let?'  x  :=  e  'in' '//' k") : parser_scope.
Notation "'let?' ' p := e 'in' k" := (pthen e (fun p => k))
  (at level 10, p strict pattern, e at level 200, k at level 200, format "'let?'  ' p  :=  e  'in' '//' k") : parser_scope.

(** A step that does not read. *)
Definition lift {A} (r : res A) : parser A := fun s =>
  match r with Ret a => Ret (Some (a, s)) | Fault f => Fault f end.

(** No fuel left: [DtcGrammar] shows it is never reached. *)
Definition diverge {A} : parser A := fun _ => Fault Fuel.

(** ERROR: the message is not modelled. *)
Definition ERROR : parser unit := fun s =>
  Ret (Some (tt, PState (p_toks s) (p_files s) (p_scanned s) true (p_orphan s))).
Definition error_if (b : bool) : parser unit := if b then ERROR else pret tt.
(** The grammar has no error recovery. *)
Definition syntax_error {A} : parser A := fun _ => Ret None.

(** The files after the parser has read a token: those of the scanner, but for
    what the parser has put into the dependency file. *)
Definition advance_files (mine before now : srcfiles) : srcfiles :=
  SrcFiles (src_files now) (current_srcfile now) (srcfile_depth now) (search_path now) (initial_path now)
    (initial_pathlen now) (initial_cpp now)
    match depfile mine, depfile before, depfile now with
    | Some m, Some b, Some n => Some (m ++ drop (length b) n)
    | _, _, d => d
    end.

(** The state behind a token. *)
Definition advance_to (sf : srcfiles) (error : bool) (rest : tokens) (s : pstate) : pstate :=
  PState rest (advance_files (p_files s) (p_scanned s) sf) sf (p_error s || error) (p_orphan s).

Definition next : parser token := fun s =>
  match p_toks s with
  | Tok t _ sf error rest => Ret (Some (t, advance_to sf error rest s))
  | Eof _ _ => Ret None
  | Failed f => Fault f
  end.

(** The lookahead, None at the end. *)
Definition peek : parser (option token) := fun s =>
  match p_toks s with
  | Tok t _ _ _ _ => Ret (Some (Some t, s))
  | Eof _ _ => Ret (Some (None, s))
  | Failed f => Fault f
  end.

Definition expect (c : byte) : parser unit :=
  let? t := next in
  match t with
  | Char c' => if bool_decide (c' = c) then pret tt else syntax_error
  | _ => syntax_error
  end.

(** The lookahead is that character. *)
Definition at_char (c : byte) (t : option token) : bool :=
  match t with Some (Char c') => bool_decide (c' = c) | _ => false end.

(** How many tokens are left. *)
Fixpoint count (t : tokens) : nat :=
  match t with Tok _ _ _ _ rest => S (count rest) | _ => O end.
Definition left_ (s : pstate) : nat := count (p_toks s).

(** A left recursive rule: [body] goes on or ends with a result; each round
    reads a token, so there are no more rounds than tokens. *)
Fixpoint repeat_ {A B} (n : nat) (body : A -> parser (A + B)) (a : A) : parser B :=
  match n with
  | O => diverge
  | S n =>
    let? r := body a in
    match r with
    | inl a => repeat_ n body a
    | inr b => pret b
    end
  end.

Definition prepeat {A B} (body : A -> parser (A + B)) (a : A) : parser B := fun s => repeat_ (S (left_ s)) body a s.

(** ** Integer expressions *)

Definition of_bool (b : bool) : Z := if b then 1 else 0.

(** The value of an operator, and whether it divides by zero. *)
Definition operator : Type := token -> option (Z -> Z -> Z * bool).

Definition integer_or : operator := fun t =>
  match t with DT_OR => Some (fun a b => (of_bool (negb (a =? 0) || negb (b =? 0)), false)) | _ => None end.
Definition integer_and : operator := fun t =>
  match t with DT_AND => Some (fun a b => (of_bool (negb (a =? 0) && negb (b =? 0)), false)) | _ => None end.
Definition integer_bitor : operator := fun t =>
  match t with Char "|" => Some (fun a b => (Z.lor a b, false)) | _ => None end.
Definition integer_bitxor : operator := fun t =>
  match t with Char "^" => Some (fun a b => (Z.lxor a b, false)) | _ => None end.
Definition integer_bitand : operator := fun t =>
  match t with Char "&" => Some (fun a b => (Z.land a b, false)) | _ => None end.
Definition integer_eq : operator := fun t =>
  match t with
  | DT_EQ => Some (fun a b => (of_bool (a =? b), false))
  | DT_NE => Some (fun a b => (of_bool (negb (a =? b)), false))
  | _ => None
  end.
Definition integer_rela : operator := fun t =>
  match t with
  | Char "<" => Some (fun a b => (of_bool (a <? b), false))
  | Char ">" => Some (fun a b => (of_bool (b <? a), false))
  | DT_LE => Some (fun a b => (of_bool (a <=? b), false))
  | DT_GE => Some (fun a b => (of_bool (b <=? a), false))
  | _ => None
  end.
Definition integer_shift : operator := fun t =>
  match t with
  | DT_LSHIFT => Some (fun a b => (if b <? 64 then u64 (Z.shiftl a b) else 0, false))
  | DT_RSHIFT => Some (fun a b => (if b <? 64 then Z.shiftr a b else 0, false))
  | _ => None
  end.
Definition integer_add : operator := fun t =>
  match t with
  | Char "+" => Some (fun a b => (u64 (a + b), false))
  | Char "-" => Some (fun a b => (u64 (a - b), false))
  | _ => None
  end.
Definition integer_mul : operator := fun t =>
  match t with
  | Char "*" => Some (fun a b => (u64 (a * b), false))
  | Char "/" => Some (fun a b => if negb (b =? 0) then (a / b, false) else (0, true))
  | Char "%" => Some (fun a b => if negb (b =? 0) then (a mod b, false) else (0, true))
  | _ => None
  end.

(** From the loosest to the tightest: [integer_or] is a list of
    [integer_and] with DT_OR between them, and so on down to
    [integer_unary]. *)
Definition operators : list operator :=
  [integer_or; integer_and; integer_bitor; integer_bitxor; integer_bitand; integer_eq; integer_rela; integer_shift;
   integer_add; integer_mul].

(** The operands of one level, and the operators between them, from the left. *)
Definition binary (op : operator) (operand : parser Z) (a : Z) : parser (Z + Z) :=
  let? t := peek in
  match t ≫= op with
  | Some f =>
    let? _ := next in
    let? b := operand in
    let '(v, by_zero) := f a b in
    let? _ := error_if by_zero in
    pret (inl v)
  | None => pret (inr a)
  end.

Fixpoint level (ops : list operator) (unary : parser Z) : parser Z :=
  match ops with
  | [] => unary
  | op :: ops => let? a := level ops unary in prepeat (binary op (level ops unary)) a
  end.

(** The prefix operators. *)
Definition prefix_op (t : token) : option (Z -> Z) :=
  match t with
  | Char "-" => Some (fun v => u64 (- v))
  | Char "~" => Some (fun v => u64 (Z.lnot v))
  | Char "!" => Some (fun v => of_bool (v =? 0))
  | _ => None
  end.

Fixpoint integer_unary (n : nat) : parser Z :=
  match n with
  | O => diverge
  | S n =>
    let? t := peek in
    match t ≫= prefix_op with
    | Some f => let? _ := next in let? v := integer_unary n in pret (f v)
    | None => integer_prim_ n
    end
  end
with integer_prim_ (n : nat) : parser Z :=
  match n with
  | O => diverge
  | S n =>
    let? t := next in
    match t with
    | DT_LITERAL v => pret v
    | DT_CHAR_LITERAL v => pret v
    | Char "(" => let? v := integer_expr n in let? _ := expect ")" in pret v
    | _ => syntax_error
    end
  end
with integer_expr (n : nat) : parser Z :=
  match n with
  | O => diverge
  | S n =>
    let? a := level operators (integer_unary n) in
    let? t := peek in
    if at_char "?" t then
      let? _ := next in
      let? b := integer_expr n in
      let? _ := expect ":" in
      let? c := integer_expr n in
      pret (if negb (a =? 0) then b else c)
    else pret a
  end.

(** Each pair of parentheses is a token at least. *)
Definition integer_prim : parser Z := fun s => integer_prim_ (3 * left_ s + 1) s.

Section grammar.
(** The files, as for the scanner. *)
Context (fopen : list byte -> bool) (contents : list byte -> res (list byte)).

(** ** Values *)

Definition dt_ref : parser (list byte) :=
  let? t := next in
  match t with
  | DT_LABEL_REF r => pret r
  | DT_PATH_REF r => pret r
  | _ => syntax_error
  end.

Definition array_prefix (bits : Z) : parser (data * Z) :=
  let type := if bits =? 8 then Some TYPE_UINT8 else if bits =? 16 then Some TYPE_UINT16
              else if bits =? 32 then Some TYPE_UINT32 else if bits =? 64 then Some TYPE_UINT64 else None in
  match type with
  | Some t => pret (data_add_marker empty_data t None, bits)
  | None => let? _ := ERROR in pret (data_add_marker empty_data TYPE_UINT32 None, 32)
  end.

(** Whether a value has bits that an element has no room for. *)
Definition out_of_range (bits v : Z) : bool :=
  if bits <? 64 then
    let mask := Z.shiftl 1 bits - 1 in
    (mask <? v) && negb (Z.lor v mask =? 18446744073709551615)
  else false.

Definition array_integer (a : data * Z) (v : Z) : parser (data * Z) :=
  let '(d, bits) := a in
  let? _ := error_if (out_of_range bits v) in
  let? d := lift (data_append_integer d v bits) in
  pret (d, bits).

Definition array_ref (a : data * Z) (ref : list byte) : parser (data * Z) :=
  let '(d, bits) := a in
  let val := Z.shiftr 18446744073709551615 (64 - bits) in
  let? d := if bits =? 32 then pret (data_add_marker d REF_PHANDLE (Some ref)) else let? _ := ERROR in pret d in
  let? d := lift (data_append_integer d val bits) in
  pret (d, bits).

(** [arrayprefix] behind its first symbols. *)
Definition array_element (a : data * Z) : parser ((data * Z) + (data * Z)) :=
  let? t := peek in
  match t with
  | Some (DT_LITERAL _) | Some (DT_CHAR_LITERAL _) | Some (Char "(") =>
    let? v := integer_prim in let? a := array_integer a v in pret (inl a)
  | Some (DT_LABEL_REF _) | Some (DT_PATH_REF _) => let? r := dt_ref in let? a := array_ref a r in pret (inl a)
  | Some (DT_LABEL l) => let? _ := next in pret (inl (data_add_marker a.1 LABEL (Some l), a.2))
  | _ => pret (inr a)
  end.

Definition bytestring_element (d : data) : parser (data + data) :=
  let? t := peek in
  match t with
  | Some (DT_BYTE b) => let? _ := next in let? d := lift (data_append_byte d b) in pret (inl d)
  | Some (DT_LABEL l) => let? _ := next in pret (inl (data_add_marker d LABEL (Some l)))
  | _ => pret (inr d)
  end.

(** The part of a file, [len] all bits set for the rest of it. *)
Definition include_binary (fname : list byte) (offset len : Z) : parser data := fun s =>
  let fname := c_str fname in
  let! '(name, sf) := srcfile_relative_open fopen fname (p_files s) in
  let! f := contents (if streq fname (str "-") then str "-" else name) in
  (* fseek refuses a negative offset *)
  if 9223372036854775808 <=? offset then Fault Die else
  let! d := data_copy_file (drop (Z.to_nat offset) f) (if len =? 18446744073709551615 then None else Some len) in
  Ret (Some (d, PState (p_toks s) sf (p_scanned s) (p_error s) (p_orphan s))).

(** The arguments of DT_INCBIN behind the name. *)
Definition incbin_range : parser (Z * Z) :=
  let? t := next in
  match t with
  | Char ")" => pret (0, 18446744073709551615)
  | Char "," =>
    let? offset := integer_prim in
    let? _ := expect "," in
    let? len := integer_prim in
    let? _ := expect ")" in
    pret (offset, len)
  | _ => syntax_error
  end.

(** What a value is made of, behind the [propdataprefix] [d]. *)
Definition value_element (d : data) (t : token) : parser data :=
  match t with
  | DT_STRING v => lift (data_merge d v)
  | DT_BITS =>
    let? t := next in
    match t with
    | DT_LITERAL bits =>
      let? _ := expect "<" in
      let? a := array_prefix bits in
      let? a := prepeat array_element a in
      let? _ := expect ">" in
      lift (data_merge d a.1)
    | _ => syntax_error
    end
  | Char "<" =>
    let? a := array_prefix 32 in
    let? a := prepeat array_element a in
    let? _ := expect ">" in
    lift (data_merge d a.1)
  | Char "[" =>
    let? b := prepeat bytestring_element (data_add_marker empty_data TYPE_UINT8 None) in
    let? _ := expect "]" in
    lift (data_merge d b)
  | DT_LABEL_REF r | DT_PATH_REF r =>
    pret (data_add_marker (data_add_marker d TYPE_STRING (Some r)) REF_PATH (Some r))
  | DT_INCBIN =>
    let? _ := expect "(" in
    let? name := next in
    match name with
    | DT_STRING name =>
      let? '(offset, len) := incbin_range in
      let? v := include_binary (d_val name) offset len in
      lift (data_merge d v)
    | _ => syntax_error
    end
  | _ => syntax_error
  end.

(** [propdataprefix] and [propdata] in turn: [more] when an element is to
    come. *)
Definition value_step (a : bool * data) : parser ((bool * data) + data) :=
  let '(more, d) := a in
  if more : bool then
    let? t := next in
    match t with
    | DT_LABEL l => pret (inl (true, data_add_marker d LABEL (Some l)))
    | _ => let? d := value_element d t in pret (inl (false, d))
    end
  else
    let? t := peek in
    match t with
    | Some (DT_LABEL l) => let? _ := next in pret (inl (false, data_add_marker d LABEL (Some l)))
    | _ => if at_char "," t then let? _ := next in pret (inl (true, d)) else pret (inr d)
    end.

Definition propdata : parser data := prepeat value_step (true, empty_data).

(** ** Nodes *)

Definition p_add_label (l : list byte) (p : property) : property :=
  Property (p_deleted p) (p_name p) (p_val p) (add_label (p_labels p) l).
Definition n_add_label (l : list byte) (n : node) : node := n_set_labels (add_label (n_labels n) l) n.

Definition propnode_name : parser (list byte) :=
  let? t := next in
  match t with DT_PROPNODENAME name => pret name | _ => syntax_error end.

(** [propdef] or [subnode]: which one shows behind the labels and the name;
    [prop] when both are allowed. A node's body is a [proplist] and then
    [subnodes]. *)
Fixpoint entry (n : nat) (prop : bool) : parser (property + node) :=
  match n with
  | O => diverge
  | S n =>
    let? t := next in
    match t with
    | DT_LABEL l =>
      let? e := entry n prop in
      pret match e with inl p => inl (p_add_label l p) | inr c => inr (n_add_label l c) end
    | DT_PROPNODENAME name =>
      let? t := peek in
      if at_char "{" t then
        let? c := nodedef n in
        let? c := lift (name_node c name) in
        pret (inr c)
      else
        if negb prop then syntax_error else
        let? t := next in
        match t with
        | Char "=" =>
          let? d := propdata in
          let? _ := expect ";" in
          pret (inl (build_property name d))
        | Char ";" => pret (inl (build_property name empty_data))
        | _ => syntax_error
        end
    | DT_DEL_PROP =>
      if negb prop then syntax_error else
      let? name := propnode_name in
      let? _ := expect ";" in
      pret (inl (build_property_delete name))
    | DT_DEL_NODE =>
      let? name := propnode_name in
      let? _ := expect ";" in
      let? c := lift (name_node build_node_delete name) in
      pret (inr c)
    | DT_OMIT_NO_REF =>
      let? e := entry n false in
      match e with
      | inr c => pret (inr (omit_node_if_unused c))
      | inl _ => syntax_error
      end
    | _ => syntax_error
    end
  end
with nodedef (n : nat) : parser node :=
  match n with
  | O => diverge
  | S n =>
    let? _ := expect "{" in
    let? '(props, children) := node_body n [] in
    let? _ := expect "}" in
    let? _ := expect ";" in
    pret (build_node props children)
  end
with node_body (n : nat) (props : list property) : parser (list property * list node) :=
  match n with
  | O => diverge
  | S n =>
    let? t := peek in
    if at_char "}" t then pret (props, []) else
    let? e := entry n true in
    match e with
    | inl p => let? props := lift (chain_property [p] props) in node_body n props
    | inr c =>
      let? rest := subnodes n in
      let? children := lift (chain_node [c] rest) in
      pret (props, children)
    end
  end
with subnodes (n : nat) : parser (list node) :=
  match n with
  | O => diverge
  | S n =>
    let? t := peek in
    if at_char "}" t then pret [] else
    let? e := entry n true in
    match e with
    | inl _ => (* properties must precede subnodes *) let? _ := ERROR in syntax_error
    | inr c => let? rest := subnodes n in lift (chain_node [c] rest)
    end
  end.

(** Every second call reads a token at least. *)
Definition parse_nodedef : parser node := fun s => nodedef (2 * left_ s + 2) s.

(** ** The tree *)

(** A change of the node [ref] stands for; ERROR without one. *)
Definition with_target (tree : node) (ref : list byte) (f : node -> node) : parser node :=
  let? target := lift (get_node_by_ref tree ref) in
  match target with
  | Some pos => pret (update_at tree pos f)
  | None => let? _ := ERROR in pret tree
  end.

Definition plugin (flags : Z) : bool := negb (Z.land flags DTSF_PLUGIN =? 0).

Definition add_orphan (tree n : node) (ref : list byte) : parser node := fun s =>
  let! '(tree, counter) := add_orphan_node tree n ref (p_orphan s) in
  Ret (Some (tree, PState (p_toks s) (p_files s) (p_scanned s) (p_error s) counter)).

(** The first part of a tree. *)
Definition devicetree_first (flags : Z) : parser node :=
  let? t := next in
  match t with
  | Char "/" => let? n := parse_nodedef in lift (name_node n [])
  | DT_LABEL_REF r | DT_PATH_REF r =>
    let? n := parse_nodedef in
    let? _ := error_if (negb (plugin flags)) in
    let? root := lift (name_node (build_node [] []) []) in
    add_orphan root n r
  | _ => syntax_error
  end.

(** One more part. *)
Definition devicetree_step (flags : Z) (tree : node) : parser (node + node) :=
  let? t := peek in
  match t with
  | None => pret (inr tree)
  | Some _ =>
    let? t := next in
    let? tree :=
      match t with
      | Char "/" => let? n := parse_nodedef in pret (merge_nodes tree n)
      | DT_LABEL l =>
        let? r := dt_ref in
        let? n := parse_nodedef in
        with_target tree r (fun target => merge_nodes (n_add_label l target) n)
      | DT_PATH_REF r =>
        let? n := parse_nodedef in
        if plugin flags then add_orphan tree n r
        else with_target tree r (fun target => merge_nodes target n)
      | DT_LABEL_REF r =>
        let? n := parse_nodedef in
        let? target := lift (get_node_by_ref tree r) in
        match target with
        | Some pos => pret (update_at tree pos (fun target => merge_nodes target n))
        | None => if plugin flags then add_orphan tree n r else let? _ := ERROR in pret tree
        end
      | DT_DEL_NODE =>
        let? r := dt_ref in
        let? _ := expect ";" in
        with_target tree r delete_node
      | DT_OMIT_NO_REF =>
        let? r := dt_ref in
        let? _ := expect ";" in
        with_target tree r omit_node_if_unused
      | _ => syntax_error
      end in
    pret (inl tree)
  end.

Definition devicetree (flags : Z) : parser node :=
  let? tree := devicetree_first flags in prepeat (devicetree_step flags) tree.

(** ** The file *)

Definition header : parser Z :=
  let? t := next in
  match t with
  | DT_V1 =>
    let? _ := expect ";" in
    let? t := peek in
    match t with
    | Some DT_PLUGIN =>
      let? _ := next in
      let? _ := expect ";" in
      pret (Z.lor DTSF_V1 DTSF_PLUGIN)
    | _ => pret DTSF_V1
    end
  | _ => syntax_error
  end.

Fixpoint headers (n : nat) : parser Z :=
  match n with
  | O => diverge
  | S n =>
    let? flags := header in
    let? t := peek in
    match t with
    | Some DT_V1 =>
      let? rest := headers n in
      let? _ := error_if (negb (rest =? flags)) in
      pret flags
    | _ => pret flags
    end
  end.

Fixpoint memreserve (n : nat) : parser reserve_info :=
  match n with
  | O => diverge
  | S n =>
    let? t := next in
    match t with
    | DT_MEMRESERVE =>
      let? address := integer_prim in
      let? size := integer_prim in
      let? _ := expect ";" in
      pret (build_reserve_entry address size)
    | DT_LABEL l =>
      let? re := memreserve n in
      pret (ReserveInfo (rs_address re) (rs_size re) (add_label (rs_labels re) l))
    | _ => syntax_error
    end
  end.

Fixpoint memreserves (n : nat) : parser (list reserve_info) :=
  match n with
  | O => diverge
  | S n =>
    let? t := peek in
    match t with
    | Some DT_MEMRESERVE | Some (DT_LABEL _) =>
      let? re := memreserve n in
      let? rest := memreserves n in
      lift (chain_reserve_entry [re] rest)
    | _ => pret []
    end
  end.

Definition sourcefile : parser dt_info :=
  let? flags := fun s => headers (S (left_ s)) s in
  let? reserves := fun s => memreserves (S (S (left_ s))) s in
  let? tree := devicetree flags in
  let? cpuid := lift (guess_boot_cpuid tree) in
  pret (build_dt_info flags reserves tree cpuid).

(** ** yyparse *)

(** What [yyparse] leaves: its result, [treesource_error], [parser_output] and
    the source files. [no_output] is what [parser_output] is before. *)
Definition parse_tokens (no_output : dt_info) (t : tokens) (sf : srcfiles) : res (Z * bool * dt_info * srcfiles) :=
  let! r := sourcefile (PState t sf sf false 0) in
  Ret match r with
      | Some (dti, s) =>
        match p_toks s with
        | Eof now error => (0, p_error s || error, dti, advance_files (p_files s) (p_scanned s) now)
        | _ => (1, true, dti, p_files s)
        end
      | None => (1, true, no_output, sf)
      end.

(** The main file has just been opened: it is the current source file, and
    [text] is what it holds. *)
Definition yyparse (no_output : dt_info) (text : list byte) (sf : srcfiles) : res (Z * bool * dt_info * srcfiles) :=
  let! t := lex_all fopen contents (Lexer [(text, true)] INITIAL sf false) in
  parse_tokens no_output t sf.
End grammar.
