(* ===== verification/DtcGrammar.v ===== *)
(** The grammar of dtc/dtc-parser.y, a production a rule, and the parser as
    exactly that grammar: what it returns is derived with the actions run from
    the leaves up, and what is derived it returns. The recursion of the parser
    has the fuel it needs, whatever the tokens are. *)
From S2P Require Import Prelude Monad Ctype DtcUtil DtcSrcpos DtcRegex DtcLexer DtcData DtcTree DtcParser.

(** ** Steps *)

(** A parser, or an action, does a step. *)
Definition does {A} (p : parser A) (s : pstate) (a : A) (s' : pstate) : Prop := p s = Ret (Some (a, s')).

(** A token is read. *)
Definition shift (t : token) : pstate -> pstate -> Prop := fun s s' => does next s t s'.

Lemma does_ret {A} (a : A) s a' s' : does (pret a) s a' s' <-> a' = a /\ s' = s.
Proof. unfold does, pret. split; [by intros [= <- <-]|by intros [-> ->]]. Qed.

Lemma does_then {A B} (p : parser A) (k : A -> parser B) s b s' :
  does (pthen p k) s b s' <-> exists a s1, does p s a s1 /\ does (k a) s1 b s'.
Proof.
  unfold does, pthen. split.
  - destruct (p s) as [[[a s1]|]|]; [|done..]. intros H. eauto.
  - by intros (a & s1 & -> & H).
Qed.

Lemma does_lift {A} (r : res A) s a s' : does (lift r) s a s' <-> r = Ret a /\ s' = s.
Proof. unfold does, lift. destruct r; split; [by intros [= <- <-]|by intros [[= ->] ->]|done|by intros [? _]]. Qed.

Lemma does_error {A} s (a : A) s' : ~ does syntax_error s a s'.
Proof. done. Qed.

Lemma does_diverge {A} s (a : A) s' : ~ does diverge s a s'.
Proof. done. Qed.

(** What the next token is, when the scanner did not fail there. *)
Definition looks (s : pstate) (o : option token) : Prop := does peek s o s.

Lemma does_peek s o s' : does peek s o s' <-> looks s o /\ s' = s.
Proof. unfold looks, does, peek. destruct (p_toks s); naive_solver. Qed.

Lemma looks_shift t s s' : shift t s s' -> looks s (Some t).
Proof. unfold shift, looks, does, next, peek. destruct (p_toks s); congruence. Qed.

Lemma shift_looks t s : looks s (Some t) -> exists s', shift t s s'.
Proof. unfold shift, looks, does, next, peek. destruct (p_toks s); intros [= ->]; eauto. Qed.

Lemma looks_det s o o' : looks s o -> looks s o' -> o = o'.
Proof. unfold looks, does. congruence. Qed.

Lemma does_det {A} (p : parser A) s a s1 b s2 : does p s a s1 -> does p s b s2 -> a = b /\ s1 = s2.
Proof. unfold does. intros -> [= <- <-]. done. Qed.

Lemma does_expect c s u s' : does (expect c) s u s' <-> u = tt /\ shift (Char c) s s'.
Proof.
  unfold expect. rewrite does_then. split.
  - intros (t & s1 & H1 & H2). destruct t as [| | | | | | | | | | | | | | | | | | | | | | | |x]; try by apply does_error in H2.
    case_bool_decide; [|by apply does_error in H2]. apply does_ret in H2 as [-> ->]. by subst x.
  - intros [-> H]. exists (Char c), s'. split; [done|]. by rewrite bool_decide_true.
Qed.

Lemma looks_same t o s s' : looks s o -> shift t s s' -> o = Some t.
Proof. intros H1 H2. eapply looks_det; [exact H1|by eapply looks_shift]. Qed.

Lemma at_char_spec c t : reflect (t = Some (Char c)) (at_char c t).
Proof.
  destruct t as [[]|]; cbn; try (by constructor). case_bool_decide; subst; constructor; congruence.
Qed.

(** Every step of a parser is a step of its parts. *)
Ltac parts1 :=
  match goal with
    | u : unit |- _ => destruct u
    | H : does (pthen _ _) _ _ _ |- _ => apply does_then in H as (? & ? & ? & H)
    | H : does (pret _) _ _ _ |- _ => apply does_ret in H as [? ?]
    | H : does (lift _) _ _ _ |- _ => apply does_lift in H as [? ?]
    | H : does (expect _) _ _ _ |- _ => apply does_expect in H as [? ?]
    | H : does peek _ _ _ |- _ => apply does_peek in H as [? ?]
    | H : does syntax_error _ _ _ |- _ => by apply does_error in H
    | H : does next ?s ?t ?s' |- _ => change (shift t s s') in H
    | H : does (if at_char ?c ?t then _ else _) _ _ _ |- _ => destruct (at_char_spec c t)
    | H : does (match ?x with _ => _ end) _ _ _ |- _ => destruct x eqn:?
    | H : inl _ = inl _ |- _ => injection H as ?
    | H : inr _ = inr _ |- _ => injection H as ?
    | H : Some _ = Some _ |- _ => injection H as ?
    | H : (_, _) = (_, _) |- _ => injection H as ? ?
    | H : _ = Char _ |- _ => first [discriminate H|injection H as ?]
    | H : inl _ = inr _ |- _ => discriminate H
    | H : inr _ = inl _ |- _ => discriminate H
    | H : Some _ = None |- _ => discriminate H
    | H : None = Some _ |- _ => discriminate H
    | H : ?x = _ |- _ => is_var x; subst x
    | H : _ = ?x |- _ => is_var x; subst x
    | H : Some _ ≫= _ = _ |- _ => progress cbn in H
    | H1 : looks ?s ?o, H2 : shift ?t ?s _ |- _ =>
      lazymatch o with Some t => fail | _ => pose proof (looks_same _ _ _ _ H1 H2) end
    end.
Ltac parts := repeat parts1.

(** ** Tokens left *)

Lemma shift_left t s s' : shift t s s' -> left_ s = S (left_ s').
Proof. unfold shift, does, next, left_. destruct (p_toks s); [|done|done]. by intros [= <- <-]. Qed.

(** Nothing is read. *)
Definition keeps {A} (p : parser A) : Prop := forall s a s', does p s a s' -> p_toks s' = p_toks s.

Lemma keeps_left {A} (p : parser A) s a s' : keeps p -> does p s a s' -> left_ s' = left_ s.
Proof. intros Hp H. unfold left_. by rewrite (Hp _ _ _ H). Qed.

Lemma keeps_looks {A} (p : parser A) s a s' o : keeps p -> does p s a s' -> looks s' o -> looks s o.
Proof. intros Hp H. unfold looks, does, peek. rewrite (Hp _ _ _ H). destruct (p_toks s); naive_solver. Qed.

Lemma keeps_ERROR : keeps ERROR.
Proof. intros s u s' [= <- <-]. done. Qed.

Lemma keeps_error_if b : keeps (error_if b).
Proof. destruct b; [apply keeps_ERROR|]. by intros s u s' [_ ->]%does_ret. Qed.

(** ** Repetition: rounds that read, and what holds after every round *)

Definition rounds {A B} (body : A -> parser (A + B)) : Prop :=
  forall a s a' s', does (body a) s (inl a') s' -> (left_ s' < left_ s)%nat.

Section repetition.
Context {A B : Type} (body : A -> parser (A + B)) (Hbody : rounds body).

Lemma repeat_fuel n m a s : (left_ s < n)%nat -> (left_ s < m)%nat -> repeat_ n body a s = repeat_ m body a s.
Proof using Hbody.
  revert m a s. induction n as [|n IH]; intros [|m] a s Hn Hm; try lia. cbn [repeat_]. unfold pthen.
  destruct (body a s) as [[[[a'|b] s']|]|] eqn:E; try done.
  pose proof (Hbody _ _ _ _ E) as H. apply IH; lia.
Qed.

Lemma prepeat_step a s a' s' : does (body a) s (inl a') s' -> prepeat body a s = prepeat body a' s'.
Proof using Hbody.
  intros H. unfold prepeat at 1. cbn [repeat_]. unfold pthen at 1. rewrite H.
  pose proof (Hbody _ _ _ _ H) as Hl. apply repeat_fuel; lia.
Qed.

Lemma prepeat_stop a s b s' : does (body a) s (inr b) s' -> does (prepeat body a) s b s'.
Proof using. intros H. unfold does, prepeat. cbn [repeat_]. unfold pthen. by rewrite H. Qed.

(** What holds of the start and stays after a round holds before the last. *)
Section invariant.
Context (I : A -> pstate -> Prop) (Hstep : forall a s a' s', I a s -> does (body a) s (inl a') s' -> I a' s').

Lemma repeat_inv n a s b s' : I a s -> does (repeat_ n body a) s b s' ->
  exists a1 s1, I a1 s1 /\ does (body a1) s1 (inr b) s'.
Proof using Hstep.
  revert a s. induction n as [|n IH]; intros a s Hi H; [done|].
  cbn [repeat_] in H. apply does_then in H as (r & s1 & E & H). destruct r as [a1|b1].
  - eapply IH, H. by eapply Hstep.
  - apply does_ret in H as [-> ->]. by exists a, s.
Qed.

Lemma prepeat_inv a s b s' : I a s -> does (prepeat body a) s b s' ->
  exists a1 s1, I a1 s1 /\ does (body a1) s1 (inr b) s'.
Proof using Hstep. intros Hi H. by eapply repeat_inv. Qed.
End invariant.

End repetition.

(** ** The grammar

    [nonterminal s v s']: from the state [s] the nonterminal derives the tokens
    up to [s'], and [v] is its value. *)
Module Grammar.
Section grammar.
Context (fopen : list byte -> bool) (contents : list byte -> res (list byte)).

Inductive dt_ref : pstate -> list byte -> pstate -> Prop :=
| dt_ref_label r s s' : shift (DT_LABEL_REF r) s s' -> dt_ref s r s'
| dt_ref_path r s s' : shift (DT_PATH_REF r) s s' -> dt_ref s r s'.

(** [integer_level ops] are the left recursive nonterminals from [integer_or]
    to [integer_mul]: the lists of the next tighter one, with an operator of
    the level between two of them. *)
Inductive integer_prim : pstate -> Z -> pstate -> Prop :=
| prim_literal v s s' : shift (DT_LITERAL v) s s' -> integer_prim s v s'
| prim_char v s s' : shift (DT_CHAR_LITERAL v) s s' -> integer_prim s v s'
| prim_parens v s s1 s2 s' :
    shift (Char "(") s s1 -> integer_expr s1 v s2 -> shift (Char ")") s2 s' -> integer_prim s v s'
with integer_unary : pstate -> Z -> pstate -> Prop :=
| unary_prim v s s' : integer_prim s v s' -> integer_unary s v s'
| unary_op t f v s s1 s' :
    prefix_op t = Some f -> shift t s s1 -> integer_unary s1 v s' -> integer_unary s (f v) s'
with integer_level : list operator -> pstate -> Z -> pstate -> Prop :=
| level_unary v s s' : integer_unary s v s' -> integer_level [] s v s'
| level_tighter op ops v s s' : integer_level ops s v s' -> integer_level (op :: ops) s v s'
| level_op (op : operator) ops t f a b v by_zero s s1 s2 s3 s' :
    integer_level (op :: ops) s a s1 -> shift t s1 s2 -> op t = Some f -> integer_level ops s2 b s3 ->
    f a b = (v, by_zero) -> does (error_if by_zero) s3 tt s' -> integer_level (op :: ops) s v s'
with integer_expr : pstate -> Z -> pstate -> Prop :=
| expr_or v s s' : integer_level operators s v s' -> integer_expr s v s'
| expr_cond a b c s s1 s2 s3 s4 s' :
    integer_level operators s a s1 -> shift (Char "?") s1 s2 -> integer_expr s2 b s3 ->
    shift (Char ":") s3 s4 -> integer_expr s4 c s' -> integer_expr s (if negb (a =? 0) then b else c) s'.

Inductive arrayprefix : pstate -> data * Z -> pstate -> Prop :=
| array_bits bits a s s1 s2 s3 s' :
    shift DT_BITS s s1 -> shift (DT_LITERAL bits) s1 s2 -> shift (Char "<") s2 s3 ->
    does (array_prefix bits) s3 a s' -> arrayprefix s a s'
| array_cells a s s1 s' : shift (Char "<") s s1 -> does (array_prefix 32) s1 a s' -> arrayprefix s a s'
| array_prim a v a' s s1 s2 s' :
    arrayprefix s a s1 -> integer_prim s1 v s2 -> does (array_integer a v) s2 a' s' -> arrayprefix s a' s'
| array_dt_ref a r a' s s1 s2 s' :
    arrayprefix s a s1 -> dt_ref s1 r s2 -> does (array_ref a r) s2 a' s' -> arrayprefix s a' s'
| array_label a l s s1 s' :
    arrayprefix s a s1 -> shift (DT_LABEL l) s1 s' -> arrayprefix s (data_add_marker a.1 LABEL (Some l), a.2) s'.

Inductive bytestring : pstate -> data -> pstate -> Prop :=
| bytes_empty s : bytestring s (data_add_marker empty_data TYPE_UINT8 None) s
| bytes_byte d b d' s s1 s' :
    bytestring s d s1 -> shift (DT_BYTE b) s1 s' -> data_append_byte d b = Ret d' -> bytestring s d' s'
| bytes_label d l s s1 s' :
    bytestring s d s1 -> shift (DT_LABEL l) s1 s' -> bytestring s (data_add_marker d LABEL (Some l)) s'.

Inductive propdata : pstate -> data -> pstate -> Prop :=
| data_string d v d' s s1 s' :
    propdataprefix s d s1 -> shift (DT_STRING v) s1 s' -> data_merge d v = Ret d' -> propdata s d' s'
| data_array d a d' s s1 s2 s' :
    propdataprefix s d s1 -> arrayprefix s1 a s2 -> shift (Char ">") s2 s' -> data_merge d a.1 = Ret d' ->
    propdata s d' s'
| data_bytes d b d' s s1 s2 s3 s' :
    propdataprefix s d s1 -> shift (Char "[") s1 s2 -> bytestring s2 b s3 -> shift (Char "]") s3 s' ->
    data_merge d b = Ret d' -> propdata s d' s'
| data_ref d r s s1 s' :
    propdataprefix s d s1 -> dt_ref s1 r s' ->
    propdata s (data_add_marker (data_add_marker d TYPE_STRING (Some r)) REF_PATH (Some r)) s'
| data_incbin_range d name offset len v d' s s1 s2 s3 s4 s5 s6 s7 s8 s9 s' :
    propdataprefix s d s1 -> shift DT_INCBIN s1 s2 -> shift (Char "(") s2 s3 -> shift (DT_STRING name) s3 s4 ->
    shift (Char ",") s4 s5 -> integer_prim s5 offset s6 -> shift (Char ",") s6 s7 -> integer_prim s7 len s8 ->
    shift (Char ")") s8 s9 -> does (include_binary fopen contents (d_val name) offset len) s9 v s' ->
    data_merge d v = Ret d' -> propdata s d' s'
| data_incbin d name v d' s s1 s2 s3 s4 s5 s' :
    propdataprefix s d s1 -> shift DT_INCBIN s1 s2 -> shift (Char "(") s2 s3 -> shift (DT_STRING name) s3 s4 ->
    shift (Char ")") s4 s5 ->
    does (include_binary fopen contents (d_val name) 0 18446744073709551615) s5 v s' ->
    data_merge d v = Ret d' -> propdata s d' s'
| data_label d l s s1 s' :
    propdata s d s1 -> shift (DT_LABEL l) s1 s' -> propdata s (data_add_marker d LABEL (Some l)) s'
with propdataprefix : pstate -> data -> pstate -> Prop :=
| prefix_empty s : propdataprefix s empty_data s
| prefix_comma d s s1 s' : propdata s d s1 -> shift (Char ",") s1 s' -> propdataprefix s d s'
| prefix_label d l s s1 s' :
    propdataprefix s d s1 -> shift (DT_LABEL l) s1 s' -> propdataprefix s (data_add_marker d LABEL (Some l)) s'.

Inductive propdef : pstate -> property -> pstate -> Prop :=
| prop_value name d s s1 s2 s3 s' :
    shift (DT_PROPNODENAME name) s s1 -> shift (Char "=") s1 s2 -> propdata s2 d s3 -> shift (Char ";") s3 s' ->
    propdef s (build_property name d) s'
| prop_empty name s s1 s' :
    shift (DT_PROPNODENAME name) s s1 -> shift (Char ";") s1 s' -> propdef s (build_property name empty_data) s'
| prop_delete name s s1 s2 s' :
    shift DT_DEL_PROP s s1 -> shift (DT_PROPNODENAME name) s1 s2 -> shift (Char ";") s2 s' ->
    propdef s (build_property_delete name) s'
| prop_label l p s s1 s' : shift (DT_LABEL l) s s1 -> propdef s1 p s' -> propdef s (p_add_label l p) s'.

Inductive proplist : pstate -> list property -> pstate -> Prop :=
| props_empty s : proplist s [] s
| props_more ps p ps' s s1 s' :
    proplist s ps s1 -> propdef s1 p s' -> chain_property [p] ps = Ret ps' -> proplist s ps' s'.

(** The production of [subnodes] with a [propdef] ends in YYERROR and derives
    nothing. *)
Inductive nodedef : pstate -> node -> pstate -> Prop :=
| node_braces ps cs s s1 s2 s3 s4 s' :
    shift (Char "{") s s1 -> proplist s1 ps s2 -> subnodes s2 cs s3 -> shift (Char "}") s3 s4 ->
    shift (Char ";") s4 s' -> nodedef s (build_node ps cs) s'
with subnodes : pstate -> list node -> pstate -> Prop :=
| nodes_empty s : subnodes s [] s
| nodes_more c cs cs' s s1 s' :
    subnode s c s1 -> subnodes s1 cs s' -> chain_node [c] cs = Ret cs' -> subnodes s cs' s'
with subnode : pstate -> node -> pstate -> Prop :=
| sub_def name c c' s s1 s' :
    shift (DT_PROPNODENAME name) s s1 -> nodedef s1 c s' -> name_node c name = Ret c' -> subnode s c' s'
| sub_delete name c s s1 s2 s' :
    shift DT_DEL_NODE s s1 -> shift (DT_PROPNODENAME name) s1 s2 -> shift (Char ";") s2 s' ->
    name_node build_node_delete name = Ret c -> subnode s c s'
| sub_omit c s s1 s' : shift DT_OMIT_NO_REF s s1 -> subnode s1 c s' -> subnode s (omit_node_if_unused c) s'
| sub_label l c s s1 s' : shift (DT_LABEL l) s s1 -> subnode s1 c s' -> subnode s (n_add_label l c) s'.

(** [flags] is the value of [headers], below on the parser's stack. *)
Inductive devicetree (flags : Z) : pstate -> node -> pstate -> Prop :=
| tree_root n n' s s1 s' :
    shift (Char "/") s s1 -> nodedef s1 n s' -> name_node n [] = Ret n' -> devicetree flags s n' s'
| tree_merge tree n s s1 s2 s' :
    devicetree flags s tree s1 -> shift (Char "/") s1 s2 -> nodedef s2 n s' -> devicetree flags s (merge_nodes tree n) s'
| tree_first_ref r n root tree s s1 s2 s3 s' :
    dt_ref s r s1 -> nodedef s1 n s2 -> does (error_if (negb (plugin flags))) s2 tt s3 ->
    name_node (build_node [] []) [] = Ret root -> does (add_orphan root n r) s3 tree s' -> devicetree flags s tree s'
| tree_label_ref tree l r n tree' s s1 s2 s3 s4 s' :
    devicetree flags s tree s1 -> shift (DT_LABEL l) s1 s2 -> dt_ref s2 r s3 -> nodedef s3 n s4 ->
    does (with_target tree r (fun target => merge_nodes (n_add_label l target) n)) s4 tree' s' ->
    devicetree flags s tree' s'
| tree_path tree r n tree' s s1 s2 s3 s' :
    devicetree flags s tree s1 -> shift (DT_PATH_REF r) s1 s2 -> nodedef s2 n s3 ->
    does (if plugin flags then add_orphan tree n r else with_target tree r (fun target => merge_nodes target n))
      s3 tree' s' -> devicetree flags s tree' s'
| tree_ref tree r n target tree' s s1 s2 s3 s' :
    devicetree flags s tree s1 -> shift (DT_LABEL_REF r) s1 s2 -> nodedef s2 n s3 ->
    get_node_by_ref tree r = Ret target ->
    does match target with
         | Some pos => pret (update_at tree pos (fun target => merge_nodes target n))
         | None => if plugin flags then add_orphan tree n r else let? _ := ERROR in pret tree
         end s3 tree' s' -> devicetree flags s tree' s'
| tree_delete tree r tree' s s1 s2 s3 s4 s' :
    devicetree flags s tree s1 -> shift DT_DEL_NODE s1 s2 -> dt_ref s2 r s3 -> shift (Char ";") s3 s4 ->
    does (with_target tree r delete_node) s4 tree' s' -> devicetree flags s tree' s'
| tree_omit tree r tree' s s1 s2 s3 s4 s' :
    devicetree flags s tree s1 -> shift DT_OMIT_NO_REF s1 s2 -> dt_ref s2 r s3 -> shift (Char ";") s3 s4 ->
    does (with_target tree r omit_node_if_unused) s4 tree' s' -> devicetree flags s tree' s'.

Inductive header : pstate -> Z -> pstate -> Prop :=
| header_v1 s s1 s' : shift DT_V1 s s1 -> shift (Char ";") s1 s' -> header s DTSF_V1 s'
| header_plugin s s1 s2 s3 s' :
    shift DT_V1 s s1 -> shift (Char ";") s1 s2 -> shift DT_PLUGIN s2 s3 -> shift (Char ";") s3 s' ->
    header s (Z.lor DTSF_V1 DTSF_PLUGIN) s'.

Inductive headers : pstate -> Z -> pstate -> Prop :=
| headers_one flags s s' : header s flags s' -> headers s flags s'
| headers_more flags rest s s1 s2 s' :
    header s flags s1 -> headers s1 rest s2 -> does (error_if (negb (rest =? flags))) s2 tt s' -> headers s flags s'.

Inductive memreserve : pstate -> reserve_info -> pstate -> Prop :=
| reserve_entry address size s s1 s2 s3 s' :
    shift DT_MEMRESERVE s s1 -> integer_prim s1 address s2 -> integer_prim s2 size s3 -> shift (Char ";") s3 s' ->
    memreserve s (build_reserve_entry address size) s'
| reserve_label l re s s1 s' :
    shift (DT_LABEL l) s s1 -> memreserve s1 re s' ->
    memreserve s (ReserveInfo (rs_address re) (rs_size re) (add_label (rs_labels re) l)) s'.

Inductive memreserves : pstate -> list reserve_info -> pstate -> Prop :=
| reserves_empty s : memreserves s [] s
| reserves_more re rest l s s1 s' :
    memreserve s re s1 -> memreserves s1 rest s' -> chain_reserve_entry [re] rest = Ret l -> memreserves s l s'.

Inductive sourcefile : pstate -> dt_info -> pstate -> Prop :=
| source flags reserves tree cpuid s s1 s2 s' :
    headers s flags s1 -> memreserves s1 reserves s2 -> devicetree flags s2 tree s' ->
    guess_boot_cpuid tree = Ret cpuid -> sourcefile s (build_dt_info flags reserves tree cpuid) s'.
End grammar.

Scheme integer_prim_mut := Induction for integer_prim Sort Prop
with integer_unary_mut := Induction for integer_unary Sort Prop
with integer_level_mut := Induction for integer_level Sort Prop
with integer_expr_mut := Induction for integer_expr Sort Prop.
Combined Scheme integer_mut from integer_prim_mut, integer_unary_mut, integer_level_mut, integer_expr_mut.

Scheme propdata_mut := Induction for propdata Sort Prop
with propdataprefix_mut := Induction for propdataprefix Sort Prop.
Combined Scheme value_mut from propdata_mut, propdataprefix_mut.

Scheme nodedef_mut := Induction for nodedef Sort Prop
with subnodes_mut := Induction for subnodes Sort Prop
with subnode_mut := Induction for subnode Sort Prop.
Combined Scheme node_mut from nodedef_mut, subnodes_mut, subnode_mut.
End Grammar.

(** ** What is returned is derived *)

Lemma level_sound ops (unary : parser Z) :
  (forall s v s', does unary s v s' -> Grammar.integer_unary s v s') ->
  forall s v s', does (level ops unary) s v s' -> Grammar.integer_level ops s v s'.
Proof.
  intros Hu. induction ops as [|op ops IH]; intros s v s' H; cbn [level] in H; [constructor; auto|].
  apply does_then in H as (a & s1 & Ha & H).
  destruct (prepeat_inv (binary op (level ops unary)) (fun a s1 => Grammar.integer_level (op :: ops) s a s1))
    with (3 := H) as (a1 & s2 & Hi & H1).
  - intros a1 s2 a2 s3 Hi Hb. unfold binary in Hb. parts. by eapply Grammar.level_op; eauto.
  - apply Grammar.level_tighter. auto.
  - unfold binary in H1. parts. done.
Qed.

Lemma expressions_sound n :
  (forall s v s', does (integer_unary n) s v s' -> Grammar.integer_unary s v s') /\
  (forall s v s', does (integer_prim_ n) s v s' -> Grammar.integer_prim s v s') /\
  (forall s v s', does (integer_expr n) s v s' -> Grammar.integer_expr s v s').
Proof.
  induction n as [|n (IHu & IHp & IHe)]; [done|]. split_and!; intros s v s' H.
  - cbn [integer_unary] in H. parts; [eapply Grammar.unary_op; eauto|apply Grammar.unary_prim; auto].
  - cbn [integer_prim_] in H. parts; eauto using Grammar.prim_literal, Grammar.prim_char, Grammar.prim_parens.
  - cbn [integer_expr] in H. apply does_then in H as (a & s1 & Ha%level_sound & H); [|exact IHu].
    apply does_then in H as (t & s2 & Ht & H). apply does_peek in Ht as [Ht ->].
    parts; [by eapply Grammar.expr_cond; eauto|by apply Grammar.expr_or].
Qed.

Lemma integer_prim_sound s v s' : does integer_prim s v s' -> Grammar.integer_prim s v s'.
Proof. apply expressions_sound. Qed.

Section sound.
Context (fopen : list byte -> bool) (contents : list byte -> res (list byte)).

Lemma dt_ref_sound s r s' : does dt_ref s r s' -> Grammar.dt_ref s r s'.
Proof. intros H. unfold dt_ref in H. parts; eauto using Grammar.dt_ref_label, Grammar.dt_ref_path. Qed.

Lemma array_sound s a s1 b s' :
  Grammar.arrayprefix s a s1 -> does (prepeat array_element a) s1 b s' -> Grammar.arrayprefix s b s'.
Proof.
  intros Ha H. destruct (prepeat_inv array_element (fun a s1 => Grammar.arrayprefix s a s1))
    with (3 := H) as (a1 & s2 & Hi & H1); [|done|].
  - intros a1 s2 a2 s3 Hi Hb. unfold array_element in Hb. parts;
      eauto using Grammar.array_prim, Grammar.array_dt_ref, Grammar.array_label, integer_prim_sound, dt_ref_sound.
  - unfold array_element in H1. parts; done.
Qed.

Lemma bytestring_sound s d s' :
  does (prepeat bytestring_element (data_add_marker empty_data TYPE_UINT8 None)) s d s' -> Grammar.bytestring s d s'.
Proof.
  intros H. destruct (prepeat_inv bytestring_element (fun a s1 => Grammar.bytestring s a s1))
    with (3 := H) as (a1 & s2 & Hi & H1); [|constructor|].
  - intros a1 s2 a2 s3 Hi Hb. unfold bytestring_element in Hb. parts; eauto using Grammar.bytes_byte, Grammar.bytes_label.
  - unfold bytestring_element in H1. parts; done.
Qed.

Lemma value_element_sound s d s1 t s2 d' s' :
  Grammar.propdataprefix fopen contents s d s1 -> shift t s1 s2 -> does (value_element fopen contents d t) s2 d' s' ->
  Grammar.propdata fopen contents s d' s'.
Proof.
  intros Hd Ht H. unfold value_element, incbin_range in H. parts;
    eauto using Grammar.data_string, Grammar.data_ref, Grammar.dt_ref_label, Grammar.dt_ref_path.
  - eapply Grammar.data_array; [done| |done..]. eapply array_sound; [|done]. by eapply Grammar.array_bits.
  - by eapply Grammar.data_incbin; eauto.
  - eapply Grammar.data_incbin_range; eauto using integer_prim_sound.
  - eapply Grammar.data_array; [done| |done..]. eapply array_sound; [|done]. by eapply Grammar.array_cells.
  - by eapply Grammar.data_bytes; eauto using bytestring_sound.
Qed.

Lemma propdata_sound s d s' : does (propdata fopen contents) s d s' -> Grammar.propdata fopen contents s d s'.
Proof.
  intros H. destruct (prepeat_inv (value_step fopen contents) (fun (a : bool * data) s1 =>
      if a.1 then Grammar.propdataprefix fopen contents s a.2 s1 else Grammar.propdata fopen contents s a.2 s1))
    with (3 := H) as ([more d1] & s2 & Hi & H1); [|constructor|].
  - intros [[] d1] s2 [more' d2] s3 Hi Hb; cbn in Hi; unfold value_step in Hb.
    + apply does_then in Hb as (t & s4 & Ht & Hb).
      assert ((exists l, t = DT_LABEL l /\ does (pret (inl (true, data_add_marker d1 LABEL (Some l)))) s4
                (inl (more', d2) : (bool * data) + data) s3) \/
              does (let? d := value_element fopen contents d1 t in pret (inl (false, d))) s4
                (inl (more', d2) : (bool * data) + data) s3) as [(l & -> & Hc)|Hc].
      { destruct t; eauto. }
      all: clear Hb.
      * parts. by eapply Grammar.prefix_label.
      * parts. by eapply value_element_sound.
    + parts; cbn; eauto using Grammar.data_label, Grammar.prefix_comma.
  - unfold value_step in H1. destruct more; parts; done.
Qed.
Lemma propnode_name_sound s name s' : does propnode_name s name s' -> shift (DT_PROPNODENAME name) s s'.
Proof. intros H. unfold propnode_name in H. by parts. Qed.

Definition entry_sound (n : nat) : Prop := forall prop s e s', does (entry fopen contents n prop) s e s' ->
  match e with
  | inl p => prop = true /\ Grammar.propdef fopen contents s p s'
  | inr c => Grammar.subnode fopen contents s c s'
  end.
Definition nodedef_sound (n : nat) : Prop := forall s c s',
  does (nodedef fopen contents n) s c s' -> Grammar.nodedef fopen contents s c s'.
Definition body_sound (n : nat) : Prop := forall s0 ps s r s',
  Grammar.proplist fopen contents s0 ps s -> does (node_body fopen contents n ps) s r s' ->
  exists s1, Grammar.proplist fopen contents s0 r.1 s1 /\ Grammar.subnodes fopen contents s1 r.2 s'.
Definition subnodes_sound (n : nat) : Prop := forall s cs s',
  does (subnodes fopen contents n) s cs s' -> Grammar.subnodes fopen contents s cs s'.

(** The specification of the entry that has been read. *)
Ltac entry_by IHe := try match goal with He : @does (property + node) _ _ _ _ |- _ => apply IHe in He end.

Lemma entry_sound_step n : entry_sound n -> nodedef_sound n -> entry_sound (S n).
Proof.
  intros IHe IHn prop s e s' H. cbn [entry] in H. parts; entry_by IHe.
  - split; [by destruct prop|]. eapply Grammar.prop_delete; eauto using propnode_name_sound.
  - eapply Grammar.sub_delete; eauto using propnode_name_sound.
  - by eapply Grammar.sub_omit.
  - eapply Grammar.sub_def; eauto.
  - split; [by destruct prop|]. by eapply Grammar.prop_empty.
  - split; [by destruct prop|]. eapply Grammar.prop_value; eauto using propdata_sound.
  - match goal with e : property + node |- _ => destruct e end;
      [destruct_and?; split; [done|]; by eapply Grammar.prop_label|by eapply Grammar.sub_label].
Qed.

Lemma body_sound_step n : entry_sound n -> body_sound n -> subnodes_sound n -> body_sound (S n).
Proof.
  intros IHe IHb IHs s0 ps s r s' Hp H. cbn [node_body] in H. parts; entry_by IHe.
  - eexists. split; [done|constructor].
  - destruct_and?. eapply IHb, H. by eapply Grammar.props_more.
  - eexists. split; [done|]. eapply Grammar.nodes_more; eauto.
Qed.

Lemma subnodes_sound_step n : entry_sound n -> subnodes_sound n -> subnodes_sound (S n).
Proof.
  intros IHe IHs s cs s' H. cbn [subnodes] in H. parts; [constructor|]. entry_by IHe.
  eapply Grammar.nodes_more; eauto.
Qed.

Lemma nodedef_sound_step n : body_sound n -> nodedef_sound (S n).
Proof.
  intros IHb s c s' H. cbn [nodedef] in H. parts.
  match goal with Hb : @does (list property * list node) _ _ _ _ |- _ =>
    destruct (IHb _ _ _ _ _ (Grammar.props_empty _ _ _) Hb) as (s2 & Hp & Hc) end.
  by eapply Grammar.node_braces.
Qed.

Lemma nodes_sound n : entry_sound n /\ nodedef_sound n /\ body_sound n /\ subnodes_sound n.
Proof.
  induction n as [|n (IHe & IHn & IHb & IHs)]; [by split_and!; intros ?|].
  split_and!; [by apply entry_sound_step|by apply nodedef_sound_step|by apply body_sound_step|by apply subnodes_sound_step].
Qed.

Lemma parse_nodedef_sound s c s' : does (parse_nodedef fopen contents) s c s' -> Grammar.nodedef fopen contents s c s'.
Proof. apply nodes_sound. Qed.

Lemma devicetree_sound flags s tree s' :
  does (devicetree fopen contents flags) s tree s' -> Grammar.devicetree fopen contents flags s tree s'.
Proof.
  intros H. unfold devicetree in H. apply does_then in H as (t0 & s1 & H0 & H).
  destruct (prepeat_inv (devicetree_step fopen contents flags) (fun t s1 => Grammar.devicetree fopen contents flags s t s1))
    with (3 := H) as (t1 & s2 & Hi & H1).
  - clear. intros t1 s1 t2 s2 Hi H. unfold devicetree_step in H. parts;
      repeat match goal with
      | H : does (parse_nodedef _ _) _ _ _ |- _ => apply parse_nodedef_sound in H
      | H : does dt_ref _ _ _ |- _ => apply dt_ref_sound in H
      end.
    all: try by (eapply Grammar.tree_delete; eauto).
    all: try by (eapply Grammar.tree_omit; eauto).
    all: try by (eapply Grammar.tree_label_ref; eauto).
    all: try by (eapply Grammar.tree_merge; eauto).
    all: try by (eapply Grammar.tree_path; eauto; case_match; congruence).
    all: eapply Grammar.tree_ref; eauto; cbn; rewrite ?does_ret; try done; rewrite Heqb; try done.
    apply does_then. eexists _, _. split; [eassumption|by apply does_ret].
  - unfold devicetree_first in H0. parts; eauto using Grammar.tree_root, parse_nodedef_sound;
      eapply Grammar.tree_first_ref; eauto using parse_nodedef_sound, Grammar.dt_ref_label, Grammar.dt_ref_path.
  - unfold devicetree_step in H1. by parts.
Qed.

Lemma header_sound s flags s' : does header s flags s' -> Grammar.header s flags s'.
Proof. intros H. unfold header in H. parts; eauto using Grammar.header_v1, Grammar.header_plugin. Qed.

Lemma headers_sound n s flags s' : does (headers n) s flags s' -> Grammar.headers s flags s'.
Proof.
  revert s flags s'. induction n as [|n IH]; intros s flags s' H; [done|]. cbn [headers] in H.
  parts; eauto using Grammar.headers_one, Grammar.headers_more, header_sound.
Qed.

Lemma memreserve_sound n s re s' : does (memreserve n) s re s' -> Grammar.memreserve s re s'.
Proof.
  revert s re s'. induction n as [|n IH]; intros s re s' H; [done|]. cbn [memreserve] in H.
  parts; eauto using Grammar.reserve_entry, Grammar.reserve_label, integer_prim_sound.
Qed.

Lemma memreserves_sound n s l s' : does (memreserves n) s l s' -> Grammar.memreserves s l s'.
Proof.
  revert s l s'. induction n as [|n IH]; intros s l s' H; [done|]. cbn [memreserves] in H.
  parts; eauto using Grammar.reserves_empty, Grammar.reserves_more, memreserve_sound.
Qed.

Lemma sourcefile_sound s dti s' :
  does (sourcefile fopen contents) s dti s' -> Grammar.sourcefile fopen contents s dti s'.
Proof.
  intros H. unfold sourcefile in H. parts.
  eapply Grammar.source; [eapply headers_sound|eapply memreserves_sound|by apply devicetree_sound|done];
    match goal with H : does (fun s => _) _ _ _ |- _ => exact H end.
Qed.
End sound.

(** ** What is derived is returned *)

(** *** Derivations read *)

Ltac lefts :=
  repeat match goal with
    | H : shift _ _ _ |- _ => apply shift_left in H
    | H : does (error_if _) _ _ _ |- _ => apply (keeps_left _ _ _ _ (keeps_error_if _)) in H
    end.

Lemma integers_left :
  (forall s v s', Grammar.integer_prim s v s' -> left_ s' < left_ s)%nat /\
  (forall s v s', Grammar.integer_unary s v s' -> left_ s' < left_ s)%nat /\
  (forall ops s v s', Grammar.integer_level ops s v s' -> left_ s' < left_ s)%nat /\
  (forall s v s', Grammar.integer_expr s v s' -> left_ s' < left_ s)%nat.
Proof.
  apply (Grammar.integer_mut (fun s v s' _ => left_ s' < left_ s)%nat (fun s v s' _ => left_ s' < left_ s)%nat
    (fun _ s v s' _ => left_ s' < left_ s)%nat (fun s v s' _ => left_ s' < left_ s)%nat); intros; lefts; lia.
Qed.

(** *** Expressions *)

(** None of the operators goes on with [o]. *)
Definition refused (ops : list operator) (o : option token) : Prop := Forall (fun op : operator => o ≫= op = None) ops.

(** An operator belongs to one level. *)
Definition disjoint_ops : list operator -> Prop :=
  ForallOrdPairs (fun op op' => forall t, is_Some (op t) -> op' t = None).

Lemma operators_disjoint : disjoint_ops operators.
Proof.
  repeat constructor; intros t [f Hf]; destruct t as [| | | | | | | | | | | | | | | | | | | | | | | |c]; try done;
    destruct c; done.
Qed.

(** The first token of an operand. *)
Definition prim_start (o : option token) : Prop :=
  match o with
  | Some (DT_LITERAL _) | Some (DT_CHAR_LITERAL _) => True
  | Some t => t = Char "("
  | _ => False
  end.

Lemma prim_looks s v s' : Grammar.integer_prim s v s' -> exists o, looks s o /\ prim_start o.
Proof. intros H; inversion H; subst; eauto using looks_shift. all: eexists; split; [by eapply looks_shift|done]. Qed.

(** The lists of the level [op] over the tighter levels are read up to [v]. *)
Definition level_read (ops : list operator) (n : nat) (s : pstate) (v : Z) (s' : pstate) : Prop :=
  match ops with
  | [] => does (integer_unary n) s v s'
  | op :: tighter =>
    level ops (integer_unary n) s = prepeat (binary op (level tighter (integer_unary n))) v s'
  end.

Lemma binary_rounds op ops n : rounds (binary op (level ops (integer_unary n))).
Proof.
  intros a s a' s' H. unfold binary in H. parts. lefts.
  match goal with H : does (level _ _) _ _ _ |- _ => apply level_sound in H; [|apply expressions_sound] end.
  match goal with H : Grammar.integer_level _ _ _ _ |- _ => apply integers_left in H end. lia.
Qed.

Lemma binary_stop op operand a s o : looks s o -> o ≫= op = None -> does (binary op operand a) s (inr a) s.
Proof.
  intros Hl Ho. unfold binary. apply does_then. exists o, s. split; [done|]. rewrite Ho. by apply does_ret.
Qed.

Lemma level_done ops n s v s' o :
  level_read ops n s v s' -> looks s' o -> refused ops o -> does (level ops (integer_unary n)) s v s'.
Proof.
  destruct ops as [|op ops]; cbn [level_read]; [done|]. intros H Hl Ho. unfold does. rewrite H.
  inversion Ho; subst. apply prepeat_stop. by eapply binary_stop.
Qed.

Lemma next_does t s s' : shift t s s' -> does next s t s'.
Proof. done. Qed.
Lemma peek_does o s : looks s o -> does peek s o s.
Proof. done. Qed.
Lemma expect_does c s s' : shift (Char c) s s' -> does (expect c) s tt s'.
Proof. by rewrite does_expect. Qed.
Lemma lift_does {A} (r : res A) (a : A) s : r = Ret a -> does (lift r) s a s.
Proof. by rewrite does_lift. Qed.
Lemma ret_does {A} (a : A) s : does (pret a) s a s.
Proof. by rewrite does_ret. Qed.
Lemma then_does {A B} (p : parser A) (k : A -> parser B) s a s1 b s' :
  does p s a s1 -> does (k a) s1 b s' -> does (pthen p k) s b s'.
Proof. rewrite does_then. eauto. Qed.

Create HintDb steps.
#[export] Hint Resolve next_does peek_does expect_does lift_does ret_does looks_shift : steps.

(** The steps at the head of a parser, taken from the hypotheses. *)
Ltac run :=
  repeat first
    [ progress cbn beta iota
    | match goal with
      | |- does (if at_char ?c (Some ?t) then _ else _) _ _ _ => destruct (at_char_spec c (Some t)); [|]; try congruence
      end
    | eapply then_does; [solve [eauto 3 with steps]|]
    | solve [eauto 3 with steps] ].

(** One more operator of a level, and the conditional operator. *)
Lemma level_read_op (op : operator) ops n t f a b v by_zero s s1 s2 s3 s' :
  level_read (op :: ops) n s a s1 -> shift t s1 s2 -> op t = Some f -> does (level ops (integer_unary n)) s2 b s3 ->
  f a b = (v, by_zero) -> does (error_if by_zero) s3 tt s' -> level_read (op :: ops) n s v s'.
Proof.
  intros IH Ht Hop Hb Hf He. cbn [level_read] in *. rewrite IH. apply prepeat_step; [apply binary_rounds|].
  unfold binary. run. cbn. rewrite Hop. run. rewrite Hf. run.
Qed.

Lemma expr_cond_does n a b c s s1 s2 s3 s4 s' :
  does (level operators (integer_unary n)) s a s1 -> shift (Char "?") s1 s2 -> does (integer_expr n) s2 b s3 ->
  shift (Char ":") s3 s4 -> does (integer_expr n) s4 c s' ->
  does (integer_expr (S n)) s (if negb (a =? 0) then b else c) s'.
Proof.
  intros Ha H1 Hb H2 Hc. cbn [integer_expr]. run.
Qed.

Lemma expressions_complete :
  (forall s v s', Grammar.integer_prim s v s' ->
    forall n, (3 * left_ s + 1 <= n)%nat -> does (integer_prim_ n) s v s') /\
  (forall s v s', Grammar.integer_unary s v s' ->
    forall n, (3 * left_ s + 2 <= n)%nat -> does (integer_unary n) s v s') /\
  (forall ops s v s', Grammar.integer_level ops s v s' ->
    forall n o, disjoint_ops ops -> (3 * left_ s + 2 <= n)%nat -> looks s' o -> refused (tail ops) o ->
    level_read ops n s v s') /\
  (forall s v s', Grammar.integer_expr s v s' ->
    forall n o, (3 * left_ s + 3 <= n)%nat -> looks s' o -> refused operators o -> at_char "?" o = false ->
    does (integer_expr n) s v s').
Proof.
  apply (Grammar.integer_mut
    (fun s v s' _ => forall n, (3 * left_ s + 1 <= n)%nat -> does (integer_prim_ n) s v s')
    (fun s v s' _ => forall n, (3 * left_ s + 2 <= n)%nat -> does (integer_unary n) s v s')
    (fun ops s v s' _ => forall n o, disjoint_ops ops -> (3 * left_ s + 2 <= n)%nat -> looks s' o ->
      refused (tail ops) o -> level_read ops n s v s')
    (fun s v s' _ => forall n o, (3 * left_ s + 3 <= n)%nat -> looks s' o -> refused operators o ->
      at_char "?" o = false -> does (integer_expr n) s v s')).
  - intros v s s' H [|n] Hn; [lia|]. cbn [integer_prim_]. run.
  - intros v s s' H [|n] Hn; [lia|]. cbn [integer_prim_]. run.
  - intros v s s1 s2 s' H1 He IH H2 [|n] Hn; [lia|]. cbn [integer_prim_]. run.
    eapply then_does; [apply (IH n (Some (Char ")")))|]; [lefts; lia|by eapply looks_shift|repeat constructor|done|]. run.
  - intros v s s' Hp IH [|n] Hn; [lia|]. cbn [integer_unary]. destruct (prim_looks _ _ _ Hp) as (o & Hl & Hs). run.
    assert (o ≫= prefix_op = None) as ->; [|apply IH; lia].
    destruct o as [[]|]; try done. cbn in Hs. by injection Hs as ->.
  - intros t f v s s1 s' Ht H Hu IH [|n] Hn; [lia|]. cbn [integer_unary]. run. cbn. rewrite Ht. run.
    eapply then_does; [apply IH; lefts; lia|]. run.
  - intros v s s' Hu IH n o _ Hn _ _. cbn [level_read]. by apply IH.
  - intros op ops v s s' Hl IH n o Hd Hn Hlook Hr. cbn [level_read level tail] in *. inversion Hd; subst.
    assert (Hd' : does (level ops (integer_unary n)) s v s').
    { eapply level_done; [eapply IH| |]; eauto. destruct ops; [done|]. cbn. by inversion Hr. }
    unfold pthen. by rewrite Hd'.
  - intros op ops t f a b v by_zero s s1 s2 s3 s' Hl1 IH1 Ht Hop Hl2 IH2 Hf He n o Hd Hn Hlook Hr.
    pose proof (looks_shift _ _ _ Ht) as Hlt. inversion Hd as [|? ? Hop' Hd']; subst.
    assert (Hr1 : refused ops (Some t)).
    { eapply Forall_impl; [exact Hop'|]. intros op' H. apply H. eauto. }
    specialize (IH1 n (Some t) Hd Hn Hlt Hr1). apply integers_left in Hl1.
    pose proof (keeps_looks _ _ _ _ _ (keeps_error_if _) He Hlook) as Hl3.
    eapply level_read_op; eauto. eapply level_done; [eapply IH2|..]; [done|lefts; lia|exact Hl3| |exact Hl3|done].
    destruct ops; [done|]. cbn. by inversion Hr.
  - intros v s s' Hl IH [|n] o Hn Hlook Hr Ho; [lia|]. cbn [integer_expr].
    eapply then_does.
    + eapply level_done; [eapply IH|..]; [apply operators_disjoint|lia|exact Hlook| |exact Hlook|done]. by inversion Hr.
    + run. rewrite Ho. run.
  - intros a b c s s1 s2 s3 s4 s' Hl IHl H1 Hb IHb H2 Hc IHc [|n] o Hn Hlook Hr Ho; [lia|].
    assert (Hrq : refused operators (Some (Char "?"))) by repeat constructor.
    assert (Hrc : refused operators (Some (Char ":"))) by repeat constructor.
    pose proof (looks_shift _ _ _ H1) as Hl1. pose proof (looks_shift _ _ _ H2) as Hl2.
    pose proof (proj1 (proj2 (proj2 integers_left)) _ _ _ _ Hl) as Hll.
    pose proof (proj2 (proj2 (proj2 integers_left)) _ _ _ Hb) as Hlb.
    eapply expr_cond_does; [|exact H1|apply (IHb n (Some (Char ":"))); [lefts; lia|done..]|exact H2|apply (IHc n o); [lefts; lia|done..]].
    eapply level_done; [eapply IHl|..]; [apply operators_disjoint|lia|exact Hl1| |exact Hl1|done]. by inversion Hrq.
Qed.

Lemma integer_prim_complete s v s' : Grammar.integer_prim s v s' -> does integer_prim s v s'.
Proof. intros H. by apply expressions_complete. Qed.

(** *** Values *)

Lemma dt_ref_complete s r s' : Grammar.dt_ref s r s' -> does dt_ref s r s'.
Proof. intros H; inversion H; subst; unfold dt_ref; run. Qed.

Lemma dt_ref_left s r s' : Grammar.dt_ref s r s' -> left_ s = S (left_ s').
Proof. intros H; inversion H; subst; by eapply shift_left. Qed.

#[export] Hint Resolve integer_prim_complete dt_ref_complete : steps.

Lemma keeps_array_prefix bits : keeps (array_prefix bits).
Proof. intros s a s' H. unfold array_prefix in H. parts; try done. by eapply keeps_ERROR. Qed.

Lemma keeps_array_integer a v : keeps (array_integer a v).
Proof. intros s b s' H. unfold array_integer in H. destruct a. parts. by eapply keeps_error_if. Qed.

Lemma keeps_array_ref a r : keeps (array_ref a r).
Proof. intros s b s' H. unfold array_ref in H. destruct a. parts; [done|]. by eapply keeps_ERROR. Qed.

Lemma array_rounds : rounds array_element.
Proof.
  intros a s a' s' H. unfold array_element in H. parts; lefts;
    repeat match goal with
    | H : does integer_prim _ _ _ |- _ => apply integer_prim_sound, integers_left in H
    | H : does dt_ref _ _ _ |- _ => apply dt_ref_sound, dt_ref_left in H
    | H : does (array_integer _ _) _ _ _ |- _ => apply (keeps_left _ _ _ _ (keeps_array_integer _ _)) in H
    | H : does (array_ref _ _) _ _ _ |- _ => apply (keeps_left _ _ _ _ (keeps_array_ref _ _)) in H
    end; lia.
Qed.

Lemma array_stop a s : looks s (Some (Char ">")) -> does (array_element a) s (inr a) s.
Proof. intros H. unfold array_element. run. Qed.

(** The start of an array. *)
Definition array_open (s : pstate) (a : data * Z) (s' : pstate) : Prop :=
  (exists s1, shift (Char "<") s s1 /\ does (array_prefix 32) s1 a s') \/
  (exists bits s1 s2 s3, shift DT_BITS s s1 /\ shift (DT_LITERAL bits) s1 s2 /\ shift (Char "<") s2 s3 /\
    does (array_prefix bits) s3 a s').

Lemma array_complete s a s' : Grammar.arrayprefix s a s' ->
  exists a0 s0, array_open s a0 s0 /\ prepeat array_element a0 s0 = prepeat array_element a s'.
Proof.
  induction 1 as [bits a s s1 s2 s3 s'|a s s1 s'|a v a' s s1 s2 s' _ (a0 & s0 & Ho & IH) Hp Ha
    |a r a' s s1 s2 s' _ (a0 & s0 & Ho & IH) Hr Ha|a l s s1 s' _ (a0 & s0 & Ho & IH) Ht].
  - exists a, s'. split; [right; eauto 10|done].
  - exists a, s'. split; [left; eauto|done].
  - exists a0, s0. split; [done|]. rewrite IH. apply prepeat_step; [apply array_rounds|]. unfold array_element.
    destruct (prim_looks _ _ _ Hp) as (o & Hl & Hs). run.
    destruct o as [[]|]; try done; cbn in Hs; [run..|]. injection Hs as ->. run.
  - exists a0, s0. split; [done|]. rewrite IH. apply prepeat_step; [apply array_rounds|]. unfold array_element.
    inversion Hr; subst; run.
  - exists a0, s0. split; [done|]. rewrite IH. apply prepeat_step; [apply array_rounds|]. unfold array_element. run.
Qed.

Lemma bytestring_rounds : rounds bytestring_element.
Proof. intros a s a' s' H. unfold bytestring_element in H. parts; lefts; lia. Qed.

Lemma bytestring_complete s d s' : Grammar.bytestring s d s' ->
  prepeat bytestring_element (data_add_marker empty_data TYPE_UINT8 None) s = prepeat bytestring_element d s'.
Proof.
  induction 1 as [s|d b d' s s1 s' _ IH Ht Hd|d l s s1 s' _ IH Ht]; [done| |]; rewrite IH;
    (apply prepeat_step; [apply bytestring_rounds|]; unfold bytestring_element; run).
Qed.

Section complete.
Context (fopen : list byte -> bool) (contents : list byte -> res (list byte)).

Lemma keeps_include_binary fname offset len : keeps (include_binary fopen contents fname offset len).
Proof.
  intros s d s' H. unfold does, include_binary in H.
  destruct (srcfile_relative_open _ _ _) as [[name sf]|]; [cbn in H|done].
  destruct (contents _) as [f|]; [cbn in H|done]. destruct (_ <=? _); [done|].
  destruct (data_copy_file _ _) as [d'|]; [cbn in H|done]. by injection H as <- <-.
Qed.

Lemma array_left s a s' : Grammar.arrayprefix s a s' -> (left_ s' < left_ s)%nat.
Proof.
  induction 1; lefts;
    repeat match goal with
    | H : Grammar.integer_prim _ _ _ |- _ => apply integers_left in H
    | H : Grammar.dt_ref _ _ _ |- _ => apply dt_ref_left in H
    | H : does (array_prefix _) _ _ _ |- _ => apply (keeps_left _ _ _ _ (keeps_array_prefix _)) in H
    | H : does (array_integer _ _) _ _ _ |- _ => apply (keeps_left _ _ _ _ (keeps_array_integer _ _)) in H
    | H : does (array_ref _ _) _ _ _ |- _ => apply (keeps_left _ _ _ _ (keeps_array_ref _ _)) in H
    end; lia.
Qed.

Lemma bytestring_left s d s' : Grammar.bytestring s d s' -> (left_ s' <= left_ s)%nat.
Proof. induction 1; lefts; lia. Qed.

Lemma repeat_array_left a s b s' : does (prepeat array_element a) s b s' -> (left_ s' <= left_ s)%nat.
Proof.
  intros H. destruct (prepeat_inv array_element (fun _ s1 => left_ s1 <= left_ s)%nat) with (3 := H) as (a1 & s2 & Hi & H1).
  - intros a1 s1 a2 s2 Hle Hb%array_rounds. lia.
  - lia.
  - unfold array_element in H1. parts; lia.
Qed.

Lemma repeat_bytes_left a s b s' : does (prepeat bytestring_element a) s b s' -> (left_ s' <= left_ s)%nat.
Proof.
  intros H. destruct (prepeat_inv bytestring_element (fun _ s1 => left_ s1 <= left_ s)%nat) with (3 := H) as (a1 & s2 & Hi & H1).
  - intros a1 s1 a2 s2 Hle Hb%bytestring_rounds. lia.
  - lia.
  - unfold bytestring_element in H1. parts; lia.
Qed.

Lemma value_element_left d t s d' s' : does (value_element fopen contents d t) s d' s' -> (left_ s' <= left_ s)%nat.
Proof.
  intros H. unfold value_element, incbin_range in H. parts; lefts;
    repeat match goal with
    | H : does integer_prim _ _ _ |- _ => apply integer_prim_sound, integers_left in H
    | H : does (array_prefix _) _ _ _ |- _ => apply (keeps_left _ _ _ _ (keeps_array_prefix _)) in H
    | H : does (include_binary _ _ _ _ _) _ _ _ |- _ => apply (keeps_left _ _ _ _ (keeps_include_binary _ _ _)) in H
    | H : does (prepeat array_element _) _ _ _ |- _ => apply repeat_array_left in H
    | H : does (prepeat bytestring_element _) _ _ _ |- _ => apply repeat_bytes_left in H
    end; lia.
Qed.

Lemma value_rounds : rounds (value_step fopen contents).
Proof.
  intros [more d] s a' s' H. unfold value_step in H. destruct more.
  - apply does_then in H as (t & s1 & Ht & H). change (shift t s s1) in Ht.
    assert (left_ s' <= left_ s1)%nat; [|lefts; lia].
    assert (a' = (true, data_add_marker d LABEL (Some (match t with DT_LABEL l => l | _ => [] end))) /\ s' = s1 \/
      exists d', does (value_element fopen contents d t) s1 d' s') as [[_ ->]|[d' Hd]]; [|lia|by eapply value_element_left].
    destruct t; try (apply does_then in H as (d' & s2 & Hd & [_ ->]%does_ret); by right; exists d').
    apply does_ret in H as [[= ->] ->]. by left.
  - parts; lefts; lia.
Qed.

Lemma element_step d t s1 s2 d' s' :
  (forall l, t <> DT_LABEL l) -> shift t s1 s2 -> does (value_element fopen contents d t) s2 d' s' ->
  prepeat (value_step fopen contents) (true, d) s1 = prepeat (value_step fopen contents) (false, d') s'.
Proof.
  intros Ht Hs H. apply prepeat_step; [apply value_rounds|]. unfold value_step. run.
  destruct t; try (by destruct (Ht labelref)); run.
Qed.

Lemma array_step d a s1 s2 s3 d' :
  Grammar.arrayprefix s1 a s2 -> shift (Char ">") s2 s3 -> data_merge d a.1 = Ret d' ->
  prepeat (value_step fopen contents) (true, d) s1 = prepeat (value_step fopen contents) (false, d') s3.
Proof.
  intros (a0 & s0 & Ho & Hr)%array_complete Ht Hd.
  assert (Ha : does (prepeat array_element a0) s0 a s2).
  { unfold does. rewrite Hr. apply prepeat_stop, array_stop. by eapply looks_shift. }
  destruct Ho as [(s4 & H1 & H2)|(bits & s4 & s5 & s6 & H1 & H2 & H3 & H4)];
    (eapply element_step; [|exact H1|]; [done|]; unfold value_element; run).
Qed.

Lemma values_complete :
  (forall s d s', Grammar.propdata fopen contents s d s' ->
    prepeat (value_step fopen contents) (true, empty_data) s = prepeat (value_step fopen contents) (false, d) s') /\
  (forall s d s', Grammar.propdataprefix fopen contents s d s' ->
    prepeat (value_step fopen contents) (true, empty_data) s = prepeat (value_step fopen contents) (true, d) s').
Proof.
  apply (Grammar.value_mut fopen contents
    (fun s d s' _ => prepeat (value_step fopen contents) (true, empty_data) s = prepeat (value_step fopen contents) (false, d) s')
    (fun s d s' _ => prepeat (value_step fopen contents) (true, empty_data) s = prepeat (value_step fopen contents) (true, d) s')).
  - intros d v d' s s1 s' _ IH Ht Hd. rewrite IH. eapply element_step; [|exact Ht|]; [done|]. cbn. run.
  - intros d a d' s s1 s2 s' _ IH Ha Ht Hd. rewrite IH. by eapply array_step.
  - intros d b d' s s1 s2 s3 s' _ IH Ht Hb Ht' Hd. rewrite IH. eapply element_step; [|exact Ht|]; [done|]. cbn.
    eapply then_does; [|run]. unfold does. rewrite (bytestring_complete _ _ _ Hb). apply prepeat_stop.
    unfold bytestring_element. run.
  - intros d r s s1 s' _ IH Hr. rewrite IH. inversion Hr; subst; (eapply element_step; [|eassumption|]; [done|]; cbn; run).
  - intros d name offset len v d' s s1 s2 s3 s4 s5 s6 s7 s8 s9 s' _ IH H1 H2 H3 H4 Ho H5 Hn H6 Hi Hd. rewrite IH.
    eapply element_step; [|exact H1|]; [done|]. cbn. run. eapply then_does; [unfold incbin_range; run|]. run.
  - intros d name v d' s s1 s2 s3 s4 s5 s' _ IH H1 H2 H3 H4 Hi Hd. rewrite IH.
    eapply element_step; [|exact H1|]; [done|]. cbn. run. eapply then_does; [unfold incbin_range; run|]. run.
  - intros d l s s1 s' _ IH Ht. rewrite IH. apply prepeat_step; [apply value_rounds|]. unfold value_step. run.
  - done.
  - intros d s s1 s' _ IH Ht. rewrite IH. apply prepeat_step; [apply value_rounds|]. unfold value_step. run.
  - intros d l s s1 s' _ IH Ht. rewrite IH. apply prepeat_step; [apply value_rounds|]. unfold value_step. run.
Qed.

Lemma propdata_complete s d s' :
  Grammar.propdata fopen contents s d s' -> looks s' (Some (Char ";")) -> does (propdata fopen contents) s d s'.
Proof.
  intros H Hl. unfold does, propdata. rewrite (proj1 values_complete _ _ _ H). apply prepeat_stop.
  unfold value_step. run.
Qed.

(** *** Nodes *)

Lemma propdata_left s d s' : Grammar.propdata fopen contents s d s' -> (left_ s' < left_ s)%nat.
Proof.
  apply (Grammar.propdata_mut fopen contents (fun s d s' _ => left_ s' < left_ s)%nat (fun s d s' _ => left_ s' <= left_ s)%nat);
    intros; lefts;
    repeat match goal with
    | H : Grammar.integer_prim _ _ _ |- _ => apply integers_left in H
    | H : Grammar.dt_ref _ _ _ |- _ => apply dt_ref_left in H
    | H : does (include_binary _ _ _ _ _) _ _ _ |- _ => apply (keeps_left _ _ _ _ (keeps_include_binary _ _ _)) in H
    | H : Grammar.bytestring _ _ _ |- _ => apply bytestring_left in H
    | H : Grammar.arrayprefix _ _ _ |- _ => apply array_left in H
    end; lia.
Qed.

Lemma propdef_left s p s' : Grammar.propdef fopen contents s p s' -> (left_ s' < left_ s)%nat.
Proof.
  induction 1; lefts; repeat match goal with H : Grammar.propdata _ _ _ _ _ |- _ => apply propdata_left in H end; lia.
Qed.

Lemma proplist_left s ps s' : Grammar.proplist fopen contents s ps s' -> (left_ s' <= left_ s)%nat.
Proof. induction 1; [lia|]. match goal with H : Grammar.propdef _ _ _ _ _ |- _ => apply propdef_left in H end. lia. Qed.

Lemma nodes_left :
  (forall s c s', Grammar.nodedef fopen contents s c s' -> left_ s' < left_ s)%nat /\
  (forall s cs s', Grammar.subnodes fopen contents s cs s' -> left_ s' <= left_ s)%nat /\
  (forall s c s', Grammar.subnode fopen contents s c s' -> left_ s' < left_ s)%nat.
Proof.
  apply (Grammar.node_mut fopen contents (fun s c s' _ => left_ s' < left_ s)%nat (fun s c s' _ => left_ s' <= left_ s)%nat
    (fun s c s' _ => left_ s' < left_ s)%nat); intros; lefts;
    repeat match goal with H : Grammar.proplist _ _ _ _ _ |- _ => apply proplist_left in H end; lia.
Qed.

(** An entry of a node does not start with its closing brace. *)
Lemma propdef_looks s p s' : Grammar.propdef fopen contents s p s' -> exists t, looks s (Some t) /\ at_char "}" (Some t) = false.
Proof. intros H; inversion H; subst; eauto using looks_shift. Qed.

Lemma subnode_looks s c s' : Grammar.subnode fopen contents s c s' -> exists t, looks s (Some t) /\ at_char "}" (Some t) = false.
Proof. intros H; inversion H; subst; eauto using looks_shift. Qed.

#[local] Hint Resolve propdata_complete : steps.

Lemma propnode_name_does name s s' : shift (DT_PROPNODENAME name) s s' -> does propnode_name s name s'.
Proof. intros H. unfold propnode_name. run. Qed.

#[local] Hint Resolve propnode_name_does : steps.

Lemma propdef_complete s p s' : Grammar.propdef fopen contents s p s' ->
  forall n, (2 * left_ s + 1 <= n)%nat -> does (entry fopen contents n true) s (inl p) s'.
Proof.
  induction 1 as [name d s s1 s2 s3 s' H1 H2 Hd H3|name s s1 s' H1 H2|name s s1 s2 s' H1 H2 H3|l p s s1 s' H1 _ IH];
    intros [|n] Hn; try lia; cbn [entry]; run.
  eapply then_does; [apply IH; lefts; lia|]. run.
Qed.

Lemma proplist_complete s ps s' : Grammar.proplist fopen contents s ps s' ->
  forall n, (2 * left_ s + 2 <= n)%nat ->
  exists n', (2 * left_ s' + 2 <= n')%nat /\ node_body fopen contents n [] s = node_body fopen contents n' ps s'.
Proof.
  induction 1 as [s|ps p ps' s s1 s' Hps IH Hp Hc]; intros n Hn; [by exists n|].
  destruct (IH n Hn) as ([|n'] & Hn' & ->); [lia|]. pose proof (propdef_left _ _ _ Hp).
  exists n'. split; [lia|]. destruct (propdef_looks _ _ _ Hp) as (t & Hl & Ht).
  cbn [node_body]. unfold pthen at 1. unfold looks, does in Hl. rewrite Hl, Ht.
  unfold pthen at 1. rewrite (propdef_complete _ _ _ Hp) by lia. unfold pthen. by rewrite Hc.
Qed.

Definition subnodes_read (s : pstate) (cs : list node) (s' : pstate) : Prop :=
  looks s' (Some (Char "}")) -> forall n, (2 * left_ s + 2 <= n)%nat ->
  does (subnodes fopen contents n) s cs s' /\ forall ps, does (node_body fopen contents n ps) s (ps, cs) s'.

Lemma subnodes_step c cs cs' s s1 s' :
  Grammar.subnode fopen contents s c s1 ->
  (forall n prop, (2 * left_ s + 1 <= n)%nat -> does (entry fopen contents n prop) s (inr c) s1) ->
  subnodes_read s1 cs s' -> chain_node [c] cs = Ret cs' -> subnodes_read s cs' s'.
Proof.
  intros Hc IHc IHs Hch Hl [|n] Hn; [lia|]. destruct (subnode_looks _ _ _ Hc) as (t & Hlook & Ht).
  apply nodes_left in Hc. destruct (IHs Hl n) as [H1 _]; [lia|].
  split; [cbn [subnodes]|intros ps; cbn [node_body]]; (eapply then_does; [exact Hlook|]; rewrite Ht;
    eapply then_does; [apply (IHc n true); lia|]; run).
Qed.

Lemma nodes_complete :
  (forall s c s', Grammar.nodedef fopen contents s c s' ->
    forall n, (2 * left_ s + 1 <= n)%nat -> does (nodedef fopen contents n) s c s') /\
  (forall s cs s', Grammar.subnodes fopen contents s cs s' -> subnodes_read s cs s') /\
  (forall s c s', Grammar.subnode fopen contents s c s' ->
    forall n prop, (2 * left_ s + 1 <= n)%nat -> does (entry fopen contents n prop) s (inr c) s').
Proof.
  apply (Grammar.node_mut fopen contents
    (fun s c s' _ => forall n, (2 * left_ s + 1 <= n)%nat -> does (nodedef fopen contents n) s c s')
    (fun s cs s' _ => subnodes_read s cs s')
    (fun s c s' _ => forall n prop, (2 * left_ s + 1 <= n)%nat -> does (entry fopen contents n prop) s (inr c) s')).
  - intros ps cs s s1 s2 s3 s4 s' H1 Hps Hcs IH H2 H3 [|n] Hn; [lia|]. cbn [nodedef]. run.
    destruct (proplist_complete _ _ _ Hps n) as (n' & Hn' & Hb); [lefts; lia|].
    destruct (IH (looks_shift _ _ _ H2) n' Hn') as [_ Hr]. eapply then_does; [exact (eq_trans Hb (Hr ps))|]. run.
  - intros s Hl [|n] Hn; [lia|]. split; [cbn [subnodes]|intros ps; cbn [node_body]]; run.
  - intros c cs cs' s s1 s' Hc IHc _ IHs Hch. by eapply subnodes_step.
  - intros name c c' s s1 s' H1 Hc IH Hn [|n] prop Hle; [lia|]. cbn [entry]. run.
    assert (Hl : looks s1 (Some (Char "{"))) by (inversion Hc; subst; by eapply looks_shift). run.
    eapply then_does; [apply IH; lefts; lia|]. run.
  - intros name c s s1 s2 s' H1 H2 H3 Hc [|n] prop Hle; [lia|]. cbn [entry]. run.
  - intros c s s1 s' H1 _ IH [|n] prop Hle; [lia|]. cbn [entry]. run. eapply then_does; [apply IH; lefts; lia|]. run.
  - intros l c s s1 s' H1 _ IH [|n] prop Hle; [lia|]. cbn [entry]. run. eapply then_does; [apply IH; lefts; lia|]. run.
Qed.

Lemma parse_nodedef_complete s c s' :
  Grammar.nodedef fopen contents s c s' -> does (parse_nodedef fopen contents) s c s'.
Proof. intros H. apply nodes_complete; [done|]. lia. Qed.

(** *** The file *)

#[local] Hint Resolve parse_nodedef_complete : steps.

Lemma keeps_with_target tree r f : keeps (with_target tree r f).
Proof. intros s t s' H. unfold with_target in H. parts; [done|]. by eapply keeps_ERROR. Qed.

Lemma keeps_add_orphan tree n r : keeps (add_orphan tree n r).
Proof.
  intros s t s' H. unfold does, add_orphan in H. destruct (add_orphan_node _ _ _ _) as [[]|]; [|done].
  cbn in H. by injection H as <- <-.
Qed.

Lemma tree_rounds flags : rounds (devicetree_step fopen contents flags).
Proof.
  intros a s a' s' H. unfold devicetree_step in H. parts; lefts;
    repeat match goal with
    | H : does (parse_nodedef _ _) _ _ _ |- _ => apply parse_nodedef_sound, nodes_left in H
    | H : does dt_ref _ _ _ |- _ => apply dt_ref_sound, dt_ref_left in H
    | H : does (with_target _ _ _) _ _ _ |- _ => apply (keeps_left _ _ _ _ (keeps_with_target _ _ _)) in H
    | H : does (add_orphan _ _ _) _ _ _ |- _ => apply (keeps_left _ _ _ _ (keeps_add_orphan _ _ _)) in H
    | H : does ERROR _ _ _ |- _ => apply (keeps_left _ _ _ _ keeps_ERROR) in H
    end; lia.
Qed.

Lemma devicetree_read flags s tree s' : Grammar.devicetree fopen contents flags s tree s' ->
  devicetree fopen contents flags s = prepeat (devicetree_step fopen contents flags) tree s'.
Proof.
  assert (Hfirst : forall s t s', does (devicetree_first fopen contents flags) s t s' ->
    devicetree fopen contents flags s = prepeat (devicetree_step fopen contents flags) t s').
  { intros s0 t s1 H. unfold devicetree, pthen. by rewrite H. }
  induction 1; try (rewrite IHdevicetree; apply prepeat_step; [apply tree_rounds|]; unfold devicetree_step; run;
    eapply then_does; run).
  - apply Hfirst. unfold devicetree_first. run.
  - apply Hfirst. inversion H; subst; unfold devicetree_first; run.
Qed.

Lemma header_left s flags s' : Grammar.header s flags s' -> (left_ s' < left_ s)%nat.
Proof. intros H; inversion H; subst; lefts; lia. Qed.

Lemma header_complete s flags s' o :
  Grammar.header s flags s' -> looks s' o -> o <> Some DT_PLUGIN -> does header s flags s'.
Proof.
  intros H Hl Ho. inversion H; subst; unfold header; run. destruct o as [[]|]; run. done.
Qed.

Lemma headers_complete s flags s' : Grammar.headers s flags s' ->
  forall n o, (left_ s + 1 <= n)%nat -> looks s' o -> o <> Some DT_PLUGIN -> o <> Some DT_V1 ->
  does (headers n) s flags s'.
Proof.
  induction 1 as [flags s s' H|flags rest s s1 s2 s' H Hs IH He]; intros [|n] o Hn Hl Hp Hv; try lia; cbn [headers].
  - eapply then_does; [by eapply header_complete|]. run. destruct o as [[]|]; try run. done.
  - assert (Hl1 : looks s1 (Some DT_V1)).
    { inversion Hs as [? ? ? Hh|? ? ? ? ? ? Hh]; subst; inversion Hh; subst; by eapply looks_shift. }
    pose proof (header_left _ _ _ H). pose proof (keeps_looks _ _ _ _ _ (keeps_error_if _) He Hl) as Hl2.
    eapply then_does; [by eapply header_complete|]. run. eapply then_does; [eapply IH; eauto; lia|]. run.
Qed.

Lemma memreserve_left s re s' : Grammar.memreserve s re s' -> (left_ s' < left_ s)%nat.
Proof.
  induction 1; lefts;
    repeat match goal with H : Grammar.integer_prim _ _ _ |- _ => apply integers_left in H end; lia.
Qed.

Lemma memreserve_complete s re s' : Grammar.memreserve s re s' ->
  forall n, (left_ s + 1 <= n)%nat -> does (memreserve n) s re s'.
Proof.
  induction 1 as [address size s s1 s2 s3 s' H1 Ha Hs H2|l re s s1 s' H1 _ IH]; intros [|n] Hn; try lia;
    cbn [memreserve]; run. eapply then_does; [apply IH; lefts; lia|]. run.
Qed.

(** A reserve entry starts with one of two tokens, and a tree with others. *)
Definition reserve_start (o : option token) : bool :=
  match o with Some DT_MEMRESERVE | Some (DT_LABEL _) => true | _ => false end.

Lemma memreserves_complete s l s' : Grammar.memreserves s l s' ->
  forall n o, (left_ s + 2 <= n)%nat -> looks s' o -> reserve_start o = false -> does (memreserves n) s l s'.
Proof.
  induction 1 as [s|re rest l s s1 s' H Hs IH Hc]; intros [|n] o Hn Hl Ho; try lia; cbn [memreserves].
  - run. destruct o as [[]|]; try done; run.
  - pose proof (memreserve_left _ _ _ H).
    assert (Hm : does (let? re := memreserve n in let? rest := memreserves n in lift (chain_reserve_entry [re] rest)) s l s').
    { eapply then_does; [by apply memreserve_complete; [|lia]|]. eapply then_does; [eapply IH; eauto; lia|]. run. }
    inversion H; subst; (eapply then_does; [by eapply peek_does, looks_shift|]); exact Hm.
Qed.

Lemma devicetree_looks flags s tree s' : Grammar.devicetree fopen contents flags s tree s' ->
  exists o, looks s o /\ reserve_start o = false /\ o <> Some DT_V1 /\ o <> Some DT_PLUGIN.
Proof.
  induction 1; try done; [eexists; split; [by eapply looks_shift|done]|].
  match goal with H : Grammar.dt_ref _ _ _ |- _ => inversion H; subst end;
    (eexists; split; [by eapply looks_shift|done]).
Qed.

Lemma sourcefile_complete s dti s' :
  Grammar.sourcefile fopen contents s dti s' -> looks s' None -> does (sourcefile fopen contents) s dti s'.
Proof.
  intros H Hl. inversion H as [flags reserves tree cpuid ? s1 s2 ? Hh Hm Ht Hc]; subst. unfold sourcefile.
  destruct (devicetree_looks _ _ _ _ Ht) as (o & Ho & Hr & Hv & Hp).
  assert (exists o', looks s1 o' /\ o' <> Some DT_V1 /\ o' <> Some DT_PLUGIN) as (o' & Hl' & Hv' & Hp').
  { inversion Hm as [|re ? ? ? ? ? Hre]; subst; [by exists o|].
    inversion Hre; subst; (eexists; split; [by eapply looks_shift|done]). }
  eapply then_does; [eapply (headers_complete _ _ _ Hh); eauto; lia|].
  eapply then_does; [eapply (memreserves_complete _ _ _ Hm); eauto; lia|].
  eapply then_does; [|run]. unfold does. rewrite (devicetree_read _ _ _ _ Ht). apply prepeat_stop.
  unfold devicetree_step. run.
Qed.

(** [sourcefile] read up to the end of the input: what the grammar derives. *)
Lemma sourcefile_exact s dti s' :
  looks s' None -> does (sourcefile fopen contents) s dti s' <-> Grammar.sourcefile fopen contents s dti s'.
Proof. intros Hl. split; [apply sourcefile_sound|]. intros H. by apply sourcefile_complete. Qed.
End complete.

(** ** Fuel

    With more fuel than a measure of the tokens left the result is the same,
    whatever the tokens are. That it is not [Fuel] is shown further down. *)

Lemma then_same {A B} (p q : parser A) (k k' : A -> parser B) s :
  p s = q s -> (forall a s1, does p s a s1 -> k a s1 = k' a s1) -> pthen p k s = pthen q k' s.
Proof. unfold pthen, does. intros <- H. destruct (p s) as [[[a s1]|]|]; [by apply H|done..]. Qed.

(** Two parsers with the same next step: the same steps after it. *)
Ltac agree :=
  repeat (cbn beta iota; match goal with
    | |- ?x = ?x => reflexivity
    | |- pthen ?p _ ?s = pthen ?p _ ?s => apply then_same; [reflexivity|]; intros; parts
    | |- (match ?x with _ => _ end) ?s = (match ?x with _ => _ end) ?s => destruct x eqn:?
    end).

Lemma repeat_same {A B} (body body' : A -> parser (A + B)) L :
  rounds body -> (forall a s, (left_ s <= L)%nat -> body a s = body' a s) ->
  forall n a s, (left_ s <= L)%nat -> repeat_ n body a s = repeat_ n body' a s.
Proof.
  intros Hr Hb n. induction n as [|n IH]; intros a s Hl; [done|]. cbn [repeat_]. apply then_same; [by apply Hb|].
  intros [a1|b] s1 H; [|done]. apply Hr in H. apply IH. lia.
Qed.

Lemma level_left ops n s v s' : does (level ops (integer_unary n)) s v s' -> (left_ s' < left_ s)%nat.
Proof. intros H. apply level_sound in H; [by apply integers_left in H|apply expressions_sound]. Qed.

Lemma level_same ops n m L :
  (forall s, (left_ s <= L)%nat -> integer_unary n s = integer_unary m s) ->
  forall s, (left_ s <= L)%nat -> level ops (integer_unary n) s = level ops (integer_unary m) s.
Proof.
  intros Hu. induction ops as [|op ops IH]; intros s Hl; cbn [level]; [by apply Hu|].
  apply then_same; [by apply IH|]. intros a s1 H%level_left. unfold prepeat.
  apply (repeat_same _ _ L); [apply binary_rounds| |lia]. clear -IH. intros a s Hl. unfold binary. agree.
  lefts. apply then_same; [apply IH; lia|]. done.
Qed.

(** The fuel that is enough, for the three nonterminals of expressions. *)
Definition integers_same (s : pstate) : Prop :=
  (forall n m, (3 * left_ s + 1 <= n)%nat -> (3 * left_ s + 1 <= m)%nat -> integer_prim_ n s = integer_prim_ m s) /\
  (forall n m, (3 * left_ s + 2 <= n)%nat -> (3 * left_ s + 2 <= m)%nat -> integer_unary n s = integer_unary m s) /\
  (forall n m, (3 * left_ s + 3 <= n)%nat -> (3 * left_ s + 3 <= m)%nat -> integer_expr n s = integer_expr m s).

Lemma prim_same s : (forall s', (left_ s' < left_ s)%nat -> integers_same s') ->
  forall n m, (3 * left_ s + 1 <= n)%nat -> (3 * left_ s + 1 <= m)%nat -> integer_prim_ n s = integer_prim_ m s.
Proof.
  intros IH [|n] [|m] Hn Hm; try lia. cbn [integer_prim_]. agree.
  lefts. apply then_same; [apply IH; lia|]. done.
Qed.

Lemma unary_same s : (forall s', (left_ s' < left_ s)%nat -> integers_same s') ->
  forall n m, (3 * left_ s + 2 <= n)%nat -> (3 * left_ s + 2 <= m)%nat -> integer_unary n s = integer_unary m s.
Proof.
  intros IH [|n] [|m] Hn Hm; try lia. cbn [integer_unary]. agree; [|apply prim_same; [done|lia..]].
  lefts. apply then_same; [apply IH; lia|]. done.
Qed.

Lemma integers_fuel s : integers_same s.
Proof.
  remember (left_ s) as l eqn:E. revert s E. induction l as [l IH] using lt_wf_ind. intros s ->.
  assert (H : forall s', (left_ s' < left_ s)%nat -> integers_same s') by (intros s' Hs; by eapply IH).
  split; [by apply prim_same|]. split; [by apply unary_same|].
  intros [|n] [|m] Hn Hm; try lia. cbn [integer_expr]. apply then_same.
  - apply (level_same _ _ _ (left_ s)); [|lia]. intros s' Hs. apply unary_same; [|lia..].
    intros s2 Hs2. apply H. lia.
  - intros a s1 Ha%level_left. agree. lefts. apply then_same; [apply H; lia|]. intros b s2 Hb.
    apply expressions_sound, integers_left in Hb. agree. lefts. apply then_same; [apply H; lia|]. done.
Qed.

Section fuel.
Context (fopen : list byte -> bool) (contents : list byte -> res (list byte)).

Lemma entry_left n prop s e s' : does (entry fopen contents n prop) s e s' -> (left_ s' < left_ s)%nat.
Proof using.
  intros H. apply nodes_sound in H. destruct e; [destruct H as [_ H]; by eapply propdef_left|by eapply nodes_left].
Qed.

Definition nodes_same (s : pstate) : Prop :=
  (forall n m prop, (2 * left_ s + 1 <= n)%nat -> (2 * left_ s + 1 <= m)%nat ->
    entry fopen contents n prop s = entry fopen contents m prop s) /\
  (forall n m, (2 * left_ s + 1 <= n)%nat -> (2 * left_ s + 1 <= m)%nat ->
    nodedef fopen contents n s = nodedef fopen contents m s) /\
  (forall n m ps, (2 * left_ s + 2 <= n)%nat -> (2 * left_ s + 2 <= m)%nat ->
    node_body fopen contents n ps s = node_body fopen contents m ps s) /\
  (forall n m, (2 * left_ s + 2 <= n)%nat -> (2 * left_ s + 2 <= m)%nat ->
    subnodes fopen contents n s = subnodes fopen contents m s).

Lemma entry_same s : (forall s', (left_ s' < left_ s)%nat -> nodes_same s') ->
  forall n m prop, (2 * left_ s + 1 <= n)%nat -> (2 * left_ s + 1 <= m)%nat -> entry fopen contents n prop s = entry fopen contents m prop s.
Proof using.
  intros IH [|n] [|m] prop Hn Hm; try lia. cbn [DtcParser.entry]. agree;
    (lefts; apply then_same; [apply IH; lia|intros; reflexivity]).
Qed.

Lemma nodes_fuel s : nodes_same s.
Proof using.
  remember (left_ s) as l eqn:E. revert s E. induction l as [l IH] using lt_wf_ind. intros s ->.
  assert (H : forall s', (left_ s' < left_ s)%nat -> nodes_same s') by (intros s' Hs; by eapply IH). clear IH.
  pose proof (entry_same s H) as He.
  assert (Hs : forall n m, (2 * left_ s + 2 <= n)%nat -> (2 * left_ s + 2 <= m)%nat ->
    subnodes fopen contents n s = subnodes fopen contents m s).
  { intros [|n] [|m] Hn Hm; try lia. cbn [DtcParser.subnodes]. agree.
    apply then_same; [apply He; lia|]. intros [p|c] s1 H1%entry_left; [reflexivity|].
    apply then_same; [apply H; lia|]. reflexivity. }
  split; [exact He|]. split; [|split; [|exact Hs]].
  - intros [|n] [|m] Hn Hm; try lia. cbn [DtcParser.nodedef]. agree. lefts. apply then_same; [apply H; lia|]. reflexivity.
  - intros [|n] [|m] ps Hn Hm; try lia. cbn [DtcParser.node_body]. agree.
    apply then_same; [apply He; lia|]. intros [p|c] s1 H1%entry_left.
    + agree. apply H; lia.
    + apply then_same; [apply H; lia|]. reflexivity.
Qed.
End fuel.

Lemma headers_fuel n : forall m s, (left_ s < n)%nat -> (left_ s < m)%nat -> headers n s = headers m s.
Proof.
  induction n as [|n IH]; intros [|m] s Hn Hm; try lia. cbn [headers]. apply then_same; [done|].
  intros flags s1 H1%header_sound%header_left. agree. apply then_same; [apply IH; lia|]. reflexivity.
Qed.

Lemma memreserve_fuel n : forall m s, (left_ s < n)%nat -> (left_ s < m)%nat -> memreserve n s = memreserve m s.
Proof.
  induction n as [|n IH]; intros [|m] s Hn Hm; try lia. cbn [memreserve]. agree. lefts.
  apply then_same; [apply IH; lia|]. reflexivity.
Qed.

Lemma memreserves_fuel n : forall m s, (left_ s + 1 < n)%nat -> (left_ s + 1 < m)%nat -> memreserves n s = memreserves m s.
Proof.
  induction n as [|n IH]; intros [|m] s Hn Hm; try lia. cbn [memreserves]. agree;
    (apply then_same; [apply memreserve_fuel; lia|]; intros re s1 H1%memreserve_sound%memreserve_left;
     apply then_same; [apply IH; lia|]; reflexivity).
Qed.

(** ** Code that takes no fuel

    The scanner and the actions. *)

Lemma fueled_char_at s i : fueled (char_at s i).
Proof. unfold char_at. fueled. Qed.

#[local] Hint Resolve fueled_char_at : fuel.

Lemma fueled_strncpy n s i : fueled (strncpy n s i).
Proof. revert i. induction n as [|n IH]; intros i; cbn [strncpy]; fueled. Qed.

#[local] Hint Resolve fueled_strncpy : fuel.

Lemma fueled_escape_char s i : fueled (get_escape_char s i).
Proof.
  assert (fueled (get_oct_char s (i + 1 - 1)) /\ fueled (get_hex_char s (i + 1))) as [? ?].
  { unfold get_oct_char, get_hex_char. split; fueled. }
  unfold get_escape_char. fueled.
Qed.

Lemma fueled_data_put d off p : fueled (data_put d off p).
Proof. unfold data_put. fueled. Qed.

Lemma fueled_data_grow_for d n : fueled (data_grow_for d n).
Proof. unfold data_grow_for. fueled. Qed.

#[local] Hint Resolve fueled_escape_char fueled_data_put fueled_data_grow_for : fuel.

Lemma fueled_data_append_data d p : fueled (data_append_data d p).
Proof. unfold data_append_data. fueled. Qed.

#[local] Hint Resolve fueled_data_append_data : fuel.

Lemma fueled_data_append_integer d v bits : fueled (data_append_integer d v bits).
Proof. unfold data_append_integer. fueled. Qed.

Lemma fueled_data_append_byte d b : fueled (data_append_byte d b).
Proof. unfold data_append_byte. fueled. Qed.

Lemma fueled_data_merge d d' : fueled (data_merge d d').
Proof. unfold data_merge. fueled. Qed.

Lemma fueled_data_copy_file f n : fueled (data_copy_file f n).
Proof. unfold data_copy_file. fueled. Qed.

Lemma fueled_escape_string_at s from len : fueled (escape_string_at s from len).
Proof. unfold escape_string_at, data_copy_escape_string. fueled. Qed.

#[local] Hint Resolve fueled_escape_string_at fueled_data_append_integer : fuel.

Lemma fueled_name_node n name : fueled (name_node n name).
Proof. unfold name_node. fueled. Qed.

#[local] Hint Resolve fueled_name_node : fuel.

Lemma fueled_chain_node l r : fueled (chain_node l r).
Proof. unfold chain_node. fueled. Qed.

Lemma fueled_chain_property l r : fueled (chain_property l r).
Proof. unfold chain_property. fueled. Qed.

Lemma fueled_chain_reserve_entry l r : fueled (chain_reserve_entry l r).
Proof. unfold chain_reserve_entry. fueled. Qed.

Lemma fueled_get_node_by_ref tree ref : fueled (get_node_by_ref tree ref).
Proof. unfold get_node_by_ref, get_node_by_label. fueled. Qed.

Lemma fueled_add_orphan_node t n ref k : fueled (add_orphan_node t n ref k).
Proof. unfold add_orphan_node. fueled. Qed.

Lemma fueled_guess_boot_cpuid t : fueled (guess_boot_cpuid t).
Proof.
  unfold guess_boot_cpuid, propval_cell, dtb_ld32, bytes_from.
  fueled.
Qed.

Lemma fueled_file_at sf i : fueled (file_at sf i).
Proof. unfold file_at. fueled. Qed.

#[local] Hint Resolve fueled_file_at : fuel.

Section files.
Context (fopen : list byte -> bool) (contents : list byte -> res (list byte)).
Context (Hcontents : forall name, fueled (contents name)).

Lemma fueled_relative_open fname sf : fueled (srcfile_relative_open fopen fname sf).
Proof using. unfold srcfile_relative_open, fopen_any_on_path. fueled. Qed.

#[local] Hint Resolve fueled_relative_open : fuel.

Lemma fueled_line_action s lx : fueled (line_action s lx).
Proof using. unfold line_action, srcpos_set_line. fueled. Qed.

Lemma fueled_char_literal_action s lx : fueled (char_literal_action s lx).
Proof using. unfold char_literal_action. fueled. Qed.

#[local] Hint Resolve fueled_line_action fueled_char_literal_action : fuel.

Lemma fueled_do_action a s lx : fueled (do_action fopen contents a s lx).
Proof using Hcontents. unfold do_action, push_input_file, open_source, srcfile_push. destruct a; fueled. Qed.

#[local] Hint Resolve fueled_do_action : fuel.

Lemma fueled_lex_step lx : fueled (lex_step fopen contents lx).
Proof using Hcontents. unfold lex_step, pop_input_file, srcfile_pop, srcpos_update. fueled. Qed.

#[local] Hint Resolve fueled_lex_step : fuel.

Lemma fueled_yylex lx : fueled (yylex fopen contents lx).
Proof using Hcontents. unfold yylex. fueled. Qed.
End files.

#[local] Hint Resolve fueled_data_append_byte fueled_data_merge fueled_chain_node fueled_chain_property fueled_chain_reserve_entry
  fueled_get_node_by_ref fueled_guess_boot_cpuid : fuel.

(** ** Parsers that end

    With the fuel below none of the recursions is cut short: the parser returns,
    finds a syntax error, or fails as the scanner or an action does. *)

(** The scanner did not fail for want of fuel; it takes none. *)
Fixpoint scanned (t : tokens) : Prop :=
  match t with
  | Tok _ _ _ _ rest => scanned rest
  | Eof _ _ => True
  | Failed f => f <> Fuel
  end.

Definition ends {A} (p : parser A) (s : pstate) : Prop :=
  match p s with
  | Ret (Some (_, s')) => scanned (p_toks s')
  | Ret None => True
  | Fault f => f <> Fuel
  end.

Lemma ends_fueled {A} (p : parser A) s : ends p s -> fueled (p s).
Proof. unfold ends, fueled. intros H E. by rewrite E in H. Qed.

Lemma ends_pret {A} (a : A) s : scanned (p_toks s) -> ends (pret a) s.
Proof. done. Qed.

Lemma ends_error {A} s : ends (A := A) syntax_error s.
Proof. exact I. Qed.

Lemma ends_ERROR s : scanned (p_toks s) -> ends ERROR s.
Proof. done. Qed.

Lemma ends_error_if b s : scanned (p_toks s) -> ends (error_if b) s.
Proof. by destruct b. Qed.

Lemma ends_lift {A} (r : res A) s : scanned (p_toks s) -> fueled r -> ends (lift r) s.
Proof. unfold ends, lift, fueled. destruct r; [done|]. congruence. Qed.

Lemma ends_next s : scanned (p_toks s) -> ends next s.
Proof. unfold ends, next. by destruct (p_toks s). Qed.

Lemma ends_peek s : scanned (p_toks s) -> ends peek s.
Proof. unfold ends, peek. destruct (p_toks s) eqn:E; cbn; rewrite ?E; done. Qed.

Lemma ends_then {A B} (p : parser A) (k : A -> parser B) s :
  ends p s -> (forall a s1, does p s a s1 -> scanned (p_toks s1) -> ends (k a) s1) -> ends (pthen p k) s.
Proof. unfold ends, pthen, does. destruct (p s) as [[[a s1]|]|]; [|done..]. intros H Hk. by apply Hk. Qed.

Lemma ends_expect c s : scanned (p_toks s) -> ends (expect c) s.
Proof.
  intros Hs. apply ends_then; [by apply ends_next|]. intros t s1 _ H1. destruct t; try done. by case_bool_decide.
Qed.

Create HintDb ends discriminated.
#[local] Hint Resolve ends_pret ends_error ends_ERROR ends_error_if ends_lift ends_next ends_peek ends_expect : ends.

(** Follow the parser: every part of it ends. *)
Ltac ends :=
  repeat (cbn beta iota; match goal with
  | |- ends (match ?x with _ => _ end) _ => destruct x eqn:?
  | |- ends _ _ => solve [auto with ends fuel nocore]
  | |- ends (pthen _ _) _ => apply ends_then; [|intros; parts]
  end).

Section ends_repetition.
Context {A B : Type} (body : A -> parser (A + B)) (L : nat).
Context (Hrounds : forall a s a' s', (left_ s <= L)%nat -> does (body a) s (inl a') s' -> (left_ s' < left_ s)%nat).
Context (Hbody : forall a s, (left_ s <= L)%nat -> scanned (p_toks s) -> ends (body a) s).

Lemma ends_repeat n a s : (left_ s <= L)%nat -> (left_ s < n)%nat -> scanned (p_toks s) -> ends (repeat_ n body a) s.
Proof using Hrounds Hbody.
  revert a s. induction n as [|n IH]; intros a s Hl Hn Hs; [lia|]. cbn [repeat_].
  apply ends_then; [by apply Hbody|]. intros [a'|b] s1 H1 Hs1; [|by apply ends_pret].
  apply Hrounds in H1; [|done]. apply IH; [lia..|done].
Qed.
End ends_repetition.

Lemma ends_prepeat {A B} (body : A -> parser (A + B)) L a s : rounds body ->
  (forall a s, (left_ s <= L)%nat -> scanned (p_toks s) -> ends (body a) s) ->
  (left_ s <= L)%nat -> scanned (p_toks s) -> ends (prepeat body a) s.
Proof.
  intros Hr Hb Hl Hs. unfold prepeat, ends. apply (ends_repeat body L); [|done|done|lia|done].
  intros. by eapply Hr.
Qed.

(** The fuel that is enough, for the three nonterminals of expressions. *)
Definition integers_end (s : pstate) : Prop :=
  (forall n, (3 * left_ s + 1 <= n)%nat -> ends (integer_prim_ n) s) /\
  (forall n, (3 * left_ s + 2 <= n)%nat -> ends (integer_unary n) s) /\
  (forall n, (3 * left_ s + 3 <= n)%nat -> ends (integer_expr n) s).

Lemma prim_ends s : (forall s', (left_ s' < left_ s)%nat -> scanned (p_toks s') -> integers_end s') ->
  scanned (p_toks s) -> forall n, (3 * left_ s + 1 <= n)%nat -> ends (integer_prim_ n) s.
Proof.
  intros IH Hs [|n] Hn; [lia|]. cbn [integer_prim_]. ends. lefts. apply IH; [lia|done|lia].
Qed.

Lemma unary_ends s : (forall s', (left_ s' < left_ s)%nat -> scanned (p_toks s') -> integers_end s') ->
  scanned (p_toks s) -> forall n, (3 * left_ s + 2 <= n)%nat -> ends (integer_unary n) s.
Proof.
  intros IH Hs [|n] Hn; [lia|]. cbn [integer_unary]. ends; [|apply prim_ends; [done..|lia]].
  lefts. apply IH; [lia|done|lia].
Qed.

Lemma binary_ends op operand L a s :
  (forall s, (left_ s <= L)%nat -> scanned (p_toks s) -> ends operand s) ->
  (left_ s <= L)%nat -> scanned (p_toks s) -> ends (binary op operand a) s.
Proof. intros Ho Hl Hs. unfold binary. ends. lefts. apply Ho; [lia|done]. Qed.

Lemma level_ends ops n L :
  (forall s, (left_ s <= L)%nat -> scanned (p_toks s) -> ends (integer_unary n) s) ->
  forall s, (left_ s <= L)%nat -> scanned (p_toks s) -> ends (level ops (integer_unary n)) s.
Proof.
  intros Hu. induction ops as [|op ops IH]; intros s Hl Hs; cbn [level]; [by apply Hu|].
  apply ends_then; [by apply IH|]. intros a s1 H%level_left Hs1.
  apply (ends_prepeat _ L); [apply binary_rounds| |lia|done]. intros. by apply (binary_ends _ _ L).
Qed.

Lemma integers_ends s : scanned (p_toks s) -> integers_end s.
Proof.
  remember (left_ s) as l eqn:E. revert s E. induction l as [l IH] using lt_wf_ind. intros s -> Hs.
  assert (H : forall s', (left_ s' < left_ s)%nat -> scanned (p_toks s') -> integers_end s')
    by (intros s' ? ?; by eapply IH).
  split; [by apply prim_ends|]. split; [by apply unary_ends|].
  intros [|n] Hn; [lia|]. cbn [integer_expr]. apply ends_then.
  - apply (level_ends _ _ (left_ s)); [|lia|done]. intros s' Hl Hs'. apply unary_ends; [|done|lia].
    intros s2 Hl2. apply H. lia.
  - intros a s1 Ha%level_left Hs1. ends; lefts; [apply H; [lia|done|lia]|].
    match goal with Hb : does (integer_expr _) _ _ _ |- _ => apply expressions_sound, integers_left in Hb end.
    apply H; [lia|done|lia].
Qed.

Lemma integer_prim_ends s : scanned (p_toks s) -> ends integer_prim s.
Proof. intros Hs. apply integers_ends; [done|lia]. Qed.
#[local] Hint Resolve integer_prim_ends : ends.

Section ends_nodes.
Context (fopen : list byte -> bool) (contents : list byte -> res (list byte)).
Context (Hcontents : forall name, fueled (contents name)).

Lemma ends_dt_ref s : scanned (p_toks s) -> ends dt_ref s.
Proof using. intros Hs. unfold dt_ref. ends. Qed.

Lemma ends_array_prefix bits s : scanned (p_toks s) -> ends (array_prefix bits) s.
Proof using. intros Hs. unfold array_prefix. ends. Qed.

Lemma ends_array_integer a v s : scanned (p_toks s) -> ends (array_integer a v) s.
Proof using. intros Hs. unfold array_integer. ends. Qed.

Lemma ends_array_ref a r s : scanned (p_toks s) -> ends (array_ref a r) s.
Proof using. intros Hs. unfold array_ref. ends. Qed.

#[local] Hint Resolve ends_dt_ref ends_array_prefix ends_array_integer ends_array_ref : ends.

Lemma ends_array_element a s : scanned (p_toks s) -> ends (array_element a) s.
Proof using. intros Hs. unfold array_element. ends. Qed.

Lemma ends_array_elements a s : scanned (p_toks s) -> ends (prepeat array_element a) s.
Proof using. intros Hs. apply (ends_prepeat _ (left_ s)); auto using array_rounds, ends_array_element. Qed.

Lemma ends_bytestring_element d s : scanned (p_toks s) -> ends (bytestring_element d) s.
Proof using. intros Hs. unfold bytestring_element. ends. Qed.

Lemma ends_bytestring d s : scanned (p_toks s) -> ends (prepeat bytestring_element d) s.
Proof using. intros Hs. apply (ends_prepeat _ (left_ s)); auto using bytestring_rounds, ends_bytestring_element. Qed.

Lemma ends_include_binary name offset len s : scanned (p_toks s) -> ends (include_binary fopen contents name offset len) s.
Proof using Hcontents.
  intros Hs. unfold ends, include_binary.
  destruct (srcfile_relative_open _ _ _) as [[name' sf]|f] eqn:E1; cbn [rbind];
    [|intros ->; by apply (fueled_relative_open _ _ _ E1)].
  destruct (contents _) as [text|f] eqn:E2; cbn [rbind]; [|intros ->; by apply (Hcontents _ E2)].
  destruct (_ <=? offset); [done|]. destruct (data_copy_file _ _) as [d|f] eqn:E3; cbn [rbind]; [done|].
  intros ->. by apply (fueled_data_copy_file _ _ E3).
Qed.

Lemma ends_incbin_range s : scanned (p_toks s) -> ends incbin_range s.
Proof using. intros Hs. unfold incbin_range. ends. Qed.

#[local] Hint Resolve ends_array_elements ends_bytestring ends_include_binary ends_incbin_range : ends.

Lemma ends_value_element d t s : scanned (p_toks s) -> ends (value_element fopen contents d t) s.
Proof using Hcontents. intros Hs. unfold value_element. ends. Qed.

#[local] Hint Resolve ends_value_element : ends.

Lemma ends_value_step a s : scanned (p_toks s) -> ends (value_step fopen contents a) s.
Proof using Hcontents. intros Hs. unfold value_step. ends. Qed.

Lemma ends_values a s : scanned (p_toks s) -> ends (prepeat (value_step fopen contents) a) s.
Proof using Hcontents. intros Hs. apply (ends_prepeat _ (left_ s)); auto using value_rounds, ends_value_step. Qed.

Lemma ends_propdata s : scanned (p_toks s) -> ends (propdata fopen contents) s.
Proof using Hcontents. intros Hs. by apply ends_values. Qed.

Lemma ends_propnode_name s : scanned (p_toks s) -> ends propnode_name s.
Proof using. intros Hs. unfold propnode_name. ends. Qed.

#[local] Hint Resolve ends_propdata ends_propnode_name : ends.

Definition nodes_end (s : pstate) : Prop :=
  (forall n prop, (2 * left_ s + 1 <= n)%nat -> ends (entry fopen contents n prop) s) /\
  (forall n, (2 * left_ s + 1 <= n)%nat -> ends (nodedef fopen contents n) s) /\
  (forall n ps, (2 * left_ s + 2 <= n)%nat -> ends (node_body fopen contents n ps) s) /\
  (forall n, (2 * left_ s + 2 <= n)%nat -> ends (subnodes fopen contents n) s).

Lemma entry_ends s : (forall s', (left_ s' < left_ s)%nat -> scanned (p_toks s') -> nodes_end s') ->
  scanned (p_toks s) -> forall n prop, (2 * left_ s + 1 <= n)%nat -> ends (entry fopen contents n prop) s.
Proof using Hcontents.
  intros IH Hs [|n] prop Hn; [lia|]. cbn [DtcParser.entry]. ends; lefts; (apply IH; [lia|done|lia]).
Qed.

Lemma nodes_ends s : scanned (p_toks s) -> nodes_end s.
Proof using Hcontents.
  remember (left_ s) as l eqn:E. revert s E. induction l as [l IH] using lt_wf_ind. intros s -> Hs.
  assert (H : forall s', (left_ s' < left_ s)%nat -> scanned (p_toks s') -> nodes_end s')
    by (intros s' ? ?; by eapply IH). clear IH.
  pose proof (entry_ends s H Hs) as He.
  split; [exact He|]. split; [|split].
  - intros [|n] Hn; [lia|]. cbn [DtcParser.nodedef]. ends. lefts. apply H; [lia|done|lia].
  - intros [|n] ps Hn; [lia|]. cbn [DtcParser.node_body]. ends; [apply He; lia|..];
      match goal with H1 : does _ _ _ _ |- _ => apply entry_left in H1 end; (apply H; [lia|done|lia]).
  - intros [|n] Hn; [lia|]. cbn [DtcParser.subnodes]. ends; [apply He; lia|..];
      match goal with H1 : does _ _ _ _ |- _ => apply entry_left in H1 end; (apply H; [lia|done|lia]).
Qed.

Lemma ends_parse_nodedef s : scanned (p_toks s) -> ends (parse_nodedef fopen contents) s.
Proof using Hcontents. intros Hs. apply nodes_ends; [done|lia]. Qed.

#[local] Hint Resolve ends_parse_nodedef : ends.

Lemma ends_with_target tree r f s : scanned (p_toks s) -> ends (with_target tree r f) s.
Proof using. intros Hs. unfold with_target. ends. Qed.

Lemma ends_add_orphan tree n r s : scanned (p_toks s) -> ends (add_orphan tree n r) s.
Proof using.
  intros Hs. unfold ends, add_orphan.
  destruct (add_orphan_node _ _ _ _) as [[]|f] eqn:E; cbn [rbind]; [done|]. intros ->. by apply (fueled_add_orphan_node _ _ _ _ E).
Qed.

#[local] Hint Resolve ends_with_target ends_add_orphan : ends.

Lemma ends_devicetree_step flags tree s : scanned (p_toks s) -> ends (devicetree_step fopen contents flags tree) s.
Proof using Hcontents. intros Hs. unfold devicetree_step. ends. Qed.

Lemma ends_tree_steps flags tree s : scanned (p_toks s) -> ends (prepeat (devicetree_step fopen contents flags) tree) s.
Proof using Hcontents. intros Hs. apply (ends_prepeat _ (left_ s)); auto using tree_rounds, ends_devicetree_step. Qed.

Lemma ends_devicetree flags s : scanned (p_toks s) -> ends (devicetree fopen contents flags) s.
Proof using Hcontents.
  intros Hs. unfold devicetree. apply ends_then; [|intros tree s1 _; apply ends_tree_steps].
  unfold devicetree_first. ends.
Qed.

Lemma ends_header s : scanned (p_toks s) -> ends header s.
Proof using. intros Hs. unfold header. ends. Qed.

#[local] Hint Resolve ends_header ends_devicetree : ends.

Lemma headers_ends n s : (left_ s < n)%nat -> scanned (p_toks s) -> ends (headers n) s.
Proof using.
  revert s. induction n as [|n IH]; intros s Hn Hs; [lia|]. cbn [headers]. ends.
  match goal with H : does header _ _ _ |- _ => apply header_sound, header_left in H end. apply IH; [lia|done].
Qed.

Lemma memreserve_ends n s : (left_ s < n)%nat -> scanned (p_toks s) -> ends (memreserve n) s.
Proof using.
  revert s. induction n as [|n IH]; intros s Hn Hs; [lia|]. cbn [memreserve]. ends. lefts. apply IH; [lia|done].
Qed.

Lemma memreserves_ends n s : (left_ s + 1 < n)%nat -> scanned (p_toks s) -> ends (memreserves n) s.
Proof using.
  revert s. induction n as [|n IH]; intros s Hn Hs; [lia|]. cbn [memreserves]. ends; try (apply memreserve_ends; [lia|done]);
    match goal with H : does (memreserve _) _ _ _ |- _ => apply memreserve_sound, memreserve_left in H end;
    (apply IH; [lia|done]).
Qed.

Lemma sourcefile_ends s : scanned (p_toks s) -> ends (sourcefile fopen contents) s.
Proof using Hcontents.
  intros Hs. unfold sourcefile. apply ends_then; [unfold ends; by apply headers_ends; [lia|]|]. intros flags s1 _ Hs1.
  apply ends_then; [unfold ends; by apply memreserves_ends; [lia|]|]. intros l s2 _ Hs2. ends.
Qed.

Lemma add_tokens_scanned l t : scanned t -> scanned (add_tokens l t).
Proof using. revert t. induction l as [|[[[t pos] sf] e] l IH]; intros u Hu; [done|]. cbn [add_tokens]. by apply IH. Qed.

(** The scanner takes no fuel, so neither does [yyparse]. *)
Lemma lex_all_scanned lx : fueled (lex_all fopen contents lx) /\ forall t, lex_all fopen contents lx = Ret t -> scanned t.
Proof using Hcontents.
  assert (W : wp (fun f => f <> Fuel) (lex_all fopen contents lx) scanned).
  { unfold lex_all. apply (wp_loop_inv _ (fun _ => True)); [done..|]. intros [lx1 read] _.
    pose proof (fueled_yylex fopen contents Hcontents lx1) as H. unfold fueled in H.
    destruct (yylex fopen contents lx1) as [[[[t pos]|] lx2]|f]; cbn [wp].
    - by destruct (ends_input t); cbn [wp]; [apply add_tokens_scanned|].
    - by apply add_tokens_scanned.
    - apply add_tokens_scanned. cbn [scanned]. congruence. }
  destruct (lex_all fopen contents lx) as [t|f]; cbn [wp] in W.
  - split; [apply fueled_ret|]. by intros t' [= <-].
  - split; [by apply fueled_fault|]. by intros t [=].
Qed.

Lemma parse_tokens_fueled no_output t sf : scanned t -> fueled (parse_tokens fopen contents no_output t sf).
Proof using Hcontents.
  intros Ht. unfold parse_tokens. apply fueled_bind; [|intros; apply fueled_ret].
  by apply ends_fueled, sourcefile_ends.
Qed.

Lemma yyparse_fueled no_output text sf : fueled (yyparse fopen contents no_output text sf).
Proof using Hcontents.
  unfold yyparse. destruct (lex_all_scanned (Lexer [(text, true)] INITIAL sf false)) as [Hf Hs].
  apply fueled_bind_eq; [done|]. intros t Ht. apply parse_tokens_fueled. by apply Hs.
Qed.
End ends_nodes.

(** ** The fuel is enough

    From [n] on the fuel does not matter, and does not run out. *)
Definition settles {A} (p : nat -> parser A) (n : nat) (s : pstate) : Prop :=
  forall m, (n <= m)%nat -> p m s = p n s /\ p m s <> Fault Fuel.

Lemma settles_intro {A} (p : nat -> parser A) n s :
  (forall m m', (n <= m)%nat -> (n <= m')%nat -> p m s = p m' s) -> (forall m, (n <= m)%nat -> ends (p m) s) ->
  settles p n s.
Proof. intros Hs He m Hm. split; [by apply Hs|]. by apply ends_fueled, He. Qed.

Lemma settles_repeat {A B} (body : A -> parser (A + B)) a s : rounds body ->
  (forall a s1, (left_ s1 <= left_ s)%nat -> scanned (p_toks s1) -> ends (body a) s1) ->
  scanned (p_toks s) -> settles (fun n => repeat_ n body a) (S (left_ s)) s.
Proof.
  intros Hr Hb Hs. apply settles_intro; intros; [by apply repeat_fuel; [|lia..]|].
  apply (ends_repeat body (left_ s)); [intros; by eapply Hr|exact Hb|lia|lia|done].
Qed.

Lemma settles_binary op ops n a s : scanned (p_toks s) -> (3 * left_ s + 2 <= n)%nat ->
  settles (fun m => repeat_ m (binary op (level ops (integer_unary n))) a) (S (left_ s)) s.
Proof.
  intros Hs Hn. apply settles_repeat; [apply binary_rounds| |done]. intros b s1 Hl Hs1.
  apply (binary_ends _ _ (left_ s)); [|done..]. intros. apply (level_ends _ _ (left_ s)); [|done..].
  intros. apply integers_ends; [done|lia].
Qed.
