(* ===== verification/DtcSource.v ===== *)
(** dtc/treesource.c: the live tree written as source text, with the positions
    of the [annotate] option. [dt_from_source] is with the driver, in DtcMain. *)
From S2P Require Import Prelude Monad Ctype DtcUtil DtcSrcpos DtcData DtcTree DtcFlat.

(** What the comments are made from: the level of [annotate], and where the
    nodes and properties come from, by the position of the node and the number
    of the property. *)
Record notes := Notes {
  annotate : Z;
  note_files : srcfiles;
  note_prop : list nat -> nat -> list srcpos;
  note_node : list nat -> list srcpos;
}.

Definition no_notes : notes := Notes 0 no_srcfiles (fun _ _ => []) (fun _ => []).

(** The comment for a position, at the start or the end of what it covers. *)
Definition write_note (a : notes) (first : bool) (pos : list srcpos) : res (list byte) :=
  if annotate a =? 0 then Ret [] else
  let! srcstr := (if first then srcpos_string_first else srcpos_string_last) (note_files a) pos (annotate a) in
  Ret match srcstr with Some s => str " /* " ++ s ++ str " */" | None => [] end.

Definition write_prefix (level : nat) : list byte := replicate level tab.

Definition isstring (c : byte) : bool :=
  isprint c || bool_decide (c = x00) || bool_decide (c ∈ [x07; x08; x09; x0a; x0b; x0c; x0d]).

(** [char] is signed. *)
Definition char_val (c : byte) : Z := if b2z c <? 128 then b2z c else b2z c - 256.

(** What is printed for one character: [PRIx8] is the conversion of an int. *)
Definition write_char (c : byte) : list byte :=
  match c with
  | x07 => str "\a"
  | x08 => str "\b"
  | x09 => str "\t"
  | x0a => str "\n"
  | x0b => str "\v"
  | x0c => str "\f"
  | x0d => str "\r"
  | "\"%byte => str "\\"
  | x22 => ["\"%byte; quote]
  | x00 => str "\0"
  | _ => if isprint c then [c] else str "\x" ++ fmt_x 2 (u32 (char_val c))
  end.

(** [s] is the [len] bytes. *)
Definition write_propval_string (s : list byte) : res (list byte) :=
  match s with
  | [] => Ret []
  | _ =>
    let! _ := c_assert (bool_decide (last s = Some x00)) in
    Ret (quote :: flat_map write_char (removelast s) ++ [quote])
  end.

(** One number of [width] bytes. *)
Definition write_int (p : list byte) (width : Z) : res (list byte) :=
  if width =? 1 then let! c := char_at p 0 in Ret (fmt_x 2 (b2z c))
  else if width =? 2 then let! v := dtb_ld16 p 0 in Ret (str "0x" ++ fmt_x 2 v)
  else if width =? 4 then let! v := dtb_ld32 p 0 in Ret (str "0x" ++ fmt_x 2 v)
  else if width =? 8 then let! v := dtb_ld64 p 0 in Ret (str "0x" ++ fmt_x 2 v)
  else Ret [].

(** The numbers of [p], with spaces between; [n] bounds their count. *)
Fixpoint write_ints (n : nat) (p : list byte) (width : Z) : res (list byte) :=
  match n, p with
  | S n, _ :: _ =>
    let! w := write_int p width in
    let rest := drop (Z.to_nat width) p in
    let! r := write_ints n rest width in
    Ret (w ++ (if bool_decide (rest = []) then [] else str " ") ++ r)
  | _, _ => Ret []
  end.

Definition write_propval_int (p : list byte) (width : Z) : res (list byte) :=
  let! _ := c_assert (zlen p mod width =? 0) in
  write_ints (length p) p width.

Definition has_data_type_information (m : marker) : bool :=
  match m_type m with
  | TYPE_UINT8 | TYPE_UINT16 | TYPE_UINT32 | TYPE_UINT64 | TYPE_STRING => true
  | _ => false
  end.

(** The first marker of the list with a type. *)
Definition next_type_marker (l : list marker) : option marker :=
  snd <$> find_first has_data_type_information l.

(** [rest] follows [m]. *)
Definition type_marker_length (m : marker) (rest : list marker) : Z :=
  match next_type_marker rest with
  | Some next => u32 (m_offset next - m_offset m)
  | None => 0
  end.

Definition delim_start (t : markertype) : list byte :=
  match t with
  | TYPE_UINT8 => str "["
  | TYPE_UINT16 => str "/bits/ 16 <"
  | TYPE_UINT32 => str "<"
  | TYPE_UINT64 => str "/bits/ 64 <"
  | _ => []
  end.

Definition delim_end (t : markertype) : list byte :=
  match t with
  | TYPE_UINT8 => str "]"
  | TYPE_UINT16 | TYPE_UINT32 | TYPE_UINT64 => str ">"
  | _ => []
  end.

(** The labels inside a value that are not at the start of a string, and not
    at the start of a cell. *)
Definition not_string_label (v : list byte) (m : marker) : res bool :=
  if 0 <? m_offset m then
    let! c := char_at v (m_offset m - 1) in Ret (negb (bool_decide (c = x00)))
  else Ret false.

Fixpoint any_not_string_label (v : list byte) (l : list marker) : res bool :=
  match l with
  | [] => Ret false
  | m :: l =>
    let! b := if bool_decide (m_type m = LABEL) then not_string_label v m else Ret false in
    let! r := any_not_string_label v l in
    Ret (b || r)
  end.

Definition guess_value_type (prop : property) : res markertype :=
  let v := d_val (p_val prop) in
  let len := zlen v in
  let ms := d_markers (p_val prop) in
  let nnotstring := existsb (fun c => negb (isstring c)) v in
  let nnul := zlen (filter (fun c => c = x00) v) in
  let! nnotstringlbl := any_not_string_label v ms in
  let nnotcelllbl := existsb (fun m => bool_decide (m_type m = LABEL) && negb (m_offset m mod 4 =? 0)) ms in
  let! c := char_at v (len - 1) in
  if bool_decide (c = x00) && negb nnotstring && (nnul <=? len - nnul) && negb nnotstringlbl then Ret TYPE_STRING
  else if (len mod 4 =? 0) && negb nnotcelllbl then Ret TYPE_UINT32
  else Ret TYPE_UINT8.

(** The values of the chunk as numbers or a string of the type. *)
Definition write_chunk (t : markertype) (p : list byte) : res (list byte) :=
  match t with
  | TYPE_UINT16 => write_propval_int p 2
  | TYPE_UINT32 => write_propval_int p 4
  | TYPE_UINT64 => write_propval_int p 8
  | TYPE_STRING => write_propval_string p
  | _ => write_propval_int p 1
  end.

(** The loop over the markers; [emit_type] is the type of the chunk that is
    open. *)
Fixpoint write_chunks (v : list byte) (emit_type : markertype) (ms : list marker) : res (list byte) :=
  match ms with
  | [] => Ret []
  | m :: rest =>
    let len := zlen v in
    let chunk_len := u64 (match rest with next :: _ => m_offset next | [] => len end - m_offset m) in
    let data_len := match type_marker_length m rest with 0 => u64 (len - m_offset m) | n => n end in
    let! '(emit_type, head) :=
      if has_data_type_information m then Ret (m_type m, str " " ++ delim_start (m_type m))
      else if bool_decide (m_type m = LABEL) then
        let! ref := nonnull (m_ref m) in Ret (emit_type, str " " ++ ref ++ str ":")
      else Ret (emit_type, if negb (m_offset m =? 0) then str " " else []) in
    if bool_decide (emit_type = TYPE_NONE) then
      let! _ := c_assert (chunk_len =? 0) in
      let! r := write_chunks v emit_type rest in
      Ret (head ++ r)
    else
      let! p := bytes_from v (m_offset m) (Z.to_nat chunk_len) in
      let! body := write_chunk emit_type p in
      if chunk_len =? data_len then
        let delim := delim_end emit_type ++ (if u64 (m_offset m + chunk_len) =? len then [] else str ",") in
        let! r := write_chunks v TYPE_NONE rest in
        Ret (head ++ body ++ delim ++ r)
      else
        let! r := write_chunks v emit_type rest in
        Ret (head ++ body ++ r)
  end.

Definition write_propval (a : notes) (prop : property) (pos : list srcpos) : res (list byte) :=
  let v := d_val (p_val prop) in
  let ms := d_markers (p_val prop) in
  if zlen v =? 0 then let! note := write_note a true pos in Ret (str ";" ++ note ++ [nl]) else
  let! ms :=
    if is_null (next_type_marker ms) then
      (* data type information missing, need to guess *)
      let! t := guess_value_type prop in Ret (Marker t 0 None :: ms)
    else Ret ms in
  let! body := write_chunks v TYPE_NONE ms in
  let! note := write_note a true pos in
  Ret (str " =" ++ body ++ str ";" ++ note ++ [nl]).

Definition write_labels (l : list label) : list byte :=
  flat_map (fun l => if l_deleted l then [] else l_label l ++ str ": ") l.

(** The properties from number [i] on of the node at [pos]. *)
Fixpoint write_properties (a : notes) (level : nat) (pos : list nat) (i : nat) (ps : list property) : res (list byte) :=
  match ps with
  | [] => Ret []
  | p :: ps =>
    if p_deleted p then write_properties a level pos (S i) ps else
    let! v := write_propval a p (note_prop a pos i) in
    let! r := write_properties a level pos (S i) ps in
    Ret (write_prefix (S level) ++ write_labels (p_labels p) ++ p_name p ++ v ++ r)
  end.

Fixpoint write_tree_source_node (a : notes) (tree : node) (level : nat) (pos : list nat) {struct tree}
    : res (list byte) :=
  let name := if bool_decide (n_name tree = []) then str "/" else n_name tree in
  let! start := write_note a true (note_node a pos) in
  let! props := write_properties a level pos 0 (n_proplist tree) in
  let! kids :=
    (fix children (i : nat) (cs : list node) : res (list byte) :=
      match cs with
      | [] => Ret []
      | child :: cs =>
        if n_deleted child then children (S i) cs else
        let! s := write_tree_source_node a child (S level) (pos ++ [i]) in
        let! r := children (S i) cs in
        Ret (nl :: s ++ r)
      end) 0%nat (n_children tree) in
  let! end_ := write_note a false (note_node a pos) in
  Ret (write_prefix level ++ write_labels (n_labels tree) ++ name ++ str " {" ++ start ++ [nl] ++
       props ++ kids ++ write_prefix level ++ str "};" ++ end_ ++ [nl]).

Definition write_memreserve (re : reserve_info) : list byte :=
  write_labels (rs_labels re) ++ str "/memreserve/" ++ tab :: str "0x" ++ fmt_x 16 (rs_address re) ++
  str " 0x" ++ fmt_x 16 (rs_size re) ++ str ";" ++ [nl].

Definition dt_to_source (a : notes) (dti : dt_info) : res (list byte) :=
  let! tree := write_tree_source_node a (dt dti) 0 [] in
  Ret (str "/dts-v1/;" ++ [nl; nl] ++ flat_map write_memreserve (reservelist dti) ++ tree).
