(* ===== verification/DtcDataSpec.v ===== *)
(** Growing buffers: what the appending operations do to the contents, the
    escapes of strings read back, and where the growth fails. *)
From S2P Require Import Prelude Monad Ctype Memory DtcUtil DtcData DtcTree DtcFlat DtcSource.

(** ** Sizes *)

(** The contents are in the buffer and small enough to go on. *)
Record data_wf (d : data) : Prop := DataWf {
  wf_cap : d_len d <= d_cap d <= UINT32_MAX;
}.

(** The largest contents [data_grow_for] can make room for. *)
Definition DATA_MAX : Z := 2147483648.

Lemma d_len_nonneg d : 0 <= d_len d.
Proof. apply zlen_nonneg. Qed.

Lemma empty_wf : data_wf empty_data.
Proof. split. change (0 <= 0 <= UINT32_MAX). ilia. Qed.

(** The doubling stops at the first size that is enough, below 2^32. *)
Lemma data_grow_for_at d xlen :
  data_wf d -> 0 <= xlen -> d_len d + xlen <= DATA_MAX ->
  exists d', data_grow_for d xlen = Ret d' /\ d_val d' = d_val d /\ d_markers d' = d_markers d /\
    data_wf d' /\ d_len d + xlen <= d_cap d'.
Proof.
  intros [Hw] Hx Hm. pose proof (d_len_nonneg d). unfold data_grow_for, DATA_MAX in *.
  destruct (Z.eqb_spec xlen 0) as [->|Hne].
  { exists d. split; [done|]. split; [done|]. split; [done|]. split; [by split|lia]. }
  rewrite (u32_small (d_len d + xlen)) by ilia.
  assert (Hl : wp total (loop (fun newsize => if newsize <? d_len d + xlen then Ret (Continue (u32 (newsize * 2)))
      else Ret (Break newsize)) xlen) (fun n => d_len d + xlen <= n <= UINT32_MAX)).
  { apply (wp_loop total (fun n => 0 < n <= UINT32_MAX) (fun n => UINT32_MAX - n)); [ilia|intros; unfold loop_bound; ilia|].
    intros n Hn. destruct (Z.ltb_spec n (d_len d + xlen)); [|cbn; lia].
    cbn. rewrite u32_small by ilia. ilia. }
  apply wp_total_ex in Hl as (n & -> & Hn). cbn [rbind]. eexists. split; [done|]. cbn [d_val d_markers d_cap].
  rewrite firstn_all2 by (unfold d_len, zlen in *; lia). split; [done|]. split; [done|].
  split; [|lia]. split. unfold d_len in *. cbn [d_val d_cap]. lia.
Qed.

Lemma data_put_end d p :
  d_len d + zlen p <= d_cap d -> data_put d (d_len d) p = Ret (Data (d_val d ++ p) (d_cap d) (d_markers d)).
Proof.
  intros H. pose proof (d_len_nonneg d). unfold data_put.
  destruct (Z.leb_spec 0 (d_len d)), (Z.leb_spec (d_len d) (d_len d)), (Z.leb_spec (d_len d + zlen p) (d_cap d)); try lia.
  cbn [andb]. unfold d_len, zlen in *. rewrite firstn_all2, skipn_all2 by lia. by rewrite app_nil_r.
Qed.

(** What an append promises: the contents with [p] behind, and the markers
    [ms]. *)
Definition appended (d : data) (p : list byte) (ms : list marker) (d' : data) : Prop :=
  d_val d' = d_val d ++ p /\ d_markers d' = ms /\ data_wf d'.

Lemma data_append_data_at d p :
  data_wf d -> d_len d + zlen p <= DATA_MAX ->
  exists d', data_append_data d p = Ret d' /\ appended d p (d_markers d) d'.
Proof.
  intros Hw Hm. pose proof (zlen_nonneg p). pose proof (d_len_nonneg d). unfold data_append_data, DATA_MAX in *.
  rewrite u32_small by ilia. destruct (data_grow_for_at d (zlen p) Hw) as (d1 & -> & E1 & E2 & [Hw1] & Hc);
    [lia|unfold DATA_MAX; lia|]. cbn [rbind].
  assert (d_len d1 = d_len d) as El by (unfold d_len; by rewrite E1).
  rewrite data_put_end by lia. eexists. split; [done|].
  split; [cbn; by rewrite E1|]. split; [done|]. split. unfold d_len in *. cbn [d_val d_cap]. rewrite zlen_app. lia.
Qed.

Lemma appended_trans d p ms d1 p' ms' d2 :
  appended d p ms d1 -> appended d1 p' ms' d2 -> appended d (p ++ p') ms' d2.
Proof. intros (A1 & _ & _) (B1 & B2 & B3). split; [by rewrite B1, A1, app_assoc|done]. Qed.

Lemma appended_len d p ms d' : appended d p ms d' -> d_len d' = d_len d + zlen p.
Proof. intros (A1 & _ & _). unfold d_len. by rewrite A1, zlen_app. Qed.

Lemma appended_wf d p ms d' : appended d p ms d' -> data_wf d'.
Proof. by intros (_ & _ & H). Qed.

Lemma data_append_integer_at d v bits p :
  data_wf d -> d_len d + zlen p <= DATA_MAX ->
  (bits, p) ∈ [(8, [z2b v]); (16, be_enc16 v); (32, be_enc32 v); (64, be_enc64 v)] ->
  exists d', data_append_integer d v bits = Ret d' /\ appended d p (d_markers d) d'.
Proof.
  intros Hw Hm Hin. unfold data_append_integer. repeat (apply elem_of_cons in Hin as [Hin|Hin]);
    [injection Hin as -> ->..|by apply elem_of_nil in Hin]; by apply data_append_data_at.
Qed.

Lemma data_append_cell_at d v :
  data_wf d -> d_len d + 4 <= DATA_MAX ->
  exists d', data_append_cell d v = Ret d' /\ appended d (be_enc32 v) (d_markers d) d'.
Proof. intros Hw Hm. by apply data_append_data_at. Qed.

Lemma data_append_zeroes_at d len :
  data_wf d -> 0 <= len -> d_len d + len <= DATA_MAX ->
  exists d', data_append_zeroes d len = Ret d' /\ appended d (replicate (Z.to_nat len) x00) (d_markers d) d'.
Proof.
  intros Hw Hl Hm. pose proof (d_len_nonneg d). unfold data_append_zeroes, DATA_MAX in *. rewrite u32_small by ilia.
  destruct (data_grow_for_at d len Hw) as (d1 & -> & E1 & E2 & [Hw1] & Hc); [lia|unfold DATA_MAX; lia|]. cbn [rbind].
  destruct (Z.ltb_spec len 0); [lia|].
  assert (zlen (replicate (Z.to_nat len) x00) = len) as Ez by (unfold zlen; rewrite length_replicate; lia).
  assert (d_len d1 = d_len d) as El by (unfold d_len; by rewrite E1).
  rewrite data_put_end by lia. eexists. split; [done|].
  split; [cbn; by rewrite E1|]. split; [done|]. split. unfold d_len in *. cbn [d_val d_cap]. rewrite zlen_app. lia.
Qed.

Lemma ALIGN_up x k : 0 <= x -> 0 <= k <= 30 -> x + 2 ^ k <= UINT32_MAX -> ALIGN x (2 ^ k) = align_up x (2 ^ k).
Proof.
  intros Hx Hk Hm. pose proof (Z.pow_pos_nonneg 2 k). unfold ALIGN. rewrite (u32_small (x + 2 ^ k - 1)) by ilia.
  assert (u32 (Z.lnot (2 ^ k - 1)) = Z.land (Z.lnot (2 ^ k - 1)) (Z.ones 32)) as ->.
  { unfold u32. by rewrite Z.land_ones by lia. }
  with_strategy transparent [align_up] (unfold align_up).
  rewrite (Z.land_comm (Z.lnot _) (Z.ones 32)), Z.land_assoc. f_equal.
  rewrite Z.land_ones by lia. apply Z.mod_small. ilia.
Qed.

Lemma data_append_align_at d k :
  data_wf d -> 0 <= k <= 3 -> d_len d + 2 ^ k < DATA_MAX ->
  exists d', data_append_align d (2 ^ k) = Ret d' /\
    appended d (replicate (Z.to_nat (align_up (d_len d) (2 ^ k) - d_len d)) x00) (d_markers d) d'.
Proof.
  intros Hw Hk Hm. pose proof (d_len_nonneg d). unfold data_append_align, DATA_MAX in *.
  rewrite ALIGN_up by ilia. pose proof (Z.pow_pos_nonneg 2 k).
  assert (d_len d <= align_up (d_len d) (2 ^ k) <= d_len d + 2 ^ k - 1) as Ha.
  { rewrite align_up_spec by lia. pose proof (Z.div_mod (d_len d + 2 ^ k - 1) (2 ^ k)).
    pose proof (Z.mod_pos_bound (d_len d + 2 ^ k - 1) (2 ^ k)). lia. }
  rewrite (s32_small (align_up _ _)) by ilia. rewrite u32_small by ilia. rewrite s32_small by ilia.
  apply data_append_zeroes_at; [done|lia|unfold DATA_MAX; lia].
Qed.

(** Past 2^31 bytes the doubling of a power of two reaches 0 and never
    ends. *)
Lemma data_grow_for_hangs d k :
  0 <= k <= 31 -> DATA_MAX < d_len d + 2 ^ k -> is_u32 (d_len d + 2 ^ k) ->
  data_grow_for d (2 ^ k) = Fault Div.
Proof.
  intros Hk Hm Hu. pose proof (Z.pow_pos_nonneg 2 k). unfold data_grow_for, DATA_MAX in *.
  destruct (Z.eqb_spec (2 ^ k) 0) as [|_]; [lia|]. rewrite (u32_small (d_len d + _)) by done.
  rewrite (loop_diverges (fun n => n = 0 \/ exists j, 0 <= j <= 31 /\ n = 2 ^ j)); [done|right; by exists k|].
  intros n Hn. assert (n <= 2 ^ 31) as Hle.
  { destruct Hn as [->|(j & Hj & ->)]; [lia|]. apply Z.pow_le_mono_r; lia. }
  change (2 ^ 31) with 2147483648 in Hle. destruct (Z.ltb_spec n (d_len d + 2 ^ k)); [|lia].
  eexists. split; [done|]. destruct Hn as [->|(j & Hj & ->)]; [by left|].
  destruct (Z.eq_dec j 31) as [->|]; [by left|]. right. exists (j + 1). split; [lia|].
  rewrite Z.pow_add_r, u32_small by lia || (change (2 ^ 1) with 2; pose proof (Z.pow_le_mono_r 2 j 30); change (2 ^ 30) with 1073741824 in *; ilia).
  reflexivity.
Qed.

(** ** Escaped strings: what the source writer prints for a string reads back as
    that string, and reading never leaves the buffer. *)

(** ** Characters of a buffer *)

Lemma char_at_app pre c rest i : i = zlen pre -> char_at (pre ++ c :: rest) i = Ret c.
Proof.
  intros ->. unfold char_at. pose proof (zlen_nonneg pre). destruct (Z.ltb_spec (zlen pre) 0); [lia|].
  unfold zlen. rewrite Nat2Z.id, list_lookup_middle by done. done.
Qed.

(** The character an escape of one letter stands for. *)
Definition esc_val (e : byte) : option byte :=
  match e with
  | "a"%byte => Some x07 | "b"%byte => Some x08 | "t"%byte => Some x09 | "n"%byte => Some x0a
  | "v"%byte => Some x0b | "f"%byte => Some x0c | "r"%byte => Some x0d
  | "0"%byte | "1"%byte | "2"%byte | "3"%byte | "4"%byte | "5"%byte | "6"%byte | "7"%byte | "x"%byte => None
  | _ => Some e
  end.

Lemma get_escape_letter s i e c :
  char_at s i = Ret e -> esc_val e = Some c -> get_escape_char s i = Ret (c, i + 1).
Proof. intros H. unfold get_escape_char. rewrite H. cbn [rbind]. destruct e; cbn; intros [= <-]; reflexivity. Qed.

(** The forms [write_char] prints, for 7-bit characters. *)
Inductive written_as (c : byte) : list byte -> Prop :=
| WaPlain : c <> "\"%byte -> written_as c [c]
| WaLetter e : esc_val e = Some c -> written_as c ["\"%byte; e]
| WaNul : c = x00 -> written_as c ["\"%byte; "0"%byte]
| WaHex a b : a <> x00 -> b <> x00 -> strtol [a; b] 16 = (b2z c, 2) -> written_as c ["\"%byte; "x"%byte; a; b].

Lemma write_char_forms c : b2z c < 128 -> written_as c (write_char c).
Proof.
  intros H. assert (exists w, write_char c = w) as [w E] by eauto. rewrite E.
  destruct c; vm_compute in E; subst w; first [exfalso; vm_compute in H; discriminate|apply WaNul; reflexivity
    |apply WaLetter; reflexivity|apply WaPlain; discriminate|apply WaHex; [discriminate..|vm_compute; reflexivity]].
Qed.

(** ** Numbers *)

Lemma strncpy_app pre l rest i : i = zlen pre -> no_nul l ->
  strncpy (length l) (pre ++ l ++ rest) i = Ret l.
Proof.
  revert pre i. induction l as [|c l IH]; intros pre i Hi Hn; [done|]. apply not_elem_of_cons in Hn as [Hc Hn].
  cbn [length strncpy app]. rewrite char_at_app by done. cbn [rbind]. rewrite bool_decide_eq_false_2 by done.
  change (pre ++ c :: l ++ rest) with (pre ++ [c] ++ l ++ rest). rewrite app_assoc.
  rewrite IH; [done| |done]. rewrite zlen_app. change (zlen [c]) with 1. lia.
Qed.

Lemma strncpy_cons n s i c :
  char_at s i = Ret c -> c <> x00 -> strncpy (S n) s i = let! r := strncpy n s (i + 1) in Ret (c :: r).
Proof. intros H Hc. cbn [strncpy]. rewrite H. cbn [rbind]. by rewrite bool_decide_eq_false_2. Qed.

(** A copy always ends: the buffer has a NUL ahead. *)
Lemma strncpy_ret n : forall pre l i, i = zlen pre -> x00 ∈ l ->
  exists r, strncpy n (pre ++ l) i = Ret r /\ no_nul r /\ exists l', l = r ++ l' /\ x00 ∈ l'.
Proof.
  induction n as [|n IH]; intros pre l i Hi Hl; cbn [strncpy]; [exists []; split; [done|]; split; [apply not_elem_of_nil|by exists l]|].
  destruct l as [|c l]; [by apply elem_of_nil in Hl|]. rewrite char_at_app by done. cbn [rbind].
  case_bool_decide as Hc; [exists []; split; [done|]; split; [apply not_elem_of_nil|by exists (c :: l)]|].
  apply elem_of_cons in Hl as [Ex|Hl]; [by destruct Hc|].
  destruct (IH (pre ++ [c]) l (i + 1)) as (r & E & Hr & l' & -> & Hl'); [rewrite zlen_app; change (zlen [c]) with 1; lia|done|].
  rewrite <- app_assoc in E. cbn [app] in E. rewrite E. exists (c :: r). split; [done|].
  split; [apply not_elem_of_cons; by split|]. by exists l'.
Qed.

Definition is_oct (c : byte) : bool := is_base_digit 8 c.

Lemma strtol_oct0 r :
  strtol ("0"%byte :: r) 8 = (let '(v, n) := strtol_digits 8 0 0 ("0"%byte :: r) in if n =? 0 then (0, 0) else (v, n)).
Proof.
  unfold strtol. change (skip_space ("0"%byte :: r)) with ("0"%byte :: r, 0). cbv iota beta zeta.
  replace (match r with x :: c :: r0 => if (8 =? 16) && (bool_decide (x = "x"%byte) || bool_decide (x = "X"%byte)) && is_base_digit 16 c
      then (c :: r0, 2) else ("0"%byte :: r, 0) | _ => ("0"%byte :: r, 0) end) with ("0"%byte :: r, 0) by (by destruct r as [|x [|c r0]]).
  destruct (strtol_digits 8 0 0 ("0"%byte :: r)) as [v n]. by destruct (n =? 0).
Qed.

Lemma oct_zero r : (forall c r', r = c :: r' -> is_oct c = false) -> strtol ("0"%byte :: r) 8 = (0, 1).
Proof.
  intros Hr. rewrite strtol_oct0. destruct r as [|x r]; [done|]. specialize (Hr x r eq_refl). unfold is_oct in Hr.
  cbn [strtol_digits]. change (is_base_digit 8 "0"%byte) with true. cbv iota. by rewrite Hr.
Qed.

(** ** Reading one printed character *)

(** One step of the escape reader: the character at [i] and the new index. *)
Definition read_char (s : list byte) (i : Z) : res (byte * Z) :=
  let! c := char_at s i in
  if bool_decide (c = "\"%byte) then get_escape_char s (i + 1) else Ret (c, i + 1).

Lemma read_char_at pre c w rest i :
  written_as c w -> i = zlen pre -> x00 ∈ rest -> (c = x00 -> forall d r, rest = d :: r -> is_oct d = false) ->
  read_char (pre ++ w ++ rest) i = Ret (c, i + zlen w).
Proof.
  intros Hw Hi Hnul Hoct. unfold read_char.
  assert (E : forall b l, (pre ++ (b :: l) ++ rest) = (pre ++ [b]) ++ l ++ rest) by (intros; by rewrite <- app_assoc).
  assert (E1 : i + 1 = zlen (pre ++ ["\"%byte])) by (rewrite zlen_app; change (zlen ["\"%byte]) with 1; lia).
  destruct Hw as [Hc|e He|Hc|a b Ha Hb Hh]; cbn [app]; rewrite (char_at_app pre) by done; cbn [rbind].
  - by rewrite bool_decide_eq_false_2.
  - rewrite bool_decide_eq_true_2 by done. change (zlen _) with 2. replace (i + 2) with (i + 1 + 1) by lia.
    change (pre ++ "\"%byte :: e :: rest) with (pre ++ ("\"%byte :: [e]) ++ rest). rewrite E.
    apply (get_escape_letter _ _ e); [by apply char_at_app|done].
  - rewrite bool_decide_eq_true_2 by done. change (zlen _) with 2.
    change (pre ++ "\"%byte :: "0"%byte :: rest) with (pre ++ ("\"%byte :: ["0"%byte]) ++ rest). rewrite E. cbn [app].
    unfold get_escape_char. rewrite char_at_app by done. cbn [rbind]. unfold get_oct_char.
    replace (i + 1 + 1 - 1) with (i + 1) by lia.
    rewrite (strncpy_cons _ _ _ "0"%byte); [|by apply char_at_app|done].
    destruct (strncpy_ret 2 ((pre ++ ["\"%byte]) ++ ["0"%byte]) rest (i + 1 + 1)) as (r & Er & Hr & l' & El & _); [|done|].
    { rewrite zlen_app, <- E1. done. }
    rewrite <- app_assoc in Er. cbn [app] in Er. rewrite Er. cbn [rbind].
    rewrite oct_zero; [cbn; subst c; do 2 f_equal; lia|]. intros d r' ->. eapply Hoct; [done|]. rewrite El. done.
  - rewrite bool_decide_eq_true_2 by done. change (zlen _) with 4.
    change (pre ++ "\"%byte :: "x"%byte :: a :: b :: rest) with (pre ++ ("\"%byte :: ["x"%byte; a; b]) ++ rest). rewrite E.
    unfold get_escape_char. cbn [app]. rewrite char_at_app by done. cbn [rbind]. unfold get_hex_char.
    change ((pre ++ ["\"%byte]) ++ "x"%byte :: a :: b :: rest) with ((pre ++ ["\"%byte]) ++ ["x"%byte] ++ [a; b] ++ rest).
    rewrite app_assoc. change 2%nat with (length [a; b]). rewrite strncpy_app.
    + cbn [rbind]. rewrite Hh. cbn. do 2 f_equal; [|lia]. apply z2b_b2z.
    + rewrite zlen_app, <- E1. done.
    + unfold no_nul. repeat (apply not_elem_of_cons; split; [done|]). apply not_elem_of_nil.
Qed.

(** ** A whole string *)

(** One round of the reader's loop. *)
Lemma escape_step s len i d :
  (if i <? len then
     let! c := char_at s i in
     let i := i + 1 in
     let! '(c, i) := if bool_decide (c = "\"%byte) then get_escape_char s i else Ret (c, i) in
     let! d := data_put d (d_len d) [c] in
     Ret (Continue (i, d))
   else Ret (Break (i, d))) =
  (if i <? len then
     let! '(c, i) := read_char s i in let! d := data_put d (d_len d) [c] in Ret (Continue (i, d))
   else Ret (Break (i, d))).
Proof.
  destruct (i <? len); [|done]. unfold read_char. destruct (char_at s i) as [c|]; [|done]. cbn [rbind].
  by destruct (bool_decide (c = "\"%byte)).
Qed.

(** The reader's loop, as a rule: [Q] of the index and what is read so far. *)
Lemma escape_loop E s len (Q : Z -> list byte -> Prop) (R : data -> Prop) :
  0 <= len < INT_MAX -> Q 0 [] ->
  (forall i l, 0 <= i < len -> Q i l -> wp E (read_char s i) (fun r => Q r.2 (l ++ [r.1]) /\ i < r.2)) ->
  (forall i l d, len <= i -> Q i l -> d_val d = l ++ [x00] -> zlen l <= len -> R d) ->
  wp E (data_copy_escape_string s len) R.
Proof.
  intros Hl H0 Hstep Hend. unfold data_copy_escape_string. rewrite sint_small by ilia. cbn [rbind]. rewrite u32_small by ilia.
  assert (d_len (data_add_marker empty_data TYPE_STRING None) = 0) as E0 by done.
  destruct (data_grow_for_at (data_add_marker empty_data TYPE_STRING None) (len + 1)) as (d0 & -> & Ev & _ & _ & Hc).
  { constructor. apply empty_wf. } { lia. } { rewrite E0. unfold DATA_MAX. ilia. }
  cbn [rbind]. rewrite E0 in Hc. cbn [d_val data_add_marker data_append_markers empty_data] in Ev.
  apply wp_bind. eapply (wp_loop E (fun st => 0 <= st.1 /\ Q st.1 (d_val st.2) /\ len + 1 <= d_cap st.2 /\
      d_len st.2 <= st.1 /\ d_len st.2 <= len) (fun st => Z.max 0 (len - st.1))).
  - cbn [fst snd]. unfold d_len. rewrite Ev. change (zlen []) with 0. split; [lia|]. split; [exact H0|lia].
  - intros st (Hi & _). unfold loop_bound. ilia.
  - intros [i d] (Hi & HQ & Hcap & H1 & H2). cbn [fst snd] in *. rewrite escape_step.
    pose proof (d_len_nonneg d). destruct (Z.ltb_spec i len).
    + apply wp_bind. eapply wp_mono; [apply (Hstep i (d_val d)); [lia|exact HQ]|]. intros [c j] [HQ' Hj]. cbn [fst snd] in *.
      rewrite data_put_end by (change (zlen [c]) with 1; lia). cbn [rbind wp fst snd]. split; [|lia].
      split; [lia|]. split; [exact HQ'|]. unfold d_len in *. cbn [d_val d_cap]. rewrite zlen_app. change (zlen [c]) with 1. lia.
    + cbn [wp]. rewrite data_put_end by (change (zlen [x00]) with 1; lia). cbn [wp]. eapply Hend; [|exact HQ|done|exact H2]; lia.
Qed.

(** *** Printed strings *)

(** Seven-bit characters, and no octal digit behind a NUL: "\0" would take it
    for a part of the number. *)
Fixpoint printable_back (s : list byte) : bool :=
  match s with
  | [] => true
  | c :: s => (b2z c <? 128) && (negb (bool_decide (c = x00)) || negb (from_option is_oct false (head s))) && printable_back s
  end.

Lemma printable_back_app l s : printable_back (l ++ s) = true -> printable_back s = true.
Proof. induction l as [|x l IH]; [done|]. cbn [app printable_back]. intros [_ H]%andb_prop. auto. Qed.

Lemma printable_back_cons c s : printable_back (c :: s) = true ->
  b2z c < 128 /\ (c = x00 -> from_option is_oct false (head s) = false) /\ printable_back s = true.
Proof.
  cbn [printable_back]. intros [[H1 H2]%andb_prop H3]%andb_prop. apply Z.ltb_lt in H1. split; [exact H1|]. split; [|exact H3].
  intros ->. cbn in H2. by apply negb_true_iff in H2.
Qed.

Lemma write_char_pos c : b2z c < 128 -> 0 < zlen (write_char c).
Proof. intros H. by destruct (write_char_forms c H). Qed.

Definition printed (s : list byte) : list byte := flat_map write_char s.

Lemma printed_head s rest d r :
  printable_back s = true -> from_option is_oct false (head s) = false -> is_oct (default x00 (head rest)) = false ->
  printed s ++ rest = d :: r -> is_oct d = false.
Proof.
  intros Hp Hs Hr. destruct s as [|c s]; [destruct rest; cbn in *; [done|congruence]|].
  apply printable_back_cons in Hp as [Hp _]. unfold printed. cbn [flat_map head from_option] in *.
  destruct (write_char_forms c Hp); cbn [app]; intros [= <- _]; first [exact Hs|reflexivity].
Qed.

Lemma printed_read s1 c s2 :
  printable_back (s1 ++ c :: s2) = true ->
  read_char (printed (s1 ++ c :: s2) ++ [quote; x00]) (zlen (printed s1)) = Ret (c, zlen (printed (s1 ++ [c]))).
Proof.
  intros (Hc & H0 & Hs2)%printable_back_app%printable_back_cons.
  unfold printed. rewrite !flat_map_app. cbn [flat_map]. rewrite app_nil_r, zlen_app, <- !app_assoc.
  apply read_char_at; [by apply write_char_forms|done|apply elem_of_app; right; by right; left|].
  intros Ec d r Hd. eapply (printed_head s2 [quote; x00]); [exact Hs2|by apply H0|reflexivity|exact Hd].
Qed.

Lemma printed_back s :
  printable_back s = true -> zlen (printed s) < INT_MAX ->
  exists d, data_copy_escape_string (printed s ++ [quote; x00]) (zlen (printed s)) = Ret d /\ d_val d = s ++ [x00].
Proof.
  intros Hp Hl. apply wp_total_ex. pose proof (zlen_nonneg (printed s)).
  apply (escape_loop total _ _ (fun i l => exists s2, s = l ++ s2 /\ i = zlen (printed l))); [lia|by exists s| |].
  - intros i l Hi (s2 & E & Ei). destruct s2 as [|c s2]; [rewrite app_nil_r in E; subst; lia|].
    rewrite E in Hp |- *. rewrite Ei, printed_read by done. cbn [wp fst snd]. split; [exists s2; by rewrite <- app_assoc|].
    unfold printed. rewrite flat_map_app, zlen_app. cbn [flat_map]. rewrite app_nil_r.
    pose proof (write_char_pos c (proj1 (printable_back_cons _ _ (printable_back_app _ _ Hp)))). lia.
  - intros i l d Hi (s2 & E & Ei) Ed _. destruct s2 as [|c s2]; [by rewrite E, app_nil_r|].
    exfalso. subst i s. unfold printed in Hi. rewrite flat_map_app, zlen_app in Hi. cbn [flat_map] in Hi. rewrite zlen_app in Hi.
    pose proof (zlen_nonneg (flat_map write_char s2)).
    pose proof (write_char_pos c (proj1 (printable_back_cons _ _ (printable_back_app _ _ Hp)))). lia.
Qed.

(** *** Any string *)

(** The only fault: a bad hexadecimal escape. *)
Definition only_dies (f : fault) : Prop := f = Die.

Lemma strtol_digits_mono base s : forall acc n, n <= (strtol_digits base acc n s).2.
Proof.
  induction s as [|c s IH]; intros acc n; cbn [strtol_digits]; [done|].
  destruct (is_base_digit base c); [|done]. pose proof (IH (acc * base + digit_val c) (n + 1)). lia.
Qed.

Definition octal_digits : list byte := str "01234567".

Lemma strtol_oct e r : e ∈ octal_digits -> 0 < (strtol (e :: r) 8).2.
Proof.
  intros He. assert (H : forall acc n, 0 <= n -> 0 < (strtol_digits 8 acc n (e :: r)).2).
  { intros acc n Hn. cbn [strtol_digits]. assert (is_base_digit 8 e = true) as ->.
    { unfold octal_digits in He. cbn in He. repeat (apply elem_of_cons in He as [->|He]; [done|]). by apply elem_of_nil in He. }
    pose proof (strtol_digits_mono 8 r (acc * 8 + digit_val e) (n + 1)). lia. }
  assert (strtol (e :: r) 8 = (let '(v, n) := strtol_digits 8 0 0 (e :: r) in if n =? 0 then (0, 0) else (v, n))) as ->.
  { unfold octal_digits in He. cbn in He. apply elem_of_cons in He as [->|He]; [apply strtol_oct0|].
    clear H. repeat (apply elem_of_cons in He as [->|He];
      [unfold strtol; match goal with |- context [skip_space ?l] => change (skip_space l) with (l, 0) end; cbv iota beta zeta;
       destruct (strtol_digits 8 0 0 _) as [v n]; by destruct (n =? 0)|]). by apply elem_of_nil in He. }
  specialize (H 0 0 ltac:(lia)). destruct (strtol_digits 8 0 0 (e :: r)) as [v n]. cbn [snd] in H.
  destruct (Z.eqb_spec n 0); cbn [snd]; lia.
Qed.

(** Reading a number: the copy ends at the NUL ahead. *)
Lemma get_oct_safe pre e l i :
  i = zlen pre -> e ∈ octal_digits -> x00 ∈ l ->
  wp only_dies (get_oct_char (pre ++ e :: l) i) (fun r => i < r.2).
Proof.
  intros Hi He Hl. assert (e <> x00) as Hne.
  { intros ->. unfold octal_digits in He. cbn in He. repeat (apply elem_of_cons in He as [He|He]; [done|]). by apply elem_of_nil in He. }
  unfold get_oct_char. rewrite (strncpy_cons _ _ _ e); [|by apply char_at_app|done].
  destruct (strncpy_ret 2 (pre ++ [e]) l (i + 1)) as (r & Er & _); [rewrite zlen_app; change (zlen [e]) with 1; lia|done|].
  rewrite <- app_assoc in Er. cbn [app] in Er. rewrite Er. cbn [rbind]. pose proof (strtol_oct e r He) as Hs.
  destruct (strtol (e :: r) 8) as [v n]. cbn [snd] in Hs. destruct (Z.ltb_spec 0 n); [|lia]. cbn. lia.
Qed.

Lemma get_hex_safe pre l i :
  i = zlen pre -> x00 ∈ l -> wp only_dies (get_hex_char (pre ++ l) i) (fun r => i < r.2).
Proof.
  intros Hi Hl. unfold get_hex_char. destruct (strncpy_ret 2 pre l i Hi Hl) as (r & -> & _). cbn [rbind].
  destruct (strtol r 16) as [v n]. destruct (Z.ltb_spec 0 n); cbn; [lia|done].
Qed.

Lemma get_escape_safe pre l i :
  i = zlen pre -> x00 ∈ l -> wp only_dies (get_escape_char (pre ++ l) i) (fun r => i < r.2).
Proof.
  intros Hi Hl. destruct l as [|e l]; [by apply elem_of_nil in Hl|]. unfold get_escape_char.
  rewrite char_at_app by done. cbn [rbind]. replace (i + 1 - 1) with i by lia.
  assert (e <> x00 -> x00 ∈ l) as Hl'.
  { intros Hne. apply elem_of_cons in Hl as [E|]; [by destruct Hne|done]. }
  destruct e; try (cbn [wp snd]; lia);
    try (apply get_oct_safe; [done|unfold octal_digits; cbn; repeat (first [by left|right])|by apply Hl']).
  change (pre ++ "x"%byte :: l) with (pre ++ ["x"%byte] ++ l). rewrite app_assoc.
  eapply wp_mono; [apply get_hex_safe; [rewrite zlen_app, Hi; done|by apply Hl']|]. intros r Hr. cbv beta in Hr |- *. lia.
Qed.

Lemma escape_safe s rest :
  zlen s < INT_MAX -> x00 ∈ rest ->
  wp only_dies (data_copy_escape_string (s ++ rest) (zlen s))
    (fun d => zlen (d_val d) <= zlen s + 1 /\ last (d_val d) = Some x00).
Proof.
  intros Hl Hr. pose proof (zlen_nonneg s). apply (escape_loop only_dies _ _ (fun _ _ => True)); [lia|done| |].
  - intros i l Hi _. pose (k := Z.to_nat i).
    assert (exists c, s !! k = Some c) as [c Hc] by (apply lookup_lt_is_Some; unfold zlen in *; lia).
    rewrite <- (take_drop_middle s k c Hc), <- app_assoc. cbn [app].
    assert (i = zlen (take k s)) as Ei.
    { unfold zlen in *. rewrite length_take. lia. }
    unfold read_char. rewrite char_at_app by done. cbn [rbind]. case_bool_decide as Hb; [|cbn [wp snd]; split; [done|lia]].
    assert (x00 ∈ drop (S k) s ++ rest) as Hn by (apply elem_of_app; by right).
    change (take k s ++ c :: drop (S k) s ++ rest) with (take k s ++ [c] ++ (drop (S k) s ++ rest)). rewrite app_assoc.
    eapply wp_mono; [apply get_escape_safe; [|exact Hn]; rewrite zlen_app, <- Ei; done|]. intros r Hr'. cbv beta in Hr'. split; [done|lia].
  - intros i l d _ _ Ed Hd. rewrite Ed, zlen_app, last_snoc. change (zlen [x00]) with 1. split; [lia|done].
Qed.
