(* ===== verification/DtcTreeSpec.v ===== *)
(** The live tree as a map from paths to values: names are unique among the
    properties and the subnodes of a node, deleted ones included, and what is
    below a deleted node is deleted. *)
From S2P Require Import Prelude Monad Ctype DtcUtil DtcData DtcTree.

Lemma node_ind' (Q : node -> Prop) :
  (forall n, Forall Q (n_children n) -> Q n) -> forall n, Q n.
Proof.
  intros H. fix IH 1. intros [d nm pl ch fp bl ph ac sc lb om rf]. apply H. cbn [n_children].
  induction ch as [|c ch IHl]; constructor; [apply IH|apply IHl].
Qed.

(** ** Lists whose elements have names *)

Section keyed.
Context {A : Type} (key : A -> list byte).

Definition named (k : list byte) (x : A) : bool := streq (key x) k.

(** The first element of that name. *)
Definition by_name (k : list byte) (l : list A) : option A := snd <$> find_first (named k) l.

Lemma named_true k x : named k x = true <-> key x = k.
Proof. apply bool_decide_eq_true. Qed.

Lemma by_name_cons k x l : by_name k (x :: l) = if named k x then Some x else by_name k l.
Proof. unfold by_name. cbn [find_first]. destruct (named k x); [done|]. by destruct (find_first _ l) as [[i y]|]. Qed.

Lemma by_name_app k l1 l2 : by_name k (l1 ++ l2) = match by_name k l1 with Some x => Some x | None => by_name k l2 end.
Proof.
  induction l1 as [|x l1 IH]; [done|]. cbn [app]. rewrite !by_name_cons. by destruct (named k x).
Qed.

Lemma by_name_Some k l x : by_name k l = Some x -> x ∈ l /\ key x = k.
Proof.
  induction l as [|y l IH]; [done|]. rewrite by_name_cons. destruct (named k y) eqn:E.
  - intros [= ->]. split; [by left|by apply named_true].
  - intros [H1 H2]%IH. split; [by right|done].
Qed.

Lemma by_name_None k l : by_name k l = None <-> k ∉ map key l.
Proof.
  induction l as [|y l IH]; [split; [intros _; apply not_elem_of_nil|done]|].
  rewrite by_name_cons. cbn [map]. rewrite not_elem_of_cons, <- IH. destruct (named k y) eqn:E.
  - apply named_true in E. split; [done|]. intros [H _]. by rewrite E in H.
  - split; [|tauto]. intros H. split; [|done]. intros ->. unfold named, streq in E. by rewrite bool_decide_eq_true_2 in E.
Qed.

Lemma by_name_unique l x : NoDup (map key l) -> x ∈ l -> by_name (key x) l = Some x.
Proof.
  induction l as [|y l IH]; intros Hn Hx; [by apply elem_of_nil in Hx|].
  cbn [map] in Hn. apply NoDup_cons in Hn as [Hy Hn]. rewrite by_name_cons. apply elem_of_cons in Hx as [->|Hx].
  - unfold named, streq. by rewrite bool_decide_eq_true_2.
  - destruct (named (key x) y) eqn:E; [|by apply IH]. apply named_true in E. destruct Hy. rewrite E.
    apply list_elem_of_fmap. by exists x.
Qed.

Lemma by_name_alter k k' f l :
  (forall x, key (f x) = key x) ->
  by_name k (alter_first (named k') f l) = if decide (k = k') then f <$> by_name k l else by_name k l.
Proof.
  intros Hf. induction l as [|y l IH]; [by destruct (decide _)|]. cbn [alter_first].
  destruct (named k' y) eqn:E; rewrite !by_name_cons.
  - apply named_true in E. unfold named at 1. rewrite Hf. fold (named k y). destruct (decide (k = k')) as [->|Hk].
    + by rewrite (proj2 (named_true k' y) E).
    + destruct (named k y) eqn:E'; [|done]. apply named_true in E'. congruence.
  - rewrite IH. destruct (decide (k = k')) as [->|Hk]; [by rewrite E|done].
Qed.

Lemma keys_alter p f l : (forall x, key (f x) = key x) -> map key (alter_first p f l) = map key l.
Proof.
  intros Hf. induction l as [|y l IH]; [done|]. cbn [alter_first]. destruct (p y); cbn [map]; [by rewrite Hf|by rewrite IH].
Qed.

Lemma find_first_is_by_name k l : find_first (named k) l = None <-> by_name k l = None.
Proof. unfold by_name. by destruct (find_first _ l). Qed.

(** The first element of that name that is not marked. *)
Lemma by_name_live (dead : A -> bool) k l :
  NoDup (map key l) ->
  snd <$> find_first (fun x => negb (dead x) && named k x) l =
  (x ← by_name k l; if dead x then None else Some x).
Proof.
  induction l as [|y l IH]; [done|]. cbn [map]. intros [Hy Hn]%NoDup_cons. rewrite by_name_cons. cbn [find_first].
  destruct (named k y) eqn:E.
  - cbn [mbind option_bind]. destruct (dead y); cbn [negb andb]; [|done].
    transitivity (snd <$> find_first (fun x => negb (dead x) && named k x) l);
      [by destruct (find_first _ l) as [[]|]|]. rewrite IH by done.
    apply named_true in E. subst k. by rewrite (proj2 (by_name_None _ _) Hy).
  - rewrite andb_false_r. transitivity (snd <$> find_first (fun x => negb (dead x) && named k x) l);
      [by destruct (find_first _ l) as [[]|]|]. by apply IH.
Qed.
End keyed.

Lemma alter_first_Forall {A} (Q : A -> Prop) p f l :
  Forall Q l -> (forall x, Q x -> Q (f x)) -> Forall Q (alter_first p f l).
Proof.
  intros H Hf. induction H as [|x l Hx Hl IH]; cbn [alter_first]; [constructor|]. destruct (p x); constructor; auto.
Qed.

(** ** Well-formed trees *)

Inductive node_wf : node -> Prop :=
| NodeWf n :
    NoDup (map p_name (n_proplist n)) -> NoDup (map n_name (n_children n)) ->
    (n_deleted n = true -> Forall (fun p => p_deleted p = true) (n_proplist n) /\
                           Forall (fun c => n_deleted c = true) (n_children n)) ->
    Forall node_wf (n_children n) -> node_wf n.

Lemma node_wf_inv n : node_wf n ->
  NoDup (map p_name (n_proplist n)) /\ NoDup (map n_name (n_children n)) /\
  (n_deleted n = true -> Forall (fun p => p_deleted p = true) (n_proplist n) /\
                         Forall (fun c => n_deleted c = true) (n_children n)) /\
  Forall node_wf (n_children n).
Proof. by destruct 1. Qed.

Fixpoint node_wfb (n : node) : bool :=
  bool_decide (NoDup (map p_name (n_proplist n))) && bool_decide (NoDup (map n_name (n_children n))) &&
  (negb (n_deleted n) || forallb p_deleted (n_proplist n) && forallb n_deleted (n_children n)) &&
  forallb node_wfb (n_children n).

Lemma node_wfb_sound n : node_wfb n = true -> node_wf n.
Proof.
  induction n as [n IH] using node_ind'. destruct n as [dl nm pl ch fp bl ph ac sc lb om rf]. cbn [node_wfb n_proplist n_children n_deleted] in *.
  rewrite !andb_true_iff, orb_true_iff, andb_true_iff, !bool_decide_eq_true, !forallb_forall, negb_true_iff.
  intros [[[H1 H2] H3] H4]. constructor; cbn [n_proplist n_children n_deleted]; [done|done| |].
  - intros ->. destruct H3 as [|[H3 H5]]; [done|]. split; apply Forall_forall; intros x Hx%list_elem_of_In; auto.
  - rewrite Forall_forall in *. intros x Hx. apply IH; [done|]. by apply H4, list_elem_of_In.
Qed.

(** The property and the subnode of a name, found by the code's accessors. *)
Lemma get_property_by_name n name :
  NoDup (map p_name (n_proplist n)) ->
  get_property n name = (p ← by_name p_name name (n_proplist n); if p_deleted p then None else Some p).
Proof. intros Hn. exact (by_name_live p_name p_deleted name (n_proplist n) Hn). Qed.

Definition subnode (n : node) (name : list byte) : option node := snd <$> get_subnode n name.

Lemma subnode_by_name n name :
  NoDup (map n_name (n_children n)) ->
  subnode n name = (c ← by_name n_name name (n_children n); if n_deleted c then None else Some c).
Proof. intros Hn. exact (by_name_live n_name n_deleted name (n_children n) Hn). Qed.

(** The value of a property of the node a path leads to. *)
Fixpoint value_at (t : node) (path : list (list byte)) (name : list byte) : option data :=
  match path with
  | [] => p_val <$> get_property t name
  | c :: path => t' ← subnode t c; value_at t' path name
  end.

(** What a node says about a path: nothing, that it is deleted, or a value. *)
Inductive change := Keep | Drop | SetTo (v : data).

Fixpoint change_at (t : node) (path : list (list byte)) (name : list byte) : change :=
  match path with
  | [] =>
    match by_name p_name name (n_proplist t) with
    | None => Keep
    | Some p => if p_deleted p then Drop else SetTo (p_val p)
    end
  | c :: path =>
    match by_name n_name c (n_children t) with
    | None => Keep
    | Some t' => if n_deleted t' then Drop else change_at t' path name
    end
  end.

Definition changed (c : change) (old : option data) : option data :=
  match c with Keep => old | Drop => None | SetTo v => Some v end.

(** A tree on its own: what it does not say is absent. *)
Lemma value_change t path name : node_wf t -> value_at t path name = changed (change_at t path name) None.
Proof.
  revert t. induction path as [|c path IH]; intros t (Hp & Hc & _ & Hk)%node_wf_inv; cbn [value_at change_at].
  - rewrite get_property_by_name by done. destruct (by_name _ _ _) as [p|]; [|done]. by destruct (p_deleted p) eqn:E; cbn; rewrite E.
  - rewrite subnode_by_name by done. destruct (by_name _ _ _) as [t'|] eqn:E; [|done]. cbn [mbind option_bind].
    destruct (n_deleted t'); [done|]. cbn. apply IH. rewrite Forall_forall in Hk. apply Hk. by apply by_name_Some in E as [? _].
Qed.

(** Below a deleted node there is nothing. *)
Lemma value_deleted t path name : node_wf t -> n_deleted t = true -> value_at t path name = None.
Proof.
  intros Hw Hd. rewrite value_change by done. apply node_wf_inv in Hw as (_ & _ & Hdel & _). destruct (Hdel Hd) as [H1 H2].
  destruct path as [|c path]; cbn [change_at].
  - destruct (by_name _ _ _) as [p|] eqn:E; [|done]. apply by_name_Some in E as [E _]. rewrite Forall_forall in H1.
    by rewrite (H1 _ E).
  - destruct (by_name _ _ _) as [t'|] eqn:E; [|done]. apply by_name_Some in E as [E _]. rewrite Forall_forall in H2.
    by rewrite (H2 _ E).
Qed.

(** ** Live trees for the witnesses. *)

Definition d_prop (name val : list byte) : property := build_property name (Data val (zlen val) []).
Definition d_node (name : list byte) (ps : list property) (cs : list node) : node :=
  n_set_name (Some name) (build_node (rev ps) cs).

Definition d_cpu : node := d_node (str "cpu@0") [d_prop (str "reg") (be_enc32 0); d_prop (str "compatible") []] [].
Definition d_tree : node :=
  d_node [] [d_prop (str "compatible") (str "acme" ++ [x00]); build_property_delete (str "model")]
    [d_node (str "cpus") [] [d_cpu]; delete_node d_cpu; d_node (str "mem") [d_prop (str "reg") (be_enc64 7)] []].
Definition d_opts : dtc_opts := DtcOpts 0 2 0 12 0 3 false.
Definition d_dti : dt_info := build_dt_info 1 [build_reserve_entry 16 32] d_tree 5.

(** A later definition of parts of it. *)
Definition d_over : node :=
  d_node [] [build_property_delete (str "compatible"); d_prop (str "model") (str "x" ++ [x00])]
    [d_node (str "cpus") [] [d_node (str "cpu@0") [d_prop (str "reg") (be_enc32 9)] []];
     n_set_name (Some (str "mem")) build_node_delete].
