(* ===== verification/DtcMerge.v ===== *)
(** Merging: what a later definition of a node says overrides what the tree
    has, path by path, and well-formed trees stay well formed. *)
From S2P Require Import Prelude Monad Ctype DtcUtil DtcData DtcTree DtcTreeSpec.

(** ** Deleting *)

Lemma delete_node_name n : n_name (delete_node n) = n_name n.
Proof. by destruct n. Qed.

Lemma delete_node_deleted n : n_deleted (delete_node n) = true.
Proof. by destruct n. Qed.

Lemma delete_node_wf n : node_wf n -> node_wf (delete_node n).
Proof.
  induction n as [n IH] using node_ind'. intros (Hp & Hc & _ & Hk)%node_wf_inv.
  destruct n as [dl nm pl ch fp bl ph ac sc lb om rf]. cbn [n_proplist n_children] in *.
  constructor; cbn [delete_node n_proplist n_children n_deleted].
  - rewrite map_map. erewrite map_ext; [exact Hp|]. intros p. by destruct (p_deleted p).
  - rewrite map_map. erewrite map_ext; [exact Hc|]. intros c. cbn beta. by destruct (n_deleted c); rewrite ?delete_node_name.
  - intros _. split; apply Forall_map, Forall_forall; intros x _; cbn beta.
    + by destruct (p_deleted x) eqn:E.
    + destruct (n_deleted x) eqn:E; [done|apply delete_node_deleted].
  - apply Forall_map. rewrite Forall_forall in *. intros c Hin. cbn beta. destruct (n_deleted c); [auto|].
    auto.
Qed.

(** ** The properties of a merged node *)

Definition pv (l : list property) (name : list byte) : option data :=
  p ← by_name p_name name l; if p_deleted p then None else Some (p_val p).

Definition said (p : property) : option data := if p_deleted p then None else Some (p_val p).

Lemma pv_alter name p f l :
  (forall x, p_name (f x) = p_name x) -> (forall x, said (f x) = said p) ->
  by_name p_name (p_name p) l <> None ->
  pv (alter_first (named p_name (p_name p)) f l) name = if decide (name = p_name p) then said p else pv l name.
Proof.
  intros Hf Hs Hn. unfold pv. rewrite by_name_alter by done. destruct (decide (name = p_name p)) as [->|]; [|done].
  destruct (by_name p_name (p_name p) l) as [x|]; [|done]. cbn. exact (Hs x).
Qed.

Lemma merge_property_pv n p name :
  pv (n_proplist (merge_property n p)) name =
  if decide (name = p_name p) then said p else pv (n_proplist n) name.
Proof.
  destruct n as [dl nm pl ch fp bl ph ac sc lb om rf]. unfold merge_property. cbn [n_proplist].
  fold (named p_name (p_name p)). destruct (p_deleted p) eqn:Ed.
  - cbn [delete_property_by_name n_set_proplist n_proplist]. fold (named p_name (p_name p)).
    destruct (by_name p_name (p_name p) pl) as [x|] eqn:E.
    + apply pv_alter; [done| |by rewrite E]. intros y. unfold said. by rewrite Ed.
    + unfold pv. rewrite by_name_alter by done. destruct (decide (name = p_name p)) as [->|]; [|done].
      rewrite E. unfold said. by rewrite Ed.
  - destruct (find_first (named p_name (p_name p)) pl) as [[i x]|] eqn:E; cbn [n_set_proplist add_property n_proplist].
    + apply pv_alter; [done| |unfold by_name; by rewrite E]. intros y. unfold said. by rewrite Ed.
    + apply find_first_is_by_name in E. unfold pv. rewrite by_name_app, by_name_cons. unfold named, streq.
      destruct (decide (name = p_name p)) as [->|Hne].
      * rewrite E, bool_decide_eq_true_2 by done. done.
      * rewrite (bool_decide_eq_false_2 (p_name p = name)) by done. by destruct (by_name p_name name pl).
Qed.

Lemma merge_property_keys n p :
  NoDup (map p_name (n_proplist n)) -> NoDup (map p_name (n_proplist (merge_property n p))).
Proof.
  destruct n as [dl nm pl ch fp bl ph ac sc lb om rf]. unfold merge_property. cbn [n_proplist]. intros Hn.
  fold (named p_name (p_name p)). destruct (p_deleted p);
    [cbn [delete_property_by_name n_set_proplist n_proplist]; by rewrite keys_alter|].
  destruct (find_first (named p_name (p_name p)) pl) as [[i x]|] eqn:E; cbn [n_set_proplist add_property n_proplist].
  - by rewrite keys_alter.
  - rewrite map_app. apply NoDup_app. split; [exact Hn|]. split; [|apply NoDup_singleton].
    intros k Hk ->%list_elem_of_singleton. apply find_first_is_by_name, by_name_None in E. done.
Qed.

(** What the merge of properties leaves alone. *)
Definition same_rest (n n' : node) : Prop :=
  n_children n' = n_children n /\ n_name_ n' = n_name_ n /\ n_deleted n' = n_deleted n.

Lemma merge_property_rest n p : same_rest n (merge_property n p).
Proof.
  destruct n as [dl nm pl ch fp bl ph ac sc lb om rf]. unfold merge_property. cbn [n_proplist]. destruct (p_deleted p); [done|].
  by destruct (find_first _ pl).
Qed.

Lemma merge_properties_at ps : forall n,
  same_rest n (fold_left merge_property ps n) /\
  (NoDup (map p_name (n_proplist n)) -> NoDup (map p_name (n_proplist (fold_left merge_property ps n)))) /\
  forall name, NoDup (map p_name ps) ->
    pv (n_proplist (fold_left merge_property ps n)) name =
    match by_name p_name name ps with Some p => said p | None => pv (n_proplist n) name end.
Proof.
  induction ps as [|p ps IH]; intros n; [done|]. cbn [fold_left].
  destruct (IH (merge_property n p)) as ((R1 & R2 & R3) & K & V). destruct (merge_property_rest n p) as (S1 & S2 & S3).
  split; [unfold same_rest; by rewrite R1, R2, R3|]. split; [intros Hn; by apply K, merge_property_keys|].
  intros name [Hp Hn]%NoDup_cons. rewrite (V name Hn), merge_property_pv, by_name_cons. unfold named, streq.
  destruct (decide (name = p_name p)) as [->|Hne].
  - rewrite bool_decide_eq_true_2 by done. by rewrite (proj2 (by_name_None p_name _ _) Hp).
  - by rewrite (bool_decide_eq_false_2 (p_name p = name)).
Qed.

(** ** The subnodes of a merged node *)

(** One round of the loop over the new node's children. *)
Definition merge_child (old_node new_child : node) : node :=
  if n_deleted new_child then delete_node_by_name old_node (n_name new_child) else
  match find_first (named n_name (n_name new_child)) (n_children old_node) with
  | Some _ => n_set_children (alter_first (named n_name (n_name new_child))
      (fun old_child => merge_nodes old_child new_child) (n_children old_node)) old_node
  | None => add_child old_node new_child
  end.

Definition merge_head (old_node new_node : node) : node :=
  fold_left merge_property (n_proplist new_node)
    (n_set_labels (fold_left (fun ls l => add_label ls (l_label l)) (n_labels new_node)
      (n_labels (n_set_deleted false old_node))) (n_set_deleted false old_node)).

Lemma merge_nodes_eq old new :
  merge_nodes old new = fold_left merge_child (n_children new) (merge_head old new).
Proof.
  destruct new as [dl nm pl ch fp bl ph ac sc lb om rf]. cbn [merge_nodes n_children n_labels n_proplist].
  unfold merge_head. cbn [n_labels n_proplist]. generalize (fold_left merge_property pl
    (n_set_labels (fold_left (fun ls l => add_label ls (l_label l)) lb (n_labels (n_set_deleted false old))) (n_set_deleted false old))).
  induction ch as [|c ch IH]; intros n; [done|]. cbn [fold_left]. rewrite <- IH. done.
Qed.

(** The head of a merge: the children are the old ones, the node is alive. *)
Lemma merge_head_at old new :
  n_children (merge_head old new) = n_children old /\ n_name_ (merge_head old new) = n_name_ old /\
  n_deleted (merge_head old new) = false /\
  (NoDup (map p_name (n_proplist old)) -> NoDup (map p_name (n_proplist (merge_head old new)))) /\
  forall name, NoDup (map p_name (n_proplist new)) ->
    pv (n_proplist (merge_head old new)) name =
    match by_name p_name name (n_proplist new) with Some p => said p | None => pv (n_proplist old) name end.
Proof.
  unfold merge_head. destruct old as [dl nm pl ch fp bl ph ac sc lb om rf].
  match goal with |- context [fold_left merge_property _ ?n] => destruct (merge_properties_at (n_proplist new) n) as ((R1 & R2 & R3) & K & V) end.
  cbn [n_set_labels n_set_deleted n_proplist n_children n_name_ n_deleted n_labels] in *. done.
Qed.

Lemma merge_child_rest n c :
  n_proplist (merge_child n c) = n_proplist n /\ n_name_ (merge_child n c) = n_name_ n /\
  n_deleted (merge_child n c) = n_deleted n.
Proof. destruct n as [dl nm pl ch fp bl ph ac sc lb om rf]. unfold merge_child. destruct (n_deleted c); [done|]. by destruct (find_first _ _). Qed.

Lemma merge_child_rests cs : forall n,
  n_proplist (fold_left merge_child cs n) = n_proplist n /\ n_name_ (fold_left merge_child cs n) = n_name_ n /\
  n_deleted (fold_left merge_child cs n) = n_deleted n.
Proof.
  induction cs as [|c cs IH]; intros n; [done|]. cbn [fold_left]. destruct (IH (merge_child n c)) as (-> & -> & ->).
  apply merge_child_rest.
Qed.

Lemma merge_nodes_name old new : n_name_ (merge_nodes old new) = n_name_ old.
Proof. rewrite merge_nodes_eq. destruct (merge_child_rests (n_children new) (merge_head old new)) as (_ & -> & _). apply merge_head_at. Qed.

Lemma merge_nodes_key new old : n_name (merge_nodes old new) = n_name old.
Proof. unfold n_name. by rewrite merge_nodes_name. Qed.

Lemma merge_nodes_live old new : n_deleted (merge_nodes old new) = false.
Proof. rewrite merge_nodes_eq. destruct (merge_child_rests (n_children new) (merge_head old new)) as (_ & _ & ->). apply merge_head_at. Qed.

(** The subnode of a name once [c] is merged, from the one before. *)
Definition merged_kid (c : node) (old : option node) : option node :=
  if n_deleted c then delete_node <$> old
  else Some (match old with Some o => merge_nodes o c | None => c end).

Lemma merge_child_at n c name :
  by_name n_name name (n_children (merge_child n c)) =
  if decide (name = n_name c) then merged_kid c (by_name n_name name (n_children n)) else by_name n_name name (n_children n).
Proof.
  destruct n as [dl nm pl ch fp bl ph ac sc lb om rf]. unfold merge_child, merged_kid. cbn [n_children].
  destruct (n_deleted c) eqn:Ed.
  - cbn [delete_node_by_name n_set_children n_children]. fold (named n_name (n_name c)).
    apply by_name_alter, delete_node_name.
  - destruct (find_first (named n_name (n_name c)) ch) as [[i x]|] eqn:E; cbn [n_set_children add_child n_children].
    + rewrite by_name_alter by (intros; apply merge_nodes_key). destruct (decide (name = n_name c)) as [->|]; [|done].
      unfold by_name. by rewrite E.
    + apply find_first_is_by_name in E. rewrite by_name_app, by_name_cons. unfold named, streq.
      destruct (decide (name = n_name c)) as [->|Hne].
      * by rewrite E, bool_decide_eq_true_2.
      * rewrite (bool_decide_eq_false_2 (n_name c = name)) by done. by destruct (by_name n_name name ch).
Qed.

Lemma merge_children_at cs : forall n name,
  NoDup (map n_name cs) ->
  by_name n_name name (n_children (fold_left merge_child cs n)) =
  match by_name n_name name cs with
  | Some c => merged_kid c (by_name n_name name (n_children n))
  | None => by_name n_name name (n_children n)
  end.
Proof.
  induction cs as [|c cs IH]; intros n name; [done|]. intros [Hc Hn]%NoDup_cons. cbn [fold_left].
  rewrite (IH _ name Hn), merge_child_at, by_name_cons. unfold named, streq. destruct (decide (name = n_name c)) as [->|Hne].
  - rewrite bool_decide_eq_true_2 by done. by rewrite (proj2 (by_name_None n_name _ _) Hc).
  - by rewrite (bool_decide_eq_false_2 (n_name c = name)).
Qed.

(** ** Well-formedness *)

Lemma merge_child_wf n c :
  (forall old, node_wf old -> node_wf (merge_nodes old c)) -> node_wf c ->
  NoDup (map n_name (n_children n)) -> Forall node_wf (n_children n) ->
  NoDup (map n_name (n_children (merge_child n c))) /\ Forall node_wf (n_children (merge_child n c)).
Proof.
  intros Hm Hc Hn Hk. destruct n as [dl nm pl ch fp bl ph ac sc lb om rf]. unfold merge_child. cbn [n_children] in *.
  destruct (n_deleted c).
  - cbn [delete_node_by_name n_set_children n_children]. fold (named n_name (n_name c)).
    rewrite keys_alter by apply delete_node_name. split; [exact Hn|]. apply alter_first_Forall; [exact Hk|apply delete_node_wf].
  - destruct (find_first (named n_name (n_name c)) ch) as [[i x]|] eqn:E; cbn [n_set_children add_child n_children].
    + rewrite keys_alter by (intros; apply merge_nodes_key). split; [exact Hn|]. by apply alter_first_Forall.
    + split; [|apply Forall_app; split; [exact Hk|by constructor]]. rewrite map_app. apply NoDup_app.
      split; [exact Hn|]. split; [|apply NoDup_singleton]. intros k Hin ->%list_elem_of_singleton.
      apply find_first_is_by_name, by_name_None in E. done.
Qed.

Lemma merge_nodes_wf new : forall old, node_wf old -> node_wf new -> node_wf (merge_nodes old new).
Proof.
  induction new as [new IH] using node_ind'. intros old Ho (Hp & Hc & _ & Hk)%node_wf_inv.
  apply node_wf_inv in Ho as (Hop & Hoc & _ & Hok). pose proof (merge_nodes_live old new) as Hl. rewrite merge_nodes_eq in *.
  destruct (merge_head_at old new) as (E1 & _ & _ & K & _). destruct (merge_child_rests (n_children new) (merge_head old new)) as (E2 & _ & _).
  assert (forall n, NoDup (map n_name (n_children n)) -> Forall node_wf (n_children n) ->
    NoDup (map n_name (n_children (fold_left merge_child (n_children new) n))) /\
    Forall node_wf (n_children (fold_left merge_child (n_children new) n))) as H.
  { clear -IH Hk. induction (n_children new) as [|c cs IHl]; intros n Hn Hf; [done|]. cbn [fold_left].
    apply Forall_cons in IH as [IHc IH]. apply Forall_cons in Hk as [Hc Hk].
    destruct (merge_child_wf n c) as [H1 H2]; [intros; by apply IHc|done..|]. by apply IHl. }
  destruct (H (merge_head old new)) as [H1 H2]; [by rewrite E1..|]. constructor; [|done| |done].
  - rewrite E2. by apply K.
  - by rewrite Hl.
Qed.

(** ** Paths *)

Lemma merge_value_at path : forall old new name, node_wf old -> node_wf new ->
  value_at (merge_nodes old new) path name = changed (change_at new path name) (value_at old path name).
Proof.
  induction path as [|k path IH]; intros old new name Ho Hn; pose proof (merge_nodes_wf new old Ho Hn) as Hm;
    apply node_wf_inv in Hm as (M1 & M2 & _ & _); pose proof Ho as (O1 & O2 & _ & O4)%node_wf_inv;
    pose proof Hn as (N1 & N2 & _ & N4)%node_wf_inv; cbn [value_at change_at].
  - rewrite !get_property_by_name by done. rewrite merge_nodes_eq.
    destruct (merge_child_rests (n_children new) (merge_head old new)) as (-> & _ & _).
    destruct (merge_head_at old new) as (_ & _ & _ & _ & V). specialize (V name N1). unfold pv in V.
    assert (forall l, p_val <$> (p ← by_name p_name name l; if p_deleted p then None else Some p) = pv l name) as E.
    { intros l. unfold pv. destruct (by_name p_name name l) as [p|]; [|done]. cbn. by destruct (p_deleted p). }
    rewrite !E. unfold pv. rewrite V. destruct (by_name p_name name (n_proplist new)) as [p|]; [|done].
    unfold said. by destruct (p_deleted p).
  - rewrite !subnode_by_name by done. rewrite merge_nodes_eq, merge_children_at by done.
    destruct (merge_head_at old new) as (-> & _). destruct (by_name n_name k (n_children new)) as [c|] eqn:Ec; [|done].
    apply by_name_Some in Ec as [Ec _]. rewrite Forall_forall in N4. specialize (N4 c Ec). unfold merged_kid.
    destruct (n_deleted c) eqn:Ed.
    { destruct (by_name n_name k (n_children old)); [|done]. cbn. by rewrite delete_node_deleted. }
    destruct (by_name n_name k (n_children old)) as [o|] eqn:Eo; cbn [mbind option_bind].
    + apply by_name_Some in Eo as [Eo _]. rewrite Forall_forall in O4. specialize (O4 o Eo).
      rewrite merge_nodes_live. cbn. rewrite IH by done. destruct (n_deleted o) eqn:Eod; [|done].
      by rewrite (value_deleted o) by done.
    + rewrite Ed. cbn. by apply value_change.
Qed.
