(* ===== verification/DtcGen.v ===== *)
(** dtc/livetree.c, continued: sorting, and the nodes dtc generates for an
    overlay (aliases, __symbols__, __fixups__, __local_fixups__); and the full
    paths of dtc.c. A walk follows the tree as it was when it started: what a
    generator adds on the way has no labels and no phandle references. *)
From stdpp Require Import sorting.
From S2P Require Import Prelude Monad Ctype DtcUtil DtcData DtcTree.
Open Scope Z_scope.

(** ** Sorting

    [qsort] with a comparison leaves the order of equal elements open; the
    merge sort keeps it. *)
Definition reserve_le (a b : reserve_info) : bool :=
  if rs_address a <? rs_address b then true
  else if rs_address b <? rs_address a then false
  else rs_size a <=? rs_size b.

Definition prop_le (a b : property) : bool := strcmp_le (p_name a) (p_name b).

Definition subnode_le (a b : node) : bool := strcmp_le (n_name a) (n_name b).

Definition qsort {A} (le : A -> A -> bool) (l : list A) : list A := merge_sort (fun a b => Is_true (le a b)) l.

Definition sort_reserve_entries (dti : dt_info) : dt_info :=
  DtInfo (dtsflags dti) (qsort reserve_le (reservelist dti)) (boot_cpuid_phys dti) (dt dti).

Definition sort_properties (n : node) : node := n_set_proplist (qsort prop_le (n_proplist n)) n.

Definition sort_subnodes (n : node) : node := n_set_children (qsort subnode_le (n_children n)) n.

(** The subnodes are sorted among each other after they are sorted themselves:
    their names stay. *)
Fixpoint sort_node (n : node) : node :=
  sort_subnodes (sort_properties (n_set_children (map sort_node (n_children n)) n)).

Definition sort_tree (dti : dt_info) : dt_info :=
  let dti := sort_reserve_entries dti in
  DtInfo (dtsflags dti) (reservelist dti) (boot_cpuid_phys dti) (sort_node (dt dti)).

(** ** Full paths (dtc.c) *)

Fixpoint fill_fullpaths (tree : node) (prefix : list byte) : node :=
  let fullpath := join_path prefix (n_name tree) in
  let basenamelen :=
    match split_char "@" (n_name tree) with
    | Some (base, _) => zlen base
    | None => zlen (n_name tree)
    end in
  n_set_children (map (fun c => if n_deleted c then c else fill_fullpaths c fullpath) (n_children tree))
    (n_set_path fullpath basenamelen tree).

(** ** Generated nodes *)

(** The new node is the last child of the parent. *)
Definition build_and_name_child_node (parent : node) (name : list byte) : res node :=
  let! n := name_node (build_node [] []) name in
  Ret (add_child parent n).

(** Returns the tree and the index of the root's child. *)
Definition build_root_node (dt : node) (name : list byte) : res (node * nat) :=
  match get_subnode dt name with
  | Some (i, _) => Ret (dt, i)
  | None =>
    let! dt' := build_and_name_child_node dt name in
    Ret (dt', length (n_children dt))
  end.

(** Some live node has ever had a label. *)
Fixpoint any_label_tree (n : node) : bool :=
  negb (bool_decide (n_labels n = [])) ||
  existsb (fun c => negb (n_deleted c) && any_label_tree c) (n_children n).

Instance label_list_nil_dec (l : list label) : Decision (l = []).
Proof. destruct l; [by left|by right]. Defined.

(** The loop [for_each_child(node, c) walk(c)] of the generators, threading
    the tree; positions grow at their end. *)
Fixpoint walk_children {T} (walk : node -> list nat -> T -> res T) (pos : list nat) (i : nat)
    (cs : list node) (st : T) : res T :=
  match cs with
  | [] => Ret st
  | c :: cs =>
    if n_deleted c then walk_children walk pos (S i) cs st else
    let! st := walk c (pos ++ [i]) st in
    walk_children walk pos (S i) cs st
  end.

(** The loop over the live elements of a list that threads a state. *)
Fixpoint foreach {A T} (f : A -> T -> res T) (l : list A) (st : T) : res T :=
  match l with
  | [] => Ret st
  | x :: l => let! st := f x st in foreach f l st
  end.

(** The property of [an] for one label of the node with [fullpath]. *)
Definition label_entry (an : list nat) (fullpath : list byte) (l : label) (st : node * Z) : res (node * Z) :=
  let '(dt, phandle) := st in
  if l_deleted l then Ret st else
  let! ann := nonnull (node_at dt an) in
  match get_property ann (l_label l) with
  | Some _ => Ret st      (* the label already exists: a warning *)
  | None =>
    let! d := data_copy_escape_string (fullpath ++ [x00]) (zlen fullpath) in
    Ret (update_at dt an (fun ann => add_property ann (build_property (l_label l) d)), phandle)
  end.

Fixpoint generate_label_tree_internal (o : dtc_opts) (an : list nat) (allocph : bool) (n : node)
    (pos : list nat) (st : node * Z) {struct n} : res (node * Z) :=
  let! st :=
    if bool_decide (n_labels n = []) then Ret st else
    let! '(dt, phandle) := foreach (label_entry an (n_fullpath n)) (n_labels n) st in
    (* force allocation of a phandle for this node *)
    if allocph then
      let! '(_, dt, phandle) := get_node_phandle o dt pos phandle in Ret (dt, phandle)
    else Ret (dt, phandle) in
  walk_children (generate_label_tree_internal o an allocph) pos O (n_children n) st.

Definition generate_label_tree (o : dtc_opts) (tree : node) (name : list byte) (allocph : bool) (phandle : Z)
    : res (node * Z) :=
  if negb (any_label_tree tree) then Ret (tree, phandle) else
  let! '(tree, i) := build_root_node tree name in
  generate_label_tree_internal o [i] allocph tree [] (tree, phandle).

(** The live properties of a node with their phandle references. *)
Definition phandle_refs (n : node) : list (property * marker) :=
  flat_map (fun p => if p_deleted p then [] else
    map (pair p) (filter (fun m => m_type m = REF_PHANDLE) (d_markers (p_val p)))) (n_proplist n).

(** Some reference of the live tree satisfies [f] on what it refers to. *)
Definition ref_found (dt : node) (m : marker) : res (option (list nat)) :=
  let! ref := nonnull (m_ref m) in get_node_by_ref dt ref.

Fixpoint any_ref (f : option (list nat) -> bool) (dt : node) (l : list (property * marker)) : res bool :=
  match l with
  | [] => Ret false
  | (_, m) :: l => let! r := ref_found dt m in if f r then Ret true else any_ref f dt l
  end.

Fixpoint any_child (g : node -> res bool) (cs : list node) : res bool :=
  match cs with
  | [] => Ret false
  | c :: cs => if n_deleted c then any_child g cs else
    let! b := g c in if b : bool then Ret true else any_child g cs
  end.

Fixpoint any_fixup_tree (dt n : node) {struct n} : res bool :=
  let! b := any_ref is_null dt (phandle_refs n) in
  if b : bool then Ret true else any_child (any_fixup_tree dt) (n_children n).

Fixpoint any_local_fixup_tree (dt n : node) {struct n} : res bool :=
  let! b := any_ref (fun r => negb (is_null r)) dt (phandle_refs n) in
  if b : bool then Ret true else any_child (any_local_fixup_tree dt) (n_children n).

(** [fn] is the position of the fixups node. *)
Definition add_fixup_entry (dt : node) (fn : list nat) (n : node) (prop : property) (m : marker) : res node :=
  let! _ := c_assert (bool_decide (m_type m = REF_PHANDLE)) in
  (* there shouldn't be any ':' in the arguments *)
  if negb (is_null (split_char ":" (n_fullpath n))) || negb (is_null (split_char ":" (p_name prop)))
  then Fault Die else
  let! ref := nonnull (m_ref m) in
  let entry := n_fullpath n ++ ":"%byte :: p_name prop ++ ":"%byte :: fmt_u (m_offset m) in
  let! fnn := nonnull (node_at dt fn) in
  let! fnn := append_to_property fnn ref (entry ++ [x00]) TYPE_STRING in
  Ret (update_at dt fn (fun _ => fnn)).

Fixpoint generate_fixups_tree_internal (fn : list nat) (n : node) (pos : list nat) (dt : node) {struct n}
    : res node :=
  let! dt := foreach (fun '(prop, m) dt =>
    let! refnode := ref_found dt m in
    if is_null refnode then add_fixup_entry dt fn n prop m else Ret dt) (phandle_refs n) dt in
  walk_children (generate_fixups_tree_internal fn) pos O (n_children n) dt.

Definition generate_fixups_tree (tree : node) (name : list byte) : res node :=
  let! b := any_fixup_tree tree tree in
  if negb b then Ret tree else
  let! '(tree, i) := build_root_node tree name in
  generate_fixups_tree_internal [i] tree [] tree.

(** The names of the nodes on the way to a position, the root's left out. *)
Fixpoint path_names (t : node) (pos : list nat) : option (list (list byte)) :=
  match pos with
  | [] => Some []
  | i :: pos => c ← n_children t !! i; cons (n_name c) <$> path_names c pos
  end.

(** Walk the path components from the node at [wn], creating nodes if they
    don't exist; returns the tree and the position of the last. *)
Fixpoint make_path (dt : node) (wn : list nat) (compp : list (list byte)) : res (node * list nat) :=
  match compp with
  | [] => Ret (dt, wn)
  | name :: compp =>
    let! w := nonnull (node_at dt wn) in
    match get_subnode w name with
    | Some (i, _) => make_path dt (wn ++ [i]) compp
    | None =>
      let! w' := build_and_name_child_node w name in
      make_path (update_at dt wn (fun _ => w')) (wn ++ [length (n_children w)]) compp
    end
  end.

Definition add_local_fixup_entry (dt : node) (lfn pos : list nat) (prop : property) (m : marker) : res node :=
  let! compp := nonnull (path_names dt pos) in
  let! '(dt, wn) := make_path dt lfn compp in
  let! w := nonnull (node_at dt wn) in
  let! w := append_to_property w (p_name prop) (be_enc32 (m_offset m)) TYPE_UINT32 in
  Ret (update_at dt wn (fun _ => w)).

Fixpoint generate_local_fixups_tree_internal (lfn : list nat) (n : node) (pos : list nat) (dt : node) {struct n}
    : res node :=
  let! dt := foreach (fun '(prop, m) dt =>
    let! refnode := ref_found dt m in
    if negb (is_null refnode) then add_local_fixup_entry dt lfn pos prop m else Ret dt) (phandle_refs n) dt in
  walk_children (generate_local_fixups_tree_internal lfn) pos O (n_children n) dt.

Definition generate_local_fixups_tree (tree : node) (name : list byte) : res node :=
  let! b := any_local_fixup_tree tree tree in
  if negb b then Ret tree else
  let! '(tree, i) := build_root_node tree name in
  generate_local_fixups_tree_internal [i] tree [] tree.
