(* ===== verification/DtcSort.v ===== *)
(** Sorting a tree: every level is sorted, and no path reads differently. *)
From stdpp Require Import sorting.
From stdpp Require Import list_numbers.
From S2P Require Import Prelude Monad Ctype DtcUtil DtcData DtcTree DtcTreeSpec DtcGen Libfdt FdtSpec.
From S2P Require Import DtcDataSpec.
Open Scope Z_scope.

(** ** The orders *)

#[export] Instance strcmp_total : Total (fun a b => Is_true (strcmp_le a b)).
Proof.
  intros a. induction a as [|x a IH]; intros [|y b]; cbn [strcmp_le]; [by left|by left|by right|].
  destruct (Z.ltb_spec (b2z x) (b2z y)); [by left|]. destruct (Z.ltb_spec (b2z y) (b2z x)); [by right|].
  assert (b2z x = b2z y) as -> by lia. rewrite Z.eqb_refl. cbn. apply IH.
Qed.

#[export] Instance strcmp_trans : Transitive (fun a b => Is_true (strcmp_le a b)).
Proof.
  intros a. induction a as [|x a IH]; intros [|y b] [|z c] H1 H2; cbn [strcmp_le] in *; try done.
  apply orb_True in H1. apply orb_True in H2. rewrite andb_True in H1. rewrite andb_True in H2. apply orb_True.
  rewrite andb_True. rewrite !Is_true_true, !Z.ltb_lt, !Z.eqb_eq in *.
  destruct H1 as [H1|[H1 G1]], H2 as [H2|[H2 G2]]; [left; lia..|]. right. split; [lia|]. rewrite <- Is_true_true in *. by eapply IH.
Qed.

#[export] Instance prop_le_total : Total (fun a b => Is_true (prop_le a b)).
Proof. intros a b. apply strcmp_total. Qed.
#[export] Instance prop_le_trans : Transitive (fun a b => Is_true (prop_le a b)).
Proof. intros a b c. apply strcmp_trans. Qed.
#[export] Instance subnode_le_total : Total (fun a b => Is_true (subnode_le a b)).
Proof. intros a b. apply strcmp_total. Qed.
#[export] Instance subnode_le_trans : Transitive (fun a b => Is_true (subnode_le a b)).
Proof. intros a b c. apply strcmp_trans. Qed.

#[export] Instance reserve_le_total : Total (fun a b => Is_true (reserve_le a b)).
Proof.
  intros a b. unfold reserve_le. destruct (Z.ltb_spec (rs_address a) (rs_address b)), (Z.ltb_spec (rs_address b) (rs_address a));
    try (by left); try (by right). rewrite !Is_true_true, !Z.leb_le. lia.
Qed.
#[export] Instance reserve_le_trans : Transitive (fun a b => Is_true (reserve_le a b)).
Proof.
  intros a b c. unfold reserve_le.
  destruct (Z.ltb_spec (rs_address a) (rs_address b)), (Z.ltb_spec (rs_address b) (rs_address a)),
    (Z.ltb_spec (rs_address b) (rs_address c)), (Z.ltb_spec (rs_address c) (rs_address b)),
    (Z.ltb_spec (rs_address a) (rs_address c)), (Z.ltb_spec (rs_address c) (rs_address a));
    cbn; rewrite ?Is_true_true, ?Z.leb_le; try done; lia.
Qed.

Lemma qsort_perm {A} (le : A -> A -> bool) l : qsort le l ≡ₚ l.
Proof. apply merge_sort_Permutation. Qed.

Lemma qsort_sorted {A} (le : A -> A -> bool) l :
  Total (fun a b => Is_true (le a b)) -> Transitive (fun a b => Is_true (le a b)) ->
  StronglySorted (fun a b => Is_true (le a b)) (qsort le l).
Proof. intros Ht Htr. by apply StronglySorted_merge_sort. Qed.

(** ** Names do not care about the order *)

Lemma by_name_perm {A} (key : A -> list byte) k l l' :
  l ≡ₚ l' -> NoDup (map key l) -> by_name key k l = by_name key k l'.
Proof.
  intros Hp Hn. assert (NoDup (map key l')) as Hn' by (by rewrite <- Hp).
  destruct (by_name key k l) as [x|] eqn:E.
  - apply by_name_Some in E as [Hx <-]. symmetry. apply by_name_unique; [exact Hn'|]. by rewrite <- Hp.
  - symmetry. apply by_name_None. apply by_name_None in E. by rewrite <- Hp.
Qed.

Lemma by_name_map {A} (key : A -> list byte) k f l :
  (forall x, key (f x) = key x) -> by_name key k (map f l) = f <$> by_name key k l.
Proof.
  intros Hf. induction l as [|x l IH]; [done|]. cbn [map]. rewrite !by_name_cons, IH. unfold named. rewrite Hf. by destruct (streq _ _).
Qed.

(** ** Sorted trees *)

Inductive node_sorted : node -> Prop :=
| NodeSorted n :
    StronglySorted (fun a b => Is_true (prop_le a b)) (n_proplist n) ->
    StronglySorted (fun a b => Is_true (subnode_le a b)) (n_children n) ->
    Forall node_sorted (n_children n) -> node_sorted n.

Lemma sort_node_eq n :
  n_deleted (sort_node n) = n_deleted n /\ n_name (sort_node n) = n_name n /\
  n_proplist (sort_node n) = qsort prop_le (n_proplist n) /\
  n_children (sort_node n) = qsort subnode_le (map sort_node (n_children n)).
Proof. by destruct n. Qed.

Lemma sort_node_sorted n : node_sorted (sort_node n).
Proof.
  induction n as [n IH] using node_ind'. destruct (sort_node_eq n) as (_ & _ & E1 & E2). constructor; rewrite ?E1, ?E2.
  - apply qsort_sorted; apply _.
  - apply qsort_sorted; apply _.
  - rewrite (qsort_perm subnode_le). by apply Forall_map.
Qed.

Lemma sort_keys n :
  map p_name (n_proplist (sort_node n)) ≡ₚ map p_name (n_proplist n) /\
  map n_name (n_children (sort_node n)) ≡ₚ map n_name (n_children n).
Proof.
  destruct (sort_node_eq n) as (_ & _ & -> & ->). rewrite (qsort_perm prop_le), (qsort_perm subnode_le). split; [done|].
  rewrite map_map. erewrite map_ext; [reflexivity|]. intros c. apply sort_node_eq.
Qed.

Lemma sort_node_wf n : node_wf n -> node_wf (sort_node n).
Proof.
  induction n as [n IH] using node_ind'. intros (Hp & Hc & Hd & Hk)%node_wf_inv.
  destruct (sort_keys n) as [K1 K2]. constructor; [by rewrite K1|by rewrite K2| |].
  - destruct (sort_node_eq n) as (-> & _ & -> & ->). intros [H1 H2]%Hd. rewrite (qsort_perm prop_le), (qsort_perm subnode_le).
    split; [done|]. apply Forall_map. eapply Forall_impl; [exact H2|]. intros c Hcd. by destruct (sort_node_eq c) as (-> & _).
  - destruct (sort_node_eq n) as (_ & _ & _ & ->). rewrite (qsort_perm subnode_le). apply Forall_map.
    rewrite !Forall_forall in *. auto.
Qed.

Lemma sort_value_at path : forall n name, node_wf n -> value_at (sort_node n) path name = value_at n path name.
Proof.
  induction path as [|k path IH]; intros n name Hw; pose proof (sort_node_wf n Hw) as (S1 & S2 & _ & _)%node_wf_inv;
    apply node_wf_inv in Hw as (Hp & Hc & _ & Hk); destruct (sort_node_eq n) as (_ & _ & E1 & E2); cbn [value_at].
  - rewrite !get_property_by_name by done. rewrite E1 in *. by rewrite (by_name_perm p_name name _ (n_proplist n) (qsort_perm _ _)).
  - rewrite !subnode_by_name by done. rewrite E2 in *.
    rewrite (by_name_perm n_name k _ _ (qsort_perm _ _)) by done. rewrite by_name_map by (intros; apply sort_node_eq).
    destruct (by_name n_name k (n_children n)) as [c|] eqn:E; [|done]. cbn [fmap option_fmap option_map mbind option_bind].
    destruct (sort_node_eq c) as (-> & _). destruct (n_deleted c); [done|]. apply IH.
    rewrite Forall_forall in Hk. apply Hk. by apply by_name_Some in E as [? _].
Qed.

(** ** Full paths: the path dtc.c computes for a live node leads back to it. *)

(** Names a path can hold: not empty, without a slash. *)
Definition name_ok (s : list byte) : Prop := s <> [] /\ ("/"%byte ∉ s).

Inductive paths_ok : node -> Prop :=
| PathsOk n : Forall (fun c => name_ok (n_name c)) (n_children n) ->
    Forall paths_ok (n_children n) -> paths_ok n.

Fixpoint paths_okb (n : node) : bool :=
  forallb (fun c => negb (bool_decide (n_name c = [])) && bool_decide ("/"%byte ∉ n_name c)) (n_children n) &&
  forallb paths_okb (n_children n).

Lemma paths_okb_sound n : paths_okb n = true -> paths_ok n.
Proof.
  induction n as [n IH] using node_ind'. destruct n as [dl nm pl ch fp bl ph ac sc lb om rf]. cbn [paths_okb n_children] in *.
  rewrite andb_true_iff, !forallb_forall. intros [H1 H2]. rewrite Forall_forall in IH. constructor; apply Forall_forall; cbn [n_children]; intros x Hx.
  - specialize (H1 x (proj1 (list_elem_of_In _ _) Hx)). apply andb_prop in H1 as [H1 H3].
    apply negb_true_iff, bool_decide_eq_false in H1. by apply bool_decide_eq_true in H3.
  - apply IH; [done|]. by apply H2, list_elem_of_In.
Qed.

(** The names on the way to a position whose nodes are live. *)
Fixpoint live_names (t : node) (pos : list nat) : option (list (list byte)) :=
  match pos with
  | [] => Some []
  | i :: pos => c ← n_children t !! i; if n_deleted c then None else cons (n_name c) <$> live_names c pos
  end.

Definition slashed (ns : list (list byte)) : list byte := flat_map (fun n => "/"%byte :: n) ns.

Lemma live_names_cons t i pos ns :
  live_names t (i :: pos) = Some ns ->
  exists c ns', n_children t !! i = Some c /\ n_deleted c = false /\ live_names c pos = Some ns' /\ ns = n_name c :: ns'.
Proof.
  cbn [live_names]. destruct (n_children t !! i) as [c|]; [|done]. cbn [mbind option_bind].
  destruct (n_deleted c) eqn:Ed; [done|]. destruct (live_names c pos) as [ns'|] eqn:E; [|done]. intros [= <-]. eauto 10.
Qed.

Lemma live_names_ok t pos ns : paths_ok t -> live_names t pos = Some ns -> Forall name_ok ns.
Proof.
  revert t ns. induction pos as [|i pos IH]; intros t ns Ht; [intros [= <-]; constructor|].
  intros (c & ns' & Hc & _ & Hl & ->)%live_names_cons. destruct Ht as [n H1 H2].
  pose proof (Forall_lookup_1 _ _ _ _ H1 Hc). pose proof (Forall_lookup_1 _ _ _ _ H2 Hc). constructor; [done|]. by eapply IH.
Qed.

(** ** Splitting a path *)

Lemma skip_slashes_name n r : name_ok n -> skip_slashes (n ++ r) = n ++ r.
Proof.
  intros [H1 H2]. destruct n as [|c n]; [done|]. apply not_elem_of_cons in H2 as [H2 _].
  cbn [app]. destruct c; try done.
Qed.

Lemma split_char_none c s : c ∉ s -> split_char c s = None.
Proof.
  induction s as [|x s IH]; [done|]. intros [H1 H2]%not_elem_of_cons. cbn [split_char].
  rewrite bool_decide_eq_false_2 by done. by rewrite IH.
Qed.

Lemma split_char_app c s r : c ∉ s -> split_char c (s ++ c :: r) = Some (s, r).
Proof.
  induction s as [|x s IH]; cbn [app split_char]; [by rewrite bool_decide_eq_true_2|].
  intros [H1 H2]%not_elem_of_cons. rewrite bool_decide_eq_false_2 by done. by rewrite IH.
Qed.

(** ** Following a path *)

(** The loop over the children, by index. *)
Fixpoint path_children (path : list byte) (i : nat) (cs : list node) : option (list nat) :=
  match cs with
  | [] => None
  | child :: cs =>
    if n_deleted child then path_children path (S i) cs else
    match split_char "/" path with
    | Some (comp, rest) =>
      if streq comp (n_name child) then cons i <$> get_node_by_path child rest else path_children path (S i) cs
    | None => if streq path (n_name child) then Some [i] else path_children path (S i) cs
    end
  end.

Lemma get_node_by_path_eq t p : p <> [] -> get_node_by_path t p = path_children (skip_slashes p) 0 (n_children t).
Proof.
  intros Hp. destruct t as [dl nm pl ch fp bl ph ac sc lb om rf]. destruct p as [|x p]; [done|]. cbn [get_node_by_path n_children].
  generalize O. induction ch as [|c ch IH]; intros i; [done|]. cbn [path_children]. rewrite <- IH. done.
Qed.

(** The node that is found is there. *)
Lemma get_node_by_path_at t : forall p pos, get_node_by_path t p = Some pos -> exists n, node_at t pos = Some n.
Proof.
  induction t as [t IH] using node_ind'. intros p pos H. destruct (decide (p = [])) as [->|Hp].
  { destruct t; cbn in H. destruct n_deleted; [done|]. injection H as <-. by eexists. }
  rewrite get_node_by_path_eq in H by done. revert H. generalize (skip_slashes p) as path. intros path H.
  assert (forall k pos, path_children path k (n_children t) = Some pos ->
    exists i tl c n, pos = (k + i)%nat :: tl /\ n_children t !! i = Some c /\ node_at c tl = Some n) as Hg.
  { clear -IH. induction (n_children t) as [|c cs IHc]; intros k pos H; [done|]. apply Forall_cons in IH as [Hc IH].
    assert (forall k pos, path_children path k cs = Some pos -> exists i tl c' n,
      pos = (k + i)%nat :: tl /\ cs !! i = Some c' /\ node_at c' tl = Some n) as Hcs by (by apply IHc).
    assert (path_children path (S k) cs = Some pos -> exists i tl c' n,
      pos = (k + i)%nat :: tl /\ (c :: cs) !! i = Some c' /\ node_at c' tl = Some n) as Hnext.
    { intros (i & tl & c' & n & -> & Hi & Hn)%Hcs. exists (S i), tl, c', n. by rewrite Nat.add_succ_r. }
    cbn [path_children] in H. destruct (n_deleted c); [by apply Hnext|].
    destruct (split_char "/" path) as [[comp r]|]; (destruct (streq _ _); [|by apply Hnext]).
    - apply fmap_Some in H as (tl & Htl & ->). apply Hc in Htl as [n Hn]. exists 0%nat, tl, c, n. by rewrite Nat.add_0_r.
    - injection H as <-. exists 0%nat, [], c, c. by rewrite Nat.add_0_r. }
  apply Hg in H as (i & tl & c & n & -> & Hc & Hn). exists n. cbn [Nat.add node_at]. by rewrite Hc.
Qed.

(** So the boot CPU can be guessed of any tree. *)
Lemma guess_boot_cpuid_ret t : exists c, guess_boot_cpuid t = Ret c.
Proof.
  unfold guess_boot_cpuid. destruct (get_node_by_path t (str "/cpus")) as [pos|] eqn:E; [|by eexists].
  apply get_node_by_path_at in E as [n ->]. cbn [nonnull rbind]. destruct (n_children n) as [|b bs]; [by eexists|].
  destruct (get_property b (str "reg")) as [reg|]; [|by eexists]. destruct (Z.eqb_spec (d_len (p_val reg)) 4) as [H|]; [|by eexists].
  cbn [negb]. unfold propval_cell. rewrite H. cbn [Z.eqb Pos.eqb c_assert rbind]. unfold dtb_ld32, bytes_from, d_len in *. rewrite H.
  destruct (d_val (p_val reg)) as [|a0 [|a1 [|a2 [|a3 [|a4 l]]]]]; try (unfold zlen in H; cbn [length] in H; lia). by eexists.
Qed.

(** The child of the first component, by its index. *)
Lemma path_children_at path comp cs : forall i k c,
  (split_char "/" path = None /\ path = comp \/ exists rest, split_char "/" path = Some (comp, rest)) ->
  NoDup (map n_name cs) -> cs !! i = Some c -> n_deleted c = false -> n_name c = comp ->
  path_children path k cs =
    match split_char "/" path with
    | Some (_, rest) => cons (k + i)%nat <$> get_node_by_path c rest
    | None => Some [(k + i)%nat]
    end.
Proof.
  induction cs as [|x cs IH]; intros i k c Hp Hn Hi Hd Hc; [done|]. cbn [map] in Hn. apply NoDup_cons in Hn as [Hx Hn].
  cbn [path_children]. destruct i as [|i].
  - injection Hi as ->. rewrite Hd, Nat.add_0_r. unfold streq. subst comp.
    destruct Hp as [[-> ->]|[rest ->]]; by rewrite bool_decide_eq_true_2.
  - cbn [lookup list_lookup] in Hi. assert (n_name x <> comp) as Hne.
    { intros <-. apply Hx. rewrite <- Hc. apply list_elem_of_fmap_2. by eapply list_elem_of_lookup_2. }
    replace (k + S i)%nat with (S k + i)%nat by lia. rewrite <- (IH i (S k) c Hp Hn Hi Hd Hc). destruct (n_deleted x); [done|].
    unfold streq. destruct Hp as [[-> ->]|[rest ->]]; by rewrite bool_decide_eq_false_2.
Qed.

Lemma path_of_name comp rest : name_ok comp ->
  split_char "/" (comp ++ slashed rest) =
  match rest with [] => None | n :: r => Some (comp, n ++ slashed r) end.
Proof.
  intros [_ Hc]. destruct rest as [|n r]; cbn [slashed flat_map].
  - rewrite app_nil_r. by apply split_char_none.
  - cbn [app]. by apply split_char_app.
Qed.

Lemma by_path_at ns : forall t pos p n,
  node_wf t -> paths_ok t -> live_names t pos = Some (n :: ns) -> p <> [] -> skip_slashes p = n ++ slashed ns ->
  get_node_by_path t p = Some pos.
Proof.
  induction ns as [|n' ns IH]; intros t pos p n Hw Hp Hl Hne Hs; pose proof (live_names_ok _ _ _ Hp Hl) as Hok;
    (destruct pos as [|i pos]; [done|]); apply live_names_cons in Hl as (c & ns' & Hc & Hd & Hl & E);
    injection E as -> E; apply Forall_cons in Hok as [Hn Hok]; apply node_wf_inv in Hw as (_ & Hu & _ & Hk);
    rewrite get_node_by_path_eq, Hs by done.
  - subst ns'. destruct pos as [|j pos]; [|by apply live_names_cons in Hl as (? & ? & _ & _ & _ & ?)].
    rewrite (path_children_at _ (n_name c) _ i 0 c); try done; rewrite path_of_name by done; [done|].
    left. by rewrite app_nil_r.
  - subst ns'. apply Forall_cons in Hok as [Hn' _].
    rewrite (path_children_at _ (n_name c) _ i 0 c); try done; rewrite path_of_name by done; [|right; by eexists].
    destruct Hp as [t Hp1 Hp2]. rewrite (IH c pos _ n'); try done.
    + by eapply Forall_lookup_1 in Hk.
    + by eapply Forall_lookup_1 in Hp2.
    + destruct Hn' as [Hn' _]. by destruct n'.
    + by apply skip_slashes_name.
Qed.

(** ** The full paths *)

Lemma slashed_app ns ms : slashed (ns ++ ms) = slashed ns ++ slashed ms.
Proof. apply flat_map_app. Qed.

(** A path that does not end in a slash, and the root's. *)
Definition path_str (ns : list (list byte)) : list byte := match ns with [] => str "/" | _ => slashed ns end.

Lemma last_slashed ns : Forall name_ok ns -> ns <> [] -> last (slashed ns) <> Some "/"%byte.
Proof.
  intros Hok Hne. destruct ns as [|n ns] using rev_ind; [done|]. clear IHns Hne. apply Forall_app in Hok as [_ [[H1 H2] _]%Forall_cons].
  rewrite slashed_app. cbn [slashed flat_map]. rewrite app_nil_r, last_app, last_cons. destruct (last n) as [c|] eqn:E.
  - apply last_Some_elem_of in E. intros [= ->]. done.
  - apply last_None in E. done.
Qed.

Lemma join_path_str ns n : Forall name_ok ns -> join_path (path_str ns) n = path_str (ns ++ [n]).
Proof.
  intros Hok. unfold path_str at 1, join_path. destruct ns as [|m ns]; [cbn; by rewrite app_nil_r|].
  pose proof (last_slashed _ Hok ltac:(done)) as Hl. change ((m :: ns) ++ [n]) with (m :: (ns ++ [n])). cbn [path_str].
  change (m :: ns ++ [n]) with ((m :: ns) ++ [n]). rewrite slashed_app. cbn [slashed flat_map] in *. rewrite app_nil_r.
  destruct (last _) as [[]|]; done.
Qed.

(** [fill_fullpaths] keeps names and deletions, and writes the paths. *)
Lemma fill_fullpaths_rest t prefix :
  n_name (fill_fullpaths t prefix) = n_name t /\ n_deleted (fill_fullpaths t prefix) = n_deleted t /\
  n_proplist (fill_fullpaths t prefix) = n_proplist t /\
  n_fullpath (fill_fullpaths t prefix) = join_path prefix (n_name t) /\
  n_children (fill_fullpaths t prefix) =
    map (fun c => if n_deleted c then c else fill_fullpaths c (join_path prefix (n_name t))) (n_children t).
Proof. by destruct t. Qed.

Lemma filled_kid_rest c prefix :
  let c' := if n_deleted c then c else fill_fullpaths c prefix in
  n_name c' = n_name c /\ n_deleted c' = n_deleted c.
Proof. cbv zeta. destruct (n_deleted c) eqn:E; [done|]. destruct (fill_fullpaths_rest c prefix) as (-> & -> & _). done. Qed.

Lemma fill_live_names pos : forall t prefix, live_names (fill_fullpaths t prefix) pos = live_names t pos.
Proof.
  induction pos as [|i pos IH]; intros t prefix; [done|]. cbn [live_names].
  destruct (fill_fullpaths_rest t prefix) as (_ & _ & _ & _ & ->). rewrite list_lookup_fmap.
  destruct (n_children t !! i) as [c|]; [|done]. cbn [fmap option_fmap option_map mbind option_bind].
  destruct (filled_kid_rest c (join_path prefix (n_name t))) as [-> ->]. destruct (n_deleted c); [done|]. by rewrite IH.
Qed.

Lemma fill_fullpath_at pos : forall t prefix ns0 ns n,
  paths_ok t -> Forall name_ok ns0 -> join_path prefix (n_name t) = path_str ns0 ->
  live_names t pos = Some ns -> node_at (fill_fullpaths t prefix) pos = Some n -> n_fullpath n = path_str (ns0 ++ ns).
Proof.
  induction pos as [|i pos IH]; intros t prefix ns0 ns n Hp Hok E Hl Hn; destruct (fill_fullpaths_rest t prefix) as (_ & _ & _ & Ef & Ec).
  - injection Hn as <-. injection Hl as <-. by rewrite app_nil_r, Ef.
  - pose proof (live_names_ok _ _ _ Hp Hl) as Hns. apply live_names_cons in Hl as (c & ns' & Hc & Hd & Hl & ->).
    apply Forall_cons in Hns as [Hn1 _]. cbn [node_at] in Hn. rewrite Ec, list_lookup_fmap, Hc in Hn.
    cbn [fmap option_fmap option_map mbind option_bind] in Hn. rewrite Hd in Hn. destruct Hp as [t Hp1 Hp2].
    rewrite (IH c (join_path prefix (n_name t)) (ns0 ++ [n_name c]) ns' n); try done.
    + by rewrite <- app_assoc.
    + by eapply Forall_lookup_1 in Hp2.
    + apply Forall_app. split; [done|]. by constructor.
    + rewrite E. by apply join_path_str.
Qed.

Lemma fill_wf t : forall prefix, node_wf t -> node_wf (fill_fullpaths t prefix).
Proof.
  induction t as [t IH] using node_ind'. intros prefix (Hp & Hc & Hd & Hk)%node_wf_inv.
  destruct (fill_fullpaths_rest t prefix) as (_ & E1 & E2 & _ & E3). constructor; rewrite ?E1, ?E2, ?E3.
  - exact Hp.
  - rewrite map_map. erewrite map_ext; [exact Hc|]. intros c. apply filled_kid_rest.
  - intros [H1 H2]%Hd. split; [done|]. apply Forall_map. eapply Forall_impl; [exact H2|]. intros c Hcd. cbn beta.
    by destruct (filled_kid_rest c (join_path prefix (n_name t))) as [_ ->].
  - apply Forall_map. rewrite !Forall_forall in *. intros c Hin. cbn beta. destruct (n_deleted c); auto.
Qed.

Lemma fill_paths_ok t : forall prefix, paths_ok t -> paths_ok (fill_fullpaths t prefix).
Proof.
  induction t as [t IH] using node_ind'. intros prefix Hp. inversion Hp as [n H1 H2 E]; subst n.
  destruct (fill_fullpaths_rest t prefix) as (_ & _ & _ & _ & E3). constructor; rewrite ?E3; apply Forall_map.
  - eapply Forall_impl; [exact H1|]. intros c Hc. cbn beta.
    by destruct (filled_kid_rest c (join_path prefix (n_name t))) as [-> _].
  - rewrite !Forall_forall in *. intros c Hin. cbn beta. destruct (n_deleted c); auto.
Qed.

Lemma fullpath_ref t pos ns n :
  node_wf t -> paths_ok t -> n_name t = [] -> live_names t pos = Some ns ->
  node_at (fill_fullpaths t []) pos = Some n -> get_node_by_ref (fill_fullpaths t []) (n_fullpath n) = Ret (Some pos).
Proof.
  intros Hw Hp Hr Hl Hn. pose proof (live_names_ok _ _ _ Hp Hl) as Hok.
  assert (n_fullpath n = path_str ns) as ->.
  { apply (fill_fullpath_at pos t [] [] ns n); try done. by rewrite Hr. }
  destruct ns as [|m ns].
  - destruct pos as [|i pos]; [done|]. by apply live_names_cons in Hl as (? & ? & _ & _ & _ & ?).
  - apply Forall_cons in Hok as [Hm _]. unfold get_node_by_ref, path_str, streq. rewrite bool_decide_eq_false_2.
    + cbn [slashed flat_map app head]. rewrite bool_decide_eq_true_2 by done.
      f_equal. apply (by_path_at ns) with (n := m); [by apply fill_wf|by apply fill_paths_ok|by rewrite fill_live_names|done|].
      cbn [skip_slashes app]. by apply skip_slashes_name.
    + destruct Hm as [Hm _]. destruct m; [done|]. by cbn.
Qed.

(** ** Phandles: the search by phandle finds a live node that has it, and the one
    a node is given is its own. *)

(** The phandles of the live nodes; the root counts as one. *)
Fixpoint phandles (t : node) : list Z :=
  n_phandle t :: flat_map (fun c => if n_deleted c then [] else phandles c) (n_children t).

Definition phandles_of (cs : list node) : list Z := flat_map (fun c => if n_deleted c then [] else phandles c) cs.

Lemma phandles_eq t : phandles t = n_phandle t :: phandles_of (n_children t).
Proof. by destruct t. Qed.

Lemma by_phandle_eq t p :
  get_node_by_phandle_ t p =
  if n_phandle t =? p then (if n_deleted t then None else Some ([], tt))
  else under (first_child (fun c => get_node_by_phandle_ c p) 0 (n_children t)).
Proof. by destruct t. Qed.

Lemma first_child_none {A} (f : node -> option A) cs : forall k,
  first_child f k cs = None <-> Forall (fun c => n_deleted c = false -> f c = None) cs.
Proof.
  induction cs as [|c cs IH]; intros k; cbn [first_child]; [split; [constructor|done]|].
  destruct (n_deleted c) eqn:E; [|destruct (f c) as [a|] eqn:Ef]; rewrite ?IH, Forall_cons; naive_solver congruence.
Qed.

(** The first live child in which [f] finds something. *)
Lemma first_child_at {A} (f : node -> option A) cs : forall k i c a,
  cs !! i = Some c -> n_deleted c = false -> f c = Some a ->
  (forall j d, (j < i)%nat -> cs !! j = Some d -> n_deleted d = false -> f d = None) ->
  first_child f k cs = Some ((k + i)%nat, a).
Proof.
  induction cs as [|x cs IH]; intros k i c a Hi Hd Hf Hb; [done|]. cbn [first_child]. destruct i as [|i].
  - injection Hi as ->. by rewrite Hd, Hf, Nat.add_0_r.
  - assert (first_child f (S k) cs = Some ((k + S i)%nat, a)) as E.
    { replace (k + S i)%nat with (S k + i)%nat by lia. eapply (IH (S k) i c); [exact Hi|exact Hd|exact Hf|].
      intros j d Hj Hc. apply (Hb (S j) d); [lia|exact Hc]. }
    destruct (n_deleted x) eqn:Ex; [exact E|]. by rewrite (Hb O x) by (done || lia).
Qed.

Lemma by_phandle_none t p : n_deleted t = false -> get_node_by_phandle_ t p = None <-> p ∉ phandles t.
Proof.
  induction t as [t IH] using node_ind'. intros Hd. rewrite by_phandle_eq, phandles_eq, Hd, not_elem_of_cons.
  destruct (Z.eqb_spec (n_phandle t) p) as [->|Hne]; [naive_solver|].
  transitivity (first_child (fun c => get_node_by_phandle_ c p) 0 (n_children t) = None).
  { by destruct (first_child _ _ _) as [[i [q a]]|]. }
  rewrite first_child_none. transitivity (p ∉ phandles_of (n_children t)); [|naive_solver congruence]. clear Hd Hne.
  induction IH as [|c cs Hc _ IHl]; [split; [intros _; apply not_elem_of_nil|constructor]|].
  rewrite Forall_cons, IHl. unfold phandles_of. cbn [flat_map]. fold (phandles_of cs). rewrite not_elem_of_app.
  destruct (n_deleted c) eqn:E; [pose proof (not_elem_of_nil p); naive_solver congruence|]. rewrite <- (Hc eq_refl). naive_solver.
Qed.

(** A node given an unused phandle is the one found. *)
Lemma by_phandle_update pos : forall t n p,
  n_deleted t = false -> is_Some (live_names t pos) -> p ∉ phandles t -> n_deleted n = false -> n_phandle n = p ->
  get_node_by_phandle_ (update_at t pos (fun _ => n)) p = Some (pos, tt).
Proof.
  induction pos as [|i pos IH]; intros t n p Hd [ns Hl] Hp Hn Ep; rewrite by_phandle_eq; cbn [update_at].
  - by rewrite Ep, Z.eqb_refl, Hn.
  - apply live_names_cons in Hl as (c & ns' & Hc & Hcd & Hl & _). rewrite phandles_eq in Hp.
    apply not_elem_of_cons in Hp as [Hp1 Hp2]. destruct t as [dl nm pl ch fp bl ph ac sc lb om rf].
    cbn [n_set_children n_phandle n_deleted n_children] in *. destruct (Z.eqb_spec ph p); [done|].
    assert (forall j d, ch !! j = Some d -> n_deleted d = false -> p ∉ phandles d) as Hk.
    { intros j d Hj Hdd Hin. apply Hp2. unfold phandles_of. apply list_elem_of_In, in_flat_map. exists d.
      split; [apply list_elem_of_In; by eapply list_elem_of_lookup_2|]. rewrite Hdd. by apply list_elem_of_In. }
    rewrite (first_child_at _ _ 0 i (update_at c pos (fun _ => n)) (pos, tt)); [done|..].
    + by rewrite list_lookup_alter_eq, Hc.
    + destruct pos; [done|]. by destruct c.
    + apply IH; [done|by eexists|by eapply Hk|done|done].
    + intros j d Hj Hdj Hdd. rewrite list_lookup_alter_ne in Hdj by lia. apply by_phandle_none; [done|]. by eapply Hk.
Qed.

Lemma node_at_update pos : forall t n f, node_at t pos = Some n -> node_at (update_at t pos f) pos = Some (f n).
Proof.
  induction pos as [|i pos IH]; intros t n f; cbn [node_at update_at]; [by intros [= ->]|].
  destruct t as [dl nm pl ch fp bl ph ac sc lb om rf]. cbn [n_set_children n_children]. rewrite list_lookup_alter_eq.
  destruct (ch !! i) as [c|]; [|done]. cbn. apply IH.
Qed.

Lemma node_at_live pos : forall t n ns, n_deleted t = false -> live_names t pos = Some ns -> node_at t pos = Some n -> n_deleted n = false.
Proof.
  induction pos as [|i pos IH]; intros t n ns Ht Hl; cbn [node_at]; [by intros [= ->]|].
  apply live_names_cons in Hl as (c & ns' & Hc & Hcd & Hl & _). rewrite Hc. cbn. by eapply IH.
Qed.

(** ** The search for a free phandle *)

Lemma seqZ_in_length (L : list Z) a n : (forall v, a <= v < a + n -> v ∈ L) -> n <= zlen L.
Proof.
  intros H. destruct (Z.le_gt_cases n 0); [pose proof (zlen_nonneg L); lia|].
  assert (seqZ a n ⊆+ L) as Hs.
  { apply NoDup_submseteq; [apply NoDup_seqZ|]. intros v Hv%elem_of_seqZ. apply H. lia. }
  apply submseteq_length in Hs. rewrite length_seqZ in Hs. unfold zlen. lia.
Qed.

Section search.
Context (o : dtc_opts) (root : node) (c : Z).
Context (Hroot : n_deleted root = false) (Hc : 1 <= c) (Hroom : c + zlen (phandles root) < 4294967295).

Lemma by_phandle_ret p :
  0 < p < 4294967295 -> get_node_by_phandle o root p = Ret (fst <$> get_node_by_phandle_ root p).
Proof.
  intros Hp. unfold get_node_by_phandle. destruct (Z.eqb_spec p 0); [lia|].
  destruct (Z.eqb_spec p 4294967295); [lia|]. done.
Qed.

Lemma free_phandle :
  exists p, loop (fun phandle => let! r := get_node_by_phandle o root phandle in
      if is_null r then Ret (Break phandle) else Ret (Continue (u32 (phandle + 1)))) c = Ret p /\
    c <= p <= c + zlen (phandles root) /\ p ∉ phandles root.
Proof using All.
  pose proof (zlen_nonneg (phandles root)). apply wp_total_ex.
  apply (wp_loop total (fun p => c <= p /\ forall v, c <= v < p -> v ∈ phandles root) (fun p => c + zlen (phandles root) - p)).
  - split; [lia|]. intros v Hv. lia.
  - intros p [Hp Hv]. pose proof (seqZ_in_length (phandles root) c (p - c)) as L. rewrite Zplus_minus in L. specialize (L Hv).
    unfold loop_bound. lia.
  - intros p [Hp Hv]. pose proof (seqZ_in_length (phandles root) c (p - c)) as L. rewrite Zplus_minus in L. specialize (L Hv).
    rewrite by_phandle_ret by lia. cbn [rbind]. destruct (get_node_by_phandle_ root p) as [[q []]|] eqn:E; cbn [fmap option_fmap option_map is_null wp].
    + assert (p ∈ phandles root) as Hin.
      { destruct (decide (p ∈ phandles root)) as [|Hn]; [done|]. apply by_phandle_none in Hn; [|done]. by rewrite Hn in E. }
      rewrite u32_small by ilia. split; [|lia]. split; [lia|]. intros v Hv'. destruct (decide (v = p)) as [->|]; [done|]. apply Hv. lia.
    + split; [lia|]. by apply by_phandle_none.
Qed.
End search.

(** ** The property *)

Lemma get_property_add n p name :
  get_property (add_property n p) name =
  match get_property n name with Some q => Some q | None => if live_prop name p then Some p else None end.
Proof.
  destruct n as [dl nm pl ch fp bl ph ac sc lb om rf]. unfold get_property. cbn [add_property n_set_proplist n_proplist].
  induction pl as [|x pl IH]; cbn [app find_first].
  - by destruct (live_prop name p).
  - destruct (live_prop name x); [done|]. destruct (find_first _ (pl ++ [p])) as [[i y]|], (find_first _ pl) as [[j z]|]; cbn in *; congruence.
Qed.

(** A property added where there is none. *)
Definition put_missing (b : bool) (name : list byte) (d : data) (n : node) : node :=
  if is_null (get_property n name) && b then add_property n (build_property name d) else n.

Lemma put_missing_at b name d n :
  n_phandle (put_missing b name d n) = n_phandle n /\ n_deleted (put_missing b name d n) = n_deleted n /\
  forall name', get_property (put_missing b name d n) name' =
    match get_property n name' with
    | Some q => Some q
    | None => if b && streq name name' then Some (build_property name d) else None
    end.
Proof.
  unfold put_missing. destruct (get_property n name) as [q|] eqn:E; cbn [is_null andb].
  - split; [done|]. split; [done|]. intros name'. destruct (get_property n name') eqn:E'; [done|].
    unfold streq. destruct (bool_decide_reflect (name = name')); [congruence|]. by rewrite andb_false_r.
  - destruct b; cbn [andb].
    + split; [by destruct n|]. split; [by destruct n|]. intros name'. by rewrite get_property_add.
    + split; [done|]. split; [done|]. intros name'. by destruct (get_property n name').
Qed.

(** The node with its phandle properties. *)
Definition with_phandle (o : dtc_opts) (n : node) (p : Z) (d : data) : node :=
  put_missing (negb (Z.land (phandle_format o) PHANDLE_EPAPR =? 0)) (str "phandle") d
    (put_missing (negb (Z.land (phandle_format o) PHANDLE_LEGACY =? 0)) (str "linux,phandle") d (n_set_phandle p n)).

Lemma with_phandle_at o n p d :
  n_phandle (with_phandle o n p d) = p /\ n_deleted (with_phandle o n p d) = n_deleted n /\
  (Z.land (phandle_format o) PHANDLE_EPAPR <> 0 -> get_property n (str "phandle") = None ->
   get_property (with_phandle o n p d) (str "phandle") = Some (build_property (str "phandle") d)).
Proof.
  unfold with_phandle. edestruct put_missing_at as (-> & -> & ->). edestruct put_missing_at as (-> & -> & ->).
  split; [by destruct n|]. split; [by destruct n|]. intros Hf Hn.
  assert (get_property (n_set_phandle p n) (str "phandle") = None) as -> by (by destruct n).
  destruct (Z.eqb_spec (Z.land (phandle_format o) PHANDLE_EPAPR) 0); [done|].
  replace (streq (str "linux,phandle") (str "phandle")) with false by reflexivity. by rewrite andb_false_r.
Qed.

Lemma get_node_phandle_at o root pos c n ns :
  n_deleted root = false -> node_at root pos = Some n -> live_names root pos = Some ns ->
  n_phandle n = 0 \/ n_phandle n = 4294967295 -> 1 <= c -> c + zlen (phandles root) < 4294967295 ->
  exists p d, get_node_phandle o root pos c = Ret (p, update_at root pos (fun _ => with_phandle o n p d), p) /\
    c <= p < 4294967295 /\ (p ∉ phandles root) /\ d_val d = be_enc32 p.
Proof.
  intros Hd Hn Hl H0 Hc Hroom. unfold get_node_phandle. rewrite Hn. cbn [nonnull rbind].
  assert (negb (n_phandle n =? 0) && negb (n_phandle n =? 4294967295) = false) as -> by (by destruct H0 as [-> | ->]).
  destruct (free_phandle o root c Hd Hc Hroom) as (p & -> & Hp & Hfree). cbn [rbind].
  destruct (data_append_cell_at (data_add_marker empty_data TYPE_UINT32 None) p) as (d & -> & (Ed & _ & _)).
  { constructor; cbn; try done; try apply empty_wf. }
  { done. }
  cbn [rbind]. exists p, d. split; [done|]. split; [lia|]. done.
Qed.
