(* ===== verification/DtcChecks.v ===== *)
(** dtc/checks.c: the check engine. A check is its name, its function and its
    prerequisites; what the engine changes in a [struct check] (flags and
    status) is kept by name in the state, with the tree, the buses the checks
    recognise and the log of what was printed. The text of a message is left
    out: an entry says which check spoke about which node and property. *)
From stdpp Require Import strings gmap.
From S2P Require Import Prelude Monad Ctype DtcUtil DtcData DtcTree.
Open Scope Z_scope.

Inductive checkstatus := UNCHECKED | PREREQ | PASSED | FAILED.

#[export] Instance checkstatus_eq_dec : EqDecision checkstatus.
Proof. solve_decision. Defined.

Inductive bus_type := pci_bus | simple_bus | i2c_bus | spi_bus | graph_port_bus | graph_ports_bus.

#[export] Instance bus_type_eq_dec : EqDecision bus_type.
Proof. solve_decision. Defined.

Record check_state := CheckSt {
  k_warn : bool;
  k_error : bool;
  k_status : checkstatus;
  k_inprogress : bool;
}.

(** A printed message: the check, whether as an error, and the node and
    property it is about. *)
Record message := Message {
  msg_check : string;
  msg_error : bool;
  msg_node : option (list nat);
  msg_prop : option (list byte);
}.

Record cstate := CState {
  cs_dti : dt_info;
  cs_phandle : Z;                        (* the counter of [get_node_phandle] *)
  cs_bus : gmap (list nat) bus_type;     (* [node->bus], by position *)
  cs_checks : gmap string check_state;
  cs_log : list message;
}.

(** The options the checks read besides those of the tree code. *)
Record check_opts := CheckOpts {
  co_dtc : dtc_opts;
  generate_symbols : bool;
}.

Definition check_fn : Type := string -> list nat -> cstate -> res cstate.

(** [c_warn] and [c_error] are the levels the check is declared with. *)
Inductive check := Check {
  c_name : string;
  c_warn : bool;
  c_error : bool;
  c_fn : check_fn;
  c_prereqs : list check;
}.

Section checks.
Context (o : check_opts).

(** ** The state *)

Definition cs_set_dt (t : node) (s : cstate) : cstate :=
  let d := cs_dti s in
  CState (DtInfo (dtsflags d) (reservelist d) (boot_cpuid_phys d) t) (cs_phandle s) (cs_bus s) (cs_checks s) (cs_log s).
Definition cs_set_phandle (p : Z) (s : cstate) : cstate :=
  CState (cs_dti s) p (cs_bus s) (cs_checks s) (cs_log s).
Definition cs_set_bus (pos : list nat) (b : bus_type) (s : cstate) : cstate :=
  CState (cs_dti s) (cs_phandle s) (<[pos := b]> (cs_bus s)) (cs_checks s) (cs_log s).
Definition cs_set_checks (m : gmap string check_state) (s : cstate) : cstate :=
  CState (cs_dti s) (cs_phandle s) (cs_bus s) m (cs_log s).

Definition cs_dt (s : cstate) : node := dt (cs_dti s).

Definition node_of (s : cstate) (pos : list nat) : res node := nonnull (node_at (cs_dt s) pos).

(** [node->parent]. *)
Definition parent_of (pos : list nat) : option (list nat) :=
  match pos with [] => None | _ => Some (removelast pos) end.

Definition change_node (pos : list nat) (f : node -> node) (s : cstate) : cstate :=
  cs_set_dt (update_at (cs_dt s) pos f) s.

Definition check_of (s : cstate) (c : string) : res check_state := nonnull (cs_checks s !! c).

Definition change_check (c : string) (f : check_state -> check_state) (s : cstate) : cstate :=
  cs_set_checks (alter f c (cs_checks s)) s.

Definition set_status (st : checkstatus) (k : check_state) : check_state :=
  CheckSt (k_warn k) (k_error k) st (k_inprogress k).
Definition set_inprogress (b : bool) (k : check_state) : check_state :=
  CheckSt (k_warn k) (k_error k) (k_status k) b.

(** ** Messages *)

Definition check_msg (c : string) (node : option (list nat)) (prop : option (list byte)) (s : cstate) : res cstate :=
  let! k := check_of s c in
  if negb (k_warn k && (quiet (co_dtc o) <? 1)) && negb (k_error k && (quiet (co_dtc o) <? 2)) then Ret s else
  Ret (CState (cs_dti s) (cs_phandle s) (cs_bus s) (cs_checks s) (cs_log s ++ [Message c (k_error k) node prop])).

Definition fail (c : string) (pos : list nat) (s : cstate) : res cstate :=
  check_msg c (Some pos) None (change_check c (set_status FAILED) s).

Definition fail_prop (c : string) (pos : list nat) (prop : option property) (s : cstate) : res cstate :=
  check_msg c (Some pos) (p_name <$> prop) (change_check c (set_status FAILED) s).

(** ** Running a check *)

(** The walk of the tree: no check adds or removes nodes, so the shape is the
    one the walk starts with; whether a child is deleted is read when the walk
    comes to it. *)
Fixpoint check_nodes_props (fn : list nat -> cstate -> res cstate) (shape : node) (pos : list nat) (s : cstate)
    {struct shape} : res cstate :=
  let! s := fn pos s in
  (fix children (i : nat) (cs : list node) (s : cstate) : res cstate :=
    match cs with
    | [] => Ret s
    | c :: cs =>
      let! child := node_of s (pos ++ [i]) in
      let! s := if n_deleted child then Ret s else check_nodes_props fn c (pos ++ [i]) s in
      children (S i) cs s
    end) O (n_children shape) s.

Definition is_multiple_of (multiple divisor : Z) : bool :=
  if divisor =? 0 then multiple =? 0 else Z.rem multiple divisor =? 0.

(** Returns whether there was an error. *)
Fixpoint run_check (c : check) (s : cstate) {struct c} : res (bool * cstate) :=
  let! k := check_of s (c_name c) in
  let! _ := c_assert (negb (k_inprogress k)) in
  let! '(error, s) :=
    if negb (bool_decide (k_status k = UNCHECKED)) then Ret (false, s) else
    let s := change_check (c_name c) (set_inprogress true) s in
    let! '(error, s) :=
      (fix prereqs (ps : list check) (error : bool) (s : cstate) : res (bool * cstate) :=
        match ps with
        | [] => Ret (error, s)
        | prq :: ps =>
          let! '(error, s) := if error then Ret (true, s) else run_check prq s in
          let! kp := check_of s (c_name prq) in
          let! s := if bool_decide (k_status kp = PASSED) then Ret s
                    else check_msg (c_name c) None None (change_check (c_name c) (set_status PREREQ) s) in
          prereqs ps error s
        end) (c_prereqs c) false s in
    let! k := check_of s (c_name c) in
    if negb (bool_decide (k_status k = UNCHECKED)) then Ret (error, s) else
    let! s := check_nodes_props (c_fn c (c_name c)) (cs_dt s) [] s in
    let! k := check_of s (c_name c) in
    let s := if bool_decide (k_status k = UNCHECKED) then change_check (c_name c) (set_status PASSED) s else s in
    Ret (error, s) in
  (* out: *)
  let s := change_check (c_name c) (set_inprogress false) s in
  let! k := check_of s (c_name c) in
  Ret (error || (negb (bool_decide (k_status k = PASSED)) && k_error k), s).

(** ** Options *)

(** Raising level, also raise it for prereqs. *)
Fixpoint enable_warning_error (c : check) (warn error : bool) (s : cstate) {struct c} : res cstate :=
  let! k := check_of s (c_name c) in
  let! s :=
    if (warn && negb (k_warn k)) || (error && negb (k_error k)) then
      (fix prereqs (ps : list check) (s : cstate) : res cstate :=
        match ps with
        | [] => Ret s
        | prq :: ps => let! s := enable_warning_error prq warn error s in prereqs ps s
        end) (c_prereqs c) s
    else Ret s in
  Ret (change_check (c_name c) (fun k => CheckSt (k_warn k || warn) (k_error k || error) (k_status k) (k_inprogress k)) s).

Context (check_table : list check).

(** Lowering level, also lower it for things this is the prereq for. The
    recursion follows the prerequisites backwards; [fuel] bounds its depth. *)
Fixpoint disable_warning_error (fuel : nat) (c : string) (warn error : bool) (s : cstate) : res cstate :=
  match fuel with
  | O => Fault Div
  | S fuel =>
    let! k := check_of s c in
    let! s :=
      if (warn && k_warn k) || (error && k_error k) then
        foldr (fun cc rest s =>
          let! s := foldr (fun prq rest s =>
            let! s := if bool_decide (c_name prq = c) then disable_warning_error fuel (c_name cc) warn error s else Ret s in
            rest s) Ret (c_prereqs cc) s in
          rest s) Ret check_table s
      else Ret s in
    Ret (change_check c (fun k => CheckSt (k_warn k && negb warn) (k_error k && negb error) (k_status k) (k_inprogress k)) s)
  end.

Definition parse_checks_option (warn error : bool) (arg : list byte) (s : cstate) : res cstate :=
  let '(name, enable) :=
    match strip_prefix (str "no-") arg, strip_prefix (str "no_") arg with
    | Some name, _ | None, Some name => (name, false)
    | None, None => (arg, true)
    end in
  match find_first (fun c => streq (str (c_name c)) name) check_table with
  | Some (_, c) =>
    if enable then enable_warning_error c warn error s
    else disable_warning_error (S (length check_table)) (c_name c) warn error s
  | None => Fault Die
  end.

(** [exit(2)] is the fault [Die]. *)
Definition process_checks (force : bool) (s : cstate) : res cstate :=
  let! '(error, s) :=
    foldr (fun c rest '(error, s) =>
      let! k := check_of s (c_name c) in
      let! '(error, s) :=
        if k_warn k || k_error k then
          (* once there is an error, no check runs any more *)
          if error : bool then Ret (true, s) else run_check c s
        else Ret (error, s) in
      rest (error, s)) Ret check_table (false, s) in
  if error && negb force then Fault Die else Ret s.
End checks.
