(* ===== verification/DtcTreeProps.v ===== *)
(** Properties of dtc's live tree: merging, sorting, paths and phandles. *)
From S2P Require Import Prelude Monad Ctype Sample DtcUtil DtcData DtcTree DtcTreeSpec DtcMerge DtcGen.
From S2P Require Import DtcSort.

(** C28. Later definitions override: whatever a path and a property name are,
    the value in [merge_nodes old new] is the one [new] gives, absent if [new]
    deletes the property or a node on the way, and the one of [old] where
    [new] says nothing. *)
Theorem merge_nodes_overrides old new path name :
  node_wf old -> node_wf new ->
  value_at (merge_nodes old new) path name = changed (change_at new path name) (value_at old path name).
Proof. apply merge_value_at. Qed.

Theorem merge_nodes_overrides_witness :
  value_at (merge_nodes d_tree d_over) [str "cpus"; str "cpu@0"] (str "reg") = Some (Data (be_enc32 9) 4 []) /\
  forall path name, value_at (merge_nodes d_tree d_over) path name =
    changed (change_at d_over path name) (value_at d_tree path name).
Proof.
  split; [vm_compute; reflexivity|]. intros path name.
  apply merge_nodes_overrides; apply node_wfb_sound; vm_compute; reflexivity.
Defined.

(** C29. The tree operations keep the invariant: names are unique among the
    properties and among the subnodes of every node, deleted ones included,
    and everything below a deleted node is deleted. *)
Theorem tree_operations_keep_wf old new prefix :
  node_wf old -> node_wf new ->
  node_wf (merge_nodes old new) /\ node_wf (delete_node old) /\ node_wf (sort_node old) /\
  node_wf (fill_fullpaths old prefix).
Proof.
  intros Ho Hn. split; [by apply merge_nodes_wf|]. split; [by apply delete_node_wf|].
  split; [by apply sort_node_wf|by apply fill_wf].
Qed.

Theorem tree_operations_keep_wf_witness :
  node_wf (merge_nodes d_tree d_over) /\ node_wf (delete_node d_tree) /\ node_wf (sort_node d_tree) /\
  node_wf (fill_fullpaths d_tree []).
Proof. apply tree_operations_keep_wf; apply node_wfb_sound; vm_compute; reflexivity. Defined.

(** C30. Sorting changes nothing but the order: every list of properties and
    of subnodes comes out in the order of [strcmp], at every level, with the
    same names, and every property of every path keeps its value. *)
Theorem sort_node_equivalent n :
  node_wf n ->
  node_sorted (sort_node n) /\ map p_name (n_proplist (sort_node n)) ≡ₚ map p_name (n_proplist n) /\
  forall path name, value_at (sort_node n) path name = value_at n path name.
Proof.
  intros Hw. split; [apply sort_node_sorted|]. split; [apply sort_keys|]. intros path name. by apply sort_value_at.
Qed.

Theorem sort_node_equivalent_witness :
  map n_name (n_children (sort_node d_tree)) = [str "cpu@0"; str "cpus"; str "mem"] /\
  node_sorted (sort_node d_tree) /\ map p_name (n_proplist (sort_node d_tree)) ≡ₚ map p_name (n_proplist d_tree) /\
  forall path name, value_at (sort_node d_tree) path name = value_at d_tree path name.
Proof. split; [vm_compute; reflexivity|]. apply sort_node_equivalent, node_wfb_sound. vm_compute. reflexivity. Defined.

(** C31. A full path leads back: in a tree with usable names, the full path
    [fill_fullpaths] stores in a live node is one [get_node_by_ref] resolves
    to that node. *)
Theorem fullpath_roundtrip t pos ns n :
  node_wf t -> paths_ok t -> n_name t = [] -> live_names t pos = Some ns ->
  node_at (fill_fullpaths t []) pos = Some n ->
  get_node_by_ref (fill_fullpaths t []) (n_fullpath n) = Ret (Some pos).
Proof. apply fullpath_ref. Qed.

Theorem fullpath_roundtrip_witness :
  exists n, node_at (fill_fullpaths d_tree []) [0%nat; 0%nat] = Some n /\ n_fullpath n = str "/cpus/cpu@0" /\
    get_node_by_ref (fill_fullpaths d_tree []) (n_fullpath n) = Ret (Some [0%nat; 0%nat]).
Proof.
  eexists. split; [vm_compute; reflexivity|]. split; [vm_compute; reflexivity|].
  apply (fullpath_roundtrip d_tree [0%nat; 0%nat] [str "cpus"; str "cpu@0"]);
    [apply node_wfb_sound; vm_compute; reflexivity|apply paths_okb_sound; vm_compute; reflexivity|reflexivity..].
Defined.

(** C32. A node gets a phandle of its own: [get_node_phandle] on a live node
    without one returns, with room left below 0xffffffff, a value at or above
    its counter that no live node has, gives it to the node, as its "phandle"
    property too where asked for and missing, and the value then resolves to
    that node. *)
Theorem get_node_phandle_fresh o root pos c n ns :
  n_deleted root = false -> node_at root pos = Some n -> live_names root pos = Some ns ->
  n_phandle n = 0 \/ n_phandle n = 4294967295 -> 1 <= c -> c + zlen (phandles root) < 4294967295 ->
  exists p root' n', get_node_phandle o root pos c = Ret (p, root', p) /\
    c <= p < 4294967295 /\ (p ∉ phandles root) /\
    node_at root' pos = Some n' /\ n_phandle n' = p /\ get_node_by_phandle o root' p = Ret (Some pos) /\
    (Z.land (phandle_format o) PHANDLE_EPAPR <> 0 -> get_property n (str "phandle") = None ->
     (d_val ∘ p_val <$> get_property n' (str "phandle")) = Some (be_enc32 p)).
Proof.
  intros Hd Hn Hl H0 Hc Hroom. destruct (get_node_phandle_at o root pos c n ns Hd Hn Hl H0 Hc Hroom) as (p & d & E & Hp & Hf & Ed).
  destruct (with_phandle_at o n p d) as (W1 & W2 & W3). exists p, (update_at root pos (fun _ => with_phandle o n p d)), (with_phandle o n p d).
  split; [exact E|]. split; [exact Hp|]. split; [exact Hf|]. split; [by apply (node_at_update _ _ n)|]. split; [exact W1|].
  split; [|intros H1 H2; by rewrite (W3 H1 H2); cbn; rewrite Ed].
  unfold get_node_by_phandle. destruct (Z.eqb_spec p 0); [lia|]. destruct (Z.eqb_spec p 4294967295); [lia|]. cbn [orb].
  rewrite by_phandle_update; [done|done|by eexists|done| |done]. rewrite W2. by eapply node_at_live.
Qed.

Theorem get_node_phandle_fresh_witness :
  exists p root' n', get_node_phandle d_opts d_tree [0%nat; 0%nat] 1 = Ret (p, root', p) /\
    1 <= p < 4294967295 /\ (p ∉ phandles d_tree) /\
    node_at root' [0%nat; 0%nat] = Some n' /\ n_phandle n' = p /\
    get_node_by_phandle d_opts root' p = Ret (Some [0%nat; 0%nat]) /\
    (Z.land (phandle_format d_opts) PHANDLE_EPAPR <> 0 -> get_property d_cpu (str "phandle") = None ->
     (d_val ∘ p_val <$> get_property n' (str "phandle")) = Some (be_enc32 p)).
Proof.
  apply (get_node_phandle_fresh d_opts d_tree [0%nat; 0%nat] 1 d_cpu [str "cpus"; str "cpu@0"]);
    first [reflexivity|by left|vm_compute; discriminate|vm_compute; reflexivity].
Defined.
