(* ===== verification/DtcCheckFns.v ===== *)
(** dtc/checks.c: the structural checks, the reference fixups and the checks
    of cells and names. *)
From stdpp Require Import strings gmap.
From S2P Require Import Prelude Monad Ctype DtcUtil DtcData DtcTree DtcGen DtcFlat DtcChecks.
Open Scope Z_scope.

(** [strspn(s, accept)]. *)
Fixpoint strspn (accept s : list byte) : Z :=
  match s with
  | c :: s => if bool_decide (c ∈ accept) then 1 + strspn accept s else 0
  | [] => 0
  end.

Definition LOWERCASE : list byte := str "abcdefghijklmnopqrstuvwxyz".
Definition UPPERCASE : list byte := str "ABCDEFGHIJKLMNOPQRSTUVWXYZ".
Definition DIGITS : list byte := str "0123456789".
Definition NODECHARS : list byte := LOWERCASE ++ UPPERCASE ++ DIGITS ++ str ",._+-@".
Definition PROPCHARS : list byte := LOWERCASE ++ UPPERCASE ++ DIGITS ++ str ",._+*#?-".
Definition PROPNODECHARSSTRICT : list byte := LOWERCASE ++ UPPERCASE ++ DIGITS ++ str ",-".

(** A buffer that was never allocated. *)
Definition val_null (d : data) : bool := d_cap d =? 0.

(** The C string at [d.val]. *)
Definition val_str (d : data) : res (list byte) :=
  match split_char x00 (d_val d) with Some (s, _) => Ret s | None => Fault Oob end.

Section fns.
Context (o : check_opts).

Let fail := fail o.
Let fail_prop := fail_prop o.

Definition live_props (n : node) : list property := filter (fun p => p_deleted p = false) (n_proplist n).

(** The live children of a node with their positions. *)
Fixpoint children_from (pos : list nat) (i : nat) (cs : list node) : list (list nat * node) :=
  match cs with
  | [] => []
  | c :: cs => if n_deleted c then children_from pos (S i) cs else (pos ++ [i], c) :: children_from pos (S i) cs
  end.
Definition live_children (pos : list nat) (n : node) : list (list nat * node) := children_from pos 0 (n_children n).

(** ** Utility check functions *)

Definition check_always_fail : check_fn := fun c pos s => fail c pos s.

Definition check_is_string (propname : list byte) : check_fn := fun c pos s =>
  let! n := node_of s pos in
  match get_property n propname with
  | None => Ret s
  | Some prop => if data_is_one_string (p_val prop) then Ret s else fail_prop c pos (Some prop) s
  end.

(** The data is strings, each with its terminator; [fuel] bounds their
    number. *)
Fixpoint is_string_list (fuel : nat) (v : list byte) : bool :=
  match fuel, v with
  | S fuel, _ :: _ => match split_char x00 v with Some (_, rest) => is_string_list fuel rest | None => false end
  | _, _ => true
  end.

Definition check_is_string_list (propname : list byte) : check_fn := fun c pos s =>
  let! n := node_of s pos in
  match get_property n propname with
  | None => Ret s
  | Some prop =>
    if is_string_list (length (d_val (p_val prop))) (d_val (p_val prop)) then Ret s
    else fail_prop c pos (Some prop) s
  end.

Definition check_is_cell (propname : list byte) : check_fn := fun c pos s =>
  let! n := node_of s pos in
  match get_property n propname with
  | None => Ret s
  | Some prop => if d_len (p_val prop) =? 4 then Ret s else fail_prop c pos (Some prop) s
  end.

(** ** Structural check functions *)

(** The second of two equal names may be a deleted node's. *)
Definition check_duplicate_node_names : check_fn := fun c pos s =>
  let! n := node_of s pos in
  (fix outer (i : nat) (cs : list node) (s : cstate) : res cstate :=
    match cs with
    | [] => Ret s
    | child :: cs =>
      let! s :=
        if n_deleted child then Ret s else
        (fix inner (j : nat) (cs2 : list node) (s : cstate) : res cstate :=
          match cs2 with
          | [] => Ret s
          | child2 :: cs2 =>
            let! s := if streq (n_name child) (n_name child2) then fail c (pos ++ [j]) s else Ret s in
            inner (S j) cs2 s
          end) (S i) cs s in
      outer (S i) cs s
    end) O (n_children n) s.

Definition check_duplicate_property_names : check_fn := fun c pos s =>
  let! n := node_of s pos in
  (fix outer (ps : list property) (s : cstate) : res cstate :=
    match ps with
    | [] => Ret s
    | prop :: ps =>
      let! s := foreach (fun prop2 s =>
        if streq (p_name prop) (p_name prop2) then fail_prop c pos (Some prop) s else Ret s) ps s in
      outer ps s
    end) (live_props n) s.

Definition check_node_name_chars (accept : list byte) : check_fn := fun c pos s =>
  let! n := node_of s pos in
  if strspn accept (n_name n) <? zlen (n_name n) then fail c pos s else Ret s.

Definition check_node_name_chars_strict (accept : list byte) : check_fn := fun c pos s =>
  let! n := node_of s pos in
  if strspn accept (n_name n) <? n_basenamelen n then fail c pos s else Ret s.

Definition check_node_name_format : check_fn := fun c pos s =>
  let! n := node_of s pos in
  if is_null (split_char "@" (get_unitname n)) then Ret s else fail c pos s.

Definition check_node_name_vs_property_name : check_fn := fun c pos s =>
  match parent_of pos with
  | None => Ret s
  | Some ppos =>
    let! n := node_of s pos in
    let! parent := node_of s ppos in
    if is_null (get_property parent (n_name n)) then Ret s else fail c pos s
  end.

Definition check_unit_address_vs_reg : check_fn := fun c pos s =>
  let! n := node_of s pos in
  let unitname := get_unitname n in
  if negb (is_null (get_subnode n (str "__overlay__"))) then Ret s else
  let prop :=
    match get_property n (str "reg") with
    | Some prop => Some prop
    | None =>
      match get_property n (str "ranges") with
      | Some prop => if d_len (p_val prop) =? 0 then None else Some prop
      | None => None
      end
    end in
  match prop with
  | Some _ => if bool_decide (unitname = []) then fail c pos s else Ret s
  | None => if bool_decide (unitname = []) then Ret s else fail c pos s
  end.

Definition check_property_name_chars (accept : list byte) : check_fn := fun c pos s =>
  let! n := node_of s pos in
  foreach (fun prop s =>
    if strspn accept (p_name prop) <? zlen (p_name prop) then fail_prop c pos (Some prop) s else Ret s)
    (live_props n) s.

(** # is only allowed at the beginning of property names not counting the
    vendor prefix. *)
Definition strict_name (accept name : list byte) : bool :=
  let n := strspn accept name in
  if n =? zlen name then true
  else if streq name (str "device_type") then true
  else
    let name :=
      if bool_decide (name !! Z.to_nat n = Some "#"%byte) &&
         ((n =? 0) || bool_decide (name !! Z.to_nat (n - 1) = Some ","%byte))
      then drop (Z.to_nat (n + 1)) name else name in
    strspn accept name =? zlen name.

Definition check_property_name_chars_strict (accept : list byte) : check_fn := fun c pos s =>
  let! n := node_of s pos in
  foreach (fun prop s => if strict_name accept (p_name prop) then Ret s else fail_prop c pos (Some prop) s)
    (live_props n) s.

(** ** Labels: a label's owner is a node, one of its properties or a marker in
    the property's value, the last two by index *)

Definition owner : Type := list nat * option nat * option nat.

Definition label_owner (dt : node) (label : list byte) : res (option owner) :=
  let! othernode := get_node_by_label dt label in
  match othernode with
  | Some pos => Ret (Some (pos, None, None))
  | None =>
    match get_property_by_label dt label with
    | Some (pos, (i, _)) => Ret (Some (pos, Some i, None))
    | None =>
      match get_marker_label dt label with
      | Some (pos, ((i, _), (j, _))) => Ret (Some (pos, Some i, Some j))
      | None => Ret None
      end
    end
  end.

Definition check_duplicate_label (c : string) (label : list byte) (pos : list nat) (prop mark : option nat)
    (s : cstate) : res cstate :=
  let! other := label_owner (cs_dt s) label in
  match other with
  | None => Ret s
  | Some other => if bool_decide (other = (pos, prop, mark)) then Ret s else fail c pos s
  end.

Definition check_duplicate_label_node : check_fn := fun c pos s =>
  let! n := node_of s pos in
  let! s := foreach (fun l s =>
    if l_deleted l then Ret s else check_duplicate_label c (l_label l) pos None None s) (n_labels n) s in
  foreach (fun '(i, prop) s =>
    if p_deleted prop then Ret s else
    let! s := foreach (fun l s =>
      if l_deleted l then Ret s else check_duplicate_label c (l_label l) pos (Some i) None s) (p_labels prop) s in
    foreach (fun '(j, m) s =>
      if bool_decide (m_type m = LABEL) then
        let! ref := nonnull (m_ref m) in check_duplicate_label c ref pos (Some i) (Some j) s
      else Ret s) (imap pair (d_markers (p_val prop))) s)
    (imap pair (n_proplist n)) s.

(** ** Phandles *)

Definition check_phandle_prop (c : string) (pos : list nat) (propname : list byte) (s : cstate) : res (Z * cstate) :=
  let! n := node_of s pos in
  match get_property n propname with
  | None => Ret (0, s)
  | Some prop =>
    if negb (d_len (p_val prop) =? 4) then let! s := fail_prop c pos (Some prop) s in Ret (0, s) else
    match find_first (fun m => bool_decide (m_type m = REF_PHANDLE)) (d_markers (p_val prop)) with
    | Some (_, m) =>
      let! _ := c_assert (m_offset m =? 0) in
      let! ref := nonnull (m_ref m) in
      let! refnode := get_node_by_ref (cs_dt s) ref in
      (* a reference to itself: the value will be filled in later *)
      let! s := if bool_decide (refnode = Some pos) then Ret s else fail c pos s in
      Ret (0, s)
    | None =>
      let! phandle := propval_cell prop in
      if (phandle =? 0) || (phandle =? 4294967295)
      then let! s := fail_prop c pos (Some prop) s in Ret (0, s)
      else Ret (phandle, s)
    end
  end.

Definition check_explicit_phandles : check_fn := fun c pos s =>
  let! n := node_of s pos in
  (* nothing should have assigned phandles yet *)
  let! _ := c_assert (n_phandle n =? 0) in
  let! '(phandle, s) := check_phandle_prop c pos (str "phandle") s in
  let! '(linux_phandle, s) := check_phandle_prop c pos (str "linux,phandle") s in
  if (phandle =? 0) && (linux_phandle =? 0) then Ret s else
  let! s := if negb (linux_phandle =? 0) && negb (phandle =? 0) && negb (phandle =? linux_phandle)
            then fail c pos s else Ret s in
  let phandle := if negb (linux_phandle =? 0) && (phandle =? 0) then linux_phandle else phandle in
  let! other := get_node_by_phandle (co_dtc o) (cs_dt s) phandle in
  if negb (is_null other) && negb (bool_decide (other = Some pos)) then fail c pos s
  else Ret (change_node pos (n_set_phandle phandle) s).

(** The first property of that name, deleted ones included. *)
Definition check_name_properties : check_fn := fun c pos s =>
  let! n := node_of s pos in
  match find_first (fun p => streq (p_name p) (str "name")) (n_proplist n) with
  | None => Ret s
  | Some (i, prop) =>
    let v := d_val (p_val prop) in
    if negb (zlen v =? n_basenamelen n + 1) ||
       negb (bool_decide (take (Z.to_nat (n_basenamelen n)) v = take (Z.to_nat (n_basenamelen n)) (n_name n)))
    then fail c pos s
    else
      (* the name property is correct, and therefore redundant *)
      Ret (change_node pos (fun n => n_set_proplist (take i (n_proplist n) ++ drop (S i) (n_proplist n)) n) s)
  end.

(** ** Reference fixup functions *)

(** A change of the value of a property, by index. *)
Definition change_val (i : nat) (d : data) (n : node) : node :=
  n_set_proplist (alter (fun p => Property (p_deleted p) (p_name p) d (p_labels p)) i (n_proplist n)) n.

(** The word at [off] of the value of a property. *)
Definition put_cell (pos : list nat) (i : nat) (off v : Z) (s : cstate) : res cstate :=
  let! n := node_of s pos in
  let! prop := nonnull (n_proplist n !! i) in
  let! d := data_put (p_val prop) off (be_enc32 v) in
  Ret (change_node pos (change_val i d) s).

(** One phandle reference: marker [m] of the [i]th property. *)
Definition fixup_phandle_reference (c : string) (pos : list nat) (i : nat) (m : marker) (s : cstate) : res cstate :=
  let! n := node_of s pos in
  let! prop := nonnull (n_proplist n !! i) in
  let! _ := c_assert (m_offset m + 4 <=? d_len (p_val prop)) in
  let! ref := nonnull (m_ref m) in
  let! refnode := get_node_by_ref (cs_dt s) ref in
  match refnode with
  | None =>
    if Z.land (dtsflags (cs_dti s)) DTSF_PLUGIN =? 0 then fail c pos s
    else put_cell pos i (m_offset m) 4294967295 s      (* mark the entry as unresolved *)
  | Some rpos =>
    let! '(phandle, dt, counter) := get_node_phandle (co_dtc o) (cs_dt s) rpos (cs_phandle s) in
    let s := cs_set_phandle counter (cs_set_dt dt s) in
    let! s := put_cell pos i (m_offset m) phandle s in
    Ret (change_node rpos reference_node s)
  end.

(** The loops go over the properties and markers the node has when they
    start: what is added on the way has no references. *)
Definition fixup_phandle_references : check_fn := fun c pos s =>
  let! n := node_of s pos in
  foreach (fun '(i, prop) s =>
    if p_deleted prop then Ret s else
    foreach (fun m s =>
      if bool_decide (m_type m = REF_PHANDLE) then fixup_phandle_reference c pos i m s else Ret s)
      (d_markers (p_val prop)) s) (imap pair (n_proplist n)) s.

(** One path reference: the [j]th marker, whose offset has moved with what was
    inserted before it. *)
Definition fixup_path_reference (c : string) (pos : list nat) (i j : nat) (s : cstate) : res cstate :=
  let! n := node_of s pos in
  let! prop := nonnull (n_proplist n !! i) in
  let! m := nonnull (d_markers (p_val prop) !! j) in
  let! _ := c_assert (m_offset m <=? d_len (p_val prop)) in
  let! ref := nonnull (m_ref m) in
  let! refnode := get_node_by_ref (cs_dt s) ref in
  match refnode with
  | None => fail c pos s
  | Some rpos =>
    let! r := node_of s rpos in
    let! d := data_insert_at_marker (p_val prop) j (n_fullpath r ++ [x00]) in
    Ret (change_node rpos reference_node (change_node pos (change_val i d) s))
  end.

Definition fixup_path_references : check_fn := fun c pos s =>
  let! n := node_of s pos in
  foreach (fun '(i, prop) s =>
    if p_deleted prop then Ret s else
    foreach (fun '(j, m) s =>
      if bool_decide (m_type m = REF_PATH) then fixup_path_reference c pos i j s else Ret s)
      (imap pair (d_markers (p_val prop))) s) (imap pair (n_proplist n)) s.

Definition fixup_omit_unused_nodes : check_fn := fun c pos s =>
  let! n := node_of s pos in
  if generate_symbols o && negb (bool_decide (n_labels n = [])) then Ret s else
  if n_omit_if_unused n && negb (n_is_referenced n) then Ret (change_node pos delete_node s) else Ret s.

(** ** Semantic checks *)

Definition check_names_is_string_list : check_fn := fun c pos s =>
  let! n := node_of s pos in
  foreach (fun prop s =>
    if strends (p_name prop) (str "-names") then check_is_string_list (p_name prop) c pos s else Ret s)
    (live_props n) s.

Definition check_alias_paths : check_fn := fun c pos s =>
  let! n := node_of s pos in
  if negb (streq (n_name n) (str "aliases")) then Ret s else
  foreach (fun prop s =>
    if streq (p_name prop) (str "phandle") || streq (p_name prop) (str "linux,phandle") then Ret s else
    let! bad :=
      if val_null (p_val prop) then Ret true
      else let! path := val_str (p_val prop) in Ret (is_null (get_node_by_path (cs_dt s) path)) in
    if bad : bool then fail_prop c pos (Some prop) s else
    if strspn (LOWERCASE ++ DIGITS ++ str "-") (p_name prop) =? zlen (p_name prop) then Ret s else fail c pos s)
    (live_props n) s.

Definition set_addr_size (a z : Z) (n : node) : node :=
  Node (n_deleted n) (n_name_ n) (n_proplist n) (n_children n) (n_fullpath n) (n_basenamelen n) (n_phandle n)
    a z (n_labels n) (n_omit_if_unused n) (n_is_referenced n).

(** The value of a cell property as an [int], -1 without one. *)
Definition cells_prop (n : node) (name : list byte) : res Z :=
  match get_property n name with
  | None => Ret (-1)
  | Some prop => let! v := propval_cell prop in Ret (s32 v)
  end.

Definition fixup_addr_size_cells : check_fn := fun c pos s =>
  let! n := node_of s pos in
  let! a := cells_prop n (str "#address-cells") in
  let! z := cells_prop n (str "#size-cells") in
  Ret (change_node pos (set_addr_size a z) s).

Definition node_addr_cells (n : node) : Z := if n_addr_cells n =? -1 then 2 else n_addr_cells n.
Definition node_size_cells (n : node) : Z := if n_size_cells n =? -1 then 1 else n_size_cells n.

(** A number of cells in bytes: the sum is an [int], the product a [size_t]
    that is stored in an [int]. *)
Definition cells_bytes (n : Z) : Z := s32 (n * 4).

Definition check_reg_format : check_fn := fun c pos s =>
  let! n := node_of s pos in
  match get_property n (str "reg") with
  | None => Ret s
  | Some prop =>
    match parent_of pos with
    | None => fail c pos s
    | Some ppos =>
      let! parent := node_of s ppos in
      let! s := if d_len (p_val prop) =? 0 then fail_prop c pos (Some prop) s else Ret s in
      let! cells := sint (node_addr_cells parent + node_size_cells parent) in
      if is_multiple_of (d_len (p_val prop)) (cells_bytes cells) then Ret s else fail_prop c pos (Some prop) s
    end
  end.

Definition check_ranges_format (ranges : list byte) : check_fn := fun c pos s =>
  let! n := node_of s pos in
  match get_property n ranges with
  | None => Ret s
  | Some prop =>
    match parent_of pos with
    | None => fail_prop c pos (Some prop) s
    | Some ppos =>
      let! parent := node_of s ppos in
      let p_addr_cells := node_addr_cells parent in
      let p_size_cells := node_size_cells parent in
      let c_addr_cells := node_addr_cells n in
      let c_size_cells := node_size_cells n in
      let! cells := sint (p_addr_cells + c_addr_cells) in
      let! cells := sint (cells + c_size_cells) in
      if d_len (p_val prop) =? 0 then
        let! s := if p_addr_cells =? c_addr_cells then Ret s else fail_prop c pos (Some prop) s in
        if p_size_cells =? c_size_cells then Ret s else fail_prop c pos (Some prop) s
      else if is_multiple_of (d_len (p_val prop)) (cells_bytes cells) then Ret s
      else fail_prop c pos (Some prop) s
    end
  end.
End fns.
