(* ===== verification/DtcBusChecks.v ===== *)
(** dtc/checks.c, continued: buses, unit addresses, the chosen node, references
    with arguments, interrupts and graphs. *)
From stdpp Require Import strings gmap.
From S2P Require Import Prelude Monad Ctype DtcUtil DtcData DtcTree DtcGen DtcFlat DtcChecks.
From S2P Require Import DtcCheckFns.
Open Scope Z_scope.

Section fns.
Context (o : check_opts).

Let fail := fail o.
Let fail_prop := fail_prop o.

(** [strprefixeq(a, n, b)]: the comparison stops at the first difference. *)
Definition strprefixeq (a : list byte) (n : Z) (b : list byte) : bool :=
  (zlen b =? n) && bool_decide (take (Z.to_nat n) (a ++ [x00]) = b).

(** The [i]th cell at [prop->val.val]. *)
Definition cell_at (prop : property) (i : Z) : res Z := dtb_ld32 (d_val (p_val prop)) (4 * i).

Definition bus_of (s : cstate) (pos : list nat) : option bus_type := cs_bus s !! pos.

(** The node's parent when it is on that bus. *)
Definition on_bus (b : bus_type) (s : cstate) (pos : list nat) : option (list nat) :=
  ppos ← parent_of pos; if bool_decide (bus_of s ppos = Some b) then Some ppos else None.

Definition fail_if (b : bool) (c : string) (pos : list nat) (s : cstate) : res cstate :=
  if b then fail c pos s else Ret s.
Definition fail_prop_if (b : bool) (c : string) (pos : list nat) (prop : option property) (s : cstate) : res cstate :=
  if b then fail_prop c pos prop s else Ret s.

(** ** PCI *)

Definition check_pci_bridge : check_fn := fun c pos s =>
  let! n := node_of s pos in
  match get_property n (str "device_type") with
  | None => Ret s
  | Some prop =>
    let! pci := streq_at (str "pci") (d_val (p_val prop)) in
    if negb pci then Ret s else
    let s := cs_set_bus pos pci_bus s in
    let! s := fail_if (negb (strprefixeq (n_name n) (n_basenamelen n) (str "pci")) &&
                       negb (strprefixeq (n_name n) (n_basenamelen n) (str "pcie"))) c pos s in
    let! s := fail_if (is_null (get_property n (str "ranges"))) c pos s in
    let! s := fail_if (negb (node_addr_cells n =? 3)) c pos s in
    let! s := fail_if (negb (node_size_cells n =? 2)) c pos s in
    match get_property n (str "bus-range") with
    | None => Ret s
    | Some prop =>
      if negb (d_len (p_val prop) =? 8) then fail_prop c pos (Some prop) s else
      let! c0 := cell_at prop 0 in
      let! c1 := cell_at prop 1 in
      let! s := fail_prop_if (c1 <? c0) c pos (Some prop) s in
      fail_prop_if (255 <? c1) c pos (Some prop) s
    end
  end.

(** Both bounds are read from the first cell. *)
Definition check_pci_device_bus_num : check_fn := fun c pos s =>
  match on_bus pci_bus s pos with
  | None => Ret s
  | Some ppos =>
    let! n := node_of s pos in
    match get_property n (str "reg") with
    | None => Ret s
    | Some prop =>
      let! c0 := cell_at prop 0 in
      let bus_num := Z.shiftr (Z.land c0 16711680) 16 in
      let! parent := node_of s ppos in
      let prop := get_property parent (str "bus-range") in
      let! '(min_bus, max_bus) :=
        match prop with
        | None => Ret (0, 0)
        | Some prop => let! c0 := cell_at prop 0 in Ret (c0, c0)
        end in
      fail_prop_if ((bus_num <? min_bus) || (max_bus <? bus_num)) c pos prop s
    end
  end.

Definition check_pci_device_reg : check_fn := fun c pos s =>
  match on_bus pci_bus s pos with
  | None => Ret s
  | Some _ =>
    let! n := node_of s pos in
    let unitname := get_unitname n in
    match get_property n (str "reg") with
    | None => Ret s
    | Some prop =>
      let! c1 := cell_at prop 1 in
      let! bad := if negb (c1 =? 0) then Ret true else let! c2 := cell_at prop 2 in Ret (negb (c2 =? 0)) in
      let! s := fail_prop_if bad c pos (Some prop) s in
      let! reg := cell_at prop 0 in
      let dev := Z.shiftr (Z.land reg 63488) 11 in
      let func := Z.shiftr (Z.land reg 1792) 8 in
      let! s := fail_prop_if (negb (Z.land reg 4278190080 =? 0)) c pos (Some prop) s in
      let! s := fail_prop_if (negb (Z.land reg 255 =? 0)) c pos (Some prop) s in
      if (func =? 0) && streq unitname (fmt_x 0 dev) then Ret s else
      if streq unitname (fmt_x 0 dev ++ ","%byte :: fmt_x 0 func) then Ret s else fail c pos s
    end
  end.

(** ** Simple buses *)

(** The strings of the value, one after the other; [fuel] bounds their
    number. *)
Fixpoint any_compatible (fuel : nat) (compat v : list byte) : res bool :=
  match fuel, v with
  | S fuel, _ :: _ =>
    let! b := streq_at compat v in
    if b : bool then Ret true else
    match split_char x00 v with Some (_, rest) => any_compatible fuel compat rest | None => Ret false end
  | _, _ => Ret false
  end.

Definition node_is_compatible (n : node) (compat : list byte) : res bool :=
  match get_property n (str "compatible") with
  | None => Ret false
  | Some prop => any_compatible (length (d_val (p_val prop))) compat (d_val (p_val prop))
  end.

Definition check_simple_bus_bridge : check_fn := fun c pos s =>
  let! n := node_of s pos in
  let! b := node_is_compatible n (str "simple-bus") in
  Ret (if b : bool then cs_set_bus pos simple_bus s else s).

(** The [size] cells from the [i]th as one 64-bit number. *)
Definition read_reg (prop : property) (i size : Z) : res Z :=
  loop (fun '(size, i, reg) =>
    if size =? 0 then Ret (Break reg) else
    let! v := cell_at prop i in
    Ret (Continue (u32 (size - 1), i + 1, Z.lor (u64 (Z.shiftl reg 32)) v))) (u32 size, i, 0).

Definition check_simple_bus_reg : check_fn := fun c pos s =>
  match on_bus simple_bus s pos with
  | None => Ret s
  | Some ppos =>
    let! n := node_of s pos in
    let unitname := get_unitname n in
    let cells :=
      match get_property n (str "reg") with
      | Some prop => if val_null (p_val prop) then None else Some (prop, 0)
      | None =>
        match get_property n (str "ranges") with
        | Some prop => if d_len (p_val prop) =? 0 then None else
                       Some (prop, node_addr_cells n)    (* skip of child address *)
        | None => None
        end
      end in
    match cells with
    | None =>
      fail_if (negb (is_null (parent_of ppos)) && negb (bool_decide (bus_of s pos = Some simple_bus))) c pos s
    | Some (prop, i) =>
      let! parent := node_of s ppos in
      let! reg := read_reg prop i (node_addr_cells parent) in
      fail_if (negb (streq unitname (fmt_x 0 reg))) c pos s
    end
  end.

(** ** I2C and SPI *)

(** A child is compared over the node's own base name length. *)
Definition check_i2c_bus_bridge : check_fn := fun c pos s =>
  let! n := node_of s pos in
  let named s := strprefixeq (n_name n) (n_basenamelen n) (str s) in
  let bus :=
    if named "i2c-bus"%string || named "i2c-arb"%string then true
    else if named "i2c"%string then
      negb (existsb (fun '(_, child) => strprefixeq (n_name child) (n_basenamelen n) (str "i2c-bus")) (live_children pos n))
    else false in
  if negb bus then Ret s else
  let s := cs_set_bus pos i2c_bus s in
  match n_children n with
  | [] => Ret s
  | _ =>
    let! s := fail_if (negb (node_addr_cells n =? 1)) c pos s in
    fail_if (negb (node_size_cells n =? 0)) c pos s
  end.

Definition I2C_OWN_SLAVE_ADDRESS : Z := 1073741824.
Definition I2C_TEN_BIT_ADDRESS : Z := 2147483648.

(** The checks of every cell; the last may be a part of one. *)
Definition i2c_addresses (c : string) (pos : list nat) (prop : property) (s : cstate) : res cstate :=
  loop (fun '(len, i, s) =>
    if len <=? 0 then Ret (Break s) else
    let! reg := cell_at prop i in
    let reg := Z.land reg (u32 (Z.lnot I2C_OWN_SLAVE_ADDRESS)) in
    let! s :=
      if negb (Z.land reg I2C_TEN_BIT_ADDRESS =? 0) && (1023 <? Z.land reg (u32 (Z.lnot I2C_TEN_BIT_ADDRESS)))
      then fail_prop c pos (Some prop) s
      else fail_prop_if (127 <? reg) c pos (Some prop) s in
    Ret (Continue (len - 4, i + 1, s))) (d_len (p_val prop), 0, s).

Definition check_i2c_bus_reg : check_fn := fun c pos s =>
  match on_bus i2c_bus s pos with
  | None => Ret s
  | Some _ =>
    let! n := node_of s pos in
    match get_property n (str "reg") with
    | None => fail c pos s
    | Some prop =>
      if val_null (p_val prop) then fail c pos s else
      let! reg := cell_at prop 0 in
      let reg := Z.land reg (u32 (Z.lnot I2C_OWN_SLAVE_ADDRESS)) in
      let! s := fail_if (negb (streq (get_unitname n) (fmt_x 0 reg))) c pos s in
      i2c_addresses c pos prop s
    end
  end.

(** A child with a property of the SPI bindings. *)
Definition has_spi_child (pos : list nat) (n : node) : bool :=
  existsb (fun '(_, child) => existsb (fun prop => strprefixeq (p_name prop) 4 (str "spi-")) (live_props child))
    (live_children pos n).

Definition check_spi_bus_bridge : check_fn := fun c pos s =>
  let! n := node_of s pos in
  let! r :=
    if strprefixeq (n_name n) (n_basenamelen n) (str "spi") then Ret (Some (cs_set_bus pos spi_bus s))
    else if negb (node_addr_cells n =? 1) || negb (node_size_cells n =? 0) then Ret None
    else
      let s := if has_spi_child pos n then cs_set_bus pos spi_bus s else s in
      let! s := fail_if (bool_decide (bus_of s pos = Some spi_bus) && negb (is_null (get_property n (str "reg")))) c pos s in
      Ret (Some s) in
  match r with
  | None => Ret s
  | Some s =>
    if negb (bool_decide (bus_of s pos = Some spi_bus)) || Nat.eqb (length (n_children n)) 0 then Ret s else
    let spi_addr_cells := if is_null (get_property n (str "spi-slave")) then 1 else 0 in
    let! s := fail_if (negb (node_addr_cells n =? spi_addr_cells)) c pos s in
    fail_if (negb (node_size_cells n =? 0)) c pos s
  end.

Definition check_spi_bus_reg : check_fn := fun c pos s =>
  match on_bus spi_bus s pos with
  | None => Ret s
  | Some ppos =>
    let! n := node_of s pos in
    let! parent := node_of s ppos in
    if negb (is_null (get_property parent (str "spi-slave"))) then Ret s else
    match get_property n (str "reg") with
    | None => fail c pos s
    | Some prop =>
      if val_null (p_val prop) then fail c pos s else
      let! reg := cell_at prop 0 in
      fail_if (negb (streq (get_unitname n) (fmt_x 0 reg))) c pos s
    end
  end.

Definition isxdigit (c : byte) : bool := is_base_digit 16 c.

Definition check_unit_address_format : check_fn := fun c pos s =>
  let! n := node_of s pos in
  let unitname := get_unitname n in
  let parent_bus := ppos ← parent_of pos; bus_of s ppos in
  if negb (is_null parent_bus) then Ret s else
  if bool_decide (unitname = []) then Ret s else
  let! '(unitname, s) :=
    match strip_prefix (str "0x") unitname with
    | Some rest => let! s := fail c pos s in Ret (rest, s)    (* skip over 0x for next test *)
    | None => Ret (unitname, s)
    end in
  match unitname with
  | "0"%byte :: x :: _ => fail_if (isxdigit x) c pos s
  | _ => Ret s
  end.

(** ** Style checks *)

Definition check_avoid_default_addr_size : check_fn := fun c pos s =>
  match parent_of pos with
  | None => Ret s
  | Some ppos =>
    let! n := node_of s pos in
    if is_null (get_property n (str "reg")) && is_null (get_property n (str "ranges")) then Ret s else
    let! parent := node_of s ppos in
    let! s := fail_if (n_addr_cells parent =? -1) c pos s in
    fail_if (n_size_cells parent =? -1) c pos s
  end.

Definition check_avoid_unnecessary_addr_size : check_fn := fun c pos s =>
  let! n := node_of s pos in
  if is_null (parent_of pos) || (n_addr_cells n <? 0) || (n_size_cells n <? 0) then Ret s else
  if negb (is_null (get_property n (str "ranges"))) || Nat.eqb (length (n_children n)) 0 then Ret s else
  let has_reg := existsb (fun '(_, child) => negb (is_null (get_property child (str "reg")))) (live_children pos n) in
  fail_if (negb has_reg) c pos s.

(** [strcmp] on a value that was never allocated is a NULL dereference. *)
Definition node_is_disabled (n : node) : res bool :=
  match get_property n (str "status") with
  | None => Ret false
  | Some prop => streq_at (str "disabled") (d_val (p_val prop))
  end.

(** The earlier children with the address of [childa]. *)
Fixpoint same_address (disable_check : bool) (c : string) (addr_a : list byte) (posa : list nat)
    (cs : list (list nat * node)) (s : cstate) : res cstate :=
  match cs with
  | [] => Ret s
  | (posb, childb) :: cs =>
    if bool_decide (posa = posb) then Ret s else
    let! skip := if disable_check then node_is_disabled childb else Ret false in
    let! s := if skip : bool then Ret s else fail_if (streq addr_a (get_unitname childb)) c posb s in
    same_address disable_check c addr_a posa cs s
  end.

Definition check_unique_unit_address_common (disable_check : bool) : check_fn := fun c pos s =>
  let! n := node_of s pos in
  if (n_addr_cells n <? 0) || (n_size_cells n <? 0) then Ret s else
  let cs := live_children pos n in
  foreach (fun '(posa, childa) s =>
    let addr_a := get_unitname childa in
    if bool_decide (addr_a = []) then Ret s else
    let! skip := if disable_check then node_is_disabled childa else Ret false in
    if skip : bool then Ret s else same_address disable_check c addr_a posa cs s) cs s.

Definition check_unique_unit_address : check_fn := check_unique_unit_address_common false.
Definition check_unique_unit_address_if_enabled : check_fn := check_unique_unit_address_common true.

(** ** The chosen node *)

Definition check_obsolete_chosen_interrupt_controller : check_fn := fun c pos s =>
  if negb (bool_decide (pos = [])) then Ret s else
  match get_node_by_path (cs_dt s) (str "/chosen") with
  | None => Ret s
  | Some cpos =>
    let! chosen := node_of s cpos in
    match get_property chosen (str "interrupt-controller") with
    | Some prop => fail_prop c pos (Some prop) s
    | None => Ret s
    end
  end.

Definition check_chosen_node_is_root : check_fn := fun c pos s =>
  let! n := node_of s pos in
  if negb (streq (n_name n) (str "chosen")) then Ret s else
  fail_if (negb (bool_decide (parent_of pos = Some []))) c pos s.

Definition check_chosen_node_bootargs : check_fn := fun c pos s =>
  let! n := node_of s pos in
  if negb (streq (n_name n) (str "chosen")) then Ret s else
  match get_property n (str "bootargs") with
  | None => Ret s
  | Some prop => check_is_string o (p_name prop) c pos s
  end.

Definition check_chosen_node_stdout_path : check_fn := fun c pos s =>
  let! n := node_of s pos in
  if negb (streq (n_name n) (str "chosen")) then Ret s else
  match get_property n (str "stdout-path") with
  | Some prop => check_is_string o (p_name prop) c pos s
  | None =>
    match get_property n (str "linux,stdout-path") with
    | None => Ret s
    | Some prop =>
      let! s := fail_prop c pos (Some prop) s in
      check_is_string o (p_name prop) c pos s
    end
  end.

(** ** References with arguments *)

Record provider := Provider {
  prop_name : list byte;
  cell_name : list byte;
  optional : bool;
}.

Definition is_plugin (s : cstate) : bool := negb (Z.land (dtsflags (cs_dti s)) DTSF_PLUGIN =? 0).

(** The value has markers, but no phandle reference at that cell. *)
Definition not_a_reference (prop : property) (cell : Z) : bool :=
  negb (Nat.eqb (length (d_markers (p_val prop))) 0) &&
  negb (existsb (fun m => bool_decide (m_type m = REF_PHANDLE) && (m_offset m =? u64 (cell * 4))) (d_markers (p_val prop))).

(** One round of the loop over the references of [prop]. *)
Definition phandle_args_step (pr : provider) (prop : property) (c : string) (pos : list nat)
    (st : Z * Z * cstate) : res (ctl (Z * Z * cstate) cstate) :=
  let '(cell, cellsize, s) := st in
  let next cellsize s :=
    let! cell := sint (cell + (cellsize + 1)) in Ret (Continue (cell, cellsize, s)) in
  (* cell is compared as a size_t *)
  if negb (u64 cell <? d_len (p_val prop) / 4) then Ret (Break s) else
  let! phandle := propval_cell_n prop (u32 cell) in
  if (phandle =? 0) || (phandle =? 4294967295) then
    if is_plugin s then Ret (Break s) else next 0 s
  else
  (* If we have markers, verify the current cell is a phandle *)
  let! s := fail_prop_if (not_a_reference prop cell) c pos (Some prop) s in
  let! provider_node := get_node_by_phandle (co_dtc o) (cs_dt s) phandle in
  match provider_node with
  | None => let! s := fail_prop c pos (Some prop) s in Ret (Break s)
  | Some ppos =>
    let! pn := node_of s ppos in
    let! r :=
      match get_property pn (cell_name pr) with
      | Some cellprop => let! v := propval_cell cellprop in Ret (Some (s32 v))
      | None => Ret (if optional pr then Some 0 else None)
      end in
    match r with
    | None => let! s := fail c pos s in Ret (Break s)
    | Some cellsize =>
      let! sum := sint (cell + cellsize) in
      let! sum := sint (sum + 1) in
      let! s := fail_prop_if (d_len (p_val prop) <? u64 (sum * 4)) c pos (Some prop) s in
      next cellsize s
    end
  end.

Definition check_property_phandle_args (pr : provider) (prop : property) : check_fn := fun c pos s =>
  if negb (is_multiple_of (d_len (p_val prop)) 4) then fail_prop c pos (Some prop) s else
  loop (phandle_args_step pr prop c pos) (0, 0, s).

Definition check_provider_cells_property (pr : provider) : check_fn := fun c pos s =>
  let! n := node_of s pos in
  match get_property n (prop_name pr) with
  | None => Ret s
  | Some prop => check_property_phandle_args pr prop c pos s
  end.

Definition prop_is_gpio (prop : property) : bool :=
  if strends (p_name prop) (str ",nr-gpios") then false else
  strends (p_name prop) (str "-gpios") || streq (p_name prop) (str "gpios") ||
  strends (p_name prop) (str "-gpio") || streq (p_name prop) (str "gpio").

Definition check_gpios_property : check_fn := fun c pos s =>
  let! n := node_of s pos in
  (* Skip GPIO hog nodes which have 'gpios' property *)
  if negb (is_null (get_property n (str "gpio-hog"))) then Ret s else
  foreach (fun prop s =>
    if prop_is_gpio prop
    then check_property_phandle_args (Provider (p_name prop) (str "#gpio-cells") false) prop c pos s
    else Ret s) (live_props n) s.

Definition check_deprecated_gpio_property : check_fn := fun c pos s =>
  let! n := node_of s pos in
  foreach (fun prop s =>
    if negb (prop_is_gpio prop) then Ret s else
    fail_prop_if (strends (p_name prop) (str "gpio")) c pos (Some prop) s) (live_props n) s.

(** ** Interrupts *)

Definition node_is_interrupt_provider (n : node) : bool :=
  negb (is_null (get_property n (str "interrupt-controller"))) ||
  negb (is_null (get_property n (str "interrupt-map"))).

Definition check_interrupt_provider : check_fn := fun c pos s =>
  let! n := node_of s pos in
  if negb (node_is_interrupt_provider n) then Ret s else
  let! s := fail_if (is_null (get_property n (str "#interrupt-cells"))) c pos s in
  fail_if (is_null (get_property n (str "#address-cells"))) c pos s.

(** What the search for the interrupt parent ends with. *)
Inductive irq_search :=
| IrqDone                                (* the check returns *)
| IrqNode (pos : option (list nat)).     (* it goes on with this node *)

(** The search upwards from [pos]; [start] is the node of the check, [depth]
    the number of its ancestors left. *)
Fixpoint find_irq_node (depth : nat) (start pos : list nat) (c : string) (s : cstate) : res (irq_search * cstate) :=
  let! n := node_of s pos in
  if negb (bool_decide (pos = start)) && node_is_interrupt_provider n then Ret (IrqNode (Some pos), s) else
  match get_property n (str "interrupt-parent") with
  | Some prop =>
    let! phandle := propval_cell prop in
    if (phandle =? 0) || (phandle =? 4294967295) then
      if is_plugin s then Ret (IrqDone, s) else
      let! s := fail_prop c pos (Some prop) s in Ret (IrqNode None, s)
    else
      let! irq_node := get_node_by_phandle (co_dtc o) (cs_dt s) phandle in
      match irq_node with
      | None => let! s := fail_prop c pos (Some prop) s in Ret (IrqDone, s)
      | Some ipos =>
        let! irq := node_of s ipos in
        let! s := fail_if (negb (node_is_interrupt_provider irq)) c ipos s in
        Ret (IrqNode (Some ipos), s)
      end
  | None =>
    match depth, parent_of pos with
    | S depth, Some ppos => find_irq_node depth start ppos c s
    | _, _ => Ret (IrqNode None, s)
    end
  end.

Definition check_interrupts_property : check_fn := fun c pos s =>
  let! n := node_of s pos in
  match get_property n (str "interrupts") with
  | None => Ret s
  | Some irq_prop =>
    let! s := fail_prop_if (negb (is_multiple_of (d_len (p_val irq_prop)) 4)) c pos (Some irq_prop) s in
    let! '(r, s) := find_irq_node (length pos) pos pos c s in
    match r with
    | IrqDone => Ret s
    | IrqNode None => fail c pos s
    | IrqNode (Some ipos) =>
      let! irq := node_of s ipos in
      match get_property irq (str "#interrupt-cells") with
      | None => Ret s
      | Some prop =>
        let! v := propval_cell prop in
        let irq_cells := s32 v in
        fail_prop_if (negb (is_multiple_of (d_len (p_val irq_prop)) (cells_bytes irq_cells))) c pos (Some prop) s
      end
    end
  end.

(** ** Graphs *)

Definition check_graph_nodes : check_fn := fun c pos s =>
  let! n := node_of s pos in
  let is_endpoint '(_, child) := strprefixeq (n_name child) (n_basenamelen child) (str "endpoint") ||
                                negb (is_null (get_property child (str "remote-endpoint"))) in
  if negb (existsb is_endpoint (live_children pos n)) then Ret s else
  let s := cs_set_bus pos graph_port_bus s in
  (* The parent of 'port' nodes can be either 'ports' or a device *)
  let! ppos := nonnull (parent_of pos) in
  let! parent := node_of s ppos in
  Ret (if is_null (bus_of s ppos) &&
          (streq (n_name parent) (str "ports") || negb (is_null (get_property n (str "reg"))))
       then cs_set_bus ppos graph_ports_bus s else s).

(** The number of live children whose "reg", if any, is 0, or None when one is
    not. *)
Fixpoint zero_children (cs : list (list nat * node)) (cnt : Z) : res (option Z) :=
  match cs with
  | [] => Ret (Some cnt)
  | (_, child) :: cs =>
    let! nonzero :=
      match get_property child (str "reg") with
      | Some prop => let! v := propval_cell prop in Ret (negb (v =? 0))
      | None => Ret false
      end in
    if nonzero : bool then Ret None else zero_children cs (cnt + 1)
  end.

Definition check_graph_child_address : check_fn := fun c pos s =>
  let! n := node_of s pos in
  if negb (bool_decide (bus_of s pos = Some graph_ports_bus)) && negb (bool_decide (bus_of s pos = Some graph_port_bus))
  then Ret s else
  let! cnt := zero_children (live_children pos n) 0 in
  match cnt with
  | None => Ret s
  | Some cnt => fail_if ((cnt =? 1) && negb (n_addr_cells n =? -1)) c pos s
  end.

Definition check_graph_reg : check_fn := fun c pos s =>
  let! n := node_of s pos in
  match get_property n (str "reg") with
  | None => Ret s
  | Some prop =>
    if val_null (p_val prop) || negb (d_len (p_val prop) =? 4) then fail c pos s else
    let! v := propval_cell prop in
    let! s := fail_if (negb (streq (get_unitname n) (fmt_x 0 v))) c pos s in
    let! ppos := nonnull (parent_of pos) in
    let! parent := node_of s ppos in
    let! s := fail_prop_if (negb (n_addr_cells parent =? 1)) c pos (get_property n (str "#address-cells")) s in
    fail_prop_if (negb (n_size_cells parent =? 0)) c pos (get_property n (str "#size-cells")) s
  end.

Definition check_graph_port : check_fn := fun c pos s =>
  let! n := node_of s pos in
  if negb (bool_decide (bus_of s pos = Some graph_port_bus)) then Ret s else
  let! s := fail_if (negb (strprefixeq (n_name n) (n_basenamelen n) (str "port"))) c pos s in
  check_graph_reg c pos s.

Definition get_remote_endpoint (c : string) (endpoint : list nat) (s : cstate) : res (option (list nat) * cstate) :=
  let! n := node_of s endpoint in
  match get_property n (str "remote-endpoint") with
  | None => Ret (None, s)
  | Some prop =>
    let! phandle := propval_cell prop in
    (* Give up if this is an overlay with external references *)
    if (phandle =? 0) || (phandle =? 4294967295) then Ret (None, s) else
    let! r := get_node_by_phandle (co_dtc o) (cs_dt s) phandle in
    let! s := fail_prop_if (is_null r) c endpoint (Some prop) s in
    Ret (r, s)
  end.

Definition check_graph_endpoint : check_fn := fun c pos s =>
  match on_bus graph_port_bus s pos with
  | None => Ret s
  | Some _ =>
    let! n := node_of s pos in
    let! s := fail_if (negb (strprefixeq (n_name n) (n_basenamelen n) (str "endpoint"))) c pos s in
    let! s := check_graph_reg c pos s in
    let! '(remote, s) := get_remote_endpoint c pos s in
    match remote with
    | None => Ret s
    | Some rpos =>
      let! '(back, s) := get_remote_endpoint c rpos s in
      fail_if (negb (bool_decide (back = Some pos))) c pos s
    end
  end.
End fns.
