(* ===== verification/DtcCheckTable.v ===== *)
(** dtc/checks.c: the checks and the table dtc runs them from. What the source
    passes through a check's [data] is an argument of its function here. *)
From stdpp Require Import strings gmap.
From S2P Require Import Prelude Monad Ctype DtcUtil DtcData DtcTree DtcChecks DtcCheckFns DtcBusChecks.
Open Scope Z_scope.

Definition CHECK_ENTRY (nm : string) (fn : check_fn) (w e : bool) (prereqs : list check) : check := Check nm w e fn prereqs.
Definition WARNING (nm : string) (fn : check_fn) (prereqs : list check) : check := CHECK_ENTRY nm fn true false prereqs.
Definition ERROR (nm : string) (fn : check_fn) (prereqs : list check) : check := CHECK_ENTRY nm fn false true prereqs.
Definition CHECK (nm : string) (fn : check_fn) (prereqs : list check) : check := CHECK_ENTRY nm fn false false prereqs.

Section table.
Context (o : check_opts).

Definition always_fail : check := CHECK "always_fail" (check_always_fail o) [].
Definition duplicate_node_names : check := ERROR "duplicate_node_names" (check_duplicate_node_names o) [].
Definition duplicate_property_names : check := ERROR "duplicate_property_names" (check_duplicate_property_names o) [].
Definition node_name_chars : check := ERROR "node_name_chars" (check_node_name_chars o NODECHARS) [].
Definition node_name_chars_strict : check :=
  CHECK "node_name_chars_strict" (check_node_name_chars_strict o PROPNODECHARSSTRICT) [].
Definition node_name_format : check := ERROR "node_name_format" (check_node_name_format o) [node_name_chars].
Definition node_name_vs_property_name : check :=
  WARNING "node_name_vs_property_name" (check_node_name_vs_property_name o) [node_name_chars].
Definition unit_address_vs_reg : check := WARNING "unit_address_vs_reg" (check_unit_address_vs_reg o) [].
Definition property_name_chars : check := ERROR "property_name_chars" (check_property_name_chars o PROPCHARS) [].
Definition property_name_chars_strict : check :=
  CHECK "property_name_chars_strict" (check_property_name_chars_strict o PROPNODECHARSSTRICT) [].
Definition duplicate_label : check := ERROR "duplicate_label" (check_duplicate_label_node o) [].
Definition explicit_phandles : check := ERROR "explicit_phandles" (check_explicit_phandles o) [].
Definition name_is_string : check := ERROR "name_is_string" (check_is_string o (str "name")) [].
Definition name_properties : check := ERROR "name_properties" (check_name_properties o) [name_is_string].
Definition phandle_references : check :=
  ERROR "phandle_references" (fixup_phandle_references o) [duplicate_node_names; explicit_phandles].
Definition path_references : check := ERROR "path_references" (fixup_path_references o) [duplicate_node_names].
Definition omit_unused_nodes : check :=
  ERROR "omit_unused_nodes" (fixup_omit_unused_nodes o) [phandle_references; path_references].
Definition address_cells_is_cell : check :=
  WARNING "address_cells_is_cell" (check_is_cell o (str "#address-cells")) [].
Definition size_cells_is_cell : check := WARNING "size_cells_is_cell" (check_is_cell o (str "#size-cells")) [].
Definition device_type_is_string : check :=
  WARNING "device_type_is_string" (check_is_string o (str "device_type")) [].
Definition model_is_string : check := WARNING "model_is_string" (check_is_string o (str "model")) [].
Definition status_is_string : check := WARNING "status_is_string" (check_is_string o (str "status")) [].
Definition label_is_string : check := WARNING "label_is_string" (check_is_string o (str "label")) [].
Definition compatible_is_string_list : check :=
  WARNING "compatible_is_string_list" (check_is_string_list o (str "compatible")) [].
Definition names_is_string_list : check := WARNING "names_is_string_list" (check_names_is_string_list o) [].
Definition alias_paths : check := WARNING "alias_paths" (check_alias_paths o) [].
Definition addr_size_cells : check :=
  WARNING "addr_size_cells" fixup_addr_size_cells [address_cells_is_cell; size_cells_is_cell].
Definition reg_format : check := WARNING "reg_format" (check_reg_format o) [addr_size_cells].
Definition ranges_format : check := WARNING "ranges_format" (check_ranges_format o (str "ranges")) [addr_size_cells].
Definition dma_ranges_format : check :=
  WARNING "dma_ranges_format" (check_ranges_format o (str "dma-ranges")) [addr_size_cells].
Definition pci_bridge : check := WARNING "pci_bridge" (check_pci_bridge o) [device_type_is_string; addr_size_cells].
Definition pci_device_bus_num : check :=
  WARNING "pci_device_bus_num" (check_pci_device_bus_num o) [reg_format; pci_bridge].
Definition pci_device_reg : check := WARNING "pci_device_reg" (check_pci_device_reg o) [reg_format; pci_bridge].
Definition simple_bus_bridge : check :=
  WARNING "simple_bus_bridge" check_simple_bus_bridge [addr_size_cells; compatible_is_string_list].
Definition simple_bus_reg : check :=
  WARNING "simple_bus_reg" (check_simple_bus_reg o) [reg_format; simple_bus_bridge].
Definition i2c_bus_bridge : check := WARNING "i2c_bus_bridge" (check_i2c_bus_bridge o) [addr_size_cells].
Definition i2c_bus_reg : check := WARNING "i2c_bus_reg" (check_i2c_bus_reg o) [reg_format; i2c_bus_bridge].
Definition spi_bus_bridge : check := WARNING "spi_bus_bridge" (check_spi_bus_bridge o) [addr_size_cells].
Definition spi_bus_reg : check := WARNING "spi_bus_reg" (check_spi_bus_reg o) [reg_format; spi_bus_bridge].
Definition unit_address_format : check :=
  WARNING "unit_address_format" (check_unit_address_format o) [node_name_format; pci_bridge; simple_bus_bridge].
Definition avoid_default_addr_size : check :=
  WARNING "avoid_default_addr_size" (check_avoid_default_addr_size o) [addr_size_cells].
Definition avoid_unnecessary_addr_size : check :=
  WARNING "avoid_unnecessary_addr_size" (check_avoid_unnecessary_addr_size o) [avoid_default_addr_size].
Definition unique_unit_address : check :=
  WARNING "unique_unit_address" (check_unique_unit_address o) [avoid_default_addr_size].
Definition unique_unit_address_if_enabled : check :=
  CHECK_ENTRY "unique_unit_address_if_enabled" (check_unique_unit_address_if_enabled o) false false [avoid_default_addr_size].
Definition obsolete_chosen_interrupt_controller : check :=
  WARNING "obsolete_chosen_interrupt_controller" (check_obsolete_chosen_interrupt_controller o) [].
Definition chosen_node_is_root : check := WARNING "chosen_node_is_root" (check_chosen_node_is_root o) [].
Definition chosen_node_bootargs : check := WARNING "chosen_node_bootargs" (check_chosen_node_bootargs o) [].
Definition chosen_node_stdout_path : check := WARNING "chosen_node_stdout_path" (check_chosen_node_stdout_path o) [].
Definition clocks_provider : provider := Provider (str "clocks") (str "#clock-cells") false.
Definition clocks_is_cell : check := WARNING "clocks_is_cell" (check_is_cell o (str "#clock-cells")) [].
Definition clocks_property : check :=
  WARNING "clocks_property" (check_provider_cells_property o clocks_provider) [clocks_is_cell; phandle_references].
Definition cooling_device_provider : provider := Provider (str "cooling-device") (str "#cooling-cells") false.
Definition cooling_device_is_cell : check :=
  WARNING "cooling_device_is_cell" (check_is_cell o (str "#cooling-cells")) [].
Definition cooling_device_property : check :=
  WARNING "cooling_device_property" (check_provider_cells_property o cooling_device_provider) [cooling_device_is_cell; phandle_references].
Definition dmas_provider : provider := Provider (str "dmas") (str "#dma-cells") false.
Definition dmas_is_cell : check := WARNING "dmas_is_cell" (check_is_cell o (str "#dma-cells")) [].
Definition dmas_property : check :=
  WARNING "dmas_property" (check_provider_cells_property o dmas_provider) [dmas_is_cell; phandle_references].
Definition hwlocks_provider : provider := Provider (str "hwlocks") (str "#hwlock-cells") false.
Definition hwlocks_is_cell : check := WARNING "hwlocks_is_cell" (check_is_cell o (str "#hwlock-cells")) [].
Definition hwlocks_property : check :=
  WARNING "hwlocks_property" (check_provider_cells_property o hwlocks_provider) [hwlocks_is_cell; phandle_references].
Definition interrupts_extended_provider : provider := Provider (str "interrupts-extended") (str "#interrupt-cells") false.
Definition interrupts_extended_is_cell : check :=
  WARNING "interrupts_extended_is_cell" (check_is_cell o (str "#interrupt-cells")) [].
Definition interrupts_extended_property : check :=
  WARNING "interrupts_extended_property" (check_provider_cells_property o interrupts_extended_provider) [interrupts_extended_is_cell; phandle_references].
Definition io_channels_provider : provider := Provider (str "io-channels") (str "#io-channel-cells") false.
Definition io_channels_is_cell : check :=
  WARNING "io_channels_is_cell" (check_is_cell o (str "#io-channel-cells")) [].
Definition io_channels_property : check :=
  WARNING "io_channels_property" (check_provider_cells_property o io_channels_provider) [io_channels_is_cell; phandle_references].
Definition iommus_provider : provider := Provider (str "iommus") (str "#iommu-cells") false.
Definition iommus_is_cell : check := WARNING "iommus_is_cell" (check_is_cell o (str "#iommu-cells")) [].
Definition iommus_property : check :=
  WARNING "iommus_property" (check_provider_cells_property o iommus_provider) [iommus_is_cell; phandle_references].
Definition mboxes_provider : provider := Provider (str "mboxes") (str "#mbox-cells") false.
Definition mboxes_is_cell : check := WARNING "mboxes_is_cell" (check_is_cell o (str "#mbox-cells")) [].
Definition mboxes_property : check :=
  WARNING "mboxes_property" (check_provider_cells_property o mboxes_provider) [mboxes_is_cell; phandle_references].
Definition msi_parent_provider : provider := Provider (str "msi-parent") (str "#msi-cells") true.
Definition msi_parent_is_cell : check := WARNING "msi_parent_is_cell" (check_is_cell o (str "#msi-cells")) [].
Definition msi_parent_property : check :=
  WARNING "msi_parent_property" (check_provider_cells_property o msi_parent_provider) [msi_parent_is_cell; phandle_references].
Definition mux_controls_provider : provider := Provider (str "mux-controls") (str "#mux-control-cells") false.
Definition mux_controls_is_cell : check :=
  WARNING "mux_controls_is_cell" (check_is_cell o (str "#mux-control-cells")) [].
Definition mux_controls_property : check :=
  WARNING "mux_controls_property" (check_provider_cells_property o mux_controls_provider) [mux_controls_is_cell; phandle_references].
Definition phys_provider : provider := Provider (str "phys") (str "#phy-cells") false.
Definition phys_is_cell : check := WARNING "phys_is_cell" (check_is_cell o (str "#phy-cells")) [].
Definition phys_property : check :=
  WARNING "phys_property" (check_provider_cells_property o phys_provider) [phys_is_cell; phandle_references].
Definition power_domains_provider : provider := Provider (str "power-domains") (str "#power-domain-cells") false.
Definition power_domains_is_cell : check :=
  WARNING "power_domains_is_cell" (check_is_cell o (str "#power-domain-cells")) [].
Definition power_domains_property : check :=
  WARNING "power_domains_property" (check_provider_cells_property o power_domains_provider) [power_domains_is_cell; phandle_references].
Definition pwms_provider : provider := Provider (str "pwms") (str "#pwm-cells") false.
Definition pwms_is_cell : check := WARNING "pwms_is_cell" (check_is_cell o (str "#pwm-cells")) [].
Definition pwms_property : check :=
  WARNING "pwms_property" (check_provider_cells_property o pwms_provider) [pwms_is_cell; phandle_references].
Definition resets_provider : provider := Provider (str "resets") (str "#reset-cells") false.
Definition resets_is_cell : check := WARNING "resets_is_cell" (check_is_cell o (str "#reset-cells")) [].
Definition resets_property : check :=
  WARNING "resets_property" (check_provider_cells_property o resets_provider) [resets_is_cell; phandle_references].
Definition sound_dai_provider : provider := Provider (str "sound-dai") (str "#sound-dai-cells") false.
Definition sound_dai_is_cell : check := WARNING "sound_dai_is_cell" (check_is_cell o (str "#sound-dai-cells")) [].
Definition sound_dai_property : check :=
  WARNING "sound_dai_property" (check_provider_cells_property o sound_dai_provider) [sound_dai_is_cell; phandle_references].
Definition thermal_sensors_provider : provider := Provider (str "thermal-sensors") (str "#thermal-sensor-cells") false.
Definition thermal_sensors_is_cell : check :=
  WARNING "thermal_sensors_is_cell" (check_is_cell o (str "#thermal-sensor-cells")) [].
Definition thermal_sensors_property : check :=
  WARNING "thermal_sensors_property" (check_provider_cells_property o thermal_sensors_provider) [thermal_sensors_is_cell; phandle_references].
Definition gpios_property : check := WARNING "gpios_property" (check_gpios_property o) [phandle_references].
Definition deprecated_gpio_property : check := CHECK "deprecated_gpio_property" (check_deprecated_gpio_property o) [].
Definition interrupt_provider : check := WARNING "interrupt_provider" (check_interrupt_provider o) [].
Definition interrupts_property : check := WARNING "interrupts_property" (check_interrupts_property o) [].
Definition graph_nodes : check := WARNING "graph_nodes" check_graph_nodes [].
Definition graph_child_address : check := WARNING "graph_child_address" (check_graph_child_address o) [graph_nodes].
Definition graph_port : check := WARNING "graph_port" (check_graph_port o) [graph_nodes].
Definition graph_endpoint : check := WARNING "graph_endpoint" (check_graph_endpoint o) [graph_nodes].

Definition check_table : list check := [
  duplicate_node_names; duplicate_property_names; node_name_chars; node_name_format; property_name_chars;
  name_is_string; name_properties; node_name_vs_property_name; duplicate_label; explicit_phandles;
  phandle_references; path_references; omit_unused_nodes; address_cells_is_cell; size_cells_is_cell;
  device_type_is_string; model_is_string; status_is_string; label_is_string; compatible_is_string_list;
  names_is_string_list; property_name_chars_strict; node_name_chars_strict; addr_size_cells; reg_format;
  ranges_format; dma_ranges_format; unit_address_vs_reg; unit_address_format; pci_bridge; pci_device_reg;
  pci_device_bus_num; simple_bus_bridge; simple_bus_reg; i2c_bus_bridge; i2c_bus_reg; spi_bus_bridge;
  spi_bus_reg; avoid_default_addr_size; avoid_unnecessary_addr_size; unique_unit_address;
  unique_unit_address_if_enabled; obsolete_chosen_interrupt_controller; chosen_node_is_root;
  chosen_node_bootargs; chosen_node_stdout_path; clocks_property; clocks_is_cell; cooling_device_property;
  cooling_device_is_cell; dmas_property; dmas_is_cell; hwlocks_property; hwlocks_is_cell;
  interrupts_extended_property; interrupts_extended_is_cell; io_channels_property; io_channels_is_cell;
  iommus_property; iommus_is_cell; mboxes_property; mboxes_is_cell; msi_parent_property; msi_parent_is_cell;
  mux_controls_property; mux_controls_is_cell; phys_property; phys_is_cell; power_domains_property;
  power_domains_is_cell; pwms_property; pwms_is_cell; resets_property; resets_is_cell; sound_dai_property;
  sound_dai_is_cell; thermal_sensors_property; thermal_sensors_is_cell; deprecated_gpio_property;
  gpios_property; interrupts_property; interrupt_provider; alias_paths; graph_nodes; graph_child_address;
  graph_port; graph_endpoint; always_fail].

(** The state the program starts with: no check has run. *)
Definition initial_checks : gmap string check_state :=
  list_to_map (map (fun c => (c_name c, CheckSt (c_warn c) (c_error c) UNCHECKED false)) check_table).

Definition initial_state (d : dt_info) : cstate := CState d 1 ∅ initial_checks [].
End table.
