(* ===== verification/DtcCheckSpec.v ===== *)
(** What a check may change: its own status, the log and the parts of nodes
    that are not their place in the tree. Every function of the table keeps to
    it. *)
From stdpp Require Import strings gmap.
From S2P Require Import Prelude Monad Ctype DtcUtil DtcData DtcTree DtcTreeSpec DtcGen DtcSort DtcChecks.
From S2P Require Import DtcCheckFns DtcBusChecks DtcCheckTable.
Open Scope Z_scope.

(** ** The shape of a tree: names and paths, with nodes deleted at most *)

Definition same_place (n n' : node) : Prop :=
  n_name_ n' = n_name_ n /\ n_fullpath n' = n_fullpath n /\ n_basenamelen n' = n_basenamelen n /\
  (n_deleted n = true -> n_deleted n' = true).

Inductive same_shape : node -> node -> Prop :=
| SameShape n n' : same_place n n' -> Forall2 same_shape (n_children n) (n_children n') -> same_shape n n'.

Lemma same_shape_inv n n' : same_shape n n' -> same_place n n' /\ Forall2 same_shape (n_children n) (n_children n').
Proof. by destruct 1. Qed.

#[export] Instance same_shape_refl : Reflexive same_shape.
Proof.
  intros n. induction n as [n IH] using node_ind'. constructor; [done|].
  induction IH; constructor; auto.
Qed.

Lemma same_shape_trans a : forall b c, same_shape a b -> same_shape b c -> same_shape a c.
Proof.
  induction a as [a IH] using node_ind'. intros b c [H1 H2]%same_shape_inv [H3 H4]%same_shape_inv. constructor.
  - destruct H1 as (A1 & A2 & A3 & A4), H3 as (B1 & B2 & B3 & B4).
    split; [|split; [|split]]; [congruence..|auto].
  - clear H1 H3. revert H2 H4. generalize (n_children b) (n_children c). induction IH as [|x l Hx Hl IHl]; intros lb lc H2 H4.
    + inversion H2; subst. inversion H4; subst. constructor.
    + inversion H2; subst. inversion H4; subst. constructor; eauto.
Qed.

#[export] Instance same_shape_transitive : Transitive same_shape.
Proof. intros a b c. apply same_shape_trans. Qed.

(** Changing a node without its place and its children. *)
Lemma same_shape_field n n' : same_place n n' -> n_children n' = n_children n -> same_shape n n'.
Proof. intros Hp Ec. constructor; [done|]. rewrite Ec. by induction (n_children n); constructor. Qed.

Lemma same_shape_update f pos : forall t,
  (forall n, node_at t pos = Some n -> same_shape n (f n)) -> same_shape t (update_at t pos f).
Proof.
  induction pos as [|i pos IH]; intros t Hf; cbn [update_at]; [by apply Hf|].
  constructor; [by destruct t|]. destruct t as [dl nm pl ch fp bl ph ac sc lb om rf]. cbn [n_set_children n_children].
  cbn [node_at n_children] in Hf. revert i Hf. induction ch as [|c ch IHc]; intros i Hf; [constructor|].
  destruct i as [|i]; cbn in Hf |- *; constructor; [by apply IH|by clear; induction ch; constructor|done|by apply IHc].
Qed.

Lemma same_shape_delete n : same_shape n (delete_node n).
Proof.
  induction n as [n IH] using node_ind'. destruct n as [dl nm pl ch fp bl ph ac sc lb om rf].
  constructor; [done|]. cbn [delete_node n_children] in *. induction IH as [|c ch Hc IH IHch]; cbn [map]; constructor; [|done].
  destruct (n_deleted c); [done|exact Hc].
Qed.

Lemma same_shape_at t t' : same_shape t t' -> forall pos,
  match node_at t pos, node_at t' pos with
  | Some n, Some n' => same_shape n n'
  | None, None => True
  | _, _ => False
  end.
Proof.
  intros Hs pos. revert t t' Hs. induction pos as [|i pos IH]; intros t t' Hs; cbn [node_at]; [done|].
  apply same_shape_inv in Hs as [_ Hc].
  rewrite Forall2_lookup in Hc. specialize (Hc i). inversion Hc; cbn [mbind option_bind]; [by apply IH|done].
Qed.

(** ** What the check named [c] may do to the state *)

Record own (c : string) (s s' : cstate) : Prop := Own {
  own_shape : same_shape (cs_dt s) (cs_dt s');
  own_rest :
    (cs_checks s' = cs_checks s /\ cs_log s' = cs_log s) \/
    (cs_checks s' = alter (set_status FAILED) c (cs_checks s) /\
     exists l, cs_log s' = cs_log s ++ l /\ Forall (fun m => msg_check m = c) l);
}.

Lemma own_refl c s : own c s s.
Proof. constructor; [done|by left]. Qed.

Lemma alter_failed_twice c (m : gmap string check_state) :
  alter (set_status FAILED) c (alter (set_status FAILED) c m) = alter (set_status FAILED) c m.
Proof.
  apply map_eq. intros k. destruct (decide (c = k)) as [->|Hk].
  - rewrite !lookup_alter_eq. by destruct (m !! k).
  - by rewrite !lookup_alter_ne.
Qed.

Lemma own_trans c s1 s2 s3 : own c s1 s2 -> own c s2 s3 -> own c s1 s3.
Proof.
  intros [H1 R1] [H2 R2]. constructor; [exact (same_shape_trans _ _ _ H1 H2)|].
  destruct R1 as [[E1 L1]|(E1 & l1 & L1 & F1)], R2 as [[E2 L2]|(E2 & l2 & L2 & F2)]; rewrite ?E1, ?L1 in *;
    [by left|right; eauto|right; rewrite E2, L2; eauto|].
  right. split; [by rewrite E2, alter_failed_twice|]. exists (l1 ++ l2). split; [by rewrite L2, app_assoc|]. by apply Forall_app.
Qed.

Lemma own_dt c s0 s t : own c s0 s -> same_shape (cs_dt s) t -> own c s0 (cs_set_dt t s).
Proof. intros H Ht. apply (own_trans _ _ _ _ H). constructor; [exact Ht|by left]. Qed.

Lemma own_bus c s0 s pos b : own c s0 s -> own c s0 (cs_set_bus pos b s).
Proof. intros H. apply (own_trans _ _ _ _ H). constructor; [done|by left]. Qed.

Lemma own_phandle c s0 s p : own c s0 s -> own c s0 (cs_set_phandle p s).
Proof. intros H. apply (own_trans _ _ _ _ H). constructor; [done|by left]. Qed.

Lemma own_change c s0 s pos f :
  own c s0 s -> (forall n, same_shape n (f n)) -> own c s0 (change_node pos f s).
Proof. intros H Hf. apply own_dt; [done|]. apply same_shape_update. auto. Qed.

Create HintDb own.
#[export] Hint Resolve own_refl own_bus own_phandle own_change : own.

Section own.
Context (o : check_opts) (c : string) (s0 : cstate).

Lemma own_failed pos prop s : own c s0 s ->
  wp any (check_msg o c pos prop (change_check c (set_status FAILED) s)) (own c s0).
Proof.
  intros H. unfold check_msg. apply wp_any_bind. intros k Hk.
  assert (Hs : own c s (change_check c (set_status FAILED) s)).
  { constructor; [done|]. right. split; [done|]. exists []. by rewrite app_nil_r. }
  destruct (negb _ && negb _).
  - apply (own_trans _ _ _ _ H Hs).
  - apply (own_trans _ _ _ _ H). constructor; [done|]. right. split; [done|]. eexists. split; [reflexivity|]. by repeat constructor.
Qed.

Lemma own_fail pos s : own c s0 s -> wp any (fail o c pos s) (own c s0).
Proof. apply own_failed. Qed.

Lemma own_fail_prop pos prop s : own c s0 s -> wp any (fail_prop o c pos prop s) (own c s0).
Proof. apply own_failed. Qed.

Lemma own_foreach {A} (f : A -> cstate -> res cstate) l : forall s,
  own c s0 s -> (forall x s, own c s0 s -> wp any (f x s) (own c s0)) -> wp any (foreach f l s) (own c s0).
Proof. intros s H Hf. revert s H. induction l as [|x l IH]; intros s H; cbn [foreach]; [done|]. eapply wp_seq; eauto. Qed.

(** Sequencing after a step that returns the state, alone or in a pair. *)
Lemma own_seq {B} (r : res cstate) k (Q : B -> Prop) :
  wp any r (own c s0) -> (forall s, own c s0 s -> wp any (k s) Q) -> wp any (rbind r k) Q.
Proof. apply wp_seq. Qed.

Lemma own_seq_pair {A B} (r : res (A * cstate)) k (Q : B -> Prop) :
  wp any r (fun p => own c s0 (snd p)) -> (forall x s, own c s0 s -> wp any (k (x, s)) Q) -> wp any (rbind r k) Q.
Proof. intros H Hk. eapply wp_seq; [exact H|]. intros [x s] Hs. by apply Hk. Qed.
End own.

(** One step through the body of a check. *)
Ltac own_step :=
  match goal with
  | |- wp any (Ret _) _ => apply wp_ret; cbn [snd]; eauto with own
  | |- wp any (Fault _) _ => exact I
  | |- wp any (fail _ _ _ _) _ => apply own_fail; auto with own
  | |- wp any (fail_prop _ _ _ _ _) _ => apply own_fail_prop; auto with own
  | |- wp any (fail_if _ _ _ _ _) _ => unfold fail_if
  | |- wp any (fail_prop_if _ _ _ _ _ _) _ => unfold fail_prop_if
  | |- wp any (foreach _ _ _) _ => apply own_foreach; [eauto with own|intros]
  | |- wp any (check_is_string _ _ _ _ _) _ => unfold check_is_string
  | |- wp any (check_is_string_list _ _ _ _ _) _ => unfold check_is_string_list
  | |- wp any (check_duplicate_label _ _ _ _ _ _ _) _ => unfold check_duplicate_label
  | |- wp any (check_phandle_prop _ _ _ _ _) _ => unfold check_phandle_prop
  | |- wp any (check_graph_reg _ _ _ _) _ => unfold check_graph_reg
  | |- wp any (get_remote_endpoint _ _ _ _) _ => unfold get_remote_endpoint
  | |- wp any (check_unique_unit_address_common _ _ _ _ _) _ => unfold check_unique_unit_address_common
  | |- wp any (match ?x with _ => _ end) _ => destruct x
  | |- wp any (match ?x with _ => _ end _) _ => destruct x
  | |- wp any (rbind ?r _) (own ?c ?s0) =>
      lazymatch type of r with
      | res cstate => apply (own_seq c s0); [|intros]
      | res (_ * cstate) => apply (own_seq_pair c s0); [|intros]
      | _ => apply wp_any_bind; intros
      end
  | |- wp any _ (own _ _) => solve [auto with own]
  | |- own _ _ (if ?b then _ else _) => destruct b
  | |- own _ _ _ => solve [auto with own]
  | |- wp any (rbind ?r _) (fun p => own ?c ?s0 (snd p)) =>
      lazymatch type of r with
      | res cstate => apply wp_seq with (P := own c s0); [|intros]
      | res (_ * cstate) => apply (own_seq_pair c s0); [|intros]
      | _ => apply wp_any_bind; intros
      end
  | |- wp any _ (fun p => own _ _ (snd p)) => solve [auto with own]
  end.
Ltac own_auto := cbv beta iota zeta; repeat (own_step; cbv beta iota zeta).

(** ** The functions with loops of their own, and those that change nodes *)

Lemma same_shape_add n p : same_shape n (add_property n p).
Proof. by apply same_shape_field. Qed.

Lemma get_node_phandle_shape d t pos p : wp any (get_node_phandle d t pos p) (fun r => same_shape t (snd (fst r))).
Proof.
  unfold get_node_phandle. apply wp_any_bind. intros n Hn. destruct (negb _ && negb _); [by apply wp_ret|].
  apply wp_any_bind. intros ph _. apply wp_any_bind. intros dd _. apply wp_ret. cbn [fst snd].
  apply same_shape_update. intros n' Hn'. rewrite Hn' in Hn. injection Hn as ->.
  destruct (is_null (get_property (n_set_phandle ph n) _) && _), (is_null (get_property _ _) && _);
    apply same_shape_field; done.
Qed.

Section loops.
Context (o : check_opts) (c : string) (s0 : cstate).

Lemma put_cell_own pos i off v s : own c s0 s -> wp any (put_cell pos i off v s) (own c s0).
Proof. intros H. unfold put_cell. own_auto. apply own_change; [done|]. intros n. by apply same_shape_field. Qed.

Lemma fixup_phandle_reference_own pos i m s : own c s0 s -> wp any (fixup_phandle_reference o c pos i m s) (own c s0).
Proof.
  intros H. unfold fixup_phandle_reference. own_auto.
  - apply put_cell_own, own_phandle, own_dt; [done|].
    match goal with E : get_node_phandle _ _ _ _ = Ret _ |- _ => exact (wp_ret_inv _ _ _ _ (get_node_phandle_shape _ _ _ _) E) end.
  - apply own_change; [done|]. intros n'. by apply same_shape_field.
  - by apply put_cell_own.
Qed.

Lemma fixup_path_reference_own pos i j s : own c s0 s -> wp any (fixup_path_reference o c pos i j s) (own c s0).
Proof.
  intros H. unfold fixup_path_reference. own_auto. apply own_change; [apply own_change; [done|]|]; intros n; by apply same_shape_field.
Qed.

Lemma duplicate_node_names_own pos s : own c s0 s -> wp any (check_duplicate_node_names o c pos s) (own c s0).
Proof.
  intros H. unfold check_duplicate_node_names. own_step. clear H0. generalize O. revert s H.
  induction (n_children a) as [|x l IH]; intros s H i; [done|]. apply (own_seq c s0); [|intros; by apply IH].
  destruct (n_deleted x); [done|]. clear IH. generalize (S i). revert s H. induction l as [|y l IH]; intros s H j; [done|].
  own_auto.
Qed.

Lemma duplicate_property_names_own pos s : own c s0 s -> wp any (check_duplicate_property_names o c pos s) (own c s0).
Proof.
  intros H. unfold check_duplicate_property_names. own_step. clear H0. revert s H.
  induction (live_props a) as [|x l IH]; intros s H; [done|]. own_auto.
Qed.

Lemma same_address_own d a posa cs : forall s, own c s0 s -> wp any (same_address o d c a posa cs s) (own c s0).
Proof. induction cs as [|[posb b] cs IH]; intros s H; cbn [same_address]; own_auto. Qed.

Lemma i2c_addresses_own pos prop s : own c s0 s -> wp any (i2c_addresses o c pos prop s) (own c s0).
Proof.
  intros H. unfold i2c_addresses. apply (wp_loop_inv any (fun st => own c s0 (snd st))); [done..|].
  intros [[len i] s1] H1. cbn [snd] in H1. destruct (len <=? 0); [done|]. apply wp_any_bind. intros reg _.
  eapply wp_seq with (P := own c s0); [destruct (_ && _); own_auto|]. intros s2 H2. exact H2.
Qed.

Lemma phandle_args_own pr prop pos s : own c s0 s -> wp any (check_property_phandle_args o pr prop c pos s) (own c s0).
Proof.
  intros H. unfold check_property_phandle_args. destruct (negb _); [own_auto|].
  apply (wp_loop_inv any (fun st => own c s0 (snd st))); [done..|]. clear s H. intros [[cell cs] s] H. cbn [snd] in H.
  unfold phandle_args_step. destruct (negb _); [done|]. apply wp_any_bind. intros ph _.
  destruct (_ || _); [destruct (is_plugin s); [done|]; apply wp_any_bind; by intros|].
  eapply wp_seq with (P := own c s0); [own_auto|]. clear s H. intros s H. apply wp_any_bind. intros [ppos|] _.
  - do 2 (apply wp_any_bind; intros). destruct a0 as [sz|].
    + do 2 (apply wp_any_bind; intros). eapply wp_seq with (P := own c s0); [own_auto|]. intros s1 Hs1. apply wp_any_bind. by intros.
    + eapply wp_seq with (P := own c s0); [own_auto|]. by intros.
  - eapply wp_seq with (P := own c s0); [own_auto|]. by intros.
Qed.

Lemma find_irq_node_own depth start : forall pos s, own c s0 s ->
  wp any (find_irq_node o depth start pos c s) (fun p => own c s0 (snd p)).
Proof.
  induction depth as [|depth IH]; intros pos s H; cbn [find_irq_node]; own_auto.
Qed.
End loops.

Section changes.
Context (o : check_opts) (c : string) (s0 : cstate).

Lemma own_field pos f s :
  own c s0 s -> (forall n, same_place n (f n) /\ n_children (f n) = n_children n) -> own c s0 (change_node pos f s).
Proof. intros H Hf. apply own_change; [done|]. intros n. destruct (Hf n). by apply same_shape_field. Qed.

Lemma own_deleted pos s : own c s0 s -> own c s0 (change_node pos delete_node s).
Proof. intros H. apply own_change; [done|apply same_shape_delete]. Qed.

Lemma spi_bus_bridge_own pos s : own c s0 s -> wp any (check_spi_bus_bridge o c pos s) (own c s0).
Proof.
  intros H. unfold check_spi_bus_bridge. apply wp_any_bind. intros n _.
  apply wp_seq with (P := fun r => match r with Some s => own c s0 s | None => True end).
  - destruct (strprefixeq _ _ _); [by apply own_bus|]. destruct (_ || _); [done|].
    apply (own_seq c s0); [unfold fail_if; destruct (has_spi_child pos n); own_auto|]. by intros.
  - intros [s1|] H1; own_auto.
Qed.
End changes.

#[export] Hint Extern 3 (own _ _ (change_node _ _ _)) => apply own_field; [|done] : own.
#[export] Hint Resolve own_deleted : own.

(** ** The table *)

#[export] Hint Resolve duplicate_node_names_own duplicate_property_names_own same_address_own fixup_phandle_reference_own
  fixup_path_reference_own i2c_addresses_own phandle_args_own put_cell_own spi_bus_bridge_own find_irq_node_own : own.

Ltac open_head t := lazymatch t with ?f _ => open_head f | _ => unfold t end.
Ltac open_entry :=
  repeat match goal with |- context [c_fn ?k] => let k' := eval hnf in k in change k with k'; cbn [c_fn c_name] end.
Ltac open_check := match goal with |- wp any ?t _ => open_head t end.

(** Every check of the table touches no more than its own status, the log and
    what leaves the tree's shape. *)
Lemma table_own o : Forall (fun k => forall pos s, wp any (c_fn k (c_name k) pos s) (own (c_name k) s)) (check_table o).
Proof.
  unfold check_table. repeat (apply Forall_cons; split; [intros pos s|]); [..|constructor];
    open_entry; first [solve [auto with own]|open_check; own_auto].
Qed.
