(* ===== verification/DtcCheckEngine.v ===== *)
(** The check engine: in which order checks run and what their status means.
    [inv] is the invariant of the state between two steps of the engine; the
    table it runs from and what its checks promise are the section's
    parameters. *)
From stdpp Require Import strings gmap.
From S2P Require Import Prelude Monad Ctype DtcUtil DtcData DtcTree DtcDataSpec DtcTreeSpec DtcGen DtcSort.
From S2P Require Import DtcChecks DtcCheckFns DtcCheckSpec.
Open Scope Z_scope.

Lemma check_ind' (P : check -> Prop) :
  (forall nm w e fn ps, Forall P ps -> P (Check nm w e fn ps)) -> forall c, P c.
Proof.
  intros HP. fix IH 1. intros [nm w e fn ps]. apply HP. induction ps as [|p ps IHps]; constructor; auto.
Qed.

(** The prerequisites in [run_check], as a function of their own. *)
Section run_prereqs.
Context (o : check_opts) (c : string).

Fixpoint run_prereqs (ps : list check) (error : bool) (s : cstate) : res (bool * cstate) :=
  match ps with
  | [] => Ret (error, s)
  | prq :: ps =>
    let! '(error, s) := if error then Ret (true, s) else run_check o prq s in
    let! kp := check_of s (c_name prq) in
    let! s := if bool_decide (k_status kp = PASSED) then Ret s
              else check_msg o c None None (change_check c (set_status PREREQ) s) in
    run_prereqs ps error s
  end.
End run_prereqs.

Definition run_body (o : check_opts) (c : check) (s : cstate) : res (bool * cstate) :=
  let s := change_check (c_name c) (set_inprogress true) s in
  let! '(error, s) := run_prereqs o (c_name c) (c_prereqs c) false s in
  let! k := check_of s (c_name c) in
  if negb (bool_decide (k_status k = UNCHECKED)) then Ret (error, s) else
  let! s := check_nodes_props (c_fn c (c_name c)) (cs_dt s) [] s in
  let! k := check_of s (c_name c) in
  let s := if bool_decide (k_status k = UNCHECKED) then change_check (c_name c) (set_status PASSED) s else s in
  Ret (error, s).

Definition run_end (c : check) (error : bool) (s : cstate) : res (bool * cstate) :=
  let s := change_check (c_name c) (set_inprogress false) s in
  let! k := check_of s (c_name c) in
  Ret (error || (negb (bool_decide (k_status k = PASSED)) && k_error k), s).

Lemma run_check_eq o c s :
  run_check o c s =
    (let! k := check_of s (c_name c) in
     let! _ := c_assert (negb (k_inprogress k)) in
     let! '(error, s) := if negb (bool_decide (k_status k = UNCHECKED)) then Ret (false, s) else run_body o c s in
     run_end c error s).
Proof. by destruct c. Qed.

(** ** How the state grows *)

Definition bad (k : check_state) : Prop := k_status k = FAILED \/ k_status k = PREREQ.

Record grow (s s' : cstate) : Prop := Grow {
  grow_shape : same_shape (cs_dt s) (cs_dt s');
  grow_checks : forall n k, cs_checks s !! n = Some k -> exists k', cs_checks s' !! n = Some k' /\
    k_warn k' = k_warn k /\ k_error k' = k_error k /\ (k_status k <> UNCHECKED -> k_status k' = k_status k);
}.

Lemma grow_refl s : grow s s.
Proof. constructor; [done|]. eauto 10. Qed.

Lemma grow_trans s1 s2 s3 : grow s1 s2 -> grow s2 s3 -> grow s1 s3.
Proof.
  intros [H1 K1] [H2 K2]. constructor; [exact (same_shape_trans _ _ _ H1 H2)|]. intros n k Hk.
  destruct (K1 n k Hk) as (k1 & E1 & W1 & X1 & S1). destruct (K2 n k1 E1) as (k2 & E2 & W2 & X2 & S2).
  exists k2. split; [done|]. split; [congruence|]. split; [congruence|]. intros Hs. specialize (S1 Hs). rewrite S2; congruence.
Qed.

(** The checks in progress, but for [x], are left alone. *)
Definition frame (x : string) (s s' : cstate) : Prop :=
  forall n k, n <> x -> cs_checks s !! n = Some k -> k_inprogress k = true -> cs_checks s' !! n = Some k.

Lemma frame_trans x s1 s2 s3 : frame x s1 s2 -> frame x s2 s3 -> frame x s1 s3.
Proof. unfold frame. eauto. Qed.

Lemma change_same x f s k : cs_checks s !! x = Some k -> cs_checks (change_check x f s) !! x = Some (f k).
Proof. intros H. cbn. by rewrite lookup_alter_eq, H. Qed.

Lemma change_other x n f s : n <> x -> cs_checks (change_check x f s) !! n = cs_checks s !! n.
Proof. intros H. cbn. by rewrite lookup_alter_ne. Qed.

Lemma frame_change x f s : frame x s (change_check x f s).
Proof. intros n k Hn Hk _. by rewrite change_other. Qed.

(** A change of one entry that keeps its level and any status it has. *)
Lemma grow_change x f s k :
  cs_checks s !! x = Some k -> k_warn (f k) = k_warn k -> k_error (f k) = k_error k ->
  (k_status k <> UNCHECKED -> k_status (f k) = k_status k) -> grow s (change_check x f s).
Proof.
  intros Hx Hw He Hs. constructor; [done|]. intros n k1 Hk1. destruct (decide (n = x)) as [->|Hn].
  - rewrite Hx in Hk1. injection Hk1 as <-. exists (f k). by rewrite (change_same _ _ _ _ Hx).
  - rewrite change_other by done. eauto 10.
Qed.

(** Only the entry [x] changes. *)
Definition only (x : string) (s s' : cstate) : Prop := forall n, n <> x -> cs_checks s' !! n = cs_checks s !! n.

Lemma only_trans x s1 s2 s3 : only x s1 s2 -> only x s2 s3 -> only x s1 s3.
Proof. intros H1 H2 n Hn. by rewrite H2, H1. Qed.

Lemma only_frame x s s' : only x s s' -> frame x s s'.
Proof. intros H n k Hn Hk _. by rewrite H. Qed.

Lemma own_grow x s s' k :
  own x s s' -> cs_checks s !! x = Some k -> (k_status k = UNCHECKED \/ k_status k = FAILED) -> grow s s' /\ only x s s'.
Proof.
  intros [H1 [[E _]|[E _]]] Hx Hk.
  - split; [constructor; [done|]; rewrite E; eauto 10|]. intros n _. by rewrite E.
  - assert (cs_checks s' = cs_checks (change_check x (set_status FAILED) s)) as E' by exact E.
    destruct (grow_change x (set_status FAILED) s k Hx) as [_ Hg]; [done|done|cbn; intros ?; by destruct Hk|].
    split; [constructor; [done|]; by rewrite E'|]. intros n Hn. rewrite E'. by rewrite change_other.
Qed.

Lemma live_names_shape pos : forall t t' ns, same_shape t t' -> live_names t' pos = Some ns -> exists ns', live_names t pos = Some ns'.
Proof.
  induction pos as [|i pos IH]; intros t t' ns [_ Hc]%same_shape_inv; [by eexists|].
  intros (c' & ns' & Hi & Hd & Hl & ->)%live_names_cons. rewrite Forall2_lookup in Hc. specialize (Hc i). rewrite Hi in Hc.
  inversion Hc as [c c0 Hs Ec|]; subst. cbn [live_names]. rewrite <- Ec. cbn [mbind option_bind].
  pose proof (same_shape_inv _ _ Hs) as [(_ & _ & _ & Hdel) _]. destruct (n_deleted c) eqn:Ed; [rewrite Hdel in Hd; done|].
  destruct (IH _ _ _ Hs Hl) as [ns1 ->]. by eexists.
Qed.

Lemma check_of_inv s c k : check_of s c = Ret k -> cs_checks s !! c = Some k.
Proof. unfold check_of, nonnull. destruct (cs_checks s !! c); congruence. Qed.

Lemma check_of_eq s c k : cs_checks s !! c = Some k -> check_of s c = Ret k.
Proof. unfold check_of. by intros ->. Qed.

Section engine.
Context (o : check_opts) (T : list check).
(** What a check that passed says about each live node. *)
Context (promise : string -> node -> Prop).

Hypothesis T_closed : forall c, c ∈ T -> Forall (fun p => p ∈ T) (c_prereqs c).
Hypothesis T_distinct : forall c d, c ∈ T -> d ∈ T -> c_name c = c_name d -> c = d.
Hypothesis T_own : forall c pos s, c ∈ T -> wp any (c_fn c (c_name c) pos s) (own (c_name c) s).
Hypothesis promise_shape : forall c n n', same_shape n n' -> promise c n -> promise c n'.

Definition failed (x : string) (s : cstate) : Prop := forall k, cs_checks s !! x = Some k -> k_status k = FAILED.

Hypothesis T_promise : forall c pos s n, c ∈ T -> node_of s pos = Ret n ->
  wp any (c_fn c (c_name c) pos s) (fun s' => failed (c_name c) s' \/ promise (c_name c) n).

Definition passed (s : cstate) (p : check) : Prop := exists k, cs_checks s !! c_name p = Some k /\ k_status k = PASSED.

Definition kept (s : cstate) (x : string) : Prop := forall pos ns n,
  live_names (cs_dt s) pos = Some ns -> node_at (cs_dt s) pos = Some n -> promise x n.

Definition fine (s : cstate) (c : check) (k : check_state) : Prop :=
  (k_status k = PASSED \/ k_status k = FAILED -> Forall (passed s) (c_prereqs c)) /\
  (k_status k = PASSED -> kept s (c_name c)).

Definition spoke (s : cstate) (m : message) : Prop := exists k, cs_checks s !! msg_check m = Some k /\ bad k.

Record inv (s : cstate) : Prop := Inv {
  inv_has : forall c, c ∈ T -> is_Some (cs_checks s !! c_name c);
  inv_fine : forall c k, c ∈ T -> cs_checks s !! c_name c = Some k -> fine s c k;
  inv_log : Forall (spoke s) (cs_log s);
}.

Lemma passed_grow s s' p : grow s s' -> passed s p -> passed s' p.
Proof.
  intros [_ G] (k & Hk & Hs). destruct (G _ _ Hk) as (k' & E & _ & _ & Es). exists k'. split; [done|]. rewrite Es; congruence.
Qed.

Lemma node_at_shape t t' pos n' : same_shape t t' -> node_at t' pos = Some n' -> exists n, node_at t pos = Some n /\ same_shape n n'.
Proof. intros H Hn. pose proof (same_shape_at t t' H pos) as Hat. rewrite Hn in Hat. destruct (node_at t pos); [eauto|done]. Qed.

Lemma kept_shape s s' x : same_shape (cs_dt s) (cs_dt s') -> kept s x -> kept s' x.
Proof.
  intros G Hk pos ns n' Hl Hn. destruct (live_names_shape _ _ _ _ G Hl) as [ns0 Hl0].
  destruct (node_at_shape _ _ _ _ G Hn) as (n & Hn0 & Hs). exact (promise_shape _ _ _ Hs (Hk _ _ _ Hl0 Hn0)).
Qed.

Lemma spoke_grow s s' m : grow s s' -> spoke s m -> spoke s' m.
Proof.
  intros [_ G] (k & Hk & Hb). destruct (G _ _ Hk) as (k' & E & _ & _ & Es). exists k'. split; [done|].
  destruct Hb as [Hb|Hb]; [left|right]; rewrite Es; congruence.
Qed.

Lemma inv_grow s s' : inv s -> grow s s' ->
  (forall c k k', c ∈ T -> cs_checks s !! c_name c = Some k -> cs_checks s' !! c_name c = Some k' ->
    k_status k' = k_status k \/ fine s' c k') ->
  (exists l, cs_log s' = cs_log s ++ l /\ Forall (spoke s') l) -> inv s'.
Proof.
  intros [I1 I2 I3] G Hk (l & El & Hl). constructor.
  - intros c Hc. destruct (I1 c Hc) as [k Ek]. destruct (grow_checks _ _ G _ _ Ek) as (k' & E & _). by exists k'.
  - intros c k' Hc Ek'. destruct (I1 c Hc) as [k Ek]. destruct (Hk c k k' Hc Ek Ek') as [Es|Hf]; [|done].
    destruct (I2 c k Hc Ek) as [F1 F2]. split; rewrite Es.
    + intros H. eapply Forall_impl; [by apply F1|]. intros p. by apply passed_grow.
    + intros H. apply (kept_shape s); [apply G|auto].
  - rewrite El. apply Forall_app. split; [|done]. eapply Forall_impl; [exact I3|]. intros m. by apply spoke_grow.
Qed.

(** Changing an entry's status, or not even that. *)
Lemma inv_change s c f k :
  inv s -> c ∈ T -> cs_checks s !! c_name c = Some k -> grow s (change_check (c_name c) f s) ->
  k_status (f k) = k_status k \/ fine (change_check (c_name c) f s) c (f k) -> inv (change_check (c_name c) f s).
Proof.
  intros I Hc Hk G Hf. apply (inv_grow s); [done|done| |exists []; by rewrite app_nil_r].
  intros d k1 k1' Hd E1 E1'. destruct (decide (c_name d = c_name c)) as [En|En].
  - pose proof (T_distinct _ _ Hd Hc En) as ->. rewrite Hk in E1. injection E1 as <-.
    rewrite (change_same _ _ _ _ Hk) in E1'. by injection E1' as <-.
  - rewrite change_other in E1' by done. left. congruence.
Qed.

(** ** The walk of a check over the tree *)

(** While the check runs: its prerequisites have passed, and it may have
    failed. *)
Definition running (c : check) (s : cstate) : Prop :=
  inv s /\ Forall (passed s) (c_prereqs c) /\
  exists k, cs_checks s !! c_name c = Some k /\ k_inprogress k = true /\ (k_status k = UNCHECKED \/ k_status k = FAILED).

Lemma own_running c s s' : c ∈ T -> running c s -> own (c_name c) s s' -> running c s' /\ grow s s' /\ only (c_name c) s s'.
Proof.
  intros Hc (I & Hp & k & Hk & Hi & Hs) Ho. destruct (own_grow _ _ _ _ Ho Hk Hs) as [G Fr].
  pose proof Ho as [Hsh Hr]. assert (Hp' : Forall (passed s') (c_prereqs c)).
  { eapply Forall_impl; [exact Hp|]. intros p. by apply passed_grow. }
  assert (Hk' : exists k', cs_checks s' !! c_name c = Some k' /\ k_inprogress k' = true /\ (k_status k' = k_status k \/ k_status k' = FAILED)).
  { destruct Hr as [[E _]|[E _]]; rewrite E; [by eauto 10|]. rewrite lookup_alter_eq, Hk. cbn. eauto 10. }
  destruct Hk' as (k' & Ek' & Hi' & Hs'). split; [|done]. split; [|split; [done|]].
  - apply (inv_grow s); [done|done| |].
    + intros d k1 k1' Hd E1 E1'. destruct (decide (c_name d = c_name c)) as [En|En].
      * pose proof (T_distinct _ _ Hd Hc En) as ->. rewrite E1' in Ek'. injection Ek' as ->. rewrite E1 in Hk. injection Hk as ->.
        destruct Hs' as [Hs'|Hs']; [by left|]. right. split; [done|]. by rewrite Hs'.
      * left. destruct Hr as [[E _]|[E _]]; rewrite E in E1'; [congruence|]. rewrite lookup_alter_ne in E1' by done. congruence.
    + destruct Hr as [[_ E]|(E & l & El & Hl)]; [exists []; by rewrite app_nil_r|]. exists l. split; [done|].
      eapply Forall_impl; [exact Hl|]. intros m Em. exists (set_status FAILED k). rewrite Em, E, lookup_alter_eq, Hk. by split; [|left].
  - exists k'. split; [done|]. split; [done|]. destruct Hs' as [Hs'|Hs']; rewrite Hs'; auto.
Qed.

Definition kept_from (s : cstate) (x : string) (pos : list nat) : Prop := forall t q ns n,
  node_at (cs_dt s) pos = Some t -> live_names t q = Some ns -> node_at t q = Some n -> promise x n.

Lemma kept_from_shape s s' x pos : same_shape (cs_dt s) (cs_dt s') -> kept_from s x pos -> kept_from s' x pos.
Proof.
  intros G Hk t' q ns n' Ht Hl Hn. destruct (node_at_shape _ _ _ _ G Ht) as (t & Ht0 & Hs).
  destruct (live_names_shape _ _ _ _ Hs Hl) as [ns0 Hl0]. destruct (node_at_shape _ _ _ _ Hs Hn) as (n & Hn0 & Hs').
  exact (promise_shape _ _ _ Hs' (Hk _ _ _ _ Ht0 Hl0 Hn0)).
Qed.

Lemma failed_grow s s' c : inv s -> c ∈ T -> grow s s' -> failed (c_name c) s -> failed (c_name c) s'.
Proof.
  intros I Hc G Hf k' Hk'. destruct (inv_has _ I c Hc) as [k Hk]. destruct (grow_checks _ _ G _ _ Hk) as (k1 & E & _ & _ & Es).
  specialize (Hf _ Hk). rewrite Hk' in E. injection E as <-. rewrite Es; congruence.
Qed.

Lemma node_at_app t p q : node_at t (p ++ q) = n ← node_at t p; node_at n q.
Proof. revert t. induction p as [|i p IH]; intros t; cbn [node_at app]; [done|]. destruct (n_children t !! i); [apply IH|done]. Qed.

Lemma node_of_inv s pos n : node_of s pos = Ret n -> node_at (cs_dt s) pos = Some n.
Proof. unfold node_of, nonnull. destruct (node_at _ _); congruence. Qed.

Lemma node_of_eq s pos n : node_at (cs_dt s) pos = Some n -> node_of s pos = Ret n.
Proof. unfold node_of. by intros ->. Qed.

Lemma live_shape s s' pos n n' :
  grow s s' -> node_at (cs_dt s) pos = Some n -> node_at (cs_dt s') pos = Some n' -> n_deleted n' = false ->
  n_deleted n = false /\ same_shape n n'.
Proof.
  intros G Hn Hn' Hd. destruct (node_at_shape _ _ _ _ (grow_shape _ _ G) Hn') as (n0 & E & Hs).
  rewrite Hn in E. injection E as <-. split; [|done]. apply same_shape_inv in Hs as [(_ & _ & _ & H) _].
  destruct (n_deleted n); [rewrite H in Hd; done|done].
Qed.

Lemma shape_at s s' pos n : grow s s' -> node_at (cs_dt s) pos = Some n -> exists n', node_at (cs_dt s') pos = Some n' /\ same_shape n n'.
Proof.
  intros G Hn. pose proof (same_shape_at _ _ (grow_shape _ _ G) pos) as Hat. rewrite Hn in Hat.
  destruct (node_at (cs_dt s') pos); [eauto|done].
Qed.

(** What holds after part of the walk: [done_] is what was promised there. *)
Definition walked (c : check) (s s' : cstate) (done_ : cstate -> Prop) : Prop :=
  running c s' /\ grow s s' /\ only (c_name c) s s' /\ (failed (c_name c) s' \/ done_ s').

Lemma walk_ok c (Hc : c ∈ T) shape : forall pos s t, running c s -> node_at (cs_dt s) pos = Some t -> same_shape shape t ->
  wp any (check_nodes_props (c_fn c (c_name c)) shape pos s) (fun s' => walked c s s' (fun s' => kept_from s' (c_name c) pos)).
Proof.
  induction shape as [shape IH] using node_ind'. intros pos s t Hr Ht Hsh.
  destruct shape as [dl nm pl ch fp bl ph ac sc lb om rf]. cbn [check_nodes_props n_children] in *.
  eapply wp_seq; [apply wp_and; [by apply T_own|by eapply T_promise, node_of_eq]|]. intros s1 [Ho Hpr].
  destruct (own_running _ _ _ Hc Hr Ho) as (R1 & G1 & F1).
  assert (exists t1, node_at (cs_dt s1) pos = Some t1 /\ same_shape t t1) as (t1 & Ht1 & Hs1).
  { by apply (shape_at s). }
  pose proof (same_shape_trans _ _ _ Hsh Hs1) as [_ Hch1]%same_shape_inv. cbn [n_children] in Hch1.
  apply (wp_mono any _ (fun s' => walked c s1 s' (fun s' => forall j cn, (0 <= j)%nat ->
    node_at (cs_dt s') (pos ++ [j]) = Some cn -> n_deleted cn = false -> kept_from s' (c_name c) (pos ++ [j])))).
  - clear Ho Hpr F1 G1 Hr Ht Hs1 Hsh. rewrite <- (drop_0 (n_children t1)) in Hch1. revert IH s1 t1 Ht1 R1 Hch1. generalize O.
    induction ch as [|x ch IHch]; intros i IH s1 t1 Ht1 R1 Hch.
    + split; [done|]. split; [apply grow_refl|]. split; [done|]. right. intros j cn Hj Hcn Hd.
      rewrite node_at_app, Ht1 in Hcn. cbn in Hcn. apply Forall2_nil_inv_l in Hch.
      assert (n_children t1 !! j = None) as E; [|by rewrite E in Hcn].
      apply lookup_ge_None. apply (f_equal length) in Hch. rewrite length_drop in Hch. cbn in Hch. lia.
    + apply Forall_cons in IH as [IHx IH]. destruct (drop i (n_children t1)) as [|y ys] eqn:Ed; [by inversion Hch|].
      apply Forall2_cons in Hch as [Hxy Hch].
      assert (n_children t1 !! i = Some y /\ ys = drop (S i) (n_children t1)) as [Hy ->].
      { split; [|replace (S i) with (i + 1)%nat by lia; by rewrite <- drop_drop, Ed].
        replace i with (i + 0)%nat by lia. by rewrite <- lookup_drop, Ed. }
      assert (Hyat : node_at (cs_dt s1) (pos ++ [i]) = Some y). { rewrite node_at_app, Ht1. cbn. by rewrite Hy. }
      rewrite (node_of_eq _ _ _ Hyat). cbn [rbind].
      apply (wp_seq any _ _ (fun s' => walked c s1 s' (fun s' => n_deleted y = false -> kept_from s' (c_name c) (pos ++ [i])))).
      * destruct (n_deleted y) eqn:Edy.
        -- split; [done|]. split; [apply grow_refl|]. split; [done|]. by right.
        -- eapply wp_mono; [eapply IHx; eauto|]. intros s' (A & B & C & D). split; [done|]. split; [done|]. split; [done|]. tauto.
      * intros s2 (R2 & G2 & F2 & K2). destruct (shape_at _ _ _ _ G2 Ht1) as (t2 & Ht2 & Hs2).
        apply same_shape_inv in Hs2 as [_ Hs2]. eapply wp_mono; [apply (IHch (S i) IH s2 t2 Ht2 R2)|].
        { clear -Hch Hs2. apply Forall2_lookup. intros j. rewrite Forall2_lookup in Hch. specialize (Hch j).
          rewrite Forall2_lookup in Hs2. rewrite lookup_drop in *. specialize (Hs2 (S i + j)%nat).
          cbn [Nat.add] in *. inversion Hch as [a b Hab E1 E2|E1 E2]; rewrite <- E2 in Hs2; inversion Hs2; constructor. subst; eauto using same_shape_trans. }
        intros s' (R3 & G3 & F3 & K3). split; [done|]. split; [by eapply grow_trans|]. split; [by eapply only_trans|].
        destruct K3 as [K3|K3]; [by left|]. destruct K2 as [K2|K2]; [left; apply (failed_grow s2); try done; apply R2|].
        right. intros j cn Hj Hcn Hd. destruct (decide (j = i)) as [->|Hji]; [|apply (K3 j cn); [lia|done..]].
        destruct (live_shape _ _ _ _ _ (grow_trans _ _ _ G2 G3) Hyat Hcn Hd) as [Hyd _].
        eapply kept_from_shape; [apply G3|auto].
  - intros s' (R2 & G2 & F2 & K2). split; [done|]. split; [by eapply grow_trans|]. split; [by eapply only_trans|].
    destruct K2 as [K2|K2]; [by left|]. destruct Hpr as [Hpr|Hpr]; [left; apply (failed_grow s1); try done; apply R1|].
    right. intros t' q ns n Ht' Hl Hn. destruct q as [|j q].
    + injection Hn as <-. destruct (node_at_shape _ _ _ _ (grow_shape _ _ (grow_trans _ _ _ G1 G2)) Ht') as (t0 & E & Hs).
      rewrite Ht in E. injection E as <-. exact (promise_shape _ _ _ Hs Hpr).
    + apply live_names_cons in Hl as (cn & ns' & Hcn & Hd & Hl & ->). cbn [node_at] in Hn. rewrite Hcn in Hn. cbn in Hn.
      assert (Hat : node_at (cs_dt s') (pos ++ [j]) = Some cn). { rewrite node_at_app, Ht'. cbn. by rewrite Hcn. }
      exact (K2 j cn (Nat.le_0_l _) Hat Hd cn q ns' n Hat Hl Hn).
Qed.

(** ** Prerequisites *)

(** A check was skipped for a prerequisite that did not pass. *)
Definition excused (s : cstate) : Prop := forall c k, c ∈ T -> cs_checks s !! c_name c = Some k -> k_status k = PREREQ ->
  Exists (fun p => exists kp, cs_checks s !! c_name p = Some kp /\ bad kp) (c_prereqs c).

Lemma bad_grow s s' n k : grow s s' -> cs_checks s !! n = Some k -> bad k -> exists k', cs_checks s' !! n = Some k' /\ bad k'.
Proof.
  intros G Hk Hb. destruct (grow_checks _ _ G _ _ Hk) as (k' & E & _ & _ & Es). exists k'. split; [done|].
  destruct Hb as [Hb|Hb]; [left|right]; rewrite Es; congruence.
Qed.

Lemma excused_grow s s' : excused s -> grow s s' ->
  (forall c k', c ∈ T -> cs_checks s' !! c_name c = Some k' -> k_status k' = PREREQ ->
    (exists k, cs_checks s !! c_name c = Some k /\ k_status k = PREREQ) \/
    Exists (fun p => exists kp, cs_checks s' !! c_name p = Some kp /\ bad kp) (c_prereqs c)) -> excused s'.
Proof.
  intros He G Hn c k' Hc Hk' Hs. destruct (Hn c k' Hc Hk' Hs) as [(k & Hk & Hks)|]; [|done].
  eapply Exists_impl; [exact (He c k Hc Hk Hks)|]. intros p (kp & Hkp & Hb). by eapply bad_grow.
Qed.

(** Before its function runs: the check is in progress and has no verdict. *)
Definition waiting (c : check) (s : cstate) : Prop :=
  inv s /\ exists k, cs_checks s !! c_name c = Some k /\ k_inprogress k = true /\ (k_status k = UNCHECKED \/ k_status k = PREREQ).

Definition status_of (s : cstate) (c : check) (st : checkstatus) : Prop := exists k, cs_checks s !! c_name c = Some k /\ k_status k = st.

Lemma prereq_mark c p s : c ∈ T -> p ∈ c_prereqs c -> waiting c s ->
  wp any (check_msg o (c_name c) None None (change_check (c_name c) (set_status PREREQ) s))
    (fun s' => waiting c s' /\ grow s s' /\ frame (c_name c) s s' /\ status_of s' c PREREQ /\
               (excused s -> ~ passed s p -> ~ status_of s p UNCHECKED -> is_Some (cs_checks s !! c_name p) -> excused s')).
Proof.
  intros Hc Hp (I & k & Hk & Hi & Hs). set (s1 := change_check (c_name c) (set_status PREREQ) s).
  assert (G : grow s s1). { apply (grow_change _ _ _ k Hk); [done|done|]. intros Hn. destruct Hs as [Hs|Hs]; [done|by rewrite Hs]. }
  pose proof (change_same (c_name c) (set_status PREREQ) s k Hk : cs_checks s1 !! c_name c = _) as Hk1.
  assert (I1 : inv s1). { apply (inv_change _ _ _ k); try done. right. split; [by intros [|]|done]. }
  assert (Hex : excused s -> ~ passed s p -> ~ status_of s p UNCHECKED -> is_Some (cs_checks s !! c_name p) -> excused s1).
  { intros He Hnp Hnu [kp Hkp]. apply (excused_grow s); [done|done|]. intros d k' Hd Hk' Hst.
    destruct (decide (c_name d = c_name c)) as [En|En]; [|left; exists k'; split; [|done]; rewrite <- Hk'; symmetry; by apply change_other].
    pose proof (T_distinct _ _ Hd Hc En) as ->. right. apply Exists_exists. exists p. split; [done|].
    apply (bad_grow s s1 _ kp G Hkp). unfold bad. unfold passed, status_of in *. destruct (k_status kp) eqn:E; eauto; exfalso; eauto. }
  unfold check_msg. rewrite (check_of_eq _ _ _ Hk1). cbn [rbind].
  destruct (negb _ && negb _); apply wp_ret.
  - split; [split; [done|]; exists (set_status PREREQ k); auto|]. split; [done|]. split; [apply frame_change|].
    split; [by exists (set_status PREREQ k)|done].
  - match goal with |- context [CState ?a ?b ?c ?d ?e] => set (s2 := CState a b c d e) end.
    assert (I2 : inv s2).
    { destruct I1 as [A B C]. constructor; [done|done|]. apply Forall_app. split; [done|]. constructor; [|done].
      exists (set_status PREREQ k). split; [exact Hk1|by right]. }
    split; [split; [done|]; exists (set_status PREREQ k); auto|]. split; [constructor; apply G|]. split; [exact (frame_change (c_name c) _ s)|].
    split; [by exists (set_status PREREQ k)|exact Hex].
Qed.

(** ** A run of one check *)

Definition run_spec (c : check) (s : cstate) (r : bool * cstate) : Prop :=
  let '(e, s') := r in
  inv s' /\ grow s s' /\ (forall n k, cs_checks s !! n = Some k -> k_inprogress k = true -> cs_checks s' !! n = Some k) /\
  (exists k, cs_checks s' !! c_name c = Some k /\ k_status k <> UNCHECKED /\
             (e = false -> k_error k = true -> k_status k = PASSED)) /\
  (e = false -> excused s -> excused s').

Lemma prereqs_ok c ps : c ∈ T -> Forall (fun p => p ∈ c_prereqs c /\ forall s, inv s -> wp any (run_check o p s) (run_spec p s)) ps ->
  forall e s, waiting c s ->
  wp any (run_prereqs o (c_name c) ps e s) (fun '(e', s') =>
    waiting c s' /\ grow s s' /\ frame (c_name c) s s' /\ (status_of s' c UNCHECKED -> Forall (passed s') ps) /\
    (e' = false -> e = false /\ (excused s -> excused s'))).
Proof.
  intros Hc Hps. induction Hps as [|p ps [Hp Hrun] Hps IH]; intros e s Hw; cbn [run_prereqs].
  - split; [done|]. split; [apply grow_refl|]. split; [by intros ? ? ?|]. split; [constructor|auto].
  - apply (wp_seq any _ _ (fun '(e1, s1) => waiting c s1 /\ grow s s1 /\ frame (c_name c) s s1 /\
      (e1 = false -> e = false /\ ~ status_of s1 p UNCHECKED /\ (excused s -> excused s1)))).
    { destruct e; [apply wp_ret; split; [done|]; split; [apply grow_refl|]; split; [by intros ? ? ?|done]|].
      destruct Hw as (I & k & Hk & Hi & Hs). eapply wp_mono; [by apply Hrun|]. intros [e1 s1] (I1 & G & Fr & (kp & Hkp & Hnu & _) & He).
      split; [split; [done|]; exists k; auto|]. split; [done|]. split; [by intros n k1 _; apply Fr|].
      intros E1. split; [done|]. split; [|auto]. intros (k1 & Hk1 & Hu). congruence. }
    intros [e1 s1] (W1 & G1 & F1 & K1). apply wp_any_bind. intros kp Hkp%check_of_inv.
    apply (wp_seq any _ _ (fun s2 => waiting c s2 /\ grow s1 s2 /\ frame (c_name c) s1 s2 /\
      (status_of s2 c UNCHECKED -> passed s2 p) /\ (e1 = false -> excused s1 -> excused s2))).
    { case_bool_decide as Hpass.
      - apply wp_ret. split; [done|]. split; [apply grow_refl|]. split; [by intros ? ? ?|]. split; [by exists kp|done].
      - eapply wp_mono; [by apply (prereq_mark c p)|]. intros s2 (W2 & G2 & F2 & (k2 & Hk2 & Hst2) & E2).
        split; [done|]. split; [done|]. split; [done|]. split; [intros (k3 & Hk3 & Hu); congruence|].
        intros E1 He. destruct (K1 E1) as (_ & Hnu & _). apply E2; [done| |done|by eexists]. intros (k3 & Hk3 & Hu). congruence. }
    intros s2 (W2 & G2 & F2 & U2 & E2). eapply wp_mono; [by apply IH|]. intros [e3 s3] (W3 & G3 & F3 & U3 & E3).
    split; [done|]. split; [exact (grow_trans _ _ _ G1 (grow_trans _ _ _ G2 G3))|].
    split; [exact (frame_trans _ _ _ _ F1 (frame_trans _ _ _ _ F2 F3))|]. split.
    + intros Hu. constructor; [|auto]. apply (passed_grow s2); [done|]. apply U2. destruct W2 as (_ & k & Hk & _ & [Hs|Hs]); [by exists k|].
      destruct (grow_checks _ _ G3 _ _ Hk) as (k' & Hk' & _ & _ & Es). destruct Hu as (k'' & Hk'' & Hu).
      assert (k'' = k') as -> by congruence. rewrite Es in Hu; congruence.
    + intros E. destruct (E3 E) as [-> He3]. destruct (K1 eq_refl) as (-> & _ & He1). split; [done|]. auto.
Qed.

(** Only [c]'s entry changes, and not to PREREQ. *)
Lemma excused_only c s s' k : excused s -> grow s s' -> c ∈ T -> only (c_name c) s s' ->
  cs_checks s' !! c_name c = Some k -> (k_status k <> PREREQ \/ status_of s c PREREQ) -> excused s'.
Proof.
  intros He G Hc Ho Hk Hs. apply (excused_grow s); [done|done|]. intros d k' Hd Hk' Hp. left.
  destruct (decide (c_name d = c_name c)) as [En|En]; [|exists k'; by rewrite <- (Ho _ En)].
  rewrite En in *. rewrite Hk in Hk'. injection Hk' as <-. by destruct Hs.
Qed.

Lemma only_change x f s : only x s (change_check x f s).
Proof. intros n Hn. by apply change_other. Qed.

(** The state between the start of a run and its end. *)
Definition ran (c : check) (s : cstate) (r : bool * cstate) : Prop :=
  let '(e, s') := r in
  inv s' /\ grow s s' /\ frame (c_name c) s s' /\
  (exists k, cs_checks s' !! c_name c = Some k /\ k_status k <> UNCHECKED) /\ (e = false -> excused s -> excused s').

Lemma walk_verdict c e s s1 : c ∈ T -> waiting c s1 -> Forall (passed s1) (c_prereqs c) -> status_of s1 c UNCHECKED ->
  grow s s1 -> frame (c_name c) s s1 -> (e = false -> excused s -> excused s1) ->
  wp any (let! s := check_nodes_props (c_fn c (c_name c)) (cs_dt s1) [] s1 in
          let! k := check_of s (c_name c) in
          let s := if bool_decide (k_status k = UNCHECKED) then change_check (c_name c) (set_status PASSED) s else s in
          Ret (e, s)) (ran c s).
Proof.
  intros Hc (I & k & Hk & Hi & _) Hp (k0 & Hk0 & Hu) G F He. rewrite Hk in Hk0. injection Hk0 as <-.
  eapply wp_seq; [apply (walk_ok c Hc (cs_dt s1) [] s1 (cs_dt s1)); [|done|done]|].
  { split; [done|]. split; [done|]. exists k. auto. }
  intros s2 ((I2 & P2 & k2 & Hk2 & Hi2 & Hs2) & G2 & O2 & Kp). rewrite (check_of_eq _ _ _ Hk2). cbn [rbind].
  pose proof (frame_trans _ _ _ _ F (only_frame _ _ _ O2)) as F2. pose proof (grow_trans _ _ _ G G2) as G3.
  assert (He2 : e = false -> excused s -> excused s2).
  { intros E Hs. apply (excused_only c s1 s2 k2); auto. left. destruct Hs2 as [->| ->]; done. }
  case_bool_decide as E; apply wp_ret.
  - assert (G4 : grow s2 (change_check (c_name c) (set_status PASSED) s2)) by (by apply (grow_change _ _ _ k2)).
    pose proof (change_same _ (set_status PASSED) _ _ Hk2) as Hk3.
    split; [|split; [by eapply grow_trans|split; [|split]]].
    + apply (inv_change _ _ _ k2); try done. right. split; [by intros _; eapply Forall_impl; [exact P2|]; intros p; apply passed_grow|].
      intros _. destruct Kp as [Kp|Kp]; [by rewrite (Kp _ Hk2) in E|]. intros pos ns n Hl Hn. exact (Kp _ pos ns n eq_refl Hl Hn).
    + exact (frame_trans _ _ _ _ F2 (frame_change _ _ _)).
    + by eexists.
    + intros E1 Hs. apply (excused_only c s2 _ _ (He2 E1 Hs) G4 Hc (only_change _ _ _) Hk3). by left.
  - split; [done|]. split; [done|]. split; [done|]. split; [by exists k2|done].
Qed.

Lemma body_ok c s k : c ∈ T -> Forall (fun p => forall s, inv s -> wp any (run_check o p s) (run_spec p s)) (c_prereqs c) ->
  inv s -> cs_checks s !! c_name c = Some k -> k_status k = UNCHECKED -> wp any (run_body o c s) (ran c s).
Proof.
  intros Hc Hps I Hk Hu. unfold run_body. set (s1 := change_check (c_name c) (set_inprogress true) s).
  assert (G1 : grow s s1) by (by apply (grow_change _ _ _ k)).
  pose proof (change_same (c_name c) (set_inprogress true) s k Hk : cs_checks s1 !! c_name c = _) as Hk1.
  assert (I1 : inv s1) by (apply (inv_change _ _ _ k); auto).
  assert (E1 : excused s -> excused s1).
  { intros He. apply (excused_only c s s1 _ He G1 Hc (only_change _ _ _) Hk1). left. by rewrite Hu || cbn; rewrite Hu. }
  eapply wp_seq; [apply (prereqs_ok c (c_prereqs c) Hc)|].
  { apply Forall_forall. intros p Hp. split; [done|]. rewrite Forall_forall in Hps. auto. }
  { split; [done|]. exists (set_inprogress true k). auto. }
  intros [e s2] (W & G2 & F2 & U2 & E2). cbv beta iota.
  pose proof (grow_trans _ _ _ G1 G2) as G. pose proof (frame_trans _ _ _ _ (frame_change _ (set_inprogress true) s) F2) as F.
  assert (He : e = false -> excused s -> excused s2). { intros E Hs. destruct (E2 E) as [_ H]. auto. }
  pose proof W as (I2 & k2 & Hk2 & _ & Hs2). rewrite (check_of_eq _ _ _ Hk2). cbn [rbind]. case_bool_decide as Eu; cbn [negb].
  - assert (status_of s2 c UNCHECKED) as Hst by (by exists k2). apply walk_verdict; auto.
  - apply wp_ret. split; [done|]. split; [done|]. split; [done|]. split; [by exists k2|done].
Qed.

Lemma run_check_ok c : c ∈ T -> forall s, inv s -> wp any (run_check o c s) (run_spec c s).
Proof.
  induction c as [nm w er fn ps IH] using check_ind'. intros Hc s I. rewrite run_check_eq.
  set (c := Check nm w er fn ps) in *. apply wp_any_bind. intros k Hk%check_of_inv. apply wp_any_bind. intros [] Ha.
  assert (Hi : k_inprogress k = false). { unfold c_assert in Ha. by destruct (k_inprogress k). }
  apply (wp_seq any _ _ (ran c s)).
  - case_bool_decide as Hu; cbn [negb].
    + apply (body_ok c s k); try done. apply Forall_forall. intros p Hp s0. rewrite Forall_forall in IH.
      apply IH; [done|]. pose proof (T_closed _ Hc) as Hcl. rewrite Forall_forall in Hcl. auto.
    + split; [done|]. split; [apply grow_refl|]. split; [by intros ? ? ?|]. split; [by exists k|done].
  - intros [e s1] (I1 & G1 & F1 & (k1 & Hk1 & Hs1) & E1). unfold run_end.
    pose proof (change_same _ (set_inprogress false) _ _ Hk1) as Hk2. rewrite (check_of_eq _ _ _ Hk2). cbn [rbind].
    assert (G2 : grow s1 (change_check (c_name c) (set_inprogress false) s1)) by (by apply (grow_change _ _ _ k1)).
    apply wp_ret. split; [by apply (inv_change _ _ _ k1); auto|]. split; [by eapply grow_trans|]. split; [|split].
    + intros n k0 Hn Hp. destruct (decide (n = c_name c)) as [->|Hne]; [congruence|].
      rewrite change_other by done. by apply F1.
    + exists (set_inprogress false k1). split; [done|]. split; [done|]. cbn. intros [-> Hb]%orb_false_iff He.
      rewrite He, andb_true_r in Hb. apply negb_false_iff, bool_decide_eq_true in Hb. done.
    + intros [-> _]%orb_false_iff Hex. apply (excused_only c s1 _ _ (E1 eq_refl Hex) G2 Hc (only_change _ _ _) Hk2).
      destruct (decide (k_status k1 = PREREQ)) as [Hq|Hq]; [right; by exists k1|by left].
Qed.
End engine.

(** ** dtc/checks.c: what the fixup of one phandle reference does to the tree. *)

(** ** One node of a tree after a change of another, or the same *)

Lemma n_children_set l n : n_children (n_set_children l n) = l.
Proof. reflexivity. Qed.

Lemma node_at_update_any rpos : forall t f pos n,
  (forall x, node_at t rpos = Some x -> n_children (f x) = n_children x) -> node_at t pos = Some n ->
  exists l, node_at (update_at t rpos f) pos = Some (n_set_children l (if bool_decide (pos = rpos) then f n else n)).
Proof.
  induction rpos as [|i rpos IH]; intros t f pos n Hf Hn.
  - cbn [update_at]. destruct pos as [|j pos]; cbn [node_at] in *.
    + injection Hn as <-. exists (n_children (f t)). rewrite bool_decide_eq_true_2 by done. by destruct (f t).
    + rewrite bool_decide_eq_false_2 by done. rewrite (Hf t eq_refl), Hn. exists (n_children n). by destruct n.
  - destruct t as [dl nm pl ch fp bl ph ac sc lb om rf]. cbn [update_at n_children].
    destruct pos as [|j pos]; cbn [node_at n_children] in *.
    + injection Hn as <-. rewrite bool_decide_eq_false_2 by done. eexists. reflexivity.
    + rewrite n_children_set. destruct (decide (i = j)) as [->|Hij].
      * rewrite list_lookup_alter_eq. destruct (ch !! j) as [c|]; [|done]. cbn in Hn, Hf |- *.
        destruct (IH c f pos n Hf Hn) as [l ->]. exists l. f_equal. f_equal.
        by destruct (bool_decide_reflect (pos = rpos)), (bool_decide_reflect (j :: pos = j :: rpos)); congruence.
      * rewrite list_lookup_alter_ne by done. rewrite Hn. rewrite bool_decide_eq_false_2 by congruence.
        exists (n_children n). by destruct n.
Qed.

(** Node fields that are neither the children nor what [f] changes. *)
Lemma field_update {A} (g : node -> A) t rpos f pos n :
  (forall l x, g (n_set_children l x) = g x) -> (forall x, g (f x) = g x /\ n_children (f x) = n_children x) ->
  node_at t pos = Some n -> exists n', node_at (update_at t rpos f) pos = Some n' /\ g n' = g n.
Proof.
  intros Hc Hf Hn. destruct (node_at_update_any rpos t f pos n) as [l E]; [intros x _; by apply Hf|done|].
  eexists. split; [exact E|]. rewrite Hc. case_bool_decide; [by apply Hf|done].
Qed.

Definition valid_phandle (p : Z) : Prop := p <> 0 /\ p <> 4294967295.

(** A phandle the node had, or one given to it. *)
Lemma get_node_phandle_any o root rpos c r ns :
  n_deleted root = false -> node_at root rpos = Some r -> live_names root rpos = Some ns ->
  1 <= c -> c + zlen (phandles root) < 4294967295 ->
  exists p root' c' ps, get_node_phandle o root rpos c = Ret (p, root', c') /\ valid_phandle p /\
    (valid_phandle (n_phandle r) -> p = n_phandle r) /\
    (exists r', node_at root' rpos = Some r' /\ n_phandle r' = p) /\
    forall pos n, node_at root pos = Some n ->
      exists n', node_at root' pos = Some n' /\ n_proplist n' = n_proplist n ++ (if bool_decide (pos = rpos) then ps else []).
Proof.
  intros Hd Hr Hl Hc Hroom. destruct (decide (n_phandle r = 0 \/ n_phandle r = 4294967295)) as [H0|H0].
  - destruct (get_node_phandle_at o root rpos c r ns Hd Hr Hl H0 Hc Hroom) as (p & d & E & Hp & _ & _).
    destruct (with_phandle_at o r p d) as (W1 & _).
    assert (exists ps, n_proplist (with_phandle o r p d) = n_proplist r ++ ps /\ n_children (with_phandle o r p d) = n_children r) as (ps & Eps & Ech).
    { unfold with_phandle, put_missing. destruct (is_null _ && _), (is_null (get_property (n_set_phandle p r) _) && _);
        (eexists; split; [|by destruct r]); cbn; rewrite <- ?app_assoc; [reflexivity|reflexivity|reflexivity|symmetry; apply app_nil_r]. }
    exists p, (update_at root rpos (fun _ => with_phandle o r p d)), p, ps. split; [exact E|]. split; [split; lia|].
    split; [intros [H1 H2]; by destruct H0|]. split; [exists (with_phandle o r p d); split; [by apply (node_at_update _ _ r)|done]|].
    intros pos n Hn. destruct (node_at_update_any rpos root (fun _ => with_phandle o r p d) pos n) as [l El]; [|done|].
    + intros x Hx. congruence.
    + eexists. split; [exact El|]. case_bool_decide as Epos; cbn; [|by rewrite app_nil_r]. subst pos. congruence.
  - exists (n_phandle r), root, c, []. unfold get_node_phandle. rewrite Hr. cbn [nonnull rbind].
    destruct (Z.eqb_spec (n_phandle r) 0), (Z.eqb_spec (n_phandle r) 4294967295); [tauto..|]. cbn [negb andb].
    split; [done|]. split; [done|]. split; [done|]. split; [eauto|]. intros pos q Hq. exists q. split; [done|].
    by case_bool_decide; rewrite app_nil_r.
Qed.

(** The value with the cell at [off] overwritten. *)
Definition with_cell (v : list byte) (off p : Z) : list byte :=
  take (Z.to_nat off) v ++ be_enc32 p ++ drop (Z.to_nat (off + 4)) v.

Lemma data_put_cell d off p : data_wf d -> 0 <= off -> off + 4 <= d_len d ->
  data_put d off (be_enc32 p) = Ret (Data (with_cell (d_val d) off p) (d_cap d) (d_markers d)).
Proof.
  intros [Hw] H0 H4. unfold data_put. change (zlen (be_enc32 p)) with 4.
  destruct (Z.leb_spec 0 off), (Z.leb_spec off (d_len d)), (Z.leb_spec (off + 4) (d_cap d)); try lia. done.
Qed.

(** The fixup of marker [m] of the [i]th property of the node at [pos]. *)
Lemma fixup_phandle_reference_at o c pos i m ref rpos r ns n prop s :
  let root := cs_dt s in
  n_deleted root = false -> node_at root pos = Some n -> n_proplist n !! i = Some prop -> data_wf (p_val prop) ->
  0 <= m_offset m -> m_offset m + 4 <= d_len (p_val prop) -> m_ref m = Some ref ->
  get_node_by_ref root ref = Ret (Some rpos) -> node_at root rpos = Some r -> live_names root rpos = Some ns ->
  1 <= cs_phandle s -> cs_phandle s + zlen (phandles root) < 4294967295 ->
  exists s' p n' prop' r', fixup_phandle_reference o c pos i m s = Ret s' /\
    valid_phandle p /\ (valid_phandle (n_phandle r) -> p = n_phandle r) /\
    node_at (cs_dt s') pos = Some n' /\ n_proplist n' !! i = Some prop' /\
    p_name prop' = p_name prop /\ d_val (p_val prop') = with_cell (d_val (p_val prop)) (m_offset m) p /\
    node_at (cs_dt s') rpos = Some r' /\ n_phandle r' = p /\ n_is_referenced r' = true.
Proof.
  intros root Hd Hn Hi Hw H0 H4 Hm Href Hr Hl Hc Hroom. unfold fixup_phandle_reference. fold root.
  unfold node_of at 1. fold root. rewrite Hn. cbn [nonnull rbind]. rewrite Hi. cbn [nonnull rbind].
  assert ((m_offset m + 4 <=? d_len (p_val prop)) = true) as -> by (by apply Z.leb_le). cbn [c_assert rbind].
  rewrite Hm. cbn [nonnull rbind]. rewrite Href. cbn [rbind].
  destruct (get_node_phandle_any (co_dtc o) root rpos (cs_phandle s) r ns Hd Hr Hl Hc Hroom)
    as (p & root1 & c1 & ps & E & Hp & Hold & (r1 & Hr1 & Ep) & Hprops). rewrite E. cbn [rbind].
  destruct (Hprops pos n Hn) as (n1 & Hn1 & Epl).
  assert (Hi1 : n_proplist n1 !! i = Some prop) by (rewrite Epl; by apply lookup_app_l_Some).
  unfold put_cell, node_of. change (cs_dt (cs_set_phandle c1 (cs_set_dt root1 s))) with root1.
  rewrite Hn1. cbn [nonnull rbind]. rewrite Hi1. cbn [nonnull rbind]. rewrite (data_put_cell _ _ _ Hw H0 H4). cbn [rbind].
  set (d := Data _ _ _). set (s2 := change_node pos (change_val i d) _).
  assert (Hn2 : node_at (cs_dt s2) pos = Some (change_val i d n1)) by (by apply node_at_update).
  destruct (field_update n_phandle root1 pos (change_val i d) rpos r1) as (r2 & Hr2 & Ep2); [done|done|done|].
  destruct (field_update n_proplist (cs_dt s2) rpos reference_node pos (change_val i d n1)) as (n3 & Hn3 & Epl3); [done|done|done|].
  set (prop' := Property (p_deleted prop) (p_name prop) d (p_labels prop)).
  assert (Hi3 : n_proplist n3 !! i = Some prop').
  { rewrite Epl3. cbn. by rewrite list_lookup_alter_eq, Hi1. }
  exists (change_node rpos reference_node s2), p, n3, prop', (reference_node r2).
  split; [done|]. split; [done|]. split; [done|]. split; [exact Hn3|]. split; [exact Hi3|]. split; [done|]. split; [done|].
  split; [by apply node_at_update|]. split; [|done]. cbn. congruence.
Qed.
