(* ===== verification/DtcCheckSound.v ===== *)
(** What dtc's checks establish together: the outcome of [process_checks] on
    its own table, and what the checks of node names promise. *)
From stdpp Require Import strings gmap.
From S2P Require Import Prelude Monad Ctype DtcUtil DtcData DtcTree DtcTreeSpec DtcGen DtcSort DtcChecks.
From S2P Require Import DtcCheckFns DtcCheckTable DtcCheckSpec DtcCheckEngine.
Open Scope Z_scope.

(** ** The loop over a table *)

Section process.
Context (o : check_opts) (T : list check) (promise : string -> node -> Prop).
Hypothesis T_run : forall c s, c ∈ T -> inv T promise s -> wp any (run_check o c s) (run_spec T promise c s).

(** After its turn a check that is on has a verdict, and one at the error
    level has passed. *)
Definition settled (s : cstate) (c : check) : Prop := exists k, cs_checks s !! c_name c = Some k /\
  (k_warn k || k_error k = true -> k_status k <> UNCHECKED) /\ (k_error k = true -> k_status k = PASSED).

Lemma settled_grow s s' c : grow s s' -> settled s c -> settled s' c.
Proof.
  intros G (k & Hk & H1 & H2). destruct (grow_checks _ _ G _ _ Hk) as (k' & Hk' & W & X & S). exists k'. split; [done|].
  rewrite W, X. split; intros H; [|rewrite S; [auto|rewrite H2; done]]. rewrite S; auto.
Qed.

Definition process_step (c : check) (rest : bool * cstate -> res (bool * cstate)) : bool * cstate -> res (bool * cstate) :=
  fun '(error, s) =>
    let! k := check_of s (c_name c) in
    let! '(error, s) :=
      if k_warn k || k_error k then if error : bool then Ret (true, s) else run_check o c s else Ret (error, s) in
    rest (error, s).

Lemma process_loop cs : (forall c, c ∈ cs -> c ∈ T) -> forall e s, inv T promise s ->
  wp any (foldr process_step Ret cs (e, s)) (fun '(e', s') => inv T promise s' /\ grow s s' /\
    (e' = false -> e = false /\ (excused T s -> excused T s') /\ Forall (settled s') cs)).
Proof.
  induction cs as [|c cs IH]; intros Hin e s I; cbn [foldr].
  - split; [done|]. split; [apply grow_refl|]. auto.
  - unfold process_step at 1. apply wp_any_bind. intros k Hk%check_of_inv. assert (Hc : c ∈ T) by (apply Hin; left).
    apply (wp_seq any _ _ (fun '(e1, s1) => inv T promise s1 /\ grow s s1 /\
      (e1 = false -> e = false /\ (excused T s -> excused T s1) /\ settled s1 c))).
    + destruct (k_warn k || k_error k) eqn:Eon; [destruct e|].
      * split; [done|]. by split; [apply grow_refl|].
      * eapply wp_mono; [by apply T_run|]. intros [e1 s1] (I1 & G1 & _ & (k1 & Hk1 & Hu & Hp) & He).
        split; [done|]. split; [done|]. intros ->. split; [done|]. split; [auto|]. exists k1. auto.
      * split; [done|]. split; [apply grow_refl|]. intros ->. split; [done|]. split; [done|]. exists k.
        split; [done|]. apply orb_false_iff in Eon as [-> ->]. by cbn.
    + intros [e1 s1] (I1 & G1 & K1). cbv beta iota. eapply wp_mono; [apply IH; [|done]|]; [intros d Hd; apply Hin; by right|].
      intros [e2 s2] (I2 & G2 & K2). split; [done|]. split; [by eapply grow_trans|]. intros E2.
      destruct (K2 E2) as (-> & X2 & F2). destruct (K1 eq_refl) as (-> & X1 & S1). split; [done|]. split; [auto|].
      constructor; [by eapply settled_grow|done].
Qed.

Lemma process_ok s : inv T promise s -> excused T s ->
  wp any (process_checks o T false s) (fun s' => inv T promise s' /\ grow s s' /\ excused T s' /\ Forall (settled s') T).
Proof.
  intros I He. unfold process_checks. eapply wp_seq; [by apply (process_loop T (fun c H => H) false s I)|].
  intros [e s'] (I' & G' & K). destruct e; cbn; [exact Logic.I|]. destruct (K eq_refl) as (_ & X & F). auto.
Qed.
End process.

(** ** What the checks of node names promise *)

Definition live_nodes (cs : list node) : list node := filter (fun c => n_deleted c = false) cs.

Definition name_promise (x : string) (n : node) : Prop :=
  (x = "duplicate_node_names"%string -> NoDup (map n_name (live_nodes (n_children n)))) /\
  (x = "node_name_chars"%string -> Forall (fun b => b ∈ NODECHARS) (n_name n)) /\
  (x = "node_name_format"%string -> "@"%byte ∉ get_unitname n).

Lemma same_place_name n n' : same_place n n' -> n_name n' = n_name n /\ get_unitname n' = get_unitname n.
Proof. intros (E1 & _ & E2 & _). unfold get_unitname, n_name. by rewrite E1, E2. Qed.

Lemma live_names_sub l l' : Forall2 same_shape l l' -> sublist (map n_name (live_nodes l')) (map n_name (live_nodes l)).
Proof.
  unfold live_nodes. induction 1 as [|n n' l l' Hn Hl IH]; [done|]. apply same_shape_inv in Hn as [Hp _].
  destruct (same_place_name _ _ Hp) as [En _]. destruct Hp as (_ & _ & _ & Hd). rewrite !filter_cons.
  destruct (decide (n_deleted n' = false)) as [E'|E'], (decide (n_deleted n = false)) as [E|E]; cbn [map]; rewrite ?En.
  - by apply sublist_skip.
  - apply not_false_is_true in E. rewrite (Hd E) in E'. done.
  - by apply sublist_cons.
  - done.
Qed.

Lemma name_promise_shape x n n' : same_shape n n' -> name_promise x n -> name_promise x n'.
Proof.
  intros [Hp Hc]%same_shape_inv (P1 & P2 & P3). destruct (same_place_name _ _ Hp) as [En Eu].
  split; [|split]; intros E; [|rewrite En; auto|rewrite Eu; auto]. eapply sublist_NoDup; [auto|by apply live_names_sub].
Qed.

(** A step that fails the check or establishes [P]. *)
Definition sound (c : string) (s : cstate) (P : Prop) (s' : cstate) : Prop := own c s s' /\ (failed c s' \/ P).

Lemma own_failed_still c s s' : own c s s' -> failed c s -> failed c s'.
Proof.
  intros [_ [[E _]|[E _]]] Hf k; rewrite E; [by apply Hf|]. rewrite lookup_alter_eq.
  destruct (cs_checks s !! c); cbn; [by intros [= <-]|done].
Qed.

Lemma sound_seq c s (r : res cstate) k (P Q : Prop) :
  wp any r (sound c s P) -> (forall s1, wp any (k s1) (sound c s1 Q)) -> wp any (rbind r k) (sound c s (P /\ Q)).
Proof.
  intros Hr Hk. eapply wp_seq; [exact Hr|]. intros s1 [O1 F1]. eapply wp_mono; [apply Hk|]. intros s2 [O2 F2].
  split; [by eapply own_trans|]. destruct F1 as [F1|F1]; [left; by eapply own_failed_still|]. tauto.
Qed.

Lemma sound_mono c s (P Q : Prop) r : wp any r (sound c s P) -> (P -> Q) -> wp any r (sound c s Q).
Proof. intros H HPQ. eapply wp_mono; [exact H|]. intros s' [O F]. split; [done|tauto]. Qed.

Lemma sound_ret c s (P : Prop) : P -> wp any (Ret s) (sound c s P).
Proof. intros H. split; [apply own_refl|by right]. Qed.

Lemma sound_fail o c pos s P : wp any (fail o c pos s) (sound c s P).
Proof.
  pose proof (own_fail o c s pos s (own_refl c s)) as Ho. unfold fail, check_msg in *.
  destruct (check_of _ c) as [k|] eqn:Ek; [|done]. cbn [rbind] in *. apply check_of_inv in Ek.
  assert (failed c (change_check c (set_status FAILED) s)) as Hf.
  { intros k1. cbn. rewrite lookup_alter_eq. destruct (cs_checks s !! c); cbn; [by intros [= <-]|done]. }
  destruct (negb _ && negb _); (split; [exact Ho|]); by left.
Qed.

Lemma duplicate_node_names_sound o c pos s n : node_of s pos = Ret n ->
  wp any (check_duplicate_node_names o c pos s) (sound c s (NoDup (map n_name (live_nodes (n_children n))))).
Proof.
  intros Hn. unfold check_duplicate_node_names. rewrite Hn. cbn [rbind]. clear Hn. generalize O. revert s.
  induction (n_children n) as [|x l IH]; intros s i; [by apply sound_ret; constructor|].
  apply sound_mono with (P := (n_deleted x = false -> Forall (fun y => n_name x <> n_name y) l) /\ NoDup (map n_name (live_nodes l))).
  - apply sound_seq; [|intros s1; apply IH]. destruct (n_deleted x); [by apply sound_ret|].
    clear IH. generalize (S i). revert s. induction l as [|y l IH]; intros s j; [apply sound_ret; by constructor|].
    apply sound_mono with (P := n_name x <> n_name y /\ (false = false -> Forall (fun y => n_name x <> n_name y) l)).
    + apply sound_seq; [|intros s1; apply IH]. unfold streq. case_bool_decide; [apply sound_fail|by apply sound_ret].
    + intros [H1 H2] _. constructor; auto.
  - intros [H1 H2]. unfold live_nodes in *. rewrite filter_cons. destruct (decide (n_deleted x = false)) as [Hd|Hd]; [|done].
    cbn [map]. constructor; [|done]. intros Hin. apply list_elem_of_In, in_map_iff in Hin as (y & Ey & Hy).
    apply list_elem_of_In, list_elem_of_filter in Hy as [_ Hy]. specialize (H1 Hd). rewrite Forall_forall in H1.
    by apply (H1 y Hy).
Qed.

Lemma strspn_all accept s : zlen s <= strspn accept s -> Forall (fun b => b ∈ accept) s.
Proof.
  assert (Hle : forall s, strspn accept s <= zlen s).
  { intros l. induction l as [|b l IH]; cbn [strspn]; [done|]. rewrite zlen_cons. case_bool_decide; pose proof (zlen_nonneg l); lia. }
  induction s as [|b s IH]; cbn [strspn]; intros H; [constructor|]. rewrite zlen_cons in H. pose proof (zlen_nonneg s).
  case_bool_decide; [|lia]. constructor; [done|]. apply IH. lia.
Qed.

Lemma node_name_chars_sound o accept c pos s n : node_of s pos = Ret n ->
  wp any (check_node_name_chars o accept c pos s) (sound c s (Forall (fun b => b ∈ accept) (n_name n))).
Proof.
  intros Hn. unfold check_node_name_chars. rewrite Hn. cbn [rbind]. destruct (_ <? _) eqn:E; [apply sound_fail|].
  apply sound_ret, strspn_all. by apply Z.ltb_ge in E.
Qed.

Lemma split_char_notin c s : split_char c s = None -> c ∉ s.
Proof.
  induction s as [|b s IH]; cbn [split_char]; [by intros _ ?%elem_of_nil|]. case_bool_decide as E; [done|].
  destruct (split_char c s) as [[]|]; [done|]. intros _. rewrite not_elem_of_cons. split; [congruence|auto].
Qed.

Lemma node_name_format_sound o c pos s n : node_of s pos = Ret n ->
  wp any (check_node_name_format o c pos s) (sound c s ("@"%byte ∉ get_unitname n)).
Proof.
  intros Hn. unfold check_node_name_format. rewrite Hn. cbn [rbind]. destruct (split_char _ _) eqn:E; [apply sound_fail|].
  by apply sound_ret, split_char_notin.
Qed.

(** ** The table *)

Lemma table_promise o : Forall (fun c => forall pos s n, node_of s pos = Ret n ->
  wp any (c_fn c (c_name c) pos s) (fun s' => failed (c_name c) s' \/ name_promise (c_name c) n)) (check_table o).
Proof.
  unfold check_table.
  repeat (apply Forall_cons; split;
    [intros pos s n Hn; open_entry; try (eapply wp_mono; [apply wp_any|]; intros s' _; right; by repeat split)|]);
    [..|constructor].
  - eapply wp_mono; [by apply duplicate_node_names_sound|]. intros s' [_ [H|H]]; [by left|right; by split].
  - eapply wp_mono; [by apply node_name_chars_sound|]. intros s' [_ [H|H]]; [by left|right; by repeat split].
  - eapply wp_mono; [by apply node_name_format_sound|]. intros s' [_ [H|H]]; [by left|right; by repeat split].
Qed.
