(* ===== verification/DtcCheckProps.v ===== *)
(** Properties of dtc's checks. *)
From stdpp Require Import strings gmap.
From S2P Require Import Prelude Monad Ctype DtcUtil DtcData DtcTree DtcDataSpec DtcTreeSpec DtcGen DtcSort.
From S2P Require Import DtcChecks DtcCheckFns DtcCheckTable DtcCheckSpec DtcCheckEngine DtcCheckSound.
Open Scope Z_scope.

(** ** The table's shape *)

Lemma table_names o : NoDup (map c_name (check_table o)).
Proof. apply (bool_decide_unpack _). vm_compute. exact I. Qed.

Lemma table_distinct o c d : c ∈ check_table o -> d ∈ check_table o -> c_name c = c_name d -> c = d.
Proof.
  generalize (table_names o). induction (check_table o) as [|x l IH]; cbn [map]; intros Hnd Hc Hd E; [by apply elem_of_nil in Hc|].
  apply NoDup_cons in Hnd as [Hx Hnd]. apply elem_of_cons in Hc as [->|Hc], Hd as [->|Hd]; try done; [| |by apply IH].
  - destruct Hx. rewrite E. by apply list_elem_of_fmap_2 || (apply list_elem_of_In, in_map, list_elem_of_In).
  - destruct Hx. rewrite <- E. by apply list_elem_of_fmap_2 || (apply list_elem_of_In, in_map, list_elem_of_In).
Qed.

Definition closed_in (T : list check) (c : check) : Prop := Forall (fun p => p ∈ T) (c_prereqs c).

#[local] Opaque closed_in.

Lemma table_closed o : Forall (closed_in (check_table o)) (check_table o).
Proof.
  cut (forall T, T = check_table o -> Forall (closed_in T) (check_table o)); [auto|].
  intros T ET. unfold check_table. repeat (apply Forall_cons_2; [|]); [..|apply Forall_nil_2];
    match goal with |- closed_in _ ?k => let k' := eval hnf in k in change k with k' end;
    with_strategy transparent [closed_in] (unfold closed_in); cbn [c_prereqs];
    repeat first [apply Forall_nil_2|apply Forall_cons_2];
    rewrite ET; unfold check_table; repeat first [apply list_elem_of_here|apply list_elem_of_further].
Qed.

Lemma closed_in_inv T c : closed_in T c -> Forall (fun p => p ∈ T) (c_prereqs c).
Proof. with_strategy transparent [closed_in] (unfold closed_in). done. Qed.

Lemma table_run o c s : c ∈ check_table o -> inv (check_table o) name_promise s ->
  wp any (run_check o c s) (run_spec (check_table o) name_promise c s).
Proof.
  intros Hc. apply (run_check_ok o (check_table o) name_promise); [..|done].
  - intros d Hd. pose proof (table_closed o) as H. rewrite Forall_forall in H. by apply closed_in_inv, H.
  - apply table_distinct.
  - intros d pos s0 Hd. pose proof (table_own o) as H. rewrite Forall_forall in H. by apply H.
  - apply name_promise_shape.
  - intros d pos s0 n Hd. pose proof (table_promise o) as H. rewrite Forall_forall in H. by apply H.
Qed.

(** Before the checks: none has run, at whatever level the options set. *)
Definition fresh (o : check_opts) (s : cstate) : Prop :=
  (forall c, c ∈ check_table o -> exists k, cs_checks s !! c_name c = Some k /\ k_status k = UNCHECKED) /\ cs_log s = [].

Lemma fresh_inv o s : fresh o s -> inv (check_table o) name_promise s /\ excused (check_table o) s.
Proof.
  intros [Hk Hl]. split; [constructor|].
  - intros c Hc. destruct (Hk c Hc) as (k & E & _). by exists k.
  - intros c k Hc E. destruct (Hk c Hc) as (k1 & E1 & Hu). rewrite E in E1. injection E1 as <-.
    split; rewrite Hu; [by intros [|]|done].
  - rewrite Hl. constructor.
  - intros c k Hc E. destruct (Hk c Hc) as (k1 & E1 & Hu). rewrite E in E1. injection E1 as <-. by rewrite Hu.
Qed.

Lemma initial_lookup o d c : c ∈ check_table o ->
  cs_checks (initial_state o d) !! c_name c = Some (CheckSt (c_warn c) (c_error c) UNCHECKED false).
Proof.
  intros Hc. apply elem_of_list_to_map_1; [rewrite map_map; exact (table_names o)|].
  apply list_elem_of_In, in_map_iff. exists c. split; [done|]. by apply list_elem_of_In.
Qed.

Lemma initial_fresh o d : fresh o (initial_state o d).
Proof. split; [|done]. intros c Hc. eexists. by split; [apply initial_lookup|]. Qed.

Lemma process_settled o s s' : fresh o s -> process_checks o (check_table o) false s = Ret s' ->
  inv (check_table o) name_promise s' /\ grow s s' /\ excused (check_table o) s' /\ Forall (settled s') (check_table o).
Proof.
  intros [I X]%fresh_inv E.
  exact (wp_ret_inv _ _ _ _ (process_ok o (check_table o) name_promise (fun c s => table_run o c s) s I X) E).
Qed.

(** ** Properties *)

(** C35. What [process_checks] returning without force means, whatever levels
    the options gave the checks: every check at the error level has passed,
    every check that is on has run or been skipped, a check ran only after all
    its prerequisites had passed and was skipped only because one had not, the
    levels are as before, and every message came from a check that did not
    pass. *)
Theorem process_checks_settles o s s' :
  fresh o s -> process_checks o (check_table o) false s = Ret s' ->
  (forall c, c ∈ check_table o -> exists k k', cs_checks s !! c_name c = Some k /\ cs_checks s' !! c_name c = Some k' /\
     k_warn k' = k_warn k /\ k_error k' = k_error k /\
     (k_error k = true -> k_status k' = PASSED) /\ (k_warn k = true -> k_status k' <> UNCHECKED) /\
     (k_status k' = PASSED \/ k_status k' = FAILED -> Forall (fun p => status_of s' p PASSED) (c_prereqs c)) /\
     (k_status k' = PREREQ -> Exists (fun p => status_of s' p FAILED \/ status_of s' p PREREQ) (c_prereqs c))) /\
  Forall (fun m => exists k', cs_checks s' !! msg_check m = Some k' /\ k_status k' <> PASSED) (cs_log s').
Proof.
  intros Hf E. destruct (process_settled o s s' Hf E) as (I & G & X & S). split.
  - intros c Hc. destruct (proj1 Hf c Hc) as (k & Hk & _). destruct (grow_checks _ _ G _ _ Hk) as (k' & Hk' & W & R & _).
    rewrite Forall_forall in S. destruct (S c Hc) as (k1 & Hk1 & S1 & S2). rewrite Hk' in Hk1. injection Hk1 as <-.
    rewrite W, R in *. exists k, k'. split; [done|]. split; [done|]. split; [done|]. split; [done|]. split; [done|].
    split; [intros Hw; apply S1; by rewrite Hw|]. destruct (inv_fine _ _ _ I c k' Hc Hk') as [F _]. split; [exact F|].
    intros Hp. eapply Exists_impl; [exact (X c k' Hc Hk' Hp)|]. intros p (kp & Hkp & [Hb|Hb]); [left|right]; by exists kp.
  - eapply Forall_impl; [exact (inv_log _ _ _ I)|]. intros m (k & Hk & Hb). exists k. split; [done|]. destruct Hb as [-> | ->]; done.
Qed.

(** A sample whose warnings fail, and with them the checks that need them. *)
Definition c_opts : check_opts := CheckOpts d_opts false.
Definition c_dti : dt_info := DtInfo 0 [] 0 (fill_fullpaths d_tree []).

Definition accepted (r : res cstate) : bool := match r with Ret _ => true | Fault _ => false end.

Lemma c_accepted : exists s', process_checks c_opts (check_table c_opts) false (initial_state c_opts c_dti) = Ret s'.
Proof.
  assert (accepted (process_checks c_opts (check_table c_opts) false (initial_state c_opts c_dti)) = true) as H
    by (vm_compute; reflexivity).
  destruct (process_checks _ _ _ _) as [s'|]; [by exists s'|done].
Qed.

Theorem process_checks_settles_witness :
  exists s', process_checks c_opts (check_table c_opts) false (initial_state c_opts c_dti) = Ret s' /\
    Forall (fun m => exists k', cs_checks s' !! msg_check m = Some k' /\ k_status k' <> PASSED) (cs_log s').
Proof.
  destruct c_accepted as [s' E]. exists s'. split; [exact E|].
  exact (proj2 (process_checks_settles c_opts _ s' (initial_fresh c_opts c_dti) E)).
Defined.

(** C36. A tree the checks accept is well named: when [process_checks] returns
    with the checks at the levels they are declared with, the nodes keep their
    names and paths and none comes back to life, and every live node's name
    has only the characters allowed, no second unit address, and differs from
    the names of its live siblings. *)
Theorem accepted_names o d s' :
  process_checks o (check_table o) false (initial_state o d) = Ret s' ->
  same_shape (dt d) (cs_dt s') /\
  forall pos ns n, live_names (cs_dt s') pos = Some ns -> node_at (cs_dt s') pos = Some n ->
    Forall (fun b => b ∈ NODECHARS) (n_name n) /\ ("@"%byte ∉ get_unitname n) /\
    NoDup (map n_name (live_nodes (n_children n))).
Proof.
  intros E. destruct (process_settled o _ s' (initial_fresh o d) E) as (I & G & _ & S). split; [apply G|].
  assert (Hk : forall c, c ∈ check_table o -> c_error c = true -> kept name_promise s' (c_name c)).
  { intros c Hc He. rewrite Forall_forall in S. destruct (S c Hc) as (k & Hk & _ & Hp).
    apply (inv_fine _ _ _ I c k Hc Hk), Hp.
    pose proof (initial_lookup o d c Hc) as Hi.
    destruct (grow_checks _ _ G _ _ Hi) as (k' & Hk' & _ & R & _). rewrite Hk in Hk'. injection Hk' as <-. by rewrite R. }
  intros pos ns n Hl Hn.
  assert (Hin : forall c, c ∈ check_table o -> c_error c = true -> name_promise (c_name c) n) by (intros; by eapply Hk).
  destruct (Hin (duplicate_node_names o)) as (P1 & _); [by unfold check_table; left|done|].
  destruct (Hin (node_name_chars o)) as (_ & P2 & _); [unfold check_table; by do 2 right; left|done|].
  destruct (Hin (node_name_format o)) as (_ & _ & P3); [unfold check_table; by do 3 right; left|done|]. auto.
Qed.

Theorem accepted_names_witness :
  exists s', process_checks c_opts (check_table c_opts) false (initial_state c_opts c_dti) = Ret s' /\
    forall pos ns n, live_names (cs_dt s') pos = Some ns -> node_at (cs_dt s') pos = Some n ->
      Forall (fun b => b ∈ NODECHARS) (n_name n).
Proof.
  destruct c_accepted as [s' E]. exists s'. split; [exact E|]. intros pos ns n Hl Hn.
  exact (proj1 (proj2 (accepted_names c_opts c_dti s' E) pos ns n Hl Hn)).
Defined.

(** C37. A phandle reference is resolved: the fixup of a reference to a live
    node, for a marker inside the value, gives that node a phandle that is
    neither 0 nor 0xffffffff, or leaves it the one it has, marks it as
    referenced, and stores the phandle in the cell at the marker and nowhere
    else in the value, also when a node refers to itself. *)
Theorem phandle_reference_resolved o c pos i m ref rpos r ns n prop s :
  n_deleted (cs_dt s) = false -> node_at (cs_dt s) pos = Some n -> n_proplist n !! i = Some prop -> data_wf (p_val prop) ->
  0 <= m_offset m -> m_offset m + 4 <= d_len (p_val prop) -> m_ref m = Some ref ->
  get_node_by_ref (cs_dt s) ref = Ret (Some rpos) -> node_at (cs_dt s) rpos = Some r -> live_names (cs_dt s) rpos = Some ns ->
  1 <= cs_phandle s -> cs_phandle s + zlen (phandles (cs_dt s)) < 4294967295 ->
  exists s' p n' prop' r', fixup_phandle_reference o c pos i m s = Ret s' /\
    valid_phandle p /\ (valid_phandle (n_phandle r) -> p = n_phandle r) /\
    node_at (cs_dt s') pos = Some n' /\ n_proplist n' !! i = Some prop' /\
    p_name prop' = p_name prop /\ d_val (p_val prop') = with_cell (d_val (p_val prop)) (m_offset m) p /\
    node_at (cs_dt s') rpos = Some r' /\ n_phandle r' = p /\ n_is_referenced r' = true.
Proof. apply fixup_phandle_reference_at. Qed.

(** A reference to "/cpus" in the middle of three cells. *)
Definition c_marker : marker := Marker REF_PHANDLE 4 (Some (str "/cpus")).
Definition c_refs : property := build_property (str "refs") (Data (be_enc32 1 ++ be_enc32 4294967295 ++ be_enc32 2) 12 [c_marker]).
Definition c_tree : node := d_node [] [c_refs] [d_node (str "cpus") [] []].
Definition c_state : cstate := initial_state c_opts (DtInfo 0 [] 0 c_tree).

Theorem phandle_reference_resolved_witness :
  exists s' p n' prop' r', fixup_phandle_reference c_opts "phandle_references" [] 0 c_marker c_state = Ret s' /\
    valid_phandle p /\ (valid_phandle 0 -> p = 0) /\
    node_at (cs_dt s') [] = Some n' /\ n_proplist n' !! 0%nat = Some prop' /\
    p_name prop' = str "refs" /\ d_val (p_val prop') = with_cell (be_enc32 1 ++ be_enc32 4294967295 ++ be_enc32 2) 4 p /\
    node_at (cs_dt s') [0%nat] = Some r' /\ n_phandle r' = p /\ n_is_referenced r' = true.
Proof.
  apply (phandle_reference_resolved c_opts "phandle_references" [] 0 c_marker (str "/cpus") [0%nat] (d_node (str "cpus") [] [])
    [str "cpus"] c_tree c_refs c_state);
    first [reflexivity|constructor; vm_compute; split; discriminate|vm_compute; discriminate|vm_compute; reflexivity].
Defined.
