(* ===== verification/DtcUnflat.v ===== *)
(** dtc/flattree.c, continued: the live tree read back from a blob. The blob
    is its bytes; the pointers of an input buffer are offsets into it. *)
From S2P Require Import Prelude Monad Memory Ctype Libfdt FdtSpec DtcUtil DtcData DtcTree DtcFlat.

(** A big-endian word of the input. *)
Definition be_word (p : list byte) : res Z :=
  match p with
  | [a; b; c; d] => Ret (be32 a b c d)
  | _ => Fault Oob
  end.

Section inbuf.
Context (blob : list byte).

Record inbuf := Inbuf {
  ib_base : Z;
  ib_limit : Z;
  ib_ptr : Z;
}.

Definition inbuf_init (base limit : Z) : inbuf := Inbuf base limit base.

Definition ib_set (inb : inbuf) (ptr : Z) : inbuf := Inbuf (ib_base inb) (ib_limit inb) ptr.

(** [len] is an [int]: a negative one passes the test and is a huge size for
    [memcpy]. *)
Definition flat_read_chunk (inb : inbuf) (len : Z) : res (list byte * inbuf) :=
  if ib_limit inb <? ib_ptr inb + len then Fault Die else
  if len <? 0 then Fault Oob else
  let! p := bytes_from blob (ib_ptr inb) (Z.to_nat len) in
  Ret (p, ib_set inb (ib_ptr inb + len)).

Definition flat_read_word (inb : inbuf) : res (Z * inbuf) :=
  let! _ := c_assert ((ib_ptr inb - ib_base inb) mod 4 =? 0) in
  let! '(p, inb) := flat_read_chunk inb 4 in
  let! v := be_word p in
  Ret (v, inb).

Definition flat_realign (inb : inbuf) (align : Z) : res inbuf :=
  let off := s32 (ib_ptr inb - ib_base inb) in
  let! _ := sint (off + align - 1) in
  let ptr := ib_base inb + align_up off align in
  if ib_limit inb <? ptr then Fault Die else Ret (ib_set inb ptr).

(** The string at [p], which must end before the limit; [n] bytes are left
    before it. *)
Fixpoint read_cstr (n : nat) (p : Z) : res (list byte) :=
  match n with
  | O => Fault Die
  | S n =>
    let! b := bytes_from blob p 1 in
    match b with
    | [c] => if bool_decide (c = x00) then Ret [] else let! s := read_cstr n (p + 1) in Ret (c :: s)
    | _ => Fault Oob
    end
  end.

Definition flat_read_string (inb : inbuf) : res (list byte * inbuf) :=
  let! s := read_cstr (Z.to_nat (ib_limit inb - ib_ptr inb)) (ib_ptr inb) in
  let! inb := flat_realign (ib_set inb (ib_ptr inb + zlen s + 1)) 4 in
  Ret (s, inb).

Definition flat_read_data (inb : inbuf) (len : Z) : res (data * inbuf) :=
  if len =? 0 then Ret (empty_data, inb) else
  let! d := data_grow_for empty_data (u32 len) in
  let! '(p, inb) := flat_read_chunk inb len in
  let! d := data_put d 0 p in
  let! inb := flat_realign inb 4 in
  Ret (d, inb).

Definition flat_read_stringtable (inb : inbuf) (offset : Z) : res (list byte) :=
  if offset <? 0 then Fault Die else
  read_cstr (Z.to_nat (ib_limit inb - (ib_base inb + offset))) (ib_base inb + offset).

Definition flat_read_property (dtbuf strbuf : inbuf) (flags : Z) : res (property * inbuf) :=
  let! '(proplen, dtbuf) := flat_read_word dtbuf in
  let! '(stroff, dtbuf) := flat_read_word dtbuf in
  let! name := flat_read_stringtable strbuf (s32 stroff) in
  let! dtbuf := if has_flag flags FTF_VARALIGN && (8 <=? proplen) then flat_realign dtbuf 8 else Ret dtbuf in
  let! '(val, dtbuf) := flat_read_data dtbuf (s32 proplen) in
  Ret (build_property name val, dtbuf).

Definition be_dword (p : list byte) : res Z :=
  let! hi := be_word (take 4 p) in
  let! lo := be_word (drop 4 p) in
  Ret (hi * 4294967296 + lo).

Definition flat_read_mem_reserve (inb : inbuf) : res (list reserve_info) :=
  loop (fun '(inb, reservelist) =>
    let! '(re, inb) := flat_read_chunk inb sizeof_fdt_reserve_entry in
    let! address := be_dword (take 8 re) in
    let! size := be_dword (drop 8 re) in
    if size =? 0 then Ret (Break reservelist) else
    Ret (Continue (inb, add_reserve_entry reservelist (build_reserve_entry address size)))) (inb, []).

Definition nodename_from_path (ppath cpath : list byte) : res (list byte) :=
  let plen := length ppath in
  match strip_prefix ppath cpath with
  | None => Fault Die
  | Some _ =>
    (* root node is a special case *)
    let plen := if streq ppath (str "/") then plen else S plen in
    if (length cpath <? plen)%nat then Fault Oob else
    Ret (drop plen cpath)
  end.

(** One round of the [do ... while (val != FDT_END_NODE)] loop; [unflatten]
    reads a subnode. *)
Definition unflatten_step (unflatten : inbuf -> res (node * inbuf)) (strbuf : inbuf) (flags : Z)
    (st : node * inbuf) : res (ctl (node * inbuf) (node * inbuf)) :=
  let '(n, dtbuf) := st in
  let! '(val, dtbuf) := flat_read_word dtbuf in
  if val =? FDT_PROP then
    let! '(prop, dtbuf) := flat_read_property dtbuf strbuf flags in
    Ret (Continue (add_property n prop, dtbuf))
  else if val =? FDT_BEGIN_NODE then
    let! '(child, dtbuf) := unflatten dtbuf in
    Ret (Continue (add_child n child, dtbuf))
  else if val =? FDT_END_NODE then Ret (Break (n, dtbuf))
  else if val =? FDT_END then Fault Die
  else if val =? FDT_NOP then Ret (Continue (n, dtbuf))
  else Fault Die.

(** Recursion only happens behind a tag: [fuel] bounds the depth. *)
Fixpoint unflatten_tree (fuel : nat) (dtbuf strbuf : inbuf) (parent_flatname : list byte) (flags : Z)
    : res (node * inbuf) :=
  match fuel with
  | O => Fault Div
  | S fuel =>
    let n := build_node [] [] in
    let! '(flatname, dtbuf) := flat_read_string dtbuf in
    let! name := if has_flag flags FTF_FULLPATH then nodename_from_path parent_flatname flatname
                 else Ret flatname in
    let n := n_set_name (Some name) n in
    loop (unflatten_step (fun dtbuf => unflatten_tree fuel dtbuf strbuf flatname flags) strbuf flags) (n, dtbuf)
  end.
End inbuf.

(** The word at an offset of the header. *)
Definition hdr_word (blob : list byte) (off : Z) : res Z :=
  let! p := bytes_from blob off 4 in be_word p.

(** [f] is what the file holds. *)
Definition dt_from_blob (f : list byte) : res dt_info :=
  if zlen f <? 4 then Fault Die else
  let! magic := hdr_word f 0 in
  if negb (magic =? FDT_MAGIC) then Fault Die else
  if zlen f <? 8 then Fault Die else
  let! totalsize := hdr_word f 4 in
  if totalsize <? FDT_V1_SIZE then Fault Die else
  let sizeleft := s32 (totalsize - 8) in
  (* a negative size reads the whole file *)
  if (sizeleft <? 0) && (totalsize <? zlen f) then Fault Oob else
  if (sizeleft <? 0) || (zlen f <? totalsize) then Fault Die else
  let blob := take (Z.to_nat totalsize) f in
  let! off_dt := hdr_word blob 8 in
  let! off_str := hdr_word blob 12 in
  let! off_mem_rsvmap := hdr_word blob 16 in
  let! version := hdr_word blob 20 in
  let! boot_cpuid_phys := hdr_word blob 28 in
  if totalsize <=? off_mem_rsvmap then Fault Die else
  if totalsize <=? off_dt then Fault Die else
  if totalsize <? off_str then Fault Die else
  let! strbuf :=
    if 3 <=? version then
      let! size_str := hdr_word blob 32 in
      if (u32 (off_str + size_str) <? off_str) || (totalsize <? u32 (off_str + size_str)) then Fault Die
      else Ret (inbuf_init off_str (off_str + size_str))
    else Ret (inbuf_init off_str totalsize) in
  let! _ :=
    if 17 <=? version then
      let! size_dt := hdr_word blob 36 in
      if (u32 (off_dt + size_dt) <? off_dt) || (totalsize <? u32 (off_dt + size_dt)) then Fault Die
      else Ret tt
    else Ret tt in
  let flags := if version <? 16 then Z.lor (Z.lor FTF_FULLPATH FTF_NAMEPROPS) FTF_VARALIGN else FTF_NOPS in
  let memresvbuf := inbuf_init off_mem_rsvmap totalsize in
  let dtbuf := inbuf_init off_dt totalsize in
  let! reservelist := flat_read_mem_reserve blob memresvbuf in
  let! '(val, dtbuf) := flat_read_word blob dtbuf in
  if negb (val =? FDT_BEGIN_NODE) then Fault Die else
  let! '(tree, dtbuf) := unflatten_tree blob (S (length blob)) dtbuf strbuf [] flags in
  let! '(val, dtbuf) := flat_read_word blob dtbuf in
  if negb (val =? FDT_END) then Fault Die else
  Ret (build_dt_info 1 reservelist tree boot_cpuid_phys).
