(* ===== verification/DtcFront.v ===== *)
(** dtc/fstree.c and dtc/yamltree.c: a live tree read from a directory, and
    written as YAML. *)
From S2P Require Import Prelude Monad Ctype DtcUtil DtcData DtcTree DtcFlat DtcSource.

(** ** A directory

    What [readdir] lists, in its order: for a regular file its size when asked
    for and its contents when it can be opened, a directory with its own
    entries when it can be read, anything else, and what [stat] fails for. *)
Unset Elimination Schemes.
Inductive dirent :=
| RegFile (d_name : list byte) (st_size : Z) (contents : option (list byte))
| SubDir (d_name : list byte) (entries : option (list dirent))
| Special (d_name : list byte)
| BadStat (d_name : list byte).
Set Elimination Schemes.

Definition dirent_name (de : dirent) : list byte :=
  match de with
  | RegFile n _ _ | SubDir n _ | Special n | BadStat n => n
  end.

Definition is_dot (name : list byte) : bool := streq name (str ".") || streq name (str "..").

(** One entry added to the node; [dirent]s below are read first. *)
Fixpoint read_entry (de : dirent) (tree : node) : res node :=
  if is_dot (dirent_name de) then Ret tree else
  match de with
  | BadStat _ => Fault Die
  | Special _ => Ret tree
  | RegFile name st_size contents =>
    match contents with
    | None => Ret tree (* a warning *)
    | Some f =>
      let! d := data_copy_file f (Some st_size) in
      Ret (add_property tree (build_property name d))
    end
  | SubDir name entries =>
    match entries with
    | None => Fault Die
    | Some entries =>
      let! newchild :=
        (fix read_fstree (entries : list dirent) (tree : node) : res node :=
          match entries with
          | [] => Ret tree
          | de :: entries => let! tree := read_entry de tree in read_fstree entries tree
          end) entries (build_node [] []) in
      let! newchild := name_node newchild name in
      Ret (add_child tree newchild)
    end
  end.

Fixpoint read_entries (entries : list dirent) (tree : node) : res node :=
  match entries with
  | [] => Ret tree
  | de :: entries => let! tree := read_entry de tree in read_entries entries tree
  end.

Definition read_fstree (dir : option (list dirent)) : res node :=
  match dir with
  | None => Fault Die
  | Some entries => read_entries entries (build_node [] [])
  end.

Definition dt_from_fs (dir : option (list dirent)) : res dt_info :=
  let! tree := read_fstree dir in
  let! tree := name_node tree [] in
  let! cpuid := guess_boot_cpuid tree in
  Ret (build_dt_info DTSF_V1 [] tree cpuid).

(** ** YAML: the events given to the emitter *)

Inductive yaml_style := YAML_ANY | YAML_FLOW | YAML_PLAIN | YAML_DOUBLE_QUOTED.
Inductive yaml_tag := YAML_INT_TAG | YAML_STR_TAG | YAML_BOOL_TAG | YAML_SEQ_TAG | YAML_MAP_TAG
  | Tag (t : list byte) | NoTag.

Inductive yaml_event :=
| YStreamStart | YStreamEnd
| YDocumentStart | YDocumentEnd
| YSequenceStart (tag : yaml_tag) (implicit : bool) (style : yaml_style)
| YSequenceEnd
| YMappingStart (tag : yaml_tag) (implicit : bool) (style : yaml_style)
| YMappingEnd
| YScalar (tag : yaml_tag) (value : list byte) (plain_implicit quoted_implicit : bool) (style : yaml_style).

(** The number of [width] bytes at [off]. *)
Definition yaml_number (data : list byte) (off width : Z) : res Z :=
  if width =? 1 then let! c := char_at data off in Ret (b2z c)
  else if width =? 2 then dtb_ld16 data off
  else if width =? 4 then dtb_ld32 data off
  else dtb_ld64 data off.

(** [data] is the value from [seq_offset] on. *)
Definition yaml_propval_int (markers : list marker) (data : list byte) (seq_offset len width : Z) : res (list yaml_event) :=
  let tag := if width =? 1 then str "!u8" else if width =? 2 then str "!u16"
             else if width =? 4 then str "!u32" else str "!u64" in
  let! _ := c_assert (len mod width =? 0) in
  let! evs := loop (fun '(off, evs) =>
    if off <? len then
      let! v := yaml_number data off width in
      let buf := str "0x" ++ fmt_x 0 v in
      let is_phandle := (width =? 4) &&
        existsb (fun m => bool_decide (m_type m = REF_PHANDLE) && (m_offset m =? u32 (seq_offset + off))) markers in
      let ev := if is_phandle then YScalar (Tag (str "!phandle")) buf false false YAML_PLAIN
                else YScalar YAML_INT_TAG buf true true YAML_PLAIN in
      Ret (Continue (off + width, evs ++ [ev]))
    else Ret (Break evs)) (0, []) in
  Ret (YSequenceStart (Tag tag) (width =? 4) YAML_FLOW :: evs ++ [YSequenceEnd]).

Definition yaml_propval_string (s : list byte) (len : Z) : res (list yaml_event) :=
  let! c := char_at s (len - 1) in
  let! _ := c_assert (bool_decide (c = x00)) in
  (* Make sure the entire string is in the lower 7-bit ascii range *)
  let! bs := bytes_from s 0 (Z.to_nat len) in
  let! _ := c_assert (forallb (fun c => b2z c <? 128) bs) in
  Ret [YScalar YAML_STR_TAG (removelast bs) false true YAML_DOUBLE_QUOTED].

(** The chunks of a value: [len] is what is left of its length. *)
Fixpoint yaml_chunks (val : list byte) (markers ms : list marker) (len : Z) : res (list yaml_event) :=
  match ms with
  | [] => Ret []
  | m :: rest =>
    if negb (has_data_type_information m) then yaml_chunks val markers rest len else
    let chunk_len := s32 (match type_marker_length m rest with 0 => len | n => n end) in
    let! _ := c_assert (0 <? chunk_len) in
    let len := u32 (len - chunk_len) in
    let data := drop (Z.to_nat (m_offset m)) val in
    let! evs :=
      match m_type m with
      | TYPE_UINT16 => yaml_propval_int markers data (m_offset m) chunk_len 2
      | TYPE_UINT32 => yaml_propval_int markers data (m_offset m) chunk_len 4
      | TYPE_UINT64 => yaml_propval_int markers data (m_offset m) chunk_len 8
      | TYPE_STRING => yaml_propval_string data chunk_len
      | _ => yaml_propval_int markers data (m_offset m) chunk_len 1
      end in
    let! r := yaml_chunks val markers rest len in
    Ret (evs ++ r)
  end.

Definition yaml_propval (prop : property) : res (list yaml_event) :=
  let val := d_val (p_val prop) in
  let ms := d_markers (p_val prop) in
  (* Emit the property name *)
  let name := YScalar YAML_STR_TAG (p_name prop) true true YAML_PLAIN in
  (* Boolean properties are easiest to deal with. Length is zero, so just emit 'true' *)
  if zlen val =? 0 then Ret [name; YScalar YAML_BOOL_TAG (str "true") true false YAML_PLAIN] else
  match ms with
  | [] => Fault Die
  | _ =>
    let! evs := yaml_chunks val ms ms (zlen val) in
    Ret (name :: YSequenceStart YAML_SEQ_TAG true YAML_FLOW :: evs ++ [YSequenceEnd])
  end.

Fixpoint yaml_props (ps : list property) : res (list yaml_event) :=
  match ps with
  | [] => Ret []
  | p :: ps =>
    if p_deleted p then yaml_props ps else
    let! evs := yaml_propval p in
    let! r := yaml_props ps in
    Ret (evs ++ r)
  end.

Fixpoint yaml_tree (tree : node) : res (list yaml_event) :=
  if n_deleted tree then Ret [] else
  let! props := yaml_props (n_proplist tree) in
  (* Loop over all the children, emitting them into the map *)
  let! kids :=
    (fix children (cs : list node) : res (list yaml_event) :=
      match cs with
      | [] => Ret []
      | child :: cs =>
        if n_deleted child then children cs else
        let! evs := yaml_tree child in
        let! r := children cs in
        Ret (YScalar YAML_STR_TAG (n_name child) true false YAML_PLAIN :: evs ++ r)
      end) (n_children tree) in
  Ret (YMappingStart YAML_MAP_TAG true YAML_ANY :: props ++ kids ++ [YMappingEnd]).

Definition dt_to_yaml (dti : dt_info) : res (list yaml_event) :=
  let! evs := yaml_tree (dt dti) in
  Ret ([YStreamStart; YDocumentStart; YSequenceStart YAML_SEQ_TAG true YAML_ANY] ++ evs ++
       [YSequenceEnd; YDocumentEnd; YStreamEnd]).
