(* ===== verification/DtcUnflatSafe.v ===== *)
(** Reading a blob of any contents: [dt_from_blob] either gives a tree or
    reports an error, without leaving the file's bytes. *)
From S2P Require Import Prelude Monad Ctype Memory Libfdt FdtSpec DtcUtil DtcData DtcTree DtcFlat DtcDataSpec.
From S2P Require Import DtcUnflat.

Section safe.
Context (blob : list byte).
Context (Hsize : zlen blob <= INT_MAX - 8).

(** An input buffer inside the blob, at a word from its base. *)
Record ib_ok (inb : inbuf) : Prop := IbOk {
  io_base : 0 <= ib_base inb <= ib_ptr inb;
  io_limit : ib_ptr inb <= ib_limit inb <= zlen blob;
}.

(** [inb'] is further on in the same buffer. *)
Definition ib_after (inb inb' : inbuf) (n : Z) : Prop :=
  ib_base inb' = ib_base inb /\ ib_limit inb' = ib_limit inb /\ ib_ptr inb + n <= ib_ptr inb' /\ ib_ok inb'.

Definition ib_aligned (inb : inbuf) : Prop := (ib_ptr inb - ib_base inb) mod 4 = 0.

Lemma bytes_from_ret off n : 0 <= off -> off + Z.of_nat n <= zlen blob ->
  exists p, bytes_from blob off n = Ret p /\ length p = n.
Proof.
  intros H1 H2. unfold bytes_from. destruct (Z.leb_spec 0 off), (Z.leb_spec (off + Z.of_nat n) (zlen blob)); try lia.
  cbn [andb]. eexists. split; [done|]. unfold zlen in *. rewrite length_take, length_drop. lia.
Qed.

Lemma be_word_ret p : length p = 4%nat -> exists v, be_word p = Ret v /\ is_u32 v.
Proof.
  destruct p as [|a [|b [|c [|d [|e p]]]]]; try done. intros _. exists (be32 a b c d). split; [done|].
  rewrite be32_spec. pose proof (b2z_range a). pose proof (b2z_range b). pose proof (b2z_range c). pose proof (b2z_range d). ilia.
Qed.

Lemma hdr_word_ret off : 0 <= off -> off + 4 <= zlen blob -> exists v, hdr_word blob off = Ret v /\ is_u32 v.
Proof.
  intros H1 H2. unfold hdr_word. destruct (bytes_from_ret off 4 H1) as (p & -> & Hp); [lia|]. cbn [rbind]. by apply be_word_ret.
Qed.

Lemma chunk_safe inb len :
  ib_ok inb -> 0 <= len ->
  wp only_dies (flat_read_chunk blob inb len) (fun r => bytes_from blob (ib_ptr inb) (Z.to_nat len) = Ret r.1 /\
    r.2 = ib_set inb (ib_ptr inb + len) /\ ib_ok r.2 /\ zlen r.1 = len).
Proof.
  intros [[Hb Hb'] [Hl1 Hl2]] Hn. unfold flat_read_chunk. destruct (Z.ltb_spec (ib_limit inb) (ib_ptr inb + len)); [done|].
  destruct (Z.ltb_spec len 0); [lia|]. destruct (bytes_from_ret (ib_ptr inb) (Z.to_nat len)) as (p & E & Hp); [lia..|].
  rewrite E. cbn [rbind wp fst snd]. split; [done|]. split; [done|]. split; [|unfold zlen; lia].
  constructor; cbn [ib_set ib_base ib_ptr ib_limit]; lia.
Qed.

Lemma word_safe inb :
  ib_ok inb -> ib_aligned inb ->
  wp only_dies (flat_read_word blob inb) (fun r => hdr_word blob (ib_ptr inb) = Ret r.1 /\ is_u32 r.1 /\
    r.2 = ib_set inb (ib_ptr inb + 4) /\ ib_ok r.2 /\ ib_aligned r.2).
Proof.
  intros Hi Ha. unfold flat_read_word. rewrite Ha. cbn [Z.eqb c_assert rbind].
  apply wp_bind. eapply wp_mono; [apply (chunk_safe inb 4 Hi); lia|]. intros [p inb'] (E & E' & Hok & Hz). cbn [fst snd] in *. subst inb'.
  destruct (be_word_ret p) as (v & Ev & Hv); [unfold zlen in Hz; lia|]. rewrite Ev. cbn [rbind wp fst snd].
  split; [unfold hdr_word; change 4%nat with (Z.to_nat 4); rewrite E; exact Ev|]. split; [done|]. split; [done|]. split; [done|].
  unfold ib_aligned in *. cbn [ib_set ib_ptr ib_base]. replace (_ + 4 - _) with (ib_ptr inb - ib_base inb + 1 * 4) by lia.
  by rewrite Z.mod_add.
Qed.

Lemma realign_safe inb :
  ib_base inb <= ib_ptr inb -> 0 <= ib_base inb -> ib_ptr inb <= ib_limit inb <= zlen blob ->
  wp only_dies (flat_realign inb 4) (fun inb' => ib_after inb inb' 0 /\ ib_aligned inb').
Proof.
  intros H1 H2 H3. unfold flat_realign. rewrite s32_small by ilia. rewrite sint_small by ilia. cbn [rbind].
  pose proof (align_up_4_bounds (ib_ptr inb - ib_base inb)) as Ha. destruct (Z.ltb_spec (ib_limit inb) (ib_base inb + align_up (ib_ptr inb - ib_base inb) 4)); [done|].
  cbn [wp]. split.
  - split; [done|]. split; [done|]. cbn [ib_set ib_ptr]. split; [lia|]. constructor; cbn [ib_set ib_base ib_ptr ib_limit]; lia.
  - unfold ib_aligned. cbn [ib_set ib_ptr ib_base]. replace (ib_base inb + _ - ib_base inb) with (align_up (ib_ptr inb - ib_base inb) 4) by lia.
    rewrite align_up_4. apply Z.mod_mul. lia.
Qed.

(** A string ends inside the buffer. *)
Lemma cstr_safe n : forall p, 0 <= p -> p + Z.of_nat n <= zlen blob ->
  wp only_dies (read_cstr blob n p) (fun s => zlen s < Z.of_nat n).
Proof.
  induction n as [|n IH]; intros p Hp Hn; cbn [read_cstr]; [done|].
  destruct (bytes_from_ret p 1 Hp) as (b & -> & Hb); [lia|]. cbn [rbind]. destruct b as [|c [|d b]]; try done.
  case_bool_decide; [cbn [wp]; change (zlen []) with 0; lia|]. apply wp_bind. eapply wp_mono; [apply IH; lia|]. intros s Hs. cbn [wp].
  rewrite zlen_cons. cbv beta in Hs. lia.
Qed.

Lemma string_safe inb :
  ib_ok inb -> wp only_dies (flat_read_string blob inb) (fun r => ib_after inb r.2 1 /\ ib_aligned r.2).
Proof.
  intros [[Hb Hb'] [Hl1 Hl2]]. unfold flat_read_string. apply wp_bind.
  eapply wp_mono; [apply cstr_safe; lia|]. intros s Hs. cbv beta in Hs. pose proof (zlen_nonneg s). apply wp_bind.
  eapply wp_mono; [apply realign_safe; cbn [ib_set ib_ptr ib_base ib_limit]; lia|]. intros inb' [(A1 & A2 & A3 & A4) A5].
  cbn [wp snd ib_set ib_ptr ib_base ib_limit] in *. split; [|exact A5]. split; [done|]. split; [done|]. split; [lia|done].
Qed.

Lemma data_safe inb len :
  ib_ok inb -> ib_aligned inb -> 0 <= len <= INT_MAX ->
  wp only_dies (flat_read_data blob inb len) (fun r => ib_after inb r.2 0 /\ ib_aligned r.2).
Proof.
  intros Hi Ha Hn. unfold flat_read_data. destruct (Z.eqb_spec len 0).
  { cbn [wp snd]. split; [|done]. split; [done|]. split; [done|]. split; [lia|done]. }
  rewrite u32_small by ilia. destruct (data_grow_for_at empty_data len empty_wf) as (d & -> & E1 & _ & _ & Hc);
    [lia|change (d_len empty_data) with 0; unfold DATA_MAX; ilia|]. cbn [rbind]. change (d_len empty_data) with 0 in Hc.
  apply wp_bind. eapply wp_mono; [apply (chunk_safe inb len Hi); lia|]. intros [p inb'] (_ & E' & Hok & Hz). cbn [fst snd] in *. subst inb'.
  assert (data_put d (d_len d) p = Ret (Data (d_val d ++ p) (d_cap d) (d_markers d))) as Ep.
  { apply data_put_end. unfold d_len. rewrite E1. change (zlen (d_val empty_data)) with 0. lia. }
  assert (d_len d = 0) as El by (unfold d_len; by rewrite E1). rewrite El in Ep. rewrite Ep. cbn [rbind].
  destruct Hok as [[Hb Hb'] [Hl1 Hl2]]. apply wp_bind. eapply wp_mono; [apply realign_safe; lia|]. intros inb2 [(A1 & A2 & A3 & A4) A5].
  cbn [wp snd ib_set ib_ptr ib_base ib_limit] in *. split; [|exact A5]. split; [done|]. split; [done|]. split; [lia|done].
Qed.

(** ** Trees *)

Context (strbuf : inbuf) (base : Z).
Context (Hstr : 0 <= ib_base strbuf /\ ib_limit strbuf <= zlen blob).

(** No property of the structure block has a length [int] cannot hold. *)
Context (Hlen : forall k v, 0 <= k -> k mod 4 = 0 -> hdr_word blob (base + k) = Ret FDT_PROP ->
  hdr_word blob (base + k + 4) = Ret v -> v <= INT_MAX).

Lemma stringtable_safe off : is_s32 off -> wp only_dies (flat_read_stringtable blob strbuf off) (fun _ => True).
Proof using Hsize Hstr.
  intros Ho. unfold flat_read_stringtable. destruct (Z.ltb_spec off 0); [done|].
  destruct (Z.le_gt_cases (ib_limit strbuf) (ib_base strbuf + off)).
  - replace (Z.to_nat _) with O by lia. done.
  - eapply wp_mono; [apply cstr_safe; lia|]. done.
Qed.

(** Where reading goes on: behind [n] more bytes, at a word. *)
Definition goes_on (inb inb' : inbuf) (n : Z) : Prop := ib_after inb inb' n /\ ib_aligned inb'.

Lemma goes_on_trans inb inb1 inb2 n1 n2 : goes_on inb inb1 n1 -> goes_on inb1 inb2 n2 -> goes_on inb inb2 (n1 + n2).
Proof.
  intros [(A1 & A2 & A3 & A4) _] [(B1 & B2 & B3 & B4) B5]. split; [|done]. split; [congruence|]. split; [congruence|]. split; [lia|done].
Qed.

Lemma property_safe inb flags :
  has_flag flags FTF_VARALIGN = false -> ib_ok inb -> ib_aligned inb ->
  (forall v, hdr_word blob (ib_ptr inb) = Ret v -> v <= INT_MAX) ->
  wp only_dies (flat_read_property blob inb strbuf flags) (fun r => goes_on inb r.2 0).
Proof using Hsize Hstr.
  intros Hf Hi Ha Hv. unfold flat_read_property. apply wp_bind. eapply wp_mono; [by apply word_safe|].
  intros [v inb1] (E & Hu & E1 & Hi1 & Ha1). cbn [fst snd] in *. specialize (Hv v E). apply wp_bind.
  eapply wp_mono; [by apply word_safe|]. intros [off inb2] (_ & Hu2 & E2 & Hi2 & Ha2). cbn [fst snd] in *.
  apply wp_bind. eapply wp_mono; [apply stringtable_safe, s32_range|]. intros name _. rewrite Hf. cbn [andb rbind].
  apply wp_bind. rewrite s32_small by ilia. eapply wp_mono; [apply (data_safe inb2 v Hi2 Ha2); ilia|].
  intros [d inb3] [(B1 & B2 & B3 & B4) B5]. cbn [wp fst snd] in *. subst inb2 inb1. cbn [ib_set ib_base ib_limit ib_ptr] in *.
  split; [|exact B5]. split; [done|]. split; [done|]. split; [lia|done].
Qed.

(** What reading a node promises. *)
Definition node_safe (inb : inbuf) (r : node * inbuf) : Prop := goes_on inb r.2 0 /\ n_deleted r.1 = false.

Lemma step_safe unflatten flags st :
  has_flag flags FTF_VARALIGN = false -> ib_ok st.2 -> ib_aligned st.2 -> ib_base st.2 = base -> n_deleted st.1 = false ->
  (forall inb, ib_ok inb -> ib_aligned inb -> ib_base inb = base -> ib_limit inb = ib_limit st.2 -> ib_ptr st.2 + 4 <= ib_ptr inb ->
     wp only_dies (unflatten inb) (node_safe inb)) ->
  wp only_dies (unflatten_step blob unflatten strbuf flags st) (fun r =>
    match r with Continue st' | Break st' => goes_on st.2 st'.2 4 /\ n_deleted st'.1 = false end).
Proof using Hsize Hstr Hlen.
  intros Hf Hi Ha Hb Hd Hrec. destruct st as [n inb]. cbn [fst snd] in *. unfold unflatten_step. apply wp_bind.
  eapply wp_mono; [by apply word_safe|]. intros [v inb1] (E & Hu & E1 & Hi1 & Ha1). cbn [fst snd] in *.
  assert (goes_on inb inb1 4) as Hg.
  { split; [|done]. subst inb1. split; [done|]. split; [done|]. split; [cbn; lia|done]. }
  destruct (Z.eqb_spec v FDT_PROP) as [->|_].
  { apply wp_bind. eapply wp_mono; [apply property_safe; [done|done|done|]|].
    - intros w Ew. apply (Hlen (ib_ptr inb - base)) with (v := w); subst base; [destruct Hi; lia|exact Ha|by rewrite Zplus_minus|].
      rewrite Zplus_minus. subst inb1. exact Ew.
    - intros [p inb2] Hg2. cbn [wp fst snd]. split; [exact (goes_on_trans _ _ _ 4 0 Hg Hg2)|by destruct n]. }
  destruct (Z.eqb_spec v FDT_BEGIN_NODE).
  { apply wp_bind. eapply wp_mono; [apply Hrec; subst inb1; cbn [ib_set ib_base ib_ptr ib_limit]; done|].
    intros [c inb2] [Hg2 _]. cbn [wp fst snd]. split; [exact (goes_on_trans _ _ _ 4 0 Hg Hg2)|by destruct n]. }
  destruct (Z.eqb_spec v FDT_END_NODE); [done|]. destruct (Z.eqb_spec v FDT_END); [done|].
  destruct (Z.eqb_spec v FDT_NOP); done.
Qed.

Lemma unflatten_safe fuel : forall inb parent flags,
  has_flag flags FTF_VARALIGN = false -> has_flag flags FTF_FULLPATH = false ->
  ib_ok inb -> ib_aligned inb -> ib_base inb = base -> ib_limit inb - ib_ptr inb < Z.of_nat fuel ->
  wp only_dies (unflatten_tree blob fuel inb strbuf parent flags) (node_safe inb).
Proof using Hsize Hstr Hlen.
  induction fuel as [|fuel IH]; intros inb parent flags Hf Hp Hi Ha Hb Hfuel; [destruct Hi; lia|]. cbn [unflatten_tree].
  apply wp_bind. eapply wp_mono; [by apply string_safe|]. intros [nm inb1] [(A1 & A2 & A3 & A4) A5]. cbn [fst snd] in *.
  rewrite Hp. cbn [rbind].
  apply (wp_loop only_dies (fun st => goes_on inb st.2 1 /\ n_deleted st.1 = false) (fun st => ib_limit inb - ib_ptr st.2)).
  - cbn [fst snd]. split; [|done]. split; [|done]. split; [done|]. split; [done|]. split; [lia|done].
  - intros st [[(B1 & B2 & B3 & [B4 B6]) B5] _]. destruct Hi. unfold loop_bound. ilia.
  - intros st [Hg Hd]. pose proof Hg as [(B1 & B2 & B3 & B4) B5].
    eapply wp_mono; [apply step_safe; [done|done|done|congruence|done|]|].
    + intros inb2 C1 C2 C3 C4 C5. apply IH; [done|done|done|done|done|]. destruct A4. lia.
    + intros [st'|st'] [Hg' Hd'].
      * pose proof (goes_on_trans _ _ _ 1 4 Hg Hg') as [(D1 & D2 & D3 & D4) D5]. destruct Hg' as [(G1 & G2 & G3 & G4) G5].
        split; [|lia]. split; [|exact Hd']. split; [|done]. split; [done|]. split; [done|]. split; [lia|done].
      * pose proof (goes_on_trans _ _ _ 1 4 Hg Hg') as [(D1 & D2 & D3 & D4) D5].
        split; [|exact Hd']. split; [|done]. split; [done|]. split; [done|]. split; [lia|done].
Qed.
End safe.

(** ** The reserve map and the whole blob *)

Lemma be_dword_ret p : length p = 8%nat -> exists v, be_dword p = Ret v.
Proof.
  intros Hp. unfold be_dword. destruct (be_word_ret (take 4 p)) as (a & -> & _); [rewrite length_take; lia|].
  destruct (be_word_ret (drop 4 p)) as (b & -> & _); [rewrite length_drop; lia|]. cbn [rbind]. by eexists.
Qed.

Lemma mem_reserve_safe blob inb :
  zlen blob <= INT_MAX - 8 -> ib_ok blob inb -> wp only_dies (flat_read_mem_reserve blob inb) (fun _ => True).
Proof.
  intros Hsize Hi. unfold flat_read_mem_reserve.
  apply (wp_loop only_dies (fun st : inbuf * list reserve_info => ib_ok blob st.1 /\ ib_limit st.1 = ib_limit inb)
    (fun st => ib_limit inb - ib_ptr st.1)); [done| |].
  - intros st [[H1 H2] H3]. destruct Hi. unfold loop_bound. ilia.
  - intros [ib l] [Hib Hl]. cbn [fst] in *. apply wp_bind.
    eapply wp_mono; [apply (chunk_safe blob ib 16 Hib); lia|]. intros [p ib'] (_ & E & Hok & Hz). cbn [fst snd] in *. subst ib'.
    destruct (be_dword_ret (take 8 p)) as (a & ->); [rewrite length_take; unfold zlen in Hz; lia|]. cbn [rbind].
    destruct (be_dword_ret (drop 8 p)) as (s & ->); [rewrite length_drop; unfold zlen in Hz; lia|]. cbn [rbind].
    destruct (Z.eqb_spec s 0); [done|]. cbn [wp fst snd ib_set ib_ptr ib_limit] in *. split; [|lia]. done.
Qed.

Lemma ib_init_ok blob base limit : 0 <= base <= limit -> limit <= zlen blob -> ib_ok blob (inbuf_init base limit).
Proof. intros H1 H2. constructor; cbn; lia. Qed.

Lemma ib_init_aligned base limit : ib_aligned (inbuf_init base limit).
Proof. unfold ib_aligned. cbn [inbuf_init ib_ptr ib_base]. by rewrite Z.sub_diag. Qed.

Lemma hdr_word_inv blob off v : hdr_word blob off = Ret v -> 0 <= off /\ off + 4 <= zlen blob.
Proof.
  unfold hdr_word, bytes_from. destruct (Z.leb_spec 0 off), (Z.leb_spec (off + Z.of_nat 4) (zlen blob)); cbn; try done; lia.
Qed.

(** A part of a file reads like the file. *)
Lemma hdr_word_take f n off :
  0 <= off -> off + 4 <= n -> n <= zlen f -> hdr_word (take (Z.to_nat n) f) off = hdr_word f off.
Proof.
  intros H1 H2 H3. unfold hdr_word, bytes_from. assert (zlen (take (Z.to_nat n) f) = n) as ->.
  { unfold zlen in *. rewrite length_take. lia. }
  destruct (Z.leb_spec 0 off), (Z.leb_spec (off + Z.of_nat 4) n), (Z.leb_spec (off + Z.of_nat 4) (zlen f)); try lia.
  cbn [andb rbind]. rewrite skipn_firstn_comm, take_take. do 2 f_equal. lia.
Qed.

(** The wrap-around test of a sum of two words. *)
Lemma u32_sum a b : is_u32 a -> is_u32 b -> a <= u32 (a + b) -> u32 (a + b) = a + b.
Proof.
  intros Ha Hb. unfold u32 in *. cint_unfold. pose proof (Z.div_mod (a + b) 4294967296).
  pose proof (Z.div_pos (a + b) 4294967296). pose proof (Z.div_lt_upper_bound (a + b) 4294967296 2).
  assert ((a + b) / 4294967296 = 0 \/ (a + b) / 4294967296 = 1) by lia. lia.
Qed.

(** The lengths of the properties of a file, decided. *)
Definition lens_ok (f : list byte) (off_dt : Z) : bool :=
  forallb (fun k => match hdr_word f (off_dt + 4 * Z.of_nat k), hdr_word f (off_dt + 4 * Z.of_nat k + 4) with
    | Ret t, Ret v => negb (t =? FDT_PROP) || (v <=? INT_MAX) | _, _ => true end) (seq 0 (length f)).

Lemma lens_ok_sound f off_dt :
  0 <= off_dt -> lens_ok f off_dt = true ->
  forall k v, 0 <= k -> k mod 4 = 0 -> hdr_word f (off_dt + k) = Ret FDT_PROP ->
    hdr_word f (off_dt + k + 4) = Ret v -> v <= INT_MAX.
Proof.
  unfold lens_ok. rewrite forallb_forall. intros Hd H k v Hk Hm Hp Hv. destruct (hdr_word_inv _ _ _ Hp) as [_ Hb].
  assert (k = 4 * Z.of_nat (Z.to_nat (k / 4))) as E.
  { pose proof (Z.div_mod k 4). pose proof (Z.div_pos k 4). lia. }
  specialize (H (Z.to_nat (k / 4))). rewrite <- E, Hp, Hv, Z.eqb_refl in H. apply Z.leb_le, H. apply in_seq.
  unfold zlen in Hb. lia.
Qed.

Lemma dt_from_blob_safe f total_size off_dt :
  zlen f <= INT_MAX - 8 -> hdr_word f 4 = Ret total_size -> hdr_word f 8 = Ret off_dt -> 40 <= total_size ->
  (forall v, hdr_word f 20 = Ret v -> 16 <= v) ->
  (forall k v, 0 <= k -> k mod 4 = 0 -> hdr_word f (off_dt + k) = Ret FDT_PROP ->
     hdr_word f (off_dt + k + 4) = Ret v -> v <= INT_MAX) ->
  wp only_dies (dt_from_blob f) (fun dti => n_deleted (dt dti) = false).
Proof.
  intros Hsize Ht Hdt H40 Hver Hlen. unfold dt_from_blob.
  destruct (Z.ltb_spec (zlen f) 4); [done|]. destruct (hdr_word_ret f 0) as (magic & -> & _); [lia..|]. cbn [rbind].
  destruct (negb (magic =? FDT_MAGIC)); [done|]. destruct (Z.ltb_spec (zlen f) 8); [done|]. rewrite Ht. cbn [rbind].
  destruct (hdr_word_ret f 4) as (t' & Et & Htu); [lia..|]. rewrite Ht in Et. injection Et as <-.
  destruct (total_size <? FDT_V1_SIZE); [done|].
  destruct (Z.ltb_spec (s32 (total_size - 8)) 0) as [Hneg|Hpos]; cbn [andb orb].
  { destruct (Z.ltb_spec total_size (zlen f)); [|done]. rewrite s32_small in Hneg by ilia. lia. }
  destruct (Z.ltb_spec (zlen f) total_size); [done|].
  cbv zeta. set (blob := take (Z.to_nat total_size) f).
  assert (zlen blob = total_size) as Ez by (unfold blob, zlen in *; rewrite length_take; lia).
  assert (W : forall off, 0 <= off -> off + 4 <= total_size -> hdr_word blob off = hdr_word f off).
  { intros off H1' H2'. by apply hdr_word_take. }
  rewrite !W by lia. rewrite Hdt. cbn [rbind].
  destruct (hdr_word_ret f 8) as (o' & Eo & Hou); [lia..|]. rewrite Hdt in Eo. injection Eo as <-.
  destruct (hdr_word_ret f 12) as (off_str & -> & Hsu); [lia..|]. cbn [rbind].
  destruct (hdr_word_ret f 16) as (off_rsv & -> & Hru); [lia..|]. cbn [rbind].
  destruct (hdr_word_ret f 20) as (version & Ev & _); [lia..|]. specialize (Hver _ Ev). rewrite Ev. cbn [rbind].
  destruct (hdr_word_ret f 28) as (cpu & -> & _); [lia..|]. cbn [rbind].
  destruct (Z.leb_spec total_size off_rsv); [done|]. destruct (Z.leb_spec total_size off_dt); [done|].
  destruct (Z.ltb_spec total_size off_str); [done|]. destruct (Z.leb_spec 3 version); [|lia].
  destruct (hdr_word_ret f 32) as (size_str & -> & Hssu); [lia..|]. cbn [rbind].
  destruct (Z.ltb_spec (u32 (off_str + size_str)) off_str), (Z.ltb_spec total_size (u32 (off_str + size_str))); cbn [orb rbind]; try done.
  assert (off_str + size_str <= total_size) as Hstr.
  { rewrite <- (u32_sum off_str size_str) by done. lia. }
  apply wp_bind. eapply wp_mono with (P := fun _ => True).
  { destruct (17 <=? version); [|done]. destruct (hdr_word_ret f 36) as (size_dt & -> & _); [lia..|]. cbn [rbind].
    by destruct (_ || _). }
  intros _ _. destruct (Z.ltb_spec version 16); [lia|].
  apply wp_bind. eapply wp_mono; [apply mem_reserve_safe; [lia|apply ib_init_ok; ilia]|]. intros l _.
  apply wp_bind. eapply wp_mono; [apply word_safe; [apply ib_init_ok; ilia|apply ib_init_aligned]|].
  intros [v inb1] (_ & _ & E1 & Hi1 & Ha1). cbn [fst snd] in *. destruct (negb (v =? FDT_BEGIN_NODE)); [done|].
  apply wp_bind. eapply wp_mono; [apply (unflatten_safe blob) with (base := off_dt); subst inb1; cbn [inbuf_init ib_set ib_ptr ib_base ib_limit] in *;
    try done; try lia|].
  - ilia.
  - intros k w Hk Hm Hp Hw. destruct (hdr_word_inv _ _ _ Hp) as [P1 P2]. destruct (hdr_word_inv _ _ _ Hw) as [P3 P4]. rewrite Ez in *.
    rewrite W in Hp by lia. rewrite W in Hw by lia. exact (Hlen k w Hk Hm Hp Hw).
  - unfold zlen in Ez. ilia.
  - intros [n inb2] [[(B1 & B2 & B3 & B4) B5] Hd]. cbn [fst snd] in *. apply wp_bind.
    eapply wp_mono; [apply word_safe; [exact B4|exact B5]|]. intros [v2 inb3] _. by destruct (negb (v2 =? FDT_END)).
Qed.
