(* ===== verification/DtcFlatSpec.v ===== *)
(** What dtc emits for a live tree: the operations of the tree, their tokens
    and strings, and the blob around them. *)
From S2P Require Import Prelude Monad Ctype Memory Libfdt Fdt FdtSpec FdtTree FdtRo FdtRead FdtRw FdtEdit.
From S2P Require Import FdtRwSpec FdtSwBuild DtcUtil DtcData DtcTree DtcFlat DtcDataSpec DtcTreeSpec.

(** ** The live part of a tree *)

Definition live_props (l : list property) : list (list byte * list byte) :=
  flat_map (fun p => if p_deleted p then [] else [(p_name p, d_val (p_val p))]) l.

Fixpoint live (n : node) : wnode :=
  WNode (n_name n) (live_props (n_proplist n))
    (flat_map (fun c => if n_deleted c then [] else [live c]) (n_children n)).

Definition live_kids (l : list node) : list wnode :=
  flat_map (fun c => if n_deleted c then [] else [live c]) l.

(** ** The string table *)

(** Strings one after the other. *)
Definition tab_ok (strs : list byte) : Prop := strs = [] \/ last strs = Some x00.

Lemma streq_at_spec s p :
  no_nul s -> last p = Some x00 -> streq_at s p = Ret (bool_decide (take (length (s ++ [x00])) p = s ++ [x00])).
Proof.
  intros Hs. revert p. induction s as [|x s IH]; intros [|c p] Hp; try done; cbn [streq_at app length take].
  - rewrite take_0. f_equal. apply bool_decide_ext. split; [by intros ->|by intros [= ->]].
  - apply not_elem_of_cons in Hs as [Hx Hs]. destruct (decide (x = c)) as [->|Hne].
    + rewrite bool_decide_eq_true_2 by done. destruct p as [|c' p].
      { cbn in Hp. injection Hp as ->. done. }
      rewrite IH by done. f_equal. apply bool_decide_ext. split; [by intros ->|by intros [= ->]].
    + rewrite (bool_decide_eq_false_2 (x = c)) by done. by rewrite bool_decide_eq_false_2 by congruence.
Qed.

Lemma last_cons_cons {A} (x y : A) l : last (x :: y :: l) = last (y :: l).
Proof. done. Qed.

Lemma stringtable_find_spec s p i :
  no_nul s -> tab_ok p -> stringtable_find s p i = Ret (find_str (s ++ [x00]) p i).
Proof.
  intros Hs. revert i. induction p as [|c p IH]; intros i Hp; cbn [stringtable_find find_str].
  - rewrite take_nil, bool_decide_eq_false_2; [done|]. by destruct s.
  - destruct Hp as [?|Hp]; [done|]. rewrite streq_at_spec by done. cbn [rbind].
    case_bool_decide; [done|]. apply IH. destruct p; [by left|right; by rewrite last_cons_cons in Hp].
Qed.

Lemma add_str_tab strs s : tab_ok strs -> tab_ok (add_str strs s).1.
Proof.
  intros H. unfold add_str. destruct (str_pos strs s); [done|]. right. cbn [fst]. by rewrite app_assoc, last_snoc.
Qed.

Lemma add_str_len strs s : zlen strs <= zlen (add_str strs s).1 <= zlen strs + zlen s + 1.
Proof.
  pose proof (zlen_nonneg s). unfold add_str. destruct (str_pos strs s); cbn [fst]; [lia|].
  rewrite !zlen_app. change (zlen [x00]) with 1. lia.
Qed.

Lemma add_str_off strs s : 0 <= (add_str strs s).2 <= zlen strs.
Proof.
  pose proof (zlen_nonneg strs). unfold add_str. destruct (str_pos strs s) as [o|] eqn:E; cbn [snd]; [|lia].
  pose proof (str_pos_range _ _ _ E). lia.
Qed.

Lemma stringtable_insert_at d s :
  no_nul s -> tab_ok (d_val d) -> data_wf d -> d_len d + zlen s + 1 < DATA_MAX ->
  exists d', stringtable_insert d s = Ret ((add_str (d_val d) s).2, d') /\
    d_val d' = (add_str (d_val d) s).1 /\ data_wf d'.
Proof.
  intros Hs Ht Hw Hm. pose proof (d_len_nonneg d). pose proof (zlen_nonneg s). unfold stringtable_insert, DATA_MAX in *.
  rewrite stringtable_find_spec by done. cbn [rbind]. unfold add_str. fold (str_pos (d_val d) s).
  destruct (str_pos (d_val d) s) as [o|] eqn:E; cbn [fst snd].
  - pose proof (str_pos_range _ _ _ E). unfold d_len in *. exists d. rewrite s32_small by ilia. done.
  - destruct (data_append_data_at d (s ++ [x00]) Hw) as (d' & -> & E1 & _ & Hw').
    { rewrite zlen_app. change (zlen [x00]) with 1. unfold DATA_MAX. lia. }
    cbn [rbind]. exists d'. rewrite s32_small by (unfold d_len in *; ilia). done.
Qed.

(** ** The tokens of operations *)

(** Tokens and strings of operations written one after the other. *)
Fixpoint toks_of (strs : list byte) (ops : list sw_op) : list tok * list byte :=
  match ops with
  | [] => ([], strs)
  | op :: ops =>
    let '(t, strs) :=
      match op with
      | SwBegin name => (TBegin name, strs)
      | SwEnd => (TEnd, strs)
      | SwProp name val => (TProp (add_str strs name).2 val, (add_str strs name).1)
      end in
    let '(ts, strs) := toks_of strs ops in (t :: ts, strs)
  end.

(** The names an operation may have. *)
Definition op_named (op : sw_op) : Prop :=
  match op with
  | SwBegin name | SwProp name _ => no_nul name
  | SwEnd => True
  end.

Lemma toks_of_mono strs ops : zlen strs <= zlen (toks_of strs ops).2.
Proof.
  revert strs. induction ops as [|op ops IH]; intros strs; [done|]. cbn [toks_of].
  destruct op as [n| |n v]; [pose proof (IH strs)|pose proof (IH strs)
    |pose proof (IH (add_str strs n).1); pose proof (add_str_len strs n)]; destruct (toks_of _ ops); cbn [snd] in *; lia.
Qed.

Lemma toks_of_get strs ops o n :
  strs_get strs o = Some n -> strs_get (toks_of strs ops).2 o = Some n.
Proof.
  revert strs. induction ops as [|op ops IH]; intros strs Hg; [done|]. cbn [toks_of].
  destruct op as [nm| |nm v]; [pose proof (IH strs Hg)|pose proof (IH strs Hg)
    |pose proof (IH (add_str strs nm).1 (add_str_mono _ nm _ _ Hg))]; by destruct (toks_of _ ops).
Qed.

(** The tokens write the operations, and are tokens libfdt can read. *)
Lemma toks_of_writes strs ops :
  Forall op_named ops -> zlen (toks_of strs ops).2 <= UINT32_MAX ->
  Forall2 (writes (strs_get (toks_of strs ops).2)) ops (toks_of strs ops).1 /\
  Forall tok_ok (toks_of strs ops).1.
Proof.
  revert strs. induction ops as [|op ops IH]; intros strs Hn Hl; [split; constructor|].
  apply Forall_cons in Hn as [Hn1 Hn]. cbn [toks_of] in *. destruct op as [nm| |nm v]; cbn [op_named] in Hn1.
  1,2: specialize (IH strs Hn); destruct (toks_of strs ops) as [ts strs']; cbn [fst snd] in *;
    destruct (IH Hl); (split; constructor; done).
  pose proof (toks_of_get (add_str strs nm).1 ops _ _ (add_str_get strs nm Hn1)) as Hg.
  pose proof (add_str_off strs nm). pose proof (add_str_len strs nm). pose proof (toks_of_mono (add_str strs nm).1 ops).
  specialize (IH (add_str strs nm).1 Hn). destruct (toks_of _ ops) as [ts strs']; cbn [fst snd] in *.
  destruct (IH Hl). split; constructor; [by split|done|cbn; ilia|done].
Qed.

(** ** Emitting operations *)

Section emit.
Context (vi : version_info).
Context (Hfull : has_flag (vi_flags vi) FTF_FULLPATH = false).
Context (Halign : has_flag (vi_flags vi) FTF_VARALIGN = false).
Context (Hnames : has_flag (vi_flags vi) FTF_NAMEPROPS = false).

(** What [flatten_tree] does for one operation. *)
Definition emit_op (op : sw_op) (st : data * data) : res (data * data) :=
  let '(e, strbuf) := st in
  match op with
  | SwBegin name =>
    let! e := bin_emit_cell e FDT_BEGIN_NODE in
    let! e := bin_emit_string e name 0 in
    let! e := bin_emit_align e 4 in Ret (e, strbuf)
  | SwEnd => let! e := bin_emit_cell e FDT_END_NODE in Ret (e, strbuf)
  | SwProp name val =>
    let! '(nameoff, strbuf) := stringtable_insert strbuf name in
    let! e := bin_emit_cell e FDT_PROP in
    let! e := bin_emit_cell e (zlen val) in
    let! e := bin_emit_cell e (u32 nameoff) in
    let! e := data_append_data e val in
    let! e := bin_emit_align e 4 in Ret (e, strbuf)
  end.

Fixpoint emit_ops (ops : list sw_op) (st : data * data) : res (data * data) :=
  match ops with
  | [] => Ret st
  | op :: ops => let! st := emit_op op st in emit_ops ops st
  end.

Lemma emit_ops_app ops1 ops2 st : emit_ops (ops1 ++ ops2) st = let! st := emit_ops ops1 st in emit_ops ops2 st.
Proof using.
  revert st. induction ops1 as [|op ops1 IH]; intros st; cbn [app emit_ops]; [done|].
  destruct (emit_op op st) as [st'|]; cbn [rbind]; [apply IH|done].
Qed.

Lemma flatten_props_ops st props :
  flatten_props bin_emitter vi st props = emit_ops (map (fun p => SwProp p.1 p.2) (live_props props)) st.
Proof using Halign.
  revert st. induction props as [|p props IH]; intros st; [done|]. cbn [flatten_props live_props flat_map].
  destruct (p_deleted p); [apply IH|]. cbn [app map emit_ops fst snd]. unfold flatten_prop. destruct st as [e strbuf].
  rewrite Halign. cbn [emit_op andb bin_emitter e_property e_cell e_data e_align e_string].
  unfold bin_emit_property, bin_emit_data. change (zlen (d_val (p_val p))) with (d_len (p_val p)).
  destruct (stringtable_insert strbuf (p_name p)) as [[off sb]|]; cbn [rbind]; [|done].
  destruct (bin_emit_cell e FDT_PROP) as [e1|]; cbn [rbind]; [|done].
  destruct (bin_emit_cell e1 _) as [e2|]; cbn [rbind]; [|done].
  destruct (bin_emit_cell e2 _) as [e3|]; cbn [rbind]; [|done].
  destruct (data_append_data e3 _) as [e4|]; cbn [rbind]; [|done].
  destruct (bin_emit_align e4 4) as [e5|]; cbn [rbind]; [|done].
  apply IH.
Qed.

(** Flattening emits the operations of the live tree, in their order. *)
Lemma flatten_tree_ops n st :
  n_deleted n = false -> flatten_tree bin_emitter vi n st = emit_ops (wops (live n)) st.
Proof using Hfull Halign Hnames.
  revert st. induction n as [n IH] using node_ind'. intros st Hd. destruct n as [d nm pl ch fp bl ph ac sc lb om rf].
  cbn [n_deleted] in Hd. subst d. cbn [flatten_tree n_deleted live wops n_name_ n_proplist n_children]. rewrite Hfull, Hnames.
  destruct st as [e strbuf]. cbn [bin_emitter e_beginnode e_string e_align e_endnode andb emit_ops emit_op].
  unfold bin_emit_beginnode. cbn [n_labels].
  destruct (bin_emit_cell e FDT_BEGIN_NODE) as [e1|]; cbn [rbind]; [|done].
  destruct (bin_emit_string e1 _ 0) as [e2|]; cbn [rbind]; [|done].
  destruct (bin_emit_align e2 4) as [e3|]; cbn [rbind]; [|done].
  change (Emitter _ _ _ _ _ _ _) with bin_emitter. rewrite flatten_props_ops, emit_ops_app.
  destruct (emit_ops _ (e3, strbuf)) as [st1|]; cbn [rbind]; [|done]. rewrite emit_ops_app.
  change (flat_map (fun c => if n_deleted c then [] else [live c]) ch) with (live_kids ch).
  assert (forall st, (fix children (st : data * data) (cs : list node) : res (data * data) :=
      match cs with
      | [] => Ret st
      | child :: cs => if n_deleted child then children st cs else
        let! st := flatten_tree bin_emitter vi child st in children st cs
      end) st ch = emit_ops (flat_map wops (live_kids ch)) st) as ->.
  { cbn [n_children] in IH. clear -IH. induction IH as [|c ch Hc _ IHl]; intros st; [done|]. cbn [live_kids flat_map].
    destruct (n_deleted c) eqn:Hdc; [apply IHl|]. cbn [app flat_map]. rewrite emit_ops_app, Hc by done.
    destruct (emit_ops (wops (live c)) st) as [st'|]; cbn [rbind]; [|done]. apply IHl. }
  destruct (emit_ops (flat_map wops _) st1) as [[e4 s4]|]; cbn [rbind emit_ops emit_op]; [|done].
  unfold bin_emit_endnode. destruct (bin_emit_cell e4 FDT_END_NODE); done.
Qed.
End emit.

(** ** The bytes emitted *)

(** Two buffers that hold [buf] and [strs], ready for the next token. *)
Record emitted (st : data * data) (buf strs : list byte) : Prop := Emitted {
  em_buf : d_val st.1 = buf;
  em_strs : d_val st.2 = strs;
  em_wf : data_wf st.1 /\ data_wf st.2;
  em_mod : zlen buf mod 4 = 0;
  em_tab : tab_ok strs;
}.

Lemma bytes_from_all p q : bytes_from (p ++ q) 0 (Z.to_nat (zlen p)) = Ret p.
Proof.
  unfold bytes_from. rewrite zlen_app. pose proof (zlen_nonneg q). pose proof (zlen_nonneg p).
  destruct (Z.leb_spec 0 0), (Z.leb_spec (0 + Z.of_nat (Z.to_nat (zlen p))) (zlen p + zlen q)); try lia.
  cbn [andb]. change (Z.to_nat 0) with O. rewrite drop_0. unfold zlen. by rewrite Nat2Z.id, take_app_length.
Qed.

Lemma bin_emit_string_at e s :
  data_wf e -> d_len e + zlen s + 1 <= DATA_MAX ->
  exists e', bin_emit_string e s 0 = Ret e' /\ appended e (s ++ [x00]) (d_markers e) e'.
Proof.
  intros Hw Hm. unfold bin_emit_string. change (0 =? 0) with true. cbv iota. rewrite bytes_from_all. cbn [rbind].
  destruct (data_append_data_at e s Hw) as (e1 & -> & H1); [lia|]. cbn [rbind].
  pose proof (appended_len _ _ _ _ H1).
  destruct (data_append_data_at e1 [x00] (appended_wf _ _ _ _ H1)) as (e2 & E2 & H2); [change (zlen [x00]) with 1; lia|].
  exists e2. split; [exact E2|]. destruct H1 as (A1 & A2 & A3), H2 as (B1 & B2 & B3).
  split; [by rewrite B1, A1, <- app_assoc|]. by rewrite B2, A2.
Qed.

Lemma bin_emit_align_at e buf p :
  data_wf e -> d_val e = buf ++ p -> zlen buf mod 4 = 0 -> d_len e + 4 < DATA_MAX ->
  exists e', bin_emit_align e 4 = Ret e' /\
    appended e (replicate (Z.to_nat (align_up (zlen p) 4 - zlen p)) x00) (d_markers e) e'.
Proof.
  intros Hw E Hm Hl. destruct (data_append_align_at e 2 Hw) as (e' & E' & H); [lia|exact Hl|].
  change (2 ^ 2) with 4 in *. exists e'. split; [exact E'|].
  assert (align_up (d_len e) 4 - d_len e = align_up (zlen p) 4 - zlen p) as <-; [|exact H].
  unfold d_len. rewrite E, zlen_app, align_up_4_add by done. lia.
Qed.

Lemma tok_bytes_begin name :
  tok_bytes (TBegin name) = be_enc32 FDT_BEGIN_NODE ++ (name ++ [x00]) ++
    replicate (Z.to_nat (align_up (zlen (be_enc32 FDT_BEGIN_NODE ++ name ++ [x00])) 4 - zlen (be_enc32 FDT_BEGIN_NODE ++ name ++ [x00]))) x00.
Proof.
  unfold tok_bytes. cbn [tok_enc tok_len].
  assert (align_up (zlen (be_enc32 FDT_BEGIN_NODE ++ name ++ [x00])) 4 = 4 + align_up (zlen name + 1) 4) as ->.
  { rewrite !zlen_app, be_enc32_zlen. change (zlen [x00]) with 1. by apply align_up_4_add. }
  by rewrite <- !app_assoc.
Qed.

Lemma tok_bytes_prop no v :
  tok_bytes (TProp no v) = be_enc32 FDT_PROP ++ be_enc32 (zlen v) ++ be_enc32 no ++ v ++
    replicate (Z.to_nat (align_up (zlen (be_enc32 FDT_PROP ++ be_enc32 (zlen v) ++ be_enc32 no ++ v)) 4 -
      zlen (be_enc32 FDT_PROP ++ be_enc32 (zlen v) ++ be_enc32 no ++ v))) x00.
Proof.
  unfold tok_bytes. cbn [tok_enc tok_len].
  assert (align_up (zlen (be_enc32 FDT_PROP ++ be_enc32 (zlen v) ++ be_enc32 no ++ v)) 4 = 12 + align_up (zlen v) 4) as ->.
  { rewrite !zlen_app, !be_enc32_zlen. replace (4 + (4 + (4 + zlen v))) with (12 + zlen v) by lia. by apply align_up_4_add. }
  by rewrite <- !app_assoc.
Qed.

Lemma emit_begin_at e sb buf strs name :
  emitted (e, sb) buf strs -> zlen buf + tok_len (TBegin name) + 4 < DATA_MAX ->
  exists st, emit_op (SwBegin name) (e, sb) = Ret st /\ emitted st (buf ++ tok_bytes (TBegin name)) strs.
Proof.
  intros [Hb Hs [Hw1 Hw2] Hm Ht] Hl. cbn [fst snd tok_len] in *. assert (d_len e = zlen buf) as El by (unfold d_len; by rewrite Hb).
  pose proof (zlen_nonneg name). pose proof (align_up_4_bounds (zlen name + 1)). unfold emit_op, bin_emit_cell.
  destruct (data_append_cell_at e FDT_BEGIN_NODE Hw1) as (e1 & -> & A1); [lia|]. cbn [rbind].
  pose proof (appended_len _ _ _ _ A1) as L1. rewrite be_enc32_zlen in L1.
  destruct (bin_emit_string_at e1 name (appended_wf _ _ _ _ A1)) as (e2 & -> & A2); [lia|]. cbn [rbind].
  pose proof (appended_len _ _ _ _ A2) as L2. rewrite zlen_app in L2. change (zlen [x00]) with 1 in L2.
  pose proof (appended_trans _ _ _ _ _ _ _ A1 A2) as A12. pose proof A12 as (B1 & _ & _).
  rewrite Hb in B1.
  destruct (bin_emit_align_at e2 buf _ (appended_wf _ _ _ _ A2) B1 Hm) as (e3 & -> & A3); [lia|]. cbn [rbind].
  pose proof (appended_trans _ _ _ _ _ _ _ A12 A3) as (C1 & _ & C3). eexists. split; [done|].
  constructor; cbn [fst snd]; [|exact Hs|by split| |exact Ht].
  - rewrite C1, Hb, tok_bytes_begin. by rewrite <- !app_assoc.
  - rewrite zlen_app, tok_bytes_len, Z.add_mod, Hm, tok_len_mod by lia. done.
Qed.

Lemma emit_end_at e sb buf strs :
  emitted (e, sb) buf strs -> zlen buf + 4 < DATA_MAX ->
  exists st, emit_op SwEnd (e, sb) = Ret st /\ emitted st (buf ++ tok_bytes TEnd) strs.
Proof.
  intros [Hb Hs [Hw1 Hw2] Hm Ht] Hl. cbn [fst snd] in *. assert (d_len e = zlen buf) as El by (unfold d_len; by rewrite Hb).
  unfold emit_op, bin_emit_cell. destruct (data_append_cell_at e FDT_END_NODE Hw1) as (e1 & -> & (A1 & _ & A3)); [lia|]. cbn [rbind].
  eexists. split; [done|]. constructor; cbn [fst snd]; [|exact Hs|by split| |exact Ht].
  - rewrite A1, Hb. done.
  - rewrite zlen_app, tok_bytes_len, Z.add_mod, Hm, tok_len_mod by lia. done.
Qed.

Lemma emit_prop_at e sb buf strs name v :
  emitted (e, sb) buf strs -> no_nul name ->
  zlen buf + tok_len (TProp 0 v) + 4 < DATA_MAX -> zlen strs + zlen name + 1 < DATA_MAX ->
  exists st, emit_op (SwProp name v) (e, sb) = Ret st /\
    emitted st (buf ++ tok_bytes (TProp (add_str strs name).2 v)) (add_str strs name).1.
Proof.
  intros [Hb Hs [Hw1 Hw2] Hm Ht] Hn Hl Hl2. cbn [fst snd tok_len] in *.
  assert (d_len e = zlen buf) as El by (unfold d_len; by rewrite Hb).
  pose proof (zlen_nonneg v). pose proof (align_up_4_bounds (zlen v)). unfold emit_op, bin_emit_cell.
  subst strs. destruct (stringtable_insert_at sb name Hn Ht Hw2 Hl2) as (sb' & -> & S1 & S2). cbn [rbind].
  pose proof (add_str_off (d_val sb) name) as Ho. pose proof (zlen_nonneg name). unfold DATA_MAX in *.
  rewrite (u32_small (add_str _ _).2) by ilia. set (no := (add_str (d_val sb) name).2) in *.
  destruct (data_append_cell_at e FDT_PROP Hw1) as (e1 & -> & A1); [unfold DATA_MAX; lia|]. cbn [rbind].
  pose proof (appended_len _ _ _ _ A1) as L1. rewrite be_enc32_zlen in L1.
  destruct (data_append_cell_at e1 (zlen v) (appended_wf _ _ _ _ A1)) as (e2 & -> & A2); [unfold DATA_MAX; lia|]. cbn [rbind].
  pose proof (appended_len _ _ _ _ A2) as L2. rewrite be_enc32_zlen in L2.
  destruct (data_append_cell_at e2 no (appended_wf _ _ _ _ A2)) as (e3 & -> & A3); [unfold DATA_MAX; lia|]. cbn [rbind].
  pose proof (appended_len _ _ _ _ A3) as L3. rewrite be_enc32_zlen in L3.
  destruct (data_append_data_at e3 v (appended_wf _ _ _ _ A3)) as (e4 & -> & A4); [unfold DATA_MAX; lia|]. cbn [rbind].
  pose proof (appended_len _ _ _ _ A4) as L4.
  pose proof (appended_trans _ _ _ _ _ _ _ A1 (appended_trans _ _ _ _ _ _ _ A2 (appended_trans _ _ _ _ _ _ _ A3 A4))) as A.
  pose proof A as (B1 & _ & _). rewrite Hb in B1.
  destruct (bin_emit_align_at e4 buf _ (appended_wf _ _ _ _ A4) B1 Hm) as (e5 & -> & A5); [unfold DATA_MAX; lia|]. cbn [rbind].
  pose proof (appended_trans _ _ _ _ _ _ _ A A5) as (C1 & _ & C3). eexists. split; [done|].
  constructor; cbn [fst snd]; [|exact S1|by split| |by apply add_str_tab].
  - rewrite C1, Hb, tok_bytes_prop. by rewrite <- !app_assoc.
  - rewrite zlen_app, tok_bytes_len, Z.add_mod, Hm, tok_len_mod by lia. done.
Qed.

(** Emitting operations appends their tokens and makes their strings. *)
Lemma emit_ops_at ops st buf strs :
  emitted st buf strs -> Forall op_named ops ->
  zlen buf + toks_len (toks_of strs ops).1 + 4 < DATA_MAX ->
  zlen strs + foldr (fun op n => op_need op + n) 0 ops + 1 < DATA_MAX ->
  exists st', emit_ops ops st = Ret st' /\
    emitted st' (buf ++ flat_map tok_bytes (toks_of strs ops).1) (toks_of strs ops).2.
Proof.
  revert st buf strs. induction ops as [|op ops IH]; intros [e sb] buf strs Hem Hn Hl Hl2; cbn [emit_ops toks_of].
  - exists (e, sb). cbn. by rewrite app_nil_r.
  - apply Forall_cons in Hn as [Hn1 Hn]. cbn [toks_of foldr] in *.
    assert (0 <= foldr (fun op n => op_need op + n) 0 ops) as Hpos.
    { clear. induction ops as [|op ops IH]; cbn; [lia|]. pose proof (op_need_pos op). lia. }
    assert (Hstep : exists t strs1, (match op with
        | SwBegin name => (TBegin name, strs) | SwEnd => (TEnd, strs)
        | SwProp name val => (TProp (add_str strs name).2 val, (add_str strs name).1) end) = (t, strs1) /\
      zlen strs1 <= zlen strs + op_need op /\
      (zlen buf + tok_len t + 4 < DATA_MAX ->
       exists st', emit_op op (e, sb) = Ret st' /\ emitted st' (buf ++ tok_bytes t) strs1)).
    { destruct op as [nm| |nm v]; do 2 eexists; (split; [done|]); cbn [op_need op_named] in *.
      - pose proof (align_up_4_bounds (zlen nm + 1)). pose proof (zlen_nonneg nm). split; [lia|]. by apply emit_begin_at.
      - split; [lia|]. intros. apply emit_end_at; [done|]. cbn [tok_len] in *. lia.
      - pose proof (align_up_4_bounds (zlen v)). pose proof (zlen_nonneg v). pose proof (add_str_len strs nm).
        split; [lia|]. intros. apply emit_prop_at; [done|done|done|lia]. }
    destruct Hstep as (t & strs1 & Eop & Hlen & Hop). rewrite Eop in *. clear Eop. destruct (toks_of strs1 ops) as [ts strs2] eqn:Et.
    cbn [fst snd toks_len flat_map] in *. pose proof (toks_len_nonneg ts).
    destruct Hop as (st1 & -> & Hem1); [lia|]. cbn [rbind].
    destruct (IH st1 (buf ++ tok_bytes t) strs1 Hem1 Hn) as (st' & E' & Hem').
    { rewrite Et, zlen_app, tok_bytes_len. cbn [fst]. lia. }
    { lia. }
    rewrite Et in Hem'. cbn [fst snd] in Hem'. exists st'. split; [exact E'|]. by rewrite app_assoc.
Qed.

(** ** The blob *)

Definition rsv_of (l : list reserve_info) : list (Z * Z) := map (fun r => (rs_address r, rs_size r)) l.

(** The contents only. *)
Definition grown (d : data) (p : list byte) (r : res data) : Prop :=
  exists d', r = Ret d' /\ d_val d' = d_val d ++ p /\ data_wf d'.

Lemma appended_grown d p ms r : (exists d', r = Ret d' /\ appended d p ms d') -> grown d p r.
Proof. intros (d' & E & A1 & _ & A3). by exists d'. Qed.

Lemma data_merge_at d1 d2 :
  data_wf d1 -> d_len d1 + d_len d2 <= DATA_MAX -> grown d1 (d_val d2) (data_merge d1 d2).
Proof.
  intros Hw Hm. unfold data_merge. destruct (data_append_data_at d1 (d_val d2) Hw Hm) as (d & -> & A1 & _ & [A3]).
  cbn [rbind]. eexists. split; [done|]. split; [exact A1|by split].
Qed.

Lemma zeros_app n k : 0 <= n -> 0 <= k ->
  replicate (Z.to_nat n) x00 ++ replicate (Z.to_nat k) x00 = replicate (Z.to_nat (n + k)) x00.
Proof. intros. rewrite <- replicate_add. f_equal. lia. Qed.

Lemma zeros_len n : 0 <= n -> zlen (replicate (Z.to_nat n) x00) = n.
Proof. intros. unfold zlen. rewrite length_replicate. lia. Qed.

Lemma append_entries_at {A} (f : A -> list byte) (g : data -> A -> res data) l :
  (forall a, zlen (f a) = 16) ->
  (forall d a, data_wf d -> d_len d + 16 <= DATA_MAX -> grown d (f a) (g d a)) ->
  forall d, data_wf d -> d_len d + 16 * zlen l <= DATA_MAX ->
  grown d (flat_map f l) (fold_left (fun r a => let! d := r in g d a) l (Ret d)).
Proof.
  intros Hf Hg. induction l as [|a l IH]; intros d Hw Hm; cbn [fold_left flat_map].
  - exists d. by rewrite app_nil_r.
  - rewrite zlen_cons in Hm. pose proof (zlen_nonneg l). cbn [rbind].
    destruct (Hg d a Hw ltac:(lia)) as (d1 & -> & E1 & W1).
    destruct (IH d1 W1) as (d2 & -> & E2 & W2); [unfold d_len in *; rewrite E1, zlen_app, Hf; lia|].
    exists d2. by rewrite E2, E1, app_assoc.
Qed.

Lemma flatten_reserve_list_at o l :
  0 <= reservenum o -> 16 * zlen l + 16 * reservenum o <= DATA_MAX ->
  exists d, flatten_reserve_list o l = Ret d /\ data_wf d /\
    d_val d = rsv_enc (rsv_of l) ++ replicate (Z.to_nat (16 * reservenum o)) x00.
Proof.
  intros Hr Hm. unfold flatten_reserve_list. pose proof (zlen_nonneg l).
  destruct (append_entries_at (fun re => be_enc64 (rs_address re) ++ be_enc64 (rs_size re))
    (fun d re => data_append_re d (rs_address re) (rs_size re)) l ltac:(done)) with (d := empty_data) as (d & -> & E & W);
    [intros d a Hw Hl; eapply appended_grown, data_append_data_at; done|apply empty_wf|change (d_len empty_data) with 0; lia|].
  cbn [rbind]. cbn [empty_data d_val app] in E.
  assert (d_val d = rsv_enc (rsv_of l)) as E'.
  { rewrite E. unfold rsv_enc, rsv_of. clear. induction l as [|r l IH]; [done|]. cbn [flat_map map]. by rewrite IH. }
  destruct (append_entries_at (fun _ : unit => replicate 16 x00) (fun d _ => data_append_re d 0 0)
    (replicate (Z.to_nat (reservenum o)) tt) ltac:(done)) with (d := d) as (d2 & E2 & E3 & W3);
    [intros d0 a Hw Hl; eapply appended_grown, data_append_data_at; done|done| |].
  { unfold d_len. rewrite E', rsv_enc_len. unfold rsv_of, zlen in *. rewrite length_map, length_replicate. lia. }
  exists d2. split; [exact E2|]. split; [done|]. rewrite E3, E'. f_equal.
  replace (Z.to_nat (16 * reservenum o)) with (16 * Z.to_nat (reservenum o))%nat by lia.
  generalize (Z.to_nat (reservenum o)) as n. intros n. induction n as [|n IH]; [done|].
  replace (16 * S n)%nat with (16 + 16 * n)%nat by lia. rewrite replicate_add, <- IH. done.
Qed.

(** The header dtc makes for version 17. *)
Definition blob_header (nrsv dtsize strsize cpuid pad : Z) : header :=
  let s := 40 + 16 * nrsv + 16 in
  Header FDT_MAGIC (s + dtsize + strsize + pad) s (s + dtsize) 40 17 16 (u32 cpuid) strsize dtsize.

Definition v17 : version_info := VersionInfo 17 16 40 120.

Lemma make_fdt_header_at nrsv dtsize strsize cpuid :
  0 <= nrsv -> 0 <= dtsize -> 0 <= strsize -> 56 + 16 * nrsv + dtsize + strsize < INT_MAX ->
  make_fdt_header v17 (16 * nrsv) dtsize strsize cpuid = Ret (blob_header nrsv dtsize strsize cpuid 0).
Proof.
  intros H1 H2 H3 H4. unfold make_fdt_header. cbn [v17 vi_hdr_size vi_flags vi_version vi_last_comp_version].
  change (s32 (ALIGN 40 8)) with 40. change sizeof_fdt_reserve_entry with 16.
  change (has_flag 120 FTF_BOOTCPUID) with true. change (has_flag 120 FTF_STRTABSIZE) with true.
  change (has_flag 120 FTF_STRUCTSIZE) with true. cbv iota zeta.
  rewrite s32_small by ilia. rewrite (sint_small (40 + _)) by ilia. cbn [rbind].
  rewrite sint_small by ilia. cbn [rbind]. rewrite sint_small by ilia. cbn [rbind].
  rewrite (u32_small strsize), (u32_small dtsize) by ilia. rewrite !u32_small by (first [ilia|done]).
  unfold blob_header. do 2 f_equal; lia.
Qed.

(** The tokens and strings of a tree, and the sizes of the blob. *)
Definition flat_toks (n : node) : list tok := (toks_of [] (wops (live n))).1.
Definition flat_strs (n : node) : list byte := (toks_of [] (wops (live n))).2.

Definition flat_struct (n : node) : list byte := flat_map tok_bytes (flat_toks n) ++ be_enc32 FDT_END.

Definition blob_entries (o : dtc_opts) (dti : dt_info) : Z := zlen (reservelist dti) + reservenum o.

Definition blob_size (o : dtc_opts) (dti : dt_info) : Z :=
  56 + 16 * blob_entries o dti + zlen (flat_struct (dt dti)) + zlen (flat_strs (dt dti)).

(** The padding behind the strings. *)
Definition blob_pad (o : dtc_opts) (dti : dt_info) : Z := Z.max 0 (blob_padlen o (blob_size o dti)).

Definition blob_hdr_of (o : dtc_opts) (dti : dt_info) : header :=
  blob_header (blob_entries o dti) (zlen (flat_struct (dt dti))) (zlen (flat_strs (dt dti)))
    (boot_cpuid_phys dti) (blob_pad o dti).

Definition blob_bytes (o : dtc_opts) (dti : dt_info) : list byte :=
  header_bytes (blob_hdr_of o dti) ++
  (rsv_enc (rsv_of (reservelist dti)) ++ replicate (Z.to_nat (16 * reservenum o)) x00) ++
  replicate 16 x00 ++ flat_struct (dt dti) ++ flat_strs (dt dti) ++ replicate (Z.to_nat (blob_pad o dti)) x00.

(** What the code relies on: C strings for names, and sizes below 2^30. *)
Record blob_ok (o : dtc_opts) (dti : dt_info) : Prop := BlobOk {
  bo_live : n_deleted (dt dti) = false;
  bo_names : Forall op_named (wops (live (dt dti)));
  bo_rsv : 0 <= reservenum o;
  bo_size : 16 * blob_entries o dti + foldr (fun op n => op_need op + n) 0 (wops (live (dt dti))) +
    blob_pad o dti <= 1073741824;
}.

Lemma toks_of_need strs ops :
  toks_len (toks_of strs ops).1 + zlen (toks_of strs ops).2 <= zlen strs + foldr (fun op n => op_need op + n) 0 ops.
Proof.
  revert strs. induction ops as [|op ops IH]; intros strs; cbn [toks_of foldr]; [cbn; lia|].
  destruct op as [n| |n v]; [pose proof (IH strs)|pose proof (IH strs)
    |pose proof (IH (add_str strs n).1); pose proof (add_str_len strs n)];
    destruct (toks_of _ ops); cbn [fst snd toks_len tok_len op_need] in *; lia.
Qed.

(** The parts one after the other. *)
Lemma assemble_at h r e sb pad :
  data_wf r -> data_wf e -> data_wf sb ->
  40 + d_len r + 16 + d_len e + d_len sb + Z.max 0 pad <= DATA_MAX ->
  exists b, assemble_blob 40 h r e sb pad = Ret b /\
    d_val b = header_bytes h ++ d_val r ++ replicate 16 x00 ++ d_val e ++ d_val sb ++ replicate (Z.to_nat (Z.max 0 pad)) x00.
Proof.
  intros Wr We Ws Hm. unfold assemble_blob. pose proof (d_len_nonneg r). pose proof (d_len_nonneg e). pose proof (d_len_nonneg sb).
  pose proof (bytes_from_all (header_bytes h) []) as Eh. rewrite app_nil_r in Eh.
  change (zlen (header_bytes h)) with 40 in Eh. rewrite Eh. cbn [rbind].
  destruct (data_append_data_at empty_data (header_bytes h) empty_wf) as (b1 & -> & A1); [done|]. cbn [rbind].
  pose proof (appended_len _ _ _ _ A1) as L1. change (d_len empty_data + zlen (header_bytes h)) with 40 in L1.
  destruct (data_append_align_at b1 3 (appended_wf _ _ _ _ A1)) as (b2 & E2 & A2); [lia|rewrite L1; done|].
  change (2 ^ 3) with 8 in *. rewrite E2. cbn [rbind]. rewrite L1 in A2.
  replace (align_up 40 8) with 40 in A2 by (with_strategy transparent [align_up] done). cbn [Z.to_nat replicate] in A2.
  pose proof (appended_len _ _ _ _ A2) as L2. change (zlen (replicate (Z.to_nat (40 - 40)) x00)) with 0 in L2.
  destruct (data_merge_at b2 r (appended_wf _ _ _ _ A2)) as (b3 & -> & V3 & W3); [lia|]. cbn [rbind].
  assert (d_len b3 = 40 + d_len r) as L3 by (unfold d_len in *; rewrite V3, zlen_app; lia).
  unfold sizeof_fdt_reserve_entry.
  destruct (data_append_zeroes_at b3 16 W3) as (b4 & -> & A4); [lia|lia|]. cbn [rbind].
  pose proof (appended_len _ _ _ _ A4) as L4. rewrite zeros_len in L4 by lia.
  destruct (data_merge_at b4 e (appended_wf _ _ _ _ A4)) as (b5 & -> & V5 & W5); [lia|]. cbn [rbind].
  assert (d_len b5 = d_len b4 + d_len e) as L5 by (unfold d_len in *; rewrite V5, zlen_app; lia).
  destruct (data_merge_at b5 sb W5) as (b6 & -> & V6 & W6); [lia|]. cbn [rbind].
  assert (d_len b6 = d_len b5 + d_len sb) as L6 by (unfold d_len in *; rewrite V6, zlen_app; lia).
  destruct A1 as (A1 & _ & _), A2 as (A2 & _ & _), A4 as (A4 & _ & _).
  assert (d_val b6 = header_bytes h ++ d_val r ++ replicate 16 x00 ++ d_val e ++ d_val sb) as V.
  { rewrite V6, V5, A4, V3, A2, A1. cbn [empty_data d_val]. rewrite app_nil_l, app_nil_r, <- !app_assoc. done. }
  destruct (Z.ltb_spec 0 pad) as [Hpos|Hz].
  - destruct (data_append_zeroes_at b6 pad W6) as (b7 & E7 & (A7 & _ & _)); [lia|lia|].
    exists b7. split; [exact E7|]. replace (Z.max 0 pad) with pad by lia. rewrite A7, V, <- !app_assoc. done.
  - replace (Z.max 0 pad) with 0 by lia. exists b6. split; [done|]. by rewrite V, app_nil_r.
Qed.

Section blob.
Context (o : dtc_opts) (dti : dt_info).
Context (Hok : blob_ok o dti).

Let S : Z := zlen (flat_struct (dt dti)).
Let N : Z := zlen (flat_strs (dt dti)).

Lemma flat_sizes :
  S = toks_len (flat_toks (dt dti)) + 4 /\ 0 <= toks_len (flat_toks (dt dti)) /\ 0 <= N /\
  toks_len (flat_toks (dt dti)) + N <= foldr (fun op n => op_need op + n) 0 (wops (live (dt dti))) /\
  0 <= zlen (reservelist dti) /\ 0 <= blob_pad o dti /\
  blob_size o dti = 56 + 16 * blob_entries o dti + S + N /\ 0 <= blob_entries o dti.
Proof using Hok.
  pose proof (toks_of_need [] (wops (live (dt dti)))) as H. change (zlen []) with 0 in H.
  fold (flat_toks (dt dti)) in H. fold (flat_strs (dt dti)) in H. pose proof (toks_len_nonneg (flat_toks (dt dti))).
  unfold S, N, flat_struct. rewrite zlen_app, toks_bytes_len, be_enc32_zlen. pose proof (zlen_nonneg (flat_strs (dt dti))).
  pose proof (zlen_nonneg (reservelist dti)). pose proof (bo_rsv _ _ Hok). unfold blob_pad, blob_size, blob_entries, flat_struct.
  rewrite zlen_app, toks_bytes_len, be_enc32_zlen. lia.
Qed.

(** The structure block and the strings. *)
Lemma flatten_at :
  exists e0 e sb, flatten_tree bin_emitter v17 (dt dti) (empty_data, empty_data) = Ret (e0, sb) /\
    bin_emit_cell e0 FDT_END = Ret e /\
    d_val e = flat_struct (dt dti) /\ d_val sb = flat_strs (dt dti) /\ data_wf e /\ data_wf sb.
Proof using Hok.
  pose proof flat_sizes as (F1 & F2 & F3 & F4 & F5 & F6 & _ & F7). pose proof (bo_size _ _ Hok).
  rewrite flatten_tree_ops by (done || apply Hok).
  destruct (emit_ops_at (wops (live (dt dti))) (empty_data, empty_data) [] []) as ([e sb] & -> & [E1 E2 [E3 E4] _ _]).
  - constructor; cbn; [done|done|split; apply empty_wf|done|by left].
  - apply Hok.
  - change (zlen []) with 0. fold (flat_toks (dt dti)). unfold DATA_MAX. lia.
  - change (zlen []) with 0. unfold DATA_MAX. lia.
  - cbn [fst snd app] in *. fold (flat_toks (dt dti)) in E1. fold (flat_strs (dt dti)) in E2.
    destruct (data_append_cell_at e FDT_END E3) as (e' & Ee & (A1 & _ & A3)).
    { unfold d_len. rewrite E1, toks_bytes_len. unfold DATA_MAX. lia. }
    exists e, e', sb. split; [done|]. split; [exact Ee|]. split; [by rewrite A1, E1|]. done.
Qed.

Lemma pad_totalsize_at :
  pad_totalsize (blob_header (blob_entries o dti) S N (s32 (boot_cpuid_phys dti)) 0) (blob_padlen o (blob_size o dti)) =
    Ret (blob_hdr_of o dti).
Proof using Hok.
  pose proof flat_sizes as (F1 & F2 & F3 & F4 & F5 & F6 & F8 & F7). pose proof (bo_size _ _ Hok) as Hsz.
  unfold pad_totalsize, blob_hdr_of, blob_pad in *. fold S N. unfold blob_header, set_totalsize. cbn [h_totalsize].
  rewrite u32_s32. replace (40 + 16 * blob_entries o dti + 16 + S + N + 0) with (blob_size o dti) by lia.
  set (pad := blob_padlen o (blob_size o dti)) in *. destruct (Z.ltb_spec 0 pad).
  - rewrite (s32_small (blob_size _ _)), sint_small by ilia. cbn [rbind].
    rewrite (u32_small (blob_size o dti + pad)) by ilia. do 2 f_equal; lia.
  - do 2 f_equal; lia.
Qed.

Lemma dt_to_blob_at : dt_to_blob o dti 17 = Ret (blob_bytes o dti).
Proof using Hok.
  pose proof flat_sizes as (F1 & F2 & F3 & F4 & F5 & F6 & F8 & F7). pose proof (bo_size _ _ Hok) as Hsz.
  pose proof (bo_rsv _ _ Hok). unfold dt_to_blob. change (find_first _ version_table) with (Some (4%nat, v17)). cbv iota beta.
  destruct flatten_at as (e0 & e & sb & -> & Ee & Ve & Vs & We & Ws). cbn [rbind]. rewrite Ee. cbn [rbind].
  destruct (flatten_reserve_list_at o (reservelist dti)) as (r & -> & Wr & Vr); [done|unfold DATA_MAX, blob_entries in *; lia|].
  cbn [rbind]. assert (d_len r = 16 * blob_entries o dti) as Lr.
  { unfold d_len. rewrite Vr, zlen_app, rsv_enc_len, zeros_len by lia. unfold blob_entries, rsv_of, zlen. rewrite length_map. lia. }
  assert (d_len e = S) as Le by (unfold d_len; by rewrite Ve). assert (d_len sb = N) as Ls by (unfold d_len; by rewrite Vs).
  rewrite Lr, Le, Ls, !(s32_small (16 * _)), !(s32_small S), !(s32_small N) by ilia.
  rewrite (make_fdt_header_at (blob_entries o dti) S N (s32 (boot_cpuid_phys dti))) by ilia. cbn [rbind].
  assert (h_totalsize (blob_header (blob_entries o dti) S N (s32 (boot_cpuid_phys dti)) 0) = blob_size o dti) as ->
    by (cbn [blob_header h_totalsize]; lia).
  rewrite pad_totalsize_at. cbn [rbind]. change (vi_hdr_size v17) with 40.
  destruct (assemble_at (blob_hdr_of o dti) r e sb (blob_padlen o (blob_size o dti)) Wr We Ws) as (b & -> & Vb).
  { unfold blob_pad in Hsz. unfold DATA_MAX. lia. }
  cbn [rbind]. unfold blob_bytes, blob_pad. by rewrite Vb, Vr, Ve, Vs.
Qed.
End blob.

(** ** The blob in memory *)

Lemma header_bytes_at m p h :
  bytes_at m p (header_bytes h) -> (forall f, is_u32 (hdr_get h f)) -> hdr_at m p h.
Proof.
  intros Hb Hu f. unfold fdt_get_header, fdt32_ld.
  rewrite (ld32_at _ _ (hdr_get h f)); [f_equal; by apply u32_small|].
  unfold header_bytes in Hb. cbn [flat_map] in Hb.
  repeat (apply bytes_at_appz in Hb as [?Hb Hb]; rewrite ?be_enc32_zlen, <- ?Z.add_assoc in Hb).
  destruct f; cbn [field_off hdr_get]; rewrite ?Z.add_0_r; assumption.
Qed.

(** ** Parts of a blob *)

(** [l] is at [off] of the blob. *)
Definition sub_at (blob : list byte) (off : Z) (l : list byte) : Prop :=
  exists pre post, blob = pre ++ l ++ post /\ off = zlen pre.

Lemma sub_at_app blob off l1 l2 :
  sub_at blob off (l1 ++ l2) <-> sub_at blob off l1 /\ sub_at blob (off + zlen l1) l2.
Proof.
  split.
  - intros (pre & post & -> & ->). split.
    + exists pre, (l2 ++ post). by rewrite <- app_assoc.
    + exists (pre ++ l1), post. rewrite zlen_app, <- !app_assoc. done.
  - intros [(pre1 & post1 & E1 & ->) (pre2 & post2 & E2 & L2)]. rewrite E1 in E2.
    assert (pre2 = pre1 ++ l1) as ->.
    { rewrite app_assoc in E2. apply (f_equal (take (length (pre1 ++ l1)))) in E2.
      rewrite take_app_length in E2. rewrite E2. symmetry. unfold zlen in L2. rewrite length_app.
      replace (length pre1 + length l1)%nat with (length pre2) by lia. apply take_app_length. }
    rewrite app_assoc in E2. apply app_inv_head in E2. subst post1. exists pre1, post2. by rewrite <- app_assoc.
Qed.

Lemma sub_at_bounds blob off l : sub_at blob off l -> 0 <= off /\ off + zlen l <= zlen blob.
Proof.
  intros (pre & post & -> & ->). rewrite !zlen_app. pose proof (zlen_nonneg pre). pose proof (zlen_nonneg post). lia.
Qed.

Lemma sub_bytes_at m p blob off l : bytes_at m p blob -> sub_at blob off l -> bytes_at m (p + off) l.
Proof. intros Hb (pre & post & -> & ->). apply bytes_at_appz in Hb as [_ Hb]. by apply bytes_at_appz in Hb as [Hb _]. Qed.

Lemma rsv_of_len l : zlen (rsv_of l) = zlen l.
Proof. unfold rsv_of, zlen. by rewrite length_map. Qed.

Section parts.
Context (o : dtc_opts) (dti : dt_info).
Context (Hok : blob_ok o dti).

Let S : Z := zlen (flat_struct (dt dti)).
Let R : Z := 16 * blob_entries o dti.
Let B : list byte := blob_bytes o dti.

Lemma blob_hdr_u32 f : is_u32 (hdr_get (blob_hdr_of o dti) f).
Proof using Hok.
  pose proof (flat_sizes o dti Hok) as (F1 & F2 & F3 & F4 & F5 & F6 & F8 & F7). pose proof (bo_size _ _ Hok) as Hsz.
  unfold blob_hdr_of, blob_header. fold S in F1 |- *. destruct f; cbn [hdr_get h_magic h_totalsize h_off_struct h_off_strings h_off_rsv
    h_version h_last_comp h_cpuid h_size_strings h_size_struct]; first [apply u32_range|reflexivity|unfold FDT_MAGIC; ilia|ilia].
Qed.

(** Where the parts are. *)
Lemma blob_subs :
  sub_at B 0 (header_bytes (blob_hdr_of o dti)) /\ zlen B = h_totalsize (blob_hdr_of o dti) /\
  sub_at B 40 (rsv_enc (rsv_of (reservelist dti)) ++ be_enc64 0 ++ be_enc64 0) /\
  sub_at B (56 + R) (flat_map tok_bytes (flat_toks (dt dti))) /\
  sub_at B (56 + R + (S - 4)) (be_enc32 FDT_END) /\
  sub_at B (56 + R + S) (flat_strs (dt dti)).
Proof using Hok.
  pose proof (flat_sizes o dti Hok) as (F1 & F2 & F3 & F4 & F5 & F6 & F8 & F7). fold S in F1, F8.
  pose proof (bo_rsv _ _ Hok). set (rsv := rsv_enc (rsv_of (reservelist dti))).
  assert (zlen rsv = 16 * zlen (reservelist dti)) as Lr by (unfold rsv; by rewrite rsv_enc_len, rsv_of_len).
  set (z := replicate (Z.to_nat (16 * reservenum o)) x00). assert (zlen z = 16 * reservenum o) as Lz by (apply zeros_len; lia).
  assert (sub_at B 0 B) as HB by (exists [], []; by rewrite app_nil_r).
  unfold B at 2, blob_bytes in HB. fold rsv z in HB. apply sub_at_app in HB as [H1 HB].
  change (zlen (header_bytes (blob_hdr_of o dti))) with 40 in HB. apply sub_at_app in HB as [H2 HB].
  rewrite zlen_app, Lr, Lz in HB. pose proof HB as Hz. apply sub_at_app in HB as [H3 HB]. change (zlen (replicate 16 x00)) with 16 in HB.
  apply sub_at_app in HB as [H4 HB]. fold S in HB. apply sub_at_app in HB as [H5 _]. fold B. unfold R, blob_entries in *.
  split; [exact H1|]. split; [|split; [|split; [|split]]].
  - unfold B, blob_bytes. rewrite !zlen_app. fold rsv z S. rewrite Lr, Lz, zeros_len by lia.
    change (zlen (header_bytes (blob_hdr_of o dti))) with 40. change (zlen (replicate 16 x00)) with 16.
    unfold blob_hdr_of, blob_header. cbn [h_totalsize]. fold S. unfold blob_entries. lia.
  - apply sub_at_app in H2 as [H2 H2']. rewrite Lr in H2'. apply sub_at_app. rewrite Lr. split; [exact H2|].
    assert (sub_at B (40 + 16 * zlen (reservelist dti)) (z ++ replicate 16 x00)) as H6.
    { apply sub_at_app. rewrite Lz. split; [exact H2'|].
      replace (40 + 16 * zlen (reservelist dti) + 16 * reservenum o)
        with (0 + 40 + (16 * zlen (reservelist dti) + 16 * reservenum o)) by lia. exact H3. }
    unfold z in H6. rewrite <- replicate_add, Nat.add_comm, replicate_add in H6. apply sub_at_app in H6 as [H6 _]. exact H6.
  - unfold flat_struct in H4. apply sub_at_app in H4 as [H4 _].
    replace (56 + 16 * (zlen (reservelist dti) + reservenum o))
      with (0 + 40 + (16 * zlen (reservelist dti) + 16 * reservenum o) + 16) by lia. exact H4.
  - unfold flat_struct in H4. apply sub_at_app in H4 as [_ H4]. rewrite toks_bytes_len in H4.
    replace (56 + 16 * (zlen (reservelist dti) + reservenum o) + (S - 4))
      with (0 + 40 + (16 * zlen (reservelist dti) + 16 * reservenum o) + 16 + toks_len (flat_toks (dt dti))) by lia. exact H4.
  - replace (56 + 16 * (zlen (reservelist dti) + reservenum o) + S)
      with (0 + 40 + (16 * zlen (reservelist dti) + 16 * reservenum o) + 16 + S) by lia. exact H5.
Qed.

Lemma blob_total : h_totalsize (blob_hdr_of o dti) <= 1073741824 + 60.
Proof using Hok.
  pose proof (flat_sizes o dti Hok) as (F1 & F2 & F3 & F4 & F5 & F6 & F8 & F7). pose proof (bo_size _ _ Hok) as Hsz.
  fold S in F1. unfold blob_hdr_of, blob_header. cbn [h_totalsize]. fold S. lia.
Qed.

(** The structure block is a writing of the tree. *)
Lemma blob_writes :
  Forall2 (writes (strs_get (flat_strs (dt dti)))) (wops (live (dt dti))) (flat_toks (dt dti)) /\ Forall tok_ok (flat_toks (dt dti)).
Proof using Hok.
  pose proof (flat_sizes o dti Hok) as (F1 & F2 & F3 & F4 & F5 & F6 & F8 & F7). pose proof (bo_size _ _ Hok).
  apply (toks_of_writes [] (wops (live (dt dti))) (bo_names _ _ Hok)).
  fold (flat_strs (dt dti)). ilia.
Qed.
End parts.

Section in_memory.
Context (o : dtc_opts) (dti : dt_info) (m : mem) (fdt : Z).
Context (Hok : blob_ok o dti) (Hal : Z.land fdt 7 = 0).
Context (Hrsv : Forall rsv_ok (rsv_of (reservelist dti))).
Context (Hat : bytes_at m fdt (blob_bytes o dti)).

Let h : header := blob_hdr_of o dti.
Let S : Z := zlen (flat_struct (dt dti)).
Let N : Z := zlen (flat_strs (dt dti)).
Let R : Z := 16 * blob_entries o dti.

Lemma blob_parts :
  hdr_at m fdt h /\ valid m fdt (h_totalsize h) /\
  bytes_at m (fdt + 40) (rsv_enc (rsv_of (reservelist dti)) ++ be_enc64 0 ++ be_enc64 0) /\
  bytes_at m (fdt + (56 + R)) (flat_map tok_bytes (flat_toks (dt dti))) /\
  bytes_at m (fdt + (56 + R + (S - 4))) (be_enc32 FDT_END) /\
  bytes_at m (fdt + (56 + R + S)) (flat_strs (dt dti)).
Proof using Hok Hat.
  destruct (blob_subs o dti Hok) as (H1 & El & H2 & H3 & H4 & H5).
  pose proof (sub_bytes_at _ _ _ _ _ Hat H1) as Hb. rewrite Z.add_0_r in Hb.
  pose proof (bytes_at_valid _ _ _ Hat) as Hv. fold (zlen (blob_bytes o dti)) in Hv. rewrite El in Hv.
  split; [apply header_bytes_at; [exact Hb|apply blob_hdr_u32, Hok]|]. split; [exact Hv|].
  repeat split; (eapply sub_bytes_at; [exact Hat|assumption]).
Qed.

(** It is a tree libfdt can read and edit. *)
Lemma blob_rw_at : rw_at m fdt h (rsv_of (reservelist dti)) (flat_toks (dt dti)) (flat_strs (dt dti)).
Proof using Hok Hat Hal Hrsv.
  pose proof (flat_sizes o dti Hok) as (F1 & F2 & F3 & F4 & F5 & F6 & F8 & F7). fold S N in F1, F3, F8.
  pose proof (bo_size _ _ Hok) as Hsz. pose proof (bo_rsv _ _ Hok).
  destruct blob_parts as (Hh & Hv & H1 & H2 & H3 & H4).
  pose proof (rsv_of_len (reservelist dti)) as Er.
  assert (h_off_struct h = 56 + R) as Eo by (unfold h, blob_hdr_of, blob_header, R; cbn; lia).
  assert (h_size_struct h = S) as Es by done. assert (h_size_strings h = N) as En by done.
  assert (h_off_strings h = 56 + R + S) as Est by (unfold h, blob_hdr_of, blob_header, R; cbn; fold S; lia).
  assert (h_totalsize h = 56 + R + S + N + blob_pad o dti) as Et by (unfold h, blob_hdr_of, blob_header, R; cbn; fold S N; lia).
  destruct (blob_writes o dti Hok) as [_ Htok]. unfold R, blob_entries in *.
  constructor; [constructor; [constructor; [constructor|..]|..]|..]; unfold saddr; rewrite ?Eo, ?Es, ?En, ?Est, ?Et; try assumption;
    try reflexivity; try ilia.
  - rewrite <- Et. exact Hv.
  - unfold h, blob_hdr_of, blob_header. cbn [h_version]. lia.
  - apply toks_bytes_at; [|exact Htok]. rewrite Z.add_0_r. exact H2.
  - replace (fdt + (56 + 16 * (zlen (reservelist dti) + reservenum o)) + toks_len (flat_toks (dt dti)))
      with (fdt + (56 + 16 * (zlen (reservelist dti) + reservenum o) + (S - 4))) by lia. exact H3.
  - apply in_struct_true. rewrite Eo, Es, Et. lia.
  - unfold h, blob_hdr_of, blob_header, FDT_LAST_SUPPORTED_VERSION. cbn [h_last_comp]. lia.
  - split; [exact Hrsv|]. exists 0. exact H1.
  - unfold h, blob_hdr_of, blob_header. cbn [h_off_rsv]. lia.
Qed.
End in_memory.
