(* ===== verification/DtcUnflatSpec.v ===== *)
(** Reading back what dtc wrote: the parts of a blob as sublists, and the
    readers on them. *)
From S2P Require Import Prelude Monad Ctype Memory Libfdt FdtSpec FdtTree FdtRead FdtRwSpec FdtSwBuild.
From S2P Require Import DtcUtil DtcData DtcTree DtcFlat DtcDataSpec DtcUnflat DtcFlatSpec.

Lemma bytes_from_sub blob off l n : sub_at blob off l -> n = length l -> bytes_from blob off n = Ret l.
Proof.
  intros (pre & post & -> & ->) ->. unfold bytes_from. rewrite !zlen_app. pose proof (zlen_nonneg pre).
  pose proof (zlen_nonneg post). destruct (Z.leb_spec 0 (zlen pre)); [|lia]. fold (zlen l).
  destruct (Z.leb_spec (zlen pre + zlen l) (zlen pre + (zlen l + zlen post))); [|lia]. cbn [andb].
  unfold zlen. by rewrite Nat2Z.id, drop_app_length, take_app_length.
Qed.

Lemma be_word_enc v : be_word (be_enc32 v) = Ret (u32 v).
Proof. unfold be_word, be_enc32. by rewrite be32_enc. Qed.

Lemma be_dword_enc v : is_u64 v -> be_dword (be_enc64 v) = Ret v.
Proof.
  intros Hv. unfold be_dword. change (take 4 (be_enc64 v)) with (be_enc32 (Z.shiftr v 32)).
  change (drop 4 (be_enc64 v)) with (be_enc32 v). rewrite !be_word_enc. cbn [rbind]. f_equal.
  rewrite Z.shiftr_div_pow2 by lia. change (2 ^ 32) with 4294967296. unfold u32.
  with_strategy transparent [is_u64] (unfold is_u64 in Hv).
  rewrite (Z.mod_small (v / 4294967296)); [pose proof (Z.div_mod v 4294967296); lia|].
  split; [apply Z.div_pos; lia|apply Z.div_lt_upper_bound; lia].
Qed.

Section readers.
Context (blob : list byte).

Lemma flat_read_chunk_at inb l :
  sub_at blob (ib_ptr inb) l -> ib_ptr inb + zlen l <= ib_limit inb ->
  flat_read_chunk blob inb (zlen l) = Ret (l, ib_set inb (ib_ptr inb + zlen l)).
Proof.
  intros Hs Hl. unfold flat_read_chunk. pose proof (zlen_nonneg l).
  destruct (Z.ltb_spec (ib_limit inb) (ib_ptr inb + zlen l)); [lia|].
  destruct (Z.ltb_spec (zlen l) 0); [lia|].
  rewrite (bytes_from_sub _ _ _ _ Hs) by (unfold zlen; lia). done.
Qed.

Lemma flat_read_word_at inb v :
  sub_at blob (ib_ptr inb) (be_enc32 v) -> (ib_ptr inb - ib_base inb) mod 4 = 0 -> ib_ptr inb + 4 <= ib_limit inb ->
  flat_read_word blob inb = Ret (u32 v, ib_set inb (ib_ptr inb + 4)).
Proof.
  intros Hs Hm Hl. unfold flat_read_word. rewrite Hm. cbn [Z.eqb c_assert rbind].
  pose proof (flat_read_chunk_at _ _ Hs) as E. change (zlen (be_enc32 v)) with 4 in E. rewrite E by done.
  cbn [rbind]. by rewrite be_word_enc.
Qed.

Lemma read_cstr_at n p s :
  sub_at blob p (s ++ [x00]) -> no_nul s -> (length s < n)%nat -> read_cstr blob n p = Ret s.
Proof.
  revert n p. induction s as [|c s IH]; intros n p Hs Hn Hl; (destruct n as [|n]; [lia|]); cbn [read_cstr].
  - rewrite (bytes_from_sub _ _ [x00] 1 Hs) by done. done.
  - change ((c :: s) ++ [x00]) with ([c] ++ (s ++ [x00])) in Hs. apply sub_at_app in Hs as [H1 H2].
    rewrite (bytes_from_sub _ _ _ 1 H1) by done. cbn [rbind]. apply not_elem_of_cons in Hn as [Hc Hn].
    rewrite bool_decide_eq_false_2 by done. rewrite (IH n (p + 1)) by (done || (cbn in Hl; lia)). done.
Qed.

Lemma flat_realign_at inb n :
  ib_ptr inb = ib_base inb + n -> 0 <= n <= INT_MAX - 3 -> ib_base inb + align_up n 4 <= ib_limit inb ->
  flat_realign inb 4 = Ret (ib_set inb (ib_base inb + align_up n 4)).
Proof.
  intros E Hn Hl. unfold flat_realign. replace (ib_ptr inb - ib_base inb) with n by lia. rewrite s32_small by ilia.
  rewrite sint_small by ilia. cbn [rbind]. destruct (Z.ltb_spec (ib_limit inb) (ib_base inb + align_up n 4)); [lia|done].
Qed.

Lemma flat_read_string_at inb k s :
  ib_ptr inb = ib_base inb + k -> k mod 4 = 0 -> 0 <= k -> k + zlen s + 4 <= INT_MAX - 3 ->
  sub_at blob (ib_ptr inb) (s ++ [x00]) -> no_nul s ->
  ib_ptr inb + align_up (zlen s + 1) 4 <= ib_limit inb ->
  flat_read_string blob inb = Ret (s, ib_set inb (ib_ptr inb + align_up (zlen s + 1) 4)).
Proof.
  intros E Hk Hk0 Hi Hs Hn Hl. pose proof (zlen_nonneg s). pose proof (align_up_4_bounds (zlen s + 1)). unfold flat_read_string.
  rewrite (read_cstr_at _ _ _ Hs Hn) by (unfold zlen in *; lia). cbn [rbind].
  rewrite (flat_realign_at _ (k + (zlen s + 1))).
  - cbn [rbind ib_set ib_base ib_limit]. unfold ib_set. cbn [ib_base ib_limit ib_ptr]. rewrite align_up_4_add by done.
    do 3 f_equal. lia.
  - cbn [ib_set ib_base ib_ptr]. lia.
  - lia.
  - cbn [ib_set ib_base ib_limit]. rewrite align_up_4_add by done. lia.
Qed.

Lemma flat_read_data_at inb k l :
  ib_ptr inb = ib_base inb + k -> k mod 4 = 0 -> 0 <= k -> k + zlen l + 4 <= INT_MAX - 3 ->
  sub_at blob (ib_ptr inb) l -> ib_ptr inb + align_up (zlen l) 4 <= ib_limit inb ->
  exists d, flat_read_data blob inb (zlen l) = Ret (d, ib_set inb (ib_ptr inb + align_up (zlen l) 4)) /\ d_val d = l.
Proof.
  intros E Hk Hk0 Hi Hs Hl. pose proof (zlen_nonneg l). pose proof (align_up_4_bounds (zlen l)). unfold flat_read_data.
  destruct (Z.eqb_spec (zlen l) 0) as [Hz|Hz].
  - destruct l; [|rewrite zlen_cons in Hz; pose proof (zlen_nonneg l); lia].
    exists empty_data. split; [|done]. do 2 f_equal. change (zlen []) with 0.
    replace (align_up 0 4) with 0 by (with_strategy transparent [align_up] done). destruct inb. unfold ib_set. cbn. f_equal. lia.
  - rewrite u32_small by ilia.
    destruct (data_grow_for_at empty_data (zlen l) empty_wf) as (d & -> & E1 & E2 & Hw & Hc); [lia|change (d_len empty_data) with 0; unfold DATA_MAX; ilia|].
    cbn [rbind]. rewrite (flat_read_chunk_at _ _ Hs) by lia. cbn [rbind]. cbn [empty_data d_val] in E1.
    assert (d_len d = 0) as El by (unfold d_len; by rewrite E1). change (d_len empty_data) with 0 in Hc.
    assert (data_put d (d_len d) l = Ret (Data (d_val d ++ l) (d_cap d) (d_markers d))) as Ep by (apply data_put_end; lia).
    rewrite El in Ep. rewrite Ep. cbn [rbind].
    rewrite (flat_realign_at _ (k + zlen l)); [|cbn [ib_set ib_base ib_ptr]; lia|lia|cbn [ib_set ib_base ib_limit]; rewrite align_up_4_add by done; lia].
    cbn [rbind]. exists (Data (d_val d ++ l) (d_cap d) (d_markers d)). split; [|cbn [d_val]; by rewrite E1]. unfold ib_set. cbn [ib_base ib_limit ib_ptr].
    rewrite align_up_4_add by done. do 3 f_equal. lia.
Qed.

Context (strs : list byte) (strbuf : inbuf).
Context (Hsb : ib_limit strbuf = ib_base strbuf + zlen strs) (Hstrs : sub_at blob (ib_base strbuf) strs).

Lemma flat_read_stringtable_at no s :
  strs_get strs no = Some s -> flat_read_stringtable blob strbuf no = Ret s.
Proof using Hsb Hstrs.
  intros (H0 & Hn & pre & r & -> & ->)%strs_get_Some. unfold flat_read_stringtable.
  destruct (Z.ltb_spec (zlen pre) 0); [lia|]. rewrite !zlen_app, zlen_cons in Hsb.
  apply sub_at_app in Hstrs as [_ Hs]. change (s ++ x00 :: r) with (s ++ [x00] ++ r) in Hs. rewrite app_assoc in Hs.
  apply sub_at_app in Hs as [Hs _]. apply read_cstr_at; [exact Hs|exact Hn|]. pose proof (zlen_nonneg r). unfold zlen in *. lia.
Qed.

Lemma flat_read_property_at inb k no v name flags :
  has_flag flags FTF_VARALIGN = false ->
  ib_ptr inb = ib_base inb + k + 4 -> k mod 4 = 0 -> 0 <= k -> k + zlen v + 16 <= INT_MAX - 3 ->
  sub_at blob (ib_base inb + k) (tok_enc (TProp no v)) -> tok_ok (TProp no v) -> no <= INT_MAX ->
  strs_get strs no = Some name -> ib_base inb + k + tok_len (TProp no v) <= ib_limit inb ->
  exists d, flat_read_property blob inb strbuf flags =
    Ret (build_property name d, ib_set inb (ib_base inb + k + tok_len (TProp no v))) /\ d_val d = v.
Proof using Hsb Hstrs.
  intros Hfl E Hk Hk0 Hi Hs Hok Hno Hg Hl. cbn [tok_enc tok_len tok_ok] in *. pose proof (zlen_nonneg v).
  pose proof (align_up_4_bounds (zlen v)).
  apply sub_at_app in Hs as [_ Hs]. apply sub_at_app in Hs as [H1 Hs]. apply sub_at_app in Hs as [H2 H3].
  rewrite !be_enc32_zlen in *. assert (Hm : forall j, j mod 4 = 0 -> (k + j) mod 4 = 0) by (intros; rewrite Z.add_mod, Hk by lia; by rewrite H4).
  unfold flat_read_property. rewrite (flat_read_word_at _ (zlen v)).
  2:{ by rewrite E. } 2:{ rewrite E. replace (_ - _) with (k + 4) by lia. by apply Hm. } 2:{ lia. }
  cbn [rbind]. rewrite (flat_read_word_at _ no); cbn [ib_set ib_ptr ib_base ib_limit].
  2:{ rewrite E. exact H2. } 2:{ rewrite E. replace (_ - _) with (k + 8) by lia. by apply Hm. } 2:{ lia. }
  cbn [rbind]. rewrite (u32_small no), (s32_small no) by (done || ilia). rewrite (flat_read_stringtable_at _ _ Hg). cbn [rbind].
  rewrite Hfl. cbn [andb rbind]. rewrite u32_small, s32_small by ilia.
  destruct (flat_read_data_at (ib_set inb (ib_ptr inb + 4 + 4)) (k + 12) v) as (d & E5 & Ed).
  - cbn [ib_set ib_ptr ib_base]. lia.
  - by apply Hm.
  - lia.
  - lia.
  - cbn [ib_set ib_ptr]. replace (ib_ptr inb + 4 + 4) with (ib_base inb + k + 4 + 4 + 4) by lia. exact H3.
  - cbn [ib_set ib_ptr ib_limit]. lia.
  - unfold ib_set in *. cbn [ib_base ib_limit ib_ptr] in *. rewrite E5. cbn [rbind]. exists d. split; [|exact Ed].
    do 3 f_equal. lia.
Qed.
End readers.

(** ** Trees *)

Lemma live_add_property n name d :
  live (add_property n (build_property name d)) =
  WNode (wn_name (live n)) (wn_props (live n) ++ [(name, d_val d)]) (live_kids (n_children n)).
Proof.
  destruct n as [dl nm pl ch fp bl ph ac sc lb om rf]. cbn [add_property n_set_proplist live wn_name wn_props n_name_ n_proplist n_children].
  unfold n_name. cbn [n_name_]. f_equal. unfold live_props. by rewrite flat_map_app.
Qed.

Lemma live_add_child n c :
  n_deleted c = false ->
  live (add_child n c) = WNode (wn_name (live n)) (wn_props (live n)) (live_kids (n_children n) ++ [live c]).
Proof.
  intros Hc. destruct n as [dl nm pl ch fp bl ph ac sc lb om rf].
  cbn [add_child n_set_children live wn_name wn_props n_name_ n_proplist n_children].
  unfold n_name. cbn [n_name_]. f_equal. unfold live_kids. rewrite flat_map_app. cbn [flat_map]. by rewrite Hc.
Qed.

Lemma live_eq n : live n = WNode (n_name n) (live_props (n_proplist n)) (live_kids (n_children n)).
Proof. by destruct n. Qed.

Lemma tok_bytes_sub blob off t ts :
  sub_at blob off (flat_map tok_bytes (t :: ts)) ->
  sub_at blob off (tok_enc t) /\ sub_at blob (off + tok_len t) (flat_map tok_bytes ts) /\
  off + tok_len t + toks_len ts <= zlen blob /\ sub_at blob off (be_enc32 (tok_tag t)).
Proof.
  cbn [flat_map]. intros [H1 H2]%sub_at_app. rewrite tok_bytes_len in H2.
  pose proof (sub_at_bounds _ _ _ H2) as [_ Hb]. rewrite toks_bytes_len in Hb.
  unfold tok_bytes in H1. apply sub_at_app in H1 as [H1 _]. split; [exact H1|]. split; [exact H2|]. split; [lia|].
  destruct t; cbn [tok_enc tok_tag] in *; [by apply sub_at_app in H1 as [H1 _]|exact H1|by apply sub_at_app in H1 as [H1 _]|exact H1].
Qed.

Lemma toks_len_length ts : Z.of_nat (length ts) <= toks_len ts.
Proof. induction ts as [|t ts IH]; [done|]. cbn [toks_len length]. pose proof (tok_len_ge t). lia. Qed.

Section unflatten.
Context (blob strs : list byte) (strbuf : inbuf) (flags : Z).
Context (Hsb : ib_limit strbuf = ib_base strbuf + zlen strs) (Hstrs : sub_at blob (ib_base strbuf) strs).
Context (Hfull : has_flag flags FTF_FULLPATH = false) (Hva : has_flag flags FTF_VARALIGN = false).
Context (Hsize : zlen blob <= INT_MAX - 64).

Let get := strs_get strs.

Lemma strs_get_small no s : get no = Some s -> 0 <= no <= INT_MAX.
Proof using Hstrs Hsize.
  intros (H0 & _ & pre & r & Hp & ->)%strs_get_Some. pose proof (sub_at_bounds _ _ _ Hstrs) as Hb.
  rewrite Hp, !zlen_app in Hb. pose proof (zlen_nonneg s). pose proof (zlen_nonneg (x00 :: r)). lia.
Qed.

(** Tokens [ts] behind [base + k], to be read with the tag at [base + k]. *)
Record reads (inb : inbuf) (k : Z) (ts : list tok) : Prop := Reads {
  rd_sub : sub_at blob (ib_base inb + k) (flat_map tok_bytes ts);
  rd_ok : Forall tok_ok ts;
  rd_mod : k mod 4 = 0;
  rd_pos : 0 <= k /\ 0 <= ib_base inb;
  rd_limit : ib_base inb + k + toks_len ts <= ib_limit inb;
}.

Lemma reads_cons inb k t ts :
  reads inb k (t :: ts) -> tok_ok t /\ sub_at blob (ib_base inb + k) (tok_enc t) /\ reads inb (k + tok_len t) ts /\
  ib_base inb + k + tok_len t <= zlen blob /\
  flat_read_word blob (ib_set inb (ib_base inb + k)) = Ret (tok_tag t, ib_set inb (ib_base inb + k + 4)).
Proof.
  intros [H1 H2 H3 [H4 H4'] H5]. apply Forall_cons in H2 as [Ht H2]. pose proof (tok_len_ge t). pose proof (toks_len_nonneg ts).
  cbn [toks_len] in H5. destruct (tok_bytes_sub _ _ _ _ H1) as (E1 & E2 & E3 & E4).
  split; [exact Ht|]. split; [exact E1|]. split; [|split; [lia|]].
  - constructor; [by rewrite Z.add_assoc|done|rewrite Z.add_mod, H3, tok_len_mod by lia; done|lia|lia].
  - rewrite (flat_read_word_at _ _ (tok_tag t)); cbn [ib_set ib_ptr ib_base ib_limit].
    + unfold ib_set. cbn [ib_base ib_limit]. do 2 f_equal. by destruct t.
    + exact E4.
    + by replace (ib_base inb + k - ib_base inb) with k by lia.
    + lia.
Qed.

Lemma reads_app inb k ts1 ts2 : reads inb k (ts1 ++ ts2) -> reads inb k ts1 /\ reads inb (k + toks_len ts1) ts2.
Proof.
  intros [H1 H2 H3 H4 H5]. rewrite flat_map_app in H1. apply sub_at_app in H1 as [H1 H1']. rewrite toks_bytes_len in H1'.
  apply Forall_app in H2 as [H2 H2']. rewrite toks_len_app in H5. pose proof (toks_len_nonneg ts1). pose proof (toks_len_nonneg ts2).
  split; constructor; try done; try lia; [by rewrite Z.add_assoc|rewrite Z.add_mod, H3, toks_len_mod by lia; done].
Qed.

(** What reading a node gives. *)
Definition unflattens (w : wnode) : Prop :=
  forall fuel ts k inb parent,
    Forall2 (writes get) (wops w) ts -> reads inb k ts -> (length ts <= fuel)%nat ->
    exists n, unflatten_tree blob fuel (ib_set inb (ib_base inb + k + 4)) strbuf parent flags =
      Ret (n, ib_set inb (ib_base inb + k + toks_len ts)) /\ live n = w /\ n_deleted n = false.

Section loop.
Context (nm : list byte) (ps : list (list byte * list byte)) (ks : list wnode).
Context (inb : inbuf) (endk : Z) (fuel : nat).
Context (Hks : Forall unflattens ks).
Context (Hend : endk <= zlen blob).

(** The properties and subnodes read so far, and what is still ahead. *)
Definition unflatten_inv (st : node * inbuf) : Prop :=
  exists ps1 ps2 ks1 ks2 tp tk k,
    ps = ps1 ++ ps2 /\ ks = ks1 ++ ks2 /\ live st.1 = WNode nm ps1 ks1 /\ n_deleted st.1 = false /\
    Forall2 (writes get) (map (fun p => SwProp p.1 p.2) ps2) tp /\ Forall2 (writes get) (flat_map wops ks2) tk /\
    st.2 = ib_set inb (ib_base inb + k) /\ reads inb k (tp ++ tk ++ [TEnd]) /\
    k + toks_len (tp ++ tk ++ [TEnd]) = endk - ib_base inb /\ (length (tp ++ tk) < fuel)%nat.

Lemma unflatten_step_prop n ps1 p ps2 ks1 ks2 t tp tk k rec :
  ps = ps1 ++ p :: ps2 -> ks = ks1 ++ ks2 -> live n = WNode nm ps1 ks1 -> n_deleted n = false ->
  writes get (SwProp p.1 p.2) t -> Forall2 (writes get) (map (fun p => SwProp p.1 p.2) ps2) tp ->
  Forall2 (writes get) (flat_map wops ks2) tk -> reads inb k (t :: tp ++ tk ++ [TEnd]) ->
  k + toks_len (t :: tp ++ tk ++ [TEnd]) = endk - ib_base inb -> (length (t :: tp ++ tk) < fuel)%nat ->
  exists st, unflatten_step blob rec strbuf flags (n, ib_set inb (ib_base inb + k)) = Ret (Continue st) /\
    unflatten_inv st /\ ib_base inb + k < ib_ptr st.2.
Proof using All.
  intros Ep Ek Hl Hd Ht Hp Hk Hr He Hf. destruct t as [| |no v|]; cbn in Ht; try done. destruct Ht as [<- Hg].
  pose proof (rd_pos _ _ _ Hr) as [Hk0 Hb0]. pose proof (strs_get_small _ _ Hg). pose proof (tok_len_ge (TProp no p.2)).
  pose proof (rd_mod _ _ _ Hr). pose proof (rd_limit _ _ _ Hr) as Hlim. cbn [toks_len] in Hlim. pose proof (toks_len_nonneg (tp ++ tk ++ [TEnd])).
  destruct (reads_cons _ _ _ _ Hr) as (Hok & Henc & Hr' & Hsz & Hw).
  unfold unflatten_step. rewrite Hw. cbn [rbind]. change (tok_tag (TProp no p.2) =? FDT_PROP) with true. cbv iota.
  destruct (flat_read_property_at blob strs strbuf Hsb Hstrs (ib_set inb (ib_base inb + k + 4)) k no p.2 p.1 flags)
    as (d & E & Ed); cbn [ib_set ib_base ib_ptr ib_limit]; try done; try lia.
  { cbn [tok_len] in *. pose proof (align_up_4_bounds (zlen p.2)). lia. }
  unfold ib_set in *. cbn [ib_base ib_limit ib_ptr] in *. rewrite E. cbn [rbind]. eexists. split; [done|].
  split; [|cbn [snd ib_ptr]; lia].
  exists (ps1 ++ [p]), ps2, ks1, ks2, tp, tk, (k + tok_len (TProp no p.2)). cbn [fst snd].
  split; [by rewrite <- app_assoc|]. split; [done|]. split.
  { rewrite live_add_property, Hl, Ed. cbn [wn_name wn_props]. destruct p. do 2 f_equal. rewrite live_eq in Hl. by injection Hl. }
  split; [by destruct n|]. split; [done|]. split; [done|]. split; [by rewrite Z.add_assoc|]. split; [exact Hr'|].
  cbn [toks_len length] in *. split; lia.
Qed.

Lemma unflatten_step_kid n ks1 w ks2 t1 tk k parent :
  ks = ks1 ++ w :: ks2 -> live n = WNode nm ps ks1 -> n_deleted n = false ->
  Forall2 (writes get) (wops w) t1 -> Forall2 (writes get) (flat_map wops ks2) tk ->
  reads inb k (t1 ++ tk ++ [TEnd]) ->
  k + toks_len (t1 ++ tk ++ [TEnd]) = endk - ib_base inb -> (length (t1 ++ tk) < fuel)%nat ->
  exists st, unflatten_step blob (fun dtbuf => unflatten_tree blob fuel dtbuf strbuf parent flags) strbuf flags
      (n, ib_set inb (ib_base inb + k)) = Ret (Continue st) /\
    unflatten_inv st /\ ib_base inb + k < ib_ptr st.2.
Proof using All.
  intros Ek Hl Hd Ht Hk Hr He Hf. pose proof (reads_app _ _ _ _ Hr) as [Hr1 Hr2].
  assert (exists t t1', t1 = t :: t1' /\ tok_tag t = FDT_BEGIN_NODE) as (t & t1' & Et & Etag).
  { destruct w as [n0 ps0 ks0]. cbn [wops] in Ht. apply Forall2_cons_inv_l in Ht as (t & ts & Hw & _ & ->).
    exists t, ts. split; [done|]. by destruct t. }
  pose proof Hr1 as Hr1'. rewrite Et in Hr1'. destruct (reads_cons _ _ _ _ Hr1') as (Hok & Henc & _ & Hsz & Hw).
  unfold unflatten_step. rewrite Hw. cbn [rbind]. rewrite Etag.
  change (FDT_BEGIN_NODE =? FDT_PROP) with false. change (FDT_BEGIN_NODE =? FDT_BEGIN_NODE) with true. cbv iota.
  assert (unflattens w) as IH by (rewrite Ek in Hks; by apply Forall_app in Hks as [_ [? _]%Forall_cons]).
  rewrite length_app in Hf. destruct (IH fuel t1 k inb parent Ht Hr1 ltac:(lia)) as (c & -> & Hc & Hcd). cbn [rbind].
  eexists. split; [done|]. assert (4 <= toks_len t1).
  { rewrite Et. cbn [toks_len]. pose proof (tok_len_ge t). pose proof (toks_len_nonneg t1'). lia. }
  split; [|cbn [snd ib_set ib_ptr]; lia].
  exists ps, [], (ks1 ++ [w]), ks2, [], tk, (k + toks_len t1). cbn [fst snd map app].
  split; [by rewrite app_nil_r|]. split; [by rewrite <- app_assoc|]. split.
  { rewrite live_add_child, Hl, Hc by done. cbn [wn_name wn_props]. f_equal. rewrite live_eq in Hl. by injection Hl as _ _ ->. }
  split; [by destruct n|]. split; [constructor|]. split; [done|]. split; [by rewrite Z.add_assoc|]. split; [exact Hr2|].
  rewrite toks_len_app in He. split; [lia|]. lia.
Qed.

Lemma unflatten_loop_at st parent :
  unflatten_inv st ->
  exists n, loop (unflatten_step blob (fun dtbuf => unflatten_tree blob fuel dtbuf strbuf parent flags) strbuf flags) st =
    Ret (n, ib_set inb endk) /\ live n = WNode nm ps ks /\ n_deleted n = false.
Proof using All.
  intros Hinv.
  assert (wp total (loop (unflatten_step blob (fun dtbuf => unflatten_tree blob fuel dtbuf strbuf parent flags) strbuf flags) st)
    (fun r : node * inbuf => r.2 = ib_set inb endk /\ live r.1 = WNode nm ps ks /\ n_deleted r.1 = false)) as Hl.
  { apply (wp_loop total unflatten_inv (fun st => endk - ib_ptr st.2)); [exact Hinv| |].
    - intros [n ib] (ps1 & ps2 & ks1 & ks2 & tp & tk & k & _ & _ & _ & _ & _ & _ & E & Hr & He & _). cbn [snd] in *. subst ib.
      cbn [ib_set ib_ptr]. pose proof (toks_len_nonneg (tp ++ tk ++ [TEnd])). pose proof (rd_pos _ _ _ Hr). unfold loop_bound. ilia.
    - intros [n ib] (ps1 & ps2 & ks1 & ks2 & tp & tk & k & Ep & Ek & Hl & Hd & Hp & Hk & E & Hr & He & Hf). cbn [fst snd] in *. subst ib.
      destruct ps2 as [|p ps2]; [destruct ks2 as [|w ks2]|].
      + apply Forall2_nil_inv_l in Hp as ->. apply Forall2_nil_inv_l in Hk as ->. rewrite app_nil_r in Ep, Ek. subst ps1 ks1.
        cbn [app] in *. destruct (reads_cons _ _ _ _ Hr) as (_ & _ & _ & _ & Hw). unfold unflatten_step. rewrite Hw. cbn [rbind].
        change (tok_tag TEnd) with FDT_END_NODE. change (FDT_END_NODE =? FDT_PROP) with false.
        change (FDT_END_NODE =? FDT_BEGIN_NODE) with false. change (FDT_END_NODE =? FDT_END_NODE) with true. cbv iota. cbn [wp fst snd].
        split; [|done]. cbn [toks_len tok_len] in He. unfold ib_set. f_equal. lia.
      + apply Forall2_nil_inv_l in Hp as ->. rewrite app_nil_r in Ep. subst ps1. cbn [app flat_map] in *.
        apply Forall2_app_inv_l in Hk as (t1 & tk' & Hk1 & Hk2 & ->). rewrite <- app_assoc in *.
        destruct (unflatten_step_kid n ks1 w ks2 t1 tk' k parent Ek Hl Hd Hk1 Hk2 Hr He Hf) as (st' & -> & Hi & Hlt).
        cbn [wp snd ib_set ib_ptr]. split; [exact Hi|lia].
      + cbn [map] in Hp. apply Forall2_cons_inv_l in Hp as (t & tp' & Ht & Hp & ->). cbn [app] in *.
        edestruct (unflatten_step_prop n ps1 p ps2 ks1 ks2 t tp' tk k) as (st' & -> & Hi & Hlt); [eassumption..|].
        cbn [wp snd ib_set ib_ptr]. split; [exact Hi|lia]. }
  apply wp_total_ex in Hl as ([n ib] & -> & E & Hn). cbn [fst snd] in *. subst ib. by exists n.
Qed.
End loop.

Lemma unflatten_tree_at w : unflattens w.
Proof using All.
  induction w as [nm ps ks IH] using wnode_ind'. intros fuel ts k inb parent H Hr Hf. cbn [wops] in H.
  apply Forall2_cons_inv_l in H as (t & ts1 & Ht & H & ->). destruct t as [n'| | |]; cbn in Ht; try done. subst n'.
  apply Forall2_app_inv_l in H as (tp & ts2 & Hp & H & ->). apply Forall2_app_inv_l in H as (tk & te & Hk & H & ->).
  apply Forall2_cons_inv_l in H as (t & ts3 & Ht & H & ->). apply Forall2_nil_inv_l in H as ->.
  destruct t; cbn in Ht; try done. clear Ht.
  destruct (reads_cons _ _ _ _ Hr) as (Hok & Henc & Hr' & Hsz & _). destruct fuel as [|fuel]; [cbn in Hf; lia|]. cbn [unflatten_tree].
  pose proof (rd_pos _ _ _ Hr) as [Hk0 Hb0]. pose proof (rd_mod _ _ _ Hr) as Hm. pose proof (rd_limit _ _ _ Hr) as Hlim.
  pose proof (rd_limit _ _ _ Hr') as Hlim'. pose proof (toks_len_nonneg (tp ++ tk ++ [TEnd])).
  cbn [toks_len tok_len tok_ok tok_enc] in *. pose proof (align_up_4_bounds (zlen nm + 1)). pose proof (zlen_nonneg nm).
  apply sub_at_app in Henc as [_ Henc]. rewrite be_enc32_zlen in Henc.
  rewrite (flat_read_string_at blob _ (k + 4) nm); cbn [ib_set ib_ptr ib_base ib_limit]; try done; try lia.
  2:{ rewrite Z.add_mod, Hm by lia. done. }
  cbn [rbind]. rewrite Hfull. cbn [rbind]. unfold ib_set at 1. cbn [ib_base ib_limit].
  destruct (unflatten_loop_at nm ps ks inb (ib_base inb + k + toks_len (TBegin nm :: tp ++ tk ++ [TEnd])) fuel IH) with
    (st := (n_set_name (Some nm) (build_node [] []), ib_set inb (ib_base inb + (k + tok_len (TBegin nm))))) (parent := nm)
    as (n & E & Hl & Hd).
  - pose proof (rd_sub _ _ _ Hr) as Hs. apply sub_at_bounds in Hs as [_ Hs]. rewrite toks_bytes_len in Hs. exact Hs.
  - exists [], ps, [], ks, tp, tk, (k + tok_len (TBegin nm)). cbn [fst snd]. repeat (split; [done|]).
    cbn [toks_len tok_len length] in *. rewrite !length_app in Hf. cbn in Hf. rewrite length_app. split; [lia|lia].
  - exists n. split; [|done]. cbn [toks_len tok_len] in E. rewrite <- E. unfold ib_set. cbn [ib_base ib_limit tok_len]. do 3 f_equal. lia.
Qed.
End unflatten.

(** ** The reserve map *)

Lemma rsv_of_app l1 l2 : rsv_of (l1 ++ l2) = rsv_of l1 ++ rsv_of l2.
Proof. apply map_app. Qed.

Lemma rsv_enc_app_cons rsv1 e rsv2 :
  rsv_enc (rsv1 ++ e :: rsv2) = rsv_enc rsv1 ++ (be_enc64 e.1 ++ be_enc64 e.2) ++ rsv_enc rsv2.
Proof. unfold rsv_enc. rewrite flat_map_app. cbn [flat_map]. by destruct e. Qed.

Lemma read_entry_at blob inb a s :
  sub_at blob (ib_ptr inb) (be_enc64 a ++ be_enc64 s) -> ib_ptr inb + 16 <= ib_limit inb -> is_u64 a -> is_u64 s ->
  flat_read_chunk blob inb sizeof_fdt_reserve_entry = Ret (be_enc64 a ++ be_enc64 s, ib_set inb (ib_ptr inb + 16)) /\
  be_dword (take 8 (be_enc64 a ++ be_enc64 s)) = Ret a /\ be_dword (drop 8 (be_enc64 a ++ be_enc64 s)) = Ret s.
Proof.
  intros Hs Hl Ha Hz. split; [|split].
  - exact (flat_read_chunk_at blob inb _ Hs Hl).
  - change (take 8 (be_enc64 a ++ be_enc64 s)) with (be_enc64 a). by apply be_dword_enc.
  - change (drop 8 (be_enc64 a ++ be_enc64 s)) with (be_enc64 s). by apply be_dword_enc.
Qed.

Lemma flat_read_mem_reserve_at blob inb rsv t :
  sub_at blob (ib_ptr inb) (rsv_enc rsv ++ be_enc64 t ++ be_enc64 0) -> Forall rsv_ok rsv -> is_u64 t ->
  ib_ptr inb + 16 * zlen rsv + 16 <= ib_limit inb -> zlen blob <= INT_MAX ->
  exists l, flat_read_mem_reserve blob inb = Ret l /\ rsv_of l = rsv.
Proof.
  intros Hs Hok Ht Hl Hsz. unfold flat_read_mem_reserve. apply wp_total_ex.
  apply (wp_loop total (fun st : inbuf * list reserve_info => exists r2, rsv = rsv_of st.2 ++ r2 /\
      st.1 = ib_set inb (ib_ptr inb + 16 * zlen st.2)) (fun st => zlen rsv - zlen st.2)).
  - exists rsv. split; [done|]. destruct inb as [b0 l0 p0]. unfold ib_set. cbn [fst snd ib_ptr ib_base ib_limit]. change (zlen []) with 0. f_equal. lia.
  - intros [ib l] (r2 & E & _). cbn [fst snd] in *. assert (zlen rsv = zlen l + zlen r2) as ->.
    { rewrite E, zlen_app. f_equal. unfold rsv_of, zlen. by rewrite length_map. }
    apply sub_at_bounds in Hs as [Hs0 Hs]. rewrite zlen_app, rsv_enc_len, E, zlen_app in Hs.
    assert (zlen (rsv_of l) = zlen l) as Ll by (unfold rsv_of, zlen; by rewrite length_map). rewrite Ll in Hs.
    pose proof (zlen_nonneg l). pose proof (zlen_nonneg r2). change (zlen (be_enc64 t ++ be_enc64 0)) with 16 in Hs.
    unfold loop_bound. ilia.
  - intros [ib l] (r2 & E & Eib). cbn [fst snd] in *. subst ib.
    assert (zlen (rsv_of l) = zlen l) as Ll by (unfold rsv_of, zlen; by rewrite length_map).
    assert (zlen rsv = zlen l + zlen r2) as Lr by (rewrite E, zlen_app; lia). pose proof (zlen_nonneg r2).
    destruct r2 as [|[a s] r2].
    + rewrite app_nil_r in E. apply sub_at_app in Hs as [_ Hs]. rewrite rsv_enc_len, E, Ll in Hs.
      destruct (read_entry_at blob (ib_set inb (ib_ptr inb + 16 * zlen l)) t 0) as (E1 & E2 & E3); cbn [ib_set ib_ptr ib_limit];
        [exact Hs|change (zlen []) with 0 in Lr; lia|done|ilia|]. rewrite E1. cbn [rbind]. rewrite E2. cbn [rbind]. rewrite E3. cbn [rbind wp].
      change (0 =? 0) with true. cbv iota. cbn [wp]. by rewrite E.
    + rewrite E in Hok. apply Forall_app in Hok as [_ [(Ha & Hs' & Hne) _]%Forall_cons]. cbn [fst snd] in *.
      rewrite E, rsv_enc_app_cons in Hs. rewrite <- app_assoc in Hs. apply sub_at_app in Hs as [_ Hs].
      rewrite <- app_assoc in Hs. apply sub_at_app in Hs as [Hs _]. rewrite rsv_enc_len, Ll in Hs. cbn [fst snd] in Hs.
      rewrite zlen_cons in Lr. pose proof (zlen_nonneg r2).
      destruct (read_entry_at blob (ib_set inb (ib_ptr inb + 16 * zlen l)) a s) as (E1 & E2 & E3); cbn [ib_set ib_ptr ib_limit];
        [exact Hs|lia|done|done|]. rewrite E1. cbn [rbind]. rewrite E2. cbn [rbind]. rewrite E3. cbn [rbind].
      destruct (Z.eqb_spec s 0); [done|]. cbn [wp fst snd]. unfold add_reserve_entry. split; [|rewrite zlen_app; change (zlen [_]) with 1; lia].
      exists r2. rewrite rsv_of_app, <- app_assoc. split; [exact E|]. unfold ib_set. cbn [ib_base ib_limit ib_ptr].
      rewrite zlen_app. change (zlen [_]) with 1. f_equal. lia.
Qed.

(** ** The whole blob *)

Lemma hdr_word_at blob h f :
  sub_at blob 0 (header_bytes h) -> is_u32 (hdr_get h f) -> hdr_word blob (field_off f) = Ret (hdr_get h f).
Proof.
  intros Hs Hu. unfold hdr_word. rewrite (bytes_from_sub _ _ (be_enc32 (hdr_get h f))); [| |done].
  - cbn [rbind]. rewrite be_word_enc. f_equal. by apply u32_small.
  - unfold header_bytes in Hs. cbn [flat_map] in Hs.
    repeat (apply sub_at_app in Hs as [?Hs Hs]; rewrite ?be_enc32_zlen in Hs).
    destruct f; assumption.
Qed.

Section blob.
Context (o : dtc_opts) (dti : dt_info).
Context (Hok : blob_ok o dti) (Hrsv : Forall rsv_ok (rsv_of (reservelist dti))).

Let B : list byte := blob_bytes o dti.
Let S : Z := zlen (flat_struct (dt dti)).
Let N : Z := zlen (flat_strs (dt dti)).
Let R : Z := 16 * blob_entries o dti.

Lemma blob_word f : hdr_word B (field_off f) = Ret (hdr_get (blob_hdr_of o dti) f).
Proof using Hok. apply hdr_word_at; [apply blob_subs, Hok|apply blob_hdr_u32, Hok]. Qed.

(** The tree of the structure block. *)
Lemma blob_unflatten :
  exists n, unflatten_tree B (Datatypes.S (length B))
      (Inbuf (56 + R) (zlen B) (56 + R + 4)) (Inbuf (56 + R + S) (56 + R + S + N) (56 + R + S)) [] FTF_NOPS =
    Ret (n, Inbuf (56 + R) (zlen B) (56 + R + (S - 4))) /\ live n = live (dt dti) /\ n_deleted n = false.
Proof using Hok.
  pose proof (flat_sizes o dti Hok) as (F1 & F2 & F3 & F4 & F5 & F6 & F8 & F7). fold S N in F1, F3, F8.
  pose proof (bo_size _ _ Hok) as Hsz. destruct (blob_subs o dti Hok) as (_ & El & _ & H3 & _ & H5). fold B R S in El, H3, H5.
  destruct (blob_writes o dti Hok) as [Hw Htok].
  assert (zlen B = 56 + R + S + N + blob_pad o dti) as Ez.
  { rewrite El. unfold blob_hdr_of, blob_header, R. cbn. fold S N. lia. }
  destruct (unflatten_tree_at B (flat_strs (dt dti)) (Inbuf (56 + R + S) (56 + R + S + N) (56 + R + S)) FTF_NOPS)
    with (w := live (dt dti)) (ts := flat_toks (dt dti)) (k := 0) (inb := Inbuf (56 + R) (zlen B) (56 + R))
      (fuel := Datatypes.S (length B)) (parent := @nil byte)
    as (n & E & Hl & Hd).
  - done.
  - exact H5.
  - done.
  - done.
  - unfold R in *. ilia.
  - exact Hw.
  - constructor; cbn [ib_base ib_limit]; rewrite ?Z.add_0_r; try done; unfold R in *; lia.
  - pose proof (toks_len_length (flat_toks (dt dti))). unfold zlen in *. lia.
  - unfold ib_set in E. cbn [ib_base ib_limit ib_ptr] in E. exists n. rewrite !Z.add_0_r in E. rewrite E.
    split; [|done]. do 3 f_equal. lia.
Qed.

Lemma blob_begin : sub_at B (56 + R) (be_enc32 FDT_BEGIN_NODE) /\ (S - 4) mod 4 = 0.
Proof using Hok.
  pose proof (flat_sizes o dti Hok) as (F1 & _). fold S in F1. destruct (blob_subs o dti Hok) as (_ & _ & _ & H3 & _).
  fold B R in H3. split; [|replace (S - 4) with (toks_len (flat_toks (dt dti))) by lia; apply toks_len_mod].
  assert (exists nm ts, flat_toks (dt dti) = TBegin nm :: ts) as (nm & ts & E).
  { unfold flat_toks. destruct (live (dt dti)) as [nm ps ks]. cbn [wops toks_of]. destruct (toks_of [] _). by eexists _, _. }
  rewrite E in H3. by apply tok_bytes_sub in H3 as (_ & _ & _ & H3).
Qed.

(** The whole tree, the reservations and the boot CPU come back. *)
Lemma dt_from_blob_at :
  exists dti', dt_from_blob B = Ret dti' /\ live (dt dti') = live (dt dti) /\ n_deleted (dt dti') = false /\
    rsv_of (reservelist dti') = rsv_of (reservelist dti) /\ boot_cpuid_phys dti' = u32 (boot_cpuid_phys dti).
Proof using Hok Hrsv.
  pose proof (flat_sizes o dti Hok) as (F1 & F2 & F3 & F4 & F5 & F6 & F8 & F7). fold S N in F1, F3, F8.
  pose proof (bo_size _ _ Hok) as Hsz. destruct (blob_subs o dti Hok) as (H1 & El & H2 & H3 & H4 & _). fold B R S in El, H1, H2, H3, H4.
  pose proof (rsv_of_len (reservelist dti)) as Lr. pose proof (bo_rsv _ _ Hok) as Hrn.
  assert (zlen B = 56 + R + S + N + blob_pad o dti) as Ez.
  { rewrite El. unfold blob_hdr_of, blob_header, R. cbn. fold S N. lia. }
  assert (W : forall f v, hdr_get (blob_hdr_of o dti) f = v -> hdr_word B (field_off f) = Ret v).
  { intros f v <-. apply blob_word. }
  assert (hdr_get (blob_hdr_of o dti) f_off_dt_struct = 56 + R /\ hdr_get (blob_hdr_of o dti) f_off_dt_strings = 56 + R + S) as [E1 E2].
  { unfold blob_hdr_of, blob_header, R. cbn. fold S. lia. }
  unfold dt_from_blob. unfold R in *.
  pose proof (W f_magic FDT_MAGIC eq_refl) as W0. pose proof (W f_totalsize (zlen B) (eq_sym El)) as W1.
  pose proof (W f_off_dt_struct _ E1) as W2. pose proof (W f_off_dt_strings _ E2) as W3.
  pose proof (W f_off_mem_rsvmap 40 eq_refl) as W4. pose proof (W f_version 17 eq_refl) as W5.
  pose proof (W f_boot_cpuid_phys _ eq_refl) as W6. pose proof (W f_size_dt_strings N eq_refl) as W7.
  pose proof (W f_size_dt_struct S eq_refl) as W8. cbn [field_off] in *.
  destruct (Z.ltb_spec (zlen B) 4); [lia|]. rewrite W0. cbn [rbind]. rewrite Z.eqb_refl. cbn [negb].
  destruct (Z.ltb_spec (zlen B) 8); [lia|]. rewrite W1. cbn [rbind]. unfold FDT_V1_SIZE.
  destruct (Z.ltb_spec (zlen B) (7 * 4)); [lia|]. rewrite s32_small by ilia.
  destruct (Z.ltb_spec (zlen B - 8) 0); [lia|]. cbn [andb orb]. rewrite Z.ltb_irrefl.
  assert (take (Z.to_nat (zlen B)) B = B) as -> by (apply take_ge; unfold zlen; lia).
  rewrite W2. cbn [rbind]. rewrite W3. cbn [rbind]. rewrite W4. cbn [rbind]. rewrite W5. cbn [rbind]. rewrite W6. cbn [rbind].
  destruct (Z.leb_spec (zlen B) 40); [lia|]. destruct (Z.leb_spec (zlen B) (56 + 16 * blob_entries o dti)); [lia|].
  destruct (Z.ltb_spec (zlen B) (56 + 16 * blob_entries o dti + S)); [lia|]. change (3 <=? 17) with true. change (17 <=? 17) with true.
  cbv iota. rewrite W7. cbn [rbind]. rewrite (u32_small (_ + S + N)) by ilia.
  destruct (Z.ltb_spec (56 + 16 * blob_entries o dti + S + N) (56 + 16 * blob_entries o dti + S)); [lia|].
  destruct (Z.ltb_spec (zlen B) (56 + 16 * blob_entries o dti + S + N)); [lia|]. cbn [orb rbind].
  rewrite W8. cbn [rbind]. rewrite (u32_small (_ + S)) by ilia.
  destruct (Z.ltb_spec (56 + 16 * blob_entries o dti + S) (56 + 16 * blob_entries o dti)); [lia|].
  destruct (Z.ltb_spec (zlen B) (56 + 16 * blob_entries o dti + S)); [lia|]. cbn [orb rbind].
  change (17 <? 16) with false. cbv iota.
  destruct (flat_read_mem_reserve_at B (inbuf_init 40 (zlen B)) (rsv_of (reservelist dti)) 0) as (l & -> & Er);
    [exact H2|exact Hrsv|done|cbn [inbuf_init ib_ptr ib_limit]; unfold blob_entries in *; lia|ilia|]. cbn [rbind].
  destruct blob_unflatten as (n & E & Hl & Hd). fold B S N R in E. unfold R in E.
  rewrite (flat_read_word_at B (inbuf_init _ _) FDT_BEGIN_NODE); cbn [inbuf_init ib_ptr ib_base ib_limit];
    [|apply blob_begin|by rewrite Z.sub_diag|lia].
  cbn [rbind]. change (u32 FDT_BEGIN_NODE =? FDT_BEGIN_NODE) with true. cbn [negb].
  unfold ib_set at 1, inbuf_init. cbn [ib_base ib_limit]. rewrite E. cbn [rbind].
  rewrite (flat_read_word_at B _ FDT_END); cbn [inbuf_init ib_ptr ib_base ib_limit].
  2:{ exact H4. } 2:{ rewrite (Z.add_comm _ (S - 4)), Z.add_simpl_r. apply blob_begin. } 2:{ lia. }
  cbn [rbind]. change (u32 FDT_END =? FDT_END) with true. cbn [negb].
  eexists. split; [reflexivity|]. cbn [build_dt_info dt reservelist boot_cpuid_phys]. split; [exact Hl|]. split; [exact Hd|]. split; [exact Er|]. done.
Qed.
End blob.
