(* ===== verification/DtcScan.v ===== *)
(** dtc's scanner on the texts dtc writes: what the lexemes of numbers, names,
    strings and punctuation are, and how [yylex] and the list of all tokens
    follow from them. *)
From S2P Require Import Prelude Monad Ctype Memory FdtSwBuild DtcUtil DtcSrcpos DtcRegex DtcLexer DtcParser DtcGrammar.
From S2P Require Import DtcData DtcTree DtcFlat DtcSource DtcDataSpec DtcFlatSpec.

(** ** Numbers *)

Definition hex_digit (c : byte) : bool := in_class false hexdigits c.

Lemma strtol_digits_app base a n l1 l2 :
  forallb (is_base_digit base) l1 = true ->
  strtol_digits base a n (l1 ++ l2) = strtol_digits base (strtol_digits base a n l1).1 (strtol_digits base a n l1).2 l2.
Proof.
  revert a n. induction l1 as [|c l1 IH]; intros a n H; [done|]. cbn [forallb] in H. apply andb_true_iff in H as [Hc H].
  cbn [app strtol_digits]. rewrite Hc. by apply IH.
Qed.

Lemma digit_char_back base v : 2 <= base <= 16 -> 0 <= v < base ->
  digit_val (digit_char v) = v /\ is_base_digit base (digit_char v) = true /\ hex_digit (digit_char v) = true /\
  (digit_char v = "0"%byte -> v = 0).
Proof.
  intros Hb Hv. assert (digit_val (digit_char v) = v /\ hex_digit (digit_char v) = true) as [H1 H2].
  { assert (exists n, v = Z.of_nat n /\ (n < 16)%nat) as (n & -> & Hn) by (exists (Z.to_nat v); lia). clear Hv. do 16 (destruct n as [|n]; [by vm_compute|]). lia. }
  unfold is_base_digit. rewrite H1, H2. split; [done|]. split; [apply Z.ltb_lt; lia|]. split; [done|].
  intros E. rewrite <- H1, E. done.
Qed.

(** The digits of a number, read back. *)
Lemma digits_of_back base fuel v acc :
  2 <= base <= 16 -> 0 <= v < base ^ Z.of_nat (S fuel) ->
  exists ds, digits_of (S fuel) base v acc = ds ++ acc /\ ds <> [] /\ (head ds = Some "0"%byte -> v = 0) /\
    forallb (is_base_digit base) ds = true /\ forallb hex_digit ds = true /\
    forall a n, strtol_digits base a n ds = (a * base ^ zlen ds + v, n + zlen ds).
Proof.
  intros Hbase. revert v acc. induction fuel as [|fuel IH]; intros v acc Hv.
  - assert (v < base) by (change (Z.of_nat 1) with 1 in Hv; rewrite Z.pow_1_r in Hv; lia).
    exists [digit_char v]. destruct (digit_char_back base v Hbase) as (H1 & H2 & H3 & H4); [lia|].
    cbn [digits_of forallb strtol_digits head]. rewrite Z.mod_small, H1, H2, H3 by lia.
    split_and!; [by destruct (_ <? _)|done|intros [= E]; auto|done|done|].
    intros a n. change (zlen [digit_char v]) with 1. f_equal; lia.
  - rewrite Nat2Z.inj_succ, Z.pow_succ_r in Hv by lia.
    destruct (digit_char_back base (v mod base) Hbase) as (H1 & H2 & H3 & H4); [apply Z.mod_pos_bound; lia|].
    change (digits_of (S (S fuel)) base v acc) with
      (if v <? base then digit_char (v mod base) :: acc else digits_of (S fuel) base (v / base) (digit_char (v mod base) :: acc)).
    destruct (Z.ltb_spec v base).
    + rewrite Z.mod_small in * by lia. exists [digit_char v]. cbn [forallb strtol_digits head]. rewrite H1, H2, H3.
      split_and!; try done; [by intros [= E]; auto|]. intros a n. change (zlen [digit_char v]) with 1. f_equal; lia.
    + destruct (IH (v / base) (digit_char (v mod base) :: acc)) as (ds & -> & Hne & Hz & Hd & Hh & Hs).
      { split; [apply Z.div_pos; lia|]. apply Z.div_lt_upper_bound; lia. }
      exists (ds ++ [digit_char (v mod base)]). rewrite <- app_assoc, !forallb_app, Hd, Hh. cbn [forallb]. rewrite H2, H3.
      split_and!; [done|by destruct ds| |done|done|].
      * intros E. destruct ds; [done|]. cbn in E, Hz. apply Hz in E. pose proof (Z.div_str_pos v base). lia.
      * intros a n. rewrite strtol_digits_app, Hs by done.
        cbn [fst snd strtol_digits]. rewrite H1, H2, zlen_app. change (zlen [_]) with 1.
        rewrite Z.pow_add_r by (try apply zlen_nonneg; lia). pose proof (Z.div_mod v base). f_equal; lia.
Qed.

(** The 64 digits are enough for a word. *)
Lemma fmt_base_back base v : 2 <= base <= 16 -> 0 <= v < 2 ^ 64 ->
  fmt_base base v <> [] /\ (head (fmt_base base v) = Some "0"%byte -> v = 0) /\
  forallb (is_base_digit base) (fmt_base base v) = true /\ forallb hex_digit (fmt_base base v) = true /\
  forall a n, strtol_digits base a n (fmt_base base v) =
    (a * base ^ zlen (fmt_base base v) + v, n + zlen (fmt_base base v)).
Proof.
  intros Hb Hv. unfold fmt_base. destruct (digits_of_back base 63 v [] Hb) as (ds & -> & Hne & Hz & Hd & Hh & Hs).
  { change (Z.of_nat 64) with 64. assert (2 ^ 64 <= base ^ 64) by (apply Z.pow_le_mono_l; lia). lia. }
  by rewrite app_nil_r.
Qed.

Lemma zeros_back base k a n : 2 <= base <= 16 ->
  strtol_digits base a n (replicate k "0"%byte) = (a * base ^ Z.of_nat k, n + Z.of_nat k) /\
  forallb (is_base_digit base) (replicate k "0"%byte) = true.
Proof.
  intros Hb. assert (is_base_digit base "0" = true) as H0 by (unfold is_base_digit; change (digit_val "0") with 0; apply Z.ltb_lt; lia).
  revert a n. induction k as [|k IH]; intros a n; [split; [cbn; f_equal; lia|done]|].
  change (replicate (S k) "0"%byte) with ("0"%byte :: replicate k "0"%byte). cbn [strtol_digits forallb].
  rewrite H0. destruct (IH (a * base + digit_val "0") (n + 1)) as [-> ->]. change (digit_val "0") with 0.
  rewrite Nat2Z.inj_succ, Z.pow_succ_r by lia. split; [f_equal; lia|done].
Qed.

(** A printed hexadecimal number. *)
Lemma fmt_x_back w v : 0 <= v < 2 ^ 64 ->
  fmt_x w v <> [] /\ forallb (is_base_digit 16) (fmt_x w v) = true /\ forallb hex_digit (fmt_x w v) = true /\
  strtol_digits 16 0 0 (fmt_x w v) = (v, zlen (fmt_x w v)).
Proof.
  intros Hv. unfold fmt_x, pad0. destruct (fmt_base_back 16 v) as (Hne & _ & Hd & Hh & Hs); [lia|done|].
  set (ds := fmt_base 16 v) in *. pose proof (zeros_back 16 (w - length ds) 0 0) as [Hz1 Hz2]; [lia|].
  rewrite !forallb_app, Hd, Hh, Hz2, !andb_true_r. split_and!; [|done| |].
  - by intros [_ ->]%app_eq_nil.
  - clear. induction (w - length ds)%nat as [|k IH]; [done|exact IH].
  - rewrite strtol_digits_app, Hz1, Hs by done. cbn [fst snd]. rewrite zlen_app.
    replace (zlen (replicate _ _)) with (Z.of_nat (w - length ds)) by (unfold zlen; by rewrite length_replicate).
    f_equal; lia.
Qed.

(** ** Scanning *)

Definition ends_line (w : list byte) : bool := bool_decide (last w = Some nl).

(** A rule matches [w] at the start of [w ++ s], and returns [t]. *)
Definition lexeme (w s : list byte) (bol : bool) (sc : start_condition) (t : option token) (sc' : start_condition) : Prop :=
  exists k r, longest (active sc bol) (w ++ s) = Some (k, length w) /\ rules !! k = Some r /\
    forall fopen contents lx, lx_sc lx = sc -> do_action fopen contents (r_action r) w lx = Ret (t, lx_begin sc' lx).

(** From the text [s] the scanner returns the tokens [l] and comes to [s']. *)
Inductive scans : list byte -> bool -> start_condition -> list token -> list byte -> bool -> start_condition -> Prop :=
| scans_done s bol sc : scans s bol sc [] s bol sc
| scans_token w s bol sc t sc1 l s' bol' sc' :
    w <> [] -> lexeme w s bol sc (Some t) sc1 -> ends_input t = false ->
    scans s (ends_line w) sc1 l s' bol' sc' -> scans (w ++ s) bol sc (t :: l) s' bol' sc'
| scans_skip w s bol sc sc1 l s' bol' sc' :
    w <> [] -> lexeme w s bol sc None sc1 ->
    scans s (ends_line w) sc1 l s' bol' sc' -> scans (w ++ s) bol sc l s' bol' sc'.

Lemma scans_app s bol sc l s1 b1 sc1 l' s' bol' sc' :
  scans s bol sc l s1 b1 sc1 -> scans s1 b1 sc1 l' s' bol' sc' -> scans s bol sc (l ++ l') s' bol' sc'.
Proof. induction 1; intros H'; [done|eapply scans_token; eauto|eapply scans_skip; eauto]. Qed.

(** The main file is being read. *)
Definition file_ok (sf : srcfiles) : Prop :=
  exists i f, current_srcfile sf = Some i /\ src_files sf !! i = Some f /\ sf_prev f = None.

Lemma srcpos_update_ok text sf : file_ok sf -> exists pos sf', srcpos_update text sf = Ret (pos, sf') /\ file_ok sf'.
Proof.
  intros (i & f & Hc & Hf & Hp). unfold srcpos_update. rewrite Hc. cbn [nonnull rbind file_at]. rewrite Hf. cbn [nonnull rbind].
  destruct (advance _ _ _) as [line col]. eexists _, _. split; [done|].
  exists i, (SrcFile (sf_name f) (sf_dir f) line col (sf_prev f)). cbn. by rewrite list_lookup_alter_eq, Hf.
Qed.

(** The file on the command line is opened as the main file. *)
Lemma open_source_main fopen contents fname text :
  fname = str "-" \/ fopen fname = true -> contents fname = Ret text ->
  exists sf, open_source fopen contents fname no_srcfiles = Ret (text, sf) /\ file_ok sf.
Proof.
  intros Hf Hc. unfold open_source, srcfile_push. cbn [no_srcfiles srcfile_depth].
  change (MAX_SRCFILE_DEPTH <=? 0) with false. cbn iota. unfold srcfile_relative_open.
  destruct (streq fname (str "-")) eqn:E; cbn [rbind].
  - apply bool_decide_eq_true in E. subst fname. eexists. split; [cbn; cbn in Hc; by rewrite Hc|].
    by exists 0%nat, (SrcFile (Some (str "<stdin>")) (get_dirname (str "<stdin>")) 1 1 None).
  - destruct Hf as [->|Hf]; [done|]. unfold fopen_any_on_path, try_open. cbn -[streq str]. rewrite Hf. cbn -[streq str].
    change (0 + 1 =? 1) with true. cbn -[streq str].
    rewrite Hc. cbn -[streq str].
    eexists. split; [reflexivity|].
    by exists 0%nat, (SrcFile (Some fname) (get_dirname fname) 1 1 None).
Qed.

Section scanning.
Context (fopen : list byte -> bool) (contents : list byte -> res (list byte)).

Lemma lexeme_step w s bol sc t sc' sf e :
  w <> [] -> lexeme w s bol sc t sc' -> file_ok sf -> exists pos sf',
  lex_step fopen contents (Lexer [(w ++ s, bol)] sc sf e) =
    Ret (match t with Some t => Token t pos | None => Again end, Lexer [(s, ends_line w)] sc' sf' e) /\ file_ok sf'.
Proof.
  intros Hw (k & r & Hl & Hr & Ha) Hsf. destruct (srcpos_update_ok w sf Hsf) as (pos & sf' & Hp & Hsf').
  exists pos, sf'. split; [|done]. unfold lex_step. cbn [lx_buffers lx_sc].
  destruct (w ++ s) as [|c ws] eqn:E; [by apply app_eq_nil in E as [-> _]|]. rewrite <- E in *.
  rewrite Hl, Hr. cbn [nonnull rbind lx_sc lx_files lx_error]. rewrite take_app_length, drop_app_length, Hp.
  cbn [rbind]. rewrite Ha by done. reflexivity.
Qed.

(** *** Loops that break *)

Inductive body_runs {S A} (body : S -> res (ctl S A)) : nat -> S -> A -> Prop :=
| runs_break s a : body s = Ret (Break a) -> body_runs body 0 s a
| runs_continue n s s' a : body s = Ret (Continue s') -> body_runs body n s' a -> body_runs body (Datatypes.S n) s a.

Lemma loop_runs {S A} (body : S -> res (ctl S A)) n s a :
  body_runs body n s a -> Z.of_nat n < Z.pos loop_bound -> loop body s = Ret a.
Proof.
  intros H Hn. apply wp_total_eq.
  apply (wp_loop_rel total (fun s k => exists m, k = Z.of_nat m /\ (m <= n)%nat /\ body_runs body m s a) _ _ (Z.of_nat n)).
  - by exists n.
  - intros s0 k (m & -> & Hm & _). lia.
  - intros s0 k (m & -> & Hm & Hr). inversion Hr as [? ? Hb|m' ? s1 ? Hb Hr']; subst; rewrite Hb; cbn; [done|].
    exists (Z.of_nat m'). split; [exists m'; split_and!; [done|lia|done]|lia].
Qed.

(** *** One token, and all *)

Definition yylex_body (lx : lexer) : res (ctl lexer (option (token * srcpos) * lexer)) :=
  let! '(e, lx) := lex_step fopen contents lx in
  match e with
  | Token t pos => Ret (Break (Some (t, pos), lx))
  | Again => Ret (Continue lx)
  | Terminate => Ret (Break (None, lx))
  end.

(** What the scanner returns when [l] is to come. *)
Definition lexed (s : list byte) (l : list token) (bol' : bool) (sc' : start_condition) (e : bool)
    (r : option (token * srcpos) * lexer) : Prop :=
  match l with
  | [] => r.1 = None /\ lx_error r.2 = e
  | t :: l => exists pos s1 b1 sc1 sf1, r = (Some (t, pos), Lexer [(s1, b1)] sc1 sf1 e) /\
      scans s1 b1 sc1 l [] bol' sc' /\ file_ok sf1 /\ (length s1 < length s)%nat /\ ends_input t = false
  end.

Lemma yylex_runs s bol sc l bol' sc' e sf :
  scans s bol sc l [] bol' sc' -> file_ok sf ->
  exists n r, body_runs yylex_body n (Lexer [(s, bol)] sc sf e) r /\ (n <= length s)%nat /\ lexed s l bol' sc' e r.
Proof.
  intros H. remember [] as s' eqn:Es. revert sf. induction H as [s bol sc|w s bol sc t sc1 l s' bol' sc' Hw Hl Ht Hs IH
    |w s bol sc sc1 l s' bol' sc' Hw Hl Hs IH]; intros sf Hsf; subst.
  - destruct Hsf as (i & f & Hc & Hf & Hp). eexists 0%nat, _. split; [|split; [cbn; lia|]].
    + apply runs_break. unfold yylex_body, lex_step, pop_input_file, srcfile_pop. cbn [lx_buffers lx_files].
      rewrite Hc. cbn [is_null negb c_assert rbind file_at nonnull]. rewrite Hf. cbn. by rewrite Hp.
    + done.
  - destruct (lexeme_step w s bol sc (Some t) sc1 sf e Hw Hl Hsf) as (pos & sf' & E & Hsf').
    eexists 0%nat, _. split; [apply runs_break; unfold yylex_body; by rewrite E|]. split; [lia|].
    exists pos, s, (ends_line w), sc1, sf'. split_and!; try done. rewrite length_app. destruct w; [done|]. cbn. lia.
  - destruct (lexeme_step w s bol sc None sc1 sf e Hw Hl Hsf) as (pos & sf' & E & Hsf').
    destruct (IH eq_refl sf' Hsf') as (n & r & Hr & Hn & Hx).
    assert (length s < length (w ++ s))%nat by (rewrite length_app; destruct w; [done|]; cbn; lia).
    exists (S n), r. split; [eapply runs_continue; [unfold yylex_body; by rewrite E|done]|]. split; [lia|].
    destruct l; [done|]. destruct Hx as (pos1 & s1 & b1 & sc2 & sf1 & Hx). exists pos1, s1, b1, sc2, sf1.
    destruct_and!. split_and!; try done. lia.
Qed.

(** The stream of the tokens [l], without an error. *)
Inductive stream : list token -> tokens -> Prop :=
| stream_end sf : stream [] (Eof sf false)
| stream_token t pos sf l rest : stream l rest -> stream (t :: l) (Tok t pos sf false rest).

Lemma lex_all_scans s bol sc l bol' sc' sf :
  scans s bol sc l [] bol' sc' -> file_ok sf -> zlen s < Z.pos loop_bound ->
  exists t, lex_all fopen contents (Lexer [(s, bol)] sc sf false) = Ret t /\ stream l t.
Proof.
  intros H Hsf Hlen. unfold lex_all.
  match goal with |- exists t, loop ?b _ = _ /\ _ => set (body := b) end.
  assert (forall l s bol sc sf read, scans s bol sc l [] bol' sc' -> file_ok sf -> zlen s < Z.pos loop_bound ->
    exists t n, body_runs body n (Lexer [(s, bol)] sc sf false, read) (add_tokens read t) /\ stream l t /\
      (n <= length s)%nat) as Hr.
  { clear. intros l. induction l as [|t l IH]; intros s bol sc sf read H Hsf Hlen;
      destruct (yylex_runs _ _ _ _ _ _ false _ H Hsf) as (n & r & Hr & Hn & Hx);
      apply loop_runs in Hr; try (unfold zlen in Hlen; lia).
    - destruct r as [[|] lx], Hx as [Hx He]; cbn in *; [done|].
      exists (Eof (lx_files lx) false), 0%nat. split; [apply runs_break|split; [constructor|lia]].
      unfold body, yylex. unfold yylex_body in Hr. rewrite Hr. by rewrite He.
    - destruct Hx as (pos & s1 & b1 & sc1 & sf1 & -> & Hs1 & Hsf1 & Hl1 & Ht).
      destruct (IH s1 b1 sc1 sf1 ((t, pos, sf1, false) :: read) Hs1 Hsf1) as (u & m & Hm & Hu & Hle); [unfold zlen in *; lia|].
      exists (Tok t pos sf1 false u), (S m). split; [|split; [by constructor|lia]].
      eapply runs_continue; [|exact Hm]. unfold body, yylex. unfold yylex_body in Hr. rewrite Hr. by rewrite Ht. }
  destruct (Hr l s bol sc sf [] H Hsf Hlen) as (t & n & Hn & Ht & Hle). exists t. split; [|done].
  change t with (add_tokens [] t). apply (loop_runs _ n); [done|]. unfold zlen in Hlen. lia.
Qed.
End scanning.

(** Some rule matches at every character: flex's default rule is not used, and
    every step but the last reads. *)
Lemma rules_move sc bol c s :
  exists k n r, longest (active sc bol) (c :: s) = Some (k, S n) /\ rules !! k = Some r /\ (S n <= length (c :: s))%nat.
Proof.
  destruct (longest_moves (active sc bol) c s) as (k & n & r & E & Hr & Hn).
  - apply negb_true_iff.
    apply (for_byte (fun _ => true) (fun c => negb (is_null (accepts 0 (map (deriv c) (active sc bol)))))); [|done]. destruct sc, bol; by vm_compute.
  - unfold active in Hr. apply list_lookup_fmap_Some in Hr as (x & _ & Hr). by exists k, n, x.
Qed.

(** ** The lexemes of the text *)

Definition is_ws (c : byte) : bool := in_class false [(" "%byte, " "%byte); (x09, x0d)] c.
Definition name_char (c : byte) : bool := in_class false propnodechars c.
Definition one_of (l : list byte) (c : byte) : bool := bool_decide (c ∈ l).

(** The automata behind white space, a name, a hexadecimal literal and the
    start of a string. *)
Definition ws_states : list (list regex) :=
  Eval vm_compute in reach 2 is_ws (flat_map (fun sc => step_states is_ws [active sc false; active sc true] [])
    [INITIAL; BYTESTRING; PROPNODENAME; V1]).
Definition name_states : list (list regex) :=
  Eval vm_compute in reach 4 name_char (step_states name_char [active PROPNODENAME false] []).
Definition hex_states : list (list regex) :=
  Eval vm_compute in reach 2 hex_digit (step_states hex_digit [run (active V1 false) (str "0x")] []).
Definition string_states : list (list regex) :=
  Eval vm_compute in reach_pieces 4 write_char (filter (fun c => b2z c < 128) all_bytes) [run (active V1 false) [quote]].

Lemma skip_begin fopen contents w lx sc : lx_sc lx = sc -> do_action fopen contents skip w lx = Ret (None, lx_begin sc lx).
Proof. intros <-. by destruct lx. Qed.

Lemma ws_run sc bol w : w <> [] -> forallb is_ws w = true -> run (active sc bol) w ∈ ws_states.
Proof.
  destruct w as [|c w]; [done|]. intros _ [Hc Hw]%andb_true_iff. apply (run_start is_ws); [|by vm_compute|exact Hc|exact Hw].
  destruct sc, bol; by vm_compute.
Qed.

Lemma scans_ws w c s bol sc :
  w <> [] -> forallb is_ws w = true -> is_ws c = false -> scans (w ++ c :: s) bol sc [] (c :: s) (ends_line w) sc.
Proof.
  intros Hw Hall Hc. eapply scans_skip; [done| |constructor]. exists 19%nat. eexists. split; [|split; [reflexivity|by intros; apply skip_begin]].
  apply (longest_closed (fun c => negb (is_ws c)) ws_states);
    [by vm_compute|by vm_compute|by apply ws_run|by rewrite Hc].
Qed.

Lemma scans_ws_end w bol sc : w <> [] -> forallb is_ws w = true -> scans w bol sc [] [] (ends_line w) sc.
Proof.
  intros Hw Hall. rewrite <- (app_nil_r w) at 1. eapply scans_skip; [done| |constructor].
  exists 19%nat. eexists. split; [|split; [reflexivity|by intros; apply skip_begin]]. rewrite app_nil_r. apply longest_run_end.
  assert (accepted_as 19 ws_states = true) as Ha by (by vm_compute). unfold accepted_as in Ha. rewrite forallb_forall in Ha.
  apply (bool_decide_eq_true_1 _ (Ha _ (proj1 (list_elem_of_In _ _) (ws_run sc bol w Hw Hall)))).
Qed.

Lemma scans_name name c s :
  name <> [] -> forallb name_char name = true -> one_of [" "; ";"]%byte c = true ->
  scans (name ++ c :: s) false PROPNODENAME [DT_PROPNODENAME name] (c :: s) false V1.
Proof.
  intros Hne Hall Hc. eapply scans_token; [done| |done|].
  - exists 17%nat. eexists. split; [|split; [reflexivity|]].
    + apply (longest_closed (one_of [" "; ";"]%byte) name_states); [by vm_compute|by vm_compute| |done].
      destruct name as [|x name]; [done|]. apply andb_true_iff in Hall as [Hx Hall].
      apply (run_start name_char); [by vm_compute|by vm_compute|exact Hx|exact Hall].
    + intros fopen contents lx _. cbn. f_equal. f_equal. rewrite bool_decide_false; [done|].
      destruct name as [|x name]; [done|]. intros [= ->]. cbn in Hall. done.
  - assert (ends_line name = false) as ->; [|constructor]. unfold ends_line. apply bool_decide_eq_false. intros Hl.
    apply last_Some in Hl as [l ->]. rewrite forallb_app in Hall. by destruct (forallb name_char l).
Qed.

(** The start condition behind a character. *)
Definition after_char (c : byte) (sc : start_condition) : start_condition :=
  if bool_decide (c = "{"%byte) || bool_decide (c = ";"%byte) then PROPNODENAME
  else if bool_decide (c = "["%byte) then BYTESTRING else sc.

(** A character that is a token of its own; what follows it does not make a
    longer match. *)
Lemma scans_char c s bol sc :
  accepts 0 (run (active sc bol) [c]) = Some 30%nat ->
  match s with d :: _ => dead (run (active sc bol) [c; d]) = true | [] => True end ->
  c <> nl -> ends_input (Char c) = false ->
  scans (c :: s) bol sc [Char c] s false (after_char c sc).
Proof.
  intros Ha Hd Hc He. change (c :: s) with ([c] ++ s). apply (scans_token _ _ _ _ _ (after_char c sc)); [done| |done|].
  - exists 30%nat. eexists. split; [|split; [reflexivity|]].
    + destruct s as [|d s]; [by apply longest_run_end|by apply longest_run].
    + intros fopen contents lx <-. cbn [r_action do_action head nonnull rbind].
      unfold after_char. destruct (bool_decide (c = "{"%byte)), (bool_decide (c = ";"%byte)), (bool_decide (c = "["%byte)); by destruct lx.
  - unfold ends_line. cbn. rewrite bool_decide_eq_false_2 by congruence. constructor.
Qed.

Lemma strtoull0_hex d ds v :
  0 <= v < 2 ^ 64 -> is_base_digit 16 d = true -> strtol_digits 16 0 0 (d :: ds) = (v, zlen (d :: ds)) ->
  strtoull0 (str "0x" ++ d :: ds) = (v, [], false).
Proof.
  intros Hv Hd Hs. change (str "0x" ++ d :: ds) with ("0"%byte :: "x"%byte :: d :: ds).
  assert (strtol ("0"%byte :: "x"%byte :: d :: ds) 16 = (v, zlen ds + 3)) as E.
  { unfold strtol. cbn [skip_space is_space]. change (is_space "0"%byte) with false. cbn iota.
    rewrite Hd. change (16 =? 16) with true. cbn [andb].
    change (bool_decide ("x"%byte = "x"%byte) || bool_decide ("x"%byte = "X"%byte)) with true. cbn [andb]. rewrite Hs. pose proof (zlen_nonneg ds). rewrite zlen_cons.
    destruct (Z.eqb_spec (zlen ds + 1) 0); [lia|]. f_equal; lia. }
  unfold strtoull0. rewrite Hd, E. change (bool_decide ("x"%byte = "x"%byte) || bool_decide ("x"%byte = "X"%byte)) with true.
  cbn [andb]. change (2 ^ 64) with 18446744073709551616 in Hv.
  destruct (Z.ltb_spec 18446744073709551615 v); [lia|]. f_equal. f_equal. apply drop_ge. cbn [length]. unfold zlen. lia.
Qed.

Lemma scans_literal w v c s :
  0 <= v < 2 ^ 64 -> one_of [" "; ">"; ";"]%byte c = true ->
  scans (str "0x" ++ fmt_x w v ++ c :: s) false V1 [DT_LITERAL v] (c :: s) false V1.
Proof.
  intros Hv Hc. destruct (fmt_x_back w v Hv) as (Hne & Hd & Hh & Hs). revert Hne Hd Hh Hs.
  generalize (fmt_x w v) as l. intros [|d ds] Hne Hd Hh Hs; [done|]. rewrite app_assoc. apply (scans_token _ _ _ _ _ V1); [done| |done|].
  - exists 11%nat. eexists. split; [|split; [reflexivity|]].
    + apply (longest_closed (one_of [" "; ">"; ";"]%byte) hex_states); [by vm_compute|by vm_compute| |done].
      rewrite run_app. apply andb_true_iff in Hh as [Hd1 Hh].
      apply (run_start hex_digit); [by vm_compute|by vm_compute|exact Hd1|exact Hh].
    + intros fopen contents lx <-. cbn [do_action r_action].
      assert (strtoull0 (str "0x" ++ d :: ds) = (v, [], false)) as Hn by (apply strtoull0_hex; [exact Hv|by apply andb_true_iff in Hd as [Hd _]|exact Hs]).
      unfold integer_literal_action. rewrite Hn. by destruct lx.
  - assert (ends_line (str "0x" ++ d :: ds) = false) as ->; [|constructor]. unfold ends_line.
    apply bool_decide_eq_false. intros Hl. rewrite last_app in Hl. destruct (last (d :: ds)) as [x|] eqn:El; [|done].
    injection Hl as ->. apply last_Some in El as [l El]. rewrite El, forallb_app in Hh. by destruct (forallb hex_digit l).
Qed.

(** Two digits, alone and before what follows them. *)
Definition byte_text_ok (b : byte) : bool :=
  let w := fmt_x 2 (b2z b) in
  (length w =? 2)%nat && bool_decide (accepts 0 (run (active BYTESTRING false) w) = Some 15%nat) &&
  dead (run (active BYTESTRING false) (w ++ [" "%byte])) && dead (run (active BYTESTRING false) (w ++ ["]"%byte])) &&
  bool_decide (z2b (strtol w 16).1 = b) && negb (ends_line w).

Lemma byte_text_all b : byte_text_ok b = true.
Proof.
  assert (forallb byte_text_ok all_bytes = true) as H by (by vm_compute). rewrite forallb_forall in H.
  apply H, list_elem_of_In, all_bytes_in.
Qed.

Lemma scans_byte b c s :
  one_of [" "; "]"]%byte c = true ->
  scans (fmt_x 2 (b2z b) ++ c :: s) false BYTESTRING [DT_BYTE b] (c :: s) false BYTESTRING.
Proof.
  intros Hc. pose proof (byte_text_all b) as H. unfold byte_text_ok in H. cbv zeta in H. set (w := fmt_x 2 (b2z b)) in *.
  repeat (apply andb_true_iff in H; destruct H as [H ?]).
  repeat match goal with H : bool_decide _ = true |- _ => apply bool_decide_eq_true in H end.
  apply (scans_token _ _ _ _ _ BYTESTRING); [by destruct w| |done|].
  - exists 15%nat. eexists. split; [|split; [reflexivity|]].
    + apply longest_run; [done|]. unfold one_of in Hc. apply bool_decide_eq_true in Hc.
      apply elem_of_cons in Hc as [->|Hc]; [done|]. by apply list_elem_of_singleton in Hc as ->.
    + intros fopen contents lx <-. cbn [do_action r_action]. match goal with H : z2b _ = b |- _ => rewrite H end. by destruct lx.
  - match goal with H : negb (ends_line w) = true |- _ => apply negb_true_iff in H; rewrite H end. constructor.
Qed.

(** What the scanner makes of a printed string. *)
Definition string_data (v : list byte) : data :=
  match data_copy_escape_string (printed v ++ [quote; x00]) (zlen (printed v)) with Ret d => d | Fault _ => empty_data end.

Lemma string_data_val v : printable_back v = true -> zlen (printed v) < INT_MAX -> d_val (string_data v) = v ++ [x00].
Proof. intros Hp Hl. destruct (printed_back v Hp Hl) as (d & Hd & Hv). unfold string_data. by rewrite Hd. Qed.

Lemma scans_string v s :
  printable_back v = true -> zlen (printed v) < INT_MAX ->
  scans (quote :: printed v ++ quote :: ";"%byte :: s) false V1 [DT_STRING (string_data v)] (";"%byte :: s) false V1.
Proof.
  intros Hp Hl. destruct (printed_back v Hp Hl) as (d & Hd & Hv). unfold string_data. rewrite Hd.
  replace (quote :: printed v ++ quote :: ";"%byte :: s) with ((quote :: printed v ++ [quote]) ++ ";"%byte :: s)
    by (cbn; by rewrite <- app_assoc).
  apply (scans_token _ _ _ _ _ V1); [done| |done|].
  - exists 2%nat. eexists. split; [|split; [reflexivity|]].
    + assert (run (active V1 false) (quote :: printed v) ∈ string_states) as Hin.
      { change (quote :: printed v) with ([quote] ++ printed v). rewrite run_app.
        apply (run_pieces (fun c => b2z c <? 128)); [by vm_compute| |].
        - apply (bool_decide_eq_true_1 (run (active V1 false) [quote] ∈ string_states)). by vm_compute.
        - clear -Hp. induction v as [|c v IH]; [done|]. apply printable_back_cons in Hp as (Hc & _ & Hp).
          cbn [forallb]. rewrite (IH Hp), andb_true_r. by apply Z.ltb_lt. }
      assert (forallb (fun rs => bool_decide (accepts 0 (run rs [quote]) = Some 2%nat) && dead (run rs [quote; ";"%byte]))
        string_states = true) as Hs by (by vm_compute).
      rewrite forallb_forall in Hs. apply list_elem_of_In, Hs, andb_true_iff in Hin as [H1 H2].
      apply bool_decide_eq_true in H1. change (quote :: printed v ++ [quote]) with ((quote :: printed v) ++ [quote]).
      apply longest_run; [by rewrite run_app|]. rewrite <- app_assoc, run_app. exact H2.
    + intros fopen contents lx <-. cbn [do_action r_action]. unfold escape_string_at. cbn [drop Z.to_nat Pos.to_nat].
      replace (zlen (quote :: printed v ++ [quote]) - 2) with (zlen (printed v))
        by (rewrite zlen_cons, zlen_app; change (zlen [quote]) with 1; lia).
      change (drop (Z.to_nat 1) (quote :: printed v ++ [quote])) with (printed v ++ [quote]).
      rewrite <- app_assoc. cbn [app]. rewrite Hd. by destruct lx.
  - assert (ends_line (quote :: printed v ++ [quote]) = false) as ->; [|constructor]. unfold ends_line.
    change (quote :: printed v ++ [quote]) with ((quote :: printed v) ++ [quote]). by rewrite last_snoc.
Qed.

(** A word of a rule of its own. *)
Lemma scans_word w c s bol sc sc' t k :
  w <> [] -> ends_line w = false -> ends_input t = false ->
  accepts 0 (run (active sc bol) w) = Some k -> dead (run (active sc bol) (w ++ [c])) = true ->
  (exists r, rules !! k = Some r /\ forall fopen contents lx, lx_sc lx = sc ->
    do_action fopen contents (r_action r) w lx = Ret (Some t, lx_begin sc' lx)) ->
  scans (w ++ c :: s) bol sc [t] (c :: s) false sc'.
Proof.
  intros Hw Hl Ht Ha Hd (r & Hr & Hact). apply (scans_token _ _ _ _ _ sc'); [done| |done|rewrite Hl; constructor].
  exists k, r. split; [by apply longest_run|done].
Qed.
