(* ===== verification/Dtsv0.v ===== *)
(** dtc/convert-dtsv0-lexer.l: the program that rewrites source of version 0 as
    version 1, a scanner that writes. What the scanner keeps between two tokens
    it keeps between two files. *)
From S2P Require Import Prelude Monad Ctype DtcUtil DtcRegex DtcLexer DtcScan.

(** ** Patterns and rules *)

Definition GAP : regex := Star (alts [WS; COMMENT; LINECOMMENT]).

Inductive start_condition := INITIAL | BYTESTRING | PROPNODENAME.

#[export] Instance start_condition_eq_dec : EqDecision start_condition.
Proof. solve_decision. Defined.

Inductive action := echo | already_v1 | memreserve_ | set_base | number | old_path_ref | bytestring_end | propnodename
| hyphen | any_char.

Record rule := Rule {
  r_sc : list start_condition;
  r_regex : regex;
  r_action : action;
}.

Definition all : list start_condition := [INITIAL; BYTESTRING; PROPNODENAME].

Definition rules : list rule := [
  Rule all (Seq (lit (str "/include/")) (Seq GAP STRING)) echo;
  Rule all STRING echo;
  Rule all (lit (str "/dts-v1/")) already_v1;
  Rule all (lit (str "/memreserve/")) memreserve_;
  Rule all (Seq LABEL (chr ":")) echo;
  Rule [INITIAL] (Seq (Class false (chars (str "bodh"))) (chr "#")) set_base;
  Rule [INITIAL] (plus (Class false hexdigits)) number;
  Rule [INITIAL] (Seq (chr "&") LABEL) echo;
  Rule [INITIAL] (Seq (lit (str "&{/")) (Seq (plus PATHCHAR) (chr "}"))) echo;
  Rule [INITIAL] (Seq (lit (str "&/")) (plus PATHCHAR)) old_path_ref;
  Rule [BYTESTRING] (Seq (Class false hexdigits) (Class false hexdigits)) echo;
  Rule [BYTESTRING] (chr "]") bytestring_end;
  Rule [PROPNODENAME] (plus PROPNODECHAR) propnodename;
  Rule all GAP echo;
  Rule all (chr "-") hyphen;
  Rule all dot any_char].

Definition active (sc : start_condition) : list regex :=
  map (fun r => if bool_decide (sc ∈ r_sc r) then r_regex r else Void) rules.

(** ** Numbers *)

(** The patterns of the table have no special character but the star. *)
Fixpoint fnmatch (pattern s : list byte) : bool :=
  match pattern with
  | [] => bool_decide (s = [])
  | c :: pattern =>
    if bool_decide (c = "*"%byte) then
      (fix star (s : list byte) : bool := fnmatch pattern s || match s with [] => false | _ :: s => star s end) s
    else match s with [] => false | x :: s => bool_decide (x = c) && fnmatch pattern s end
  end.

(** The pattern, the base and the width. *)
Definition guess_table : list (list byte * (Z * nat)) := [
  (str "*-frequency", (10, 0%nat)); (str "num-*", (10, 0%nat)); (str "#*-cells", (10, 0%nat));
  (str "*cache-line-size", (10, 0%nat)); (str "*cache-block-size", (10, 0%nat)); (str "*cache-size", (10, 0%nat));
  (str "*cache-sets", (10, 0%nat)); (str "cell-index", (10, 0%nat)); (str "bank-width", (10, 0%nat));
  (str "*-fifo-size", (10, 0%nat)); (str "*-frame-size", (10, 0%nat)); (str "*-channel", (10, 0%nat));
  (str "current-speed", (10, 0%nat)); (str "phy-map", (16, 8%nat)); (str "dcr-reg", (16, 3%nat));
  (str "reg", (16, 8%nat)); (str "ranges", (16, 8%nat))].

(** The last entry that matches counts. *)
Fixpoint guess (table : list (list byte * (Z * nat))) (name : list byte) (found : Z * nat) : Z * nat :=
  match table with
  | [] => found
  | (pattern, e) :: table => guess table name (if fnmatch pattern name then e else found)
  end.

Definition print_number (obase : Z) (width : nat) (val : Z) : list byte :=
  if (obase =? 2) || (obase =? 16) then str "0x" ++ fmt_x width val
  else if obase =? 8 then "0"%byte :: pad0 width (fmt_base 8 val)
  else if obase =? 10 then replicate (width - length (fmt_u val)) " "%byte ++ fmt_u val
  else [].

(** ** The scanner *)

(** Its static variables, the start condition and what has been written. *)
Record lexer := Lexer {
  v1_tagged : bool;
  cbase : Z;
  saw_hyphen : bool;
  last_val : Z;
  last_name : option (list byte);
  lx_sc : start_condition;
  yyout : list byte;
}.

Definition lexer_init : lexer := Lexer false 16 false 0 None INITIAL [].

Definition write (s : list byte) (lx : lexer) : lexer :=
  Lexer (v1_tagged lx) (cbase lx) (saw_hyphen lx) (last_val lx) (last_name lx) (lx_sc lx) (yyout lx ++ s).
Definition BEGIN (sc : start_condition) (lx : lexer) : lexer :=
  Lexer (v1_tagged lx) (cbase lx) (saw_hyphen lx) (last_val lx) (last_name lx) sc (yyout lx).
Definition tag (lx : lexer) : lexer :=
  if v1_tagged lx then lx
  else Lexer true (cbase lx) (saw_hyphen lx) (last_val lx) (last_name lx) (lx_sc lx) (yyout lx ++ str "/dts-v1/;" ++ [nl; nl]).

Definition number_action (yytext : list byte) (lx : lexer) : lexer :=
  let val := Z.min 18446744073709551615 (strtol yytext (cbase lx)).1 in
  let val := if saw_hyphen lx then u64 (val - last_val lx + 1) else val in
  let '(obase, width) :=
    match last_name lx with
    | Some name => guess guess_table name (16, 0%nat)
    | None => (16, 16%nat)
    end in
  let obase := if negb (cbase lx =? 16) then cbase lx else obase in
  Lexer (v1_tagged lx) 16 false val (last_name lx) (lx_sc lx) (yyout lx ++ print_number obase width val).

Definition do_action (a : action) (yytext : list byte) (lx : lexer) : res lexer :=
  match a with
  | echo => Ret (write yytext lx)
  | already_v1 => Fault Die
  | memreserve_ => Ret (BEGIN INITIAL (write yytext (tag lx)))
  | set_base =>
    let! c := nonnull (head yytext) in
    let b := if bool_decide (c = "b"%byte) then 2 else if bool_decide (c = "o"%byte) then 8
             else if bool_decide (c = "d"%byte) then 10 else 16 in
    Ret (Lexer (v1_tagged lx) b (saw_hyphen lx) (last_val lx) (last_name lx) (lx_sc lx) (yyout lx))
  | number => Ret (number_action yytext lx)
  | old_path_ref => Ret (write (str "&{/" ++ drop 2 yytext ++ str "}") lx)
  | bytestring_end => Ret (BEGIN INITIAL (write yytext lx))
  | propnodename =>
    let lx := write yytext lx in
    Ret (Lexer (v1_tagged lx) (cbase lx) (saw_hyphen lx) (last_val lx) (Some yytext) INITIAL (yyout lx))
  | hyphen => Ret (write (str " ") (Lexer (v1_tagged lx) (cbase lx) true (last_val lx) (last_name lx) (lx_sc lx) (yyout lx)))
  | any_char =>
    let! c := nonnull (head yytext) in
    let lx := write yytext (tag lx) in
    let lx := if bool_decide (c = "["%byte) then BEGIN BYTESTRING lx else lx in
    Ret (if bool_decide (c = "{"%byte) || bool_decide (c = ";"%byte) then BEGIN PROPNODENAME lx else lx)
  end.

(** No rule returns: [yylex] goes on to the end of the text. *)
Definition yylex (text : list byte) (lx : lexer) : res lexer :=
  loop (fun '(s, lx) =>
    match s with
    | [] => Ret (Break lx)
    | _ =>
      match longest (active (lx_sc lx)) s with
      | Some (k, n) =>
        let! r := nonnull (rules !! k) in
        let! lx := do_action (r_action r) (take n s) lx in
        Ret (Continue (drop n s, lx))
      | None => (* the default rule *)
        Ret (Continue (drop 1 s, write (take 1 s) lx))
      end
    end) (text, lx).

(** ** Files *)

Section files.
(** What a file to read holds, and whether a file can be opened to be written. *)
Context (fopen_r : list byte -> option (list byte)) (fopen_w : list byte -> bool).

(** The name of the file that is written, and its contents. *)
Definition convert_file (fname : list byte) (lx : lexer) : res ((list byte * list byte) * lexer) :=
  let newname := fname ++ str "v1" in
  match fopen_r fname with
  | None => Fault Die
  | Some text =>
    if negb (fopen_w newname) then Fault Die else
    let! lx := yylex text lx in
    Ret ((newname, yyout lx),
         Lexer (v1_tagged lx) (cbase lx) (saw_hyphen lx) (last_val lx) (last_name lx) (lx_sc lx) [])
  end.

Fixpoint convert_files (files : list (list byte)) (lx : lexer) : res (list (list byte * list byte)) :=
  match files with
  | [] => Ret []
  | fname :: files =>
    let! '(out, lx) := convert_file fname lx in
    let! outs := convert_files files lx in
    Ret (out :: outs)
  end.

(** [files] are the arguments, none of them an option. *)
Definition convert_dtsv0_main (files : list (list byte)) : res (list (list byte * list byte)) :=
  match files with
  | [] => Fault Die (* usage *)
  | _ => convert_files files lexer_init
  end.
End files.

(** ** The scanner ends *)

Lemma v0_rules_move sc c s :
  exists k n r, longest (active sc) (c :: s) = Some (k, S n) /\ rules !! k = Some r /\ (S n <= length (c :: s))%nat.
Proof.
  destruct (longest_moves (active sc) c s) as (k & n & r & E & Hr & Hn).
  - apply negb_true_iff.
    apply (for_byte (fun _ => true) (fun c => negb (is_null (accepts 0 (map (deriv c) (active sc)))))); [|done]. destruct sc; by vm_compute.
  - unfold active in Hr. apply list_lookup_fmap_Some in Hr as (x & _ & Hr). by exists k, n, x.
Qed.

(** Any text is converted, but for one that is tagged as version 1. *)
Lemma yylex_ends text lx :
  zlen text < Z.pos loop_bound -> yylex text lx = Fault Die \/ exists lx', yylex text lx = Ret lx'.
Proof.
  intros Hl. assert (wp (fun f => f = Die) (yylex text lx) (fun _ => True)) as W.
  { unfold yylex. apply (wp_loop _ (fun st => zlen st.1 < Z.pos loop_bound) (fun st => zlen st.1)); [exact Hl| |].
    - intros [s l] H. cbn [fst] in *. pose proof (zlen_nonneg s). lia.
    - intros [s l] H. cbn [fst] in *. destruct s as [|c s]; [exact I|].
      destruct (v0_rules_move (lx_sc l) c s) as (k & n & r & -> & -> & Hn). cbn [nonnull rbind].
      eapply wp_seq with (P := fun _ => True).
      + destruct (r_action r); cbn [do_action]; try exact I; try reflexivity.
      + intros l' _. cbn [wp fst]. assert (zlen (drop (S n) (c :: s)) < zlen (c :: s)); [|lia].
        unfold zlen. rewrite length_drop. cbn [length] in *. lia. }
  destruct (yylex text lx) as [l|f]; cbn [wp] in W; [right; by exists l|left; by rewrite W].
Qed.

(** ** The numbers are those of version 1 *)

Lemma strtol_digits_only base d ds v :
  base <> 16 -> is_base_digit 10 d = true -> strtol_digits base 0 0 (d :: ds) = (v, zlen (d :: ds)) ->
  strtol (d :: ds) base = (v, zlen (d :: ds)).
Proof.
  intros Hb Hd Hs. assert (is_space d = false) as Hsp.
  { apply negb_true_iff. revert Hd. apply (for_byte (is_base_digit 10) (fun d => negb (is_space d))). by vm_compute. }
  assert ((base =? 16) = false) as Hb' by (by apply Z.eqb_neq).
  assert (0 < zlen (d :: ds)) by (rewrite zlen_cons; pose proof (zlen_nonneg ds); lia).
  unfold strtol. cbn [skip_space]. rewrite Hsp.
  assert (forall n, (let '(v, n4) := strtol_digits base 0 0 (d :: ds) in
    if n4 =? 0 then (0, 0) else (v, 0 + 0 + n + n4)) = (v, n + zlen (d :: ds))) as Hend.
  { intros n. rewrite Hs. destruct (Z.eqb_spec (zlen (d :: ds)) 0); [lia|]. f_equal. }
  destruct d; try discriminate Hd; try exact (Hend 0).
  destruct ds as [|x [|c r]]; try exact (Hend 0). rewrite Hb'. exact (Hend 0).
Qed.

Lemma all_read (s : list byte) v : 0 <= v < 2 ^ 64 ->
  (if 18446744073709551615 <? v then (18446744073709551615, drop (Z.to_nat (zlen s)) s, true)
   else (v, drop (Z.to_nat (zlen s)) s, false)) = (v, [], false).
Proof.
  intros Hv. change (2 ^ 64) with 18446744073709551616 in Hv. destruct (Z.ltb_spec 18446744073709551615 v); [lia|].
  rewrite drop_ge by (unfold zlen; lia). done.
Qed.

(** An octal number behind a zero, and a decimal one that does not start with
    one. *)
Lemma strtoull0_oct ds v :
  0 <= v < 2 ^ 64 -> forallb (is_base_digit 8) ds = true -> strtol_digits 8 0 0 ds = (v, zlen ds) ->
  strtoull0 ("0"%byte :: ds) = (v, [], false).
Proof.
  intros Hv Hd Hs.
  assert (strtol ("0"%byte :: ds) 8 = (v, zlen ("0"%byte :: ds))) as E.
  { apply strtol_digits_only; [done|done|]. cbn [strtol_digits]. change (is_base_digit 8 "0") with true. cbn iota.
    change (0 * 8 + digit_val "0") with 0. rewrite zlen_cons. change (0 + 1) with 1.
    assert (forall l a n m, strtol_digits 8 a (n + m) l = ((strtol_digits 8 a n l).1, (strtol_digits 8 a n l).2 + m)) as Hshift.
    { induction l as [|c l IH]; intros a n m; cbn [strtol_digits]; [done|]. destruct (is_base_digit 8 c); [|done].
      replace (n + m + 1) with (n + 1 + m) by lia. apply IH. }
    change 1 with (0 + 1) at 1. rewrite Hshift, Hs. done. }
  unfold strtoull0. destruct ds as [|x [|c r]]; [by rewrite E; apply all_read..|].
  assert (bool_decide (x = "x"%byte) || bool_decide (x = "X"%byte) = false) as ->.
  { apply andb_true_iff in Hd as [Hx _]. apply orb_false_iff. split; apply bool_decide_eq_false; by intros ->. }
  cbn [andb]. rewrite E. by apply all_read.
Qed.

Lemma strtoull0_dec d ds v :
  0 <= v < 2 ^ 64 -> is_base_digit 10 d = true -> d <> "0"%byte -> strtol_digits 10 0 0 (d :: ds) = (v, zlen (d :: ds)) ->
  strtoull0 (d :: ds) = (v, [], false).
Proof.
  intros Hv Hd H0 Hs. pose proof (strtol_digits_only 10 d ds v ltac:(done) Hd Hs) as E.
  unfold strtoull0. destruct d; try discriminate Hd; try done; rewrite E; by apply all_read.
Qed.

(** A literal of the text is read by the scanner of version 1 as the number it
    was made of, whatever the base and the width. *)
Lemma number_back obase width val :
  obase ∈ [2; 8; 10; 16] -> 0 <= val < 2 ^ 64 ->
  exists k ds, print_number obase width val = replicate k " "%byte ++ ds /\ strtoull0 ds = (val, [], false).
Proof.
  intros Hb Hv. unfold print_number. rewrite !elem_of_cons, elem_of_nil in Hb.
  assert (exists ds, str "0x" ++ fmt_x width val = ds /\ strtoull0 ds = (val, [], false)) as (hex & Eh & Hhex).
  { destruct (fmt_x_back width val Hv) as (Hne & Hd & _ & Hs). destruct (fmt_x width val) as [|d ds]; [done|].
    eexists. split; [done|]. apply andb_true_iff in Hd as [Hd _]. by apply strtoull0_hex. }
  destruct Hb as [-> | [-> | [-> | [-> | []]]]]; cbn [Z.eqb Pos.eqb orb].
  - by exists 0%nat, hex.
  - destruct (fmt_base_back 8 val) as (_ & _ & Hd & _ & Hs); [lia|done|]. exists 0%nat. eexists. split; [done|].
    unfold pad0. destruct (zeros_back 8 (width - length (fmt_base 8 val)) 0 0) as [Hz1 Hz2]; [lia|].
    apply strtoull0_oct; [done|by rewrite forallb_app, Hz2, Hd|].
    rewrite strtol_digits_app, Hz1, Hs by done. cbn [fst snd]. rewrite zlen_app. unfold zlen. rewrite length_replicate.
    f_equal; lia.
  - destruct (fmt_base_back 10 val) as (Hne & Hz & Hd & _ & Hs); [lia|done|].
    exists (width - length (fmt_u val))%nat, (fmt_u val). split; [done|]. unfold fmt_u in *.
    destruct (decide (val = 0)) as [->|Hval]; [done|].
    destruct (fmt_base 10 val) as [|d ds]; [done|]. apply strtoull0_dec; [done|by apply andb_true_iff in Hd as [Hd _]| |].
    + intros ->. by apply Hval, Hz.
    + rewrite Hs. f_equal; lia.
  - by exists 0%nat, hex.
Qed.
