(* ===== verification/DtcSourceSpec.v ===== *)
(** The source text dtc writes for a tree, read back: the text as a function of
    the live part of the tree, its tokens, and the tree the grammar derives
    from them. *)
From S2P Require Import Prelude Monad Ctype Memory Libfdt FdtSwBuild DtcUtil DtcSrcpos DtcRegex DtcLexer DtcScan.
From S2P Require Import DtcData DtcTree DtcParser DtcGrammar DtcFlat DtcSource DtcDataSpec DtcTreeSpec DtcSort DtcUnflat DtcFlatSpec.

(** ** The text of a tree without labels and markers *)

Definition spaced (ws : list (list byte)) : list byte :=
  match ws with
  | [] => []
  | w :: ws => w ++ flat_map (fun w => " "%byte :: w) ws
  end.

Fixpoint cells (v : list byte) : list Z :=
  match v with
  | a :: b :: c :: d :: v => be32 a b c d :: cells v
  | _ => []
  end.

Definition cell_text (c : Z) : list byte := str "0x" ++ fmt_x 2 c.
Definition byte_text (b : byte) : list byte := fmt_x 2 (b2z b).

(** What a value looks like. *)
Definition guessed (v : list byte) : markertype :=
  let nnul := zlen (filter (fun c => c = x00) v) in
  if bool_decide (last v = Some x00) && forallb isstring v && (nnul <=? zlen v - nnul) then TYPE_STRING
  else if zlen v mod 4 =? 0 then TYPE_UINT32 else TYPE_UINT8.

Definition value_body (v : list byte) : list byte :=
  match guessed v with
  | TYPE_STRING => quote :: printed (removelast v) ++ [quote]
  | TYPE_UINT32 => "<"%byte :: spaced (map cell_text (cells v)) ++ [">"%byte]
  | _ => "["%byte :: spaced (map byte_text v) ++ ["]"%byte]
  end.

Definition value_text (v : list byte) : list byte :=
  match v with [] => [] | _ => str " = " ++ value_body v end ++ str ";".

Definition prop_text (level : nat) (p : list byte * list byte) : list byte :=
  write_prefix level ++ (p.1 ++ value_text p.2) ++ [nl].

Fixpoint node_text (level : nat) (w : wnode) : list byte :=
  match w with
  | WNode n ps ks =>
    write_prefix level ++ ((if bool_decide (n = []) then str "/" else n) ++ str " {" ++ [nl] ++
      flat_map (prop_text (S level)) ps ++ flat_map (fun k => nl :: node_text (S level) k) ks ++
      write_prefix level ++ str "};") ++ [nl]
  end.

Definition reserve_text (r : Z * Z) : list byte :=
  str "/memreserve/" ++ tab :: str "0x" ++ fmt_x 16 r.1 ++ str " 0x" ++ fmt_x 16 r.2 ++ str ";" ++ [nl].

Definition source_text (rsv : list (Z * Z)) (w : wnode) : list byte :=
  str "/dts-v1/;" ++ [nl; nl] ++ flat_map reserve_text rsv ++ node_text 0 w.

(** ** The text is written *)

(** Nothing but names and values is printed of the node. *)
Definition no_labels (l : list label) : bool := forallb l_deleted l.

Definition plain_property (p : property) : bool :=
  p_deleted p || no_labels (p_labels p) && bool_decide (d_markers (p_val p) = []).

Fixpoint plain (n : node) : bool :=
  no_labels (n_labels n) && forallb plain_property (n_proplist n) &&
  forallb (fun c => n_deleted c || plain c) (n_children n).

Lemma no_labels_text l : no_labels l = true -> write_labels l = [].
Proof.
  unfold write_labels. induction l as [|x l IH]; [done|]. cbn [no_labels forallb flat_map].
  intros [Hx H]%andb_true_iff. by rewrite Hx, IH.
Qed.

Lemma guess_plain prop v :
  d_val (p_val prop) = v -> d_markers (p_val prop) = [] -> v <> [] -> guess_value_type prop = Ret (guessed v).
Proof.
  intros Ev Em Hv. unfold guess_value_type, guessed. rewrite Ev, Em. cbn [any_not_string_label existsb rbind].
  destruct v as [|x v _] using rev_ind; [done|]. rewrite (char_at_app v x []) by (rewrite zlen_app; change (zlen [x]) with 1; lia).
  cbn [rbind]. rewrite last_snoc, !andb_true_r.
  replace (bool_decide (Some x = Some x00)) with (bool_decide (x = x00)) by (apply bool_decide_ext; split; congruence).
  replace (negb (existsb (fun c => negb (isstring c)) (v ++ [x]))) with (forallb isstring (v ++ [x])).
  - destruct (_ && _ && _); [done|]. by destruct (_ =? _).
  - generalize (v ++ [x]) as l. intros l. induction l as [|c l IH]; [done|]. cbn [forallb existsb].
    rewrite IH. by destruct (isstring c).
Qed.

Lemma bytes_from_0 v : bytes_from v 0 (length v) = Ret v.
Proof.
  unfold bytes_from, zlen. change (drop (Z.to_nat 0) v) with v. rewrite take_ge, Z.add_0_l, !Z.leb_refl by lia. done.
Qed.

(** Numbers with spaces between. *)
Lemma write_int_byte x v : write_int (x :: v) 1 = Ret (byte_text x).
Proof. unfold write_int. cbn [Z.eqb Pos.eqb]. by rewrite (char_at_app [] x v) by done. Qed.

Lemma write_ints_bytes n v : (length v <= n)%nat -> write_ints n v 1 = Ret (spaced (map byte_text v)).
Proof.
  revert v. induction n as [|n IH]; intros [|x v] Hn; try done; [cbn in Hn; lia|].
  cbn [write_ints]. rewrite write_int_byte. cbn [rbind]. change (drop (Z.to_nat 1) (x :: v)) with v.
  rewrite IH by (cbn in Hn; lia). cbn [rbind]. by destruct v.
Qed.

Lemma list_four (P : list byte -> Prop) :
  P [] -> (forall a b c d v, zlen v mod 4 = 0 -> P v -> P (a :: b :: c :: d :: v)) ->
  forall v, zlen v mod 4 = 0 -> P v.
Proof.
  intros H0 H4 v. remember (length v) as n eqn:En. revert v En. induction n as [n IH] using lt_wf_ind. intros v -> Hv.
  destruct v as [|a [|b [|c [|d v]]]]; try done.
  assert (zlen v mod 4 = 0).
  { rewrite !zlen_cons in Hv. replace (zlen v + 1 + 1 + 1 + 1) with (zlen v + 1 * 4) in Hv by lia. by rewrite Z.mod_add in Hv. }
  apply H4; [done|]. by eapply IH; [|done|]; [cbn; lia|].
Qed.

Lemma write_int_cell a b c d v : write_int (a :: b :: c :: d :: v) 4 = Ret (cell_text (be32 a b c d)).
Proof.
  unfold write_int. cbn [Z.eqb Pos.eqb]. unfold dtb_ld32, bytes_from. rewrite !zlen_cons. pose proof (zlen_nonneg v).
  destruct (Z.leb_spec (0 + Z.of_nat 4) (zlen v + 1 + 1 + 1 + 1)); [done|lia].
Qed.

Lemma write_ints_cells v : zlen v mod 4 = 0 -> forall n, (length v <= n)%nat ->
  write_ints n v 4 = Ret (spaced (map cell_text (cells v))).
Proof.
  intros Hv. pattern v. apply list_four; [by intros [|n]| |done]. clear v Hv.
  intros a b c d v Hv IH [|n] Hn; [cbn in Hn; lia|]. cbn [write_ints]. rewrite write_int_cell. cbn [rbind].
  change (drop (Z.to_nat 4) (a :: b :: c :: d :: v)) with v. rewrite IH by (cbn in Hn; lia).
  cbn [rbind cells map spaced]. f_equal. f_equal.
  by destruct v as [|a' [|b' [|c' [|d' v]]]].
Qed.

(** *** Values and properties *)

(** A string whose number escapes cannot run into what follows. *)
Definition value_ok (v : list byte) : bool :=
  (zlen v <? INT_MAX) &&
  match guessed v with
  | TYPE_STRING => printable_back (removelast v) && (zlen (printed (removelast v)) <? INT_MAX)
  | _ => true
  end.

Lemma guessed_string v : guessed v = TYPE_STRING -> exists s, v = s ++ [x00].
Proof.
  unfold guessed. destruct (bool_decide (last v = Some x00)) eqn:E; cbn [andb]; [|by destruct (_ =? 0)].
  apply bool_decide_eq_true, last_Some in E as [s ->]. by exists s.
Qed.

Lemma guessed_cells v : guessed v = TYPE_UINT32 -> zlen v mod 4 = 0.
Proof. unfold guessed. destruct (_ && _ && _); [done|]. by destruct (Z.eqb_spec (zlen v mod 4) 0). Qed.

Lemma guessed_cases v : guessed v = TYPE_STRING \/ guessed v = TYPE_UINT32 \/ guessed v = TYPE_UINT8.
Proof. unfold guessed. destruct (_ && _ && _); [by left|]. destruct (_ =? 0); auto. Qed.

Lemma write_chunk_guessed v : v <> [] ->
  exists b, write_chunk (guessed v) v = Ret b /\ delim_start (guessed v) ++ b ++ delim_end (guessed v) = value_body v.
Proof.
  intros Hv. unfold value_body. destruct (guessed_cases v) as [E|[E|E]]; rewrite E; cbn [write_chunk delim_start delim_end].
  - destruct (guessed_string _ E) as [s ->]. unfold write_propval_string. destruct (s ++ [x00]) eqn:Es; [by destruct s|].
    rewrite <- Es, last_snoc. cbn. eexists. split; [done|]. by rewrite app_nil_r.
  - unfold write_propval_int. rewrite (guessed_cells _ E). cbn. rewrite write_ints_cells by (done || by apply guessed_cells).
    eauto.
  - unfold write_propval_int. rewrite Z.mod_1_r. cbn. rewrite write_ints_bytes by done. eauto.
Qed.

Lemma write_chunks_guessed v : v <> [] -> zlen v < INT_MAX ->
  write_chunks v TYPE_NONE [Marker (guessed v) 0 None] = Ret (str " " ++ value_body v).
Proof.
  intros Hv Hl. pose proof (zlen_nonneg v). destruct (write_chunk_guessed v Hv) as (b & Hb & Hbody). rewrite <- Hbody.
  assert (u64 (zlen v - 0) = zlen v) as E1 by (rewrite u64_small by ilia; lia).
  assert (has_data_type_information (Marker (guessed v) 0 None) = true) as Ht.
  { unfold has_data_type_information. by destruct (guessed_cases v) as [->| [->| ->]]. }
  assert (bool_decide (guessed v = TYPE_NONE) = false) as Hn by (by destruct (guessed_cases v) as [->| [->| ->]]).
  cbn [write_chunks]. rewrite Ht. cbn [rbind m_type m_offset]. rewrite Hn. change (type_marker_length _ []) with 0. cbn iota.
  rewrite E1. replace (Z.to_nat (zlen v)) with (length v) by (unfold zlen; lia).
  rewrite bytes_from_0. cbn [rbind]. rewrite Hb. cbn [rbind]. rewrite Z.eqb_refl.
  change (0 + zlen v) with (zlen v). rewrite (u64_small (zlen v)), Z.eqb_refl by ilia. cbn [rbind].
  by rewrite !app_nil_r, <- !app_assoc.
Qed.

Lemma write_propval_plain prop pos :
  d_markers (p_val prop) = [] -> value_ok (d_val (p_val prop)) = true ->
  write_propval no_notes prop pos = Ret (value_text (d_val (p_val prop)) ++ [nl]).
Proof.
  intros Em Hv. apply andb_true_iff in Hv as [Hl _]. apply Z.ltb_lt in Hl.
  unfold write_propval. rewrite Em. destruct (d_val (p_val prop)) as [|x v'] eqn:Ev; [done|].
  assert (x :: v' <> []) as Hne by done. remember (x :: v') as v eqn:E. clear E.
  pose proof (zlen_nonneg v) as H0. destruct (Z.eqb_spec (zlen v) 0) as [Hz|Hz]; [destruct v; [done|rewrite zlen_cons in Hz; pose proof (zlen_nonneg v); lia]|].
  change (is_null (next_type_marker [])) with true. cbn iota. rewrite (guess_plain prop v) by done. cbn [rbind].
  rewrite write_chunks_guessed by done. cbn [rbind]. change (write_note no_notes true pos) with (Ret (@nil byte)). cbn [rbind].
  unfold value_text. destruct v; [done|]. cbn. by rewrite <- !app_assoc.
Qed.

(** *** Nodes and the file *)

Definition name_written (n : list byte) : bool := negb (bool_decide (n = [])) && forallb name_char n.
Definition prop_ok (p : list byte * list byte) : bool := name_written p.1 && value_ok p.2.

(** The properties and the nodes below; the name of the node itself counts
    where it is a subnode. *)
Fixpoint body_ok (w : wnode) : bool :=
  match w with
  | WNode _ ps ks => forallb prop_ok ps && forallb (fun k => name_written (wn_name k) && body_ok k) ks
  end.

Lemma write_properties_plain level pos ps : forall i,
  forallb plain_property ps = true -> forallb prop_ok (live_props ps) = true ->
  write_properties no_notes level pos i ps = Ret (flat_map (prop_text (S level)) (live_props ps)).
Proof.
  induction ps as [|p ps IH]; intros i Hp Hv; [done|]. cbn [forallb] in Hp. apply andb_true_iff in Hp as [Hp Hps].
  unfold plain_property in Hp. cbn [write_properties]. unfold live_props in *. cbn [flat_map] in *.
  destruct (p_deleted p); [by apply IH|]. cbn [orb app forallb flat_map] in *.
  apply andb_true_iff in Hp as [Hl Hm]. apply bool_decide_eq_true in Hm. apply andb_true_iff in Hv as [[_ Hv]%andb_true_iff Hvs].
  rewrite write_propval_plain, IH by done. cbn [rbind]. rewrite no_labels_text by done. unfold prop_text at 2. cbn [fst snd].
  by rewrite <- !app_assoc.
Qed.

Lemma write_node_plain n : forall level pos, plain n = true -> body_ok (live n) = true ->
  write_tree_source_node no_notes n level pos = Ret (node_text level (live n)).
Proof.
  induction n as [n IH] using node_ind'. intros level pos Hp Hv. destruct n as [del nm ps cs ? ? ? ? ? lbls ? ?].
  cbn [plain n_labels n_proplist n_children] in Hp. apply andb_true_iff in Hp as [[Hl Hps]%andb_true_iff Hcs].
  cbn [live body_ok n_name n_proplist n_children] in *. apply andb_true_iff in Hv as [Hpv Hcv].
  cbn [write_tree_source_node n_proplist n_children n_labels n_name]. change (write_note no_notes _ _) with (Ret (@nil byte)).
  rewrite write_properties_plain by done. cbn [rbind].
  match goal with |- (let! kids := ?f _ _ in _) = _ => set (children := f) end.
  assert (forall i, children i cs = Ret (flat_map (fun k => nl :: node_text (S level) k) (live_kids cs))) as E.
  { clear -IH Hcs Hcv. revert IH Hcs Hcv. unfold live_kids. induction cs as [|c cs IHl]; intros IH Hcs Hcv i; [done|].
    apply Forall_cons in IH as [Hc IH]. cbn [forallb flat_map] in *. apply andb_true_iff in Hcs as [Hcp Hcs].
    unfold children. fold children. destruct (n_deleted c); [by apply IHl|]. cbn [app forallb flat_map orb] in *.
    apply andb_true_iff in Hcv as [[_ Hcv]%andb_true_iff Hcvs]. rewrite Hc by done. cbn [rbind]. rewrite IHl by done. done. }
  rewrite E. cbn [rbind node_text]. rewrite no_labels_text by done. unfold live_kids. by rewrite <- !app_assoc.
Qed.

Definition reserves (dti : dt_info) : list (Z * Z) := map (fun r => (rs_address r, rs_size r)) (reservelist dti).

(** What can be written and read back. *)
Definition printable (dti : dt_info) : bool :=
  plain (dt dti) && body_ok (live (dt dti)) && bool_decide (n_name (dt dti) = []) &&
  forallb (fun r => no_labels (rs_labels r)) (reservelist dti) &&
  forallb (fun r => (0 <=? r.1) && (r.1 <? 2 ^ 64) && (0 <=? r.2) && (r.2 <? 2 ^ 64)) (reserves dti).

Lemma dt_to_source_plain dti :
  printable dti = true -> dt_to_source no_notes dti = Ret (source_text (reserves dti) (live (dt dti))).
Proof.
  intros [[[[Hp Hv]%andb_true_iff _]%andb_true_iff Hl]%andb_true_iff _]%andb_true_iff.
  unfold dt_to_source, source_text. rewrite write_node_plain by done. cbn [rbind]. do 4 f_equal. unfold reserves.
  induction (reservelist dti) as [|r l IH]; [done|]. cbn [forallb flat_map map] in *. apply andb_true_iff in Hl as [Hr Hl].
  rewrite IH by done. unfold write_memreserve, reserve_text. by rewrite no_labels_text.
Qed.

(** ** Its tokens *)

Definition value_tokens (v : list byte) : list token :=
  match v with
  | [] => []
  | _ => Char "=" ::
    match guessed v with
    | TYPE_STRING => [DT_STRING (string_data (removelast v))]
    | TYPE_UINT32 => Char "<" :: map DT_LITERAL (cells v) ++ [Char ">"]
    | _ => Char "[" :: map DT_BYTE v ++ [Char "]"]
    end
  end ++ [Char ";"].

Definition prop_tokens (p : list byte * list byte) : list token := DT_PROPNODENAME p.1 :: value_tokens p.2.

(** The braces and what is inside. *)
Fixpoint body_tokens (w : wnode) : list token :=
  match w with
  | WNode _ ps ks =>
    Char "{" :: flat_map prop_tokens ps ++
    flat_map (fun k => DT_PROPNODENAME (wn_name k) :: body_tokens k) ks ++ [Char "}"; Char ";"]
  end.

Definition reserve_tokens (r : Z * Z) : list token := [DT_MEMRESERVE; DT_LITERAL r.1; DT_LITERAL r.2; Char ";"].

Definition source_tokens (rsv : list (Z * Z)) (w : wnode) : list token :=
  [DT_V1; Char ";"] ++ flat_map reserve_tokens rsv ++ Char "/" :: body_tokens w.

(** *** Values *)

Section items.
Context {A : Type} (f : A -> list byte) (g : A -> token) (close : byte) (sc : start_condition) (P : A -> Prop).
Context (Hf : forall x, P x -> exists c t, f x = c :: t /\ is_ws c = false).
Context (Hs : forall x c s, P x -> one_of [" "%byte; close] c = true ->
  scans (f x ++ c :: s) false sc [g x] (c :: s) false sc).

Lemma scans_items x xs s : Forall P (x :: xs) ->
  scans (spaced (map f (x :: xs)) ++ close :: s) false sc (map g (x :: xs)) (close :: s) false sc.
Proof using Hf Hs.
  cbn [map spaced]. revert x. induction xs as [|y xs IH]; intros x H; apply Forall_cons in H as [Hx H].
  - cbn [map flat_map]. rewrite app_nil_r. apply Hs; [done|]. apply bool_decide_eq_true. set_solver.
  - cbn [map flat_map app]. rewrite <- app_assoc. cbn [app]. rewrite <- app_assoc.
    eapply (scans_app _ _ _ [g x]); [apply Hs; [done|apply bool_decide_eq_true; set_solver]|].
    destruct (Hf y) as (c & t & E & Hc); [by apply Forall_cons in H as [Hy _]|].
    pose proof (IH y H) as Hr. rewrite <- app_assoc, E in Hr. rewrite E. cbn [app] in *.
    eapply (scans_app _ _ _ []); [by apply (scans_ws [" "%byte])|exact Hr].
Qed.
End items.

Lemma cells_range v : Forall (fun c => 0 <= c < 2 ^ 32) (cells v).
Proof.
  remember (length v) as n eqn:En. revert v En. induction n as [n IH] using lt_wf_ind. intros v ->.
  destruct v as [|a [|b [|c [|d v]]]]; try constructor; [|eapply IH; [|done]; cbn; lia].
  rewrite be32_spec. pose proof (b2z_range a). pose proof (b2z_range b). pose proof (b2z_range c). pose proof (b2z_range d).
  change (2 ^ 32) with 4294967296. lia.
Qed.

Lemma cells_back v : zlen v mod 4 = 0 -> flat_map be_enc32 (cells v) = v.
Proof. intros Hv. pattern v. apply list_four; [done| |done]. intros a b c d l _ IH. cbn [cells flat_map]. by rewrite enc_be32, IH. Qed.

Lemma scans_then_char c d s bol sc l s' b' sc' :
  accepts 0 (run (active sc bol) [c]) = Some 30%nat -> dead (run (active sc bol) [c; d]) = true ->
  c <> nl -> ends_input (Char c) = false ->
  scans (d :: s) false (after_char c sc) l s' b' sc' -> scans (c :: d :: s) bol sc (Char c :: l) s' b' sc'.
Proof. intros Ha Hd Hc He H. eapply (scans_app _ _ _ [Char c]); [by apply (scans_char c (d :: s))|exact H]. Qed.

Lemma scans_then_ws w c s bol sc l s' b' sc' :
  w <> [] -> forallb is_ws w = true -> is_ws c = false ->
  scans (c :: s) (ends_line w) sc l s' b' sc' -> scans (w ++ c :: s) bol sc l s' b' sc'.
Proof. intros Hw Hall Hc H. eapply (scans_app _ _ _ []); [by apply scans_ws|exact H]. Qed.

Lemma hex_not_ws c : is_base_digit 16 c = true -> is_ws c = false.
Proof.
  intros H. apply negb_true_iff. revert H. apply (for_byte (is_base_digit 16) (fun c => negb (is_ws c))). by vm_compute.
Qed.

Lemma byte_text_cons b : True -> exists c t, byte_text b = c :: t /\ is_ws c = false.
Proof.
  intros _. destruct (fmt_x_back 2 (b2z b)) as (Hne & Hd & _); [pose proof (b2z_range b); assert (256 < 2 ^ 64) by done; lia|].
  unfold byte_text. destruct (fmt_x 2 (b2z b)) as [|c t]; [done|]. exists c, t. split; [done|].
  apply andb_true_iff in Hd as [Hd _]. by apply hex_not_ws.
Qed.

Lemma scans_semicolon s bol sc :
  sc = V1 \/ sc = PROPNODENAME -> scans (";"%byte :: nl :: s) bol sc [Char ";"] (nl :: s) false PROPNODENAME.
Proof. intros [-> | ->]; apply scans_then_char; try done; try (by destruct bol; vm_compute); constructor. Qed.

Lemma scans_body v s : v <> [] -> value_ok v = true ->
  scans (value_body v ++ ";"%byte :: nl :: s) false V1
    match guessed v with
    | TYPE_STRING => [DT_STRING (string_data (removelast v))]
    | TYPE_UINT32 => Char "<" :: map DT_LITERAL (cells v) ++ [Char ">"]
    | _ => Char "[" :: map DT_BYTE v ++ [Char "]"]
    end (";"%byte :: nl :: s) false V1.
Proof.
  intros Hv [_ Hok]%andb_true_iff. unfold value_body. destruct (guessed_cases v) as [E|[E|E]]; rewrite E in *.
  - apply andb_true_iff in Hok as [Hp Hl]. apply Z.ltb_lt in Hl.
    pose proof (scans_string (removelast v) (nl :: s) Hp Hl) as H. cbn [app]. by rewrite <- app_assoc.
  - pose proof (guessed_cells _ E) as H4. pose proof (cells_range v) as Hr. pose proof (cells_back v H4) as Hb.
    destruct (cells v) as [|x xs]; [by cbn in Hb; subst|]. cbn [app]. rewrite <- app_assoc. cbn [app].
    assert (Hf : forall y, 0 <= y < 2 ^ 32 -> exists c t, cell_text y = c :: t /\ is_ws c = false) by (intros; by eexists _, _).
    assert (Hs : forall y c r, 0 <= y < 2 ^ 32 -> one_of [" "; ">"]%byte c = true ->
      scans (cell_text y ++ c :: r) false V1 [DT_LITERAL y] (c :: r) false V1).
    { intros y c r Hy Hc. unfold cell_text. rewrite <- app_assoc. apply scans_literal; [assert (2 ^ 32 < 2 ^ 64) by done; lia|].
      apply bool_decide_eq_true in Hc. apply bool_decide_eq_true. set_solver. }
    pose proof (scans_items cell_text DT_LITERAL ">" V1 _ Hf Hs x xs (";"%byte :: nl :: s) Hr) as Hi.
    assert (exists t, spaced (map cell_text (x :: xs)) ++ ">"%byte :: ";"%byte :: nl :: s = "0"%byte :: t) as [t Et] by by eexists.
    rewrite Et in Hi |- *. apply scans_then_char; try done.
    eapply scans_app; [exact Hi|]. apply scans_then_char; try done. constructor.
  - destruct v as [|x v]; [done|]. cbn [app]. rewrite <- app_assoc. cbn [app].
    pose proof (scans_items byte_text DT_BYTE "]" BYTESTRING (fun _ => True) byte_text_cons
      (fun b c s _ => scans_byte b c s) x v (";"%byte :: nl :: s) (Forall_true _ _ (fun _ => I))) as Hi.
    assert (exists c t, spaced (map byte_text (x :: v)) ++ "]"%byte :: ";"%byte :: nl :: s = c :: t) as (c & t & Et).
    { destruct (byte_text_cons x I) as (c & t & Ex & _). exists c. eexists. cbn [map spaced]. by rewrite Ex. }
    rewrite Et in Hi |- *. apply scans_then_char; try done.
    eapply scans_app; [exact Hi|]. apply (scans_word ["]"%byte] _ _ _ _ V1 _ 16); try done.
    eexists. split; [reflexivity|]. intros fopen contents lx _. done.
Qed.

Lemma scans_value v s : value_ok v = true ->
  exists c t, value_text v ++ nl :: s = c :: t /\ one_of [" "; ";"]%byte c = true /\
    scans (c :: t) false V1 (value_tokens v) (nl :: s) false PROPNODENAME.
Proof.
  intros Hok. unfold value_text, value_tokens. destruct v as [|x v'].
  { exists ";"%byte, (nl :: s). split; [done|]. split; [by apply bool_decide_eq_true; set_solver|]. apply scans_semicolon. by left. }
  pose proof (scans_body (x :: v') s ltac:(done) Hok) as Hb. remember (x :: v') as v eqn:Ev. clear Ev.
  exists " "%byte, ("="%byte :: " "%byte :: value_body v ++ ";"%byte :: nl :: s).
  split; [cbn; by rewrite <- !app_assoc|]. split; [by apply bool_decide_eq_true; set_solver|].
  apply (scans_then_ws [" "%byte]); [done..|]. apply scans_then_char; try done.
  assert (exists c t, value_body v = c :: t /\ is_ws c = false) as (c & t & E & Hc).
  { unfold value_body. destruct (guessed v); by eexists _, _. }
  rewrite E in *. cbn [app] in *. apply (scans_then_ws [" "%byte]); [done..|].
  eapply scans_app; [exact Hb|]. apply scans_semicolon. by left.
Qed.

(** *** Lines *)

Definition ws (w : list byte) : Prop := w <> [] /\ forallb is_ws w = true.

Lemma ws_app w1 w2 : ws w1 -> forallb is_ws w2 = true -> ws (w1 ++ w2).
Proof. intros [H1 H2] H. split; [by destruct w1|]. by rewrite forallb_app, H2. Qed.

Lemma ws_prefix level : forallb is_ws (write_prefix level) = true.
Proof. unfold write_prefix. induction level; [done|exact IHlevel]. Qed.

(** Behind white space, [text] is scanned as [l], up to white space. *)
Definition piece (text : list byte) (l : list token) : Prop := forall s w b, ws w ->
  exists w' b', ws w' /\ scans (w ++ text ++ s) b PROPNODENAME l (w' ++ s) b' PROPNODENAME.

Lemma piece_app t1 l1 t2 l2 : piece t1 l1 -> piece t2 l2 -> piece (t1 ++ t2) (l1 ++ l2).
Proof.
  intros H1 H2 s w b Hw. destruct (H1 (t2 ++ s) w b Hw) as (w1 & b1 & Hw1 & Hs1).
  destruct (H2 s w1 b1 Hw1) as (w2 & b2 & Hw2 & Hs2). exists w2, b2. split; [done|]. rewrite <- app_assoc. by eapply scans_app.
Qed.

Lemma piece_ws w : forallb is_ws w = true -> piece w [].
Proof.
  intros H s w0 b Hw. exists (w0 ++ w), b. split; [by apply ws_app|]. rewrite <- app_assoc. constructor.
Qed.

Lemma piece_flat_map {A} (f : A -> list byte) (g : A -> list token) xs :
  Forall (fun x => piece (f x) (g x)) xs -> piece (flat_map f xs) (flat_map g xs).
Proof. induction 1; [by apply piece_ws|]. by apply piece_app. Qed.

(** Lexemes that end in a line. *)
Lemma piece_line core l :
  (exists c t, core = c :: t /\ is_ws c = false) ->
  (forall s b, scans (core ++ nl :: s) b PROPNODENAME l (nl :: s) false PROPNODENAME) ->
  piece (core ++ [nl]) l.
Proof.
  intros (c & t & E & Hc) H s w b Hw. exists [nl], false. split; [done|]. rewrite <- app_assoc. cbn [app].
  specialize (H s (ends_line w)). rewrite E in *. cbn [app] in *. apply scans_then_ws; try apply Hw; done.
Qed.

(** Behind tabs, the line is not at its beginning. *)
Lemma piece_indented level core l :
  (exists c t, core = c :: t /\ is_ws c = false) ->
  (forall s, scans (core ++ nl :: s) false PROPNODENAME l (nl :: s) false PROPNODENAME) ->
  piece (write_prefix (S level) ++ core ++ [nl]) l.
Proof.
  intros (c & t & E & Hc) H s w b Hw. exists [nl], false. split; [done|].
  pose proof (ws_app w (write_prefix (S level)) Hw (ws_prefix _)) as [Hn Ha].
  rewrite !app_assoc, <- app_assoc, <- app_assoc. cbn [app]. specialize (H s). rewrite E in *. cbn [app] in *.
  apply scans_then_ws; [done..|]. replace (ends_line (w ++ write_prefix (S level))) with false; [done|].
  symmetry. apply bool_decide_eq_false. unfold write_prefix. rewrite replicate_S_end, app_assoc, last_snoc. done.
Qed.

Lemma name_written_cons n : name_written n = true -> exists c t, n = c :: t /\ is_ws c = false.
Proof.
  intros [Hne Hn]%andb_true_iff. destruct n as [|c t]; [done|]. exists c, t. split; [done|].
  apply andb_true_iff in Hn as [Hc _]. apply negb_true_iff. revert Hc.
  apply (for_byte name_char (fun c => negb (is_ws c))). by vm_compute.
Qed.

Lemma scans_name_written n c s : name_written n = true -> one_of [" "; ";"]%byte c = true ->
  scans (n ++ c :: s) false PROPNODENAME [DT_PROPNODENAME n] (c :: s) false V1.
Proof. intros [Hne Hn]%andb_true_iff. apply scans_name; [|done]. by destruct n. Qed.

Lemma piece_prop level p : prop_ok p = true -> piece (prop_text (S level) p) (prop_tokens p).
Proof.
  intros [Hn Hv]%andb_true_iff. unfold prop_text. apply piece_indented.
  - destruct (name_written_cons _ Hn) as (c & t & -> & Hc). by eexists _, _.
  - intros s. destruct (scans_value p.2 s Hv) as (c & t & E & Hc & Hs). rewrite <- app_assoc, E.
    apply (scans_app _ _ _ [DT_PROPNODENAME p.1] (c :: t) false V1); [by apply scans_name_written|exact Hs].
Qed.

(** *** Nodes *)

Definition braces_text (level : nat) (inside : list byte) : list byte :=
  str " {" ++ [nl] ++ inside ++ write_prefix level ++ str "};".

Lemma scans_close bol s :
  scans ("}"%byte :: ";"%byte :: nl :: s) bol PROPNODENAME [Char "}"; Char ";"] (nl :: s) false PROPNODENAME.
Proof. apply scans_then_char; try done; [by destruct bol; vm_compute..|]. apply scans_semicolon. by right. Qed.

Lemma scans_braces level inside l sc s : sc = V1 \/ sc = PROPNODENAME -> piece inside l ->
  scans (braces_text level inside ++ nl :: s) false sc (Char "{" :: l ++ [Char "}"; Char ";"]) (nl :: s) false PROPNODENAME.
Proof.
  intros Hsc Hin. unfold braces_text. rewrite <- !app_assoc.
  destruct (Hin (write_prefix level ++ "}"%byte :: ";"%byte :: nl :: s) [nl] false) as (w & b & Hw & Hs); [done|].
  pose proof (ws_app w (write_prefix level) Hw (ws_prefix _)) as [Hn Ha].
  apply (scans_then_ws [" "%byte]); [done..|]. apply scans_then_char; [by destruct Hsc as [-> | ->]..|done|done|].
  change (after_char "{" sc) with PROPNODENAME.
  eapply scans_app; [exact Hs|]. rewrite app_assoc. apply scans_then_ws; [done..|]. apply scans_close.
Qed.

Definition inside_text (level : nat) (w : wnode) : list byte :=
  flat_map (prop_text (S level)) (wn_props w) ++
  flat_map (fun k => nl :: node_text (S level) k) (let 'WNode _ _ ks := w in ks).

Definition inside_tokens (w : wnode) : list token :=
  flat_map prop_tokens (wn_props w) ++
  flat_map (fun k => DT_PROPNODENAME (wn_name k) :: body_tokens k) (let 'WNode _ _ ks := w in ks).

Lemma node_text_braces level w :
  node_text level w =
    write_prefix level ++ ((if bool_decide (wn_name w = []) then str "/" else wn_name w) ++
      braces_text level (inside_text level w)) ++ [nl].
Proof. destruct w as [n ps ks]. cbn [node_text wn_name]. unfold braces_text, inside_text. cbn [wn_props]. by rewrite <- !app_assoc. Qed.

Lemma body_tokens_braces w : body_tokens w = Char "{" :: inside_tokens w ++ [Char "}"; Char ";"].
Proof. destruct w as [n ps ks]. cbn [body_tokens]. unfold inside_tokens. cbn [wn_props]. by rewrite <- app_assoc. Qed.

Lemma piece_inside w : forall level, body_ok w = true -> piece (inside_text level w) (inside_tokens w).
Proof.
  induction w as [n ps ks IH] using wnode_ind'. intros level [Hp Hk]%andb_true_iff.
  unfold inside_text, inside_tokens. cbn [wn_props]. apply piece_app; apply piece_flat_map.
  - rewrite Forall_forall. intros p Hin. apply piece_prop. rewrite forallb_forall in Hp. by apply Hp, list_elem_of_In.
  - rewrite Forall_forall in *. intros k Hin. rewrite forallb_forall in Hk.
    specialize (Hk k (proj1 (list_elem_of_In _ _) Hin)). apply andb_true_iff in Hk as [Hn Hk].
    apply (piece_app [nl] []); [by apply piece_ws|]. rewrite node_text_braces, body_tokens_braces.
    destruct (name_written_cons _ Hn) as (c & t & En & Hc). rewrite bool_decide_eq_false_2 by (by rewrite En).
    apply piece_indented; [rewrite En; by eexists _, _|]. intros s. rewrite <- app_assoc.
    apply (scans_app _ _ _ [_] (braces_text (S level) (inside_text (S level) k) ++ nl :: s) false V1).
    + apply (scans_name_written (wn_name k) " "); [done|]. by apply bool_decide_eq_true; set_solver.
    + apply scans_braces; [by left|]. by apply IH.
Qed.

(** *** The file *)

Lemma piece_reserve r : 0 <= r.1 < 2 ^ 64 -> 0 <= r.2 < 2 ^ 64 -> piece (reserve_text r) (reserve_tokens r).
Proof.
  intros H1 H2. unfold reserve_text.
  replace (str "/memreserve/" ++ tab :: str "0x" ++ fmt_x 16 r.1 ++ str " 0x" ++ fmt_x 16 r.2 ++ str ";" ++ [nl])
    with ((str "/memreserve/" ++ tab :: str "0x" ++ fmt_x 16 r.1 ++ str " 0x" ++ fmt_x 16 r.2 ++ str ";") ++ [nl])
    by (cbn; by rewrite <- ?app_assoc; cbn; rewrite <- ?app_assoc).
  apply piece_line; [by eexists _, _|]. intros s b. rewrite <- app_assoc. cbn [app]. rewrite <- !app_assoc.
  apply (scans_app _ _ _ [_] (tab :: str "0x" ++ fmt_x 16 r.1 ++ str " 0x" ++ fmt_x 16 r.2 ++ str ";" ++ nl :: s) false V1).
  { apply (scans_word (str "/memreserve/") tab _ _ _ V1 _ 5); try done; [by destruct b; vm_compute..|]. by eexists. }
  apply (scans_then_ws [tab]); [done..|].
  apply (scans_app _ _ _ [_] (" "%byte :: str "0x" ++ fmt_x 16 r.2 ++ str ";" ++ nl :: s) false V1).
  { by apply (scans_literal 16 r.1 " "); [|apply bool_decide_eq_true; set_solver]. }
  apply (scans_then_ws [" "%byte]); [done..|].
  apply (scans_app _ _ _ [_] (";"%byte :: nl :: s) false V1).
  { by apply (scans_literal 16 r.2 ";"); [|apply bool_decide_eq_true; set_solver]. }
  apply scans_semicolon. by left.
Qed.

Lemma scans_source rsv w :
  Forall (fun r => 0 <= r.1 < 2 ^ 64 /\ 0 <= r.2 < 2 ^ 64) rsv -> body_ok w = true -> wn_name w = [] ->
  exists b, scans (source_text rsv w) true INITIAL (source_tokens rsv w) [] b PROPNODENAME.
Proof.
  intros Hr Hw Hn.
  assert (piece (flat_map reserve_text rsv ++ node_text 0 w) (flat_map reserve_tokens rsv ++ Char "/" :: body_tokens w)) as Hp.
  { apply piece_app; [apply piece_flat_map; eapply Forall_impl; [exact Hr|]; intros r []; by apply piece_reserve|].
    rewrite node_text_braces, body_tokens_braces, Hn. cbn [write_prefix replicate app].
    rewrite bool_decide_eq_true_2 by done. apply piece_line; [by eexists _, _|]. intros s b. rewrite <- app_assoc.
    apply scans_then_char; try done; [by destruct b; vm_compute..|].
    apply (scans_braces 0 (inside_text 0 w) (inside_tokens w) PROPNODENAME s); [by right|]. by apply piece_inside. }
  destruct (Hp [] [nl; nl] false) as (w' & b' & [Hn' Ha'] & Hs); [done|]. rewrite !app_nil_r in Hs.
  exists (ends_line w'). unfold source_text, source_tokens.
  apply (scans_app _ _ _ [_] (";"%byte :: [nl; nl] ++ flat_map reserve_text rsv ++ node_text 0 w) false V1).
  { apply (scans_word (str "/dts-v1/") ";" _ _ _ V1 _ 3); try done; try (by vm_compute). by eexists. }
  apply (scans_app _ _ _ [Char ";"] ([nl; nl] ++ flat_map reserve_text rsv ++ node_text 0 w) false PROPNODENAME).
  { apply scans_semicolon. by left. }
  rewrite <- (app_nil_r (_ ++ _ :: body_tokens w)). eapply scans_app; [exact Hs|]. by apply scans_ws_end.
Qed.

(** ** The tree of the tokens *)

(** The tokens [l] are left, and there was no error. *)
Definition rest (l : list token) (s : pstate) : Prop := stream l (p_toks s) /\ p_error s = false.

Lemma rest_shift t l s : rest (t :: l) s -> exists s', shift t s s' /\ rest l s'.
Proof.
  intros [H He]. inversion H as [|? pos sf ? r Hr E1 E2]; subst. exists (advance_to sf false r s). split.
  - unfold shift, does, next. by rewrite <- E2.
  - split; [done|]. cbn. by rewrite He.
Qed.

Lemma rest_end s : rest [] s -> looks s None.
Proof. intros [H _]. unfold looks, does, peek. destruct (p_toks s); [inversion H|done|inversion H]. Qed.

(** Read one token. *)
Ltac shift_rest H :=
  let s' := fresh "s" in let Hs := fresh "Hs" in
  apply rest_shift in H as (s' & Hs & H).

Section reading.
Context (fopen : list byte -> bool) (contents : list byte -> res (list byte)).

Lemma cells_read cs : forall l s0 a s, Forall (fun c => 0 <= c < 2 ^ 32) cs ->
  Grammar.arrayprefix s0 a s -> a.2 = 32 -> data_wf a.1 -> d_len a.1 + 4 * zlen cs <= DATA_MAX ->
  rest (map DT_LITERAL cs ++ l) s ->
  exists a' s', Grammar.arrayprefix s0 a' s' /\ rest l s' /\ d_val a'.1 = d_val a.1 ++ flat_map be_enc32 cs.
Proof.
  induction cs as [|c cs IH]; intros l s0 a s Hc Ha Hb Hw Hlen Hr; [exists a, s; cbn [flat_map]; by rewrite app_nil_r|].
  apply Forall_cons in Hc as [Hc Hcs]. rewrite zlen_cons in Hlen. pose proof (zlen_nonneg cs).
  cbn [map app] in Hr. shift_rest Hr.
  destruct a as [da bits]. cbn [fst snd] in *. subst bits.
  destruct (data_append_integer_at da c 32 (be_enc32 c) Hw) as (d & Hd & Hap); [rewrite be_enc32_zlen; lia|set_solver|].
  destruct (IH l s0 (d, 32) s1 Hcs) as (a' & s' & Ha' & Hr' & E); try done.
  - eapply Grammar.array_prim; [exact Ha|by apply Grammar.prim_literal|]. unfold array_integer. assert (out_of_range 32 c = false) as ->.
    { unfold out_of_range. change (32 <? 64) with true. cbn iota. change (Z.shiftl 1 32 - 1) with (2 ^ 32 - 1).
      destruct (Z.ltb_spec (2 ^ 32 - 1) c); [lia|done]. }
    apply does_then. exists tt, s1. split; [by apply does_ret|]. apply does_then. exists d, s1.
    split; [|by apply does_ret]. by apply does_lift.
  - apply (appended_wf _ _ _ _ Hap).
  - pose proof (appended_len _ _ _ _ Hap) as El. rewrite be_enc32_zlen in El. cbn [fst]. lia.
  - exists a', s'. split; [done|]. split; [done|]. destruct Hap as [Hv _]. rewrite E. cbn [fst flat_map]. by rewrite Hv, app_assoc.
Qed.

Lemma bytes_read bs : forall l s0 d s,
  Grammar.bytestring s0 d s -> data_wf d -> d_len d + zlen bs <= DATA_MAX -> rest (map DT_BYTE bs ++ l) s ->
  exists d' s', Grammar.bytestring s0 d' s' /\ rest l s' /\ d_val d' = d_val d ++ bs.
Proof.
  induction bs as [|b bs IH]; intros l s0 d s Hd Hw Hlen Hr; [exists d, s; by rewrite app_nil_r|].
  rewrite zlen_cons in Hlen. pose proof (zlen_nonneg bs). cbn [map app] in Hr. shift_rest Hr.
  destruct (data_append_data_at d [b] Hw) as (d1 & Hd1 & Hap); [change (zlen [b]) with 1; lia|].
  destruct (IH l s0 d1 s1) as (d' & s' & Hd' & Hr' & E); try done.
  - by eapply Grammar.bytes_byte.
  - apply (appended_wf _ _ _ _ Hap).
  - pose proof (appended_len _ _ _ _ Hap) as El. change (zlen [b]) with 1 in El. lia.
  - exists d', s'. split; [done|]. split; [done|]. destruct Hap as [Hv _]. by rewrite E, Hv, <- app_assoc.
Qed.

Lemma merge_empty d : d_len d <= DATA_MAX -> exists d', data_merge empty_data d = Ret d' /\ d_val d' = d_val d.
Proof.
  intros Hd. destruct (data_append_data_at empty_data (d_val d) empty_wf Hd) as (d' & Hd' & Hv & _).
  unfold data_merge. rewrite Hd'. eexists. split; [done|]. exact Hv.
Qed.
Lemma cells_size cs : zlen (flat_map be_enc32 cs) = 4 * zlen cs.
Proof. induction cs as [|c cs IH]; [done|]. cbn [flat_map]. rewrite zlen_app, be_enc32_zlen, IH, zlen_cons. lia. Qed.

(** The empty start of a value. *)
Lemma array_start s s1 : shift (Char "<") s s1 ->
  Grammar.arrayprefix s (data_add_marker empty_data TYPE_UINT32 None, 32) s1.
Proof using. intros H. eapply Grammar.array_cells; [exact H|]. by apply does_ret. Qed.

Lemma propdata_read v l s : v <> [] -> value_ok v = true ->
  rest (match guessed v with
    | TYPE_STRING => [DT_STRING (string_data (removelast v))]
    | TYPE_UINT32 => Char "<" :: map DT_LITERAL (cells v) ++ [Char ">"]
    | _ => Char "[" :: map DT_BYTE v ++ [Char "]"]
    end ++ l) s ->
  exists d s', Grammar.propdata fopen contents s d s' /\ rest l s' /\ d_val d = v.
Proof using.
  intros Hv [Hl Hok]%andb_true_iff Hr. apply Z.ltb_lt in Hl.
  assert (zlen v <= DATA_MAX) as Hlen by (unfold DATA_MAX; ilia).
  assert (data_wf (data_add_marker empty_data TYPE_UINT8 None) /\ data_wf (data_add_marker empty_data TYPE_UINT32 None)) as [Hw8 Hw32].
  { by split; split; change (0 <= 0 <= UINT32_MAX); ilia. }
  destruct (guessed_cases v) as [E|[E|E]]; rewrite E in *.
  - destruct (guessed_string _ E) as [t ->]. rewrite removelast_last in *. cbn [app] in Hr. shift_rest Hr.
    apply andb_true_iff in Hok as [Hp Hpl]. apply Z.ltb_lt in Hpl. pose proof (string_data_val t Hp Hpl) as Hval.
    destruct (merge_empty (string_data t)) as (d & Hd & Hdv); [unfold d_len; by rewrite Hval|].
    exists d, s0. split; [|split; [done|by rewrite Hdv]]. eapply Grammar.data_string; [constructor|exact Hs|exact Hd].
  - pose proof (guessed_cells _ E) as H4. pose proof (cells_back v H4) as Hb. pose proof (cells_size (cells v)) as Hz. rewrite Hb in Hz.
    cbn [app] in Hr. rewrite <- app_assoc in Hr. shift_rest Hr.
    destruct (cells_read (cells v) (Char ">" :: l) s _ s0 (cells_range v) (array_start _ _ Hs) eq_refl Hw32) as (a & s1 & Ha & Hr1 & Hav).
    { change (d_len (data_add_marker empty_data TYPE_UINT32 None, 32).1) with 0. lia. }
    { exact Hr. }
    shift_rest Hr1. assert (d_val a.1 = v) as Hav' by (rewrite Hav; exact Hb).
    destruct (merge_empty a.1) as (d & Hd & Hdv); [unfold d_len; by rewrite Hav'|].
    exists d, s2. split; [|split; [done|by rewrite Hdv]]. eapply Grammar.data_array; [constructor|exact Ha|done|exact Hd].
  - cbn [app] in Hr. rewrite <- app_assoc in Hr. shift_rest Hr.
    destruct (bytes_read v (Char "]" :: l) s0 _ s0 (Grammar.bytes_empty s0) Hw8) as (b & s1 & Hb & Hr1 & Hbv).
    { change (d_len (data_add_marker empty_data TYPE_UINT8 None)) with 0. lia. }
    { exact Hr. }
    shift_rest Hr1. assert (d_val b = v) as Hbv' by exact Hbv.
    destruct (merge_empty b) as (d & Hd & Hdv); [unfold d_len; by rewrite Hbv'|].
    exists d, s2. split; [|split; [done|by rewrite Hdv]]. eapply Grammar.data_bytes; [constructor|exact Hs|exact Hb|done|exact Hd].
Qed.
Lemma prop_read p l s : prop_ok p = true -> rest (prop_tokens p ++ l) s ->
  exists q s', Grammar.propdef fopen contents s q s' /\ rest l s' /\ live_props [q] = [p].
Proof using.
  intros [_ Hv]%andb_true_iff Hr. destruct p as [name v]. cbn [fst snd prop_tokens app] in *. shift_rest Hr.
  unfold value_tokens in Hr. rewrite <- app_assoc in Hr. destruct v as [|x v'].
  - cbn [app] in Hr. shift_rest Hr. exists (build_property name empty_data), s1. by split; [eapply Grammar.prop_empty|].
  - assert (x :: v' <> []) as Hne by done. remember (x :: v') as v eqn:Ev. clear Ev. rewrite <- app_comm_cons in Hr. shift_rest Hr.
    destruct (propdata_read v _ _ Hne Hv Hr) as (d & s2 & Hd & Hr2 & Hdv). cbn [app] in Hr2. shift_rest Hr2.
    exists (build_property name d), s3. split; [by eapply Grammar.prop_value|]. split; [done|]. cbn. by rewrite Hdv.
Qed.

Lemma reverse_properties_app ps : forall acc, reverse_properties_ ps acc = rev ps ++ acc.
Proof using.
  induction ps as [|p ps IH]; intros acc; [done|]. cbn [reverse_properties_ rev]. by rewrite IH, <- app_assoc.
Qed.

Lemma live_props_app a b : live_props (a ++ b) = live_props a ++ live_props b.
Proof using. unfold live_props. by rewrite flat_map_app. Qed.

Lemma props_read ps : forall l s0 acc s, forallb prop_ok ps = true ->
  Grammar.proplist fopen contents s0 acc s -> rest (flat_map prop_tokens ps ++ l) s ->
  exists qs s', Grammar.proplist fopen contents s0 qs s' /\ rest l s' /\ live_props (rev qs) = live_props (rev acc) ++ ps.
Proof using.
  induction ps as [|p ps IH]; intros l s0 acc s Hok Hacc Hr; [exists acc, s; by rewrite app_nil_r|].
  cbn [forallb flat_map] in *. apply andb_true_iff in Hok as [Hp Hps]. rewrite <- app_assoc in Hr.
  destruct (prop_read p _ _ Hp Hr) as (q & s1 & Hq & Hr1 & Hlq).
  destruct (IH l s0 (q :: acc) s1 Hps) as (qs & s' & Hqs & Hr' & Hlqs); [by eapply Grammar.props_more|done|].
  exists qs, s'. split; [done|]. split; [done|]. rewrite Hlqs. cbn [rev]. by rewrite live_props_app, Hlq, <- app_assoc.
Qed.

(** The node of the tokens has no name yet. *)
Lemma node_read w : forall l s, body_ok w = true -> rest (body_tokens w ++ l) s ->
  exists n s', Grammar.nodedef fopen contents s n s' /\ rest l s' /\ n_name_ n = None /\ n_deleted n = false /\
    forall name, live (n_set_name (Some name) n) = WNode name (wn_props w) (let 'WNode _ _ ks := w in ks).
Proof using.
  induction w as [nm ps ks IH] using wnode_ind'. intros l s [Hps Hks]%andb_true_iff Hr.
  cbn [body_tokens] in Hr. rewrite <- app_comm_cons, <- !app_assoc in Hr. shift_rest Hr.
  destruct (props_read ps _ s0 [] s0 Hps (Grammar.props_empty _ _ s0) Hr) as (qs & s1 & Hqs & Hr1 & Hlqs).
  assert (exists cs s2, Grammar.subnodes fopen contents s1 cs s2 /\ rest ([Char "}"; Char ";"] ++ l) s2 /\ live_kids cs = ks)
    as (cs & s2 & Hcs & Hr2 & Hlcs).
  { clear -IH Hks Hr1. revert s1 Hr1. induction ks as [|k ks IHk]; intros s1 Hr1; [exists [], s1; by split; [constructor|]|].
    apply Forall_cons in IH as [Hk IH]. cbn [forallb flat_map] in *. apply andb_true_iff in Hks as [[_ Hok]%andb_true_iff Hks].
    rewrite <- app_assoc, <- app_comm_cons in Hr1. shift_rest Hr1.
    destruct (Hk _ _ Hok Hr1) as (c & s2 & Hc & Hr2 & Hname & Hdel & Hlive). destruct (IHk IH Hks s2 Hr2) as (cs & s3 & Hcs & Hr3 & Hl).
    exists (n_set_name (Some (wn_name k)) c :: cs), s3. split; [|split; [done|]].
    - eapply Grammar.nodes_more; [eapply Grammar.sub_def; [exact Hs|exact Hc|]|exact Hcs|done].
      unfold name_node. by rewrite Hname.
    - unfold live_kids in *. cbn [flat_map]. change (n_deleted (n_set_name _ c)) with (n_deleted c).
      rewrite Hdel, Hlive, Hl. by destruct k. }
  cbn [app] in Hr2. shift_rest Hr2. shift_rest Hr2. exists (build_node qs cs), s4.
  split; [by eapply Grammar.node_braces|]. do 3 (split; [done|]). intros name.
  cbn [live n_set_name build_node n_name n_name_ n_proplist n_children default wn_props].
  unfold reverse_properties. rewrite reverse_properties_app, app_nil_r, Hlqs. by rewrite <- Hlcs.
Qed.

Lemma reserve_read r l s : rest (reserve_tokens r ++ l) s ->
  exists s', Grammar.memreserve s (build_reserve_entry r.1 r.2) s' /\ rest l s'.
Proof using.
  intros Hr. cbn [reserve_tokens app] in Hr. do 4 shift_rest Hr. exists s3. split; [|done].
  eapply Grammar.reserve_entry; [done|by apply Grammar.prim_literal|by apply Grammar.prim_literal|done].
Qed.

Lemma reserves_read rsv l : forall s, rest (flat_map reserve_tokens rsv ++ l) s ->
  exists s', Grammar.memreserves s (map (fun r => build_reserve_entry r.1 r.2) rsv) s' /\ rest l s'.
Proof using.
  induction rsv as [|r rsv IH]; intros s Hr; [exists s; by split; [constructor|]|].
  cbn [flat_map map] in *. rewrite <- app_assoc in Hr. destruct (reserve_read _ _ _ Hr) as (s1 & H1 & Hr1).
  destruct (IH s1 Hr1) as (s' & H' & Hr'). exists s'. split; [|done]. by eapply Grammar.reserves_more.
Qed.

(** The tree of the source is the one that was written. *)
Lemma source_read rsv w s : body_ok w = true -> wn_name w = [] -> rest (source_tokens rsv w) s ->
  exists dti s', Grammar.sourcefile fopen contents s dti s' /\ rest [] s' /\
    live (dt dti) = w /\ reserves dti = rsv /\ dtsflags dti = DTSF_V1.
Proof using.
  intros Hw Hn Hr. unfold source_tokens in Hr. cbn [app] in Hr. do 2 shift_rest Hr.
  destruct (reserves_read rsv _ s1 Hr) as (s2 & Hres & Hr2). shift_rest Hr2.
  rewrite <- (app_nil_r (body_tokens w)) in Hr2. destruct (node_read w [] s3 Hw Hr2) as (n & s4 & Hnode & Hr4 & Hname & _ & Hlive).
  destruct (guess_boot_cpuid_ret (n_set_name (Some []) n)) as [cpuid Hcpu].
  eexists (build_dt_info DTSF_V1 _ _ cpuid), s4. split; [|split; [exact Hr4|]].
  - eapply Grammar.source; [apply Grammar.headers_one; by eapply Grammar.header_v1|exact Hres| |exact Hcpu].
    eapply Grammar.tree_root; [done|exact Hnode|]. unfold name_node. by rewrite Hname.
  - cbn [dt build_dt_info reservelist dtsflags]. split; [rewrite Hlive; destruct w; cbn in *; by subst|]. split; [|done].
    unfold reserves. cbn [reservelist build_dt_info]. rewrite map_map. cbn. clear. induction rsv as [|[a b] l IH]; [done|].
    cbn. by rewrite IH.
Qed.

(** The text parsed again. *)
Lemma source_back no_output dti sf :
  printable dti = true -> file_ok sf -> zlen (source_text (reserves dti) (live (dt dti))) < Z.pos loop_bound ->
  exists dti' sf', yyparse fopen contents no_output (source_text (reserves dti) (live (dt dti))) sf = Ret (0, false, dti', sf') /\
    live (dt dti') = live (dt dti) /\ reserves dti' = reserves dti /\ dtsflags dti' = DTSF_V1.
Proof using.
  intros Hp Hsf Hlen.
  apply andb_true_iff in Hp as [[[[_ Hb]%andb_true_iff Hn]%andb_true_iff _]%andb_true_iff Hr].
  assert (wn_name (live (dt dti)) = []) as Hname by (apply bool_decide_eq_true in Hn; by destruct (dt dti)).
  destruct (scans_source (reserves dti) (live (dt dti))) as [b Hs]; [|done|done|].
  { apply Forall_forall. intros r Hin. rewrite forallb_forall in Hr. specialize (Hr r (proj1 (list_elem_of_In _ _) Hin)).
    rewrite !andb_true_iff, !Z.leb_le, !Z.ltb_lt in Hr. lia. }
  destruct (lex_all_scans fopen contents _ _ _ _ _ _ sf Hs Hsf Hlen) as (t & Ht & Hstream).
  destruct (source_read (reserves dti) (live (dt dti)) (PState t sf sf false 0) Hb Hname) as (dti' & s' & Hd & Hend & Hlive & Hres & Hfl).
  { by split. }
  pose proof (sourcefile_complete fopen contents _ _ _ Hd (rest_end _ Hend)) as Hdoes.
  destruct Hend as [He Herr]. destruct (p_toks s') as [|now e|] eqn:E; [by inversion He| |by inversion He].
  exists dti', (advance_files (p_files s') (p_scanned s') now). split; [|done].
  unfold yyparse, parse_tokens. rewrite Ht. cbn [rbind]. unfold does in Hdoes. rewrite Hdoes. cbn [rbind].
  rewrite E, Herr. by inversion He.
Qed.
End reading.

(** ** Trees read from blobs

    They have no labels and no markers, and their reserve entries are words. *)

Lemma data_grow_markers d n : wp any (data_grow_for d n) (fun d' => d_markers d' = d_markers d).
Proof.
  unfold data_grow_for. destruct (n =? 0); [done|]. apply wp_any_bind. done.
Qed.

Lemma read_data_markers blob inb len : wp any (flat_read_data blob inb len) (fun r => d_markers r.1 = []).
Proof.
  unfold flat_read_data. destruct (len =? 0); [done|]. eapply wp_seq; [apply data_grow_markers|]. intros d Hd.
  apply wp_any_bind. intros [p inb1] _.
  eapply wp_seq with (P := fun d' => d_markers d' = d_markers d).
  { unfold data_put. by destruct (_ && _ && _). }
  intros d' Hd'. apply wp_any_bind. intros inb2 _. cbn. by rewrite Hd', Hd.
Qed.

Lemma plain_add_property n p : plain n = true -> plain_property p = true -> plain (add_property n p) = true.
Proof.
  intros Hn Hp. destruct n as [dl nm pl ch fp bl ph ac sc lb om rf]. cbn [plain add_property n_set_proplist n_labels n_proplist n_children] in *.
  rewrite forallb_app. cbn [forallb]. rewrite Hp. by destruct (no_labels _), (forallb plain_property _).
Qed.

Lemma plain_add_child n c : plain n = true -> plain c = true -> plain (add_child n c) = true.
Proof.
  intros Hn Hc. destruct n as [dl nm pl ch fp bl ph ac sc lb om rf]. unfold add_child. cbn [plain n_set_children n_labels n_proplist n_children] in *.
  rewrite !andb_true_iff in *. destruct Hn as [Hl Hk]. split; [exact Hl|]. rewrite forallb_app, Hk. cbn. by rewrite Hc, orb_true_r.
Qed.

Lemma unflatten_plain blob fuel : forall inb strbuf parent flags,
  wp any (unflatten_tree blob fuel inb strbuf parent flags) (fun r => plain r.1 = true).
Proof.
  induction fuel as [|fuel IH]; intros inb strbuf parent flags; [done|]. cbn [unflatten_tree].
  apply wp_any_bind. intros [flatname ib] _.
  apply wp_any_bind. intros name _.
  apply (wp_loop_inv any (fun st : node * inbuf => plain st.1 = true)); [done|done|].
  clear inb ib. intros [n ib] Hn. unfold unflatten_step. apply wp_any_bind.
  intros [val ib1] _. destruct (val =? FDT_PROP).
  { eapply wp_seq with (P := fun r => plain_property r.1 = true); [|intros [p ib2] Hp; by apply plain_add_property].
    unfold flat_read_property. apply wp_any_bind. intros [proplen ib2] _.
    apply wp_any_bind. intros [stroff ib3] _.
    do 2 (apply wp_any_bind; intros ? _).
    eapply wp_seq; [apply read_data_markers|]. intros [d ib4] Hd. cbn in *. by rewrite Hd. }
  destruct (val =? FDT_BEGIN_NODE); [eapply wp_seq; [apply IH|]; intros [c ib2] Hc; by apply plain_add_child|].
  destruct (val =? FDT_END_NODE); [done|]. destruct (val =? FDT_END); [done|]. by destruct (val =? FDT_NOP).
Qed.

Definition entry_ok (r : reserve_info) : bool :=
  no_labels (rs_labels r) &&
  ((0 <=? rs_address r) && (rs_address r <? 2 ^ 64) && (0 <=? rs_size r) && (rs_size r <? 2 ^ 64)).

Lemma be_word_range p v : be_word p = Ret v -> is_u32 v.
Proof. destruct p as [|a [|b [|c [|d [|e p]]]]]; try done. intros [= <-]. apply be32_range. Qed.

Lemma be_dword_range p v : be_dword p = Ret v -> (0 <=? v) && (v <? 2 ^ 64) = true.
Proof.
  unfold be_dword. destruct (be_word (take 4 p)) as [hi|] eqn:E1; [|done]. cbn [rbind].
  destruct (be_word (drop 4 p)) as [lo|] eqn:E2; [|done]. intros [= <-].
  apply be_word_range in E1. apply be_word_range in E2. change (2 ^ 64) with 18446744073709551616.
  rewrite andb_true_iff, Z.leb_le, Z.ltb_lt. ilia.
Qed.

Lemma mem_reserve_plain blob inb : wp any (flat_read_mem_reserve blob inb) (fun l => forallb entry_ok l = true).
Proof.
  unfold flat_read_mem_reserve. apply (wp_loop_inv any (fun st : inbuf * list reserve_info => forallb entry_ok st.2 = true)); [done|done|].
  intros [ib l] Hl. apply wp_any_bind. intros [re ib2] _.
  apply wp_any_bind. intros address Ha%be_dword_range.
  apply wp_any_bind. intros size Hs%be_dword_range. destruct (size =? 0); [exact Hl|].
  cbn [wp snd] in *. unfold add_reserve_entry. rewrite forallb_app, Hl. unfold entry_ok.
  cbn [forallb build_reserve_entry rs_labels rs_address rs_size no_labels]. rewrite !andb_true_iff in *. tauto.
Qed.

Lemma dt_from_blob_plain f :
  wp any (dt_from_blob f) (fun dti => plain (dt dti) = true /\ forallb entry_ok (reservelist dti) = true).
Proof.
  unfold dt_from_blob.
  repeat (cbv zeta; lazymatch goal with
    | |- wp _ (Fault _) _ => exact I
    | |- wp _ (Ret _) _ => fail
    | |- wp _ (rbind (flat_read_mem_reserve _ _) _) _ => eapply wp_seq; [apply mem_reserve_plain|intros reserves_ Hres]
    | |- wp _ (rbind (unflatten_tree _ _ _ _ _ _) _) _ =>
      eapply wp_seq; [apply unflatten_plain|intros [tree ib_] Hplain; cbn [fst] in Hplain]
    | |- wp _ (rbind _ _) _ => apply wp_any_bind; intros ? _
    | |- wp _ (match ?x with _ => _ end) _ => destruct x
    end).
  by split.
Qed.

(** Of a tree from a blob only the names and the values matter. *)
Lemma dt_from_blob_printable f dti : dt_from_blob f = Ret dti ->
  printable dti = body_ok (live (dt dti)) && bool_decide (n_name (dt dti) = []).
Proof.
  intros H. destruct (wp_any_ret _ _ _ (dt_from_blob_plain f) H) as [Hp Hr]. unfold printable. rewrite Hp. cbn [andb].
  assert (forallb (fun r => no_labels (rs_labels r)) (reservelist dti) &&
    forallb (fun r => (0 <=? r.1) && (r.1 <? 2 ^ 64) && (0 <=? r.2) && (r.2 <? 2 ^ 64)) (reserves dti) = true) as Hl.
  { unfold reserves. revert Hr. generalize (reservelist dti) as l. intros l.
    induction l as [|r l IH]; [done|]. cbn [forallb map fst snd]. unfold entry_ok at 1.
    rewrite !andb_true_iff in *. tauto. }
  by rewrite <- andb_assoc, Hl, andb_true_r.
Qed.
