(* ===== verification/DtcMain.v ===== *)
(** dtc/dtc.c: the options, the formats, and the passes from input to output. *)
From S2P Require Import Prelude Monad Memory Ctype Libfdt DtcUtil DtcSrcpos DtcLexer DtcParser DtcData DtcTree DtcGen.
From S2P Require Import DtcFlat DtcSource DtcFront.
From S2P Require Import DtcUnflat DtcChecks DtcCheckFns DtcBusChecks DtcCheckTable.

Definition is_power_of_2 (x : Z) : bool := (0 <? x) && (Z.land x (x - 1) =? 0).

(** ** Formats *)

(** [strcasecmp(a, b) == 0]. *)
Definition strcaseeq (a b : list byte) : bool := streq (map to_upper a) (map to_upper b).

(** The part from the last [c] on. *)
Fixpoint from_last (c : byte) (s : list byte) : option (list byte) :=
  match s with
  | [] => None
  | x :: s' =>
    match from_last c s' with
    | Some r => Some r
    | None => if bool_decide (x = c) then Some s else None
    end
  end.

Definition guess_type_by_name (fname : list byte) (fallback : option (list byte)) : option (list byte) :=
  match from_last "."%byte fname with
  | None => fallback
  | Some s =>
    if strcaseeq s (str ".dts") then Some (str "dts")
    else if strcaseeq s (str ".yaml") then Some (str "yaml")
    else if strcaseeq s (str ".dtbo") then Some (str "dtb")
    else if strcaseeq s (str ".dtb") then Some (str "dtb")
    else fallback
  end.

(** What a name stands for: a file or a device, with its contents when it can
    be read, or a directory, with its entries when it can be read. *)
Inductive inode :=
| File (contents : option (list byte))
| Dir (entries : option (list dirent))
| Other (contents : option (list byte)).

Section main.
(** The file system and what can be read from standard input. The positions of
    nodes and properties, which the live trees of this model do not have, are
    given for the tree that is written. *)
Context (fs : list byte -> option inode) (stdin : list byte) (positions : srcfiles -> dt_info -> notes).

Definition fopen (name : list byte) : bool :=
  match fs name with
  | Some (File (Some _)) | Some (Other (Some _)) | Some (Dir (Some _)) => true
  | _ => false
  end.

(** What is read from the file opened under a name. *)
Definition contents (name : list byte) : res (list byte) :=
  if streq name (str "-") then Ret stdin else
  match fs name with
  | Some (File (Some f)) | Some (Other (Some f)) => Ret f
  | Some (Dir _) => Fault Die (* cannot be read as a file *)
  | _ => Fault Oob
  end.

(** What is read was opened. *)
Lemma contents_opened fname f : contents fname = Ret f -> fname = str "-" \/ fopen fname = true.
Proof.
  unfold contents, fopen. destruct (streq fname (str "-")) eqn:E; [by left; apply bool_decide_eq_true in E|].
  right. by destruct (fs fname) as [[[]| |[]]|].
Qed.

Definition no_tree : dt_info := DtInfo 0 [] 0 (build_node [] []).

Definition dt_from_source (fname : list byte) (sf : srcfiles) : res (dt_info * (dt_info -> notes) * srcfiles) :=
  let! '(text, sf) := open_source fopen contents fname sf in
  let! '(r, treesource_error, parser_output, sf) := yyparse fopen contents no_tree text sf in
  if negb (r =? 0) then Fault Die else
  if treesource_error : bool then Fault Die else
  Ret (parser_output, positions sf, sf).

Definition guess_input_format (fname : list byte) (fallback : list byte) : list byte :=
  match fs fname with
  | None => fallback
  | Some (Dir _) => str "fs"
  | Some (Other _) => fallback
  | Some (File None) => fallback
  | Some (File (Some f)) =>
    match f with
    | b0 :: b1 :: b2 :: b3 :: _ =>
      if be32 b0 b1 b2 b3 =? FDT_MAGIC then str "dtb"
      else default fallback (guess_type_by_name fname (Some fallback))
    | _ => fallback
    end
  end.

(** [dt_from_blob] with the file it opens. *)
Definition dt_from_blob_file (fname : list byte) (sf : srcfiles) : res (dt_info * srcfiles) :=
  let! '(name, sf) := srcfile_relative_open fopen fname sf in
  let! contents := contents (if streq fname (str "-") then fname else name) in
  let! dti := dt_from_blob contents in
  Ret (dti, sf).

(** ** Options *)

Record formats := Formats {
  inform : option (list byte);
  outform : option (list byte);
  outname : list byte;
  depname : option (list byte);
}.

Record passes := Passes {
  force : bool;
  sort : bool;
  auto_label_aliases : bool;
  annotate_level : Z;
}.

Record command := Command {
  fmts : formats;
  pass : passes;
  outversion : Z;
  cmdline_boot_cpuid : Z;
  copts : check_opts;   (* quiet to phandle_format, generate_symbols *)
  sources : srcfiles;
  levels : cstate;      (* the levels of the checks, no tree yet *)
}.

Definition set_formats (f : formats -> formats) (c : command) : command :=
  Command (f (fmts c)) (pass c) (outversion c) (cmdline_boot_cpuid c) (copts c) (sources c) (levels c).
Definition set_passes (f : passes -> passes) (c : command) : command :=
  Command (fmts c) (f (pass c)) (outversion c) (cmdline_boot_cpuid c) (copts c) (sources c) (levels c).
Definition set_opts (f : dtc_opts -> dtc_opts) (c : command) : command :=
  Command (fmts c) (pass c) (outversion c) (cmdline_boot_cpuid c)
    (CheckOpts (f (co_dtc (copts c))) (generate_symbols (copts c))) (sources c) (levels c).
Definition set_levels (s : cstate) (c : command) : command :=
  Command (fmts c) (pass c) (outversion c) (cmdline_boot_cpuid c) (copts c) (sources c) s.

Definition PHANDLE_BOTH : Z := 3.
Definition DEFAULT_FDT_VERSION : Z := 17.

Definition default_opts : check_opts := CheckOpts (DtcOpts 0 0 0 0 0 PHANDLE_EPAPR false) false.

Definition default_command : command :=
  Command (Formats None None (str "-") None) (Passes false false false 0) DEFAULT_FDT_VERSION (- 1)
    default_opts no_srcfiles (initial_state default_opts no_tree).

(** [strtol(s, NULL, 0)]. *)
Definition strtol0 (s : list byte) : Z :=
  let '(t, _) := skip_space s in
  let digits := match t with "-"%byte :: t | "+"%byte :: t => t | _ => t end in
  let v :=
    match digits with
    | "0"%byte :: x :: _ =>
      if bool_decide (x = "x"%byte) || bool_decide (x = "X"%byte) then (strtol s 16).1 else (strtol s 8).1
    | _ => (strtol s 10).1
    end in
  Z.max (- 9223372036854775808) (Z.min 9223372036854775807 v).

(** The names and the levels of the checks do not depend on the options. *)
Definition parse_check_level (warn error : bool) (arg : list byte) (c : command) : res command :=
  let! s := parse_checks_option (check_table default_opts) warn error arg (levels c) in
  Ret (set_levels s c).

Definition dtc_option (c : command) (opt : byte * list byte) : res command :=
  let '(o, optarg) := opt in
  let n := s32 (strtol0 optarg) in
  match o with
  | "I"%byte => Ret (set_formats (fun f => Formats (Some optarg) (outform f) (outname f) (depname f)) c)
  | "O"%byte => Ret (set_formats (fun f => Formats (inform f) (Some optarg) (outname f) (depname f)) c)
  | "o"%byte => Ret (set_formats (fun f => Formats (inform f) (outform f) optarg (depname f)) c)
  | "d"%byte => Ret (set_formats (fun f => Formats (inform f) (outform f) (outname f) (Some optarg)) c)
  | "V"%byte => Ret (Command (fmts c) (pass c) n (cmdline_boot_cpuid c) (copts c) (sources c) (levels c))
  | "R"%byte => Ret (set_opts (fun d => DtcOpts (quiet d) n (minsize d) (padsize d) (alignsize d) (phandle_format d) (generate_fixups d)) c)
  | "S"%byte => Ret (set_opts (fun d => DtcOpts (quiet d) (reservenum d) n (padsize d) (alignsize d) (phandle_format d) (generate_fixups d)) c)
  | "p"%byte => Ret (set_opts (fun d => DtcOpts (quiet d) (reservenum d) (minsize d) n (alignsize d) (phandle_format d) (generate_fixups d)) c)
  | "a"%byte => if negb (is_power_of_2 n) then Fault Die else
                Ret (set_opts (fun d => DtcOpts (quiet d) (reservenum d) (minsize d) (padsize d) n (phandle_format d) (generate_fixups d)) c)
  | "f"%byte => Ret (set_passes (fun p => Passes true (sort p) (auto_label_aliases p) (annotate_level p)) c)
  | "q"%byte => Ret (set_opts (fun d => DtcOpts (quiet d + 1) (reservenum d) (minsize d) (padsize d) (alignsize d) (phandle_format d) (generate_fixups d)) c)
  | "b"%byte => Ret (Command (fmts c) (pass c) (outversion c) (strtol0 optarg) (copts c) (sources c) (levels c))
  | "i"%byte => Ret (Command (fmts c) (pass c) (outversion c) (cmdline_boot_cpuid c) (copts c)
                  (srcfile_add_search_path optarg (sources c)) (levels c))
  | "H"%byte =>
    let! f := if streq optarg (str "legacy") then Ret PHANDLE_LEGACY
              else if streq optarg (str "epapr") then Ret PHANDLE_EPAPR
              else if streq optarg (str "both") then Ret PHANDLE_BOTH
              else Fault Die in
    Ret (set_opts (fun d => DtcOpts (quiet d) (reservenum d) (minsize d) (padsize d) (alignsize d) f (generate_fixups d)) c)
  | "s"%byte => Ret (set_passes (fun p => Passes (force p) true (auto_label_aliases p) (annotate_level p)) c)
  | "W"%byte => parse_check_level true false optarg c
  | "E"%byte => parse_check_level false true optarg c
  | "@"%byte => Ret (Command (fmts c) (pass c) (outversion c) (cmdline_boot_cpuid c) (CheckOpts (co_dtc (copts c)) true)
                  (sources c) (levels c))
  | "A"%byte => Ret (set_passes (fun p => Passes (force p) (sort p) true (annotate_level p)) c)
  | "T"%byte => Ret (set_passes (fun p => Passes (force p) (sort p) (auto_label_aliases p) (annotate_level p + 1)) c)
  | _ => Fault Die (* -v, -h, unknown *)
  end.

Fixpoint dtc_options (opts : list (byte * list byte)) (c : command) : res command :=
  match opts with
  | [] => Ret c
  | o :: opts => let! c := dtc_option c o in dtc_options opts c
  end.

(** ** The passes *)

Definition with_tree (t : node) (dti : dt_info) : dt_info :=
  DtInfo (dtsflags dti) (reservelist dti) (boot_cpuid_phys dti) t.

(** The passes between reading and writing the tree. *)
Definition dtc_passes (c : command) (dti : dt_info) : res dt_info :=
  let dti := if negb (cmdline_boot_cpuid c =? - 1)
             then DtInfo (dtsflags dti) (reservelist dti) (u32 (cmdline_boot_cpuid c)) (dt dti) else dti in
  let dti := with_tree (fill_fullpaths (dt dti) []) dti in
  (* on a plugin, generate by default *)
  let fixups := negb (Z.land (dtsflags dti) DTSF_PLUGIN =? 0) in
  let d := co_dtc (copts c) in
  let d := DtcOpts (quiet d) (reservenum d) (minsize d) (padsize d) (alignsize d) (phandle_format d) fixups in
  let o := CheckOpts d (generate_symbols (copts c)) in
  let! s := process_checks o (check_table o) (force (pass c))
              (CState dti (cs_phandle (levels c)) ∅ (cs_checks (levels c)) []) in
  let dti := cs_dti s in
  let! '(tree, phandle) :=
    if auto_label_aliases (pass c) then generate_label_tree d (dt dti) (str "aliases") false (cs_phandle s)
    else Ret (dt dti, cs_phandle s) in
  let! '(tree, phandle) :=
    if generate_symbols o then generate_label_tree d tree (str "__symbols__") true phandle
    else Ret (tree, phandle) in
  let! tree :=
    if fixups then
      let! tree := generate_fixups_tree tree (str "__fixups__") in
      generate_local_fixups_tree tree (str "__local_fixups__")
    else Ret tree in
  let dti := with_tree tree dti in
  Ret (if sort (pass c) then sort_tree dti else dti).

(** What is written: text or bytes, YAML events, or nothing. *)
Inductive dtc_output :=
| Bytes (l : list byte)
| Yaml (evs : list yaml_event)
| Nothing.

Definition write_output (c : command) (inf outf : list byte) (a : dt_info -> notes) (dti : dt_info) : res dtc_output :=
  let d := co_dtc (copts c) in
  if streq outf (str "dts") then
    let a := a dti in
    let! l := dt_to_source (Notes (annotate_level (pass c)) (note_files a) (note_prop a) (note_node a)) dti in Ret (Bytes l)
  else if streq outf (str "yaml") then
    if negb (streq inf (str "dts")) then Fault Die else
    let! evs := dt_to_yaml dti in Ret (Yaml evs)
  else if streq outf (str "dtb") then let! l := dt_to_blob d dti (outversion c) in Ret (Bytes l)
  else if streq outf (str "asm") then let! l := dt_to_asm d dti (outversion c) in Ret (Bytes l)
  else if streq outf (str "null") then Ret Nothing
  else Fault Die.

(** [main] after [getopt_long]: the output with its name, and the dependency
    file. Files can be opened for writing. *)
Definition dtc_main (opts : list (byte * list byte)) (args : list (list byte))
    : res (list byte * dtc_output * option (list byte)) :=
  let! c := dtc_options opts default_command in
  let! arg :=
    match args with
    | [] => Ret (str "-")
    | [a] => Ret a
    | _ => Fault Die
    end in
  let d := co_dtc (copts c) in
  (* minsize and padsize are mutually exclusive *)
  if negb (minsize d =? 0) && negb (padsize d =? 0) then Fault Die else
  let sf := sources c in
  let sf := match depname (fmts c) with
            | None => sf
            | Some _ => SrcFiles (src_files sf) (current_srcfile sf) (srcfile_depth sf) (search_path sf)
                          (initial_path sf) (initial_pathlen sf) (initial_cpp sf) (Some (outname (fmts c) ++ str ":"))
            end in
  let inf := match inform (fmts c) with Some f => f | None => guess_input_format arg (str "dts") end in
  let outf :=
    match outform (fmts c) with
    | Some f => f
    | None =>
      match guess_type_by_name (outname (fmts c)) None with
      | Some f => f
      | None => if streq inf (str "dts") then str "dtb" else str "dts"
      end
    end in
  if negb (annotate_level (pass c) =? 0) && (negb (streq inf (str "dts")) || negb (streq outf (str "dts")))
  then Fault Die else
  let! '(dti, a, sf) :=
    if streq inf (str "dts") then dt_from_source arg sf
    else if streq inf (str "fs") then
      let! dti := dt_from_fs (match fs arg with Some (Dir e) => e | _ => None end) in Ret (dti, fun _ => no_notes, sf)
    else if streq inf (str "dtb") then
      let! '(dti, sf) := dt_from_blob_file arg sf in Ret (dti, fun _ => no_notes, sf)
    else Fault Die in
  let dep := match depfile sf with Some t => Some (t ++ [nl]) | None => None end in
  let! dti := dtc_passes c dti in
  let! out := write_output c inf outf a dti in
  Ret (outname (fmts c), out, dep).
End main.
