(* ===== verification/DtcProps.v ===== *)
(** Properties of dtc's input and output: the blob it writes, read by libfdt
    and by dtc, blobs of any contents, source text and its grammar. *)
From S2P Require Import Prelude Monad Ctype Memory Libfdt Fdt FdtSpec FdtTree FdtRo FdtCheck FdtWip FdtRead.
From S2P Require Import FdtNav FdtCheckSpec FdtRw FdtRwSpec FdtRwProp Sample FdtRsv FdtSwBuild DtcUtil.
From S2P Require Import DtcData DtcTree DtcFlat DtcSource DtcDataSpec DtcTreeSpec DtcUnflat DtcUnflatSafe.
From S2P Require Import DtcFlatSpec DtcUnflatSpec DtcSrcpos DtcLexer DtcParser DtcGrammar DtcScan DtcSourceSpec DtcMain.

(** The sample tree satisfies the hypotheses. *)
Lemma d_blob_ok : blob_ok d_opts d_dti.
Proof.
  constructor; [reflexivity| |vm_compute; discriminate|vm_compute; discriminate].
  repeat (constructor; [repeat (first [exact I|apply no_nul_dec; vm_compute; reflexivity|split])|]). constructor.
Qed.

Lemma d_rsv_ok : Forall rsv_ok (rsv_of (reservelist d_dti)).
Proof. constructor; [|constructor]. repeat (first [reflexivity|vm_compute; discriminate|split]). Qed.

(** ** Properties *)

(** C23. What dtc writes libfdt reads: for a live tree with C strings as names
    and an unnamed root, [dt_to_blob] produces a blob that, wherever it is
    loaded at a multiple of 8, passes [fdt_check_full], has the source's
    reserve entries, in order, with their addresses and sizes, and no other,
    and in which every live node reads back with its name and, for every name,
    the value of its first live property of that name. *)
Theorem dtc_blob_readable o dti :
  blob_ok o dti -> wn_name (live (dt dti)) = [] -> Forall rsv_ok (rsv_of (reservelist dti)) ->
  exists blob, dt_to_blob o dti 17 = Ret blob /\ forall m p, bytes_at m p blob -> Z.land p 7 = 0 ->
    fdt_check_full m p (zlen blob) = Ret 0 /\ fdt_num_mem_rsv m p = Ret (zlen (reservelist dti)) /\
    (forall i re, reservelist dti !! i = Some re ->
      fdt_get_mem_rsv m p (Z.of_nat i) = Ret (0, rs_address re, rs_size re)) /\
    forall w, wsub w (live (dt dti)) -> exists off q, fdt_get_name m p off = Ret (Some q, zlen (wn_name w)) /\
      bytes_at m q (wn_name w) /\
      forall name, value_read m (fdt_getprop m p off name) (wprop (wn_props w) name).
Proof.
  intros Hok Hn Hrsv. exists (blob_bytes o dti). split; [by apply dt_to_blob_at|]. intros m p Hat Hal.
  pose proof (blob_rw_at o dti m p Hok Hal Hrsv Hat) as Hrw. destruct (blob_writes o dti Hok) as [Hw _].
  destruct (blob_subs o dti Hok) as (_ & El & _). pose proof (blob_total o dti Hok).
  destruct (written_node _ _ _ Hw) as (items & Et & Hnm & _ & Hsub). rewrite Hn in Et. rewrite Et in Hrw.
  split; [|split; [rewrite <- (rsv_of_len (reservelist dti)); by eapply fdt_num_mem_rsv_at|split]].
  - eapply rw_check_full; [exact Hrw|exact Hnm|done|rewrite El; ilia|exact (bytes_at_valid _ _ _ Hat)].
  - intros i re Hi. apply list_elem_of_split_length in Hi as (l1 & l2 & El' & ->).
    assert (Er : rsv_of (reservelist dti) = rsv_of l1 ++ (rs_address re, rs_size re) :: rsv_of l2) by (by rewrite El'; apply map_app).
    pose proof (fdt_get_mem_rsv_at _ _ _ _ _ _ Hrw _ _ _ Er) as Hg. by rewrite rsv_of_len in Hg.
  - intros w Hs. destruct (Hsub w Hs) as (pre & items' & post & Ew & Hval). rewrite <- Et, Ew in Hrw.
    by eapply rw_node_reads.
Qed.

Theorem dtc_blob_readable_witness :
  exists blob, dt_to_blob d_opts d_dti 17 = Ret blob /\ forall m p, bytes_at m p blob -> Z.land p 7 = 0 ->
    fdt_check_full m p (zlen blob) = Ret 0 /\ fdt_num_mem_rsv m p = Ret 1 /\
    fdt_get_mem_rsv m p 0 = Ret (0, 16, 32) /\
    forall w, wsub w (live d_tree) -> exists off q, fdt_get_name m p off = Ret (Some q, zlen (wn_name w)) /\
      bytes_at m q (wn_name w) /\
      forall name, value_read m (fdt_getprop m p off name) (wprop (wn_props w) name).
Proof.
  destruct (dtc_blob_readable d_opts d_dti d_blob_ok eq_refl d_rsv_ok) as (blob & E & H). exists blob. split; [exact E|].
  intros m p Hat Hal. destruct (H m p Hat Hal) as (H1 & H2 & H3 & H4).
  split; [exact H1|]. split; [exact H2|]. split; [|exact H4]. by apply (H3 0%nat (ReserveInfo 16 32 [])).
Defined.

(** C24. Round trip through the flat format: [dt_from_blob] reads the blob
    [dt_to_blob] wrote as a tree with the same live nodes and properties, in
    order and with their values, the same reserve entries and boot CPU. *)
Theorem dtc_blob_roundtrip o dti :
  blob_ok o dti -> Forall rsv_ok (rsv_of (reservelist dti)) -> is_u32 (boot_cpuid_phys dti) ->
  exists blob dti', dt_to_blob o dti 17 = Ret blob /\ dt_from_blob blob = Ret dti' /\
    live (dt dti') = live (dt dti) /\ n_deleted (dt dti') = false /\
    rsv_of (reservelist dti') = rsv_of (reservelist dti) /\ boot_cpuid_phys dti' = boot_cpuid_phys dti.
Proof.
  intros Hok Hrsv Hu. destruct (dt_from_blob_at o dti Hok Hrsv) as (dti' & E & H1 & H2 & H3 & H4).
  exists (blob_bytes o dti), dti'. rewrite u32_small in H4 by done. split; [by apply dt_to_blob_at|]. done.
Qed.

Theorem dtc_blob_roundtrip_witness :
  exists blob dti', dt_to_blob d_opts d_dti 17 = Ret blob /\ dt_from_blob blob = Ret dti' /\
    live (dt dti') = live d_tree /\ n_deleted (dt dti') = false /\
    rsv_of (reservelist dti') = [(16, 32)] /\ boot_cpuid_phys dti' = 5.
Proof. apply (dtc_blob_roundtrip d_opts d_dti); [exact d_blob_ok|exact d_rsv_ok|done]. Defined.

(** C25. Round trip through source text: a tree with usable names and values,
    and without labels and markers, is written by [dt_to_source] as a text
    which [dt_from_source] reads from any file or from standard input, without
    an error, as a tree with the same live nodes and properties, in order and
    with their values, and the same reserve entries; and a tree read from a
    blob is one of these whenever its names and values are usable. *)
Theorem dts_roundtrip dti :
  (printable dti = true -> exists text, dt_to_source no_notes dti = Ret text /\
    forall fs stdin positions fname, contents fs stdin fname = Ret text -> zlen text < Z.pos loop_bound ->
    exists dti' a sf, dt_from_source fs stdin positions fname no_srcfiles = Ret (dti', a, sf) /\
      live (dt dti') = live (dt dti) /\ reserves dti' = reserves dti /\ dtsflags dti' = DTSF_V1) /\
  forall f, dt_from_blob f = Ret dti -> printable dti = body_ok (live (dt dti)) && bool_decide (n_name (dt dti) = []).
Proof.
  split; [|intros f; apply dt_from_blob_printable]. intros Hp. exists (source_text (reserves dti) (live (dt dti))). split; [by apply dt_to_source_plain|].
  intros fs stdin positions fname Hc Hl. destruct (open_source_main (fopen fs) (contents fs stdin) fname _ (contents_opened _ _ _ _ Hc) Hc)
    as (sf & Ho & Hsf).
  destruct (source_back (fopen fs) (contents fs stdin) no_tree dti sf Hp Hsf Hl) as (dti' & sf' & Hy & Hlive).
  exists dti', (positions sf'), sf'. split; [|exact Hlive]. unfold dt_from_source. rewrite Ho. cbn [rbind]. by rewrite Hy.
Qed.

Theorem dts_roundtrip_witness :
  printable d_dti = true /\ exists text, dt_to_source no_notes d_dti = Ret text /\
    forall positions, exists dti' a sf,
      dt_from_source (fun _ => None) text positions (str "-") no_srcfiles = Ret (dti', a, sf) /\
      live (dt dti') = live d_tree /\ reserves dti' = [(16, 32)] /\ dtsflags dti' = DTSF_V1.
Proof.
  split; [vm_compute; reflexivity|]. destruct (proj1 (dts_roundtrip d_dti)) as (text & Ht & Hr); [vm_compute; reflexivity|].
  exists text. split; [exact Ht|]. intros positions. apply Hr; [reflexivity|]. vm_compute in Ht. injection Ht as <-. reflexivity.
Defined.

(** C26. The parser is the grammar: for any tokens of the scanner, [yyparse]'s
    part behind the scanner returns 0 exactly with the trees the productions
    of dtc-parser.y derive from all of them, running their actions from the
    leaves up, and says [treesource_error] exactly when an action or the
    scanner did; and of no tokens are there two derivations. *)
Theorem parser_is_grammar fopen contents no_output t sf :
  (forall error dti sf', parse_tokens fopen contents no_output t sf = Ret (0, error, dti, sf') <->
    exists s' now scan_error, Grammar.sourcefile fopen contents (PState t sf sf false 0) dti s' /\
      p_toks s' = Eof now scan_error /\ error = p_error s' || scan_error /\
      sf' = advance_files (p_files s') (p_scanned s') now) /\
  (forall s dti1 s1 dti2 s2,
    Grammar.sourcefile fopen contents s dti1 s1 -> looks s1 None ->
    Grammar.sourcefile fopen contents s dti2 s2 -> looks s2 None -> dti1 = dti2 /\ s1 = s2).
Proof.
  split.
  - intros error dti sf'. unfold parse_tokens. split.
    + intros H. destruct (sourcefile fopen contents _) as [[[d s']|]|] eqn:E; cbn [rbind] in H; try done.
      destruct (p_toks s') as [|now e|] eqn:Et; try done. injection H as <- <- <-. exists s', now, e.
      split; [by apply sourcefile_sound|]. done.
    + intros (s' & now & e & Hg & Et & -> & ->). rewrite (sourcefile_complete _ _ _ _ _ Hg) by (unfold looks, does, peek; by rewrite Et).
      cbn [rbind]. by rewrite Et.
  - intros s dti1 s1 dti2 s2 H1 L1 H2 L2. eapply does_det; by apply sourcefile_complete.
Qed.

(** The tokens of a file. *)
Definition w_files : srcfiles := SrcFiles [SrcFile None None 1 1 None] (Some 0%nat) 1 [] None 0 true None.
Definition w_tokens : tokens :=
  match lex_all (fun _ => false) (fun _ => Fault Oob)
          (Lexer [(str "/dts-v1/; / { a = <(1 - 2 * 3)>, [00 ff]; b { }; };", true)] INITIAL w_files false) with
  | Ret t => t
  | Fault f => Failed f
  end.

Theorem parser_is_grammar_witness :
  exists dti s' now, Grammar.sourcefile (fun _ => false) (fun _ => Fault Oob) (PState w_tokens w_files w_files false 0) dti s' /\
    p_toks s' = Eof now false /\ p_error s' = false /\
    live (dt dti) = WNode [] [(str "a", be_enc32 4294967291 ++ [x00; xff])] [WNode (str "b") [] []].
Proof.
  destruct (parse_tokens (fun _ => false) (fun _ => Fault Oob) no_tree w_tokens w_files) as [[[[r e] dti] sf']|] eqn:E;
    [|vm_compute in E; discriminate E].
  assert (r = 0 /\ e = false /\ live (dt dti) = WNode [] [(str "a", be_enc32 4294967291 ++ [x00; xff])] [WNode (str "b") [] []])
    as (-> & -> & Hl).
  { vm_compute in E. injection E as <- <- <- <-. repeat split. }
  destruct (proj1 (proj1 (parser_is_grammar _ _ _ _ _) false dti sf') E) as (s' & now & se & Hg & Ht & He & _).
  exists dti, s', now. symmetry in He. apply orb_false_iff in He as [He ->]. split; [exact Hg|]. split; [exact Ht|]. split; [exact He|exact Hl].
Defined.

(** C27. The parser's recursion always ends: for any tokens, whether they are
    in the language or not, the fuel [integer_prim], [parse_nodedef], [prepeat]
    and [sourcefile] take from the number of tokens left is enough for every
    nonterminal, the levels of the operators included. With that much fuel, or
    more, the result is the same and it is not [Fuel], the fault of a recursion
    without fuel: it is a value, a syntax error, or a fault of the scanner or of
    an action. So [yyparse] never fails for want of fuel, on any text; only what
    reading a file gives is assumed not to be [Fuel]. *)
Theorem parser_fuel fopen contents :
  (forall name, contents name <> Fault Fuel) ->
  (forall s, scanned (p_toks s) ->
    (settles integer_prim_ (3 * left_ s + 1) s /\ settles integer_unary (3 * left_ s + 2) s /\
     settles integer_expr (3 * left_ s + 3) s /\
     (forall op ops n a, (3 * left_ s + 2 <= n)%nat ->
       settles (fun m => repeat_ m (binary op (level ops (integer_unary n))) a) (S (left_ s)) s)) /\
    ((forall prop, settles (fun n => entry fopen contents n prop) (2 * left_ s + 1) s) /\
     settles (nodedef fopen contents) (2 * left_ s + 1) s /\
     (forall props, settles (fun n => node_body fopen contents n props) (2 * left_ s + 2) s) /\
     settles (subnodes fopen contents) (2 * left_ s + 2) s) /\
    (settles headers (S (left_ s)) s /\ settles memreserve (S (left_ s)) s /\ settles memreserves (S (S (left_ s))) s) /\
    ((forall flags tree, settles (fun n => repeat_ n (devicetree_step fopen contents flags) tree) (S (left_ s)) s) /\
     (forall d, settles (fun n => repeat_ n (value_step fopen contents) d) (S (left_ s)) s) /\
     (forall a, settles (fun n => repeat_ n array_element a) (S (left_ s)) s) /\
     (forall d, settles (fun n => repeat_ n bytestring_element d) (S (left_ s)) s)) /\
    sourcefile fopen contents s <> Fault Fuel) /\
  (forall no_output text sf, yyparse fopen contents no_output text sf <> Fault Fuel).
Proof.
  intros Hc. split; [|intros; by apply yyparse_fueled]. intros s Hs.
  destruct (integers_fuel s) as (Fp & Fu & Fe), (integers_ends s Hs) as (Ep & Eu & Ee).
  destruct (nodes_fuel fopen contents s) as (Ft & Fn & Fb & Fs), (nodes_ends fopen contents Hc s Hs) as (Et & En & Eb & Es).
  split; [split_and!; [by apply settles_intro..|intros; by apply settles_binary]|].
  split; [split_and!; intros; apply settles_intro; auto|].
  split; [split_and!; apply settles_intro; intros; auto using headers_fuel, memreserve_fuel, headers_ends, memreserve_ends;
    first [apply memreserves_fuel; lia|apply memreserves_ends; [lia|done]]|].
  split; [|by apply ends_fueled, sourcefile_ends].
  split_and!; intros; apply settles_repeat; auto using tree_rounds, value_rounds, array_rounds, bytestring_rounds,
    ends_devicetree_step, ends_value_step, ends_array_element, ends_bytestring_element.
Qed.

(** The tokens of the sample text, and a text that is no source. *)
Theorem parser_fuel_witness :
  let s := PState w_tokens w_files w_files false 0 in
  left_ s = 27%nat /\
  (nodedef (fun _ => false) (fun _ => Fault Oob) 100 s = nodedef (fun _ => false) (fun _ => Fault Oob) 55 s /\
   nodedef (fun _ => false) (fun _ => Fault Oob) 100 s <> Fault Fuel) /\
  sourcefile (fun _ => false) (fun _ => Fault Oob) s <> Fault Fuel /\
  yyparse (fun _ => false) (fun _ => Fault Oob) no_tree (str "/dts-v1/; /\
 { a = <( - ") w_files <> Fault Fuel.
Proof.
  intros s. destruct (parser_fuel (fun _ => false) (fun _ => Fault Oob) (fun _ => ltac:(discriminate))) as [H Hy].
  split; [vm_compute; reflexivity|]. assert (Hs : scanned (p_toks s)) by (vm_compute; exact I).
  destruct (H s Hs) as (_ & (_ & Hn & _) & _ & _ & Hf).
  split; [|by split; [|apply Hy]]. apply (Hn 100%nat). vm_compute. lia.
Defined.

(** C33. Reading a blob never leaves it: for a file of any contents with a
    header of version 16 or later in it, and no property of 2 GiB or more,
    [dt_from_blob] returns a tree or reports an error; it reads no byte
    outside the blob, overflows no [int] and does not loop for ever. *)
Theorem dt_from_blob_in_bounds f total_size off_dt :
  zlen f <= INT_MAX - 8 -> hdr_word f 4 = Ret total_size -> hdr_word f 8 = Ret off_dt -> 40 <= total_size ->
  (forall v, hdr_word f 20 = Ret v -> 16 <= v) ->
  (forall k v, 0 <= k -> k mod 4 = 0 -> hdr_word f (off_dt + k) = Ret FDT_PROP ->
     hdr_word f (off_dt + k + 4) = Ret v -> v <= INT_MAX) ->
  dt_from_blob f = Fault Die \/ exists dti, dt_from_blob f = Ret dti /\ n_deleted (dt dti) = false.
Proof.
  intros Hs Ht Hd H40 Hv Hl. pose proof (dt_from_blob_safe f total_size off_dt Hs Ht Hd H40 Hv Hl) as W.
  destruct (dt_from_blob f) as [dti|e]; cbn [wp] in W; [right; by exists dti|left; by rewrite W].
Qed.

(** A blob cut in its structure block. *)
Definition cut_blob : list byte :=
  match dt_to_blob d_opts d_dti 17 with
  | Ret b => take 4 b ++ be_enc32 140 ++ drop 8 (take 140 b)
  | _ => []
  end.

Theorem dt_from_blob_in_bounds_witness :
  dt_from_blob cut_blob = Fault Die /\
  (dt_from_blob cut_blob = Fault Die \/ exists dti, dt_from_blob cut_blob = Ret dti /\ n_deleted (dt dti) = false).
Proof.
  split; [vm_compute; reflexivity|].
  apply (dt_from_blob_in_bounds cut_blob 140 104);
    [vm_compute; discriminate|vm_compute; reflexivity|vm_compute; reflexivity|vm_compute; discriminate| |].
  - intros v Hv. vm_compute in Hv. injection Hv as <-. vm_compute. discriminate.
  - apply lens_ok_sound; [vm_compute; discriminate|vm_compute; reflexivity].
Defined.

(** C34. Reading an escaped string is safe: for any characters with a NUL
    somewhere behind them, [data_copy_escape_string] returns a buffer of at
    most one byte more than the characters that ends in a NUL, or reports a
    bad hexadecimal escape; it reads nothing behind that NUL and writes
    nothing outside its buffer. *)
Theorem escape_string_safe s rest :
  zlen s < INT_MAX -> x00 ∈ rest ->
  data_copy_escape_string (s ++ rest) (zlen s) = Fault Die \/
  exists d, data_copy_escape_string (s ++ rest) (zlen s) = Ret d /\
    zlen (d_val d) <= zlen s + 1 /\ last (d_val d) = Some x00.
Proof.
  intros Hl Hr. pose proof (escape_safe s rest Hl Hr) as W.
  destruct (data_copy_escape_string _ _) as [d|e]; cbn [wp] in W; [right; by exists d|left; by rewrite W].
Qed.

Theorem escape_string_safe_witness :
  let s := str "ab\" in
  data_copy_escape_string (s ++ [x22; x00]) (zlen s) = Fault Die \/
  exists d, data_copy_escape_string (s ++ [x22; x00]) (zlen s) = Ret d /\
    zlen (d_val d) <= zlen s + 1 /\ last (d_val d) = Some x00.
Proof. intros s. apply escape_string_safe; [vm_compute; reflexivity|right; left]. Defined.

