(* ===== verification/SimSoftfloat.v ===== *)
(** sim/dpi_softfloat.c: the simulation's calls into the Berkeley SoftFloat
    library, which is not in the repository: its state and its operations are
    parameters. A floating-point number is its bits. *)
From S2P Require Import Prelude.

Section dpi.
(** The rounding modes of softfloat.h. *)
Context (softfloat_round_near_even softfloat_round_minMag softfloat_round_min softfloat_round_max
  softfloat_round_near_maxMag : Z).
(** The library's variables, and those the calls set and read. *)
Context (lib : Type) (set_roundingMode set_exceptionFlags : Z -> lib -> lib) (exceptionFlags : lib -> Z).
(** Its operations. *)
Context (f32_add f32_sub f32_mul f32_div f64_add f64_sub f64_mul f64_div : Z -> Z -> lib -> Z * lib).
Context (f32_mulAdd f64_mulAdd : Z -> Z -> Z -> lib -> Z * lib).
Context (f32_sqrt f64_sqrt f64_to_f32 f32_to_f64 : Z -> lib -> Z * lib).
Context (i32_to_f32 ui32_to_f32 i32_to_f64 ui32_to_f64 : Z -> lib -> Z * lib).
Context (f32_to_i32 f32_to_ui32 f64_to_i32 f64_to_ui32 : Z -> Z -> bool -> lib -> Z * lib).

Definition get_softfloat_rm (rm : Z) : Z :=
  match rm with
  | 0 => softfloat_round_near_even
  | 1 => softfloat_round_minMag
  | 2 => softfloat_round_min
  | 3 => softfloat_round_max
  | 4 => softfloat_round_near_maxMag
  | _ => softfloat_round_near_even
  end.

Definition set_rm (rm : Z) (s : lib) : lib := set_exceptionFlags 0 (set_roundingMode (get_softfloat_rm rm) s).

(** [*res], [*fflags], a [uint8_t], and the library's state. *)
Definition result (r : Z * lib) : Z * Z * lib := (r.1, exceptionFlags r.2 mod 256, r.2).

Definition dpi_f32_add (a b rm : Z) (s : lib) : Z * Z * lib := result (f32_add a b (set_rm rm s)).
Definition dpi_f32_sub (a b rm : Z) (s : lib) : Z * Z * lib := result (f32_sub a b (set_rm rm s)).
Definition dpi_f32_mul (a b rm : Z) (s : lib) : Z * Z * lib := result (f32_mul a b (set_rm rm s)).
Definition dpi_f32_div (a b rm : Z) (s : lib) : Z * Z * lib := result (f32_div a b (set_rm rm s)).
Definition dpi_f64_add (a b rm : Z) (s : lib) : Z * Z * lib := result (f64_add a b (set_rm rm s)).
Definition dpi_f64_sub (a b rm : Z) (s : lib) : Z * Z * lib := result (f64_sub a b (set_rm rm s)).
Definition dpi_f64_mul (a b rm : Z) (s : lib) : Z * Z * lib := result (f64_mul a b (set_rm rm s)).
Definition dpi_f64_div (a b rm : Z) (s : lib) : Z * Z * lib := result (f64_div a b (set_rm rm s)).
Definition dpi_f32_mulAdd (a b c rm : Z) (s : lib) : Z * Z * lib := result (f32_mulAdd a b c (set_rm rm s)).
Definition dpi_f64_mulAdd (a b c rm : Z) (s : lib) : Z * Z * lib := result (f64_mulAdd a b c (set_rm rm s)).
Definition dpi_f32_sqrt (a rm : Z) (s : lib) : Z * Z * lib := result (f32_sqrt a (set_rm rm s)).
Definition dpi_f64_sqrt (a rm : Z) (s : lib) : Z * Z * lib := result (f64_sqrt a (set_rm rm s)).
Definition dpi_f64_to_f32 (a rm : Z) (s : lib) : Z * Z * lib := result (f64_to_f32 a (set_rm rm s)).
Definition dpi_f32_to_f64 (a rm : Z) (s : lib) : Z * Z * lib := result (f32_to_f64 a (set_rm rm s)).
Definition dpi_i32_to_f32 (a rm : Z) (s : lib) : Z * Z * lib := result (i32_to_f32 a (set_rm rm s)).
Definition dpi_ui32_to_f32 (a rm : Z) (s : lib) : Z * Z * lib := result (ui32_to_f32 a (set_rm rm s)).
Definition dpi_i32_to_f64 (a rm : Z) (s : lib) : Z * Z * lib := result (i32_to_f64 a (set_rm rm s)).
Definition dpi_ui32_to_f64 (a rm : Z) (s : lib) : Z * Z * lib := result (ui32_to_f64 a (set_rm rm s)).
Definition dpi_f32_to_i32 (a rm : Z) (s : lib) : Z * Z * lib :=
  let '(v, s) := f32_to_i32 a (get_softfloat_rm rm) true (set_rm rm s) in result (s32 v, s).
Definition dpi_f32_to_ui32 (a rm : Z) (s : lib) : Z * Z * lib :=
  let '(v, s) := f32_to_ui32 a (get_softfloat_rm rm) true (set_rm rm s) in result (u32 v, s).
Definition dpi_f64_to_i32 (a rm : Z) (s : lib) : Z * Z * lib :=
  let '(v, s) := f64_to_i32 a (get_softfloat_rm rm) true (set_rm rm s) in result (s32 v, s).
Definition dpi_f64_to_ui32 (a rm : Z) (s : lib) : Z * Z * lib :=
  let '(v, s) := f64_to_ui32 a (get_softfloat_rm rm) true (set_rm rm s) in result (u32 v, s).

(** ** The calls do not depend on one another

    Setting a variable twice is setting it once, the two variables are set
    independently, and the operations look at no other variable that changes:
    what an operation leaves is its input up to these two. *)
Context (like : lib -> lib -> Prop).
Context (like_set : forall rm s s', like s s' -> set_rm rm s = set_rm rm s').

(** So result and flags of a call are those of the call alone: flags raised
    before it are not reported again, and an earlier rounding mode has no
    effect. *)
Lemma dpi_alone (op : lib -> Z * lib) rm s s' : like s s' -> result (op (set_rm rm s)) = result (op (set_rm rm s')).
Proof using like_set. intros H. by rewrite (like_set rm s s' H). Qed.

(** A rounding mode outside the five is rounding to nearest even. *)
Lemma other_rm rm s : rm < 0 \/ 4 < rm -> set_rm rm s = set_rm 0 s.
Proof using.
  intros H. unfold set_rm. assert (get_softfloat_rm rm = get_softfloat_rm 0) as ->; [|done].
  unfold get_softfloat_rm. destruct rm as [|p|p]; [lia| |done].
  destruct p as [[p|p|]|[p|[p|p|]|]|]; try done; lia.
Qed.
End dpi.
