(* ===== verification/ToolWorld.v ===== *)
(** The surroundings of the command line tools: heap, files and output
    streams, and the programs that change them. *)
From S2P Require Import Prelude Monad Memory Ctype Libfdt.

(** ** The state

    [w_blocks] gives the size of each allocated block; [w_brk] is above all of
    them. What a tool is given and cannot influence: the contents of fresh
    memory and of an unset variable, the input files ([None] cannot be
    opened), what a [read] or [write] of [n] bytes at an offset returns (a
    negative error, or a count, of which at least one byte and at most those
    asked for and there are taken), and the texts of error numbers. *)
Record env := Env {
  e_junk : Z -> byte;
  e_unset : Z;
  e_file : list byte -> option (list byte);
  e_stdin : list byte;
  e_read : Z -> Z -> Z;
  e_creat : list byte -> Z;
  e_write : Z -> Z -> Z;
  e_strerror : Z -> list byte;
  e_version : list byte;
}.

Record world := World {
  w_mem : mem;
  w_brk : Z;
  w_blocks : gmap Z Z;
  w_out : list byte;
  w_err : list byte;
  w_written : list (list byte * list byte);
}.

(** ** Programs *)

Definition prog (A : Type) : Type := env -> world -> res (A * world).

Definition pret {A} (a : A) : prog A := fun _ w => Ret (a, w).
Definition pbind {A B} (c : prog A) (k : A -> prog B) : prog B :=
  fun e w => let! '(a, w) := c e w in k a e w.

Declare Scope prog_scope.
Delimit Scope prog_scope with prog.
Open Scope prog_scope.

Notation "'let*' x := e 'in' k" := (pbind e (fun x => k))
  (at level 10, x binder, e at level 200, k at level 200,
   format "'let*'  x  :=  e  'in' '//' k") : prog_scope.
Notation "'let*' ' p := e 'in' k" := (pbind e (fun p => k))
  (at level 10, p strict pattern, e at level 200, k at level 200,
   format "'let*'  ' p  :=  e  'in' '//' k") : prog_scope.
Notation "'do*' e 'in' k" := (pbind e (fun _ => k))
  (at level 10, e at level 200, k at level 200, format "'do*'  e  'in' '//' k") : prog_scope.

Definition lift {A} (r : res A) : prog A := fun _ w => let! a := r in Ret (a, w).

(** Reading the memory, and a call that changes it. *)
Definition reading {A} (f : mem -> res A) : prog A := fun _ w => let! a := f (w_mem w) in Ret (a, w).

Definition set_mem (m : mem) (w : world) : world :=
  World m (w_brk w) (w_blocks w) (w_out w) (w_err w) (w_written w).

Definition changing {A} (f : mem -> res (A * mem)) : prog A :=
  fun _ w => let! '(a, m) := f (w_mem w) in Ret (a, set_mem m w).

Definition storing (f : mem -> res mem) : prog unit :=
  fun _ w => let! m := f (w_mem w) in Ret (tt, set_mem m w).

Definition printf (s : list byte) : prog unit :=
  fun _ w => Ret (tt, World (w_mem w) (w_brk w) (w_blocks w) (w_out w ++ s) (w_err w) (w_written w)).
Definition eprintf (s : list byte) : prog unit :=
  fun _ w => Ret (tt, World (w_mem w) (w_brk w) (w_blocks w) (w_out w) (w_err w ++ s) (w_written w)).
Definition puts (s : list byte) : prog unit := printf (s ++ [nl]).

(** [die()], and [usage()], which end the process. *)
Definition die {A} : prog A := lift (Fault Die).

Definition ploop {S A} (body : S -> prog (ctl S A)) (s : S) : prog A :=
  fun e w => loop (fun '(s, w) =>
    let! '(c, w) := body s e w in
    Ret match c with Continue s => Continue (s, w) | Break a => Break (a, w) end) (s, w).

Definition pwhen (b : bool) (p : prog unit) : prog unit := if b then p else pret tt.

(** The options one after the other. *)
Fixpoint fold_res {A B} (f : B -> A -> res B) (l : list A) (b : B) : res B :=
  match l with
  | [] => Ret b
  | a :: l => let! b := f b a in fold_res f l b
  end.

(** ** The heap: every block is new; memory that was freed is gone *)

Definition xmalloc (n : Z) : prog Z := fun e w =>
  if n <? 0 then Fault Die else (* more than there is *)
  let p := w_brk w in
  let m := upd (w_mem w) p (map (fun i => e_junk e (p + Z.of_nat i)) (seq 0 (Z.to_nat n))) in
  Ret (p, World m (align_up (p + n + 1) 16) (<[p := n]> (w_blocks w)) (w_out w) (w_err w) (w_written w)).

Definition mem_free (m : mem) (p n : Z) : mem :=
  fold_right (fun i m => delete (p + Z.of_nat i) m) m (seq 0 (Z.to_nat n)).

Definition free (p : Z) : prog unit := fun _ w =>
  match w_blocks w !! p with
  | Some n => Ret (tt, World (mem_free (w_mem w) p n) (w_brk w) (delete p (w_blocks w)) (w_out w) (w_err w) (w_written w))
  | None => Fault Oob
  end.

(** [None] is NULL. *)
Definition xrealloc (p : option Z) (n : Z) : prog Z :=
  match p with
  | None => xmalloc n
  | Some p => fun e w =>
    match w_blocks w !! p with
    | Some old =>
      (let* q := xmalloc n in
       do* storing (fun m => memmove m q p (Z.min old n)) in
       do* free p in pret q) e w
    | None => Fault Oob
    end
  end.

Definition free_opt (p : option Z) : prog unit :=
  match p with Some p => free p | None => pret tt end.
