(* ===== verification/ToolUtil.v ===== *)
(** dtc/util.c, the part of the command line tools: files, the format option,
    and values as text. *)
From S2P Require Import Prelude Monad Memory Ctype Libfdt ToolWorld.

Definition ENOENT : Z := 2.

(** How much of [left] bytes a call that asks for [n] and returned [r] takes. *)
Definition taken (r n left : Z) : Z := Z.max 0 (Z.min (Z.max 1 r) (Z.min n left)).

Definition sub_bytes (l : list byte) (off n : Z) : list byte := take (Z.to_nat n) (drop (Z.to_nat off) l).

(** Returns the error number, [*buffp], and [*len] where it is set. *)
Definition utilfdt_read_err (filename : list byte) : prog (Z * option Z * option Z) := fun e w =>
  match (if streq filename (str "-") then Some (e_stdin e) else e_file e filename) with
  | None => Ret (ENOENT, None, None, w)
  | Some data => (
    (* Loop until we have read everything *)
    let* buf := xmalloc 1024 in
    let* '(ret, buf, bufsize) := ploop (fun '(buf, bufsize, offset) =>
      (* Expand the buffer to hold the next chunk *)
      let* '(buf, bufsize) :=
        (if offset =? bufsize then
           let bufsize := bufsize * 2 in
           let* buf := xrealloc (Some buf) bufsize in pret (buf, bufsize)
         else pret (buf, bufsize)) in
      let n := bufsize - offset in
      let ret := e_read e offset n in
      if ret <? 0 then pret (Break (- ret, buf, bufsize)) else
      let ret := taken ret n (zlen data - offset) in
      do* storing (fun m => store_bytes m (buf + offset) (sub_bytes data offset ret)) in
      let offset := offset + ret in
      if negb (ret =? 0) then pret (Continue (buf, bufsize, offset)) else pret (Break (0, buf, bufsize)))
      (buf, 1024, 0) in
    (* Clean up; return errno on error *)
    if negb (ret =? 0) then
      do* free buf in pret (ret, None, Some bufsize)
    else pret (ret, Some buf, Some bufsize)) e w
  end.

Definition utilfdt_read (filename : list byte) : prog (option Z * option Z) := fun e w =>
  (let* '(ret, buff, len) := utilfdt_read_err filename in
   if negb (ret =? 0) then
     do* eprintf (str "Couldn't open blob from '" ++ filename ++ str "': " ++ e_strerror e ret ++ [nl]) in
     pret (None, len)
   else pret (buff, len)) e w.

(** The bytes that were written go to the end of the output. *)
Definition written (filename bytes : list byte) : prog unit := fun _ w =>
  Ret (tt, World (w_mem w) (w_brk w) (w_blocks w) (if streq filename (str "-") then w_out w ++ bytes else w_out w) (w_err w)
    (if streq filename (str "-") then w_written w else w_written w ++ [(filename, bytes)])).

(** The whole output of one call is one entry of [w_written]. *)
Definition utilfdt_write_err (filename : list byte) (blob : Z) : prog Z := fun e w =>
  let fd := if streq filename (str "-") then 0 else e_creat e filename in
  if fd <? 0 then Ret (- fd, w) else (
  let* totalsize := reading (fun m => fdt_totalsize m blob) in
  let totalsize := s32 totalsize in
  let* '(ret, bytes) := ploop (fun '(offset, bytes) =>
    if offset <? totalsize then
      let ret := e_write e offset (totalsize - offset) in
      if ret <? 0 then pret (Break (ret, bytes)) else
      let ret := taken ret (totalsize - offset) (totalsize - offset) in
      let* l := reading (fun m => load_bytes m (blob + offset) ret) in
      pret (Continue (offset + ret, bytes ++ l))
    else pret (Break (0, bytes))) (0, []) in
  do* written filename bytes in
  pret (if ret <? 0 then - ret else 0)) e w.

Definition utilfdt_write (filename : list byte) (blob : Z) : prog Z := fun e w =>
  (let* ret := utilfdt_write_err filename blob in
   if negb (ret =? 0) then
     do* eprintf (str "Couldn't write blob to '" ++ filename ++ str "': " ++ e_strerror e ret ++ [nl]) in
     pret (- 1)
   else pret 0) e w.

(** ** The format option

    [fmt] is a string, [type] 0 or a character. Returns the result, [*type] and
    [*size]. *)
Definition utilfdt_decode_type (fmt : list byte) (type : byte) (size : Z) : Z * byte * Z :=
  match fmt with
  | [] => (- 1, type, size)
  | c :: rest =>
    (* get the conversion qualifier *)
    let '(qualifier, fmt) :=
      if bool_decide (c ∈ str "hlLb") then
        match rest with
        | c' :: rest' => if bool_decide (c' = c) then ((if bool_decide (c = "h"%byte) then "b"%byte else c), rest')
                         else (c, rest)
        | [] => (c, rest)
        end
      else (x00, fmt) in
    (* we should now have a type *)
    match fmt with
    | [] => (- 1, type, - 1)
    | t :: rest =>
      if negb (bool_decide (t ∈ str "iuxs")) then (- 1, type, - 1) else
      (* convert qualifier (bhL) to byte size *)
      let size :=
        if bool_decide (t = "s"%byte) then - 1
        else if bool_decide (qualifier = "b"%byte) then 1
        else if bool_decide (qualifier = "h"%byte) then 2
        else if bool_decide (qualifier = "l"%byte) then 4 else - 1 in
      (* that should be it! *)
      ((if bool_decide (rest = []) then 0 else - 1), t, size)
    end
  end.

(** ** Values as text *)

(** [util_is_printable_string] on memory: [len] may be anything. *)
Definition is_printable_at (m : mem) (data len : Z) : res bool :=
  (* zero length is not *)
  if len =? 0 then Ret false else
  (* must terminate with zero *)
  let! c := ld8 m (data + len - 1) in
  if negb (bool_decide (c = x00)) then Ret false else
  let se := data + len in
  loop (fun s =>
    if s <? se then
      let ss := s in
      let! s := loop (fun s =>
        if s <? se then
          let! c := ld8 m s in
          if negb (bool_decide (c = x00)) && isprint c then Ret (Continue (s + 1)) else Ret (Break s)
        else Ret (Break s)) s in
      (* not zero, or not done yet *)
      let! c := ld8 m s in
      if negb (bool_decide (c = x00)) || (s =? ss) then Ret (Break false) else Ret (Continue (s + 1))
    else Ret (Break true)) data.

(** Numbered items with a separator between them. *)
Definition items_upto (n : Z) (f : Z -> res (list byte)) (sep : list byte) : res (list byte) :=
  loop (fun '(i, out) =>
    if i <? n then
      let! s := f i in
      Ret (Continue (i + 1, out ++ s ++ (if i <? n - 1 then sep else [])))
    else Ret (Break out)) (0, []).

(** What [utilfdt_print_data] prints. *)
Definition utilfdt_print_data (m : mem) (data len : Z) : res (list byte) :=
  (* no data, don't print *)
  if len =? 0 then Ret [] else
  let! printable := is_printable_at m data len in
  if printable then
    loop (fun '(s, out) =>
      let! t := load_str m s in
      let out := out ++ quote :: t ++ [quote] in
      let s := s + zlen t + 1 in
      if s <? data + len then Ret (Continue (s, out ++ str ", ")) else Ret (Break out))
      (data, str " = ")
  else if Z.rem len 4 =? 0 then
    let! out := items_upto (Z.quot len 4) (fun i =>
      let! v := ld32 m (data + 4 * i) in Ret (str "0x" ++ fmt_x 8 v)) (str " ") in
    Ret (str " = <" ++ out ++ str ">")
  else
    let! out := items_upto len (fun i => let! c := ld8 m (data + i) in Ret (fmt_x 2 (b2z c))) (str " ") in
    Ret (str " = [" ++ out ++ str "]").
