(* ===== verification/ToolPut.v ===== *)
(** dtc/fdtput.c: properties and nodes of a blob set, added and removed. *)
From S2P Require Import Prelude Monad Memory Ctype Libfdt FdtRo FdtCheck FdtRw ToolWorld ToolUtil.

Inductive oper_type :=
| OPER_WRITE_PROP    (* Write a property in a node *)
| OPER_CREATE_NODE   (* Create a new node *)
| OPER_REMOVE_NODE   (* Delete a node *)
| OPER_DELETE_PROP.  (* Delete a property in a node *)

Record display_info := DisplayInfo {
  oper : oper_type;    (* operation to perform *)
  type : byte;         (* data type (s/i/u/x or 0 for default) *)
  size : Z;            (* data size (1/2/4) *)
  verbose : bool;      (* verbose output *)
  auto_path : bool;    (* automatically create all path components *)
}.

Definition report_error (name : list byte) (err : Z) : prog unit :=
  let* s := lift (fdt_strerror err) in
  eprintf (str "Error at '" ++ (if bool_decide (name = []) then str " " else name) ++ str "': " ++ s ++ [nl]).

(** [sscanf(s, fmt, &ival)] with the conversion [type], or %d; [None] when
    nothing is stored. A number that does not fit is undefined. *)
Definition scan_number (base : Z) (s : list byte) : option Z :=
  match strtol_digits base 0 0 s with
  | (_, 0) => None
  | (v, _) => Some v
  end.

Definition scan_unsigned (type : byte) (s : list byte) : option Z :=
  let hex := bool_decide (type = "x"%byte) in
  let auto := bool_decide (type = "i"%byte) in
  match s with
  | "0"%byte :: x :: r =>
    if (hex || auto) && (bool_decide (x = "x"%byte) || bool_decide (x = "X"%byte)) then scan_number 16 r
    else scan_number (if hex then 16 else if auto then 8 else 10) s
  | _ => scan_number (if hex then 16 else 10) s
  end.

Definition sscanf_int (type : byte) (s : list byte) : res (option Z) :=
  let '(s, _) := skip_space s in
  let '(neg, s) :=
    match s with
    | "-"%byte :: s => (true, s)
    | "+"%byte :: s => (false, s)
    | _ => (false, s)
    end in
  match scan_unsigned type s with
  | None => Ret None
  | Some v =>
    let v := if neg then - v else v in
    if bool_decide (type = "u"%byte) || bool_decide (type = "x"%byte) then
      if (- UINT32_MAX <=? v) && (v <=? UINT32_MAX) then Ret (Some (s32 v)) else Fault Ovf
    else if (INT_MIN <=? v) && (v <=? INT_MAX) then Ret (Some v) else Fault Ovf
  end.

(** One argument stored at [ptr], with [len] bytes of room; returns [ival]. *)
Definition encode_one (disp : display_info) (a : list byte) (ptr len ival : Z) : prog Z :=
  if bool_decide (type disp = "s"%byte) then
    do* storing (fun m => store_bytes m ptr (a ++ [x00])) in
    do* pwhen (verbose disp) (eprintf (tab :: str "string: '" ++ a ++ str "'" ++ [nl])) in
    pret ival
  else
    let* scanned := lift (sscanf_int (type disp) a) in
    let ival := default ival scanned in
    do* storing (fun m => if len =? 4 then st32 m ptr (u32 ival) else store_bytes m ptr [z2b ival]) in
    do* pwhen (verbose disp)
      (eprintf (tab :: (if size disp =? 1 then str "byte" else if size disp =? 2 then str "short" else str "int") ++
         str ": " ++ fmt_d ival ++ [nl])) in
    pret ival.

(** Returns [*valuep] and [*value_len]; the result is always 0. *)
Definition encode_value (disp : display_info) (arg : list (list byte)) : prog (option Z * Z) := fun e w =>
  (do* pwhen (verbose disp) (eprintf (str "Decoding value:" ++ [nl])) in
   ploop (fun '(arg, value, value_size, upto, ival) =>
     match arg with
     | [] =>
       do* pwhen (verbose disp) (eprintf (str "Value size " ++ fmt_d upto ++ [nl])) in
       pret (Break (value, upto))
     | a :: arg =>
       (* assume integer unless told otherwise *)
       let len := if bool_decide (type disp = "s"%byte) then zlen a + 1
                  else if size disp =? - 1 then 4 else size disp in
       (* enlarge our value buffer by a suitable margin if needed *)
       let* '(value, value_size) :=
         (if value_size <? upto + len then
            let value_size := upto + len + 500 in
            let* value := xrealloc value value_size in pret (Some value, value_size)
          else pret (value, value_size)) in
       let* v := lift (nonnull value) in
       let* ival := encode_one disp a (v + upto) len ival in
       pret (Continue (arg, value, value_size, upto + len, ival))
     end) (arg, None, 0, 0, e_unset e)) e w.

(** ** Room *)

Definition realloc_fdt (fdt delta : Z) : prog Z :=
  let* totalsize := reading (fun m => fdt_totalsize m fdt) in
  let new_sz := s32 (totalsize + delta) in
  let* fdt := xrealloc (Some fdt) new_sz in
  let* _ := changing (fun m => fdt_open_into m fdt fdt new_sz) in
  pret fdt.

(** FDT_BEGIN_NODE, node name in off_struct and FDT_END_NODE. *)
Definition realloc_node (fdt : Z) (name : list byte) : prog Z :=
  realloc_fdt fdt (s32 (4 + align_up (zlen name + 1) 4 + FDT_TAGSIZE)).

Definition realloc_property (fdt nodeoffset : Z) (name : list byte) (newlen : Z) : prog Z :=
  let* '(prop, oldlen) := reading (fun m => fdt_get_property m fdt nodeoffset name) in
  (* strings + property header *)
  let delta := if is_null prop then s32 (12 + zlen name + 1) else 0 in
  (* actual value in off_struct *)
  let delta := if oldlen <? newlen then s32 (delta + align_up newlen 4 - align_up oldlen 4) else delta in
  realloc_fdt fdt delta.

(** ** The operations: the result and [*blob] *)

Definition store_key_value (blob : Z) (node_name property : list byte) (buf : option Z) (len : Z) : prog (Z * Z) :=
  let* node := reading (fun m => fdt_path_offset m blob node_name) in
  if node <? 0 then do* report_error node_name node in pret (- 1, blob) else
  let set blob :=
    let* val := reading (fun m => load_bytes m (default 0 buf) len) in
    changing (fun m => fdt_setprop m blob node property val) in
  let* err := set blob in
  let* '(err, blob) :=
    (if err =? - FDT_ERR_NOSPACE then
       let* blob := realloc_property blob node property len in
       let* err := set blob in pret (err, blob)
     else pret (err, blob)) in
  if negb (err =? 0) then do* report_error property err in pret (- 1, blob) else pret (0, blob).

(** Create paths as needed for all components of a path. *)
Definition create_paths (blob : Z) (in_path : list byte) : prog (Z * Z) :=
  (* skip leading '/' *)
  let path := drop_slashes in_path in
  if bool_decide (path = []) then pret (0, blob) else
  ploop (fun '(blob, path, offset) =>
    let '(name, rest) :=
      match split_char "/"%byte path with
      | Some (name, rest) => (name, Some rest)
      | None => (path, None)
      end in
    let* node := reading (fun m => fdt_subnode_offset_namelen m blob offset name) in
    let* '(node, blob) :=
      (if node =? - FDT_ERR_NOTFOUND then
         let* blob := realloc_node blob path in
         let* node := changing (fun m => fdt_add_subnode_namelen m blob offset name) in
         pret (node, blob)
       else pret (node, blob)) in
    if node <? 0 then do* report_error name node in pret (Break (- 1, blob)) else
    match rest with
    | Some rest => pret (Continue (blob, rest, node))
    | None => pret (Break (0, blob))
    end) (blob, path, 0).

(** What is before and after the last [c]. *)
Fixpoint split_last (c : byte) (s : list byte) : option (list byte * list byte) :=
  match s with
  | [] => None
  | x :: s =>
    match split_last c s with
    | Some (a, b) => Some (x :: a, b)
    | None => if bool_decide (x = c) then Some ([], s) else None
    end
  end.

Definition create_node (blob : Z) (node_name : list byte) : prog (Z * Z) :=
  match split_last "/"%byte node_name with
  | None => do* report_error node_name (- FDT_ERR_BADPATH) in pret (- 1, blob)
  | Some (dir, base) =>
    let* blob := realloc_node blob base in
    let* node := (if bool_decide (dir = []) then pret 0 else reading (fun m => fdt_path_offset m blob dir)) in
    if node <? 0 then do* report_error dir node in pret (- 1, blob) else
    let* node := changing (fun m => fdt_add_subnode m blob node base) in
    if node <? 0 then do* report_error base node in pret (- 1, blob) else pret (0, blob)
  end.

Definition delete_prop (blob : Z) (node_name prop_name : list byte) : prog Z :=
  let* node := reading (fun m => fdt_path_offset m blob node_name) in
  if node <? 0 then do* report_error node_name node in pret (- 1) else
  let* node := changing (fun m => fdt_delprop m blob node prop_name) in
  if node <? 0 then do* report_error node_name node in pret (- 1) else pret 0.

Definition delete_node (blob : Z) (node_name : list byte) : prog Z :=
  let* node := reading (fun m => fdt_path_offset m blob node_name) in
  if node <? 0 then do* report_error node_name node in pret (- 1) else
  let* node := changing (fun m => fdt_del_node m blob node) in
  if node <? 0 then do* report_error node_name node in pret (- 1) else pret 0.

(** [for (; ret >= 0 && arg_count--; arg++) ret = f(arg)]: the last result. *)
Fixpoint each_arg (f : Z -> list byte -> prog (Z * Z)) (args : list (list byte)) (ret blob : Z) : prog (Z * Z) :=
  match args with
  | [] => pret (ret, blob)
  | a :: args =>
    if negb (0 <=? ret) then pret (ret, blob) else
    let* '(ret, blob) := f blob a in each_arg f args ret blob
  end.

Definition keep_blob (blob : Z) (p : prog Z) : prog (Z * Z) := let* ret := p in pret (ret, blob).

(** The switch of [do_fdtput]: [None] when it returns at once, and otherwise
    the result, the blob and the value. *)
Definition do_oper (disp : display_info) (blob : Z) (arg : list (list byte)) : prog (option (Z * Z * option Z)) :=
  match oper disp with
  | OPER_WRITE_PROP =>
    match arg with
    | node :: prop :: rest =>
      let* '(r, blob) := (if auto_path disp then create_paths blob node else pret (0, blob)) in
      if negb (r =? 0) then pret None else
      let* '(value, len) := encode_value disp rest in
      let* '(r, blob) := store_key_value blob node prop value len in
      pret (Some ((if negb (r =? 0) then - 1 else 0), blob, value))
    | _ => lift (Fault Abort)
    end
  | OPER_CREATE_NODE =>
    let* '(ret, blob) := each_arg (if auto_path disp then create_paths else create_node) arg 0 blob in
    pret (Some (ret, blob, None))
  | OPER_REMOVE_NODE =>
    let* '(ret, blob) := each_arg (fun blob a => keep_blob blob (delete_node blob a)) arg 0 blob in
    pret (Some (ret, blob, None))
  | OPER_DELETE_PROP =>
    match arg with
    | node :: props =>
      let* '(ret, blob) := each_arg (fun blob a => keep_blob blob (delete_prop blob node a)) props 0 blob in
      pret (Some (ret, blob, None))
    | [] => lift (Fault Oob)
    end
  end.

Definition do_fdtput (disp : display_info) (filename : list byte) (arg : list (list byte)) : prog Z :=
  let* '(blob, _) := utilfdt_read filename in
  match blob with
  | None => pret (- 1)
  | Some blob =>
    let* r := do_oper disp blob arg in
    match r with
    | None => pret (- 1)
    | Some (ret, blob, value) =>
      let* ret :=
        (if 0 <=? ret then
           let* _ := changing (fun m => fdt_pack m blob) in
           utilfdt_write filename blob
         else pret ret) in
      do* free blob in
      do* free_opt value in
      pret ret
    end
  end.

(** [main] after [getopt_long], as for fdtget. *)
Definition fdtput_option (disp : display_info) (opt : byte * list byte) : res display_info :=
  let '(c, optarg) := opt in
  let set_oper o := Ret (DisplayInfo o (type disp) (size disp) (verbose disp) (auto_path disp)) in
  match c with
  | "c"%byte => set_oper OPER_CREATE_NODE
  | "r"%byte => set_oper OPER_REMOVE_NODE
  | "d"%byte => set_oper OPER_DELETE_PROP
  | "p"%byte => Ret (DisplayInfo (oper disp) (type disp) (size disp) (verbose disp) true)
  | "t"%byte =>
    let '(r, t, s) := utilfdt_decode_type optarg (type disp) (size disp) in
    if negb (r =? 0) then Fault Die else Ret (DisplayInfo (oper disp) t s (verbose disp) (auto_path disp))
  | "v"%byte => Ret (DisplayInfo (oper disp) (type disp) (size disp) true (auto_path disp))
  | _ => Fault Die (* -h, -V, or unknown *)
  end.

Definition fdtput_main (opts : list (byte * list byte)) (args : list (list byte)) : prog Z :=
  let* disp := lift (fold_res fdtput_option opts (DisplayInfo OPER_WRITE_PROP x00 (- 1) false false)) in
  match args with
  | [] => die (* missing filename *)
  | filename :: args =>
    let missing :=
      match oper disp with
      | OPER_WRITE_PROP => zlen args <? 2
      | OPER_DELETE_PROP => zlen args <? 1
      | _ => false
      end in
    if missing then die else
    let* r := do_fdtput disp filename args in
    pret (if negb (r =? 0) then 1 else 0)
  end.
