(* ===== verification/ToolHeap.v ===== *)
(** Reasoning about the tools' programs: total correctness from an environment
    and a state, the heap invariant, and what allocation keeps. *)
From S2P Require Import Prelude Monad Memory Libfdt Fdt FdtSpec FdtEdit FdtPack ToolWorld Ctype FdtTree FdtRo.
From S2P Require Import FdtWip FdtRead FdtNav FdtRw FdtRwSpec FdtRwProp Sample ToolUtil ToolPut.

(** ** Total correctness *)

(** [c] returns, with a result and a state of which [Q] holds. *)
Definition runs {A} (c : prog A) (e : env) (w : world) (Q : A -> world -> Prop) : Prop :=
  wp total (c e w) (fun '(a, w') => Q a w').

Lemma runs_ret {A} (a : A) e w (Q : A -> world -> Prop) : Q a w -> runs (pret a) e w Q.
Proof. done. Qed.

Lemma runs_mono {A} (c : prog A) e w (P Q : A -> world -> Prop) :
  runs c e w P -> (forall a w', P a w' -> Q a w') -> runs c e w Q.
Proof. intros H K. eapply wp_mono; [exact H|]. intros [a w']. apply K. Qed.

Lemma runs_bind {A B} (c : prog A) (k : A -> prog B) e w (Q : B -> world -> Prop) :
  runs c e w (fun a w' => runs (k a) e w' Q) -> runs (pbind c k) e w Q.
Proof. intros H. apply wp_bind. eapply wp_mono; [exact H|]. intros [a w']. done. Qed.

Lemma runs_seq {A B} (c : prog A) (k : A -> prog B) e w (P : A -> world -> Prop) (Q : B -> world -> Prop) :
  runs c e w P -> (forall a w', P a w' -> runs (k a) e w' Q) -> runs (pbind c k) e w Q.
Proof. intros H K. apply runs_bind. eapply runs_mono; [exact H|exact K]. Qed.

Lemma runs_lift {A} (a : A) e w (Q : A -> world -> Prop) : Q a w -> runs (lift (Ret a)) e w Q.
Proof. done. Qed.

Lemma runs_reading {A} (f : mem -> res A) a e w (Q : A -> world -> Prop) :
  f (w_mem w) = Ret a -> Q a w -> runs (reading f) e w Q.
Proof. unfold runs, reading. intros ->. done. Qed.

Lemma runs_storing f m e w (Q : unit -> world -> Prop) :
  f (w_mem w) = Ret m -> Q tt (set_mem m w) -> runs (storing f) e w Q.
Proof. unfold runs, storing. intros ->. done. Qed.

Lemma runs_changing {A} (f : mem -> res (A * mem)) a m e w (Q : A -> world -> Prop) :
  f (w_mem w) = Ret (a, m) -> Q a (set_mem m w) -> runs (changing f) e w Q.
Proof. unfold runs, changing. intros ->. done. Qed.

Lemma runs_ret_inv {A} (c : prog A) e w (Q : A -> world -> Prop) :
  runs c e w Q <-> exists a w', c e w = Ret (a, w') /\ Q a w'.
Proof.
  unfold runs. rewrite wp_total_ex. split.
  - intros ([a w'] & E & H). eauto.
  - intros (a & w' & E & H). exists (a, w'). done.
Qed.

Lemma runs_of {A} (c : prog A) e w (Q : A * world -> Prop) : runs c e w (fun a w' => Q (a, w')) -> wp total (c e w) Q.
Proof. intros H. eapply wp_mono; [exact H|]. by intros [a w']. Qed.

(** Inside a program that takes the environment and the state by name. *)
Ltac enter_prog := match goal with |- wp total (?c ?e ?w) _ => apply (runs_of c) end.

(** A loop with an invariant over its state and the world, and a measure. *)
Lemma runs_loop {S A} (I : S -> world -> Prop) (meas : S -> Z) (body : S -> prog (ctl S A)) s e w
    (Q : A -> world -> Prop) :
  I s w ->
  (forall s w, I s w -> 0 <= meas s < Z.pos loop_bound) ->
  (forall s w, I s w ->
    runs (body s) e w (fun r w' => match r with
                                   | Continue s' => I s' w' /\ meas s' < meas s
                                   | Break a => Q a w' end)) ->
  runs (ploop body s) e w Q.
Proof.
  intros Hs Hm Hb. unfold runs, ploop.
  apply (wp_loop total (fun '(s, w) => I s w) (fun '(s, w) => meas s)); [done| |].
  - intros [s0 w0] H0. by apply (Hm s0 w0).
  - intros [s0 w0] H0. apply wp_bind. eapply wp_mono; [apply (Hb s0 w0 H0)|]. by intros [[s1|a] w1].
Qed.

(** ** The heap *)

(** Blocks are allocated, aligned, apart and below [w_brk]. *)
Record heap_ok (w : world) : Prop := HeapOk {
  ho_brk : 0 < w_brk w;
  ho_align : w_brk w mod 16 = 0;
  ho_block : forall p n, w_blocks w !! p = Some n ->
    0 <= n /\ p mod 16 = 0 /\ p + n < w_brk w /\ valid (w_mem w) p n;
  ho_apart : forall p n q k, w_blocks w !! p = Some n -> w_blocks w !! q = Some k -> p <> q ->
    p + n < q \/ q + k < p;
}.

(** The blocks [P] of [w] are in [w'] as they were. *)
Definition kept (P : Z -> Prop) (w w' : world) : Prop :=
  forall p n, P p -> w_blocks w !! p = Some n ->
    w_blocks w' !! p = Some n /\ copied (w_mem w) p (w_mem w') p n.

(** Nothing was printed on the output, nor written to a file. *)
Definition quiet_io (w w' : world) : Prop := w_out w' = w_out w /\ w_written w' = w_written w.

Lemma kept_refl P w : kept P w w.
Proof. intros p n _ E. split; [done|]. intros i _. done. Qed.

Lemma kept_trans P w1 w2 w3 : kept P w1 w2 -> kept P w2 w3 -> kept P w1 w3.
Proof.
  intros H1 H2 p n Hp E. destruct (H1 p n Hp E) as [E2 C2]. destruct (H2 p n Hp E2) as [E3 C3].
  split; [done|]. exact (copied_trans _ _ _ _ _ _ _ C2 C3).
Qed.

Lemma kept_weak (P P' : Z -> Prop) w w' : kept P w w' -> (forall p, P' p -> P p) -> kept P' w w'.
Proof. intros H K p n Hp. apply H. by apply K. Qed.

#[export] Instance quiet_io_refl : Reflexive quiet_io.
Proof. by split. Qed.
#[export] Instance quiet_io_trans : Transitive quiet_io.
Proof. intros a b c [A1 A2] [B1 B2]. split; congruence. Qed.

(** A call that changes memory inside one block. *)
Lemma heap_call w m p n a k :
  heap_ok w -> w_blocks w !! p = Some n -> changes (w_mem w) m a k -> p <= a -> a + k <= p + n ->
  heap_ok (set_mem m w) /\ kept (fun q => q <> p) w (set_mem m w) /\ quiet_io w (set_mem m w).
Proof.
  intros [B A H S] E C Ha Hk. split; [|split; [|by split]].
  - split; cbn; [done|done| |done]. intros q j Eq. destruct (H q j Eq) as (? & ? & ? & Hv).
    split; [done|]. split; [done|]. split; [done|]. exact (changes_valid _ _ _ _ _ _ C Hv).
  - intros q j Hq Eq. split; [done|]. destruct (S q j p n Eq E Hq); (eapply changes_copied; [exact C|cbn; lia]).
Qed.

Lemma align16 x : align_up x 16 mod 16 = 0 /\ x <= align_up x 16.
Proof.
  change (align_up x 16) with (align_up x (2 ^ 4)). rewrite align_up_spec by lia. change (2 ^ 4) with 16.
  split; Z.to_euclidean_division_equations; lia.
Qed.

(** ** Allocation *)

Lemma xmalloc_runs n e w : 0 <= n -> heap_ok w ->
  runs (xmalloc n) e w (fun p w' => heap_ok w' /\ w_blocks w' !! p = Some n /\ w_blocks w !! p = None /\
    kept (fun _ => True) w w' /\ quiet_io w w').
Proof.
  intros Hn [B A H S]. unfold runs, xmalloc. destruct (Z.ltb_spec n 0); [lia|]. cbn [wp].
  set (l := map _ _). assert (zlen l = n) as El by (unfold l, zlen; rewrite length_map, length_seq; lia).
  pose proof (align16 (w_brk w + n + 1)) as [Ha1 Ha2].
  assert (w_blocks w !! w_brk w = None) as Hnew.
  { destruct (w_blocks w !! w_brk w) as [k|] eqn:E; [|done]. destruct (H _ _ E) as (? & ? & ? & ?). lia. }
  assert (forall p k, w_blocks w !! p = Some k -> valid (upd (w_mem w) (w_brk w) l) p k) as Hv.
  { intros p k E. apply upd_valid. apply (H p k E). }
  split; [|split; [cbn; by rewrite lookup_insert_eq|split; [done|split; [|by split]]]].
  - split; cbn; [lia|done| |].
    + intros p k E. destruct (decide (p = w_brk w)) as [->|Hne].
      * rewrite lookup_insert_eq in E. injection E as <-. split; [done|]. split; [done|]. split; [lia|].
        rewrite <- El. apply (bytes_at_valid _ _ l), upd_at.
      * rewrite lookup_insert_ne in E by done. destruct (H _ _ E) as (? & ? & ? & ?). split; [done|]. split; [done|].
        split; [lia|auto].
    + intros p k q j Ep Eq Hne. destruct (decide (p = w_brk w)) as [->|Hp], (decide (q = w_brk w)) as [->|Hq]; try done.
      * rewrite lookup_insert_eq in Ep. rewrite lookup_insert_ne in Eq by done. destruct (H _ _ Eq) as (? & ? & ? & ?). lia.
      * rewrite lookup_insert_eq in Eq. rewrite lookup_insert_ne in Ep by done. destruct (H _ _ Ep) as (? & ? & ? & ?). lia.
      * rewrite lookup_insert_ne in Ep, Eq by done. exact (S p k q j Ep Eq Hne).
  - intros p k _ E. split; [cbn; rewrite lookup_insert_ne; [done|congruence]|]. cbn. destruct (H _ _ E) as (? & ? & ? & ?).
    intros i Hi. apply upd_lookup_out. lia.
Qed.

Lemma mem_free_lookup m p n x : 0 <= n ->
  mem_free m p n !! x = if decide (p <= x < p + n) then None else m !! x.
Proof.
  intros Hn. unfold mem_free.
  assert (forall k s, fold_right (fun i m => delete (p + Z.of_nat i) m) m (seq s k) !! x =
    if decide (p + Z.of_nat s <= x < p + Z.of_nat (s + k)) then None else m !! x) as K.
  { induction k as [|k IH]; intros s; cbn [seq fold_right]; [case_decide; [lia|done]|].
    destruct (decide (x = p + Z.of_nat s)) as [->|Hne].
    - rewrite lookup_delete_eq, decide_True by lia. done.
    - rewrite lookup_delete_ne, IH by done. case_decide; [rewrite decide_True by lia|rewrite decide_False by lia]; done. }
  rewrite K. case_decide; [rewrite decide_True by lia|rewrite decide_False by lia]; done.
Qed.

Lemma free_runs p n e w : heap_ok w -> w_blocks w !! p = Some n ->
  runs (free p) e w (fun _ w' => heap_ok w' /\ kept (fun q => q <> p) w w' /\ quiet_io w w').
Proof.
  intros [B A H S] E. unfold runs, free. rewrite E. cbn [wp]. destruct (H _ _ E) as (Hn & _ & _ & _).
  assert (forall q k, q <> p -> w_blocks w !! q = Some k -> copied (w_mem w) q (mem_free (w_mem w) p n) q k) as K.
  { intros q k Hq Eq i Hi. rewrite mem_free_lookup, decide_False; [done| |done]. destruct (S q k p n Eq E Hq); lia. }
  split; [|split; [|by split]].
  - split; cbn; [done|done| |].
    + intros q k Eq. apply lookup_delete_Some in Eq as [Hq Eq]. destruct (H _ _ Eq) as (? & ? & ? & Hv). split; [done|].
      split; [done|]. split; [done|]. exact (valid_copied _ _ _ _ _ Hv (K _ _ (not_eq_sym Hq) Eq)).
    + intros q k r j [_ Eq]%lookup_delete_Some [_ Er]%lookup_delete_Some. by apply S.
  - intros q k Hq Eq. split; [cbn; by rewrite lookup_delete_ne|]. cbn. by apply K.
Qed.

Lemma xrealloc_runs p old n e w : 0 <= n -> heap_ok w -> w_blocks w !! p = Some old ->
  runs (xrealloc (Some p) n) e w (fun q w' => heap_ok w' /\ w_blocks w' !! q = Some n /\ w_blocks w !! q = None /\
    copied (w_mem w) p (w_mem w') q (Z.min old n) /\ kept (fun x => x <> p) w w' /\ quiet_io w w').
Proof.
  intros Hn Hok E. unfold runs, xrealloc. rewrite E. enter_prog.
  destruct (ho_block _ Hok _ _ E) as (Ho & _ & _ & _).
  eapply runs_seq; [exact (xmalloc_runs n e w Hn Hok)|]. intros q w1 (Hok1 & Eq & Hq & K1 & Q1).
  destruct (K1 p old I E) as [E1 C1]. assert (q <> p) as Hqp by congruence.
  destruct (ho_block _ Hok1 _ _ Eq) as (_ & _ & _ & Hvq). destruct (ho_block _ Hok1 _ _ E1) as (_ & _ & _ & Hvp).
  destruct (memmove_copied (w_mem w1) q p (Z.min old n)) as (m & Em & Cm & Km); [lia|eapply valid_sub; [exact Hvp|lia..]|eapply valid_sub; [exact Hvq|lia..]|].
  apply runs_bind. apply (runs_storing _ m); [exact Em|].
  destruct (heap_call w1 m q n q (Z.min old n) Hok1 Eq Cm) as (Hok2 & K2 & Q2); [lia..|].
  destruct (K2 p old (not_eq_sym Hqp) E1) as [E2 C2].
  eapply runs_seq; [exact (free_runs p old e _ Hok2 E2)|]. intros _ w3 (Hok3 & K3 & Q3). apply runs_ret.
  split; [done|]. destruct (K3 q n Hqp Eq) as [Eq3 C3]. split; [done|]. split; [done|]. split; [|split].
  - eapply copied_trans; [eapply copied_sub; [exact C1|lia..]|]. rewrite Z.sub_diag, Z.add_0_l.
    eapply copied_trans; [exact Km|]. eapply copied_at; [exact C3|lia..].
  - intros x k Hx Ex. destruct (K1 x k I Ex) as [Ex1 Cx1]. assert (x <> q) as Hxq by congruence.
    destruct (K2 x k Hxq Ex1) as [Ex2 Cx2]. destruct (K3 x k Hx Ex2) as [Ex3 Cx3]. split; [done|].
    exact (copied_trans _ _ _ _ _ _ _ Cx1 (copied_trans _ _ _ _ _ _ _ Cx2 Cx3)).
  - etransitivity; [exact Q1|]. etransitivity; [exact Q2|exact Q3].
Qed.

(** Printing changes nothing of the heap. *)
Lemma printf_runs s e w (Q : unit -> world -> Prop) :
  Q tt (World (w_mem w) (w_brk w) (w_blocks w) (w_out w ++ s) (w_err w) (w_written w)) -> runs (printf s) e w Q.
Proof. done. Qed.

Lemma eprintf_runs s e w (Q : unit -> world -> Prop) :
  Q tt (World (w_mem w) (w_brk w) (w_blocks w) (w_out w) (w_err w ++ s) (w_written w)) -> runs (eprintf s) e w Q.
Proof. done. Qed.

(** States that differ in the streams only have the same heap. *)
Lemma heap_ok_ext w w' : w_mem w' = w_mem w -> w_brk w' = w_brk w -> w_blocks w' = w_blocks w -> heap_ok w -> heap_ok w'.
Proof. destruct w, w'. cbn. intros -> -> ->. by intros [A B C D]; split. Qed.

(** ** What reading a whole file and writing a blob do to a tool's state. *)

(** The contents of the file of that name. *)
Definition contents (e : env) (filename : list byte) : option (list byte) :=
  if streq filename (str "-") then Some (e_stdin e) else e_file e filename.

(** A block that is new since [w], with [data] at its start, and everything
    before it kept. *)
Record holds (w w' : world) (p n : Z) (data : list byte) : Prop := Holds {
  hd_heap : heap_ok w';
  hd_block : w_blocks w' !! p = Some n;
  hd_new : w_blocks w !! p = None;
  hd_kept : kept (fun _ => True) w w';
  hd_io : quiet_io w w';
  hd_room : zlen data <= n;
  hd_bytes : bytes_at (w_mem w') p data;
}.

(** A block of [w'] that is new since [w] may change. *)
Lemma kept_new P w w' p w'' : kept P w w' -> w_blocks w !! p = None -> kept (fun q => q <> p) w' w'' -> kept P w w''.
Proof.
  intros K Hn K' q n Hp E. destruct (K q n Hp E) as [E1 C1]. assert (q <> p) as Hq by congruence.
  destruct (K' q n Hq E1) as [E2 C2]. split; [done|]. exact (copied_trans _ _ _ _ _ _ _ C1 C2).
Qed.

(** Storing behind what a block holds. *)
Lemma holds_store w w1 p n data d e f (Q : unit -> world -> Prop) :
  holds w w1 p n data -> zlen data + zlen d <= n ->
  (forall m, f m = store_bytes m (p + zlen data) d) ->
  (forall w2, holds w w2 p n (data ++ d) -> Q tt w2) ->
  runs (storing f) e w1 Q.
Proof.
  intros [Hok Hb Hnew Hk Hio Hrm Hby] Hn Hf HQ. destruct (ho_block _ Hok _ _ Hb) as (_ & _ & _ & Hv).
  pose proof (zlen_nonneg data). pose proof (zlen_nonneg d).
  assert (valid (w_mem w1) (p + zlen data) (zlen d)) as Hvd by (eapply valid_sub; [exact Hv|lia..]).
  eapply runs_storing; [rewrite Hf; apply store_valid; exact Hvd|].
  destruct (heap_call w1 _ p n _ _ Hok Hb (changes_upd _ _ _ Hvd)) as (Hok2 & K2 & Q2); [lia..|].
  apply HQ. split; [done|done|done|exact (kept_new _ _ _ _ _ Hk Hnew K2)|exact (quiet_io_trans _ _ _ Hio Q2)|by rewrite zlen_app|].
  apply bytes_at_appz. split; [apply upd_bytes_out; [done|unfold zlen in *; lia]|apply upd_at].
Qed.

(** Moving a block to a larger one. *)
Lemma holds_grow w w1 p n data k e (Q : Z -> world -> Prop) :
  holds w w1 p n data -> n <= k -> (forall q w2, holds w w2 q k data -> Q q w2) ->
  runs (xrealloc (Some p) k) e w1 Q.
Proof.
  intros [Hok Hb Hnew Hk Hio Hrm Hby] Hn HQ. pose proof (zlen_nonneg data).
  eapply runs_mono; [exact (xrealloc_runs p n k e w1 ltac:(lia) Hok Hb)|].
  intros q w2 (Hok2 & Eq & Hq & C & K & Hio2). apply HQ. split.
  - done.
  - done.
  - destruct (w_blocks w !! q) as [j|] eqn:Ex; [|done]. destruct (Hk q j I Ex) as [Ex1 _]. congruence.
  - exact (kept_new _ _ _ _ _ Hk Hnew K).
  - exact (quiet_io_trans _ _ _ Hio Hio2).
  - lia.
  - eapply copied_bytes; [|exact Hby]. eapply copied_at; [exact C|lia..].
Qed.

(** ** Reading *)

Lemma read_round w data e :
  (forall o n, 0 <= e_read e o n) ->
  forall buf bufsize offset w1, holds w w1 buf bufsize (take (Z.to_nat offset) data) ->
    0 <= offset <= zlen data -> offset <= bufsize -> 1024 <= bufsize ->
  runs (
      let* '(buf, bufsize) :=
        (if offset =? bufsize then
           let bufsize := bufsize * 2 in
           let* buf := xrealloc (Some buf) bufsize in pret (buf, bufsize)
         else pret (buf, bufsize)) in
      let n := bufsize - offset in
      let ret := e_read e offset n in
      if ret <? 0 then pret (Break (- ret, buf, bufsize)) else
      let ret := taken ret n (zlen data - offset) in
      do* storing (fun m => store_bytes m (buf + offset) (sub_bytes data offset ret)) in
      let offset := offset + ret in
      if negb (ret =? 0) then pret (Continue (buf, bufsize, offset)) else pret (Break (0, buf, bufsize))) e w1
    (fun r w' => match r with
      | Continue (buf, bufsize, offset') => holds w w' buf bufsize (take (Z.to_nat offset') data) /\
          offset < offset' <= zlen data /\ offset' <= bufsize /\ 1024 <= bufsize
      | Break (ret, buf, bufsize) => ret = 0 /\ holds w w' buf bufsize data
      end).
Proof.
  intros Hread buf bufsize offset w1 Hh Ho Hob Hbs.
  assert (zlen (take (Z.to_nat offset) data) = offset) as Elen by (unfold zlen in *; rewrite length_take; lia).
  apply (runs_seq _ _ _ _ (fun '(buf, bufsize) w' => holds w w' buf bufsize (take (Z.to_nat offset) data) /\
    offset < bufsize /\ 1024 <= bufsize)).
  { destruct (Z.eqb_spec offset bufsize) as [E|E]; [|apply runs_ret; split; [done|lia]].
    apply runs_bind. apply (holds_grow w w1 buf bufsize _ _ _ _ Hh); [lia|]. intros q w2 Hh2. apply runs_ret.
    split; [done|lia]. }
  clear buf bufsize Hh Hob Hbs w1. intros [buf bufsize] w1 (Hh & Hob & Hbs). cbv beta iota zeta.
  destruct (Z.ltb_spec (e_read e offset (bufsize - offset)) 0) as [?|Hr]; [specialize (Hread offset (bufsize - offset)); lia|].
  set (ret := taken _ _ _). assert (0 <= ret /\ ret <= bufsize - offset /\ offset + ret <= zlen data /\ (ret = 0 -> offset = zlen data))
    as (R1 & R2 & R3 & R4) by (unfold ret, taken; lia).
  assert (zlen (sub_bytes data offset ret) = ret) as El.
  { unfold sub_bytes, zlen in *. rewrite length_take, length_drop. lia. }
  assert (take (Z.to_nat (offset + ret)) data = take (Z.to_nat offset) data ++ sub_bytes data offset ret) as Etake.
  { unfold sub_bytes. rewrite Z2Nat.inj_add by lia. by rewrite take_take_drop. }
  apply runs_bind. apply (holds_store w w1 buf bufsize _ (sub_bytes data offset ret) _ _ _ Hh); [lia|intros m; by rewrite Elen|].
  rewrite <- Etake. intros w2 Hh2. destruct (Z.eqb_spec ret 0) as [E0|N0]; cbn [negb]; apply runs_ret.
  - split; [done|]. specialize (R4 E0). rewrite <- (firstn_all data).
    replace (length data) with (Z.to_nat (offset + ret)) by (unfold zlen in *; lia). done.
  - split; [done|lia].
Qed.

(** A file that can be opened and read is read whole, however much a [read]
    returns. *)
Lemma utilfdt_read_err_runs e w filename data :
  heap_ok w -> contents e filename = Some data -> (forall o n, 0 <= e_read e o n) -> zlen data < Z.pos loop_bound ->
  runs (utilfdt_read_err filename) e w (fun '(ret, buffp, len) w' =>
    ret = 0 /\ exists buf n, buffp = Some buf /\ len = Some n /\ holds w w' buf n data).
Proof.
  intros Hok Hc Hr Hl. unfold runs, utilfdt_read_err. unfold contents in Hc. rewrite Hc. cbv beta iota zeta.
  enter_prog.
  eapply runs_seq; [exact (xmalloc_runs 1024 e w ltac:(lia) Hok)|]. intros buf w1 (Hok1 & Eb & Hn & K & Q).
  assert (holds w w1 buf 1024 (take (Z.to_nat 0) data)) as Hh0.
  { split; try done. }
  apply (runs_seq _ _ _ _ (fun '(ret, buf, n) w' => ret = 0 /\ holds w w' buf n data)).
  - apply (runs_loop (fun '(buf, bufsize, offset) w1 => holds w w1 buf bufsize (take (Z.to_nat offset) data) /\
      0 <= offset <= zlen data /\ offset <= bufsize /\ 1024 <= bufsize) (fun '(buf, bufsize, offset) => zlen data - offset)).
    + pose proof (zlen_nonneg data). split; [done|lia].
    + intros [[b s] o] w2 (_ & ? & _). lia.
    + intros [[b s] o] w2 (Hh & Ho & Hos & Hs). eapply runs_mono; [exact (read_round w data e Hr b s o w2 Hh Ho Hos Hs)|].
      intros [[[b' s'] o']|[[r b'] s']] w3; [|done]. intros (H1 & H2 & H3 & H4). split; [split; [done|lia]|lia].
  - intros [[ret b] n] w2 [-> Hh]. apply runs_ret. eauto 10.
Qed.

Lemma utilfdt_read_runs e w filename data :
  heap_ok w -> contents e filename = Some data -> (forall o n, 0 <= e_read e o n) -> zlen data < Z.pos loop_bound ->
  runs (utilfdt_read filename) e w (fun '(buffp, len) w' =>
    exists buf n, buffp = Some buf /\ len = Some n /\ holds w w' buf n data).
Proof.
  intros Hok Hc Hr Hl. unfold runs, utilfdt_read.
  enter_prog.
  eapply runs_seq; [exact (utilfdt_read_err_runs e w filename data Hok Hc Hr Hl)|].
  intros [[ret buffp] len] w' [-> H]. apply runs_ret. done.
Qed.

(** ** Writing *)

(** The state with a file written, or with more on the standard output. *)
Definition with_output (filename bytes : list byte) (w : world) : world :=
  if streq filename (str "-")
  then World (w_mem w) (w_brk w) (w_blocks w) (w_out w ++ bytes) (w_err w) (w_written w)
  else World (w_mem w) (w_brk w) (w_blocks w) (w_out w) (w_err w) (w_written w ++ [(filename, bytes)]).

Lemma with_output_heap filename bytes w : w_mem (with_output filename bytes w) = w_mem w /\
  w_brk (with_output filename bytes w) = w_brk w /\ w_blocks (with_output filename bytes w) = w_blocks w.
Proof. unfold with_output. by destruct (streq _ _). Qed.

Lemma written_runs filename bytes e w (Q : unit -> world -> Prop) :
  Q tt (with_output filename bytes w) -> runs (written filename bytes) e w Q.
Proof. unfold runs, written, with_output. by destruct (streq _ _). Qed.

(** The blob is written whole, however much a [write] takes. *)
Lemma utilfdt_write_runs e w filename blob h :
  hdr_at (w_mem w) blob h -> valid (w_mem w) blob (h_totalsize h) -> h_totalsize h <= INT_MAX ->
  (streq filename (str "-") = true \/ 0 <= e_creat e filename) -> (forall o n, 0 <= e_write e o n) ->
  runs (utilfdt_write filename blob) e w (fun ret w' => ret = 0 /\
    exists bytes, zlen bytes = h_totalsize h /\ bytes_at (w_mem w) blob bytes /\ w' = with_output filename bytes w).
Proof.
  intros Hh Hv Ht Hc Hw. hdr_ranges Hh. unfold runs, utilfdt_write. enter_prog.
  apply (runs_seq _ _ _ _ (fun ret w' => ret = 0 /\ exists bytes, zlen bytes = h_totalsize h /\
    bytes_at (w_mem w) blob bytes /\ w' = with_output filename bytes w)).
  2:{ intros ret w' [-> H']. apply runs_ret. done. }
  unfold runs, utilfdt_write_err. set (fd := if streq _ _ then 0 else _).
  assert (0 <= fd) as Hfd by (unfold fd; destruct Hc as [->|?]; [|destruct (streq _ _)]; lia).
  cbv zeta. destruct (Z.ltb_spec fd 0); [lia|]. enter_prog. apply runs_bind.
  apply (runs_reading _ (h_totalsize h)); [exact (Hh f_totalsize)|]. rewrite s32_small by ilia.
  apply (runs_seq _ _ _ _ (fun '(ret, bytes) w' => w' = w /\ ret = 0 /\ zlen bytes = h_totalsize h /\ bytes_at (w_mem w) blob bytes)).
  - apply (runs_loop (fun '(offset, bytes) w' => w' = w /\ 0 <= offset <= h_totalsize h /\ zlen bytes = offset /\
      bytes_at (w_mem w) blob bytes) (fun '(offset, bytes) => h_totalsize h - offset)).
    + split; [done|]. split; [ilia|]. split; [done|apply bytes_at_nil].
    + intros [o b] w' (_ & ? & _). unfold loop_bound. ilia.
    + intros [o b] w' (-> & Ho & Eo & Hb). destruct (Z.ltb_spec o (h_totalsize h)) as [Hlt|Hge].
      2:{ apply runs_ret. split; [done|]. split; [done|]. split; [lia|done]. }
      specialize (Hw o (h_totalsize h - o)). destruct (Z.ltb_spec (e_write e o (h_totalsize h - o)) 0); [lia|].
      set (ret := taken _ _ _). assert (0 < ret <= h_totalsize h - o) as Hret by (unfold ret, taken; lia).
      destruct (load_valid (w_mem w) (blob + o) (Z.to_nat ret)) as (l & El & Hl & Hlb);
        [eapply valid_sub; [exact Hv|lia..]|].
      apply runs_bind. apply (runs_reading _ l).
      { unfold load_bytes. destruct (Z.ltb_spec ret 0); [lia|done]. }
      apply runs_ret. split; [|lia]. split; [done|]. split; [lia|]. split; [rewrite zlen_app; unfold zlen in *; lia|].
      apply bytes_at_appz. rewrite Eo. done.
  - intros [ret b] w' (-> & -> & Hb1 & Hb2). apply runs_bind. apply written_runs. apply runs_ret. eauto.
Qed.

(** ** A tool's blob: an editable tree in a block of the heap, and the files that
    are such trees. *)

(** A block with an editable tree in it. *)
Record blob_in (w : world) (blob n : Z) (h : header) (rsv : list (Z * Z)) (ts : list tok) (strs : list byte) : Prop := BlobIn {
  bi_heap : heap_ok w;
  bi_block : w_blocks w !! blob = Some n;
  bi_size : h_totalsize h <= n;
  bi_tree : rw_at (w_mem w) blob h rsv ts strs;
}.

Lemma aligned8 p : p mod 16 = 0 -> Z.land p 7 = 0.
Proof. intros H. change 7 with (Z.ones 3). rewrite Z.land_ones by lia. change (2 ^ 3) with 8. Z.to_euclidean_division_equations; lia. Qed.

(** The blocks of an editable tree take what [fdt_pack] leaves at least. *)
Lemma rw_sizes m fdt h rsv ts strs : rw_at m fdt h rsv ts strs ->
  40 <= h_off_rsv h /\ 0 <= h_size_struct h /\ 0 <= h_size_strings h /\
  h_off_rsv h + 16 * zlen rsv + 16 <= h_off_struct h /\ h_off_struct h + h_size_struct h <= h_off_strings h /\
  data_end h <= h_totalsize h /\ h_totalsize h < INT_MAX.
Proof.
  intros [Ht Hv H1 _ H2 H3]. pose proof (ta_strs_size _ _ _ _ _ Ht) as E. pose proof (ta_strs_room _ _ _ _ _ Ht).
  pose proof (ta_total _ _ _ _ _ Ht). pose proof (zlen_nonneg strs). hdr_ranges (blob_hdr _ _ _ (sa_blob _ _ _ _ (ta_struct _ _ _ _ _ Ht))).
  unfold data_end. ilia.
Qed.

Lemma rw_ordered m fdt h rsv ts strs : rw_at m fdt h rsv ts strs -> ordered h rsv = true.
Proof. intros H. pose proof (rw_sizes _ _ _ _ _ _ H). unfold ordered. rewrite !andb_true_iff, !Z.leb_le. lia. Qed.

(** The file that is the editable tree, wherever it is loaded. *)
Definition file_is (data : list byte) (h : header) (rsv : list (Z * Z)) (ts : list tok) (strs : list byte) : Prop :=
  forall m a, Z.land a 7 = 0 -> bytes_at m a data -> rw_at m a h rsv ts strs.

Lemma bytes_copied m a m' a' l n : bytes_at m a l -> bytes_at m' a' l -> n <= zlen l -> copied m a m' a' n.
Proof.
  intros H H' Hn i Hi. destruct (lookup_lt_is_Some_2 l (Z.to_nat i)) as [b Hb]; [unfold zlen in *; lia|].
  pose proof (H _ _ Hb) as E. pose proof (H' _ _ Hb) as E'. rewrite Z2Nat.id in E, E' by lia. by rewrite E, E'.
Qed.

(** The bytes of a loaded tree are such a file. *)
Lemma file_of_tree m fdt h rsv ts strs data : rw_at m fdt h rsv ts strs -> bytes_at m fdt data -> h_totalsize h <= zlen data ->
  file_is data h rsv ts strs.
Proof. intros Hrw Hb Hn m' a Ha Hb'. exact (rw_at_copied _ _ _ _ _ _ _ _ Hrw (bytes_copied _ _ _ _ _ _ Hb Hb' Hn) Ha). Qed.

Lemma file_size data h rsv ts strs : file_is data h rsv ts strs -> h_totalsize h <= zlen data.
Proof.
  intros H. specialize (H (upd ∅ 0 data) 0 eq_refl (upd_at _ _ _)).
  pose proof (rw_sizes _ _ _ _ _ _ H) as (S1 & S2 & S3 & S4 & S5 & S6 & _). unfold data_end in *. pose proof (zlen_nonneg rsv).
  pose proof (blob_valid _ _ _ (sa_blob _ _ _ _ (ta_struct _ _ _ _ _ (rw_tree _ _ _ _ _ _ H)))) as Hv.
  destruct (Hv (h_totalsize h - 1) ltac:(lia)) as [b Hb]. rewrite upd_lookup in Hb. case_decide; [|by rewrite lookup_empty in Hb].
  unfold zlen. lia.
Qed.

(** No [read], [write] or [open] of a file that is there fails. *)
Record io_works (e : env) : Prop := IoWorks {
  io_read : forall o n, 0 <= e_read e o n;
  io_write : forall o n, 0 <= e_write e o n;
  io_creat : forall f, 0 <= e_creat e f;
}.

(** A file read is a block with the tree. *)
Lemma holds_blob w w' p n data h rsv ts strs : holds w w' p n data -> file_is data h rsv ts strs -> blob_in w' p n h rsv ts strs.
Proof.
  intros [Hok Hb _ _ _ Hn Hby] Hf. pose proof (file_size _ _ _ _ _ Hf). destruct (ho_block _ Hok _ _ Hb) as (_ & Ha%aligned8 & _ & _).
  split; [done|done|lia|]. by apply Hf.
Qed.

Lemma blob_kept P w w' p n h rsv ts strs : blob_in w p n h rsv ts strs -> kept P w w' -> P p -> heap_ok w' ->
  blob_in w' p n h rsv ts strs.
Proof.
  intros [Hok Hb Hn Hrw] K Hp Hok'. destruct (K p n Hp Hb) as [Hb' C]. split; [done|done|done|].
  destruct (ho_block _ Hok' _ _ Hb') as (_ & Ha%aligned8 & _ & _). eapply rw_at_copied; [exact Hrw| |exact Ha].
  eapply copied_at; [exact C|lia..].
Qed.

(** ** A machine at which the theorems about the tools are applied. *)

(** A machine with the sample tree in a file, where a [read] returns 7 bytes at
    most and a [write] takes 100. *)
Definition s_file : list byte := str "t.dtb".
Definition s_env : env :=
  Env (fun _ => xff) 0 (fun f => if bool_decide (f = s_file) then Some s_bytes else None) [] (fun _ _ => 7) (fun _ => 3) (fun _ _ => 100)
    (fun _ => []) [].
Definition s_world : world := World ∅ 4096 ∅ [] [] [].

Lemma s_heap_ok : heap_ok s_world.
Proof.
  assert (forall p, w_blocks s_world !! p = None) as H by (intros p; apply lookup_empty).
  split; [reflexivity|reflexivity|intros p n E; by rewrite H in E|intros p n q k E; by rewrite H in E].
Qed.

Lemma s_io_works : io_works s_env.
Proof. split; intros; cbn; lia. Qed.

Lemma s_file_is : file_is s_bytes s_hdr [] (flat (INode [] s_items)) s_strs.
Proof. apply (file_of_tree _ _ _ _ _ _ _ s_rw_at (upd_at _ _ _)). vm_compute. discriminate. Qed.

(** fdtput -t x: two words. *)
Definition s_put : display_info := DisplayInfo OPER_WRITE_PROP "x"%byte (- 1) false false.
Definition s_args : list (list byte) := [str "1f"; str "ffffffff"].
