(* ===== verification/ToolGet.v ===== *)
(** dtc/fdtget.c: values, property names and subnode names of a blob as text. *)
From S2P Require Import Prelude Monad Memory Ctype Libfdt Fdt FdtRo FdtCheck ToolWorld ToolUtil.

Inductive display_mode :=
| MODE_SHOW_VALUE      (* show values for node properties *)
| MODE_LIST_PROPS      (* list the properties for a node *)
| MODE_LIST_SUBNODES.  (* list the subnodes of a node *)

Record display_info := DisplayInfo {
  di_type : byte;      (* data type (s/i/u/x or 0 for default) *)
  di_size : Z;         (* data size (1/2/4) *)
  di_mode : display_mode;
  di_default_val : option (list byte);
}.

Definition report_error (where_ : list byte) (err : Z) : prog unit :=
  let* s := lift (fdt_strerror err) in
  eprintf (str "Error at '" ++ where_ ++ str "': " ++ s ++ [nl]).

(** [printf(fmt, value)] with the conversion [type], or %d. *)
Definition print_int (type : byte) (value : Z) : list byte :=
  match type with
  | "u"%byte => fmt_u (u32 value)
  | "x"%byte => fmt_x 0 (u32 value)
  | _ => fmt_d (s32 value)
  end.

(** A cell of [size] bytes. *)
Definition cell_value (m : mem) (p size : Z) : res Z :=
  if size =? 4 then ld32 m p
  else if size =? 2 then
    let! a := ld8 m p in let! b := ld8 m (p + 1) in Ret (Z.lor (Z.shiftl (b2z a) 8) (b2z b))
  else let! a := ld8 m p in Ret (b2z a).

Definition show_cell_list (disp : display_info) (data len size : Z) : prog Z :=
  ploop (fun i =>
    if i <? len then
      do* pwhen (negb (i =? 0)) (printf (str " ")) in
      let* value := reading (fun m => cell_value m (data + i) size) in
      do* printf (print_int (di_type disp) value) in
      pret (Continue (i + size))
    else pret (Break 0)) 0.

Definition show_data (disp : display_info) (data len : Z) : prog Z :=
  (* no data, don't print *)
  if len =? 0 then pret 0 else
  let* printable := reading (fun m => is_printable_at m data len) in
  let is_string := bool_decide (di_type disp = "s"%byte) || (bool_decide (di_type disp = x00) && printable) in
  if is_string then
    let* c := reading (fun m => ld8 m (data + len - 1)) in
    if negb (bool_decide (c = x00)) then
      do* eprintf (str "Unterminated string" ++ [nl]) in pret (- 1)
    else
      ploop (fun s =>
        if s - data <? len then
          do* pwhen (negb (s =? data)) (printf (str " ")) in
          let* t := reading (fun m => load_str m s) in
          do* printf t in
          pret (Continue (s + zlen t + 1))
        else pret (Break 0)) data
  else
    let size := di_size disp in
    if size =? - 1 then show_cell_list disp data len (if Z.rem len 4 =? 0 then 4 else 1)
    else if negb (Z.rem len size =? 0) then
      do* eprintf (str "Property length must be a multiple of selected data size" ++ [nl]) in pret (- 1)
    else show_cell_list disp data len size.

Definition list_properties (blob node : Z) : prog Z :=
  let* prop := reading (fun m => fdt_first_property_offset m blob node) in
  ploop (fun prop =>
    (* Stop silently when there are no more properties *)
    if prop <? 0 then pret (Break (if prop =? - FDT_ERR_NOTFOUND then 0 else prop)) else
    let* '(_, name, _) := reading (fun m => fdt_getprop_by_offset m blob prop true) in
    do* match name with
        | Some name => let* s := reading (fun m => load_str m name) in puts s
        | None => pret tt
        end in
    let* prop := reading (fun m => fdt_next_property_offset m blob prop) in
    pret (Continue prop)) prop.

Definition MAX_LEVEL : Z := 32.  (* how deeply nested we will go *)

(** The name printed for a node: the root is nameless. *)
Definition shown_name (m : mem) (pathp : option Z) : res (list byte) :=
  match pathp with
  | None => Ret (str "/* NULL pointer error */")
  | Some p => let! s := load_str m p in Ret (if bool_decide (s = []) then str "/" else s)
  end.

Definition list_subnodes (blob node : Z) : prog Z :=
  let depth := 1 in (* the assumed depth of this node *)
  ploop (fun '(node, level) =>
    if negb (0 <=? level) then pret (Break 0) else
    let* '(tag, nextoffset) := reading (fun m => fdt_next_tag m blob node) in
    if tag =? FDT_BEGIN_NODE then
      let* '(pathp, _) := reading (fun m => fdt_get_name m blob node) in
      do* (if level <=? depth then
             let* s := reading (fun m => shown_name m pathp) in
             pwhen (level =? 1) (puts s)
           else pret tt) in
      let level := level + 1 in
      if MAX_LEVEL <=? level then
        do* printf (str "Nested too deep, aborting." ++ [nl]) in pret (Break 1)
      else pret (Continue (nextoffset, level))
    else if tag =? FDT_END_NODE then
      let level := level - 1 in
      pret (Continue (nextoffset, if level =? 0 then - 1 (* exit the loop *) else level))
    else if tag =? FDT_END then pret (Break 1)
    else if tag =? FDT_PROP then pret (Continue (nextoffset, level))
    else
      do* pwhen (level <=? depth) (printf (str "Unknown tag 0x" ++ map to_upper (fmt_x 8 tag) ++ [nl])) in
      pret (Break 1)) (node, 0).

Definition show_data_for_item (blob : Z) (disp : display_info) (node : Z) (property : option (list byte)) : prog Z :=
  match di_mode disp with
  | MODE_LIST_PROPS => list_properties blob node
  | MODE_LIST_SUBNODES => list_subnodes blob node
  | MODE_SHOW_VALUE =>
    let* property := lift (match property with Some p => Ret p | None => Fault Abort end) in
    let* '(value, len) := reading (fun m => fdt_getprop m blob node property) in
    match value, di_default_val disp with
    | Some value, _ =>
      let* r := show_data disp value len in
      if negb (r =? 0) then pret (- 1) else
      do* printf [nl] in pret 0
    | None, Some default_val => do* puts default_val in pret 0
    | None, None => do* report_error property len in pret (- 1)
    end
  end.

Definition do_fdtget (disp : display_info) (filename : list byte) (arg : list (list byte)) (args_per_step : Z) : prog Z :=
  let* '(blob, _) := utilfdt_read filename in
  match blob with
  | None => pret (- 1)
  | Some blob =>
    let arg_count := zlen arg in
    ploop (fun i =>
      if i + args_per_step <=? arg_count then
        let* argi := lift (nonnull (arg !! Z.to_nat i)) in
        let* node := reading (fun m => fdt_path_offset m blob argi) in
        if node <? 0 then
          match di_default_val disp with
          | Some d => do* puts d in pret (Continue (i + args_per_step))
          | None => do* report_error argi node in do* free blob in pret (Break (- 1))
          end
        else
          let prop := if args_per_step =? 1 then None else arg !! Z.to_nat (i + 1) in
          let* r := show_data_for_item blob disp node prop in
          if negb (r =? 0) then do* free blob in pret (Break (- 1))
          else pret (Continue (i + args_per_step))
      else do* free blob in pret (Break 0)) 0
  end.

(** [main] after [getopt_long]: [opts] are the options with their arguments,
    [args] the arguments left. Returns the exit status; [usage] ends it. *)
Definition fdtget_option (st : display_info * Z) (opt : byte * list byte) : res (display_info * Z) :=
  let '(disp, args_per_step) := st in
  let '(c, optarg) := opt in
  match c with
  | "t"%byte =>
    let '(r, type, size) := utilfdt_decode_type optarg (di_type disp) (di_size disp) in
    if negb (r =? 0) then Fault Die else
    Ret (DisplayInfo type size (di_mode disp) (di_default_val disp), args_per_step)
  | "p"%byte => Ret (DisplayInfo (di_type disp) (di_size disp) MODE_LIST_PROPS (di_default_val disp), 1)
  | "l"%byte => Ret (DisplayInfo (di_type disp) (di_size disp) MODE_LIST_SUBNODES (di_default_val disp), 1)
  | "d"%byte => Ret (DisplayInfo (di_type disp) (di_size disp) (di_mode disp) (Some optarg), args_per_step)
  | _ => Fault Die (* -h, -V, or unknown *)
  end.

Definition fdtget_main (opts : list (byte * list byte)) (args : list (list byte)) : prog Z :=
  let* '(disp, args_per_step) :=
    lift (fold_res fdtget_option opts (DisplayInfo x00 (- 1) MODE_SHOW_VALUE None, 2)) in
  match args with
  | [] => die (* missing filename *)
  | filename :: args =>
    (* Allow no arguments, and silently succeed *)
    if zlen args =? 0 then pret 0 else
    (* Check for node, property arguments *)
    if (args_per_step =? 2) && negb (zlen args mod 2 =? 0) then die else
    let* r := do_fdtget disp filename args args_per_step in
    pret (if negb (r =? 0) then 1 else 0)
  end.
