(* ===== verification/ToolGetSpec.v ===== *)
(** fdtget: a value as the text it prints, and the program over a file. *)
From S2P Require Import Prelude Monad Ctype Memory Libfdt Fdt FdtSpec FdtTree FdtRo FdtWip FdtRead FdtNav.
From S2P Require Import FdtRw FdtEdit FdtRwSpec FdtRwProp FdtPack DtcUtil ToolWorld ToolUtil ToolHeap ToolGet.

(** ** A value as text *)

(** Texts with a space between them, or before each. *)
Fixpoint spaced (first : bool) (l : list (list byte)) : list byte :=
  match l with
  | [] => []
  | t :: l => (if first then [] else str " ") ++ t ++ spaced false l
  end.

(** The big-endian number of [size] bytes, 4, 2 or 1. *)
Definition number_at (size : Z) (v : list byte) : Z :=
  if size =? 4 then match v with a :: b :: c :: d :: _ => be32 a b c d | _ => 0 end
  else if size =? 2 then match v with a :: b :: _ => Z.lor (Z.shiftl (b2z a) 8) (b2z b) | _ => 0 end
  else match v with a :: _ => b2z a | [] => 0 end.

Fixpoint numbers (fuel : nat) (size : Z) (v : list byte) : list Z :=
  match fuel, v with
  | S fuel, _ :: _ => number_at size v :: numbers fuel size (drop (Z.to_nat size) v)
  | _, _ => []
  end.

(** The characters before the first NUL. *)
Fixpoint string_of (v : list byte) : list byte :=
  match v with
  | [] => []
  | c :: v => if bool_decide (c = x00) then [] else c :: string_of v
  end.

(** The strings of a value, each with its end. *)
Fixpoint strings (fuel : nat) (v : list byte) : list (list byte) :=
  match fuel, v with
  | S fuel, _ :: _ => string_of v :: strings fuel (drop (S (length (string_of v))) v)
  | _, _ => []
  end.

(** What is shown for a value with a type option; [None] when the value does
    not have that form. *)
Definition shown (type : byte) (size : Z) (v : list byte) : option (list byte) :=
  if bool_decide (v = []) then Some [] else
  if bool_decide (type = "s"%byte) || (bool_decide (type = x00) && util_is_printable_string v) then
    if bool_decide (last v = Some x00) then Some (spaced true (strings (length v) v)) else None
  else
    let size := if size =? - 1 then (if zlen v mod 4 =? 0 then 4 else 1) else size in
    if zlen v mod size =? 0 then Some (spaced true (map (print_int type) (numbers (length v) size v))) else None.

(** ** Strings in memory *)

Lemma string_of_spec v : last v = Some x00 -> exists rest, v = string_of v ++ x00 :: rest /\ no_nul (string_of v) /\
  (rest = [] \/ last rest = Some x00).
Proof.
  induction v as [|c v IH]; [done|]. intros Hl. cbn [string_of]. case_bool_decide as E.
  - subst c. exists v. split; [done|]. split; [apply not_elem_of_nil|]. destruct v as [|c v]; [by left|]. right. exact Hl.
  - destruct v as [|c' v]; [cbn in Hl; congruence|]. destruct (IH Hl) as (rest & E1 & E2 & E3).
    exists rest. split; [by rewrite E1 at 1|]. split; [|done]. unfold no_nul. rewrite not_elem_of_cons. split; [congruence|done].
Qed.

Lemma load_string m p v : bytes_at m p v -> last v = Some x00 -> zlen v < Z.pos loop_bound -> load_str m p = Ret (string_of v).
Proof.
  intros Hb Hl Hn. destruct (string_of_spec v Hl) as (rest & E & Hnn & _). unfold load_str.
  assert (bytes_at m p (string_of v ++ [x00])) as Hs.
  { rewrite E in Hb. replace (string_of v ++ x00 :: rest) with ((string_of v ++ [x00]) ++ rest) in Hb by by rewrite <- app_assoc.
    by apply bytes_at_appz in Hb as [Hb _]. }
  assert (zlen v = zlen (string_of v) + 1 + zlen rest) as Ev by (rewrite E at 1; rewrite zlen_app, zlen_cons; lia).
  pose proof (zlen_nonneg rest). rewrite (strlen_at _ _ _ Hs Hnn) by (unfold zlen in *; lia). cbn [rbind].
  apply bytes_at_appz in Hs as [Hs _]. by apply load_bytes_at.
Qed.

(** The two readings of [util_is_printable_string], on memory and on a list,
    agree. *)
Lemma printable_run_spec v : exists run c rest, last v = Some x00 -> v = run ++ c :: rest /\
  printable_run v = (length run, c :: rest) /\ Forall (fun b => negb (bool_decide (b = x00)) && isprint b = true) run /\
  negb (bool_decide (c = x00)) && isprint c = false.
Proof.
  induction v as [|b v (run & c & rest & IH)]; [exists [], x00, []; done|]. cbn [printable_run].
  destruct (negb (bool_decide (b = x00)) && isprint b) eqn:E.
  - exists (b :: run), c, rest. intros Hl. destruct v as [|b' v].
    + cbn in Hl. injection Hl as ->. done.
    + destruct (IH Hl) as (E1 & E2 & E3 & E4). rewrite E2. cbn. rewrite E1 at 1. split; [done|]. split; [done|]. by split; [constructor|].
  - exists [], b, v. intros _. split; [done|]. split; [done|]. by split.
Qed.

Lemma ld8_mid m p pre c rest : bytes_at m p (pre ++ c :: rest) -> ld8 m (p + zlen pre) = Ret c.
Proof. intros [_ H]%bytes_at_appz. apply bytes_at_cons in H as [H _]. by apply ld8_at. Qed.

Lemma printable_loop m se s run c rest :
  bytes_at m s (run ++ c :: rest) -> s + zlen run < se -> zlen run < Z.pos loop_bound ->
  Forall (fun b => negb (bool_decide (b = x00)) && isprint b = true) run -> negb (bool_decide (c = x00)) && isprint c = false ->
  loop (fun s =>
    if s <? se then
      let! c := ld8 m s in
      if negb (bool_decide (c = x00)) && isprint c then Ret (Continue (s + 1)) else Ret (Break s)
    else Ret (Break s)) s = Ret (s + zlen run).
Proof.
  intros Hb Hse Hn Hrun Hc. apply wp_total_eq.
  apply (wp_loop _ (fun p => exists done todo, run = done ++ todo /\ p = s + zlen done) (fun p => s + zlen run - p)).
  - exists [], run. split; [done|]. change (zlen (@nil byte)) with 0. lia.
  - intros p (dn & todo & -> & ->). rewrite zlen_app in *. pose proof (zlen_nonneg todo). pose proof (zlen_nonneg dn). lia.
  - intros p (dn & todo & -> & ->). rewrite zlen_app in *. pose proof (zlen_nonneg todo).
    destruct (Z.ltb_spec (s + zlen dn) se); [|lia]. rewrite <- app_assoc in Hb. destruct todo as [|b todo].
    + cbn [app] in Hb. rewrite (ld8_mid _ _ _ _ _ Hb). cbn [rbind]. rewrite Hc. cbn. change (zlen (@nil byte)) with 0. lia.
    + cbn [app] in Hb. rewrite (ld8_mid _ _ _ _ _ Hb). cbn [rbind].
      apply Forall_app in Hrun as [_ Hrun]. apply Forall_cons in Hrun as [-> _]. cbn. split; [|lia].
      exists (dn ++ [b]), todo. rewrite <- app_assoc, zlen_app. split; [done|]. change (zlen [b]) with 1. lia.
Qed.

Lemma is_printable_at_spec m data v : bytes_at m data v -> zlen v < Z.pos loop_bound ->
  is_printable_at m data (zlen v) = Ret (util_is_printable_string v).
Proof.
  intros Hb Hn. unfold is_printable_at, util_is_printable_string. destruct (last v) as [c|] eqn:El.
  2:{ apply last_None in El. subst v. done. }
  apply last_Some in El as [v' ->]. rewrite zlen_app in *. change (zlen [c]) with 1 in *. pose proof (zlen_nonneg v').
  destruct (Z.eqb_spec (zlen v' + 1) 0); [lia|]. replace (data + (zlen v' + 1) - 1) with (data + zlen v') by lia.
  rewrite (ld8_mid _ _ _ _ _ Hb). cbn [rbind]. case_bool_decide as Ec; cbn [negb]; [|done]. subst c.
  set (v := v' ++ [x00]) in *. set (fuel0 := S (length v)). apply wp_total_eq.
  apply (wp_loop _ (fun s => exists pre r fuel, v = pre ++ r /\ s = data + zlen pre /\ (r = [] \/ last r = Some x00) /\
    (length r < fuel)%nat /\ printable_strings fuel r = printable_strings fuel0 v) (fun s => data + zlen v - s)).
  - exists [], v, fuel0. split; [done|]. split; [change (zlen (@nil byte)) with 0; lia|]. split; [right; unfold v; by rewrite last_snoc|].
    split; [unfold fuel0; lia|done].
  - intros s (pre & r & fuel & E & -> & _). rewrite E, zlen_app. pose proof (zlen_nonneg r). pose proof (zlen_nonneg pre).
    assert (zlen v = zlen v' + 1) as Ev by (unfold v; rewrite zlen_app; done). rewrite E, zlen_app in Ev. lia.
  - intros s (pre & r & fuel & E & -> & Hr & Hf & <-). assert (zlen v = zlen v' + 1) as Ev by (unfold v; rewrite zlen_app; done).
    rewrite <- Ev. rewrite E, zlen_app in Ev |- *. rewrite E in Hb. apply bytes_at_appz in Hb as [_ Hb].
    pose proof (zlen_nonneg pre). destruct fuel as [|fuel]; [lia|].
    destruct r as [|b0 r0]; [change (zlen (@nil byte)) with 0; rewrite (proj2 (Z.ltb_ge _ _)) by lia; done|].
    set (r := b0 :: r0) in *. destruct Hr as [Hr|Hr]; [done|]. destruct (printable_run_spec r) as (run & c & rest & Hs).
    destruct (Hs Hr) as (Er & Ep & Hrun & Hc). assert (zlen r = zlen run + 1 + zlen rest) as Elr by (rewrite Er, zlen_app, zlen_cons; lia).
    pose proof (zlen_nonneg run). pose proof (zlen_nonneg rest). cbn [printable_strings]. fold r. rewrite Ep.
    rewrite (proj2 (Z.ltb_lt _ _)) by lia. rewrite Er in Hb.
    rewrite (printable_loop m (data + (zlen pre + zlen r)) _ run c rest Hb ltac:(lia) ltac:(lia) Hrun Hc). cbn [rbind].
    rewrite (ld8_mid _ _ _ _ _ Hb). cbn [rbind].
    change (match r with [] => true | _ :: _ => ?x end) with x.
    case_bool_decide as Ec; [subst c|]; cbn [negb orb].
    2:{ cbn [wp]. destruct (length run); [done|]. by destruct c. }
    destruct run as [|b run].
    { change (zlen (@nil byte)) with 0. rewrite Z.add_0_r, Z.eqb_refl. done. }
    rewrite (proj2 (Z.eqb_neq _ _)) by (rewrite zlen_cons; pose proof (zlen_nonneg run); lia). cbn [wp length]. split; [|lia].
    exists (pre ++ (b :: run) ++ [x00]), rest, fuel. split; [rewrite Er, <- !app_assoc; done|].
    split; [rewrite !zlen_app; change (zlen [x00]) with 1; lia|]. split; [|split; [|done]].
    + rewrite Er in Hr. destruct rest as [|b1 rest]; [by left|]. right.
      rewrite last_app, last_cons_cons in Hr. destruct (last (b1 :: rest)) eqn:El; [done|]. by apply last_None in El.
    + unfold zlen in Elr. lia.
Qed.

(** ** What is printed *)

(** Only the streams differ, and [s] is new on the output. *)
Record shows (w w' : world) (s : list byte) : Prop := Shows {
  sh_mem : w_mem w' = w_mem w;
  sh_brk : w_brk w' = w_brk w;
  sh_blocks : w_blocks w' = w_blocks w;
  sh_out : w_out w' = w_out w ++ s;
  sh_written : w_written w' = w_written w;
}.

Lemma shows_refl w : shows w w [].
Proof. split; try done. by rewrite app_nil_r. Qed.

Lemma shows_trans w1 w2 w3 s t : shows w1 w2 s -> shows w2 w3 t -> shows w1 w3 (s ++ t).
Proof. intros [A B C D E] [A' B' C' D' E']. split; try congruence. by rewrite D', D, app_assoc. Qed.

Lemma printf_shows w w1 s t e (Q : unit -> world -> Prop) :
  shows w w1 s -> (forall w2, shows w w2 (s ++ t) -> Q tt w2) -> runs (printf t) e w1 Q.
Proof. intros H HQ. apply printf_runs, HQ. eapply shows_trans; [exact H|by split]. Qed.

Lemma eprintf_shows w w1 s t e (Q : unit -> world -> Prop) :
  shows w w1 s -> (forall w2, shows w w2 s -> Q tt w2) -> runs (eprintf t) e w1 Q.
Proof. intros H HQ. apply eprintf_runs, HQ. rewrite <- (app_nil_r s). eapply shows_trans; [exact H|]. split; try done. cbn. by rewrite app_nil_r. Qed.

(** The separator before all but the first. *)
Lemma space_shows w w1 s (b : bool) e (Q : unit -> world -> Prop) :
  shows w w1 s -> (forall w2, shows w w2 (s ++ if b then [] else str " ") -> Q tt w2) ->
  runs (pwhen (negb b) (printf (str " "))) e w1 Q.
Proof. intros H HQ. destruct b; cbn [negb pwhen]; [apply HQ; by rewrite app_nil_r|]. exact (printf_shows w w1 s (str " ") e Q H HQ). Qed.

Lemma numbers_fuel size v n1 n2 : 0 < size -> (length v <= n1)%nat -> (length v <= n2)%nat -> numbers n1 size v = numbers n2 size v.
Proof.
  intros Hs. revert v n2. induction n1 as [|n1 IH]; intros v n2 H1 H2; (destruct v as [|b v]; [by destruct n2|cbn in *; try lia]).
  destruct n2 as [|n2]; [cbn in H2; lia|]. cbn [numbers]. f_equal. apply IH; rewrite length_drop; cbn in *; lia.
Qed.

Lemma cell_value_at m p size v : size = 1 \/ size = 2 \/ size = 4 -> bytes_at m p v -> size <= zlen v ->
  cell_value m p size = Ret (number_at size v).
Proof.
  intros Hs Hb Hn. unfold cell_value, number_at, zlen in *.
  destruct Hs as [->|[->| ->]]; repeat (destruct v as [|? v]; [cbn in Hn; lia|]); rewrite ?bytes_at_cons in Hb; cbn.
  - destruct Hb as (H0 & _). unfold ld8. by rewrite H0.
  - destruct Hb as (H0 & H1 & _). unfold ld8. rewrite H0. cbn. by rewrite H1.
  - destruct Hb as (H0 & H1 & H2 & H3 & _). unfold ld32, ld8. rewrite H0. cbn. rewrite H1. cbn.
    replace (p + 2) with (p + 1 + 1) by lia. rewrite H2. cbn. replace (p + 3) with (p + 1 + 1 + 1) by lia. by rewrite H3.
Qed.

Section show.
Context (data : Z) (v : list byte) (e : env) (w : world).
Context (Hb : bytes_at (w_mem w) data v) (Hn : zlen v < Z.pos loop_bound).

Lemma show_cell_list_runs disp size : size = 1 \/ size = 2 \/ size = 4 -> zlen v mod size = 0 ->
  runs (show_cell_list disp data (zlen v) size) e w (fun r w' => r = 0 /\
    shows w w' (spaced true (map (print_int (di_type disp)) (numbers (length v) size v)))).
Proof using Hb Hn.
  intros Hs Hm. unfold show_cell_list. set (text := spaced _ _).
  apply (runs_loop (fun i w1 => exists pre todo s, v = pre ++ todo /\ i = zlen pre /\ zlen todo mod size = 0 /\ shows w w1 s /\
    s ++ spaced (i =? 0) (map (print_int (di_type disp)) (numbers (length todo) size todo)) = text) (fun i => zlen v - i)).
  - exists [], v, []. split; [done|]. split; [done|]. split; [done|]. split; [apply shows_refl|done].
  - intros i w1 (pre & todo & s & -> & -> & _). rewrite zlen_app in *. pose proof (zlen_nonneg pre). pose proof (zlen_nonneg todo). lia.
  - intros i w1 (pre & todo & s & E & -> & Hmt & Hsh & Ht). pose proof (zlen_nonneg pre). pose proof (zlen_nonneg todo).
    assert (zlen v = zlen pre + zlen todo) as El by (rewrite E; apply zlen_app).
    destruct todo as [|b todo'].
    { change (zlen (@nil byte)) with 0 in El. rewrite (proj2 (Z.ltb_ge _ _)) by lia. apply runs_ret. split; [done|].
      cbn in Ht. rewrite app_nil_r in Ht. by subst text s. }
    set (todo := b :: todo') in *. assert (size <= zlen todo) as Hle.
    { assert (0 < zlen todo) by (unfold todo; rewrite zlen_cons; pose proof (zlen_nonneg todo'); lia).
      destruct Hs as [->|[->| ->]]; Z.to_euclidean_division_equations; lia. }
    rewrite (proj2 (Z.ltb_lt _ _)) by lia. apply runs_bind. apply (space_shows _ _ _ _ _ _ Hsh). intros w2 Hsh2.
    apply runs_bind. apply (runs_reading _ (number_at size todo)).
    { apply cell_value_at; [done| |done]. rewrite (sh_mem _ _ _ Hsh2). rewrite E in Hb. by apply bytes_at_appz in Hb as [_ Hb']. }
    apply runs_bind. apply (printf_shows _ _ _ _ _ _ Hsh2). intros w3 Hsh3. apply runs_ret. split; [|lia].
    assert (zlen (drop (Z.to_nat size) todo) = zlen todo - size) as Ed by (unfold zlen in *; rewrite length_drop; lia).
    assert (length (take (Z.to_nat size) todo) = Z.to_nat size) as Et by (rewrite length_take; unfold zlen in *; lia).
    exists (pre ++ take (Z.to_nat size) todo), (drop (Z.to_nat size) todo), ((s ++ (if zlen pre =? 0 then [] else str " ")) ++
      print_int (di_type disp) (number_at size todo)).
    split; [by rewrite <- app_assoc, take_drop|]. split; [rewrite zlen_app; unfold zlen; lia|].
    split; [rewrite Ed; destruct Hs as [->|[->| ->]]; Z.to_euclidean_division_equations; lia|]. split; [done|].
    rewrite <- Ht. rewrite (proj2 (Z.eqb_neq (zlen pre + size) 0)) by lia.
    change (numbers (length todo) size todo) with (number_at size todo :: numbers (length todo') size (drop (Z.to_nat size) todo)).
    rewrite (numbers_fuel size (drop (Z.to_nat size) todo) (length todo') (length (drop (Z.to_nat size) todo)));
      [|lia|rewrite length_drop; unfold todo; cbn [length]; lia|done].
    cbn [map spaced]. by rewrite <- !app_assoc.
Qed.

Lemma strings_fuel x n1 n2 : (length x <= n1)%nat -> (length x <= n2)%nat -> strings n1 x = strings n2 x.
Proof using.
  revert x n2. induction n1 as [|n1 IH]; intros x n2 H1 H2; (destruct x as [|b x]; [by destruct n2|cbn in *; try lia]).
  destruct n2 as [|n2]; [cbn in H2; lia|]. cbn [strings]. f_equal. apply IH; rewrite length_drop; cbn in *; lia.
Qed.

Lemma show_strings_runs : last v = Some x00 ->
  runs (ploop (fun s =>
        if s - data <? zlen v then
          do* pwhen (negb (s =? data)) (printf (str " ")) in
          let* t := reading (fun m => load_str m s) in
          do* printf t in
          pret (Continue (s + zlen t + 1))
        else pret (Break 0)) data) e w (fun r w' => r = 0 /\ shows w w' (spaced true (strings (length v) v))).
Proof using Hb Hn.
  intros Hl. set (text := spaced _ _).
  apply (runs_loop (fun p w1 => exists pre todo s, v = pre ++ todo /\ p = data + zlen pre /\ (todo = [] \/ last todo = Some x00) /\
    shows w w1 s /\ s ++ spaced (p =? data) (strings (length todo) todo) = text) (fun p => data + zlen v - p)).
  - exists [], v, []. split; [done|]. split; [change (zlen (@nil byte)) with 0; lia|]. split; [by right|]. split; [apply shows_refl|].
    by rewrite Z.eqb_refl.
  - intros p w1 (pre & todo & s & -> & -> & _). rewrite zlen_app in *. pose proof (zlen_nonneg pre). pose proof (zlen_nonneg todo). lia.
  - intros p w1 (pre & todo & s & E & -> & Hlt & Hsh & Ht). pose proof (zlen_nonneg pre). pose proof (zlen_nonneg todo).
    assert (zlen v = zlen pre + zlen todo) as El by (rewrite E; apply zlen_app).
    destruct todo as [|b todo'].
    { change (zlen (@nil byte)) with 0 in El. rewrite (proj2 (Z.ltb_ge _ _)) by lia. apply runs_ret. split; [done|].
      cbn in Ht. rewrite app_nil_r in Ht. by subst text s. }
    destruct Hlt as [|Hlt]; [done|]. set (todo := b :: todo') in *. destruct (string_of_spec todo Hlt) as (rest & Er & _ & Hrest).
    assert (zlen todo = zlen (string_of todo) + 1 + zlen rest) as Elt by (rewrite Er at 1; rewrite zlen_app, zlen_cons; lia).
    pose proof (zlen_nonneg (string_of todo)). pose proof (zlen_nonneg rest).
    rewrite (proj2 (Z.ltb_lt _ _)) by lia. apply runs_bind. apply (space_shows _ _ _ _ _ _ Hsh). intros w2 Hsh2.
    apply runs_bind. apply (runs_reading _ (string_of todo)).
    { rewrite (sh_mem _ _ _ Hsh2). apply load_string; [|done|lia]. rewrite E in Hb. by apply bytes_at_appz in Hb as [_ Hb']. }
    apply runs_bind. apply (printf_shows _ _ _ _ _ _ Hsh2). intros w3 Hsh3. apply runs_ret. split; [|lia].
    assert (drop (S (length (string_of todo))) todo = rest) as Ed.
    { rewrite Er at 2. rewrite drop_app_ge by lia. by replace (S (length (string_of todo)) - length (string_of todo))%nat with 1%nat by lia. }
    exists (pre ++ string_of todo ++ [x00]), rest, ((s ++ (if data + zlen pre =? data then [] else str " ")) ++ string_of todo).
    split; [rewrite E, Er at 1; by rewrite <- !app_assoc|].
    split; [rewrite !zlen_app; change (zlen [x00]) with 1; lia|]. split; [done|]. split; [done|]. rewrite <- Ht.
    rewrite (proj2 (Z.eqb_neq (data + zlen pre + zlen (string_of todo) + 1) data)) by lia.
    change (strings (length todo) todo) with (string_of todo :: strings (length todo') (drop (S (length (string_of todo))) todo)).
    rewrite Ed, (strings_fuel rest (length todo') (length rest)); [|unfold todo, zlen in *; cbn [length] in *; lia|done].
    cbn [spaced]. by rewrite <- !app_assoc.
Qed.

(** What [show_data] prints, or the value does not have the form asked for. *)
Lemma show_data_runs disp : di_size disp = - 1 \/ di_size disp = 1 \/ di_size disp = 2 \/ di_size disp = 4 ->
  runs (show_data disp data (zlen v)) e w (fun r w' =>
    match shown (di_type disp) (di_size disp) v with
    | Some t => r = 0 /\ shows w w' t
    | None => r = - 1 /\ shows w w' []
    end).
Proof using Hb Hn.
  intros Hs. unfold show_data, shown. destruct (bool_decide_reflect (v = [])) as [Ev|Ev].
  { rewrite Ev. change (zlen (@nil byte) =? 0) with true. cbv iota. apply runs_ret. split; [done|apply shows_refl]. }
  pose proof (zlen_nonneg v). assert (zlen v <> 0) as Hz by (destruct v; [done|unfold zlen; cbn; lia]).
  destruct (Z.eqb_spec (zlen v) 0); [done|]. apply runs_bind.
  apply (runs_reading _ (util_is_printable_string v)); [by apply is_printable_at_spec|]. cbv zeta.
  destruct (bool_decide (di_type disp = "s"%byte) || _).
  - destruct (last v) as [c|] eqn:El; [|by apply last_None in El]. apply last_Some in El as Ev'. destruct Ev' as [v' Ev'].
    apply runs_bind. apply (runs_reading _ c).
    { rewrite Ev' in Hb |- *. rewrite zlen_app. change (zlen [c]) with 1.
      replace (data + (zlen v' + 1) - 1) with (data + zlen v') by lia. exact (ld8_mid _ _ _ _ _ Hb). }
    destruct (bool_decide_reflect (c = x00)) as [->|Hc]; cbn [negb].
    + rewrite bool_decide_eq_true_2 by done. by apply show_strings_runs.
    + rewrite bool_decide_eq_false_2 by congruence. apply runs_bind. apply (eprintf_shows _ _ _ _ _ _ (shows_refl w)).
      intros w2 H2. by apply runs_ret.
  - rewrite !Z.rem_mod_nonneg by lia. destruct (Z.eqb_spec (di_size disp) (- 1)) as [E1|N1].
    + destruct (Z.eqb_spec (zlen v mod 4) 0) as [E4|N4].
      * rewrite E4. apply show_cell_list_runs; [lia|done].
      * rewrite Z.mod_1_r. apply show_cell_list_runs; [lia|apply Z.mod_1_r].
    + rewrite Z.rem_mod_nonneg by lia. destruct (Z.eqb_spec (zlen v mod di_size disp) 0) as [E0|N0]; cbn [negb].
      * apply show_cell_list_runs; [lia|done].
      * apply runs_bind. apply (eprintf_shows _ _ _ _ _ _ (shows_refl w)). intros w2 H2. by apply runs_ret.
Qed.
End show.

(** ** The program *)

(** The line for a property of a node: its value, or the default where the node
    or the property is missing; [None] is an error. *)
Definition get_line (disp : display_info) (strs : list byte) (items : list item) (q : list byte * list byte) : option (list byte) :=
  let '(node, prop) := q in
  match its ← items_at (path_comps node) items; prop_value strs its prop with
  | Some v => shown (di_type disp) (di_size disp) v
  | None => di_default_val disp
  end.

(** The lines up to the first error, and whether there was none. *)
Fixpoint get_lines (disp : display_info) (strs : list byte) (items : list item) (qs : list (list byte * list byte)) : list byte * bool :=
  match qs with
  | [] => ([], true)
  | q :: qs =>
    match get_line disp strs items q with
    | Some t => let '(s, ok) := get_lines disp strs items qs in (t ++ nl :: s, ok)
    | None => ([], false)
    end
  end.

Definition query_args (qs : list (list byte * list byte)) : list (list byte) := flat_map (fun '(n, p) => [n; p]) qs.

Lemma query_args_app qs1 qs2 : query_args (qs1 ++ qs2) = query_args qs1 ++ query_args qs2.
Proof. apply flat_map_app. Qed.

Lemma query_args_len qs : zlen (query_args qs) = 2 * zlen qs.
Proof. induction qs as [|[n p] qs IH]; [done|]. cbn [query_args flat_map]. rewrite zlen_app, zlen_cons. fold (query_args qs). rewrite IH. unfold zlen; cbn; lia. Qed.

Lemma query_args_at dn n p todo :
  query_args (dn ++ (n, p) :: todo) !! Z.to_nat (2 * zlen dn) = Some n /\
  query_args (dn ++ (n, p) :: todo) !! Z.to_nat (2 * zlen dn + 1) = Some p.
Proof.
  pose proof (query_args_len dn). rewrite query_args_app. cbn [query_args flat_map app]. fold (query_args todo). unfold zlen in *.
  rewrite !lookup_app_r by lia.
  replace (Z.to_nat (2 * Z.of_nat (length dn)) - length (query_args dn))%nat with 0%nat by lia.
  by replace (Z.to_nat (2 * Z.of_nat (length dn) + 1) - length (query_args dn))%nat with 1%nat by lia.
Qed.

Definition path_ok (q : list byte * list byte) : Prop :=
  head q.1 = Some "/"%byte /\ Z.of_nat (length q.1) < Z.pos loop_bound - 1.

Section queries.
Context (e : env) (disp : display_info) (h : header) (rsv : list (Z * Z)) (strs : list byte) (rn : list byte) (items : list item).
Context (Hmode : di_mode disp = MODE_SHOW_VALUE).
Context (Hsize : di_size disp = - 1 \/ di_size disp = 1 \/ di_size disp = 2 \/ di_size disp = 4).

Lemma puts_shows w w1 s t (Q : unit -> world -> Prop) :
  shows w w1 s -> (forall w2, shows w w2 (s ++ t ++ [nl]) -> Q tt w2) -> runs (puts t) e w1 Q.
Proof using. intros H HQ. exact (printf_shows _ _ _ _ _ _ H HQ). Qed.

(** [show_data_for_item] at the node that was found. *)
Lemma show_item_runs w blob pre nm its post prop :
  tree_at (w_mem w) blob h (in_tree pre nm its post) strs ->
  runs (show_data_for_item blob disp (toks_len pre) (Some prop)) e w (fun r w' =>
    match (match prop_value strs its prop with
           | Some v => shown (di_type disp) (di_size disp) v
           | None => di_default_val disp
           end) with
    | Some t => r = 0 /\ shows w w' (t ++ [nl])
    | None => r = - 1 /\ shows w w' []
    end).
Proof using Hmode Hsize.
  intros Ht. unfold show_data_for_item. rewrite Hmode. apply runs_bind, runs_lift.
  pose proof (getprop_value _ _ _ _ _ _ _ _ prop Ht) as Hv. destruct (prop_value strs its prop) as [v|] eqn:Ev; cbn [value_read] in Hv.
  - destruct Hv as (p & Eg & Hb). apply runs_bind. apply (runs_reading _ _ _ _ _ Eg).
    assert (zlen v < Z.pos loop_bound) as Hn.
    { pose proof (prop_value_small _ _ _ _ _ _ _ _ _ _ Ht Ev). unfold loop_bound. ilia. }
    eapply runs_seq; [exact (show_data_runs p v e w Hb Hn disp Hsize)|]. intros r w1 Hr.
    destruct (shown _ _ v) as [t|]; destruct Hr as [-> Hr]; [change (negb (0 =? 0)) with false|change (negb (- 1 =? 0)) with true]; cbv iota.
    + apply runs_bind. apply (printf_shows _ _ _ _ _ _ Hr). intros w2 H2. by apply runs_ret.
    + by apply runs_ret.
  - apply runs_bind. apply (runs_reading _ _ _ _ _ Hv). destruct (di_default_val disp) as [d|].
    + apply runs_bind. apply (puts_shows _ _ _ _ _ (shows_refl w)). intros w2 H2. by apply runs_ret.
    + apply runs_bind. unfold report_error. apply runs_bind. apply (runs_lift (str "FDT_ERR_NOTFOUND")).
      apply (eprintf_shows _ _ _ _ _ _ (shows_refl w)). intros w2 H2. by apply runs_ret.
Qed.

Lemma shows_blob w w1 s p n ts : shows w w1 s -> blob_in w p n h rsv ts strs -> blob_in w1 p n h rsv ts strs.
Proof using.
  intros [A B C _ _] [D E F G]. split; [exact (heap_ok_ext _ _ A B C D)|by rewrite C|done|by rewrite A].
Qed.

(** One query: its line, or an error, after which the blob is freed. *)
Lemma query_runs w w1 s blob n q (i : Z) :
  shows w w1 s -> blob_in w blob n h rsv (flat (INode rn items)) strs -> path_ok q ->
  runs (let* node := reading (fun m => fdt_path_offset m blob q.1) in
        if node <? 0 then
          match di_default_val disp with
          | Some d => do* puts d in pret (Continue (i + 2))
          | None => do* report_error q.1 node in do* free blob in pret (Break (- 1))
          end
        else
          let* r := show_data_for_item blob disp node (Some q.2) in
          if negb (r =? 0) then do* free blob in pret (Break (- 1))
          else pret (Continue (i + 2))) e w1
    (fun r w' => match r, get_line disp strs items q with
                 | Continue j, Some t => j = i + 2 /\ shows w w' (s ++ t ++ [nl])
                 | Break r, None => r = - 1 /\ w_out w' = w_out w ++ s /\ w_written w' = w_written w
                 | _, _ => False
                 end).
Proof using Hmode Hsize.
  intros Hsh Hbi [Hq1 Hq2]. destruct q as [node prop]. cbn [fst snd] in *. pose proof (shows_blob _ _ _ _ _ _ Hsh Hbi) as Hbi1.
  pose proof (rw_tree _ _ _ _ _ _ (bi_tree _ _ _ _ _ _ _ Hbi1)) as Ht.
  assert (forall w2, shows w w2 s -> runs (do* free blob in pret (Break (- 1))) e w2 (fun (r : ctl Z Z) w' => match r with
    | Break r => r = - 1 /\ w_out w' = w_out w ++ s /\ w_written w' = w_written w | Continue _ => False end)) as Hfree.
  { intros w2 H2. pose proof (shows_blob _ _ _ _ _ _ H2 Hbi) as Hbi2.
    eapply runs_seq; [exact (free_runs blob n e w2 (bi_heap _ _ _ _ _ _ _ Hbi2) (bi_block _ _ _ _ _ _ _ Hbi2))|].
    intros _ w3 (_ & _ & [Q1 Q2]). apply runs_ret. split; [done|]. split; [rewrite Q1; apply H2|rewrite Q2; apply H2]. }
  apply runs_bind. eapply runs_reading.
  { apply (fdt_path_offset_at _ _ _ _ _ Ht node rn items []); [by rewrite app_nil_r|done|done]. }
  unfold get_line. destruct (items_at (path_comps node) items) as [its|] eqn:Ei; cbn [mbind option_bind].
  - destruct (node_at_path _ rn items its Ei) as (pre & nm & post & E1 & E2 & _). rewrite E2, Z.add_0_l.
    pose proof (toks_len_nonneg pre). rewrite (proj2 (Z.ltb_ge _ _)) by lia. rewrite E1 in Ht.
    eapply runs_seq; [exact (show_item_runs w1 blob pre nm its post prop Ht)|]. intros r w2 Hr.
    destruct (match prop_value strs its prop with Some v => _ | None => _ end) as [t|]; destruct Hr as [-> Hr].
    + change (negb (0 =? 0)) with false. cbv iota. apply runs_ret. split; [done|]. exact (shows_trans _ _ _ _ _ Hsh Hr).
    + change (negb (- 1 =? 0)) with true. cbv iota. eapply runs_mono.
      { apply Hfree. rewrite <- (app_nil_r s). exact (shows_trans _ _ _ _ _ Hsh Hr). }
      intros [|] w3; done.
  - rewrite (no_node_at_path _ rn items 0 Ei). change (- FDT_ERR_NOTFOUND <? 0) with true. cbv iota.
    destruct (di_default_val disp) as [d|].
    + apply runs_bind. apply (puts_shows _ _ _ _ _ Hsh). intros w2 H2. by apply runs_ret.
    + apply runs_bind. unfold report_error. apply runs_bind. apply (runs_lift (str "FDT_ERR_NOTFOUND")).
      apply (eprintf_shows _ _ _ _ _ _ Hsh). intros w2 H2. eapply runs_mono; [exact (Hfree w2 H2)|]. intros [|] w3; done.
Qed.

(** The whole program: the lines of the queries. *)
Lemma do_fdtget_runs w filename data qs :
  (forall o n, 0 <= e_read e o n) -> heap_ok w -> contents e filename = Some data -> zlen data < Z.pos loop_bound ->
  file_is data h rsv (flat (INode rn items)) strs -> Forall path_ok qs -> 2 * zlen qs < Z.pos loop_bound ->
  runs (do_fdtget disp filename (query_args qs) 2) e w (fun r w' =>
    r = (if (get_lines disp strs items qs).2 then 0 else - 1) /\
    w_out w' = w_out w ++ (get_lines disp strs items qs).1 /\ w_written w' = w_written w).
Proof using Hmode Hsize.
  intros Hr Hok Hc Hl Hf Hqs Hlen. unfold do_fdtget.
  eapply runs_seq; [exact (utilfdt_read_runs e w filename data Hok Hc Hr Hl)|].
  intros [buffp len] w0 (blob & n & -> & -> & Hh). cbv iota zeta. pose proof (holds_blob _ _ _ _ _ _ _ _ _ Hh Hf) as Hbi.
  destruct (hd_io _ _ _ _ _ Hh) as [Io1 Io2]. set (text := get_lines disp strs items qs).
  apply (runs_loop (fun i w1 => exists dn todo s, qs = dn ++ todo /\ i = 2 * zlen dn /\ shows w0 w1 s /\
    (s ++ (get_lines disp strs items todo).1, (get_lines disp strs items todo).2) = text) (fun i => 2 * zlen qs - i)).
  - exists [], qs, []. split; [done|]. split; [done|]. split; [apply shows_refl|]. by destruct (get_lines _ _ _ _).
  - intros i w1 (dn & todo & s & -> & -> & _). rewrite zlen_app in *. pose proof (zlen_nonneg dn). pose proof (zlen_nonneg todo). lia.
  - intros i w1 (dn & todo & s & E & -> & Hsh & Ht). rewrite query_args_len. pose proof (zlen_nonneg dn).
    assert (zlen qs = zlen dn + zlen todo) as El by (rewrite E; apply zlen_app). destruct todo as [|q todo].
    { change (zlen (@nil (list byte * list byte))) with 0 in El. rewrite (proj2 (Z.leb_gt _ _)) by lia.
      pose proof (shows_blob _ _ _ _ _ _ Hsh Hbi) as Hbi1.
      eapply runs_seq; [exact (free_runs blob n e w1 (bi_heap _ _ _ _ _ _ _ Hbi1) (bi_block _ _ _ _ _ _ _ Hbi1))|].
      intros _ w3 (_ & _ & [Q1 Q2]). apply runs_ret. rewrite <- Ht. cbn. rewrite app_nil_r, Q1, Q2, (sh_out _ _ _ Hsh), (sh_written _ _ _ Hsh).
      split; [done|]. by rewrite Io1, Io2. }
    rewrite zlen_cons in El. pose proof (zlen_nonneg todo). rewrite (proj2 (Z.leb_le _ _)) by lia.
    rewrite E in Hqs. apply Forall_app in Hqs as [_ [Hq _]%Forall_cons]. destruct q as [node prop].
    destruct (query_args_at dn node prop todo) as [L1 L2]. rewrite <- E in L1, L2. rewrite L1, L2. cbn [nonnull].
    apply runs_bind, runs_lift. eapply runs_mono; [exact (query_runs w0 w1 s blob n (node, prop) (2 * zlen dn) Hsh Hbi Hq)|].
    cbn [get_lines] in Ht. intros [j|r] w2; destruct (get_line disp strs items (node, prop)) as [t|]; try done.
    + intros [-> Hsh2]. split; [|lia]. exists (dn ++ [(node, prop)]), todo, (s ++ t ++ [nl]). split; [by rewrite <- app_assoc|].
      split; [rewrite zlen_app; change (zlen [(node, prop)]) with 1; lia|]. split; [done|]. rewrite <- Ht.
      destruct (get_lines disp strs items todo) as [s' ok]. cbn [fst snd]. by rewrite <- !app_assoc.
    + intros (-> & O1 & O2). rewrite <- Ht. cbn [fst snd]. rewrite app_nil_r, O1, O2. split; [done|]. by rewrite Io1, Io2.
Qed.
End queries.
