(* ===== verification/ToolPutSpec.v ===== *)
(** fdtput: the value made of the arguments, the property stored with room made
    for it, and the file written. *)
From S2P Require Import Prelude Monad Ctype Memory Libfdt Fdt FdtSpec FdtTree FdtRo FdtWip FdtRead FdtNav.
From S2P Require Import FdtRw FdtEdit FdtRwSpec FdtRwProp FdtPack ToolWorld ToolUtil ToolHeap ToolGet.
From S2P Require Import ToolGetSpec ToolPut.

(** ** The arguments as a value *)

(** What fdtput stores for one argument: a string with its end, or a number of
    4 bytes or of 1. There is none for a number of 2 bytes, one of which is
    never written, nor for an argument that is no number, for which fdtput
    stores what the variable held before. *)
Definition encode_arg (disp : display_info) (a : list byte) : option (list byte) :=
  if bool_decide (type disp = "s"%byte) then Some (a ++ [x00]) else
  match sscanf_int (type disp) a with
  | Ret (Some v) =>
    if (size disp =? - 1) || (size disp =? 4) then Some (be_enc32 v)
    else if size disp =? 1 then Some [z2b v] else None
  | _ => None
  end.

Fixpoint encode_args (disp : display_info) (args : list (list byte)) : option (list byte) :=
  match args with
  | [] => Some []
  | a :: args => a ← encode_arg disp a; v ← encode_args disp args; Some (a ++ v)
  end.

(** A value being built: no block yet, or a block that holds it. *)
Definition val_holds (w w1 : world) (value : option Z) (n : Z) (data : list byte) : Prop :=
  match value with
  | Some v => holds w w1 v n data
  | None => n = 0 /\ data = [] /\ heap_ok w1 /\ kept (fun _ => True) w w1 /\ quiet_io w w1
  end.

(** Messages change none of it. *)
Lemma eprint_runs w w1 value n data (b : bool) s e (Q : unit -> world -> Prop) :
  val_holds w w1 value n data -> (forall w2, val_holds w w2 value n data -> Q tt w2) ->
  runs (pwhen b (eprintf s)) e w1 Q.
Proof.
  intros Hh HQ. destruct b; [|by apply HQ]. apply eprintf_runs, HQ. destruct value as [v|].
  - destruct Hh as [[A B C D] H2 H3 H4 [H5 H6] H7 H8]. split; [by split|done..].
  - destruct Hh as (-> & -> & [A B C D] & H4 & [H5 H6]). split; [done|]. split; [done|]. split; [by split|done].
Qed.

(** The buffer is enlarged when it is needed. *)
Lemma enlarge_runs w w1 value n data need e (Q : option Z * Z -> world -> Prop) :
  val_holds w w1 value n data -> 0 < need -> zlen data <= need ->
  (forall v n' w2, holds w w2 v n' data -> need <= n' -> Q (Some v, n') w2) ->
  runs (if n <? need then
          let value_size := need + 500 in
          let* value := xrealloc value value_size in pret (Some value, value_size)
        else pret (value, n)) e w1 Q.
Proof.
  intros Hh Hn Hd HQ. destruct (Z.ltb_spec n need); cbv zeta.
  - apply runs_bind. destruct value as [v|]; cbn [val_holds] in Hh.
    + eapply holds_grow; [exact Hh|lia|]. intros q w2 H2. apply runs_ret, HQ; [done|lia].
    + destruct Hh as (-> & -> & Hok & K & Q0). eapply runs_mono; [exact (xmalloc_runs (need + 500) e w1 ltac:(lia) Hok)|].
      intros p w2 (Hok2 & Ep & Hp & K2 & Q2). apply runs_ret, HQ; [|lia]. split; try done.
      * destruct (w_blocks w !! p) as [k|] eqn:E; [|done]. destruct (K p k I E) as [E1 _]. congruence.
      * exact (kept_trans _ _ _ _ K K2).
      * exact (quiet_io_trans _ _ _ Q0 Q2).
      * change (zlen (@nil byte)) with 0. lia.
  - destruct value as [v|]; cbn [val_holds] in Hh; [|lia]. apply runs_ret, HQ; [done|lia].
Qed.

Lemma encode_arg_len disp a d : encode_arg disp a = Some d ->
  zlen d = (if bool_decide (type disp = "s"%byte) then zlen a + 1 else if size disp =? - 1 then 4 else size disp) /\ 0 < zlen d.
Proof.
  unfold encode_arg. case_bool_decide.
  - intros [= <-]. rewrite zlen_app. change (zlen [x00]) with 1. pose proof (zlen_nonneg a). lia.
  - destruct (sscanf_int _ _) as [[v|]|]; [|done..]. destruct (Z.eqb_spec (size disp) (- 1)), (Z.eqb_spec (size disp) 4); cbn [orb];
      try (intros [= <-]; rewrite be_enc32_zlen; lia). destruct (Z.eqb_spec (size disp) 1); [|done]. intros [= <-]. change (zlen [z2b v]) with 1. lia.
Qed.

Lemma encode_args_len disp args val : encode_args disp args = Some val -> zlen args <= zlen val.
Proof.
  revert val. induction args as [|a args IH]; intros val; cbn [encode_args]; [intros [= <-]; done|].
  destruct (encode_arg disp a) as [d|] eqn:Ea; [|done]. cbn. destruct (encode_args disp args) as [v|]; [|done]. cbn.
  intros [= <-]. apply encode_arg_len in Ea as [_ ?]. specialize (IH v eq_refl). rewrite zlen_app, zlen_cons. lia.
Qed.

(** One round: the bytes of the argument behind the value so far. *)
Lemma store_arg_runs w w1 disp a d v n pre ival e (Q : Z -> world -> Prop) :
  encode_arg disp a = Some d -> holds w w1 v n pre -> zlen pre + zlen d <= n ->
  (forall ival w2, holds w w2 v n (pre ++ d) -> Q ival w2) ->
  runs (encode_one disp a (v + zlen pre) (zlen d) ival) e w1 Q.
Proof.
  intros Ea Hh Hn HQ. unfold encode_one. cbv zeta.
  assert (forall ival b s w2, holds w w2 v n (pre ++ d) -> runs (do* pwhen b (eprintf s) in pret ival) e w2 Q) as K.
  { intros i b s w2 H2. apply runs_bind. apply (eprint_runs w w2 (Some v) n _ _ _ _ _ H2). intros w3 H3. apply runs_ret, HQ, H3. }
  unfold encode_arg in Ea. case_bool_decide.
  - injection Ea as <-. apply runs_bind. apply (holds_store w w1 v n pre (a ++ [x00]) _ _ _ Hh); [done..|]. intros w2 H2. apply K, H2.
  - destruct (sscanf_int _ _) as [[i|]|]; [|done..]. apply runs_bind, runs_lift. cbn [default]. apply runs_bind.
    apply (holds_store w w1 v n pre d _ _ _ Hh); [done| |intros w2 H2; apply K, H2]. intros m.
    destruct (_ || _); [|destruct (size disp =? 1); [|done]]; injection Ea as <-; [|done].
    rewrite be_enc32_zlen. unfold st32. by rewrite be_enc32_u32.
Qed.

Lemma encode_value_runs e w disp args val :
  heap_ok w -> encode_args disp args = Some val -> zlen val <= INT_MAX ->
  runs (encode_value disp args) e w (fun '(value, len) w' => len = zlen val /\ exists n, val_holds w w' value n val).
Proof.
  intros Hok Hval Hlen. unfold runs, encode_value. enter_prog.
  assert (val_holds w w None 0 []) as H0 by (split; [done|]; split; [done|]; split; [done|]; split; [apply kept_refl|done]).
  apply runs_bind. apply (eprint_runs _ _ _ _ _ _ _ _ _ H0). clear H0. intros w1 H1.
  apply (runs_loop (fun '(arg, value, value_size, upto, ival) w' => exists pre rest, val = pre ++ rest /\
    encode_args disp arg = Some rest /\ upto = zlen pre /\ val_holds w w' value value_size pre)
    (fun '(arg, value, value_size, upto, ival) => zlen arg)).
  - exists [], val. done.
  - intros [[[[arg value] vs] upto] ival] w2 (pre & rest & -> & Ha & _). apply encode_args_len in Ha.
    rewrite zlen_app in Hlen. pose proof (zlen_nonneg pre). pose proof (zlen_nonneg arg). unfold loop_bound. ilia.
  - intros [[[[arg value] vs] upto] ival] w2 (pre & rest & -> & Ha & -> & Hh). destruct arg as [|a arg]; cbn [encode_args] in Ha.
    + injection Ha as <-. rewrite app_nil_r. apply runs_bind. apply (eprint_runs _ _ _ _ _ _ _ _ _ Hh). intros w3 H3.
      apply runs_ret. eauto.
    + destruct (encode_arg disp a) as [d|] eqn:Ea; [|done]. cbn in Ha. destruct (encode_args disp arg) as [v|] eqn:Er; [|done].
      cbn in Ha. injection Ha as <-. destruct (encode_arg_len _ _ _ Ea) as [Ed Hd]. cbv zeta. rewrite <- Ed.
      pose proof (zlen_nonneg pre). apply runs_bind. apply (enlarge_runs _ _ _ _ _ (zlen pre + zlen d) _ _ Hh); [lia..|].
      intros p n' w3 H3 Hn. apply runs_bind. cbn [nonnull]. apply runs_lift. apply runs_bind.
      apply (store_arg_runs _ _ _ _ _ _ _ _ _ _ _ Ea H3); [lia|]. intros ival' w4 H4. apply runs_ret. split.
      * exists (pre ++ d), v. rewrite <- app_assoc, zlen_app. done.
      * rewrite zlen_cons. lia.
Qed.

(** ** Room for a property *)

Lemma realloc_fdt_runs e w blob n h rsv ts strs delta :
  blob_in w blob n h rsv ts strs -> 0 <= delta -> h_totalsize h + delta < INT_MAX ->
  runs (realloc_fdt blob delta) e w (fun blob' w' => exists h', blob_in w' blob' (h_totalsize h + delta) h' rsv ts strs /\
    h_totalsize h' = h_totalsize h + delta /\ data_end h' = data_end h /\ w_blocks w !! blob' = None /\
    kept (fun p => p <> blob) w w' /\ quiet_io w w').
Proof.
  intros [Hok Hb Hn Hrw] Hd Hmax. pose proof (rw_sizes _ _ _ _ _ _ Hrw) as (S1 & S2 & S3 & S4 & S5 & S6 & S7).
  pose proof (zlen_nonneg rsv). unfold data_end in *.
  unfold realloc_fdt. apply runs_bind. apply (runs_reading _ (h_totalsize h)).
  { exact (blob_hdr _ _ _ (sa_blob _ _ _ _ (ta_struct _ _ _ _ _ (rw_tree _ _ _ _ _ _ Hrw))) f_totalsize). }
  cbv zeta. rewrite s32_small by ilia.
  eapply runs_seq; [exact (xrealloc_runs blob n (h_totalsize h + delta) e w ltac:(lia) Hok Hb)|].
  intros q w1 (Hok1 & Eq & Hq & C & K & Q). destruct (ho_block _ Hok1 _ _ Eq) as (_ & Ha%aligned8 & _ & Hv).
  assert (rw_at (w_mem w1) q h rsv ts strs) as Hrw1 by (eapply rw_at_copied; [exact Hrw|eapply copied_at; [exact C|lia..]|exact Ha]).
  destruct (fdt_open_into_at (w_mem w1) q h rsv ts strs (rw_tree _ _ _ _ _ _ Hrw1) (rw_rsv _ _ _ _ _ _ Hrw1) ltac:(lia) ltac:(lia)
    ltac:(lia) ltac:(unfold packed_size; ilia) q (h_totalsize h + delta) Hv ltac:(ilia) Ha) as (err & m' & Eo & Hcase).
  unfold open_room in Hcase. rewrite (rw_ordered _ _ _ _ _ _ Hrw1) in Hcase.
  destruct (Z.leb_spec (h_totalsize h) (h_totalsize h + delta)); [|lia]. destruct Hcase as (_ & h' & Hop).
  apply runs_bind. apply (runs_changing _ err m'); [exact Eo|]. apply runs_ret. exists h'.
  destruct (heap_call w1 m' q _ q (h_totalsize h + delta) Hok1 Eq (op_changes _ _ _ _ _ _ _ _ _ _ Hop)) as (Hok2 & K2 & Q2); [lia..|].
  pose proof (op_total _ _ _ _ _ _ _ _ _ _ Hop) as Et. pose proof (op_end _ _ _ _ _ _ _ _ _ _ Hop) as Ee.
  rewrite (rw_ordered _ _ _ _ _ _ Hrw1) in Ee.
  split; [split; [done|done|lia|exact (op_rw _ _ _ _ _ _ _ _ _ _ Hop)]|]. split; [done|]. split; [done|]. split; [done|].
  split; [exact (kept_new _ _ _ _ _ K Hq K2)|exact (quiet_io_trans _ _ _ Q Q2)].
Qed.

(** A value in a block of its own. *)
Definition value_in (w : world) (value : option Z) (val : list byte) : Prop :=
  match value with
  | Some v => exists k, w_blocks w !! v = Some k /\ zlen val <= k /\ bytes_at (w_mem w) v val
  | None => val = []
  end.

Lemma value_in_kept P w w' value val : kept P w w' -> (forall v, value = Some v -> P v) ->
  value_in w value val -> value_in w' value val.
Proof.
  intros K HP. destruct value as [v|]; [|done]. intros (k & E & Hk & Hb). destruct (K v k (HP v eq_refl) E) as [E' C].
  exists k. split; [done|]. split; [done|]. eapply copied_bytes; [|exact Hb]. pose proof (zlen_nonneg val). eapply copied_at; [exact C|lia..].
Qed.

Section store.
Context (rsv : list (Z * Z)) (strs : list byte).
Context (pre post : list tok) (nm : list byte) (items : list item).
Context (name val : list byte).
Context (Hval : zlen val <= INT_MAX - 15) (Hname : zlen name < INT_MAX).

(** One call of [fdt_setprop]. *)
Lemma setprop_runs e w blob n h value :
  blob_in w blob n h rsv (in_tree pre nm items post) strs -> value_in w value val ->
  runs (let* val := reading (fun m => load_bytes m (default 0 value) (zlen val)) in
        changing (fun m => fdt_setprop m blob (toks_len pre) name val)) e w (fun err w' => kept (fun p => p <> blob) w w' /\ quiet_io w w' /\
    if data_end h + set_growth strs name items (zlen val) <=? h_totalsize h then
      err = 0 /\ blob_in w' blob n (set_hdr h strs name items (zlen val)) rsv
        (in_tree pre nm (set_items strs name items val) post) (set_strs strs name items)
    else err = - FDT_ERR_NOSPACE /\ blob_in w' blob n h rsv (in_tree pre nm items post) strs).
Proof using Hval Hname.
  intros [Hok Hb Hn Hrw] Hv. apply runs_bind. apply (runs_reading _ val).
  { destruct value as [v|]; cbn in *; [|by rewrite Hv]. destruct Hv as (k & _ & _ & Hby). by apply load_bytes_at. }
  pose proof (setprop_at _ _ _ _ _ _ _ _ _ Hrw name val Hval Hname) as H. destruct (Z.leb_spec (data_end h + set_growth strs name items (zlen val)) (h_totalsize h)).
  - destruct H as (m' & E & Hrw' & Hc). apply (runs_changing _ 0 m'); [exact E|].
    destruct (heap_call w m' blob n _ _ Hok Hb Hc) as (Hok' & K & Q); [lia..|]. split; [done|]. split; [done|]. split; [done|].
    split; [done|done| |done]. by rewrite (proj2 (set_hdr_struct _ _ _ _ _)).
  - destruct H as (m' & E & Hrw' & Hc). apply (runs_changing _ (- FDT_ERR_NOSPACE) m'); [exact E|].
    destruct (heap_call w m' blob n _ _ Hok Hb Hc) as (Hok' & K & Q); [lia..|]. split; [done|]. split; [done|]. split; [done|].
    by split.
Qed.

(** What [realloc_property] asks for when there was no room. *)
Definition prop_room : Z :=
  match split_prop strs name items with
  | Some (_, _, d, _) => align_up (zlen val) 4 - align_up (zlen d) 4
  | None => 12 + zlen name + 1 + align_up (zlen val) 4
  end.

Lemma prop_room_enough : set_growth strs name items (zlen val) <= prop_room.
Proof using.
  unfold set_growth, prop_room, add_growth, str_growth. pose proof (zlen_nonneg name).
  destruct (split_prop strs name items) as [[[[a no] d] b]|]; [lia|]. destruct (str_pos strs name); lia.
Qed.

Lemma realloc_property_runs e w blob n h :
  blob_in w blob n h rsv (in_tree pre nm items post) strs ->
  h_totalsize h < data_end h + set_growth strs name items (zlen val) -> h_totalsize h + prop_room < INT_MAX ->
  runs (realloc_property blob (toks_len pre) name (zlen val)) e w (fun blob' w' => exists h' n',
    blob_in w' blob' n' h' rsv (in_tree pre nm items post) strs /\
    data_end h' + set_growth strs name items (zlen val) <= h_totalsize h' /\ w_blocks w !! blob' = None /\
    kept (fun p => p <> blob) w w' /\ quiet_io w w').
Proof using Hval Hname.
  intros Hbi Hroom Hmax. pose proof (rw_sizes _ _ _ _ _ _ (bi_tree _ _ _ _ _ _ _ Hbi)) as (S1 & S2 & S3 & S4 & S5 & S6 & S7).
  assert (0 <= h_totalsize h) as S0 by (pose proof (zlen_nonneg rsv); unfold data_end in S6; lia).
  pose proof prop_room_enough as Hen. unfold realloc_property. apply runs_bind.
  eapply runs_reading; [exact (get_property_at _ _ _ _ _ _ _ _ _ (bi_tree _ _ _ _ _ _ _ Hbi) name)|].
  pose proof (zlen_nonneg val). pose proof (zlen_nonneg name). pose proof (align_up_4_bounds (zlen val)).
  assert (forall d, d = prop_room -> runs (realloc_fdt blob d) e w (fun blob' w' => exists h' n',
    blob_in w' blob' n' h' rsv (in_tree pre nm items post) strs /\
    data_end h' + set_growth strs name items (zlen val) <= h_totalsize h' /\ w_blocks w !! blob' = None /\
    kept (fun p => p <> blob) w w' /\ quiet_io w w')) as K.
  { intros d ->. eapply runs_mono; [exact (realloc_fdt_runs e w blob n h _ _ _ prop_room Hbi ltac:(lia) Hmax)|].
    intros blob' w' (h' & Hbi' & Et & Ee & Hnew & Hk & Hq). exists h', (h_totalsize h + prop_room).
    split; [done|]. split; [lia|done]. }
  unfold prop_room, set_growth, add_growth, str_growth in *.
  destruct (split_prop strs name items) as [[[[a no] d] b]|] eqn:E; cbn [is_null].
  - destruct (Z.ltb_spec (zlen d) (zlen val)); [|rewrite !align_up_4 in Hroom; Z.to_euclidean_division_equations; lia].
    apply K. rewrite Z.add_0_l. rewrite s32_small; [done|].
    pose proof (align_up_4_bounds (zlen d)). pose proof (zlen_nonneg d). ilia.
  - change (- FDT_ERR_NOTFOUND) with (- 1). destruct (Z.ltb_spec (- 1) (zlen val)); [|lia]. apply K.
    change (align_up (- 1) 4) with 0. rewrite (s32_small (12 + zlen name + 1)) by ilia. rewrite s32_small by ilia. lia.
Qed.

(** [store_key_value] always finds room for the property. *)
Lemma store_key_value_runs e w blob n h value node_name :
  blob_in w blob n h rsv (in_tree pre nm items post) strs -> value_in w value val -> value <> Some blob ->
  fdt_path_offset (w_mem w) blob node_name = Ret (toks_len pre) -> h_totalsize h + prop_room < INT_MAX ->
  runs (store_key_value blob node_name name value (zlen val)) e w (fun '(r, blob') w' => r = 0 /\ exists h' n',
    blob_in w' blob' n' h' rsv (in_tree pre nm (set_items strs name items val) post) (set_strs strs name items) /\
    (blob' = blob \/ w_blocks w !! blob' = None) /\ kept (fun p => p <> blob) w w' /\ quiet_io w w').
Proof using Hval Hname.
  intros Hbi Hv Hne Hp Hmax. unfold store_key_value. apply runs_bind. eapply runs_reading; [exact Hp|].
  pose proof (toks_len_nonneg pre). destruct (Z.ltb_spec (toks_len pre) 0); [lia|]. cbv zeta.
  eapply runs_seq; [exact (setprop_runs e w blob n h value Hbi Hv)|]. intros err w1 (K1 & Q1 & Hcase).
  destruct (Z.leb_spec (data_end h + set_growth strs name items (zlen val)) (h_totalsize h)) as [Hle|Hgt].
  { destruct Hcase as [-> Hbi1]. change (0 =? - FDT_ERR_NOSPACE) with false. cbv iota. apply runs_bind, runs_ret.
    change (negb (0 =? 0)) with false. cbv iota. apply runs_ret. eauto 10. }
  destruct Hcase as [-> Hbi1]. rewrite Z.eqb_refl. apply runs_bind. apply runs_bind.
  assert (value_in w1 value val) as Hv1 by (eapply value_in_kept; [exact K1|congruence|exact Hv]).
  eapply runs_mono; [exact (realloc_property_runs e w1 blob n h Hbi1 Hgt Hmax)|].
  intros blob' w2 (h' & n' & Hbi2 & Hroom & Hnew & K2 & Q2). apply runs_bind.
  assert (value_in w2 value val) as Hv2 by (eapply value_in_kept; [exact K2|congruence|exact Hv1]).
  eapply runs_mono; [exact (setprop_runs e w2 blob' n' h' value Hbi2 Hv2)|]. intros err w3 (K3 & Q3 & Hcase).
  destruct (Z.leb_spec (data_end h' + set_growth strs name items (zlen val)) (h_totalsize h')); [|lia].
  destruct Hcase as [-> Hbi3]. apply runs_ret. change (negb (0 =? 0)) with false. cbv iota. apply runs_ret.
  pose proof (bi_block _ _ _ _ _ _ _ Hbi1) as Eb. assert (blob' <> blob) as Hb by congruence.
  assert (w_blocks w !! blob' = None) as Hnew0.
  { destruct (w_blocks w !! blob') as [k|] eqn:E; [|done]. destruct (K1 blob' k Hb E) as [E1 _]. congruence. }
  split; [done|]. eexists _, n'. split; [exact Hbi3|]. split; [by right|]. split.
  - exact (kept_new _ _ _ _ _ (kept_trans _ _ _ _ K1 K2) Hnew0 K3).
  - exact (quiet_io_trans _ _ _ (quiet_io_trans _ _ _ Q1 Q2) Q3).
Qed.
End store.

(** ** The whole program *)

(** Packing the blob and writing it to a file; the blocks are freed. *)
Lemma pack_write_runs e w filename blob n h rsv ts strs value val :
  io_works e -> blob_in w blob n h rsv ts strs -> value_in w value val -> value <> Some blob ->
  runs (let* ret := (let* _ := changing (fun m => fdt_pack m blob) in utilfdt_write filename blob) in
        do* free blob in do* free_opt value in pret ret) e w
    (fun ret w' => ret = 0 /\ exists h' data', file_is data' h' rsv ts strs /\ zlen data' = h_totalsize h' /\
      h_totalsize h' = packed_size h rsv /\ quiet_io (with_output filename data' w) w').
Proof.
  intros [_ Hwr Hcr] [Hok Hb Hn Hrw] Hv Hne. apply runs_bind, runs_bind.
  destruct (fdt_pack_at _ _ _ _ _ _ Hrw) as (m1 & Ep & Cp & Sp & Hrw1). set (h' := with_total _ _) in *.
  pose proof (rw_sizes _ _ _ _ _ _ Hrw) as (S1 & S2 & S3 & S4 & S5 & S6 & S7).
  apply (runs_changing _ 0 m1); [exact Ep|]. destruct (heap_call w m1 blob n _ _ Hok Hb Cp) as (Hok1 & K1 & Q1); [lia..|].
  assert (h_totalsize h' = packed_size h rsv) as Et by done.
  pose proof (sa_blob _ _ _ _ (ta_struct _ _ _ _ _ (rw_tree _ _ _ _ _ _ Hrw1))) as Hbl.
  eapply runs_mono.
  { apply (utilfdt_write_runs e (set_mem m1 w) filename blob h'); [apply Hbl|apply Hbl|lia|right; apply Hcr|exact Hwr]. }
  intros ret w2 (-> & data' & Ed & Hd & ->). destruct (with_output_heap filename data' (set_mem m1 w)) as (O1 & O2 & O3).
  assert (heap_ok (with_output filename data' (set_mem m1 w))) as Hok2 by (apply (heap_ok_ext (set_mem m1 w)); done).
  eapply runs_seq; [apply (free_runs blob n); [exact Hok2|by rewrite O3]|]. intros _ w3 (Hok3 & K3 & Q3).
  assert (quiet_io (with_output filename data' w) w3) as Q.
  { destruct Q3 as [Q3 Q3']. unfold with_output in *. destruct (streq _ _); exact (conj Q3 Q3'). }
  assert (forall w4, quiet_io w3 w4 -> 0 = 0 /\ exists h' data', file_is data' h' rsv ts strs /\ zlen data' = h_totalsize h' /\
      h_totalsize h' = packed_size h rsv /\ quiet_io (with_output filename data' w) w4) as Hend.
  { intros w4 Q4. split; [done|]. exists h', data'. split; [|split; [done|split; [done|exact (quiet_io_trans _ _ _ Q Q4)]]].
    apply (file_of_tree _ _ _ _ _ _ _ Hrw1 Hd). lia. }
  apply runs_bind. destruct value as [v|]; cbn [free_opt]; [|apply runs_ret, runs_ret, Hend; done].
  destruct Hv as (k & Ev & _). destruct (K3 v k) as [Ev3 _]; [congruence|rewrite O3; apply (K1 v k); [congruence|done]|].
  eapply runs_mono; [exact (free_runs v k e w3 Hok3 Ev3)|]. intros _ w4 (_ & _ & Q4). apply runs_ret, Hend, Q4.
Qed.

(** Setting a property: the file written is the tree with the value of the
    arguments set at the node, packed. *)
Lemma do_fdtput_runs e w disp filename data h rsv rn items strs node prop args its val :
  io_works e -> heap_ok w -> contents e filename = Some data -> zlen data < Z.pos loop_bound ->
  file_is data h rsv (flat (INode rn items)) strs ->
  oper disp = OPER_WRITE_PROP -> auto_path disp = false ->
  head node = Some "/"%byte -> Z.of_nat (length node) < Z.pos loop_bound - 1 -> items_at (path_comps node) items = Some its ->
  encode_args disp args = Some val -> zlen val <= INT_MAX - 15 -> zlen prop < INT_MAX ->
  h_totalsize h + prop_room strs its prop val < INT_MAX ->
  runs (do_fdtput disp filename (node :: prop :: args)) e w (fun r w' => r = 0 /\ exists h' data',
    file_is data' h' rsv (flat (INode rn (edit_at (path_comps node) (fun its => set_items strs prop its val) items)))
      (set_strs strs prop its) /\
    zlen data' = h_totalsize h' /\ quiet_io (with_output filename data' w) w').
Proof.
  intros Hio Hok Hc Hl Hf Hop Hauto Hnode Hlen Hits Henc Hval Hprop Hmax. unfold do_fdtput.
  eapply runs_seq; [exact (utilfdt_read_runs e w filename data Hok Hc (io_read _ Hio) Hl)|].
  intros [buffp len] w1 (blob & n & -> & -> & Hh). cbv iota. pose proof (holds_blob _ _ _ _ _ _ _ _ _ Hh Hf) as Hbi.
  apply runs_bind. unfold do_oper. rewrite Hop, Hauto. apply runs_bind, runs_ret. change (negb (0 =? 0)) with false. cbv iota.
  eapply runs_seq; [exact (encode_value_runs e w1 disp args val (hd_heap _ _ _ _ _ Hh) Henc ltac:(lia))|].
  intros [value len] w2 (-> & k & Hv2).
  assert (heap_ok w2 /\ kept (fun _ => True) w1 w2 /\ quiet_io w1 w2 /\ value_in w2 value val /\ value <> Some blob)
    as (Hok2 & K2 & Q2 & Hvin & Hne).
  { destruct value as [v|]; cbn [val_holds] in Hv2.
    - destruct Hv2 as [A B C D E F G]. split; [done|]. split; [done|]. split; [done|]. split; [exists k; done|].
      intros [= ->]. pose proof (hd_block _ _ _ _ _ Hh). congruence.
    - destruct Hv2 as (-> & -> & A & B & C). done. }
  pose proof (blob_kept _ _ _ _ _ _ _ _ _ Hbi K2 I Hok2) as Hbi2.
  destruct (node_at_path _ rn items its Hits) as (pre & nm & post & E1 & E2 & E3).
  rewrite E1 in Hbi2. change (pre ++ flat (INode nm its) ++ post) with (in_tree pre nm its post) in Hbi2.
  eapply runs_seq.
  { apply (store_key_value_runs rsv strs pre post nm its prop val Hval Hprop e w2 blob n h value node Hbi2 Hvin Hne); [|exact Hmax].
    pose proof (rw_tree _ _ _ _ _ _ (bi_tree _ _ _ _ _ _ _ Hbi2)) as Ht.
    rewrite (fdt_path_offset_at _ _ _ _ _ Ht node rn items []); [by rewrite E2|rewrite app_nil_r; by rewrite E1|done|done]. }
  intros [r blob'] w3 (-> & h' & n' & Hbi3 & Hnew & K3 & Q3). change (negb (0 =? 0)) with false. cbv iota. apply runs_ret.
  change (0 <=? 0) with true. cbv iota.
  assert (value_in w3 value val) as Hvin3 by (eapply value_in_kept; [exact K3|congruence|exact Hvin]).
  eapply runs_mono.
  { apply (pack_write_runs e w3 filename blob' n' h' _ _ _ value val Hio Hbi3 Hvin3).
    destruct Hnew as [->|Hnew]; [done|]. intros ->. destruct Hvin as (j & Ej & _). congruence. }
  intros ret w4 (-> & h'' & data' & Hf' & Hd & _ & Q4). split; [done|]. exists h'', data'. rewrite E3. split; [exact Hf'|]. split; [done|].
  pose proof (quiet_io_trans _ _ _ (hd_io _ _ _ _ _ Hh) (quiet_io_trans _ _ _ Q2 Q3)) as [Q5 Q6].
  destruct Q4 as [Q4 Q4']. unfold with_output in *. destruct (streq _ _); split; cbn in *; congruence.
Qed.

(** ** What fdtget shows of a value is what fdtput was given. *)

(** An argument as it is shown: a string as it is, a number as printed with the
    conversion it was read with, of the bytes that were stored. *)
Definition arg_text (disp : display_info) (a : list byte) : list byte :=
  if bool_decide (type disp = "s"%byte) then a else
  match sscanf_int (type disp) a with
  | Ret (Some v) => print_int (type disp) (if size disp =? 1 then v mod 256 else v)
  | _ => []
  end.

Lemma string_of_app a rest : no_nul a -> string_of (a ++ x00 :: rest) = a.
Proof.
  induction a as [|c a IH]; [done|]. unfold no_nul. rewrite not_elem_of_cons. intros [Hc Ha]. cbn [app string_of].
  rewrite bool_decide_eq_false_2 by congruence. by rewrite IH.
Qed.

(** Strings one after the other. *)
Lemma encode_strings disp args val : type disp = "s"%byte -> Forall no_nul args -> encode_args disp args = Some val ->
  (forall fuel, (length val <= fuel)%nat -> strings fuel val = args) /\ (val = [] \/ last val = Some x00).
Proof.
  intros Ht. revert val. induction args as [|a args IH]; intros val Hnn; cbn [encode_args].
  { intros [= <-]. split; [by intros []|by left]. }
  apply Forall_cons in Hnn as [Ha Hnn]. unfold encode_arg at 1. rewrite bool_decide_eq_true_2 by done. cbn [mbind option_bind].
  destruct (encode_args disp args) as [v|]; [|done]. cbn [mbind option_bind]. intros [= <-].
  destruct (IH v Hnn eq_refl) as [IH1 IH2]. rewrite <- app_assoc. cbn [app]. split.
  - intros [|fuel] Hf; [rewrite length_app in Hf; cbn in Hf; lia|].
    assert (strings (S fuel) (a ++ x00 :: v) = string_of (a ++ x00 :: v) ::
      strings fuel (drop (S (length (string_of (a ++ x00 :: v)))) (a ++ x00 :: v))) as -> by (by destruct a).
    rewrite string_of_app by done. f_equal. rewrite drop_app_ge by lia.
    replace (S (length a) - length a)%nat with 1%nat by lia. cbn [drop]. rewrite drop_0. apply IH1. rewrite length_app in Hf; cbn in Hf; lia.
  - right. rewrite last_app. destruct IH2 as [->|Hl]; [done|]. destruct v; [done|]. by rewrite last_cons_cons, Hl.
Qed.

(** The conversion sees 32 bits only. *)
Lemma print_int_u32 type v : print_int type (u32 v) = print_int type v.
Proof.
  assert (u32 (u32 v) = u32 v) as E1 by (unfold u32; by rewrite Z.mod_mod).
  assert (s32 (u32 v) = s32 v) as E2 by (unfold s32, u32; Z.to_euclidean_division_equations; lia).
  unfold print_int. by destruct type; rewrite ?E1, ?E2.
Qed.

(** Words or bytes one after the other. *)
Lemma encode_numbers disp args val n : type disp <> "s"%byte ->
  n = (if size disp =? 1 then 1 else 4) -> encode_args disp args = Some val ->
  zlen val = n * zlen args /\
  forall fuel, (length val <= fuel)%nat -> map (print_int (type disp)) (numbers fuel n val) = map (arg_text disp) args.
Proof.
  intros Ht Hn. revert val. induction args as [|a args IH]; intros val; cbn [encode_args].
  { intros [= <-]. split; [change (zlen (@nil (list byte))) with 0; rewrite Z.mul_0_r; done|by intros []]. }
  assert (arg_text disp a = match sscanf_int (type disp) a with
                            | Ret (Some v) => print_int (type disp) (if size disp =? 1 then v mod 256 else v)
                            | _ => [] end) as Ea by (unfold arg_text; by rewrite bool_decide_eq_false_2).
  cbn [map]. rewrite Ea. clear Ea. unfold encode_arg at 1. rewrite bool_decide_eq_false_2 by done.
  destruct (sscanf_int (type disp) a) as [[v|]|] eqn:Es; [|done..].
  assert (forall d, zlen d = n -> print_int (type disp) (number_at n d) = print_int (type disp) (if size disp =? 1 then v mod 256 else v) ->
    forall rest, (forall k, number_at n (d ++ k) = number_at n d) ->
    encode_args disp args = Some rest -> zlen (d ++ rest) = n * zlen (a :: args) /\ forall fuel, (length (d ++ rest) <= fuel)%nat ->
      map (print_int (type disp)) (numbers fuel n (d ++ rest)) = print_int (type disp) (if size disp =? 1 then v mod 256 else v) :: map (arg_text disp) args) as K.
  { intros d Hd Hp rest Hna Er. destruct (IH rest Er) as [I1 I2]. rewrite zlen_app, zlen_cons. split; [lia|].
    assert (0 < n) by (subst n; destruct (size disp =? 1); lia).
    intros [|fuel] Hf; [rewrite length_app in Hf; unfold zlen in *; lia|]. destruct d as [|c d]; [change (zlen (@nil byte)) with 0 in Hd; lia|].
    change (numbers (S fuel) n ((c :: d) ++ rest)) with (number_at n ((c :: d) ++ rest) :: numbers fuel n (drop (Z.to_nat n) ((c :: d) ++ rest))).
    rewrite drop_app_length' by (unfold zlen in *; lia). cbn [map]. rewrite Hna, Hp. f_equal. apply I2.
    rewrite length_app in Hf. cbn [length] in Hf. lia. }
  destruct (Z.eqb_spec (size disp) 1) as [E1|N1].
  - rewrite E1. cbn [orb Z.eqb]. destruct (encode_args disp args) as [rest|] eqn:Er; [|done]. cbn [mbind option_bind]. intros [= <-].
    refine (K [z2b v] _ _ rest _ eq_refl); [by rewrite Hn| |].
    + rewrite Hn. change (number_at 1 [z2b v]) with (b2z (z2b v)). by rewrite b2z_z2b.
    + intros k. by rewrite Hn.
  - destruct (_ || _); [|done]. cbn [mbind option_bind]. destruct (encode_args disp args) as [rest|] eqn:Er; [|done].
    cbn [mbind option_bind]. intros [= <-]. refine (K (be_enc32 v) _ _ rest _ eq_refl); [by rewrite be_enc32_zlen|rewrite Hn..].
    + change (number_at 4 (be_enc32 v)) with (be32 (z2b (Z.shiftr v 24)) (z2b (Z.shiftr v 16)) (z2b (Z.shiftr v 8)) (z2b v)).
      by rewrite be32_enc, print_int_u32.
    + intros k. done.
Qed.

(** With an explicit type the arguments come back. *)
Lemma encode_shown disp args val :
  encode_args disp args = Some val -> type disp <> x00 -> (type disp = "s"%byte -> Forall no_nul args) ->
  size disp = - 1 \/ size disp = 1 \/ size disp = 4 ->
  shown (type disp) (size disp) val = Some (spaced true (map (arg_text disp) args)).
Proof.
  intros Hval Ht Hs Hsz. unfold shown. case_bool_decide as Ev.
  { apply encode_args_len in Hval as Hl. subst val. destruct args; [done|]. rewrite zlen_cons in Hl.
    change (zlen (@nil byte)) with 0 in Hl. pose proof (zlen_nonneg args). lia. }
  rewrite (bool_decide_eq_false_2 (type disp = x00)) by done. cbn [andb]. rewrite orb_false_r. case_bool_decide as Es.
  - destruct (encode_strings disp args val Es (Hs Es) Hval) as [H1 H2]. destruct H2 as [|H2]; [done|].
    rewrite bool_decide_eq_true_2 by done. rewrite H1 by done. do 2 f_equal. unfold arg_text.
    rewrite bool_decide_eq_true_2 by done. by rewrite map_id.
  - assert (forall n, n = (if size disp =? 1 then 1 else 4) -> zlen val mod n = 0 /\
      map (print_int (type disp)) (numbers (length val) n val) = map (arg_text disp) args) as K.
    { intros n Hn. destruct (encode_numbers disp args val n Es Hn Hval) as [H1 H2]. split; [|by apply H2].
      rewrite H1, Z.mul_comm. apply Z.mod_mul. rewrite Hn. by destruct (size disp =? 1). }
    destruct (K _ eq_refl) as [Hm Hp]. destruct Hsz as [E|[E|E]]; rewrite E in *.
    + change (if -1 =? 1 then 1 else 4) with 4 in *. change (-1 =? -1) with true. cbv iota. rewrite Hm. change (0 =? 0) with true. cbv iota.
      rewrite Hm. change (0 =? 0) with true. cbv iota. by rewrite Hp.
    + change (if 1 =? 1 then 1 else 4) with 1 in *. change (1 =? -1) with false. cbv iota. rewrite Hm. change (0 =? 0) with true. cbv iota.
      by rewrite Hp.
    + change (if 4 =? 1 then 1 else 4) with 4 in *. change (4 =? -1) with false. cbv iota. rewrite Hm. change (0 =? 0) with true. cbv iota.
      by rewrite Hp.
Qed.
