(* ===== verification/ToolProps.v ===== *)
(** What the tools do to files: fdtput sets a property, fdtget prints it. *)
From S2P Require Import Prelude Monad Ctype Memory Libfdt Fdt FdtSpec FdtTree FdtRo FdtWip FdtRead FdtNav.
From S2P Require Import FdtCheckSpec FdtRw FdtEdit FdtRwSpec FdtRwProp Sample FdtPack ToolWorld ToolUtil.
From S2P Require Import ToolHeap ToolGet ToolGetSpec ToolPut ToolPutSpec.

(** C14. fdtput on a file with an editable tree writes the file back with the
    tree changed in the property only: where the node of the path is, the first
    property of that name has the value of the arguments, or is new. There is
    always room for it, however full the blob was, and however little a [read]
    returns or a [write] takes; the file is as long as its total size. *)
Theorem fdtput_sets_property e w disp filename data h rsv rn items strs node prop args its val :
  io_works e -> heap_ok w -> streq filename (str "-") = false -> e_file e filename = Some data -> zlen data < Z.pos loop_bound ->
  file_is data h rsv (flat (INode rn items)) strs ->
  oper disp = OPER_WRITE_PROP -> auto_path disp = false ->
  head node = Some "/"%byte -> Z.of_nat (length node) < Z.pos loop_bound - 1 -> items_at (path_comps node) items = Some its ->
  encode_args disp args = Some val -> zlen val <= INT_MAX - 15 -> zlen prop < INT_MAX ->
  h_totalsize h + prop_room strs its prop val < INT_MAX ->
  exists w' h' data', do_fdtput disp filename (node :: prop :: args) e w = Ret (0, w') /\
    w_out w' = w_out w /\ w_written w' = w_written w ++ [(filename, data')] /\
    file_is data' h' rsv (flat (INode rn (edit_at (path_comps node) (fun its => set_items strs prop its val) items)))
      (set_strs strs prop its) /\
    zlen data' = h_totalsize h'.
Proof.
  intros Hio Hok Hn Hc Hl Hf Hop Hauto Hnode Hlen Hits Henc Hval Hprop Hmax.
  assert (contents e filename = Some data) as Hc' by (unfold contents; by rewrite Hn).
  pose proof (do_fdtput_runs e w disp filename data h rsv rn items strs node prop args its val Hio Hok Hc' Hl Hf Hop Hauto Hnode
    Hlen Hits Henc Hval Hprop Hmax) as (r & w' & E & -> & h' & data' & Hf' & Hd & [Q1 Q2])%runs_ret_inv.
  unfold with_output in Q1, Q2. rewrite Hn in Q1, Q2. exists w', h', data'. done.
Qed.

Theorem fdtput_sets_property_witness :
  exists w' h' data', do_fdtput s_put s_file (str "//n@1" :: str "val" :: s_args) s_env s_world = Ret (0, w') /\
    w_out w' = [] /\ w_written w' = [(s_file, data')] /\
    file_is data' h' [] (flat (INode [] (edit_at [str "n@1"] (fun its => set_items s_strs (str "val") its (b4 31 ++ b4 (-1))) s_items)))
      (s_strs ++ str "val" ++ [x00]) /\ zlen data' = h_totalsize h'.
Proof.
  apply (fdtput_sets_property s_env s_world s_put s_file s_bytes s_hdr [] [] s_items s_strs (str "//n@1") (str "val") s_args
    [IProp 11 (b4 1); IProp 15 (b4 7)] (b4 31 ++ b4 (-1)) s_io_works s_heap_ok eq_refl eq_refl eq_refl s_file_is eq_refl eq_refl eq_refl eq_refl);
    vm_compute; first [reflexivity|discriminate].
Defined.

(** C16. fdtget on such a file prints a line for each query, in order: the
    value of the property in the form of the type option, which without one is
    guessed from the value, or the default where the node or the property is
    missing; it stops at the first query with neither, or with a value that
    does not have the form, with the lines before it printed. *)
Theorem fdtget_prints e w disp filename data h rsv rn items strs qs :
  (forall o n, 0 <= e_read e o n) -> heap_ok w -> contents e filename = Some data -> zlen data < Z.pos loop_bound ->
  file_is data h rsv (flat (INode rn items)) strs -> ToolGet.di_mode disp = MODE_SHOW_VALUE ->
  di_size disp = - 1 \/ di_size disp = 1 \/ di_size disp = 2 \/ di_size disp = 4 ->
  Forall path_ok qs -> 2 * zlen qs < Z.pos loop_bound ->
  exists w', do_fdtget disp filename (query_args qs) 2 e w = Ret (if (get_lines disp strs items qs).2 then 0 else - 1, w') /\
    w_out w' = w_out w ++ (get_lines disp strs items qs).1 /\ w_written w' = w_written w.
Proof.
  intros Hr Hok Hc Hl Hf Hm Hs Hq Hn.
  pose proof (do_fdtget_runs e disp h rsv strs rn items Hm Hs w filename data qs Hr Hok Hc Hl Hf Hq Hn)
    as (r & w' & E & -> & H)%runs_ret_inv. exists w'. done.
Qed.

(** fdtget of a guessed value, a missing one, and a number, then an error. *)
Definition s_get (type : byte) (d : option (list byte)) : ToolGet.display_info := ToolGet.DisplayInfo type (- 1) MODE_SHOW_VALUE d.
Definition s_queries : list (list byte * list byte) :=
  [(str "/", str "compatible"); (str "/n@1", str "reg"); (str "/nowhere", str "reg")].

Theorem fdtget_prints_witness :
  (exists w', do_fdtget (s_get x00 None) s_file (query_args s_queries) 2 s_env s_world = Ret (- 1, w') /\
    w_out w' = str "acme" ++ nl :: str "1" ++ [nl]) /\
  exists w', do_fdtget (s_get "x"%byte (Some (str "none"))) s_file (query_args s_queries) 2 s_env s_world = Ret (0, w') /\
    w_out w' = str "61 63 6d 65 0" ++ nl :: str "1" ++ nl :: str "none" ++ [nl].
Proof.
  assert (Forall path_ok s_queries) as Hq by (repeat (constructor; [split; reflexivity|]); constructor).
  assert (forall d, d = - 1 -> d = - 1 \/ d = 1 \/ d = 2 \/ d = 4) as Hs by (intros d ->; by left).
  assert (forall o n, 0 <= e_read s_env o n) as Hr by apply s_io_works.
  split.
  - destruct (fdtget_prints s_env s_world (s_get x00 None) s_file s_bytes s_hdr [] [] s_items s_strs s_queries Hr s_heap_ok
      eq_refl eq_refl s_file_is eq_refl (Hs _ eq_refl) Hq eq_refl) as (w' & E & O & _). exists w'. split; [exact E|exact O].
  - destruct (fdtget_prints s_env s_world (s_get "x"%byte (Some (str "none"))) s_file s_bytes s_hdr [] [] s_items s_strs s_queries Hr s_heap_ok
      eq_refl eq_refl s_file_is eq_refl (Hs _ eq_refl) Hq eq_refl) as (w' & E & O & _). exists w'. split; [exact E|exact O].
Defined.

(** C17. What fdtput stored with an explicit type and no size modifier, or the
    modifier b or l (1 or 4 bytes), is what fdtget shows with the same type
    option, whatever the heap it starts from: the strings as they were given,
    the numbers as printed with the conversion they were read with. The
    arguments are those that have a value: strings, or numbers the conversion
    reads. The modifier h is left out, for fdtput writes one byte only of each
    number of two, and the round trip fails there. *)
Theorem fdtput_fdtget_roundtrip e w disp filename data h rsv rn items strs node prop args its val :
  io_works e -> heap_ok w -> streq filename (str "-") = false -> e_file e filename = Some data -> zlen data < Z.pos loop_bound ->
  file_is data h rsv (flat (INode rn items)) strs -> names_ok strs (flats its) ->
  oper disp = OPER_WRITE_PROP -> auto_path disp = false -> type disp <> x00 -> (type disp = "s"%byte -> Forall no_nul args) ->
  size disp = - 1 \/ size disp = 1 \/ size disp = 4 ->
  head node = Some "/"%byte -> Z.of_nat (length node) < Z.pos loop_bound - 1 -> items_at (path_comps node) items = Some its ->
  encode_args disp args = Some val -> zlen val <= INT_MAX - 15 -> zlen prop < INT_MAX -> no_nul prop ->
  h_totalsize h + prop_room strs its prop val < INT_MAX ->
  exists w' data', do_fdtput disp filename (node :: prop :: args) e w = Ret (0, w') /\
    w_written w' = w_written w ++ [(filename, data')] /\
    forall e2 w2 filename2 d, (forall o n, 0 <= e_read e2 o n) -> heap_ok w2 -> contents e2 filename2 = Some data' ->
      exists w3, do_fdtget (ToolGet.DisplayInfo (type disp) (size disp) MODE_SHOW_VALUE d) filename2 [node; prop] 2 e2 w2 = Ret (0, w3) /\
        w_out w3 = w_out w2 ++ spaced true (map (arg_text disp) args) ++ [nl].
Proof.
  intros Hio Hok Hn Hc Hl Hf Hnames Hop Hauto Ht Hs Hsz Hnode Hlen Hits Henc Hval Hprop Hnn Hmax.
  assert (contents e filename = Some data) as Hc' by (unfold contents; by rewrite Hn).
  pose proof (do_fdtput_runs e w disp filename data h rsv rn items strs node prop args its val Hio Hok Hc' Hl Hf Hop Hauto Hnode
    Hlen Hits Henc Hval Hprop Hmax) as (r & w' & E & -> & h' & data' & Hf' & Hd & [_ Q2])%runs_ret_inv.
  unfold with_output in Q2. rewrite Hn in Q2. exists w', data'. split; [exact E|]. split; [exact Q2|].
  intros e2 w2 filename2 d Hr2 Hok2 Hc2. set (disp2 := ToolGet.DisplayInfo _ _ _ _). set (items' := edit_at _ _ _) in *.
  assert (get_lines disp2 (set_strs strs prop its) items' [(node, prop)] = (spaced true (map (arg_text disp) args) ++ [nl], true)) as Hg.
  { unfold get_lines, get_line, items'. rewrite (items_edit_at _ _ _ _ Hits). cbn [mbind option_bind].
    rewrite (prop_value_set strs prop its val prop Hnn Hnames), bool_decide_eq_true_2 by done.
    unfold disp2. cbn [ToolGet.di_type ToolGet.di_size]. by rewrite (encode_shown disp args val Henc Ht Hs Hsz). }
  pose proof (do_fdtget_runs e2 disp2 h' rsv (set_strs strs prop its) rn items' eq_refl) as H. cbn [ToolGet.di_size disp2] in H.
  assert (zlen data' < Z.pos loop_bound) as Hl'.
  { rewrite Hd. specialize (Hf' (upd ∅ 0 data') 0 eq_refl (upd_at _ _ _)). pose proof (rw_sizes _ _ _ _ _ _ Hf') as (_ & _ & _ & _ & _ & _ & ?).
    unfold loop_bound. ilia. }
  specialize (H ltac:(lia) w2 filename2 data' [(node, prop)] Hr2 Hok2 Hc2 Hl' Hf' ltac:(by constructor) eq_refl).
  apply runs_ret_inv in H as (r & w3 & E3 & -> & O & _). rewrite Hg in E3, O. exists w3. split; [exact E3|exact O].
Qed.

Theorem fdtput_fdtget_roundtrip_witness :
  exists w' data', do_fdtput s_put s_file (str "//n@1" :: str "val" :: s_args) s_env s_world = Ret (0, w') /\
    w_written w' = [(s_file, data')] /\
    forall e2 w2 filename2 d, (forall o n, 0 <= e_read e2 o n) -> heap_ok w2 -> contents e2 filename2 = Some data' ->
      exists w3, do_fdtget (ToolGet.DisplayInfo "x"%byte (- 1) MODE_SHOW_VALUE d) filename2 [str "//n@1"; str "val"] 2 e2 w2 = Ret (0, w3) /\
        w_out w3 = w_out w2 ++ str "1f ffffffff" ++ [nl].
Proof.
  assert (names_ok s_strs (flats [IProp 11 (b4 1); IProp 15 (b4 7)])) as Hnames by (repeat (constructor; [vm_compute; eauto|]); constructor).
  assert (no_nul (str "val")) as Hnn by (apply no_nul_dec; vm_compute; reflexivity).
  assert (zlen (b4 31 ++ b4 (-1)) <= INT_MAX - 15) as Hv by (vm_compute; discriminate).
  assert (type s_put <> x00) as Ht by discriminate.
  assert (type s_put = "s"%byte -> Forall no_nul s_args) as Hs by discriminate.
  exact (fdtput_fdtget_roundtrip s_env s_world s_put s_file s_bytes s_hdr [] [] s_items s_strs (str "//n@1") (str "val") s_args
    [IProp 11 (b4 1); IProp 15 (b4 7)] (b4 31 ++ b4 (-1)) s_io_works s_heap_ok eq_refl eq_refl eq_refl s_file_is Hnames eq_refl eq_refl
    Ht Hs (or_introl eq_refl) eq_refl eq_refl eq_refl eq_refl Hv eq_refl Hnn eq_refl).
Defined.
