(* ===== verification/ToolDump.v ===== *)
(** dtc/fdtdump.c: a blob as text, read without libfdt's checks. *)
From S2P Require Import Prelude Monad Memory Ctype Libfdt ToolWorld ToolUtil.

Definition FDT_MAGIC_SIZE : Z := 4.
Definition MAX_VERSION : Z := 17.

Definition tagname (tag : Z) : list byte :=
  if tag =? FDT_BEGIN_NODE then str "FDT_BEGIN_NODE"
  else if tag =? FDT_END_NODE then str "FDT_END_NODE"
  else if tag =? FDT_PROP then str "FDT_PROP"
  else if tag =? FDT_NOP then str "FDT_NOP"
  else if tag =? FDT_END then str "FDT_END"
  else str "FDT_???".

Definition dumpf (debug : bool) (s : list byte) : prog unit := pwhen debug (printf (str "// " ++ s)).

(** [printf("%*s", n, "")]: a negative width pads as well. *)
Definition spaces (n : Z) : list byte := replicate (Z.to_nat (Z.abs n)) " "%byte.

(** [%#x]: no prefix for 0. *)
Definition fmt_alt_x (v : Z) : list byte := if v =? 0 then str "0" else str "0x" ++ fmt_x 0 v.

Definition print_header (m : mem) (blob : Z) : res (list byte) :=
  let! magic := fdt_magic m blob in
  let! totalsize := fdt_totalsize m blob in
  let! off_dt := fdt_off_dt_struct m blob in
  let! off_str := fdt_off_dt_strings m blob in
  let! off_mem_rsvmap := fdt_off_mem_rsvmap m blob in
  let! version := fdt_version m blob in
  let! last_comp := fdt_last_comp_version m blob in
  let line name (v : list byte) := str "// " ++ name ++ v ++ [nl] in
  let hex v := str "0x" ++ fmt_x 0 v in
  let opt (b : bool) (f : res Z) (name : list byte) (fmt : Z -> list byte) : res (list byte) := if b then let! v := f in Ret (line name (fmt v)) else Ret [] in
  let! cpuid := opt (2 <=? version) (fdt_boot_cpuid_phys m blob) (str "boot_cpuid_phys:" ++ [tab]) hex in
  let! sstr := opt (3 <=? version) (fdt_size_dt_strings m blob) (str "size_dt_strings:" ++ [tab]) hex in
  let! sstruct := opt (17 <=? version) (fdt_size_dt_struct m blob) (str "size_dt_struct:" ++ [tab]) hex in
  Ret (str "/dts-v1/;" ++ [nl] ++
    line (str "magic:" ++ [tab; tab]) (hex magic) ++
    line (str "totalsize:" ++ [tab; tab]) (hex totalsize ++ str " (" ++ fmt_u totalsize ++ str ")") ++
    line (str "off_dt_struct:" ++ [tab]) (hex off_dt) ++
    line (str "off_dt_strings:" ++ [tab]) (hex off_str) ++
    line (str "off_mem_rsvmap:" ++ [tab]) (hex off_mem_rsvmap) ++
    line (str "version:" ++ [tab; tab]) (fmt_u version) ++
    line (str "last_comp_version:" ++ [tab]) (fmt_u last_comp) ++
    cpuid ++ sstr ++ sstruct ++ [nl]).

Definition dump_rsvmap (p_rsvmap : Z) : prog unit :=
  ploop (fun i =>
    let* addr := reading (fun m => ld64 m (p_rsvmap + 16 * i)) in
    let* size := reading (fun m => ld64 m (p_rsvmap + 16 * i + 8)) in
    if (addr =? 0) && (size =? 0) then pret (Break tt) else
    do* printf (str "/memreserve/ " ++ fmt_alt_x addr ++ str " " ++ fmt_alt_x size ++ str ";" ++ [nl]) in
    pret (Continue (i + 1))) 0.

(** One tag at [p], at [depth]; addresses are aligned, not offsets. *)
Definition dump_step (blob : Z) (debug : bool) (version p_strings : Z) (st : Z * Z) : prog (ctl (Z * Z) unit) :=
  let shift := 4 in
  let '(p, depth) := st in
  let off a n := fmt_x 4 (u64 (a - blob - n)) in
  let* tag := reading (fun m => ld32 m p) in
  let p := p + 4 in
  if tag =? FDT_END then pret (Break tt) else
  do* dumpf debug (off p 4 ++ str ": tag: 0x" ++ fmt_x 8 tag ++ str " (" ++ tagname tag ++ str ")" ++ [nl]) in
  if tag =? FDT_BEGIN_NODE then
    let* s := reading (fun m => load_str m p) in
    let p := align_up (p + zlen s + 1) 4 in
    do* printf (spaces (depth * shift) ++ (if bool_decide (s = []) then str "/" else s) ++ str " {" ++ [nl]) in
    let* depth := lift (sint (depth + 1)) in
    pret (Continue (p, depth))
  else if tag =? FDT_END_NODE then
    let* depth := lift (sint (depth - 1)) in
    do* printf (spaces (depth * shift) ++ str "};" ++ [nl]) in
    pret (Continue (p, depth))
  else if tag =? FDT_NOP then
    do* printf (spaces (depth * shift) ++ str "// [NOP]" ++ [nl]) in
    pret (Continue (p, depth))
  else if negb (tag =? FDT_PROP) then
    do* eprintf (spaces (depth * shift) ++ str " ** Unknown tag 0x" ++ fmt_x 8 tag ++ [nl]) in
    pret (Break tt)
  else
    let* sz := reading (fun m => ld32 m p) in
    let sz := s32 sz in
    let* nameoff := reading (fun m => ld32 m (p + 4)) in
    let s := p_strings + nameoff in
    let p := p + 8 in
    let p := if (version <? 16) && (8 <=? sz) then align_up p 8 else p in
    let t := p in
    let p := align_up (p + sz) 4 in
    let* name := reading (fun m => load_str m s) in
    do* dumpf debug (off s 0 ++ str ": string: " ++ name ++ [nl]) in
    do* dumpf debug (off t 0 ++ str ": value" ++ [nl]) in
    do* printf (spaces (depth * shift) ++ name) in
    let* data := reading (fun m => utilfdt_print_data m t sz) in
    do* printf (data ++ str ";" ++ [nl]) in
    pret (Continue (p, depth)).

Definition dump_blob (blob : Z) (debug : bool) : prog unit :=
  let* hdr := reading (fun m => print_header m blob) in
  do* printf hdr in
  let* off_mem_rsvmap := reading (fun m => fdt_off_mem_rsvmap m blob) in
  do* dump_rsvmap (blob + off_mem_rsvmap) in
  let* version := reading (fun m => fdt_version m blob) in
  let* off_dt := reading (fun m => fdt_off_dt_struct m blob) in
  let* off_str := reading (fun m => fdt_off_dt_strings m blob) in
  ploop (dump_step blob debug version (blob + off_str)) (blob + off_dt, 0).

(** The tests are made in order, on as much of the header as they need. *)
Definition valid_header (m : mem) (p len : Z) : res bool :=
  let! bad :=
    Ret (len <? 40)
    ||! (let! v := fdt_magic m p in Ret (negb (v =? FDT_MAGIC)))
    ||! (let! v := fdt_version m p in Ret (MAX_VERSION <? v))
    ||! (let! v := fdt_last_comp_version m p in Ret (MAX_VERSION <? v))
    ||! (let! v := fdt_totalsize m p in Ret (len <=? v))
    ||! (let! v := fdt_off_dt_struct m p in Ret (len <=? v))
    ||! (let! v := fdt_off_dt_strings m p in Ret (len <=? v)) in
  Ret (negb bad).

(** The scan for an embedded blob in [buf, endp): the address, or [None] when
    [memchr] finds nothing. *)
Definition scan_blob (file : list byte) (buf endp : Z) (debug : bool) : prog (option Z) :=
  ploop (fun p =>
    if negb (FDT_MAGIC_SIZE <=? endp - p) then pret (Break (Some p)) else
    let* q := reading (fun m => memchr m p (z2b (Z.shiftr FDT_MAGIC 24)) (endp - p - FDT_MAGIC_SIZE)) in
    match q with
    | None => pret (Break None)
    | Some p =>
      let* magic := reading (fun m => fdt_magic m p) in
      if magic =? FDT_MAGIC then
        (* try and validate the main struct *)
        let* ok := reading (fun m => valid_header m p (endp - p)) in
        if ok then pret (Break (Some p)) else
        do* pwhen debug (printf (file ++ str ": skipping fdt magic at offset " ++ fmt_alt_x (p - buf) ++ [nl])) in
        pret (Continue (p + 1))
      else pret (Continue (p + 1))
    end) buf.

(** [main] after [getopt_long], with the file name it was given. *)
Definition fdtdump_main (debug scan : bool) (file : list byte) : prog Z :=
  do* eprintf (nl :: str "**** fdtdump is a low-level debugging tool, not meant for general use." ++ [nl] ++
    str "**** If you want to decompile a dtb, you probably want" ++ [nl] ++
    str "****     dtc -I dtb -O dts <filename>" ++ [nl; nl]) in
  let* '(buf, len) := utilfdt_read file in
  match buf, len with
  | Some buf, Some len =>
    if scan then
      let endp := buf + len in
      let* p := scan_blob file buf endp debug in
      match p with
      | None => die
      | Some p =>
        if endp - p <? 40 then die else
        do* printf (file ++ str ": found fdt at offset " ++ fmt_alt_x (p - buf) ++ [nl]) in
        do* dump_blob p debug in pret 0
      end
    else
      let* ok := reading (fun m => valid_header m buf len) in
      if negb ok then die else
      do* dump_blob buf debug in pret 0
  | _, _ => die
  end.
