(* ===== verification/ToolOverlay.v ===== *)
(** dtc/fdtoverlay.c: overlays applied one after the other to a base blob. *)
From S2P Require Import Prelude Monad Memory Ctype Libfdt FdtCheck FdtRw FdtOverlay ToolWorld ToolUtil.

Definition BUF_INCREMENT : Z := 65536.

(** Returns the new blob, or NULL, and [*buf_len]. *)
Definition apply_one (base overlay buf_len : Z) (name : list byte) : prog (option Z * Z) :=
  (* We take a copies first, because a a failed apply can trash both the base
     blob and the overlay *)
  let* osize := reading (fun m => fdt_totalsize m overlay) in
  let* tmpo := xmalloc osize in
  let fail tmp buf_len := do* free tmpo in do* free_opt tmp in pret (None, buf_len) in
  let* '(tmp, ret, buf_len, copied) := ploop (fun '(tmp, buf_len) =>
    let* tmp := xrealloc tmp buf_len in
    let* ret := changing (fun m => fdt_open_into m base tmp (s32 buf_len)) in
    if negb (ret =? 0) then
      let* s := lift (fdt_strerror ret) in
      do* eprintf (nl :: str "Failed to make temporary copy: " ++ s ++ [nl]) in
      pret (Break (tmp, ret, buf_len, false))
    else
      let* osize := reading (fun m => fdt_totalsize m overlay) in
      do* storing (fun m => memcpy m tmpo overlay osize) in
      let* ret := changing (fun m => fdt_overlay_apply m tmp tmpo) in
      if ret =? - FDT_ERR_NOSPACE then pret (Continue (Some tmp, buf_len + BUF_INCREMENT))
      else pret (Break (tmp, ret, buf_len, true))) (None, buf_len) in
  if negb copied then fail (Some tmp) buf_len else
  if negb (ret =? 0) then
    let* s := lift (fdt_strerror ret) in
    do* eprintf (nl :: str "Failed to apply '" ++ name ++ str "': " ++ s ++ [nl]) in
    fail (Some tmp) buf_len
  else
    do* free base in
    do* free tmpo in
    pret (Some tmp, buf_len).

Fixpoint free_all (ps : list Z) : prog unit :=
  match ps with
  | [] => pret tt
  | p :: ps => do* free p in free_all ps
  end.

(** A blob read from a file, refused when more than was read belongs to it. *)
Definition read_blob (filename : list byte) (incomplete : Z -> Z -> list byte) : prog (option Z * bool) :=
  let* '(blob, len) := utilfdt_read filename in
  match blob, len with
  | Some blob, Some len =>
    let* totalsize := reading (fun m => fdt_totalsize m blob) in
    if len <? totalsize then
      do* eprintf (nl :: incomplete len totalsize ++ [nl]) in pret (Some blob, false)
    else pret (Some blob, true)
  | _, _ =>
    do* eprintf (nl :: str "Failed to read '" ++ filename ++ str "'" ++ [nl]) in pret (None, false)
  end.

Definition bytes_read (buf_len totalsize : Z) : list byte :=
  str " is incomplete (" ++ fmt_u buf_len ++ str " / " ++ fmt_u totalsize ++ str " bytes read)".

(** Read and keep track of the overlay blobs, until one fails. *)
Fixpoint read_overlays (argv : list (list byte)) : prog (list Z * bool) :=
  match argv with
  | [] => pret ([], true)
  | a :: argv =>
    let* '(blob, ok) := read_blob a (fun l t => str "Overlay '" ++ a ++ str "'" ++ bytes_read l t) in
    match blob, ok with
    | Some b, true => let* '(bs, ok) := read_overlays argv in pret (b :: bs, ok)
    | Some b, false => pret ([b], false)
    | None, _ => pret ([], false)
    end
  end.

(** Apply the overlays in sequence: the blob, NULL after a failure. *)
Fixpoint apply_all (blob buf_len : Z) (ovs : list (Z * list byte)) : prog (option Z) :=
  match ovs with
  | [] => pret (Some blob)
  | (ov, name) :: ovs =>
    let* '(blob, buf_len) := apply_one blob ov buf_len name in
    match blob with
    | None => pret None
    | Some blob => apply_all blob buf_len ovs
    end
  end.

Definition do_fdtoverlay (input_filename output_filename : list byte) (argv : list (list byte)) : prog Z :=
  let* '(blob, ok) := read_blob input_filename (fun l t => str "Base blob" ++ bytes_read l t) in
  match blob, ok with
  | Some blob, true =>
    let* '(ovblob, ok) := read_overlays argv in
    let out_err blob ret := do* free_all ovblob in do* free_opt blob in pret ret in
    if negb ok then out_err (Some blob) (- 1) else
    let* buf_len := reading (fun m => fdt_totalsize m blob) in
    let* blob := apply_all blob buf_len (combine ovblob argv) in
    match blob with
    | None => out_err None (- 1)
    | Some blob =>
      let* _ := changing (fun m => fdt_pack m blob) in
      let* ret := utilfdt_write output_filename blob in
      do* (if negb (ret =? 0)
           then eprintf (nl :: str "Failed to write '" ++ output_filename ++ str "'" ++ [nl]) else pret tt) in
      out_err (Some blob) ret
    end
  | _, _ => do* free_opt blob in pret (- 1)
  end.

(** [main] after [getopt_long]: the -i, -o and -v options and the rest. *)
Definition fdtoverlay_main (input_filename output_filename : option (list byte)) (verbose : bool)
    (argv : list (list byte)) : prog Z :=
  match input_filename, output_filename with
  | Some input, Some output =>
    if zlen argv <=? 0 then die else
    do* pwhen verbose
      (printf (str "input  = " ++ input ++ [nl] ++ str "output = " ++ output ++ [nl] ++
        concat (imap (fun i a => str "overlay[" ++ fmt_d (Z.of_nat i) ++ str "] = " ++ a ++ [nl]) argv))) in
    let* r := do_fdtoverlay input output argv in
    pret (if negb (r =? 0) then 1 else 0)
  | _, _ => die
  end.
