(* ===== verification/Findings.v ===== *)
(** Behaviours of the code outside what its callers expect, each at one
    concrete input. *)
From stdpp Require Import strings gmap.
From S2P Require Import Dtsv0.
From S2P Require Import Prelude Monad Ctype Memory Libfdt Fdt FdtSpec FdtTree FdtRo FdtCheck FdtWip FdtRead.
From S2P Require Import FdtNav FdtRw Sample FdtSw FdtAddresses DtcUtil DtcData DtcTree DtcFlat DtcSource.
From S2P Require Import DtcDataSpec DtcTreeSpec DtcGen DtcChecks DtcCheckFns DtcBusChecks DtcCheckTable.
From S2P Require Import DtcSrcpos DtcRegex DtcLexer DtcParser DtcUnflat ToolWorld ToolUtil ToolHeap ToolGet ToolPut ToolDump ToolOverlay.
Open Scope Z_scope.

(** A blob at 4096 from its header words, its structure block at 56 and the
    rest. *)
Definition f_base : Z := 4096.
Definition f_mem (words : list Z) (contents : list byte) : mem :=
  upd ∅ f_base (take 56 (flat_map be_enc32 words ++ replicate 56 x00) ++ contents).
Definition f_words (version ssize nsize : Z) : list Z :=
  [FDT_MAGIC; 56 + ssize + nsize; 56; 56 + ssize; 40; version; 2; 0; nsize; ssize].

(** ** libfdt *)

(** A property of length 0xfffffff4. *)
Definition f_wrap : mem := f_mem (f_words 17 16 4) (flat_map be_enc32 [FDT_PROP; 4294967284; 0; FDT_END] ++ replicate 4 x00).

Lemma next_tag_no_progress : fdt_next_tag f_wrap f_base 0 = Ret (FDT_PROP, 0).
Proof. vm_compute. reflexivity. Qed.

Lemma check_full_never_ends : fdt_check_full f_wrap f_base 76 = Fault Div.
Proof.
  assert (E : fdt_check_full f_wrap f_base 76 = loop (fdt_check_full_body f_wrap f_base) (CheckState 0 0 false)).
  { unfold fdt_check_full.
    replace (fdt_header_size f_wrap f_base) with (@Ret Z 40) by (vm_compute; reflexivity).
    replace (fdt_check_header f_wrap f_base) with (@Ret Z 0) by (vm_compute; reflexivity).
    replace (fdt_totalsize f_wrap f_base) with (@Ret Z 76) by (vm_compute; reflexivity).
    replace (fdt_num_mem_rsv f_wrap f_base) with (@Ret Z 0) by (vm_compute; reflexivity). reflexivity. }
  rewrite E. apply (loop_diverges (fun st => st = CheckState 0 0 false)); [reflexivity|].
  intros st ->. exists (CheckState 0 0 false). split; [|reflexivity]. vm_compute. reflexivity.
Qed.

(** A version 3 blob whose root has no slash in its name: [fdt_get_name]
    returns NULL. *)
Lemma check_full_null_name :
  fdt_check_full (f_mem (f_words 3 16 4) (flat_map be_enc32 [FDT_BEGIN_NODE; 0; FDT_END_NODE; FDT_END] ++ replicate 4 x00))
    f_base 76 = Fault Oob.
Proof. vm_compute. reflexivity. Qed.

(** A property with no node around it. *)
Lemma check_full_no_root :
  fdt_check_full (f_mem (f_words 17 16 4) (flat_map be_enc32 [FDT_PROP; 0; 0; FDT_END] ++ replicate 4 x00)) f_base 76 = Ret 0.
Proof. vm_compute. reflexivity. Qed.

(** The header of a version 2 blob ends before the size of the strings. *)
Lemma check_header_v2_reads_past :
  fdt_check_header (upd ∅ f_base (flat_map be_enc32 [FDT_MAGIC; 32; 32; 32; 32; 2; 2; 0])) f_base = Fault Oob.
Proof. vm_compute. reflexivity. Qed.

Lemma strerror_alignment : fdt_strerror (- FDT_ERR_ALIGNMENT) = Ret (str "<unknown error>").
Proof. vm_compute. reflexivity. Qed.

(** The sample tree with a buffer at 8192, and an offset past the root. *)
Lemma get_path_before_buffer :
  fdt_get_path (upd s_mem 8192 (replicate 64 x00)) s_base 1000 8192 64 = Fault Oob.
Proof. vm_compute. reflexivity. Qed.

(** / { aliases { a = "a"; }; }; *)
Definition f_alias_struct : list byte :=
  flat_map tok_bytes (flat (INode [] [INode (str "aliases") [IProp 0 (str "a" ++ [x00])]])) ++ be_enc32 FDT_END.
Definition f_alias : mem :=
  f_mem (f_words 17 (zlen f_alias_struct) 2) (f_alias_struct ++ str "a" ++ [x00]).

(** An alias that is its own value is looked up without end: every depth of
    calls is used up. *)
Lemma path_offset_alias_loop : fdt_path_offset f_alias f_base (str "a") = Fault Div.
Proof. vm_compute. reflexivity. Qed.

(** [len + idx] wraps: the write is 4 GiB behind the value. *)
Lemma setprop_partial_wraps :
  fdt_setprop_inplace_namelen_partial f_alias f_base 8 (str "a") 4294967292 (replicate 6 x00) = Fault Oob.
Proof. vm_compute. reflexivity. Qed.

(** A list of two bytes, no terminator: the comparison reads a third. *)
Lemma stringlist_contains_reads_past :
  fdt_stringlist_contains (upd ∅ f_base (str "ab")) f_base 2 (str "ab") = Fault Oob.
Proof. vm_compute. reflexivity. Qed.

(** A tree with one address cell and one size cell: address 0 is refused, and
    a range past 2^32 is not. *)
Definition f_cells_struct : list byte :=
  flat_map tok_bytes (flat (INode [] [IProp 0 (b4 1); IProp 15 (b4 1)])) ++ be_enc32 FDT_END.
Definition f_cells : mem :=
  f_mem [FDT_MAGIC; 512; 56; 56 + zlen f_cells_struct; 40; 17; 16; 0; 27; zlen f_cells_struct]
    (f_cells_struct ++ str "#address-cells" ++ x00 :: str "#size-cells" ++ x00 :: replicate 512 x00).

Lemma appendprop_addrrange_zero :
  fst <$> match fdt_appendprop_addrrange f_cells f_base 0 0 (str "reg") 0 16 with Ret r => Some r | Fault _ => None end =
  Some (- FDT_ERR_BADVALUE).
Proof. vm_compute. reflexivity. Qed.

Lemma appendprop_addrrange_wraps :
  fst <$> match fdt_appendprop_addrrange f_cells f_base 0 0 (str "reg") 4294967295 16 with Ret r => Some r | Fault _ => None end =
  Some 0.
Proof. vm_compute. reflexivity. Qed.

(** A name longer than the room left is written below the buffer. *)
Lemma sw_add_string_below_buffer :
  fdt_add_string_ (upd ∅ f_base (flat_map be_enc32 [FDT_SW_MAGIC; 100; 56; 100; 40; 17; 16; 0; 0; 0] ++ replicate 60 x00))
    f_base (replicate 200 "a"%byte) = Fault Oob.
Proof. vm_compute. reflexivity. Qed.

(** ** dtc *)

(** A loop that stops in its first round. *)
Lemma loop_break_now {S A} (body : S -> res (ctl S A)) s a : body s = Ret (Break a) -> loop body s = Ret a.
Proof.
  intros E. unfold loop. assert (H : forall p, loop_pos p body s = Ret (Break a)).
  { intros p. induction p as [p IH|p IH|]; cbn; [by rewrite E|by rewrite IH|done]. }
  by rewrite H.
Qed.

(** The second cell of a value of one. *)
Lemma propval_cell_n_reads_past : propval_cell_n (d_prop (str "p") (be_enc32 7)) 1 = Fault Oob.
Proof. vm_compute. reflexivity. Qed.

(** A NUL before a digit, and a character of 8 bits, do not read back. *)
Lemma printed_nul_digit :
  (d_val <$> match data_copy_escape_string (printed [x00; "1"%byte] ++ [quote; x00]) (zlen (printed [x00; "1"%byte])) with
             | Ret d => Some d | Fault _ => None end) = Some [x01; x00].
Proof. vm_compute. reflexivity. Qed.

Lemma printed_high_char : write_propval_string [xe9; x00] = Ret (quote :: str "\xffffffe9" ++ [quote]).
Proof. vm_compute. reflexivity. Qed.

(** A blob whose header says 28 bytes. *)
Lemma dt_from_blob_short_header :
  dt_from_blob (flat_map be_enc32 [FDT_MAGIC; 28; 28; 28; 28; 1; 1]) = Fault Oob.
Proof. vm_compute. reflexivity. Qed.

(** A property of 2 GiB or more: the length is a negative [int], which passes
    the test of the limit and is a huge size for [memcpy]. *)
Lemma flat_read_data_negative blob inb proplen :
  2147483648 <= proplen <= UINT32_MAX -> ib_ptr inb <= ib_limit inb ->
  flat_read_data blob inb (s32 proplen) = Fault Oob.
Proof.
  intros Hp Hl. assert (s32 proplen = proplen - 4294967296) as Es.
  { unfold s32. cint_unfold. rewrite (Z.mod_eq _ 4294967296) by lia.
    assert ((proplen + 2147483648) / 4294967296 = 1) as ->; [|lia].
    symmetry. apply (Z.div_unique _ _ _ (proplen - 2147483648)); lia. }
  unfold flat_read_data. rewrite Es. cint_unfold. destruct (Z.eqb_spec (proplen - 4294967296) 0); [lia|].
  assert (exists d, data_grow_for empty_data (u32 (proplen - 4294967296)) = Ret d) as [d ->].
  { unfold data_grow_for. destruct (_ =? 0); [by eexists|]. rewrite (loop_break_now _ _ (u32 (proplen - 4294967296))).
    - cbn [rbind]. by eexists.
    - change (d_len empty_data + u32 (proplen - 4294967296)) with (u32 (proplen - 4294967296)).
      rewrite (u32_small (u32 _)) by apply u32_range. by rewrite Z.ltb_irrefl. }
  cbn [rbind]. unfold flat_read_chunk. destruct (Z.ltb_spec (ib_limit inb) (ib_ptr inb + (proplen - 4294967296))); [lia|].
  destruct (Z.ltb_spec (proplen - 4294967296) 0); [done|lia].
Qed.

(** A subnode of an old blob with its parent's path. *)
Lemma nodename_from_path_same : nodename_from_path (str "/a") (str "/a") = Fault Oob.
Proof. vm_compute. reflexivity. Qed.

(** The strings before the structure block, opened in place: the boot CPU, 5,
    is read back from what has been moved over the old header. *)
Definition f_swapped : mem :=
  upd ∅ f_base (flat_map be_enc32 [FDT_MAGIC; 76; 60; 56; 40; 17; 16; 5; 4; 16] ++ replicate 16 x00 ++ str "abc" ++ [x00] ++
    flat_map be_enc32 [FDT_BEGIN_NODE; 0; FDT_END_NODE; FDT_END] ++ replicate 180 xff).

Lemma open_into_loses_cpuid :
  fdt_boot_cpuid_phys f_swapped f_base = Ret 5 /\
  match fdt_open_into f_swapped f_base f_base 256 with
  | Ret (err, m) => err = 0 /\ fdt_boot_cpuid_phys m f_base = Ret 4294967295
  | Fault _ => False
  end.
Proof. vm_compute. split; [reflexivity|]. split; reflexivity. Qed.

(** ** Behaviours of the tools that the code does not intend, each at one input. *)

Definition run {A} (p : prog A) (e : env) : option (A * list byte * list byte) :=
  match p e s_world with
  | Ret (a, w) => Some (a, w_out w, w_err w)
  | Fault _ => None
  end.

(** The sample machine with other contents in the file. *)
Definition env_with (data : list byte) : env :=
  Env (fun _ => xff) 12345 (fun f => if bool_decide (f = s_file) then Some data else None) [] (fun _ _ => 100) (fun _ => 3) (fun _ _ => 100)
    (fun _ => []) [].

(** [utilfdt_read] gives the size of its buffer as the amount of data read. *)
Lemma read_len_is_buffer :
  exists buf, run (utilfdt_read s_file) (env_with s_bytes) = Some (Some buf, Some 1024, [], []) /\ zlen s_bytes = 256.
Proof. exists 4096. split; vm_compute; reflexivity. Qed.

(** So the half of a blob is not found to be incomplete. *)
Lemma half_blob_complete :
  exists buf, run (read_blob s_file bytes_read) (env_with (take 128 s_bytes)) = Some (Some buf, true, [], []).
Proof. exists 4096. vm_compute. reflexivity. Qed.

(** A number of two bytes: its low byte, and a byte that is never written. *)
Definition short : display_info := DisplayInfo OPER_WRITE_PROP "x"%byte 2 false false.

Definition value_of (p : prog (option Z * Z)) (e : env) : option (res (list byte)) :=
  match p e s_world with
  | Ret (Some v, len, w) => Some (load_bytes (w_mem w) v len)
  | _ => None
  end.

Lemma short_half_written : value_of (encode_value short [str "1234"]) (env_with []) = Some (Ret [x34; xff]).
Proof. vm_compute. reflexivity. Qed.

(** An argument that is not a number is stored as what the variable held. *)
Lemma not_a_number_stored : value_of (encode_value s_put [str "oops"]) (env_with []) = Some (Ret (b4 12345)).
Proof. vm_compute. reflexivity. Qed.

(** [fdtget -l] of a node with a NOP tag ends there, with an error. *)
Lemma list_ends_at_nop :
  run (fdtget_main [("l"%byte, [])] [s_file; str "/"]) (env_with s_bytes) = Some (1, str "Unknown tag 0x00000004" ++ [nl], []).
Proof. vm_compute. reflexivity. Qed.

(** [fdtput -cp] makes a node without a name of a slash at the end. *)
Definition create : display_info := DisplayInfo OPER_CREATE_NODE x00 (- 1) false true.

Definition files_of {A} (p : prog A) (e : env) : option (A * list (list byte * list byte)) :=
  match p e s_world with
  | Ret (a, w) => Some (a, w_written w)
  | Fault _ => None
  end.

Lemma slash_makes_node :
  exists data, files_of (do_fdtput create s_file [str "/n@1/"]) (env_with s_bytes) = Some (0, [(s_file, data)]) /\
    let m := upd ∅ 4096 data in
    (let! o := fdt_path_offset m 4096 (str "/n@1") in let! c := fdt_first_subnode m 4096 o in fdt_get_name m 4096 c) = Ret (Some 4228, 0).
Proof. eexists. split; [vm_compute; reflexivity|vm_compute; reflexivity]. Qed.

(** A property of length 2^32 - 12 sends fdtdump back to the property's tag. *)
Definition back_blob : list byte :=
  flat_map be_enc32 [FDT_MAGIC; 88; 56; 84; 40; 17; 16; 0; 4; 28; 0; 0; 0; 0; FDT_BEGIN_NODE; 0; FDT_PROP; 4294967284; 0; FDT_END_NODE; FDT_END; 0].

Definition back_mem : mem := upd ∅ 4084 (replicate 12 x00 ++ back_blob).

Lemma dump_never_ends out err :
  dump_blob 4096 false (env_with []) (World back_mem 8192 ∅ out err []) = Fault Div.
Proof.
  assert (forall w, w_mem w = back_mem ->
    ploop (dump_step 4096 false 17 (4096 + 84)) (4096 + 56, 0) (env_with []) w = Fault Div) as K.
  { intros w Hw. unfold ploop.
    apply (loop_diverges (fun '(s, w) => (s = (4152, 0) \/ s = (4160, 1)) /\ w_mem w = back_mem)); [by split; [left|]|].
    intros [s [m b bl o er wr]] [Hs Hm]. cbn in Hm. subst m. destruct Hs as [->| ->].
    - eexists (_, _). split; [vm_compute; reflexivity|]. split; [by right|reflexivity].
    - eexists (_, _). split; [vm_compute; reflexivity|]. split; [by right|reflexivity]. }
  unfold dump_blob. assert (forall A (c : prog A) (k : A -> prog unit) w w' a, c (env_with []) w = Ret (a, w') ->
    k a (env_with []) w' = Fault Div -> pbind c k (env_with []) w = Fault Div) as B by (intros A c k w w' a E E'; unfold pbind; by rewrite E).
  set (w := World back_mem 8192 ∅ out err []). eapply (B _ _ _ w w); [vm_compute; reflexivity|].
  match goal with |- pbind (printf ?h) _ _ _ = _ => set (w1 := World back_mem 8192 ∅ (out ++ h) err []) end.
  apply (B _ _ _ w w1 tt); [reflexivity|].
  do 5 (eapply (B _ _ _ w1 w1); [vm_compute; reflexivity|]). exact (K w1 eq_refl).
Qed.

(** ** Behaviours of dtc's checks outside what they mean to check, each at one
    concrete input. *)

Definition g_opts : check_opts := CheckOpts d_opts false.

(** The state of a tree whose full paths are set, with buses. *)
Definition g_state (t : node) (bus : gmap (list nat) bus_type) : cstate :=
  CState (DtInfo 0 [] 0 (fill_fullpaths t [])) 1 bus (initial_checks g_opts) [].

Definition spoken (r : res cstate) : option (list string) :=
  match r with Ret s => Some (map msg_check (cs_log s)) | Fault _ => None end.

(** A PCI device on bus 1 below a bridge whose range is 0 to 255. *)
Definition g_pci : node :=
  d_node [] [d_prop (str "bus-range") (be_enc32 0 ++ be_enc32 255)] [d_node (str "dev") [d_prop (str "reg") (be_enc32 65536)] []].

Lemma pci_bus_range_upper_ignored :
  spoken (check_pci_device_bus_num g_opts "pci_device_bus_num" [0%nat] (g_state g_pci {[ [] := pci_bus ]})) =
  Some ["pci_device_bus_num"%string].
Proof. vm_compute. reflexivity. Qed.

(** A controller with a child "i2c-bus", which is the bus: the child's name is
    compared over 3 characters. *)
Definition g_i2c : node := d_node [] [] [d_node (str "i2c@0") [] [d_node (str "i2c-bus") [] []]].

Lemma i2c_bus_child_not_seen :
  match check_i2c_bus_bridge g_opts "i2c_bus_bridge" [0%nat] (g_state g_i2c ∅) with
  | Ret s => cs_bus s !! [0%nat] = Some i2c_bus
  | Fault _ => False
  end.
Proof. vm_compute. reflexivity. Qed.

(** A provider whose number of cells is 0xffffffff. *)
Definition g_minus : node :=
  d_node [] [d_prop (str "clocks") (be_enc32 1)] [n_set_phandle 1 (d_node (str "c") [d_prop (str "#clock-cells") (be_enc32 4294967295)] [])].

Lemma phandle_args_never_end :
  check_property_phandle_args g_opts clocks_provider (d_prop (str "clocks") (be_enc32 1)) "clocks_property" [] (g_state g_minus ∅) =
  Fault Div.
Proof.
  unfold check_property_phandle_args. change (negb (is_multiple_of _ 4)) with false. cbn [negb].
  apply (loop_diverges (fun st => st = (0, 0, g_state g_minus ∅) \/ st = (0, -1, g_state g_minus ∅))); [by left|].
  intros st [-> | ->]; (exists (0, -1, g_state g_minus ∅); split; [vm_compute; reflexivity|by right]).
Qed.

(** The root with an endpoint has no parent to mark. *)
Lemma graph_root_null_parent :
  check_graph_nodes "graph_nodes" [] (g_state (d_node [] [] [d_node (str "endpoint") [] []]) ∅) = Fault Oob.
Proof. vm_compute. reflexivity. Qed.

(** A "remote-endpoint" of two cells ends the program. *)
Lemma remote_endpoint_abort :
  get_remote_endpoint g_opts "graph_endpoint" [] (g_state (d_node [] [d_prop (str "remote-endpoint") (be_enc64 1)] []) ∅) = Fault Abort.
Proof. vm_compute. reflexivity. Qed.

(** An empty "status" is compared with a string. *)
Lemma empty_status_null : node_is_disabled (d_node [] [d_prop (str "status") []] []) = Fault Oob.
Proof. vm_compute. reflexivity. Qed.

(** An apostrophe behind an escaped backslash is taken for an escaped one: the
    literal goes on to the next. *)
Definition g_literals : list byte := str "'\\' 'b'".

Lemma char_literal_runs_on : longest (active V1 false) g_literals = Some (12%nat, 6%nat) /\ take 6 g_literals = str "'\\' '".
Proof. vm_compute. split; reflexivity. Qed.

(** A character above 127 ends the input: what follows it is not looked at. *)
Definition g_cut : list byte := str "/dts-v1/; / {}; " ++ [xe9] ++ str " no source".

Lemma high_char_ends_input :
  match yyparse (fun _ => false) (fun _ => Fault Oob) (DtInfo 0 [] 0 (build_node [] [])) g_cut
          (SrcFiles [SrcFile None None 1 1 None] (Some 0%nat) 1 [] None 0 true None) with
  | Ret (r, error, dti, _) => r = 0 /\ error = false /\ n_children (dt dti) = []
  | Fault _ => False
  end.
Proof. vm_compute. repeat split. Qed.

(** Two files converted in one run: the second is not tagged as version 1, and
    the width of its first numbers depends on the last name of the first. *)
Definition g_v0 : list byte := str "/memreserve/ 10 20; / { n = <1>; };".

Lemma second_file_not_tagged :
  convert_dtsv0_main (fun _ => Some g_v0) (fun _ => true) [str "a"; str "b"] =
  Ret [(str "av1", str "/dts-v1/;" ++ [nl; nl] ++ str "/memreserve/ 0x0000000000000010 0x0000000000000020; / { n = <0x1>; };");
       (str "bv1", str "/memreserve/ 0x10 0x20; / { n = <0x1>; };")].
Proof. vm_compute. reflexivity. Qed.

(** The prerequisite of [interrupts_property] went into its data. *)
Lemma interrupts_no_prereqs : c_prereqs (interrupts_property g_opts) = [].
Proof. reflexivity. Qed.
